(* ===== verification/_CoqProject ===== *)
-Q . S2P
Prelude.v
BitUtil.v
PdmaRegs.v
Pdma.v
PdmaFacts.v
PdmaAlloc.v
PdmaSpec.v
PdmaDesc.v
PdmaTimeout.v
PdmaXfer.v
PdmaChain.v
PdmaIsr.v
PdmaMem.v
Conc.v
PdmaPool.v
SpiHw.v
SpiOpen.v
Spi.v
SpiPoll.v
SpiXfer.v
Qspi.v
NandBus.v
NandPort.v
Spinand.v
SpinandDrv.v
NandOps.v
NandPage.v
NandBlock.v
NandBoard.v
CanFdHw.v
CanFdTiming.v
CanFdRate.v
CanFd.v
CanFdDrv.v
CanFdFifo.v
CanFdMsg.v
CanFdRam.v
Device.v
CTime.v
Rtc.v
RtcDrv.v
RtcTime.v
RtcBoot.v
RingBuf.v
RingQueue.v
I2c.v
I2cXfer.v
I2cSeq.v
I2cBus.v
I2cType.v
Smem.v
SmemChain.v
SmemAlloc.v
SmemFree.v
SmemRep.v
SmemRealloc.v
SmemClient.v
SmemHeap.v
SmemLib.v
Hwsem.v
HwsemInv.v
HwsemLock.v
Whc.v
WhcInv.v
WhcMail.v
Serial.v
SerialQueue.v
Uart.v
UartWire.v
UartRate.v
UartSession.v
Gpio.v
GpioTable.v
GpioPins.v
GpioSession.v
GpioIrq.v
PinName.v
SoftI2c.v
SoftI2cBus.v
SoftI2cPins.v
