(* ===== verification/Prelude.v ===== *)
(** * Verification of the NuMaker-IoT-MA35D05KI1 board support package

    The repository is the RT-Thread board support package of a Nuvoton MA35D0 board: the
    standard driver of the chip ([libraries/ma35/StdDriver]), the RT-Thread drivers on it
    ([libraries/ma35/rtt_port]), packages for external chips ([libraries/nu_packages]), and
    the RT-Thread kernel and third-party packages the image is built with.  This library
    models the drivers that carry protocol and resource logic, with the parts of the kernel
    they meet, and proves what makes them correct.  Names follow the sources; a definition
    of the same name as a C function models that function, in the configuration of
    [rtconfig.h] (two Cortex-A35 cores in 32-bit mode, so [int] and pointers have 32 bits).

    ** How the program is modelled

    Stateful code runs in the state monad [M] of this file, whose outcomes are a value with
    the new state, a failed [RT_ASSERT], an operation C leaves undefined (an index outside
    an array, a NULL dereference), and a loop that has used up its fuel.  Machine words are
    integers with the wrap-around written out ([u8], [u16], [u32], [not32], [shl32]), arrays
    are lists, registers are functions from an enumeration of their names.  A register that
    does not simply store is given its documented behaviour (write-one-to-clear, command
    registers, FIFOs).  What the hardware or another thread does by itself is a parameter:
    a class with the operations, and a class of laws where a theorem relies on them
    ([PdmaHw] and [PdmaHwSpec], [SpiHw], [QspiBus] and [QspiBusSpec], [Devices] and
    [DevicesLaws], [I2cPeer], [UartEnv], the environment of [CanFdHw]).  Drivers that two
    processors or threads run at once are programs of single accesses, interleaved at will
    ([Conc]).  Console output is left out.

    ** Components, in the order of the files

    - [BitUtil]: the bit counters and byte-order accessors of [nu_bitutil.h].
    - PDMA.  [PdmaRegs] is [nu_pdma.c] on a register file and a descriptor memory; [Pdma]
      is [drv_pdma.c]: allocation masks, channel tables, callbacks, descriptors, chained
      transfers, the interrupt handler; [PdmaMem] is the pool of memory-to-memory actors at
      the end of that file as one thread runs it, and [PdmaPool] its functions as programs
      of single accesses, which threads and callbacks interleave ([Conc]).  [PdmaFacts] (invariants and one lemma per register operation),
      [PdmaAlloc], [PdmaDesc], [PdmaTimeout] and [PdmaXfer] (what allocation, descriptors,
      time-outs and single transfers do), and in [PdmaFacts] a concrete board for the witnesses.
      Theorems: every sequence of channel operations against an abstract channel table (C5:
      [PdmaSpec]); chained transfers with the overrun at multiples of 65536 (C10, C11:
      [PdmaChain]); the interrupt handler (C14: [PdmaIsr]); [memcpy] (C16: [PdmaMem]); the
      exclusive use of the actors by any number of threads, under any interleaving (C17:
      [PdmaPool]).
    - SPI and QSPI.  [SpiHw] is the controller with its two FIFOs, whose pace and peer are
      arbitrary; [SpiOpen] is [QSPI_Open], [SPI_Open] and the bus clock of [nu_qspi.c] and
      [nu_spi.c] (C21); [Spi] is [drv_spi.c], on the PDMA driver; [SpiPoll] and [SpiXfer]
      say what a message puts on the wire, which words a polled read can lose, and how the
      channels of a bus are allocated (C22); [Qspi] is [drv_qspi.c] and the stages
      of its messages (C25).
    - SPI-NAND.  [NandBus] holds the messages of [drv_spinand.c] on any bus, and
      [NandPort] shows that the QSPI driver is such a bus; [Spinand] is [spinand.c],
      [SpinandDrv] the MTD device of [drv_spinand.c]; [NandOps], [NandPage] and [NandBlock]
      give the wait for the chip, pages, and bad blocks and erasing, command by command
      (C27, C28); [NandBoard] is a chip for the witnesses.
    - CAN FD.  [CanFdHw] is the controller with its message RAM; [CanFdTiming] and
      [CanFd] are [nu_canfd.c], [CanFdDrv] is [drv_canfd.c].  Theorems: the search for the
      bit timing against a reference and the rate the registers stand for (C31, C32:
      [CanFdRate]); the receive FIFOs as bounded
      queues (C34: [CanFdFifo]); received messages and the way of a message from sender to
      receiver (C35, C36: [CanFdMsg]); the partition of the message RAM (C37: [CanFdRam]).
    - Devices and time.  [Device] is the device layer of the kernel ([rt-thread/src/device.c]
      with the object list of [object.c]), generic in the drivers; [CTime] is the calendar of
      the C library ([ctime.c]); [Rtc] is [nu_rtc.c] with the clock gates of [nu_clk.c];
      [RtcDrv] is [drv_rtc.c] as a driver of the device layer, and [time], [stime],
      [gettimeofday] and [settimeofday] on it.  Theorems: what [stime] stores [time] reads
      (C38: [RtcTime]); the start of the clock (C39: [RtcBoot]).
    - [RingBuf] is the byte ring of the driver framework ([ringbuffer.c]), and [RingQueue]
      the bounded queue it refines (C40).
    - I2C.  [I2c] is [drv_i2c.c] with the parts of [nu_i2c.c] it uses and the bus functions
      of [i2c_core.c], on a controller whose actions a control word starts and an arbitrary
      slave ends.  [I2cXfer] (one command, the bytes of a message), [I2cSeq] (addresses,
      messages, STOP); [I2cBus] says what a transfer puts on the wire and into the buffers
      (C2), and what becomes of a refused START, address or byte (C13, C23); [I2cType] that
      no answer of a slave makes an access leave a buffer (C18).
    - I2C by software.  [SoftI2c] is [i2c-bit-ops.c] on any two lines ([rt_i2c_bit_ops]),
      and [drv_softi2c.c], which takes pins for them.  [SoftI2cBus]: on lines with a slave,
      transfers are transfers of frames (C26); [SoftI2cPins]: the functions of the driver on
      the abstract board, and the clock line a stuck slave leaves low.
    - The heap.  [Smem] is [rt-thread/src/mem.c] and the heap functions of [kservice.c] on
      the words of the heap.  [SmemChain] to [SmemRealloc]: the chain of items and what each
      operation does to it; [SmemClient]: the calls of clients.  Theorems ([SmemHeap],
      [SmemLib]): first fit, release with its double-free check, every session of clients
      against an abstract memory of live blocks, no leak, and the aligned allocation (C8,
      C20, C24, C1).
    - Between the processors.  [Conc]: threads as programs of single accesses on the two
      kernels, and their interleavings.  [Hwsem] is [drv_hwsem.c], [Whc] is [drv_whc.c] with
      [nu_whc.c]; [HwsemInv] and [WhcInv] their invariants.  Theorems: mutual exclusion as
      long as no thread initialises a semaphore others of its kernel are using, and the race
      that breaks it otherwise; the wake-up that gets lost (C33, C19: [HwsemLock]); delivery of the
      messages, and what clients are told wrongly (C6, C3: [WhcMail]).
    - Serial ports.  [Serial] is the framework ([serial.c]) on any port driver, [Uart] is
      [nu_uart.c] and [drv_uart.c] as such a driver.  Theorems: reception by interrupts as a
      queue, for any driver (C7: [SerialQueue]); what a write puts on the wire (C15:
      [UartWire]); the rate a configuration gives (C12: [UartRate]); sessions through
      framework, driver and controller, with what each call returns (C9: [UartSession]).
    - Pins.  [Gpio] is [nu_gpio.c], [drv_gpio.c] and the pin device of the kernel
      ([pin.c]); [PinName] the names of pins and the conversion of the shell.  [GpioTable]:
      the handler table as a map; [GpioPins]: the registers as independent pins.  Theorems:
      every session of calls, outside events and interrupts, with handlers that themselves
      use pins, against an abstract board, and what disabling and detaching leave behind
      (C29, C4: [GpioIrq], on [GpioSession]); names back and forth, and the array they can
      overrun (C30).

    The components meet where the code's do: the SPI and QSPI drivers call the PDMA driver
    and run their callbacks when it returns, the flash driver sends its messages through
    [QspiBus], the clock of the C library goes through [Devices] to the RTC driver, the
    serial framework reaches the UART through [UartOps], the handlers a pin interrupt calls
    are correct on the abstract board ([HandlersOk]).  The ring buffer, the I2C bus, the
    heap and the bit utilities stand alone.

    ** Fuel and bounds

    A loop that runs over a structure is a structural recursion.  A loop with a bound the
    code gives (the time-out counts, the prescalers and quanta of the bit timing, the ten
    million reads of [RTC_Open]) takes that bound as fuel, and the
    theorem says what the loop returns for every value of it.  A loop that waits for the
    hardware (FIFOs, the flash chip, the controller leaving its initialisation) takes fuel
    as an argument; its theorem shows that under the stated progress of the hardware the
    loop ends within it.  The loop over I2C messages, whose body sets its index back, takes
    the number of its turns; one more than messages is enough where it ends.  [find_year]
    takes the day count divided by 365 and one turn more, since a year has at least 365
    days; [day_fuel] is 3, since the day of a date from the registers passes at most one
    month's end.  The loops of the heap take a bound of the items that fit
    ([items_bound]), which every chain keeps; the interrupt handlers of the semaphores and
    mailboxes and the loops of the pin driver one turn per bit and one more (9, 33, 17).  The wait for the
    clock line of software I2C takes [wait_turns]; two more than the ticks of the time-out
    are enough for a slave that lets go in time.  The handler of a serial port takes
    the bytes of one interrupt as fuel; 17 is enough for a UART when none come in meanwhile.

    ** Not modelled

    The scheduler and the other frameworks of the kernel: threads appear as interleavings
    of steps where a claim is about several of them ([Conc]), semaphores and
    mutexes as their values, an allocation in a driver as a parameter that may fail.  Apart
    from the drivers on [Conc], where every access of handlers and threads is a step,
    interrupts happen between operations, not inside them.  Caches appear as events.  Code
    the board's configuration leaves out (the alarm of the RTC, hardware filters of CAN, the
    DMA functions of the UART) is left out.
    Vendored stacks (USB, file systems, lwIP, the Synopsys Ethernet core, the raw-NAND
    layer), the tables of pin, codec, touch and power chips, and peripherals that only pass
    register settings through are not modelled, nor are the watchdog, the timers, the PLL
    configuration of [nu_clk.c] and the SD host. *)

From Stdlib Require Import ZArith Lia Bool.
From stdpp Require Import base tactics numbers list option gmap.

Open Scope Z_scope.

(** ** Outcomes and the state monad

    A C function runs on an explicit state.  It returns, or stops in one of
    three ways: an [RT_ASSERT] fails (the kernel halts), it does something C
    leaves undefined (an out-of-range index, a null dereference, a shift by the
    width or more), or a loop uses up the fuel the model gives it. *)

Inductive outcome (A : Type) : Type :=
| Ret (a : A)
| AssertFail
| Undef
| OutOfFuel.

Arguments Ret {A} a.
Arguments AssertFail {A}.
Arguments Undef {A}.
Arguments OutOfFuel {A}.

Definition M (S A : Type) : Type := S -> outcome (A * S).

Definition ret {S A} (a : A) : M S A := fun s => Ret (a, s).

Definition bind {S A B} (m : M S A) (k : A -> M S B) : M S B :=
  fun s => match m s with
           | Ret (a, s') => k a s'
           | AssertFail => AssertFail
           | Undef => Undef
           | OutOfFuel => OutOfFuel
           end.

Declare Scope c_scope.
Delimit Scope c_scope with C.

Notation "'let!' x ':=' m 'in' k" := (bind m (fun x => k))
  (at level 10, x name, m at level 200, k at level 200,
   format "'[v' 'let!'  x  ':='  m  'in' '//' k ']'") : c_scope.
Notation "'let!' ' p ':=' m 'in' k" := (bind m (fun x => match x with p => k end))
  (at level 10, p pattern, m at level 200, k at level 200) : c_scope.
Notation "m ;; k" := (bind m (fun _ => k))
  (at level 100, k at level 200, right associativity,
   format "'[v' m  ;; '//' k ']'") : c_scope.
Open Scope c_scope.

Definition get {S} : M S S := fun s => Ret (s, s).
Definition gets {S A} (f : S -> A) : M S A := fun s => Ret (f s, s).
Definition modify {S} (f : S -> S) : M S unit := fun s => Ret (tt, f s).
Definition fail_assert {S A} : M S A := fun _ => AssertFail.
Definition undefined {S A} : M S A := fun _ => Undef.
Definition out_of_fuel {S A} : M S A := fun _ => OutOfFuel.

(** [RT_ASSERT(b)] *)
Definition rt_assert {S} (b : bool) : M S unit :=
  if b then ret tt else fail_assert.

(** A read that C leaves undefined when the model has no value for it. *)
Definition deref {S A} (o : option A) : M S A :=
  match o with Some a => ret a | None => undefined end.

(** [for (x in l) body] without early exit. *)
Fixpoint for_each {S A} (l : list A) (body : A -> M S unit) : M S unit :=
  match l with
  | [] => ret tt
  | x :: l' => body x ;; for_each l' body
  end.

(** ** Equations of the monad *)

Section monad.
Context {S A B : Type}.
Implicit Types (m : M S A) (k : A -> M S B) (s : S).

Lemma bind_Ret m k s a s' : m s = Ret (a, s') -> bind m k s = k a s'.
Proof. unfold bind. by intros ->. Qed.

Lemma bind_inv m k s b s' :
  bind m k s = Ret (b, s') ->
  exists a s1, m s = Ret (a, s1) /\ k a s1 = Ret (b, s').
Proof. unfold bind. destruct (m s) as [[a s1]| | |] eqn:E; eauto; done. Qed.
End monad.

Lemma bind_ret_l {S A B} (a : A) (k : A -> M S B) s : bind (ret a) k s = k a s.
Proof. done. Qed.
Lemma bind_ret_r {S A} (m : M S A) s : bind m ret s = m s.
Proof. unfold bind. by destruct (m s) as [[]| | |]. Qed.
Lemma bind_gets {S A B} (f : S -> A) (k : A -> M S B) s : bind (gets f) k s = k (f s) s.
Proof. done. Qed.
Lemma bind_modify {S B} (f : S -> S) (k : unit -> M S B) s : bind (modify f) k s = k tt (f s).
Proof. done. Qed.
Lemma bind_get {S B} (k : S -> M S B) s : bind get k s = k s s.
Proof. done. Qed.
Lemma bind_assoc {S A B D} (m : M S A) (f : A -> M S B) (g : B -> M S D) s :
  bind (bind m f) g s = bind m (fun a => bind (f a) g) s.
Proof. unfold bind. by destruct (m s) as [[]| | |]. Qed.
Lemma bind_Undef {S A B} (m : M S A) (k : A -> M S B) s : m s = Undef -> bind m k s = Undef.
Proof. intros E. unfold bind. by rewrite E. Qed.
Lemma bind_AssertFail {S A B} (m : M S A) (k : A -> M S B) s :
  m s = AssertFail -> bind m k s = AssertFail.
Proof. intros E. unfold bind. by rewrite E. Qed.
Lemma bind_ext {S A B} (m : M S A) (f g : A -> M S B) s :
  (forall a s', f a s' = g a s') -> bind m f s = bind m g s.
Proof. intros H. unfold bind. by destruct (m s) as [[]| | |]. Qed.
Lemma bind_assert {S B} b (k : unit -> M S B) s :
  b = true -> bind (rt_assert b) k s = k tt s.
Proof. by intros ->. Qed.
Lemma bind_deref {S A B} (o : option A) a (k : A -> M S B) s :
  o = Some a -> bind (deref o) k s = k a s.
Proof. by intros ->. Qed.

Create Rewrite HintDb monad.
#[export] Hint Rewrite @bind_ret_l @bind_gets @bind_modify @bind_get @bind_assoc : monad.

(** A postcondition of a run that returns; a run that stops establishes nothing,
    so every use of it comes with a proof that the run returns. *)
Definition returns {S A} (m : M S A) (s : S) (Q : A -> S -> Prop) : Prop :=
  exists a s', m s = Ret (a, s') /\ Q a s'.

Lemma returns_bind {S A B} (m : M S A) (k : A -> M S B) s Q R :
  returns m s Q -> (forall a s', Q a s' -> returns (k a) s' R) ->
  returns (bind m k) s R.
Proof.
  intros (a & s' & Hm & HQ) Hk. destruct (Hk a s' HQ) as (b & s2 & Hb & HR).
  exists b, s2. split; [|done]. by rewrite (bind_Ret _ _ _ _ _ Hm).
Qed.

Lemma returns_run {S A B} (m : M S A) (k : A -> M S B) s a s' Q :
  m s = Ret (a, s') -> returns (k a) s' Q -> returns (bind m k) s Q.
Proof. intros E (b & s2 & Eb & HQ). exists b, s2. split; [|done]. by rewrite (bind_Ret _ _ _ _ _ E). Qed.

Lemma returns_deref {S A B} (o : option A) (k : A -> M S B) s a Q :
  o = Some a -> returns (k a) s Q -> returns (bind (deref o) k) s Q.
Proof. intros ->. by apply returns_run. Qed.

Lemma returns_mono {S A} (m : M S A) s (Q R : A -> S -> Prop) :
  returns m s Q -> (forall a s', Q a s' -> R a s') -> returns m s R.
Proof. intros (a & s' & Hm & HQ) HR. exists a, s'. eauto. Qed.

Lemma returns_ret {S A} (a : A) (s : S) (Q : A -> S -> Prop) : Q a s -> returns (ret a) s Q.
Proof. intros HQ. by exists a, s. Qed.

(** The invariant rule of [for_each], with the elements already done. *)
Lemma for_each_returns {S A} (body : A -> M S unit) (I : list A -> S -> Prop) l s :
  (forall pre x post s, l = pre ++ x :: post -> I pre s ->
     returns (body x) s (fun _ s' => I (pre ++ [x]) s')) ->
  I [] s ->
  returns (for_each l body) s (fun _ s' => I l s').
Proof.
  intros Hbody.
  assert (Hgen : forall post pre s, l = pre ++ post -> I pre s ->
            returns (for_each post body) s (fun _ s' => I l s')).
  { intros post. induction post as [|x post IH]; intros pre s0 Hl HI.
    - apply returns_ret. by rewrite Hl, app_nil_r.
    - eapply returns_bind; [by apply (Hbody pre x post)|].
      intros [] s1 H1. apply (IH (pre ++ [x])); [by rewrite <-app_assoc|done]. }
  intros HI. by apply (Hgen l []).
Qed.

(** ** Machine words

    A [uint32_t] is a [Z] in [0, 2^32); the operations that can leave the range
    wrap. *)

Definition u32 (x : Z) : Z := x mod 2 ^ 32.
Definition u16 (x : Z) : Z := x mod 2 ^ 16.
Definition u8 (x : Z) : Z := x mod 2 ^ 8.
Definition is_u32 (x : Z) : Prop := 0 <= x < 2 ^ 32.
Definition is_u8 (x : Z) : Prop := 0 <= x < 2 ^ 8.

(** The value of a 32-bit pattern read as a signed [int]. *)
Definition i32 (x : Z) : Z :=
  let y := u32 x in if y <? 2 ^ 31 then y else y - 2 ^ 32.

(** [~x], [x << n], [1 << n] on 32 bits. *)
Definition not32 (x : Z) : Z := u32 (Z.lnot x).
Definition shl32 (x n : Z) : Z := u32 (Z.shiftl x n).
Definition bit (n : Z) : Z := Z.shiftl 1 n.

(** [x & m] used as a condition. *)
Definition tst (x m : Z) : bool := negb (Z.land x m =? 0).

(** Update and clear a field: [(x & ~m) | v]. *)
Definition field_set (x m v : Z) : Z := Z.lor (Z.land x (not32 m)) v.

Lemma u32_range x : is_u32 (u32 x).
Proof. unfold is_u32, u32. apply Z.mod_pos_bound. lia. Qed.
Lemma u32_small x : is_u32 x -> u32 x = x.
Proof. apply Z.mod_small. Qed.
Lemma u8_range x : is_u8 (u8 x).
Proof. apply Z.mod_pos_bound. lia. Qed.
Lemma u8_small x : is_u8 x -> u8 x = x.
Proof. apply Z.mod_small. Qed.

Lemma i32_small x : 0 <= x < 2 ^ 31 -> i32 x = x.
Proof.
  intros H. unfold i32. rewrite u32_small by (unfold is_u32; lia).
  destruct (x <? 2 ^ 31) eqn:E; lia.
Qed.

(** *** Bits *)

Lemma testbit_mod_pow2 x n i :
  0 <= n -> 0 <= i -> Z.testbit (x mod 2 ^ n) i = (i <? n) && Z.testbit x i.
Proof.
  intros Hn Hi. destruct (Z.ltb_spec i n).
  - by rewrite Z.mod_pow2_bits_low by lia.
  - by rewrite Z.mod_pow2_bits_high by lia.
Qed.

Lemma testbit_u32 x i : 0 <= i -> Z.testbit (u32 x) i = (i <? 32) && Z.testbit x i.
Proof. apply testbit_mod_pow2. lia. Qed.
Lemma testbit_u8 x i : 0 <= i -> Z.testbit (u8 x) i = (i <? 8) && Z.testbit x i.
Proof. apply testbit_mod_pow2. lia. Qed.
Lemma testbit_u16 x i : 0 <= i -> Z.testbit (u16 x) i = (i <? 16) && Z.testbit x i.
Proof. apply testbit_mod_pow2. lia. Qed.
Lemma testbit_not32 x i :
  0 <= i -> Z.testbit (not32 x) i = (i <? 32) && negb (Z.testbit x i).
Proof. intros Hi. unfold not32. by rewrite testbit_u32, Z.lnot_spec. Qed.
Lemma testbit_bit n i : 0 <= n -> 0 <= i -> Z.testbit (bit n) i = (i =? n).
Proof.
  intros Hn Hi. unfold bit. rewrite Z.shiftl_1_l, Z.pow2_bits_eqb by done.
  by rewrite Z.eqb_sym.
Qed.
Lemma testbit_shl32 x n i :
  0 <= i -> Z.testbit (shl32 x n) i = (i <? 32) && Z.testbit x (i - n).
Proof. intros Hi. unfold shl32. by rewrite testbit_u32, Z.shiftl_spec. Qed.

Lemma u32_high x i : is_u32 x -> 32 <= i -> Z.testbit x i = false.
Proof.
  intros Hx Hi. rewrite <-(u32_small x) by done. rewrite testbit_u32 by lia.
  destruct (Z.ltb_spec i 32); [lia|done].
Qed.

Lemma testbit_ones n i : 0 <= n -> 0 <= i -> Z.testbit (Z.ones n) i = (i <? n).
Proof.
  intros Hn Hi. destruct (Z.ltb_spec i n).
  - by apply Z.ones_spec_low.
  - by apply Z.ones_spec_high.
Qed.

Create Rewrite HintDb bits.
#[export] Hint Rewrite testbit_u32 testbit_u8 testbit_u16 testbit_not32 testbit_bit
  testbit_shl32 testbit_ones Z.land_spec Z.lor_spec Z.lxor_spec Z.lnot_spec
  Z.shiftl_spec Z.shiftr_spec Z.bits_0 using lia : bits.

(** Equality of words bit by bit: one bit at a time, then the comparisons and the
    remaining bits by cases. *)
Ltac bits_step :=
  match goal with
  | |- context [?a <? ?b] => destruct (Z.ltb_spec a b)
  | |- context [?a =? ?b] => destruct (Z.eqb_spec a b)
  end.

Ltac bits_eq :=
  apply Z.bits_inj'; intros ?i ?Hi; autorewrite with bits;
  repeat (bits_step; try lia); cbn [andb orb negb];
  rewrite ?andb_true_r, ?andb_false_r, ?orb_false_r, ?orb_true_r; try done; try lia.

Lemma bits_is_u32 x :
  0 <= x -> (forall i, 32 <= i -> Z.testbit x i = false) -> is_u32 x.
Proof.
  intros H0 H. unfold is_u32. split; [done|].
  destruct (Z.eq_dec x 0) as [->|Hx]; [lia|].
  apply Z.log2_lt_pow2; [lia|].
  destruct (Z.lt_ge_cases (Z.log2 x) 32) as [|Hge]; [done|].
  specialize (H _ Hge). rewrite Z.bit_log2 in H by lia. done.
Qed.

Lemma land_u32_l x y : is_u32 x -> 0 <= y -> is_u32 (Z.land x y).
Proof.
  intros Hx Hy. apply bits_is_u32.
  - apply Z.land_nonneg. left. destruct Hx; lia.
  - intros i Hi. rewrite Z.land_spec, (u32_high x i) by done. done.
Qed.

Lemma lor_u32 x y : is_u32 x -> is_u32 y -> is_u32 (Z.lor x y).
Proof.
  intros Hx Hy. apply bits_is_u32.
  - apply Z.lor_nonneg. destruct Hx, Hy; lia.
  - intros i Hi. by rewrite Z.lor_spec, !u32_high.
Qed.

Lemma not32_u32 x : is_u32 (not32 x).
Proof. apply u32_range. Qed.

(** *** Fields

    The field of [n] bits at [pos] of a register. *)

Definition field_get (x n pos : Z) : Z := Z.land (Z.shiftr x pos) (Z.ones n).

Lemma testbit_small v n i : 0 <= n -> 0 <= v < 2 ^ n -> n <= i -> Z.testbit v i = false.
Proof.
  intros Hn Hv Hi. rewrite <-(Z.mod_small v (2 ^ n)) by done. rewrite testbit_mod_pow2 by lia.
  destruct (Z.ltb_spec i n); [lia|done].
Qed.

Lemma field_get_set x n pos v :
  0 <= n -> 0 <= pos -> pos + n <= 32 -> 0 <= v < 2 ^ n ->
  field_get (field_set x (shl32 (Z.ones n) pos) (shl32 v pos)) n pos = v.
Proof.
  intros Hn Hp Hle Hv. unfold field_get, field_set. apply Z.bits_inj'; intros i Hi.
  autorewrite with bits. replace (i + pos - pos) with i by lia.
  destruct (Z.ltb_spec i n); [|by rewrite andb_false_r, (testbit_small v n)].
  destruct (Z.ltb_spec (i + pos) 32); [|lia]. by rewrite andb_false_r, andb_true_r.
Qed.

Lemma field_set_other x n pos v i :
  0 <= n -> 0 <= pos -> 0 <= v < 2 ^ n -> is_u32 x -> 0 <= i -> i < pos \/ pos + n <= i ->
  Z.testbit (field_set x (shl32 (Z.ones n) pos) (shl32 v pos)) i = Z.testbit x i.
Proof.
  intros Hn Hp Hv Hx Hi Ho. unfold field_set. autorewrite with bits.
  destruct (Z.ltb_spec i 32); [|by rewrite (u32_high x)].
  assert (Z.testbit (Z.ones n) (i - pos) = false /\ Z.testbit v (i - pos) = false) as [-> ->];
    [|by rewrite andb_true_r, orb_false_r].
  destruct Ho; [by rewrite !Z.testbit_neg_r by lia|].
  rewrite testbit_ones, (testbit_small v n) by lia. destruct (Z.ltb_spec (i - pos) n); [lia|done].
Qed.

(** Storing the value a field already has. *)
Lemma field_set_same x m v : is_u32 x -> Z.land x m = v -> field_set x m v = x.
Proof.
  intros Hx <-. unfold field_set. apply Z.bits_inj'; intros i Hi. autorewrite with bits.
  destruct (Z.ltb_spec i 32); [|by rewrite (u32_high x)].
  by destruct (Z.testbit x i), (Z.testbit m i).
Qed.

Lemma bit_u32 n : 0 <= n < 32 -> is_u32 (bit n).
Proof.
  intros Hn. unfold is_u32, bit. rewrite Z.shiftl_1_l. split.
  - apply Z.pow_nonneg. lia.
  - apply Z.pow_lt_mono_r; lia.
Qed.

(** [x & (1 << n)] tests bit [n]. *)
Lemma tst_bit x n : 0 <= n -> tst x (bit n) = Z.testbit x n.
Proof.
  intros Hn. unfold tst. destruct (Z.testbit x n) eqn:E.
  - destruct (Z.eqb_spec (Z.land x (bit n)) 0) as [H|]; [|done].
    apply (f_equal (fun z => Z.testbit z n)) in H.
    rewrite Z.land_spec, testbit_bit, E, Z.bits_0, Z.eqb_refl in H by lia. done.
  - destruct (Z.eqb_spec (Z.land x (bit n)) 0) as [|H]; [done|]. exfalso. apply H.
    apply Z.bits_inj'; intros i Hi. rewrite Z.land_spec, testbit_bit, Z.bits_0 by lia.
    destruct (Z.eqb_spec i n) as [->|]; [by rewrite E|apply andb_false_r].
Qed.

(** ** Error codes of the kernel ([rtdef.h]) *)

Definition RT_EOK : Z := 0.
Definition RT_ERROR : Z := 1.
Definition RT_ETIMEOUT : Z := 2.
Definition RT_EBUSY : Z := 7.
Definition RT_EIO : Z := 8.
Definition RT_EINVAL : Z := 10.

(** ** Device flags and commands ([rtdef.h]) *)

Definition RT_DEVICE_FLAG_RDWR : Z := 0x003.
Definition RT_DEVICE_FLAG_ACTIVATED : Z := 0x010.
Definition RT_DEVICE_FLAG_INT_RX : Z := 0x100.
Definition RT_DEVICE_FLAG_INT_TX : Z := 0x400.
Definition RT_DEVICE_CTRL_SET_INT : Z := 0x10.
Definition RT_DEVICE_CTRL_CLR_INT : Z := 0x11.

(** ** Alignment ([rtconfig.h], [rtdef.h]) *)

Definition RT_ALIGN_SIZE : Z := 64.
Definition RT_ALIGN_DOWN (size align : Z) : Z := Z.land size (Z.lnot (align - 1)).
Definition RT_ALIGN (size align : Z) : Z := Z.land (u32 (size + align - 1)) (Z.lnot (align - 1)).

Lemma align_down_64 x : RT_ALIGN_DOWN x RT_ALIGN_SIZE = 64 * (x / 64).
Proof.
  unfold RT_ALIGN_DOWN, RT_ALIGN_SIZE. change (64 - 1) with (Z.ones 6).
  rewrite <-Z.ldiff_land, Z.ldiff_ones_r, Z.shiftr_div_pow2, Z.shiftl_mul_pow2 by lia. change (2 ^ 6) with 64. lia.
Qed.

Lemma align_up_64 x : RT_ALIGN x RT_ALIGN_SIZE = 64 * (u32 (x + 63) / 64).
Proof. rewrite <-align_down_64. unfold RT_ALIGN, RT_ALIGN_DOWN, RT_ALIGN_SIZE. by replace (x + 64 - 1) with (x + 63) by lia. Qed.

(** ** Lists *)

Lemma lookup_lt_is_Some_Z {A} (l : list A) (i : nat) :
  (i < length l)%nat -> exists x, l !! i = Some x.
Proof. intros H. apply lookup_lt_is_Some_2 in H as [x ?]. eauto. Qed.

(** Arrays are lists; an index outside the array is undefined in C. *)
Definition znth {A} (l : list A) (i : Z) : option A :=
  if i <? 0 then None else l !! Z.to_nat i.
Definition zupd {A} (l : list A) (i : Z) (x : A) : list A := <[Z.to_nat i := x]> l.

Lemma znth_Some {A} (l : list A) i x :
  znth l i = Some x -> 0 <= i < Z.of_nat (length l).
Proof.
  unfold znth. destruct (Z.ltb_spec i 0); [done|].
  intros Hl%lookup_lt_Some. lia.
Qed.

Lemma znth_in_range {A} (l : list A) i :
  0 <= i < Z.of_nat (length l) -> exists x, znth l i = Some x.
Proof.
  intros Hi. unfold znth. destruct (Z.ltb_spec i 0); [lia|].
  apply lookup_lt_is_Some_Z. lia.
Qed.

Lemma znth_zupd_eq {A} (l : list A) i x :
  0 <= i < Z.of_nat (length l) -> znth (zupd l i x) i = Some x.
Proof.
  intros Hi. unfold znth, zupd. destruct (Z.ltb_spec i 0); [lia|].
  apply list_lookup_insert_eq. lia.
Qed.

Lemma znth_zupd_ne {A} (l : list A) i j x :
  0 <= i -> i <> j -> znth (zupd l i x) j = znth l j.
Proof.
  intros Hi Hij. unfold znth, zupd. destruct (Z.ltb_spec j 0); [done|].
  apply list_lookup_insert_ne. lia.
Qed.

Lemma length_zupd {A} (l : list A) i x : length (zupd l i x) = length l.
Proof. apply length_insert. Qed.

Lemma zupd_zupd {A} (l : list A) i x y : zupd (zupd l i x) i y = zupd l i y.
Proof. apply list_insert_insert_eq. Qed.

Lemma zupd_same {A} (l : list A) i x : znth l i = Some x -> zupd l i x = l.
Proof.
  unfold znth, zupd. destruct (i <? 0); [done|]. apply list_insert_id.
Qed.

#[export] Hint Rewrite @length_zupd @zupd_zupd : monad.

Lemma Forall_znth {A} (P : A -> Prop) l i x : Forall P l -> znth l i = Some x -> P x.
Proof.
  unfold znth. destruct (i <? 0); [done|]. intros H Hx. by eapply Forall_lookup_1.
Qed.

Lemma Forall_zupd {A} (P : A -> Prop) l i x : Forall P l -> P x -> Forall P (zupd l i x).
Proof. intros. by apply Forall_insert. Qed.

Ltac deex :=
  repeat match goal with
  | H : exists name, _ |- _ => let n := fresh name in destruct H as [n H]
  | H : _ /\ _ |- _ => destruct H
  end.

(** ** Byte memories

    A stretch of memory as the list of its bytes; a load or a store ([rt_memcpy]) that does
    not lie inside has no result.  The message RAM of the CAN FD controller and the pool of
    a ring buffer are such memories. *)

Definition ram_get (r : list Z) (off n : Z) : option (list Z) :=
  if (0 <=? off) && (0 <=? n) && (off + n <=? Z.of_nat (length r))
  then Some (take (Z.to_nat n) (drop (Z.to_nat off) r)) else None.

Definition ram_put (r : list Z) (off : Z) (bs : list Z) : option (list Z) :=
  if (0 <=? off) && (off + Z.of_nat (length bs) <=? Z.of_nat (length r))
  then Some (take (Z.to_nat off) r ++ bs ++ drop (Z.to_nat off + length bs) r) else None.

Lemma ram_put_Some r off bs :
  0 <= off -> off + Z.of_nat (length bs) <= Z.of_nat (length r) ->
  ram_put r off bs = Some (take (Z.to_nat off) r ++ bs ++ drop (Z.to_nat off + length bs) r).
Proof.
  intros H0 H1. unfold ram_put.
  by destruct (Z.leb_spec 0 off), (Z.leb_spec (off + Z.of_nat (length bs)) (Z.of_nat (length r))); try lia.
Qed.

Lemma ram_put_length r off bs r' : ram_put r off bs = Some r' -> length r' = length r.
Proof.
  unfold ram_put. case_match eqn:E; [|done]. intros [= <-].
  apply andb_true_iff in E as [?%Z.leb_le ?%Z.leb_le].
  rewrite !length_app, length_take, length_drop. lia.
Qed.

Lemma ram_put_inv r off bs r' :
  ram_put r off bs = Some r' ->
  0 <= off /\ off + Z.of_nat (length bs) <= Z.of_nat (length r).
Proof.
  unfold ram_put. case_match eqn:E; [|done].
  apply andb_true_iff in E as [?%Z.leb_le ?%Z.leb_le]. done.
Qed.

(** A byte of the RAM after a store. *)
Lemma ram_put_lookup r off bs r' i :
  ram_put r off bs = Some r' ->
  r' !! i = if decide (Z.to_nat off <= i < Z.to_nat off + length bs)%nat
            then bs !! (i - Z.to_nat off)%nat else r !! i.
Proof.
  intros H. pose proof (ram_put_inv _ _ _ _ H) as [H0 H1].
  rewrite ram_put_Some in H by lia. injection H as <-.
  assert (Hl : length (take (Z.to_nat off) r) = Z.to_nat off) by (rewrite length_take; lia).
  case_decide as D.
  - rewrite lookup_app_r, Hl, lookup_app_l by lia. done.
  - destruct (Nat.lt_ge_cases i (Z.to_nat off)).
    + rewrite lookup_app_l by lia. by rewrite lookup_take_lt by lia.
    + rewrite lookup_app_r, Hl, lookup_app_r, lookup_drop by lia. f_equal. lia.
Qed.

Lemma ram_get_Some r off n :
  0 <= off -> 0 <= n -> off + n <= Z.of_nat (length r) ->
  ram_get r off n = Some (take (Z.to_nat n) (drop (Z.to_nat off) r)).
Proof.
  intros H0 H1 H2. unfold ram_get.
  by destruct (Z.leb_spec 0 off), (Z.leb_spec 0 n), (Z.leb_spec (off + n) (Z.of_nat (length r))); try lia.
Qed.

Lemma ram_get_put_eq r off bs r' n :
  ram_put r off bs = Some r' -> n = Z.of_nat (length bs) -> ram_get r' off n = Some bs.
Proof.
  intros H ->. pose proof (ram_put_inv _ _ _ _ H) as [H0 H1].
  pose proof (ram_put_length _ _ _ _ H). rewrite ram_get_Some by lia.
  f_equal. rewrite ram_put_Some in H by lia. injection H as <-.
  rewrite Nat2Z.id, drop_app_length' by (rewrite length_take; lia).
  by rewrite take_app_length.
Qed.

Lemma ram_get_put_ne r off bs r' off2 n :
  ram_put r off bs = Some r' -> off2 + n <= off \/ off + Z.of_nat (length bs) <= off2 ->
  ram_get r' off2 n = ram_get r off2 n.
Proof.
  intros H Hd. pose proof (ram_put_inv _ _ _ _ H) as [H0 H1].
  unfold ram_get. rewrite (ram_put_length _ _ _ _ H).
  case_match eqn:E; [|done]. f_equal.
  apply andb_true_iff in E as [[?%Z.leb_le ?%Z.leb_le]%andb_true_iff ?%Z.leb_le].
  apply list_eq. intros i. destruct (decide (i < Z.to_nat n)%nat) as [Hi|Hi].
  - rewrite !lookup_take_lt, !lookup_drop by lia. rewrite (ram_put_lookup _ _ _ _ _ H).
    case_decide; [lia|done].
  - by rewrite !lookup_take_ge by lia.
Qed.
