(* ===== verification/BitUtil.v ===== *)
(** * Bit and byte-order utilities

    Models [libraries/nu_packages/NuUtils/inc/nu_bitutil.h]: the leading and
    trailing zero/one counters used by the channel and actor allocators of the
    PDMA driver, and the little- and big-endian byte accessors used by the SPI and
    QSPI drivers.  A byte buffer is a [list Z] of bytes; an accessor that would
    read past the list has no result. *)

From Stdlib Require Import ZArith Lia Bool.
From stdpp Require Import base tactics numbers list option.
From S2P Require Import Prelude.

Open Scope Z_scope.

(** ** Counting bits *)

(** [__builtin_clz], defined for a non-zero 32-bit word. *)
Definition CLZ (x : Z) : Z := 31 - Z.log2 x.

Definition nu_clz (x : Z) : Z := if x =? 0 then 32 else CLZ x.

Definition nu_clo (x : Z) : Z := nu_clz (not32 x).

Definition nu_ctz (x : Z) : Z :=
  let c := if x =? 0 then 32 else CLZ (Z.land x (u32 (- x))) in
  if x =? 0 then c else 31 - c.

Definition nu_cto (x : Z) : Z := nu_ctz (not32 x).

(** ** Byte order *)

Definition nu_get16_le (pos : list Z) : option Z :=
  match pos with
  | b0 :: b1 :: _ => Some (u16 (b0 + Z.shiftl b1 8))
  | _ => None
  end.

Definition nu_set16_le (val : Z) : list Z := [Z.land val 255; u8 (Z.shiftr val 8)].

Definition nu_get32_le (pos : list Z) : option Z :=
  match pos with
  | b0 :: b1 :: b2 :: b3 :: _ =>
      Some (u32 (u32 (u32 (b0 + Z.shiftl b1 8) + Z.shiftl b2 16) + Z.shiftl b3 24))
  | _ => None
  end.

Definition nu_get24_le (pos : list Z) : option Z :=
  match pos with
  | b0 :: b1 :: b2 :: _ => Some (u32 (u32 (b0 + Z.shiftl b1 8) + Z.shiftl b2 16))
  | _ => None
  end.

Definition nu_set24_le (val : Z) : list Z :=
  [Z.land val 255; Z.land (Z.shiftr val 8) 255; Z.land (Z.shiftr val 16) 255].

Definition nu_set32_le (val : Z) : list Z :=
  [Z.land val 255; Z.land (Z.shiftr val 8) 255; Z.land (Z.shiftr val 16) 255;
   Z.land (Z.shiftr val 24) 255].

Definition nu_get16_be (pos : list Z) : option Z :=
  match pos with
  | b0 :: b1 :: _ => Some (u16 (u16 (Z.shiftl b0 8) + b1))
  | _ => None
  end.

Definition nu_set16_be (val : Z) : list Z := [u8 (Z.shiftr val 8); Z.land val 255].

Definition nu_get24_be (pos : list Z) : option Z :=
  match pos with
  | b0 :: b1 :: b2 :: _ =>
      let val := u32 (shl32 b0 8 + b1) in
      Some (u32 (shl32 val 8 + b2))
  | _ => None
  end.

Definition nu_set24_be (val : Z) : list Z :=
  [u8 (Z.shiftr val 16); u8 (Z.shiftr val 8); Z.land val 255].

Definition nu_get32_be (pos : list Z) : option Z :=
  match pos with
  | b0 :: b1 :: b2 :: b3 :: _ =>
      let val := u32 (shl32 b0 8 + b1) in
      let val := u32 (shl32 val 8 + b2) in
      Some (u32 (shl32 val 8 + b3))
  | _ => None
  end.

Definition nu_set32_be (val : Z) : list Z :=
  [u8 (Z.shiftr val 24); u8 (Z.shiftr val 16); u8 (Z.shiftr val 8); Z.land val 255].

(** ** Lemmas: the lowest set bit *)

(** Every positive number is an odd number shifted left. *)
Lemma odd_part (x : Z) : 0 < x -> exists k m, 0 <= k /\ 0 <= m /\ x = 2 ^ k * (2 * m + 1).
Proof.
  intros Hx. destruct x as [|p|p]; [lia| |lia]. clear Hx.
  induction p as [p _|p IH|].
  - exists 0, (Z.pos p). lia.
  - destruct IH as (k & m & Hk & Hm & E). exists (k + 1), m.
    split; [lia|]. split; [lia|]. rewrite Pos2Z.inj_xO, E, Z.pow_add_r by lia. ring.
  - exists 0, 0. lia.
Qed.

Lemma testbit_odd_part k m i :
  0 <= k -> Z.testbit (2 ^ k * (2 * m + 1)) i =
            if i <? k then false else Z.testbit (2 * m + 1) (i - k).
Proof.
  intros Hk. rewrite Z.mul_comm, <-Z.shiftl_mul_pow2 by done.
  destruct (Z.lt_ge_cases i 0) as [Hi|Hi].
  - rewrite Z.testbit_neg_r by done. destruct (Z.ltb_spec i k); [done|lia].
  - rewrite Z.shiftl_spec by done. destruct (Z.ltb_spec i k); [|done].
    by rewrite Z.testbit_neg_r by lia.
Qed.

(** [x & -x] isolates the lowest set bit. *)
Lemma land_opp_isolates k m :
  0 <= k < 32 -> 0 <= m -> Z.land (2 ^ k * (2 * m + 1)) (u32 (- (2 ^ k * (2 * m + 1)))) = 2 ^ k.
Proof.
  intros Hk Hm. apply Z.bits_inj'. intros i Hi.
  replace (- (2 ^ k * (2 * m + 1))) with (2 ^ k * (2 * (- m - 1) + 1)) by ring.
  rewrite Z.land_spec, testbit_u32, !testbit_odd_part, Z.pow2_bits_eqb by lia.
  destruct (Z.ltb_spec i k) as [H1|H1]; [symmetry; by apply Z.eqb_neq; lia|].
  destruct (Z.eqb_spec k i) as [<-|Hne].
  - rewrite Z.sub_diag, !Z.testbit_odd_0. destruct (Z.ltb_spec k 32); [done|lia].
  - replace (i - k) with (Z.succ (i - k - 1)) by lia. rewrite !Z.testbit_odd_succ by lia.
    replace (- m - 1) with (Z.lnot m) by (unfold Z.lnot; lia). rewrite Z.lnot_spec by lia.
    by destruct (i <? 32), (Z.testbit m (i - k - 1)).
Qed.

Lemma odd_part_u32 k m : 0 <= k -> 0 <= m -> is_u32 (2 ^ k * (2 * m + 1)) -> k < 32.
Proof.
  intros Hk Hm [_ Hx]. destruct (Z.lt_ge_cases k 32) as [|Hge]; [done|].
  assert (2 ^ 32 <= 2 ^ k) by (apply Z.pow_le_mono_r; lia). nia.
Qed.

Lemma nu_ctz_odd_part k m :
  0 <= k -> 0 <= m -> is_u32 (2 ^ k * (2 * m + 1)) -> nu_ctz (2 ^ k * (2 * m + 1)) = k.
Proof.
  intros Hk Hm Hx. pose proof (odd_part_u32 k m Hk Hm Hx) as Hk32.
  assert (0 < 2 ^ k) by (apply Z.pow_pos_nonneg; lia).
  unfold nu_ctz. destruct (Z.eqb_spec (2 ^ k * (2 * m + 1)) 0); [nia|].
  rewrite land_opp_isolates by lia. unfold CLZ. rewrite Z.log2_pow2 by lia. lia.
Qed.

(** [nu_ctz] of a non-zero word is its lowest set bit. *)
Lemma nu_ctz_lowest (x : Z) :
  is_u32 x -> x <> 0 ->
  0 <= nu_ctz x < 32 /\ Z.testbit x (nu_ctz x) = true /\
  forall j, 0 <= j < nu_ctz x -> Z.testbit x j = false.
Proof.
  intros Hx H0. destruct (odd_part x) as (k & m & Hk & Hm & ->); [destruct Hx; lia|].
  rewrite nu_ctz_odd_part by done.
  pose proof (odd_part_u32 k m Hk Hm Hx). split_and!; [lia|lia| |].
  - rewrite testbit_odd_part, Z.sub_diag, Z.testbit_odd_0 by done.
    destruct (Z.ltb_spec k k); [lia|done].
  - intros j Hj. rewrite testbit_odd_part by done. destruct (Z.ltb_spec j k); [done|lia].
Qed.

Lemma nu_ctz_0 : nu_ctz 0 = 32.
Proof. done. Qed.

Lemma nu_ctz_range (x : Z) : is_u32 x -> 0 <= nu_ctz x <= 32.
Proof.
  intros Hx. destruct (Z.eq_dec x 0) as [->|H0]; [rewrite nu_ctz_0; lia|].
  destruct (nu_ctz_lowest x Hx H0). lia.
Qed.

(** [nu_cto] is the lowest clear bit, or 32. *)
Lemma nu_cto_lowest (x : Z) :
  is_u32 x -> nu_cto x < 32 ->
  0 <= nu_cto x /\ Z.testbit x (nu_cto x) = false /\
  forall j, 0 <= j < nu_cto x -> Z.testbit x j = true.
Proof.
  intros Hx Hlt. unfold nu_cto in *.
  destruct (Z.eq_dec (not32 x) 0) as [E|H0]; [rewrite E, nu_ctz_0 in Hlt; lia|].
  destruct (nu_ctz_lowest _ (not32_u32 x) H0) as (Hr & Ht & Hf).
  rewrite testbit_not32 in Ht by lia. split_and!; [lia| |].
  - by destruct (nu_ctz (not32 x) <? 32), (Z.testbit x (nu_ctz (not32 x))).
  - intros j Hj. specialize (Hf j Hj). rewrite testbit_not32 in Hf by lia.
    destruct (Z.ltb_spec j 32); [|lia]. by destruct (Z.testbit x j).
Qed.

Lemma nu_cto_full (x : Z) :
  is_u32 x -> 32 <= nu_cto x -> forall j, 0 <= j < 32 -> Z.testbit x j = true.
Proof.
  intros Hx Hge j Hj. unfold nu_cto in *.
  destruct (Z.eq_dec (not32 x) 0) as [E|H0].
  - apply (f_equal (fun z => Z.testbit z j)) in E.
    rewrite testbit_not32, Z.bits_0 in E by lia.
    destruct (Z.ltb_spec j 32); [|lia]. by destruct (Z.testbit x j).
  - destruct (nu_ctz_lowest _ (not32_u32 x) H0). lia.
Qed.

(** ** Lemmas: loops over the set bits *)

(** The positions from [k] to [N] (excluded) whose bit is set. *)
Definition flags_from (N w k : Z) : list Z := filter (fun i => Z.testbit w i = true) (seqZ k (N - k)).

Lemma filter_ext_in (f g : Z -> bool) (l : list Z) :
  (forall x, x ∈ l -> f x = g x) ->
  filter (fun x => f x = true) l = filter (fun x => g x = true) l.
Proof.
  induction l as [|x l IH]; intros H; [done|]. rewrite !filter_cons, (H x) by by left.
  rewrite IH; [done|]. intros y Hy. apply H. by right.
Qed.

Lemma filter_none (f : Z -> bool) (l : list Z) :
  (forall x, x ∈ l -> f x = false) -> filter (fun x => f x = true) l = [].
Proof.
  induction l as [|x l IH]; intros H; [done|].
  rewrite filter_cons_False by (rewrite (H x) by (by left); done).
  apply IH. intros y Hy. apply H. by right.
Qed.

Lemma filter_all (f : Z -> bool) (l : list Z) :
  (forall x, x ∈ l -> f x = true) -> filter (fun x => f x = true) l = l.
Proof.
  induction l as [|x l IH]; intros H; [done|].
  rewrite filter_cons_True by (apply H; by left). f_equal. apply IH. intros y Hy. apply H. by right.
Qed.

Lemma flags_from_none N w k : (forall j, k <= j < N -> Z.testbit w j = false) -> flags_from N w k = [].
Proof. intros H. apply filter_none. intros j Hj%elem_of_seqZ. apply H. lia. Qed.

(** The lowest flag, and the rest. *)
Lemma flags_from_next N w k i :
  0 <= k <= i -> i < N <= 32 -> Z.testbit w i = true ->
  (forall j, k <= j < i -> Z.testbit w j = false) ->
  flags_from N w k = i :: flags_from N (Z.land w (not32 (bit i))) (i + 1).
Proof.
  intros Hk Hi Hb Hlow. unfold flags_from.
  replace (N - k) with ((i - k) + (N - i)) by lia.
  rewrite seqZ_app by lia. rewrite list.filter_app, filter_none.
  2: { intros j Hj%elem_of_seqZ. apply Hlow. lia. }
  replace (k + (i - k)) with i by lia. rewrite seqZ_cons by lia. cbn [app].
  rewrite filter_cons_True by done. f_equal.
  replace (Z.pred (N - i)) with (N - (i + 1)) by lia.
  replace (Z.succ i) with (i + 1) by lia. apply filter_ext_in. intros j Hj%elem_of_seqZ.
  rewrite Z.land_spec, testbit_not32, testbit_bit by lia.
  destruct (Z.ltb_spec j 32), (Z.eqb_spec j i); try lia. by rewrite andb_true_r.
Qed.

(** A loop that takes the lowest set bit, below [N], and clears it: with a turn more than
    bits it goes through the flags in increasing order. *)
Lemma ctz_loop_from {A} (loop : nat -> Z -> A) (body : Z -> A -> A) (stop : A) (N : Z) fuel w k :
  (forall f v, loop (S f) v =
     if nu_ctz v <? N then body (nu_ctz v) (loop f (Z.land v (not32 (bit (nu_ctz v))))) else stop) ->
  N <= 32 -> is_u32 w -> 0 <= k <= N -> N - k < Z.of_nat fuel ->
  (forall j, 0 <= j < k -> Z.testbit w j = false) ->
  loop fuel w = foldr body stop (flags_from N w k).
Proof.
  intros Hloop HN. revert w k. induction fuel as [|fuel IH]; intros w k Hw Hk Hfuel Hlow.
  - lia.
  - rewrite Hloop. destruct (Z.ltb_spec (nu_ctz w) N) as [Hlt|Hge].
    + destruct (Z.eq_dec w 0) as [->|Hw0]; [rewrite nu_ctz_0 in Hlt; lia|].
      destruct (nu_ctz_lowest w Hw Hw0) as (Hr & Hb & Hl).
      assert (k <= nu_ctz w).
      { destruct (Z.lt_ge_cases (nu_ctz w) k) as [Hk'|]; [|done].
        rewrite Hlow in Hb by lia. discriminate. }
      rewrite (flags_from_next N w k (nu_ctz w)) by (done || lia || (intros; apply Hl; lia)).
      cbn [foldr]. f_equal. apply IH; [apply land_u32_l; [done|apply not32_u32]|lia|lia|].
      intros j Hj. rewrite Z.land_spec, testbit_not32, testbit_bit by lia.
      destruct (Z.eqb_spec j (nu_ctz w)) as [->|]; [by rewrite !andb_false_r|rewrite Hl by lia; done].
    + rewrite flags_from_none; [done|]. intros j Hj.
      destruct (Z.eq_dec w 0) as [->|Hw0]; [apply Z.bits_0|].
      destruct (nu_ctz_lowest w Hw Hw0) as (_ & _ & Hl). apply Hl. lia.
Qed.

Definition flags (N w : Z) : list Z := flags_from N w 0.

Lemma ctz_loop {A} (loop : nat -> Z -> A) (body : Z -> A -> A) (stop : A) (N : Z) fuel w :
  (forall f v, loop (S f) v =
     if nu_ctz v <? N then body (nu_ctz v) (loop f (Z.land v (not32 (bit (nu_ctz v))))) else stop) ->
  0 <= N <= 32 -> is_u32 w -> N < Z.of_nat fuel -> loop fuel w = foldr body stop (flags N w).
Proof. intros H1 HN Hw Hf. apply ctz_loop_from; [done|lia|done|lia|lia|lia]. Qed.

Lemma elem_of_flags N w i : i ∈ flags N w <-> 0 <= i < N /\ Z.testbit w i = true.
Proof. unfold flags, flags_from. rewrite list_elem_of_filter, elem_of_seqZ. split; intros [? ?]; split; (done || lia). Qed.

(** ** Lemmas: bytes as arithmetic *)

Lemma land_255 x : Z.land x 255 = x mod 2 ^ 8.
Proof. change 255 with (Z.ones 8). by rewrite Z.land_ones. Qed.

(** Shifts and masks become divisions and remainders, which [lia] decides. *)
Ltac bytes_arith :=
  unfold u8, u16, u32, shl32, is_u8, is_u32 in *;
  rewrite ?land_255, ?Z.shiftr_div_pow2, ?Z.shiftl_mul_pow2 by lia;
  rewrite ?Z.pow_0_r; Z.div_mod_to_equations; lia.

Lemma le_step a b k : 0 <= k <= 24 -> 0 <= a < 2 ^ k -> is_u8 b ->
  u32 (a + Z.shiftl b k) = a + b * 2 ^ k /\ 0 <= a + b * 2 ^ k < 2 ^ (k + 8).
Proof.
  intros Hk Ha [Hb0 Hb]. rewrite Z.shiftl_mul_pow2 by lia.
  assert (2 ^ (k + 8) <= 2 ^ 32) by (apply Z.pow_le_mono_r; lia).
  assert (2 ^ (k + 8) = 2 ^ k * 2 ^ 8) by (apply Z.pow_add_r; lia).
  split; [apply u32_small; unfold is_u32|]; nia.
Qed.

Lemma be_step a b : 0 <= a < 2 ^ 24 -> is_u8 b -> u32 (shl32 a 8 + b) = a * 256 + b.
Proof.
  intros Ha [Hb0 Hb]. unfold shl32. rewrite Z.shiftl_mul_pow2 by lia.
  rewrite (u32_small (a * 2 ^ 8)) by (unfold is_u32; lia).
  rewrite u32_small by (unfold is_u32; lia). lia.
Qed.

Lemma byte_of x k : 0 <= k -> Z.land (Z.shiftr x k) 255 = x / 2 ^ k mod 2 ^ 8.
Proof. intros. by rewrite land_255, Z.shiftr_div_pow2. Qed.

Lemma byte_of_range x : is_u8 (x mod 2 ^ 8).
Proof. apply u8_range. Qed.
#[export] Hint Resolve byte_of_range : core.

Lemma nu_get32_le_eq b0 b1 b2 b3 rest :
  is_u8 b0 -> is_u8 b1 -> is_u8 b2 -> is_u8 b3 ->
  nu_get32_le (b0 :: b1 :: b2 :: b3 :: rest) =
  Some (b0 + b1 * 2 ^ 8 + b2 * 2 ^ 16 + b3 * 2 ^ 24).
Proof.
  intros H0 H1 H2 H3. cbn [nu_get32_le].
  destruct (le_step b0 b1 8) as [-> ?]; [lia|exact H0|done|].
  destruct (le_step (b0 + b1 * 2 ^ 8) b2 16) as [-> ?]; [lia|lia|done|].
  destruct (le_step (b0 + b1 * 2 ^ 8 + b2 * 2 ^ 16) b3 24) as [-> ?]; [lia|lia|done|].
  done.
Qed.

Lemma nu_get24_le_eq b0 b1 b2 rest :
  is_u8 b0 -> is_u8 b1 -> is_u8 b2 ->
  nu_get24_le (b0 :: b1 :: b2 :: rest) = Some (b0 + b1 * 2 ^ 8 + b2 * 2 ^ 16).
Proof.
  intros H0 H1 H2. cbn [nu_get24_le].
  destruct (le_step b0 b1 8) as [-> ?]; [lia|exact H0|done|].
  destruct (le_step (b0 + b1 * 2 ^ 8) b2 16) as [-> ?]; [lia|lia|done|]. done.
Qed.

Lemma nu_get24_be_eq b0 b1 b2 rest :
  is_u8 b0 -> is_u8 b1 -> is_u8 b2 ->
  nu_get24_be (b2 :: b1 :: b0 :: rest) = Some (b0 + b1 * 2 ^ 8 + b2 * 2 ^ 16).
Proof.
  intros H0 H1 H2. cbn [nu_get24_be].
  rewrite (be_step b2 b1) by (unfold is_u8 in *; lia).
  rewrite be_step by (unfold is_u8 in *; lia). f_equal. lia.
Qed.

Lemma nu_get32_be_eq b0 b1 b2 b3 rest :
  is_u8 b0 -> is_u8 b1 -> is_u8 b2 -> is_u8 b3 ->
  nu_get32_be (b3 :: b2 :: b1 :: b0 :: rest) =
  Some (b0 + b1 * 2 ^ 8 + b2 * 2 ^ 16 + b3 * 2 ^ 24).
Proof.
  intros H0 H1 H2 H3. cbn [nu_get32_be].
  rewrite (be_step b3 b2) by (unfold is_u8 in *; lia).
  rewrite (be_step (b3 * 256 + b2) b1) by (unfold is_u8 in *; lia).
  rewrite be_step by (unfold is_u8 in *; lia). f_equal. lia.
Qed.

Lemma nu_set32_le_eq v :
  nu_set32_le v =
  [v mod 2 ^ 8; v / 2 ^ 8 mod 2 ^ 8; v / 2 ^ 16 mod 2 ^ 8; v / 2 ^ 24 mod 2 ^ 8].
Proof. unfold nu_set32_le. by rewrite !byte_of, land_255 by lia. Qed.

Lemma nu_set32_be_rev v : nu_set32_be v = rev (nu_set32_le v).
Proof.
  unfold nu_set32_be, nu_set32_le, u8. cbn [rev app]. by rewrite <-!land_255.
Qed.

Lemma nu_set24_le_eq v :
  nu_set24_le v = [v mod 2 ^ 8; v / 2 ^ 8 mod 2 ^ 8; v / 2 ^ 16 mod 2 ^ 8].
Proof. unfold nu_set24_le. by rewrite !byte_of, land_255 by lia. Qed.

Lemma nu_set24_be_rev v : nu_set24_be v = rev (nu_set24_le v).
Proof.
  unfold nu_set24_be, nu_set24_le, u8. cbn [rev app]. by rewrite <-!land_255.
Qed.

Lemma nu_get16_rt v rest :
  nu_get16_le (nu_set16_le v ++ rest) = Some (v mod 2 ^ 16) /\
  nu_get16_be (nu_set16_be v ++ rest) = Some (v mod 2 ^ 16).
Proof. split; cbn [app nu_get16_le nu_get16_be nu_set16_le nu_set16_be]; f_equal; bytes_arith. Qed.

(** ** Properties *)

(** the counters are exact.  On every 32-bit word [nu_ctz] and [nu_cto] give
    the position of the lowest set, respectively lowest clear, bit, and 32 exactly
    when there is none; [nu_clz] gives the number of bits above the highest set
    bit.  The allocators of the PDMA driver rest on [nu_cto], its interrupt
    handler on [nu_ctz]. *)
Theorem bit_counters_exact (x : Z) :
  is_u32 x ->
  (nu_ctz x = 32 <-> x = 0) /\
  (nu_cto x = 32 <-> x = 2 ^ 32 - 1) /\
  (forall n, 0 <= n < 32 ->
     (nu_ctz x = n <-> Z.testbit x n = true /\ forall j, 0 <= j < n -> Z.testbit x j = false)
     /\ (nu_cto x = n <-> Z.testbit x n = false /\ forall j, 0 <= j < n -> Z.testbit x j = true)
     /\ (nu_clz x = n <-> 2 ^ (31 - n) <= x < 2 ^ (32 - n))).
Proof.
  intros Hx.
  assert (Hctz : nu_ctz x = 32 <-> x = 0).
  { split; [|by intros ->]. intros E. destruct (Z.eq_dec x 0) as [|H0]; [done|].
    destruct (nu_ctz_lowest x Hx H0). lia. }
  assert (Hcto : nu_cto x = 32 <-> x = 2 ^ 32 - 1).
  { split; [|by intros ->]. intros E. change (2 ^ 32 - 1) with (Z.ones 32).
    apply Z.bits_inj'; intros i Hi. rewrite testbit_ones by lia.
    destruct (Z.ltb_spec i 32); [apply nu_cto_full; [done|lia|lia]|by apply u32_high]. }
  split; [done|]. split; [done|]. intros n Hn. split_and!.
  - split.
    + intros <-. destruct (nu_ctz_lowest x Hx) as (_ & ? & ?); [|done].
      intros ->. rewrite nu_ctz_0 in Hn. lia.
    + intros [Ht Hf]. destruct (Z.eq_dec x 0) as [->|H0]; [by rewrite Z.bits_0 in Ht|].
      destruct (nu_ctz_lowest x Hx H0) as (Hr & Ht' & Hf').
      destruct (Z.lt_total (nu_ctz x) n) as [H|[H|H]]; [|done|].
      * rewrite Hf in Ht' by lia. done.
      * rewrite Hf' in Ht by lia. done.
  - split.
    + intros <-. destruct (nu_cto_lowest x Hx) as (? & ? & ?); [lia|done].
    + intros [Ht Hf]. destruct (Z.lt_ge_cases (nu_cto x) 32) as [Hlt|Hge].
      * destruct (nu_cto_lowest x Hx Hlt) as (Hr & Ht' & Hf').
        destruct (Z.lt_total (nu_cto x) n) as [H|[H|H]]; [|done|].
        -- rewrite Hf in Ht' by lia. done.
        -- rewrite Hf' in Ht by lia. done.
      * rewrite (nu_cto_full x Hx Hge) in Ht by lia. done.
  - unfold nu_clz, CLZ. destruct (Z.eqb_spec x 0) as [->|H0].
    + assert (0 < 2 ^ (31 - n)) by (apply Z.pow_pos_nonneg; lia). lia.
    + destruct Hx as [Hx0 Hx]. split; intros E.
      * pose proof (Z.log2_spec x ltac:(lia)) as Hl.
        replace (Z.log2 x) with (31 - n) in Hl by lia.
        by replace (32 - n) with (Z.succ (31 - n)) by lia.
      * rewrite (Z.log2_unique x (31 - n)); [lia|lia|].
        by replace (Z.succ (31 - n)) with (32 - n) by lia.
Qed.

Lemma bit_counters_exact_witness :
  nu_ctz 40 = 3 /\ nu_cto 7 = 3 /\ nu_clz 1 = 31 /\ (nu_ctz 40 = 32 <-> 40 = 0).
Proof.
  split_and!; [done..|]. apply (bit_counters_exact 40). unfold is_u32. lia.
Defined.

(** The byte accessors round-trip.  Writing a word and reading it back gives
    the word (the low 24 or 16 bits of it for the shorter accessors), writing back
    the bytes just read restores them, and the big-endian image of a word is the
    little-endian one reversed. *)
Theorem endian_round_trip (v b0 b1 b2 b3 : Z) (rest : list Z) :
  is_u32 v -> is_u8 b0 -> is_u8 b1 -> is_u8 b2 -> is_u8 b3 ->
  nu_get32_le (nu_set32_le v ++ rest) = Some v /\
  nu_get32_be (nu_set32_be v ++ rest) = Some v /\
  nu_get24_le (nu_set24_le v ++ rest) = Some (v mod 2 ^ 24) /\
  nu_get24_be (nu_set24_be v ++ rest) = Some (v mod 2 ^ 24) /\
  nu_get16_le (nu_set16_le v ++ rest) = Some (v mod 2 ^ 16) /\
  nu_get16_be (nu_set16_be v ++ rest) = Some (v mod 2 ^ 16) /\
  nu_set32_le <$> nu_get32_le [b0; b1; b2; b3] = Some [b0; b1; b2; b3] /\
  nu_set32_be <$> nu_get32_be [b0; b1; b2; b3] = Some [b0; b1; b2; b3] /\
  nu_set32_be v = rev (nu_set32_le v).
Proof.
  intros Hv H0 H1 H2 H3. pose proof (nu_get16_rt v rest) as [E16l E16b]. split_and!; try done.
  - rewrite nu_set32_le_eq. cbn [app]. rewrite nu_get32_le_eq by done. f_equal. bytes_arith.
  - rewrite nu_set32_be_rev, nu_set32_le_eq. cbn [rev app].
    rewrite nu_get32_be_eq by done. f_equal. bytes_arith.
  - rewrite nu_set24_le_eq. cbn [app]. rewrite nu_get24_le_eq by done. f_equal. bytes_arith.
  - rewrite nu_set24_be_rev, nu_set24_le_eq. cbn [rev app].
    rewrite nu_get24_be_eq by done. f_equal. bytes_arith.
  - rewrite nu_get32_le_eq by done. cbn [fmap option_fmap option_map].
    rewrite nu_set32_le_eq. repeat f_equal; bytes_arith.
  - rewrite nu_get32_be_eq by done. cbn [fmap option_fmap option_map].
    rewrite nu_set32_be_rev, nu_set32_le_eq. cbn [rev app]. repeat f_equal; bytes_arith.
  - apply nu_set32_be_rev.
Qed.

Lemma endian_round_trip_witness :
  nu_set32_be 0x11223344 = [0x11; 0x22; 0x33; 0x44] /\
  nu_get32_le (nu_set32_le 0xEFAA2100 ++ []) = Some 0xEFAA2100.
Proof.
  split; [done|]. apply (endian_round_trip 0xEFAA2100 0 0 0 0 []); unfold is_u32, is_u8; lia.
Defined.
