(* ===== verification/PdmaRegs.v ===== *)
(** * PDMA registers and the standard driver

    Models [libraries/ma35/StdDriver/src/nu_pdma.c] and the registers of
    [libraries/ma35/Device/Nuvoton/MA35/Include/pdma_reg.h] it uses.  A PDMA module
    is named by its base address; its descriptor registers [DSCT[0..9]] lie at
    offset 16 * channel of the base (the first field of [PDMA_T]) and live in the
    same descriptor memory as the scatter-gather tables in RAM, so a
    [nu_pdma_desc_t] pointer is an address whichever of the two it points to.

    Registers with a plain read/write behaviour are fields.  What the module does
    by itself - reacting to a store into a command or write-one-to-clear register,
    finishing a channel reset - is the class [PdmaHw]; the documented behaviour the
    driver relies on is [PdmaHwSpec]. *)

From Stdlib Require Import ZArith Lia Bool.
From stdpp Require Import base tactics numbers list option gmap.
From S2P Require Import Prelude.

Open Scope Z_scope.

(** ** Constants *)

Definition PDMA_CH_MAX : Z := 10.
Definition PDMA_CH_Msk : Z := Z.shiftl 1 PDMA_CH_MAX - 1.

Definition PDMA_OP_STOP : Z := 0x0.
Definition PDMA_OP_BASIC : Z := 0x1.
Definition PDMA_OP_SCATTER : Z := 0x2.
Definition PDMA_WIDTH_8 : Z := 0x0.
Definition PDMA_WIDTH_16 : Z := 0x1000.
Definition PDMA_WIDTH_32 : Z := 0x2000.
Definition PDMA_SAR_INC : Z := 0x0.
Definition PDMA_SAR_FIX : Z := 0x300.
Definition PDMA_DAR_INC : Z := 0x0.
Definition PDMA_DAR_FIX : Z := 0xC00.
Definition PDMA_REQ_SINGLE : Z := 0x4.
Definition PDMA_REQ_BURST : Z := 0x0.
Definition PDMA_BURST_32 : Z := 0x20.
Definition PDMA_MEM : Z := 0.

Definition PDMA_DSCT_CTL_OPMODE_Msk : Z := 0x3.
Definition PDMA_DSCT_CTL_TXTYPE_Msk : Z := Z.shiftl 0x1 2.
Definition PDMA_DSCT_CTL_BURSIZE_Msk : Z := Z.shiftl 0x7 4.
Definition PDMA_DSCT_CTL_TBINTDIS_Msk : Z := Z.shiftl 0x1 7.
Definition PDMA_DSCT_CTL_SAINC_Msk : Z := Z.shiftl 0x3 8.
Definition PDMA_DSCT_CTL_DAINC_Msk : Z := Z.shiftl 0x3 10.
Definition PDMA_DSCT_CTL_TXWIDTH_Pos : Z := 12.
Definition PDMA_DSCT_CTL_TXWIDTH_Msk : Z := Z.shiftl 0x3 PDMA_DSCT_CTL_TXWIDTH_Pos.
Definition PDMA_DSCT_CTL_STRIDEEN_Msk : Z := Z.shiftl 0x1 15.
Definition PDMA_DSCT_CTL_TXCNT_Pos : Z := 16.
Definition PDMA_DSCT_CTL_TXCNT_Msk : Z := Z.shiftl 0xffff PDMA_DSCT_CTL_TXCNT_Pos.
Definition PDMA_REQSEL0_3_REQSRC0_Msk : Z := 0xff.
Definition PDMA_TOC0_1_TOC0_Msk : Z := 0xffff.
Definition PDMA_TOUTPSC_TOUTPSC1_Pos : Z := 4.
Definition PDMA_INTSTS_ABTIF_Msk : Z := 0x1.
Definition PDMA_INTSTS_TDIF_Msk : Z := 0x2.
Definition PDMA_INTSTS_ALIGNF_Msk : Z := 0x4.
Definition PDMA_INTSTS_REQTOFn_Pos : Z := 8.
Definition PDMA_INTSTS_REQTOFn_Msk : Z := Z.shiftl PDMA_CH_Msk PDMA_INTSTS_REQTOFn_Pos.

Definition PDMA_INT_TRANS_DONE : Z := 1.
Definition PDMA_INT_TEMPTY : Z := 2.
Definition PDMA_INT_TIMEOUT : Z := 4.

(** ** Registers *)

Record DSCT_T : Type := mkDSCT {
  CTL : Z;
  SA : Z;
  DA : Z;
  NEXT : Z
}.

Definition set_CTL (v : Z) (p : DSCT_T) : DSCT_T :=
  mkDSCT v (p.(SA)) (p.(DA)) (p.(NEXT)).
Definition set_SA (v : Z) (p : DSCT_T) : DSCT_T :=
  mkDSCT (p.(CTL)) v (p.(DA)) (p.(NEXT)).
Definition set_DA (v : Z) (p : DSCT_T) : DSCT_T :=
  mkDSCT (p.(CTL)) (p.(SA)) v (p.(NEXT)).
Definition set_NEXT (v : Z) (p : DSCT_T) : DSCT_T :=
  mkDSCT (p.(CTL)) (p.(SA)) (p.(DA)) v.

(** [TOC] is the row TOC0_1 .. TOC8_9 and [REQSEL] the row REQSEL0_3 .. REQSEL8_11
    (the code indexes both rows from their first register); [STCR]/[ASOCR] are the
    six STRIDE entries and [AICTL]/[RCNT] the two REPEAT entries. *)
Record PDMA_T : Type := mkPDMA {
  CHCTL : Z;
  INTEN : Z;
  INTSTS : Z;
  ABTSTS : Z;
  TDSTS : Z;
  ALIGN : Z;
  TOUTEN : Z;
  TOUTIEN : Z;
  TOC : list Z;
  TOUTPSC : Z;
  TOUTPSC1 : Z;
  REQSEL : list Z;
  STCR : list Z;
  ASOCR : list Z;
  AICTL : list Z;
  RCNT : list Z
}.

Definition set_CHCTL (v : Z) (p : PDMA_T) : PDMA_T :=
  mkPDMA v (p.(INTEN)) (p.(INTSTS)) (p.(ABTSTS)) (p.(TDSTS)) (p.(ALIGN)) (p.(TOUTEN))
    (p.(TOUTIEN)) (p.(TOC)) (p.(TOUTPSC)) (p.(TOUTPSC1)) (p.(REQSEL)) (p.(STCR))
    (p.(ASOCR)) (p.(AICTL)) (p.(RCNT)).
Definition set_INTEN (v : Z) (p : PDMA_T) : PDMA_T :=
  mkPDMA (p.(CHCTL)) v (p.(INTSTS)) (p.(ABTSTS)) (p.(TDSTS)) (p.(ALIGN)) (p.(TOUTEN))
    (p.(TOUTIEN)) (p.(TOC)) (p.(TOUTPSC)) (p.(TOUTPSC1)) (p.(REQSEL)) (p.(STCR))
    (p.(ASOCR)) (p.(AICTL)) (p.(RCNT)).
Definition set_INTSTS (v : Z) (p : PDMA_T) : PDMA_T :=
  mkPDMA (p.(CHCTL)) (p.(INTEN)) v (p.(ABTSTS)) (p.(TDSTS)) (p.(ALIGN)) (p.(TOUTEN))
    (p.(TOUTIEN)) (p.(TOC)) (p.(TOUTPSC)) (p.(TOUTPSC1)) (p.(REQSEL)) (p.(STCR))
    (p.(ASOCR)) (p.(AICTL)) (p.(RCNT)).
Definition set_ABTSTS (v : Z) (p : PDMA_T) : PDMA_T :=
  mkPDMA (p.(CHCTL)) (p.(INTEN)) (p.(INTSTS)) v (p.(TDSTS)) (p.(ALIGN)) (p.(TOUTEN))
    (p.(TOUTIEN)) (p.(TOC)) (p.(TOUTPSC)) (p.(TOUTPSC1)) (p.(REQSEL)) (p.(STCR))
    (p.(ASOCR)) (p.(AICTL)) (p.(RCNT)).
Definition set_TDSTS (v : Z) (p : PDMA_T) : PDMA_T :=
  mkPDMA (p.(CHCTL)) (p.(INTEN)) (p.(INTSTS)) (p.(ABTSTS)) v (p.(ALIGN)) (p.(TOUTEN))
    (p.(TOUTIEN)) (p.(TOC)) (p.(TOUTPSC)) (p.(TOUTPSC1)) (p.(REQSEL)) (p.(STCR))
    (p.(ASOCR)) (p.(AICTL)) (p.(RCNT)).
Definition set_ALIGN (v : Z) (p : PDMA_T) : PDMA_T :=
  mkPDMA (p.(CHCTL)) (p.(INTEN)) (p.(INTSTS)) (p.(ABTSTS)) (p.(TDSTS)) v (p.(TOUTEN))
    (p.(TOUTIEN)) (p.(TOC)) (p.(TOUTPSC)) (p.(TOUTPSC1)) (p.(REQSEL)) (p.(STCR))
    (p.(ASOCR)) (p.(AICTL)) (p.(RCNT)).
Definition set_TOUTEN (v : Z) (p : PDMA_T) : PDMA_T :=
  mkPDMA (p.(CHCTL)) (p.(INTEN)) (p.(INTSTS)) (p.(ABTSTS)) (p.(TDSTS)) (p.(ALIGN)) v
    (p.(TOUTIEN)) (p.(TOC)) (p.(TOUTPSC)) (p.(TOUTPSC1)) (p.(REQSEL)) (p.(STCR))
    (p.(ASOCR)) (p.(AICTL)) (p.(RCNT)).
Definition set_TOUTIEN (v : Z) (p : PDMA_T) : PDMA_T :=
  mkPDMA (p.(CHCTL)) (p.(INTEN)) (p.(INTSTS)) (p.(ABTSTS)) (p.(TDSTS)) (p.(ALIGN))
    (p.(TOUTEN)) v (p.(TOC)) (p.(TOUTPSC)) (p.(TOUTPSC1)) (p.(REQSEL)) (p.(STCR))
    (p.(ASOCR)) (p.(AICTL)) (p.(RCNT)).
Definition set_TOC (v : list Z) (p : PDMA_T) : PDMA_T :=
  mkPDMA (p.(CHCTL)) (p.(INTEN)) (p.(INTSTS)) (p.(ABTSTS)) (p.(TDSTS)) (p.(ALIGN))
    (p.(TOUTEN)) (p.(TOUTIEN)) v (p.(TOUTPSC)) (p.(TOUTPSC1)) (p.(REQSEL)) (p.(STCR))
    (p.(ASOCR)) (p.(AICTL)) (p.(RCNT)).
Definition set_TOUTPSC (v : Z) (p : PDMA_T) : PDMA_T :=
  mkPDMA (p.(CHCTL)) (p.(INTEN)) (p.(INTSTS)) (p.(ABTSTS)) (p.(TDSTS)) (p.(ALIGN))
    (p.(TOUTEN)) (p.(TOUTIEN)) (p.(TOC)) v (p.(TOUTPSC1)) (p.(REQSEL)) (p.(STCR))
    (p.(ASOCR)) (p.(AICTL)) (p.(RCNT)).
Definition set_TOUTPSC1 (v : Z) (p : PDMA_T) : PDMA_T :=
  mkPDMA (p.(CHCTL)) (p.(INTEN)) (p.(INTSTS)) (p.(ABTSTS)) (p.(TDSTS)) (p.(ALIGN))
    (p.(TOUTEN)) (p.(TOUTIEN)) (p.(TOC)) (p.(TOUTPSC)) v (p.(REQSEL)) (p.(STCR))
    (p.(ASOCR)) (p.(AICTL)) (p.(RCNT)).
Definition set_REQSEL (v : list Z) (p : PDMA_T) : PDMA_T :=
  mkPDMA (p.(CHCTL)) (p.(INTEN)) (p.(INTSTS)) (p.(ABTSTS)) (p.(TDSTS)) (p.(ALIGN))
    (p.(TOUTEN)) (p.(TOUTIEN)) (p.(TOC)) (p.(TOUTPSC)) (p.(TOUTPSC1)) v (p.(STCR))
    (p.(ASOCR)) (p.(AICTL)) (p.(RCNT)).
Definition set_STCR (v : list Z) (p : PDMA_T) : PDMA_T :=
  mkPDMA (p.(CHCTL)) (p.(INTEN)) (p.(INTSTS)) (p.(ABTSTS)) (p.(TDSTS)) (p.(ALIGN))
    (p.(TOUTEN)) (p.(TOUTIEN)) (p.(TOC)) (p.(TOUTPSC)) (p.(TOUTPSC1)) (p.(REQSEL)) v
    (p.(ASOCR)) (p.(AICTL)) (p.(RCNT)).
Definition set_ASOCR (v : list Z) (p : PDMA_T) : PDMA_T :=
  mkPDMA (p.(CHCTL)) (p.(INTEN)) (p.(INTSTS)) (p.(ABTSTS)) (p.(TDSTS)) (p.(ALIGN))
    (p.(TOUTEN)) (p.(TOUTIEN)) (p.(TOC)) (p.(TOUTPSC)) (p.(TOUTPSC1)) (p.(REQSEL))
    (p.(STCR)) v (p.(AICTL)) (p.(RCNT)).
Definition set_AICTL (v : list Z) (p : PDMA_T) : PDMA_T :=
  mkPDMA (p.(CHCTL)) (p.(INTEN)) (p.(INTSTS)) (p.(ABTSTS)) (p.(TDSTS)) (p.(ALIGN))
    (p.(TOUTEN)) (p.(TOUTIEN)) (p.(TOC)) (p.(TOUTPSC)) (p.(TOUTPSC1)) (p.(REQSEL))
    (p.(STCR)) (p.(ASOCR)) v (p.(RCNT)).
Definition set_RCNT (v : list Z) (p : PDMA_T) : PDMA_T :=
  mkPDMA (p.(CHCTL)) (p.(INTEN)) (p.(INTSTS)) (p.(ABTSTS)) (p.(TDSTS)) (p.(ALIGN))
    (p.(TOUTEN)) (p.(TOUTIEN)) (p.(TOC)) (p.(TOUTPSC)) (p.(TOUTPSC1)) (p.(REQSEL))
    (p.(STCR)) (p.(ASOCR)) (p.(AICTL)) v.

Definition sizeof_DSCT_T : Z := 16.

(** The address of [pdma->DSCT[ch]]. *)
Definition dsct_addr (pdma ch : Z) : Z := pdma + sizeof_DSCT_T * ch.

Record pdma_hw : Type := mkHw {
  hw_regs : gmap Z PDMA_T;
  hw_dsct : gmap Z DSCT_T
}.

(** The registers whose write makes the module act. *)
Inductive hwreg : Type := R_CHRST | R_SWREQ | R_INTSTS | R_ABTSTS | R_TDSTS | R_ALIGN.

Class PdmaHw : Type := {
  (** the module's reaction to storing a word into the register *)
  hw_write : hwreg -> Z -> PDMA_T -> PDMA_T;
  (** its own progress between two polls of [CHCTL] after a channel reset *)
  hw_idle : PDMA_T -> PDMA_T;
  (** how many polls a channel reset can take *)
  hw_reset_latency : nat;
  (** [SYS_ResetModule] on the module *)
  hw_ip_reset : PDMA_T -> PDMA_T
}.

Fixpoint hw_idles `{PdmaHw} (n : nat) (p : PDMA_T) : PDMA_T :=
  match n with O => p | S n' => hw_idles n' (hw_idle p) end.

(** [TOC] has five registers, [REQSEL] three, [STRIDE] six and [REPEAT] two. *)
Definition rows_ok (p : PDMA_T) : Prop :=
  length (TOC p) = 5%nat /\ length (REQSEL p) = 3%nat.

(** The behaviour documented in pdma_reg.h: storing a mask into CHRST resets those
    channels, after which CHCTL has no bit of the mask; the status registers are
    cleared by writing ones (of INTSTS only the time-out flags); and the register
    file keeps its shape. *)
Class PdmaHwSpec `{PdmaHw} : Prop := {
  hw_reset_done : forall m p, is_u32 m -> exists n,
    (n <= hw_reset_latency)%nat /\
    Z.land (CHCTL (hw_idles n (hw_write R_CHRST m p))) m = 0;
  hw_tdsts_w1c : forall m p, hw_write R_TDSTS m p = set_TDSTS (Z.land (TDSTS p) (not32 m)) p;
  hw_abtsts_w1c : forall m p, hw_write R_ABTSTS m p = set_ABTSTS (Z.land (ABTSTS p) (not32 m)) p;
  hw_align_w1c : forall m p, hw_write R_ALIGN m p = set_ALIGN (Z.land (ALIGN p) (not32 m)) p;
  hw_intsts_w1c : forall m p,
    hw_write R_INTSTS m p =
    set_INTSTS (Z.land (INTSTS p) (not32 (Z.land m PDMA_INTSTS_REQTOFn_Msk))) p;
  hw_write_rows : forall r v p, rows_ok p -> rows_ok (hw_write r v p);
  hw_idle_rows : forall p, rows_ok p -> rows_ok (hw_idle p);
  hw_ip_reset_rows : forall p, rows_ok p -> rows_ok (hw_ip_reset p)
}.

(** ** Access *)

Definition reg {A} (f : PDMA_T -> A) (pdma : Z) : M pdma_hw A :=
  let! h := get in
  let! p := deref (hw_regs h !! pdma) in
  ret (f p).

Definition upd_reg (f : PDMA_T -> PDMA_T) (pdma : Z) : M pdma_hw unit :=
  let! h := get in
  let! p := deref (hw_regs h !! pdma) in
  modify (fun h => mkHw (<[pdma := f p]> (hw_regs h)) (hw_dsct h)).

Definition read_dsct (a : Z) : M pdma_hw DSCT_T :=
  let! h := get in deref (hw_dsct h !! a).

Definition upd_dsct (f : DSCT_T -> DSCT_T) (a : Z) : M pdma_hw unit :=
  let! d := read_dsct a in
  modify (fun h => mkHw (hw_regs h) (<[a := f d]> (hw_dsct h))).

(** ** Operations of nu_pdma.c *)

Definition PDMA_Open (pdma u32Mask : Z) : M pdma_hw unit :=
  for_each (seqZ 0 PDMA_CH_MAX) (fun i =>
    if tst (bit i) u32Mask then upd_dsct (set_CTL 0) (dsct_addr pdma i) else ret tt) ;;
  upd_reg (fun p => set_CHCTL (Z.lor (CHCTL p) u32Mask) p) pdma.

Definition PDMA_Close (pdma : Z) : M pdma_hw unit := upd_reg (set_CHCTL 0) pdma.

Definition PDMA_SetTransferCnt (pdma u32Ch u32Width u32TransCount : Z) : M pdma_hw unit :=
  let a := dsct_addr pdma u32Ch in
  upd_dsct (fun d => set_CTL (Z.land (CTL d)
    (not32 (Z.lor PDMA_DSCT_CTL_TXCNT_Msk PDMA_DSCT_CTL_TXWIDTH_Msk))) d) a ;;
  upd_dsct (fun d => set_CTL (Z.lor (CTL d)
    (Z.lor u32Width (shl32 (u32 (u32TransCount - 1)) PDMA_DSCT_CTL_TXCNT_Pos))) d) a.

(** [STRIDE] has six entries and [REPEAT] two, whatever the channel. *)
Definition PDMA_SetStride (pdma u32Ch u32DestLen u32SrcLen u32TransCount : Z) : M pdma_hw unit :=
  upd_dsct (fun d => set_CTL (Z.lor (CTL d) PDMA_DSCT_CTL_STRIDEEN_Msk) d) (dsct_addr pdma u32Ch) ;;
  (if u32Ch <? 6 then
     upd_reg (fun p => set_ASOCR (zupd (ASOCR p) u32Ch
       (Z.lor (shl32 (u32 (u32DestLen - 1)) 16) (u32 (u32SrcLen - 1)))) p) pdma ;;
     upd_reg (fun p => set_STCR (zupd (STCR p) u32Ch (u32 (u32TransCount - 1))) p) pdma
   else undefined).

Definition PDMA_SetRepeat (pdma u32Ch u32DestInterval u32SrcInterval u32RepeatCount : Z)
  : M pdma_hw unit :=
  upd_dsct (fun d => set_CTL (Z.lor (CTL d) PDMA_DSCT_CTL_STRIDEEN_Msk) d) (dsct_addr pdma u32Ch) ;;
  (if u32Ch <? 2 then
     upd_reg (fun p => set_AICTL (zupd (AICTL p) u32Ch
       (Z.lor (shl32 u32DestInterval 16) u32SrcInterval)) p) pdma ;;
     upd_reg (fun p => set_RCNT (zupd (RCNT p) u32Ch u32RepeatCount) p) pdma
   else undefined).

Definition PDMA_SetTransferAddr (pdma u32Ch u32SrcAddr u32SrcCtrl u32DstAddr u32DstCtrl : Z)
  : M pdma_hw unit :=
  let a := dsct_addr pdma u32Ch in
  upd_dsct (set_SA u32SrcAddr) a ;;
  upd_dsct (set_DA u32DstAddr) a ;;
  upd_dsct (fun d => set_CTL (Z.land (CTL d)
    (not32 (Z.lor PDMA_DSCT_CTL_SAINC_Msk PDMA_DSCT_CTL_DAINC_Msk))) d) a ;;
  upd_dsct (fun d => set_CTL (Z.lor (CTL d) (Z.lor u32SrcCtrl u32DstCtrl)) d) a.

Definition PDMA_SetTransferMode (pdma u32Ch u32Peripheral u32ScatterEn u32DescAddr : Z)
  : M pdma_hw unit :=
  if u32Ch <? PDMA_CH_MAX then
    let u32REQSEL_Pos := (u32Ch mod 4) * 8 in
    let u32REQSEL_Msk := shl32 PDMA_REQSEL0_3_REQSRC0_Msk u32REQSEL_Pos in
    let! r := reg REQSEL pdma in
    let! v := deref (znth r (u32Ch / 4)) in
    upd_reg (fun p => set_REQSEL (zupd (REQSEL p) (u32Ch / 4)
      (field_set v u32REQSEL_Msk (shl32 u32Peripheral u32REQSEL_Pos))) p) pdma ;;
    (if negb (u32ScatterEn =? 0) then
       upd_dsct (set_NEXT u32DescAddr) (dsct_addr pdma u32Ch) ;;
       upd_dsct (fun d => set_CTL (field_set (CTL d) PDMA_DSCT_CTL_OPMODE_Msk PDMA_OP_SCATTER) d)
         (dsct_addr pdma u32Ch)
     else
       upd_dsct (fun d => set_CTL (field_set (CTL d) PDMA_DSCT_CTL_OPMODE_Msk PDMA_OP_BASIC) d)
         (dsct_addr pdma u32Ch))
  else ret tt.

Definition PDMA_SetBurstType (pdma u32Ch u32BurstType u32BurstSize : Z) : M pdma_hw unit :=
  let a := dsct_addr pdma u32Ch in
  upd_dsct (fun d => set_CTL (Z.land (CTL d)
    (not32 (Z.lor PDMA_DSCT_CTL_TXTYPE_Msk PDMA_DSCT_CTL_BURSIZE_Msk))) d) a ;;
  upd_dsct (fun d => set_CTL (Z.lor (CTL d) (Z.lor u32BurstType u32BurstSize)) d) a.

Definition PDMA_EnableTimeout (pdma u32Mask : Z) : M pdma_hw unit :=
  upd_reg (fun p => set_TOUTEN (Z.lor (TOUTEN p) u32Mask) p) pdma.

Definition PDMA_DisableTimeout (pdma u32Mask : Z) : M pdma_hw unit :=
  upd_reg (fun p => set_TOUTEN (Z.land (TOUTEN p) (not32 u32Mask)) p) pdma.

Definition PDMA_SetTimeOut (pdma u32Ch u32OnOff u32TimeOutCnt : Z) : M pdma_hw unit :=
  if u32Ch <? PDMA_CH_MAX then
    let u32TOC_Pos := (u32Ch mod 2) * 16 in
    let u32TOC_Msk := shl32 PDMA_TOC0_1_TOC0_Msk u32TOC_Pos in
    let! r := reg TOC pdma in
    let! v := deref (znth r (u32Ch / 2)) in
    upd_reg (fun p => set_TOC (zupd (TOC p) (u32Ch / 2)
      (field_set v u32TOC_Msk (shl32 u32TimeOutCnt u32TOC_Pos))) p) pdma ;;
    (if negb (u32OnOff =? 0) then
       upd_reg (fun p => set_TOUTEN (Z.lor (TOUTEN p) (bit u32Ch)) p) pdma
     else
       upd_reg (fun p => set_TOUTEN (Z.land (TOUTEN p) (not32 (bit u32Ch))) p) pdma)
  else ret tt.

Section with_hw.
Context `{HW : PdmaHw}.

(** A store into a register whose write makes the module act. *)
Definition poke (r : hwreg) (v : Z) (pdma : Z) : M pdma_hw unit :=
  upd_reg (hw_write r v) pdma.

Definition PDMA_Trigger (pdma u32Ch : Z) : M pdma_hw unit :=
  let u32REQSEL_Pos := (u32Ch mod 4) * 8 in
  let u32REQSEL_Msk := shl32 PDMA_REQSEL0_3_REQSRC0_Msk u32REQSEL_Pos in
  let! r := reg REQSEL pdma in
  let! v := deref (znth r (u32Ch / 4)) in
  let u32ChReq := Z.shiftr (Z.land v u32REQSEL_Msk) u32REQSEL_Pos in
  if u32ChReq =? PDMA_MEM then poke R_SWREQ (shl32 1 u32Ch) pdma else ret tt.
End with_hw.

Definition PDMA_EnableInt (pdma u32Ch u32Mask : Z) : M pdma_hw unit :=
  (if tst u32Mask PDMA_INT_TRANS_DONE then
     upd_reg (fun p => set_INTEN (Z.lor (INTEN p) (bit u32Ch)) p) pdma else ret tt) ;;
  (if tst u32Mask PDMA_INT_TEMPTY then
     upd_dsct (fun d => set_CTL (Z.land (CTL d) (not32 PDMA_DSCT_CTL_TBINTDIS_Msk)) d)
       (dsct_addr pdma u32Ch) else ret tt) ;;
  (if tst u32Mask PDMA_INT_TIMEOUT then
     upd_reg (fun p => set_TOUTIEN (Z.lor (TOUTIEN p) (bit u32Ch)) p) pdma else ret tt).

Definition PDMA_DisableInt (pdma u32Ch u32Mask : Z) : M pdma_hw unit :=
  (if tst u32Mask PDMA_INT_TRANS_DONE then
     upd_reg (fun p => set_INTEN (Z.land (INTEN p) (not32 (bit u32Ch))) p) pdma else ret tt) ;;
  (if tst u32Mask PDMA_INT_TEMPTY then
     upd_dsct (fun d => set_CTL (Z.lor (CTL d) PDMA_DSCT_CTL_TBINTDIS_Msk) d)
       (dsct_addr pdma u32Ch) else ret tt) ;;
  (if tst u32Mask PDMA_INT_TIMEOUT then
     upd_reg (fun p => set_TOUTIEN (Z.land (TOUTIEN p) (not32 (bit u32Ch))) p) pdma else ret tt).
