(* ===== verification/Pdma.v ===== *)
(** * The PDMA driver

    Models [libraries/ma35/rtt_port/drv_pdma.c] (with [drv_pdma.h]) as configured
    for the board: [PDMA_CNT] = 2 modules of [PDMA_CH_MAX] = 10 channels, not the
    real-time processor build.  The record [drv] gathers the file's static
    variables, the descriptor and register memory of [PdmaRegs], the tables the
    channels own and the heap they come from.  Function pointers are numbers, 0
    being NULL; a call of a callback is logged and then runs [cb_run].  The
    memory-to-memory functions at the end of the file are in [PdmaMem]. *)

From Stdlib Require Import ZArith Lia Bool.
From stdpp Require Import base tactics numbers list option gmap.
From S2P Require Import Prelude BitUtil PdmaRegs.

Open Scope Z_scope.

(** ** Constants and data *)

Definition PDMA_CNT : Z := 2.
Definition NU_PDMA_CH_MAX : Z := PDMA_CNT * PDMA_CH_MAX.
Definition DEF_PDMA_BASE_START : Z := 0x40080000.
Definition NU_PDMA_MAX_TXCNT : Z := 65536.
Definition NU_PDMA_MEMFUN_ACTOR_MAX : Z := 4.

Definition NU_PDMA_EVENT_ABORT : Z := 1.
Definition NU_PDMA_EVENT_TRANSFER_DONE : Z := 2.
Definition NU_PDMA_EVENT_ALIGNMENT : Z := 4.
Definition NU_PDMA_EVENT_TIMEOUT : Z := 8.

(** [nu_pdma_memctrl_t] and [nu_pdma_cbtype_t]; the code compares and masks the
    enumerators, so they are numbers. *)
Definition eMemCtl_SrcFix_DstFix : Z := 0.
Definition eMemCtl_SrcFix_DstInc : Z := 1.
Definition eMemCtl_SrcInc_DstFix : Z := 2.
Definition eMemCtl_SrcInc_DstInc : Z := 3.
Definition eMemCtl_Undefined : Z := -1.
Definition eCBType_Event : Z := 0.
Definition eCBType_Trigger : Z := 1.
Definition eCBType_Disable : Z := 2.

(** Request sources (nu_pdma.h). *)
Definition PDMA_UART0_TX : Z := 4.
Definition PDMA_UART0_RX : Z := 5.
Definition PDMA_UART1_TX : Z := 6.
Definition PDMA_UART1_RX : Z := 7.
Definition PDMA_UART2_TX : Z := 8.
Definition PDMA_UART2_RX : Z := 9.
Definition PDMA_UART3_TX : Z := 10.
Definition PDMA_UART3_RX : Z := 11.
Definition PDMA_UART4_TX : Z := 12.
Definition PDMA_UART4_RX : Z := 13.
Definition PDMA_UART5_TX : Z := 14.
Definition PDMA_UART5_RX : Z := 15.
Definition PDMA_UART6_TX : Z := 16.
Definition PDMA_UART6_RX : Z := 17.
Definition PDMA_UART7_TX : Z := 18.
Definition PDMA_UART7_RX : Z := 19.
Definition PDMA_UART8_TX : Z := 20.
Definition PDMA_UART8_RX : Z := 21.
Definition PDMA_UART9_TX : Z := 22.
Definition PDMA_UART9_RX : Z := 23.
Definition PDMA_UART10_TX : Z := 24.
Definition PDMA_UART10_RX : Z := 25.
Definition PDMA_UART11_TX : Z := 26.
Definition PDMA_UART11_RX : Z := 27.
Definition PDMA_UART12_TX : Z := 28.
Definition PDMA_UART12_RX : Z := 29.
Definition PDMA_UART13_TX : Z := 30.
Definition PDMA_UART13_RX : Z := 31.
Definition PDMA_UART14_TX : Z := 32.
Definition PDMA_UART14_RX : Z := 33.
Definition PDMA_UART15_TX : Z := 34.
Definition PDMA_UART15_RX : Z := 35.
Definition PDMA_UART16_TX : Z := 36.
Definition PDMA_UART16_RX : Z := 37.
Definition PDMA_QSPI0_TX : Z := 54.
Definition PDMA_QSPI0_RX : Z := 55.
Definition PDMA_QSPI1_TX : Z := 56.
Definition PDMA_QSPI1_RX : Z := 57.
Definition PDMA_SPI0_TX : Z := 60.
Definition PDMA_SPI0_RX : Z := 61.
Definition PDMA_SPI1_TX : Z := 62.
Definition PDMA_SPI1_RX : Z := 63.
Definition PDMA_SPI2_TX : Z := 64.
Definition PDMA_SPI2_RX : Z := 65.
Definition PDMA_SPI3_TX : Z := 66.
Definition PDMA_SPI3_RX : Z := 67.
Definition PDMA_I2C0_TX : Z := 70.
Definition PDMA_I2C0_RX : Z := 71.
Definition PDMA_I2C1_TX : Z := 72.
Definition PDMA_I2C1_RX : Z := 73.
Definition PDMA_I2C2_TX : Z := 74.
Definition PDMA_I2C2_RX : Z := 75.
Definition PDMA_I2C3_TX : Z := 76.
Definition PDMA_I2C3_RX : Z := 77.
Definition PDMA_I2C4_TX : Z := 78.
Definition PDMA_I2C4_RX : Z := 79.
Definition PDMA_I2C5_TX : Z := 80.
Definition PDMA_I2C5_RX : Z := 81.
Definition PDMA_I2S0_TX : Z := 86.
Definition PDMA_I2S0_RX : Z := 87.
Definition PDMA_I2S1_TX : Z := 88.
Definition PDMA_I2S1_RX : Z := 89.

Record nu_pdma_chn_cb : Type := mkCB {
  m_eCBType : Z;
  m_pfnCBHandler : Z;
  m_pvUserData : Z;
  m_u32Reserved : Z
}.

Definition set_m_eCBType (v : Z) (p : nu_pdma_chn_cb) : nu_pdma_chn_cb :=
  mkCB v (p.(m_pfnCBHandler)) (p.(m_pvUserData)) (p.(m_u32Reserved)).
Definition set_m_pfnCBHandler (v : Z) (p : nu_pdma_chn_cb) : nu_pdma_chn_cb :=
  mkCB (p.(m_eCBType)) v (p.(m_pvUserData)) (p.(m_u32Reserved)).
Definition set_m_pvUserData (v : Z) (p : nu_pdma_chn_cb) : nu_pdma_chn_cb :=
  mkCB (p.(m_eCBType)) (p.(m_pfnCBHandler)) v (p.(m_u32Reserved)).
Definition set_m_u32Reserved (v : Z) (p : nu_pdma_chn_cb) : nu_pdma_chn_cb :=
  mkCB (p.(m_eCBType)) (p.(m_pfnCBHandler)) (p.(m_pvUserData)) v.
Record nu_pdma_periph_ctl : Type := mkPeriph {
  m_u32Peripheral : Z;
  m_eMemCtl : Z
}.

Definition set_m_u32Peripheral (v : Z) (p : nu_pdma_periph_ctl) : nu_pdma_periph_ctl :=
  mkPeriph v (p.(m_eMemCtl)).
Definition set_m_eMemCtl (v : Z) (p : nu_pdma_periph_ctl) : nu_pdma_periph_ctl :=
  mkPeriph (p.(m_u32Peripheral)) v.
Record nu_pdma_chn : Type := mkChn {
  m_sCB_Event : nu_pdma_chn_cb;
  m_sCB_Trigger : nu_pdma_chn_cb;
  m_sCB_Disable : nu_pdma_chn_cb;
  m_ppsSgtbl : Z;
  m_u32WantedSGTblNum : Z;
  m_u32EventFilter : Z;
  m_u32IdleTimeout_us : Z;
  m_spPeripCtl : nu_pdma_periph_ctl
}.

Definition set_m_sCB_Event (v : nu_pdma_chn_cb) (p : nu_pdma_chn) : nu_pdma_chn :=
  mkChn v (p.(m_sCB_Trigger)) (p.(m_sCB_Disable)) (p.(m_ppsSgtbl))
    (p.(m_u32WantedSGTblNum)) (p.(m_u32EventFilter)) (p.(m_u32IdleTimeout_us))
    (p.(m_spPeripCtl)).
Definition set_m_sCB_Trigger (v : nu_pdma_chn_cb) (p : nu_pdma_chn) : nu_pdma_chn :=
  mkChn (p.(m_sCB_Event)) v (p.(m_sCB_Disable)) (p.(m_ppsSgtbl)) (p.(m_u32WantedSGTblNum))
    (p.(m_u32EventFilter)) (p.(m_u32IdleTimeout_us)) (p.(m_spPeripCtl)).
Definition set_m_sCB_Disable (v : nu_pdma_chn_cb) (p : nu_pdma_chn) : nu_pdma_chn :=
  mkChn (p.(m_sCB_Event)) (p.(m_sCB_Trigger)) v (p.(m_ppsSgtbl)) (p.(m_u32WantedSGTblNum))
    (p.(m_u32EventFilter)) (p.(m_u32IdleTimeout_us)) (p.(m_spPeripCtl)).
Definition set_m_ppsSgtbl (v : Z) (p : nu_pdma_chn) : nu_pdma_chn :=
  mkChn (p.(m_sCB_Event)) (p.(m_sCB_Trigger)) (p.(m_sCB_Disable)) v
    (p.(m_u32WantedSGTblNum)) (p.(m_u32EventFilter)) (p.(m_u32IdleTimeout_us))
    (p.(m_spPeripCtl)).
Definition set_m_u32WantedSGTblNum (v : Z) (p : nu_pdma_chn) : nu_pdma_chn :=
  mkChn (p.(m_sCB_Event)) (p.(m_sCB_Trigger)) (p.(m_sCB_Disable)) (p.(m_ppsSgtbl)) v
    (p.(m_u32EventFilter)) (p.(m_u32IdleTimeout_us)) (p.(m_spPeripCtl)).
Definition set_m_u32EventFilter (v : Z) (p : nu_pdma_chn) : nu_pdma_chn :=
  mkChn (p.(m_sCB_Event)) (p.(m_sCB_Trigger)) (p.(m_sCB_Disable)) (p.(m_ppsSgtbl))
    (p.(m_u32WantedSGTblNum)) v (p.(m_u32IdleTimeout_us)) (p.(m_spPeripCtl)).
Definition set_m_u32IdleTimeout_us (v : Z) (p : nu_pdma_chn) : nu_pdma_chn :=
  mkChn (p.(m_sCB_Event)) (p.(m_sCB_Trigger)) (p.(m_sCB_Disable)) (p.(m_ppsSgtbl))
    (p.(m_u32WantedSGTblNum)) (p.(m_u32EventFilter)) v (p.(m_spPeripCtl)).
Definition set_m_spPeripCtl (v : nu_pdma_periph_ctl) (p : nu_pdma_chn) : nu_pdma_chn :=
  mkChn (p.(m_sCB_Event)) (p.(m_sCB_Trigger)) (p.(m_sCB_Disable)) (p.(m_ppsSgtbl))
    (p.(m_u32WantedSGTblNum)) (p.(m_u32EventFilter)) (p.(m_u32IdleTimeout_us)) v.
Record nu_pdma_memfun_actor : Type := mkActor {
  m_i32ChannID : Z;
  m_u32Result : Z;
  m_psSemMemFun : option Z
}.

Definition set_m_i32ChannID (v : Z) (p : nu_pdma_memfun_actor) : nu_pdma_memfun_actor :=
  mkActor v (p.(m_u32Result)) (p.(m_psSemMemFun)).
Definition set_m_u32Result (v : Z) (p : nu_pdma_memfun_actor) : nu_pdma_memfun_actor :=
  mkActor (p.(m_i32ChannID)) v (p.(m_psSemMemFun)).
Definition set_m_psSemMemFun (v : option Z) (p : nu_pdma_memfun_actor) : nu_pdma_memfun_actor :=
  mkActor (p.(m_i32ChannID)) (p.(m_u32Result)) v.

(** The static variables of the file and the memory they reach.  [sgtbl] holds the
    descriptor-pointer arrays by address; [heap] the live heap blocks with their
    sizes; [cb_log] the callbacks called (handler, user data, argument) and
    [dcache_log] the cache ranges written back, latest first. *)
Record drv : Type := mkDrv {
  nu_pdma_inited : bool;
  nu_pdma_chn_mask_arr : list Z;
  nu_pdma_chn_arr : list nu_pdma_chn;
  nu_pdma_memfun_actor_arr : list nu_pdma_memfun_actor;
  nu_pdma_memfun_actor_mask : Z;
  nu_pdma_memfun_actor_maxnum : Z;
  nu_pdma_memfun_actor_pool_sem : option Z;
  phw : pdma_hw;
  isr_installed : list Z;
  sgtbl : gmap Z (list Z);
  heap : gmap Z Z;
  cb_log : list (Z * Z * Z);
  dcache_log : list (Z * Z);
  bNonCacheAlignedWarning : bool;
  dcache_line_size : Z;
  CLKSEL0 : Z
}.

Definition set_nu_pdma_inited (v : bool) (p : drv) : drv :=
  mkDrv v (p.(nu_pdma_chn_mask_arr)) (p.(nu_pdma_chn_arr)) (p.(nu_pdma_memfun_actor_arr))
    (p.(nu_pdma_memfun_actor_mask)) (p.(nu_pdma_memfun_actor_maxnum))
    (p.(nu_pdma_memfun_actor_pool_sem)) (p.(phw)) (p.(isr_installed)) (p.(sgtbl))
    (p.(heap)) (p.(cb_log)) (p.(dcache_log)) (p.(bNonCacheAlignedWarning))
    (p.(dcache_line_size)) (p.(CLKSEL0)).
Definition set_nu_pdma_chn_mask_arr (v : list Z) (p : drv) : drv :=
  mkDrv (p.(nu_pdma_inited)) v (p.(nu_pdma_chn_arr)) (p.(nu_pdma_memfun_actor_arr))
    (p.(nu_pdma_memfun_actor_mask)) (p.(nu_pdma_memfun_actor_maxnum))
    (p.(nu_pdma_memfun_actor_pool_sem)) (p.(phw)) (p.(isr_installed)) (p.(sgtbl))
    (p.(heap)) (p.(cb_log)) (p.(dcache_log)) (p.(bNonCacheAlignedWarning))
    (p.(dcache_line_size)) (p.(CLKSEL0)).
Definition set_nu_pdma_chn_arr (v : list nu_pdma_chn) (p : drv) : drv :=
  mkDrv (p.(nu_pdma_inited)) (p.(nu_pdma_chn_mask_arr)) v (p.(nu_pdma_memfun_actor_arr))
    (p.(nu_pdma_memfun_actor_mask)) (p.(nu_pdma_memfun_actor_maxnum))
    (p.(nu_pdma_memfun_actor_pool_sem)) (p.(phw)) (p.(isr_installed)) (p.(sgtbl))
    (p.(heap)) (p.(cb_log)) (p.(dcache_log)) (p.(bNonCacheAlignedWarning))
    (p.(dcache_line_size)) (p.(CLKSEL0)).
Definition set_nu_pdma_memfun_actor_arr (v : list nu_pdma_memfun_actor) (p : drv) : drv :=
  mkDrv (p.(nu_pdma_inited)) (p.(nu_pdma_chn_mask_arr)) (p.(nu_pdma_chn_arr)) v
    (p.(nu_pdma_memfun_actor_mask)) (p.(nu_pdma_memfun_actor_maxnum))
    (p.(nu_pdma_memfun_actor_pool_sem)) (p.(phw)) (p.(isr_installed)) (p.(sgtbl))
    (p.(heap)) (p.(cb_log)) (p.(dcache_log)) (p.(bNonCacheAlignedWarning))
    (p.(dcache_line_size)) (p.(CLKSEL0)).
Definition set_nu_pdma_memfun_actor_mask (v : Z) (p : drv) : drv :=
  mkDrv (p.(nu_pdma_inited)) (p.(nu_pdma_chn_mask_arr)) (p.(nu_pdma_chn_arr))
    (p.(nu_pdma_memfun_actor_arr)) v (p.(nu_pdma_memfun_actor_maxnum))
    (p.(nu_pdma_memfun_actor_pool_sem)) (p.(phw)) (p.(isr_installed)) (p.(sgtbl))
    (p.(heap)) (p.(cb_log)) (p.(dcache_log)) (p.(bNonCacheAlignedWarning))
    (p.(dcache_line_size)) (p.(CLKSEL0)).
Definition set_nu_pdma_memfun_actor_maxnum (v : Z) (p : drv) : drv :=
  mkDrv (p.(nu_pdma_inited)) (p.(nu_pdma_chn_mask_arr)) (p.(nu_pdma_chn_arr))
    (p.(nu_pdma_memfun_actor_arr)) (p.(nu_pdma_memfun_actor_mask)) v
    (p.(nu_pdma_memfun_actor_pool_sem)) (p.(phw)) (p.(isr_installed)) (p.(sgtbl))
    (p.(heap)) (p.(cb_log)) (p.(dcache_log)) (p.(bNonCacheAlignedWarning))
    (p.(dcache_line_size)) (p.(CLKSEL0)).
Definition set_nu_pdma_memfun_actor_pool_sem (v : option Z) (p : drv) : drv :=
  mkDrv (p.(nu_pdma_inited)) (p.(nu_pdma_chn_mask_arr)) (p.(nu_pdma_chn_arr))
    (p.(nu_pdma_memfun_actor_arr)) (p.(nu_pdma_memfun_actor_mask))
    (p.(nu_pdma_memfun_actor_maxnum)) v (p.(phw)) (p.(isr_installed)) (p.(sgtbl))
    (p.(heap)) (p.(cb_log)) (p.(dcache_log)) (p.(bNonCacheAlignedWarning))
    (p.(dcache_line_size)) (p.(CLKSEL0)).
Definition set_phw (v : pdma_hw) (p : drv) : drv :=
  mkDrv (p.(nu_pdma_inited)) (p.(nu_pdma_chn_mask_arr)) (p.(nu_pdma_chn_arr))
    (p.(nu_pdma_memfun_actor_arr)) (p.(nu_pdma_memfun_actor_mask))
    (p.(nu_pdma_memfun_actor_maxnum)) (p.(nu_pdma_memfun_actor_pool_sem)) v
    (p.(isr_installed)) (p.(sgtbl)) (p.(heap)) (p.(cb_log)) (p.(dcache_log))
    (p.(bNonCacheAlignedWarning)) (p.(dcache_line_size)) (p.(CLKSEL0)).
Definition set_isr_installed (v : list Z) (p : drv) : drv :=
  mkDrv (p.(nu_pdma_inited)) (p.(nu_pdma_chn_mask_arr)) (p.(nu_pdma_chn_arr))
    (p.(nu_pdma_memfun_actor_arr)) (p.(nu_pdma_memfun_actor_mask))
    (p.(nu_pdma_memfun_actor_maxnum)) (p.(nu_pdma_memfun_actor_pool_sem)) (p.(phw)) v
    (p.(sgtbl)) (p.(heap)) (p.(cb_log)) (p.(dcache_log)) (p.(bNonCacheAlignedWarning))
    (p.(dcache_line_size)) (p.(CLKSEL0)).
Definition set_sgtbl (v : gmap Z (list Z)) (p : drv) : drv :=
  mkDrv (p.(nu_pdma_inited)) (p.(nu_pdma_chn_mask_arr)) (p.(nu_pdma_chn_arr))
    (p.(nu_pdma_memfun_actor_arr)) (p.(nu_pdma_memfun_actor_mask))
    (p.(nu_pdma_memfun_actor_maxnum)) (p.(nu_pdma_memfun_actor_pool_sem)) (p.(phw))
    (p.(isr_installed)) v (p.(heap)) (p.(cb_log)) (p.(dcache_log))
    (p.(bNonCacheAlignedWarning)) (p.(dcache_line_size)) (p.(CLKSEL0)).
Definition set_heap (v : gmap Z Z) (p : drv) : drv :=
  mkDrv (p.(nu_pdma_inited)) (p.(nu_pdma_chn_mask_arr)) (p.(nu_pdma_chn_arr))
    (p.(nu_pdma_memfun_actor_arr)) (p.(nu_pdma_memfun_actor_mask))
    (p.(nu_pdma_memfun_actor_maxnum)) (p.(nu_pdma_memfun_actor_pool_sem)) (p.(phw))
    (p.(isr_installed)) (p.(sgtbl)) v (p.(cb_log)) (p.(dcache_log))
    (p.(bNonCacheAlignedWarning)) (p.(dcache_line_size)) (p.(CLKSEL0)).
Definition set_cb_log (v : list (Z * Z * Z)) (p : drv) : drv :=
  mkDrv (p.(nu_pdma_inited)) (p.(nu_pdma_chn_mask_arr)) (p.(nu_pdma_chn_arr))
    (p.(nu_pdma_memfun_actor_arr)) (p.(nu_pdma_memfun_actor_mask))
    (p.(nu_pdma_memfun_actor_maxnum)) (p.(nu_pdma_memfun_actor_pool_sem)) (p.(phw))
    (p.(isr_installed)) (p.(sgtbl)) (p.(heap)) v (p.(dcache_log))
    (p.(bNonCacheAlignedWarning)) (p.(dcache_line_size)) (p.(CLKSEL0)).
Definition set_dcache_log (v : list (Z * Z)) (p : drv) : drv :=
  mkDrv (p.(nu_pdma_inited)) (p.(nu_pdma_chn_mask_arr)) (p.(nu_pdma_chn_arr))
    (p.(nu_pdma_memfun_actor_arr)) (p.(nu_pdma_memfun_actor_mask))
    (p.(nu_pdma_memfun_actor_maxnum)) (p.(nu_pdma_memfun_actor_pool_sem)) (p.(phw))
    (p.(isr_installed)) (p.(sgtbl)) (p.(heap)) (p.(cb_log)) v (p.(bNonCacheAlignedWarning))
    (p.(dcache_line_size)) (p.(CLKSEL0)).
Definition set_bNonCacheAlignedWarning (v : bool) (p : drv) : drv :=
  mkDrv (p.(nu_pdma_inited)) (p.(nu_pdma_chn_mask_arr)) (p.(nu_pdma_chn_arr))
    (p.(nu_pdma_memfun_actor_arr)) (p.(nu_pdma_memfun_actor_mask))
    (p.(nu_pdma_memfun_actor_maxnum)) (p.(nu_pdma_memfun_actor_pool_sem)) (p.(phw))
    (p.(isr_installed)) (p.(sgtbl)) (p.(heap)) (p.(cb_log)) (p.(dcache_log)) v
    (p.(dcache_line_size)) (p.(CLKSEL0)).
Definition set_dcache_line_size (v : Z) (p : drv) : drv :=
  mkDrv (p.(nu_pdma_inited)) (p.(nu_pdma_chn_mask_arr)) (p.(nu_pdma_chn_arr))
    (p.(nu_pdma_memfun_actor_arr)) (p.(nu_pdma_memfun_actor_mask))
    (p.(nu_pdma_memfun_actor_maxnum)) (p.(nu_pdma_memfun_actor_pool_sem)) (p.(phw))
    (p.(isr_installed)) (p.(sgtbl)) (p.(heap)) (p.(cb_log)) (p.(dcache_log))
    (p.(bNonCacheAlignedWarning)) v (p.(CLKSEL0)).
Definition set_CLKSEL0 (v : Z) (p : drv) : drv :=
  mkDrv (p.(nu_pdma_inited)) (p.(nu_pdma_chn_mask_arr)) (p.(nu_pdma_chn_arr))
    (p.(nu_pdma_memfun_actor_arr)) (p.(nu_pdma_memfun_actor_mask))
    (p.(nu_pdma_memfun_actor_maxnum)) (p.(nu_pdma_memfun_actor_pool_sem)) (p.(phw))
    (p.(isr_installed)) (p.(sgtbl)) (p.(heap)) (p.(cb_log)) (p.(dcache_log))
    (p.(bNonCacheAlignedWarning)) (p.(dcache_line_size)) v.

Definition cb_zero : nu_pdma_chn_cb := mkCB 0 0 0 0.
Definition chn_zero : nu_pdma_chn :=
  mkChn cb_zero cb_zero cb_zero 0 0 0 0 (mkPeriph 0 0).

Definition g_nu_pdma_peripheral_ctl_pool : list (Z * Z) :=
  [ (PDMA_MEM, eMemCtl_SrcInc_DstInc);
    (PDMA_UART0_TX, eMemCtl_SrcInc_DstFix);
    (PDMA_UART1_TX, eMemCtl_SrcInc_DstFix);
    (PDMA_UART2_TX, eMemCtl_SrcInc_DstFix);
    (PDMA_UART3_TX, eMemCtl_SrcInc_DstFix);
    (PDMA_UART4_TX, eMemCtl_SrcInc_DstFix);
    (PDMA_UART5_TX, eMemCtl_SrcInc_DstFix);
    (PDMA_UART6_TX, eMemCtl_SrcInc_DstFix);
    (PDMA_UART7_TX, eMemCtl_SrcInc_DstFix);
    (PDMA_UART8_TX, eMemCtl_SrcInc_DstFix);
    (PDMA_UART9_TX, eMemCtl_SrcInc_DstFix);
    (PDMA_UART10_TX, eMemCtl_SrcInc_DstFix);
    (PDMA_UART11_TX, eMemCtl_SrcInc_DstFix);
    (PDMA_UART12_TX, eMemCtl_SrcInc_DstFix);
    (PDMA_UART13_TX, eMemCtl_SrcInc_DstFix);
    (PDMA_UART14_TX, eMemCtl_SrcInc_DstFix);
    (PDMA_UART15_TX, eMemCtl_SrcInc_DstFix);
    (PDMA_UART16_TX, eMemCtl_SrcInc_DstFix);
    (PDMA_QSPI0_TX, eMemCtl_SrcInc_DstFix);
    (PDMA_QSPI1_TX, eMemCtl_SrcInc_DstFix);
    (PDMA_SPI0_TX, eMemCtl_SrcInc_DstFix);
    (PDMA_SPI1_TX, eMemCtl_SrcInc_DstFix);
    (PDMA_SPI2_TX, eMemCtl_SrcInc_DstFix);
    (PDMA_SPI3_TX, eMemCtl_SrcInc_DstFix);
    (PDMA_I2C0_TX, eMemCtl_SrcInc_DstFix);
    (PDMA_I2C1_TX, eMemCtl_SrcInc_DstFix);
    (PDMA_I2C2_TX, eMemCtl_SrcInc_DstFix);
    (PDMA_I2C3_TX, eMemCtl_SrcInc_DstFix);
    (PDMA_I2C4_TX, eMemCtl_SrcInc_DstFix);
    (PDMA_I2C5_TX, eMemCtl_SrcInc_DstFix);
    (PDMA_I2S0_TX, eMemCtl_SrcInc_DstFix);
    (PDMA_I2S1_TX, eMemCtl_SrcInc_DstFix);
    (PDMA_UART0_RX, eMemCtl_SrcFix_DstInc);
    (PDMA_UART1_RX, eMemCtl_SrcFix_DstInc);
    (PDMA_UART2_RX, eMemCtl_SrcFix_DstInc);
    (PDMA_UART3_RX, eMemCtl_SrcFix_DstInc);
    (PDMA_UART4_RX, eMemCtl_SrcFix_DstInc);
    (PDMA_UART5_RX, eMemCtl_SrcFix_DstInc);
    (PDMA_UART6_RX, eMemCtl_SrcFix_DstInc);
    (PDMA_UART7_RX, eMemCtl_SrcFix_DstInc);
    (PDMA_UART8_RX, eMemCtl_SrcFix_DstInc);
    (PDMA_UART9_RX, eMemCtl_SrcFix_DstInc);
    (PDMA_UART10_RX, eMemCtl_SrcFix_DstInc);
    (PDMA_UART11_RX, eMemCtl_SrcFix_DstInc);
    (PDMA_UART12_RX, eMemCtl_SrcFix_DstInc);
    (PDMA_UART13_RX, eMemCtl_SrcFix_DstInc);
    (PDMA_UART14_RX, eMemCtl_SrcFix_DstInc);
    (PDMA_UART15_RX, eMemCtl_SrcFix_DstInc);
    (PDMA_UART16_RX, eMemCtl_SrcFix_DstInc);
    (PDMA_QSPI0_RX, eMemCtl_SrcFix_DstInc);
    (PDMA_QSPI1_RX, eMemCtl_SrcFix_DstInc);
    (PDMA_SPI0_RX, eMemCtl_SrcFix_DstInc);
    (PDMA_SPI1_RX, eMemCtl_SrcFix_DstInc);
    (PDMA_SPI2_RX, eMemCtl_SrcFix_DstInc);
    (PDMA_SPI3_RX, eMemCtl_SrcFix_DstInc);
    (PDMA_I2C0_RX, eMemCtl_SrcFix_DstInc);
    (PDMA_I2C1_RX, eMemCtl_SrcFix_DstInc);
    (PDMA_I2C2_RX, eMemCtl_SrcFix_DstInc);
    (PDMA_I2C3_RX, eMemCtl_SrcFix_DstInc);
    (PDMA_I2C4_RX, eMemCtl_SrcFix_DstInc);
    (PDMA_I2C5_RX, eMemCtl_SrcFix_DstInc);
    (PDMA_I2S0_RX, eMemCtl_SrcFix_DstInc);
    (PDMA_I2S1_RX, eMemCtl_SrcFix_DstInc) ].

(** [NU_PDMA_GET_BASE], [NU_PDMA_GET_MOD_IDX] and [NU_PDMA_GET_MOD_CHIDX]; the
    channel number is an [int] and [PDMA_CH_MAX] an unsigned constant. *)
Definition NU_PDMA_GET_MOD_IDX (ch : Z) : Z := u32 ch / PDMA_CH_MAX.
Definition NU_PDMA_GET_MOD_CHIDX (ch : Z) : Z := u32 ch mod PDMA_CH_MAX.
Definition NU_PDMA_GET_BASE (ch : Z) : Z :=
  u32 (u32 ch / PDMA_CH_MAX * 0x10000 + DEF_PDMA_BASE_START).

(** The heap (rt_malloc_align of the kernel): where the next block goes, 0 when
    there is no room. *)
Class RtHeap : Type := { malloc_pick : gmap Z Z -> Z -> Z -> Z }.

(** What the kernel's allocator promises: an aligned block of RAM that overlaps no
    live block and no device register. *)
Class RtHeapSpec `{RtHeap} : Prop := {
  malloc_ram : forall live size align, 0 < size ->
    let p := malloc_pick live size align in
    p <> 0 -> 0x80000000 <= p /\ p + size <= 2 ^ 32 /\ p mod align = 0;
  malloc_disjoint : forall live size align a sz, 0 < size ->
    let p := malloc_pick live size align in
    p <> 0 -> live !! a = Some sz -> p + size <= a \/ a + sz <= p
}.

(** What a callback does to the driver state when it runs. *)
Class Callbacks : Type := { cb_run : Z -> Z -> Z -> M drv unit }.

Section driver.
Context `{HW : PdmaHw} `{RH : RtHeap} `{CBS : Callbacks}.

(** *** State access *)

Definition on_hw {A} (m : M pdma_hw A) : M drv A := fun s =>
  match m (phw s) with
  | Ret (a, h) => Ret (a, set_phw h s)
  | AssertFail => AssertFail
  | Undef => Undef
  | OutOfFuel => OutOfFuel
  end.

(** [nu_pdma_chn_arr[i32ChannID]], read and updated. *)
Definition chn (i32ChannID : Z) : M drv nu_pdma_chn :=
  let! arr := gets nu_pdma_chn_arr in deref (znth arr i32ChannID).

Definition upd_chn (f : nu_pdma_chn -> nu_pdma_chn) (i32ChannID : Z) : M drv unit :=
  let! c := chn i32ChannID in
  modify (fun s => set_nu_pdma_chn_arr (zupd (nu_pdma_chn_arr s) i32ChannID (f c)) s).

Definition call_handler (h u a : Z) : M drv unit :=
  modify (fun s => set_cb_log ((h, u, a) :: cb_log s) s) ;;
  cb_run h u a.

Definition rt_malloc_align (size align : Z) : M drv Z :=
  let! s := get in
  let p := malloc_pick (heap s) size align in
  (if p =? 0 then ret tt else modify (fun s => set_heap (<[p := size]> (heap s)) s)) ;;
  ret p.

Definition rt_free_align (p : Z) : M drv unit :=
  modify (fun s => set_heap (delete p (heap s)) s).

Definition rt_hw_cpu_dcache_clean_inv (addr size : Z) : M drv unit :=
  modify (fun s => set_dcache_log ((addr, size) :: dcache_log s) s).

(** A shift by a variable amount, undefined from the width on. *)
Definition shl_ul (x n : Z) : M drv Z := if n <? 32 then ret (shl32 x n) else undefined.

Definition div_ul (x y : Z) : M drv Z := if y =? 0 then undefined else ret (x / y).

(** nu_clk.c: the SYSCLK1 frequency, [__HXT] or [SYSPLLFREQCLK]. *)
Definition CLK_GetSYSCLK1Freq : M drv Z :=
  let! c := gets CLKSEL0 in
  ret (if Z.land c 0x10 =? 0 then 24000000 else 180000000).

(** *** Channel bookkeeping *)

Definition nu_pdma_check_is_nonallocated (u32ChnId : Z) : M drv bool :=
  let mod_idx := NU_PDMA_GET_MOD_IDX u32ChnId in
  rt_assert (mod_idx <? PDMA_CNT) ;;
  let! arr := gets nu_pdma_chn_mask_arr in
  let! m := deref (znth arr mod_idx) in
  ret (negb (tst m (bit (NU_PDMA_GET_MOD_CHIDX u32ChnId)))).

Fixpoint peripheral_index (pool : list (Z * Z)) (idx u32PeriphType : Z) : Z :=
  match pool with
  | [] => -1
  | (p, _) :: pool' =>
      if p =? u32PeriphType then idx else peripheral_index pool' (idx + 1) u32PeriphType
  end.

Definition nu_pdma_peripheral_set (u32PeriphType : Z) : Z :=
  peripheral_index g_nu_pdma_peripheral_ctl_pool 0 u32PeriphType.

Definition nu_pdma_periph_ctrl_fill (i32ChannID i32CtlPoolIdx : Z) : M drv unit :=
  let! e := deref (znth g_nu_pdma_peripheral_ctl_pool i32CtlPoolIdx) in
  upd_chn (set_m_spPeripCtl (mkPeriph (fst e) (snd e))) i32ChannID.

Definition module_base (i : Z) : Z := DEF_PDMA_BASE_START + 0x10000 * i.

(** The body of the loop of [nu_pdma_init]. *)
Definition init_module (i : Z) : M drv unit :=
  modify (fun s => set_nu_pdma_chn_mask_arr
    (zupd (nu_pdma_chn_mask_arr s) i (not32 PDMA_CH_Msk)) s) ;;
  on_hw (upd_reg hw_ip_reset (module_base i)) ;;
  on_hw (PDMA_Open (module_base i) PDMA_CH_Msk) ;;
  on_hw (PDMA_Close (module_base i)) ;;
  modify (fun s => set_isr_installed (i :: isr_installed s) s).

Definition nu_pdma_init : M drv unit :=
  let! inited := gets nu_pdma_inited in
  if inited then ret tt else
  modify (set_nu_pdma_chn_arr (replicate (Z.to_nat NU_PDMA_CH_MAX) chn_zero)) ;;
  for_each (seqZ 0 PDMA_CNT) init_module ;;
  modify (set_nu_pdma_inited true).

Definition nu_pdma_channel_enable (i32ChannID : Z) : M drv unit :=
  let PDMA := NU_PDMA_GET_BASE i32ChannID in
  let u32ModChannId := NU_PDMA_GET_MOD_CHIDX i32ChannID in
  on_hw (upd_dsct (set_CTL 0) (dsct_addr PDMA u32ModChannId)) ;;
  on_hw (upd_reg (fun p => set_CHCTL (Z.lor (CHCTL p) (bit u32ModChannId)) p) PDMA).

Definition nu_pdma_channel_disable (i32ChannID : Z) : M drv unit :=
  on_hw (upd_reg (fun p => set_CHCTL
    (Z.land (CHCTL p) (not32 (bit (NU_PDMA_GET_MOD_CHIDX i32ChannID)))) p)
    (NU_PDMA_GET_BASE i32ChannID)).

(** [while (PDMA->CHCTL & (1 << ch));] *)
Fixpoint wait_chctl (fuel : nat) (PDMA ch : Z) : M drv unit :=
  match fuel with
  | O => out_of_fuel
  | S fuel =>
      let! c := on_hw (reg CHCTL PDMA) in
      if tst c (bit ch) then on_hw (upd_reg hw_idle PDMA) ;; wait_chctl fuel PDMA ch
      else ret tt
  end.

Definition nu_pdma_channel_reset (i32ChannID : Z) : M drv unit :=
  let PDMA := NU_PDMA_GET_BASE i32ChannID in
  let u32ModChannId := NU_PDMA_GET_MOD_CHIDX i32ChannID in
  on_hw (poke R_CHRST (bit u32ModChannId) PDMA) ;;
  wait_chctl (S hw_reset_latency) PDMA u32ModChannId.

Definition nu_pdma_channel_reset_user (i32ChannID : Z) : M drv unit :=
  nu_pdma_channel_reset i32ChannID.

(** The prescaler field of a channel in TOUTPSC or TOUTPSC1. *)
Definition set_prescaler (PDMA u32ModChannId u32Divider : Z) : M drv unit :=
  let pos := PDMA_TOUTPSC_TOUTPSC1_Pos * u32ModChannId in
  let! msk := shl_ul 0x7 pos in
  let! v := shl_ul u32Divider pos in
  if u32ModChannId <? 8 then
    on_hw (upd_reg (fun p => set_TOUTPSC (field_set (TOUTPSC p) msk v) p) PDMA)
  else
    on_hw (upd_reg (fun p => set_TOUTPSC1 (field_set (TOUTPSC1 p) msk v) p) PDMA).

Definition nu_pdma_timeout_set (i32ChannID i32Timeout_us : Z) : M drv Z :=
  let! na := nu_pdma_check_is_nonallocated i32ChannID in
  if na then ret (- RT_EINVAL) else
  let PDMA := NU_PDMA_GET_BASE i32ChannID in
  let u32ModChannId := NU_PDMA_GET_MOD_CHIDX i32ChannID in
  upd_chn (set_m_u32IdleTimeout_us (u32 i32Timeout_us)) i32ChannID ;;
  if negb (i32Timeout_us =? 0) then
    let! clk := CLK_GetSYSCLK1Freq in
    let! u32ToClk_Max := div_ul 1000000 (clk / 256) in
    let! q := div_ul (u32 i32Timeout_us) u32ToClk_Max in
    on_hw (PDMA_DisableTimeout PDMA (bit u32ModChannId)) ;;
    on_hw (PDMA_EnableInt PDMA u32ModChannId PDMA_INT_TIMEOUT) ;;
    let big := 7 <? q / 65536 in
    let u32Divider := if big then 7 else q / 65536 in
    let u32TOutCnt := if big then 65535 else q mod 65536 in
    set_prescaler PDMA u32ModChannId u32Divider ;;
    on_hw (PDMA_SetTimeOut PDMA u32ModChannId 1 u32TOutCnt) ;;
    ret (- RT_EOK)
  else
    on_hw (PDMA_DisableInt PDMA u32ModChannId PDMA_INT_TIMEOUT) ;;
    on_hw (PDMA_DisableTimeout PDMA (bit u32ModChannId)) ;;
    ret (- RT_EINVAL).

Definition nu_pdma_channel_terminate (i32ChannID : Z) : M drv unit :=
  let! na := nu_pdma_check_is_nonallocated i32ChannID in
  if na then ret tt else
  let! _r := nu_pdma_timeout_set i32ChannID 0 in
  nu_pdma_channel_reset i32ChannID ;;
  nu_pdma_channel_enable i32ChannID.

(** The scan of [nu_pdma_channel_allocate] over the modules. *)
Fixpoint allocate_scan (js : list Z) (i32PeripCtlIdx : Z) : M drv Z :=
  match js with
  | [] => ret (- RT_ERROR)
  | j :: js' =>
      let! arr := gets nu_pdma_chn_mask_arr in
      let! m := deref (znth arr j) in
      let ChnId := nu_cto m in
      if ChnId <? PDMA_CH_MAX then
        modify (set_nu_pdma_chn_mask_arr (zupd arr j (Z.lor m (bit ChnId)))) ;;
        let ChnId := ChnId + j * PDMA_CH_MAX in
        upd_chn (fun _ => chn_zero) ChnId ;;
        nu_pdma_periph_ctrl_fill ChnId i32PeripCtlIdx ;;
        nu_pdma_channel_terminate ChnId ;;
        ret ChnId
      else allocate_scan js' i32PeripCtlIdx
  end.

Definition nu_pdma_channel_allocate (i32PeripType : Z) : M drv Z :=
  nu_pdma_init ;;
  let i32PeripCtlIdx := nu_pdma_peripheral_set (u32 i32PeripType) in
  if i32PeripCtlIdx <? 0 then ret (- RT_ERROR)
  else allocate_scan (seqZ 0 PDMA_CNT) i32PeripCtlIdx.

Definition nu_pdma_channel_free (i32ChannID : Z) : M drv Z :=
  let! inited := gets nu_pdma_inited in
  if negb inited then ret (- RT_EINVAL) else
  let! na := nu_pdma_check_is_nonallocated i32ChannID in
  if na then ret (- RT_EINVAL) else
  if (u32 i32ChannID <? NU_PDMA_CH_MAX) && (0 <=? i32ChannID) then
    let! arr := gets nu_pdma_chn_mask_arr in
    let! m := deref (znth arr (NU_PDMA_GET_MOD_IDX i32ChannID)) in
    modify (set_nu_pdma_chn_mask_arr (zupd arr (NU_PDMA_GET_MOD_IDX i32ChannID)
      (Z.land m (not32 (bit (NU_PDMA_GET_MOD_CHIDX i32ChannID)))))) ;;
    nu_pdma_channel_disable i32ChannID ;;
    ret (- RT_EOK)
  else ret (- RT_EINVAL).

Definition nu_pdma_filtering_set (i32ChannID u32EventFilter : Z) : M drv Z :=
  let! na := nu_pdma_check_is_nonallocated i32ChannID in
  if na then ret (- RT_EINVAL) else
  upd_chn (set_m_u32EventFilter u32EventFilter) i32ChannID ;;
  ret (- RT_EOK).

Definition nu_pdma_filtering_get (i32ChannID : Z) : M drv Z :=
  let! na := nu_pdma_check_is_nonallocated i32ChannID in
  if na then ret 0 else
  let! c := chn i32ChannID in ret (m_u32EventFilter c).

(** *** Callbacks *)

(** The callback slot an [m_eCBType] selects; [default:] selects none. *)
Definition cb_slot (eCBType : Z) :
  option ((nu_pdma_chn -> nu_pdma_chn_cb) * (nu_pdma_chn_cb -> nu_pdma_chn -> nu_pdma_chn)) :=
  if eCBType =? eCBType_Event then Some (m_sCB_Event, set_m_sCB_Event)
  else if eCBType =? eCBType_Trigger then Some (m_sCB_Trigger, set_m_sCB_Trigger)
  else if eCBType =? eCBType_Disable then Some (m_sCB_Disable, set_m_sCB_Disable)
  else None.

(** The fields [m_pfnCBHandler] and [m_pvUserData] of one struct assigned to another. *)
Definition cb_assign (src dst : nu_pdma_chn_cb) : nu_pdma_chn_cb :=
  set_m_pvUserData (m_pvUserData src) (set_m_pfnCBHandler (m_pfnCBHandler src) dst).

Definition nu_pdma_callback_register (i32ChannID : Z) (psChnCb : option nu_pdma_chn_cb)
  : M drv Z :=
  match psChnCb with
  | None => fail_assert
  | Some cb =>
      let! na := nu_pdma_check_is_nonallocated i32ChannID in
      if na then ret (- RT_EINVAL) else
      match cb_slot (m_eCBType cb) with
      | None => ret (- RT_EINVAL)
      | Some (get_slot, set_slot) =>
          upd_chn (fun c => set_slot (cb_assign cb (get_slot c)) c) i32ChannID ;;
          ret (- RT_EOK)
      end
  end.

(** Returns the handler and the caller's struct after the call. *)
Definition nu_pdma_callback_hijack (i32ChannID eCBType : Z) (psChnCb_Hijack : option nu_pdma_chn_cb)
  : M drv (Z * nu_pdma_chn_cb) :=
  match psChnCb_Hijack with
  | None => fail_assert
  | Some hj =>
      let! na := nu_pdma_check_is_nonallocated i32ChannID in
      if na then ret (0, hj) else
      match cb_slot eCBType with
      | None => ret (0, hj)
      | Some (get_slot, set_slot) =>
          let! c := chn i32ChannID in
          let cur := get_slot c in
          upd_chn (fun c => set_slot (cb_assign hj (get_slot c)) c) i32ChannID ;;
          ret (m_pfnCBHandler cur, cb_assign cur hj)
      end
  end.

(** *** Channel queries *)

Definition nu_pdma_non_transfer_count_get (i32ChannID : Z) : M drv Z :=
  let! d := on_hw (read_dsct
    (dsct_addr (NU_PDMA_GET_BASE i32ChannID) (NU_PDMA_GET_MOD_CHIDX i32ChannID))) in
  ret (Z.shiftr (Z.land (CTL d) PDMA_DSCT_CTL_TXCNT_Msk) PDMA_DSCT_CTL_TXCNT_Pos + 1).

Definition nu_pdma_transferred_byte_get (i32ChannID i32TriggerByteLen : Z) : M drv Z :=
  let! na := nu_pdma_check_is_nonallocated i32ChannID in
  if na then ret (-1) else
  let! d := on_hw (read_dsct
    (dsct_addr (NU_PDMA_GET_BASE i32ChannID) (NU_PDMA_GET_MOD_CHIDX i32ChannID))) in
  if negb (Z.land (CTL d) PDMA_DSCT_CTL_OPMODE_Msk =? PDMA_OP_SCATTER) then
    let w := Z.land (CTL d) PDMA_DSCT_CTL_TXWIDTH_Msk in
    let i32BitWidth :=
      if w =? PDMA_WIDTH_8 then 1 else if w =? PDMA_WIDTH_16 then 2
      else if w =? PDMA_WIDTH_32 then 4 else 0 in
    let! cur_txcnt := nu_pdma_non_transfer_count_get i32ChannID in
    ret (i32TriggerByteLen - cur_txcnt * i32BitWidth)
  else ret 0.

Definition nu_pdma_get_channel_desc (i32ChannID : Z) : M drv Z :=
  let! na := nu_pdma_check_is_nonallocated i32ChannID in
  if na then ret 0 else
  ret (dsct_addr (NU_PDMA_GET_BASE i32ChannID) (NU_PDMA_GET_MOD_CHIDX i32ChannID)).

Definition nu_pdma_channel_memctrl_get (i32ChannID : Z) : M drv Z :=
  let! na := nu_pdma_check_is_nonallocated i32ChannID in
  if na then ret eMemCtl_Undefined else
  let! c := chn i32ChannID in ret (m_eMemCtl (m_spPeripCtl c)).

Definition nu_pdma_channel_memctrl_set (i32ChannID eMemCtrl : Z) : M drv Z :=
  let! na := nu_pdma_check_is_nonallocated i32ChannID in
  if na then ret (- RT_EINVAL) else
  if (eMemCtrl <? eMemCtl_SrcFix_DstFix) || (eMemCtl_SrcInc_DstInc <? eMemCtrl)
  then ret (- RT_EINVAL) else
  let! c := chn i32ChannID in
  if (m_u32Peripheral (m_spPeripCtl c) =? PDMA_MEM) &&
     ((eMemCtrl =? eMemCtl_SrcFix_DstInc) || (eMemCtrl =? eMemCtl_SrcFix_DstFix))
  then ret (- RT_EINVAL) else
  upd_chn (fun c => set_m_spPeripCtl (set_m_eMemCtl eMemCtrl (m_spPeripCtl c)) c) i32ChannID ;;
  ret (- RT_EOK).

(** The two control fields; [default:] leaves the caller's zeroes. *)
Definition nu_pdma_channel_memctrl_fill (eMemCtl : Z) : Z * Z :=
  if eMemCtl =? eMemCtl_SrcFix_DstFix then (PDMA_SAR_FIX, PDMA_DAR_FIX)
  else if eMemCtl =? eMemCtl_SrcFix_DstInc then (PDMA_SAR_FIX, PDMA_DAR_INC)
  else if eMemCtl =? eMemCtl_SrcInc_DstFix then (PDMA_SAR_INC, PDMA_DAR_FIX)
  else if eMemCtl =? eMemCtl_SrcInc_DstInc then (PDMA_SAR_INC, PDMA_DAR_INC)
  else (0, 0).

(** *** Descriptors *)

(** The control word [nu_pdma_desc_setup] builds, in the order of its assignments. *)
Definition desc_ctl (eMemCtl u32Peripheral u32DataWidth i32TransferCnt next u32BeSilent : Z) : Z :=
  let '(u32SrcCtl, u32DstCtl) := nu_pdma_channel_memctrl_fill eMemCtl in
  let c := Z.lor (Z.lor (Z.lor (Z.lor
      (shl32 (i32TransferCnt - 1) PDMA_DSCT_CTL_TXCNT_Pos)
      (if u32DataWidth =? 8 then PDMA_WIDTH_8
       else if u32DataWidth =? 16 then PDMA_WIDTH_16 else PDMA_WIDTH_32))
      u32SrcCtl) u32DstCtl) PDMA_OP_BASIC in
  let c := if u32Peripheral =? PDMA_MEM then Z.lor c (Z.lor PDMA_REQ_BURST PDMA_BURST_32)
           else Z.lor c PDMA_REQ_SINGLE in
  let c := if negb (next =? 0) then field_set c PDMA_DSCT_CTL_OPMODE_Msk PDMA_OP_SCATTER else c in
  if negb (u32BeSilent =? 0) then Z.lor c PDMA_DSCT_CTL_TBINTDIS_Msk else c.

Definition nu_pdma_desc_setup
  (i32ChannID dma_desc u32DataWidth u32AddrSrc u32AddrDst i32TransferCnt next u32BeSilent : Z)
  : M drv Z :=
  if dma_desc =? 0 then ret (- RT_EINVAL) else
  let! na := nu_pdma_check_is_nonallocated i32ChannID in
  if na then ret (- RT_EINVAL) else
  if negb ((u32DataWidth =? 8) || (u32DataWidth =? 16) || (u32DataWidth =? 32))
  then ret (- RT_EINVAL) else
  if negb (u32AddrSrc mod (u32DataWidth / 8) =? 0) ||
     negb (u32AddrDst mod (u32DataWidth / 8) =? 0)
  then ret (- RT_EINVAL) else
  if NU_PDMA_MAX_TXCNT <? u32 i32TransferCnt then ret (- RT_EINVAL) else
  let! c := chn i32ChannID in
  let psPeriphCtl := m_spPeripCtl c in
  on_hw (upd_dsct (fun _ => mkDSCT
    (desc_ctl (m_eMemCtl psPeriphCtl) (m_u32Peripheral psPeriphCtl)
       u32DataWidth i32TransferCnt next u32BeSilent)
    u32AddrSrc u32AddrDst (if negb (next =? 0) then next else 0)) dma_desc) ;;
  ret (- RT_EOK).

(** [ppsSgtbls[i] = p] *)
Definition sgtbl_store (ppsSgtbls i p : Z) : M drv unit :=
  let! m := gets sgtbl in
  let! t := deref (m !! ppsSgtbls) in
  (if (0 <=? i) && (i <? Z.of_nat (length t)) then
     modify (set_sgtbl (<[ppsSgtbls := zupd t i p]> m))
   else undefined).

(** [ppsSgtbls[i]] *)
Definition sgtbl_load (ppsSgtbls i : Z) : M drv Z :=
  let! m := gets sgtbl in
  let! t := deref (m !! ppsSgtbls) in
  deref (znth t i).

Definition nu_pdma_sgtbls_allocate (ppsSgtbls num : Z) : M drv Z :=
  rt_assert (negb (ppsSgtbls =? 0)) ;;
  rt_assert (0 <? num) ;;
  for_each (seqZ 0 num) (fun i =>
    let! p := rt_malloc_align 64 64 in
    sgtbl_store ppsSgtbls i p ;;
    rt_assert (negb (p =? 0)) ;;
    on_hw (modify (fun h => mkHw (hw_regs h) (<[p := mkDSCT 0 0 0 0]> (hw_dsct h))))) ;;
  ret RT_EOK.

Definition nu_pdma_sgtbls_free (ppsSgtbls num : Z) : M drv unit :=
  rt_assert (negb (ppsSgtbls =? 0)) ;;
  rt_assert (0 <? num) ;;
  for_each (seqZ 0 num) (fun i =>
    let! p := sgtbl_load ppsSgtbls i in
    rt_free_align p ;;
    on_hw (modify (fun h => mkHw (hw_regs h) (delete p (hw_dsct h))))).

(** *** Transfers *)

(** The cache write-back along the descriptor chain, until NULL or back at the head. *)
Fixpoint flush_chain (fuel : nat) (head next : Z) : M drv unit :=
  match fuel with
  | O => out_of_fuel
  | S fuel =>
      if next =? 0 then ret tt else
      let! d := on_hw (read_dsct next) in
      let u32TxCnt := Z.shiftr (Z.land (CTL d) PDMA_DSCT_CTL_TXCNT_Msk) PDMA_DSCT_CTL_TXCNT_Pos + 1 in
      let u32DataWidth :=
        bit (Z.shiftr (Z.land (CTL d) PDMA_DSCT_CTL_TXWIDTH_Msk) PDMA_DSCT_CTL_TXWIDTH_Pos) in
      let u32SrcCtl := Z.land (CTL d) PDMA_DSCT_CTL_SAINC_Msk in
      let u32DstCtl := Z.land (CTL d) PDMA_DSCT_CTL_DAINC_Msk in
      let u32FlushLen := u32 (u32TxCnt * u32DataWidth) in
      (if u32SrcCtl =? PDMA_SAR_INC then rt_hw_cpu_dcache_clean_inv (SA d) u32FlushLen
       else ret tt) ;;
      (if u32DstCtl =? PDMA_DAR_INC then rt_hw_cpu_dcache_clean_inv (DA d) u32FlushLen
       else ret tt) ;;
      rt_hw_cpu_dcache_clean_inv next sizeof_DSCT_T ;;
      let! line := gets dcache_line_size in
      let unaligned x := tst x (line - 1) in
      modify (fun s => set_bNonCacheAlignedWarning
        (bNonCacheAlignedWarning s &&
         negb (unaligned u32FlushLen || unaligned (SA d) || unaligned (DA d) || unaligned next)) s) ;;
      if NEXT d =? head then ret tt else flush_chain fuel head (NEXT d)
  end.

(** The last step of [_nu_pdma_transfer]: a memory-to-memory transfer is requested by
    software, for a peripheral the owner's trigger callback runs. *)
Definition pdma_start (i32ChannID u32Peripheral : Z) : M drv unit :=
  if u32Peripheral =? PDMA_MEM then
    on_hw (PDMA_Trigger (NU_PDMA_GET_BASE i32ChannID) (NU_PDMA_GET_MOD_CHIDX i32ChannID))
  else
    let! c := chn i32ChannID in
    let cb := m_sCB_Trigger c in
    if negb (m_pfnCBHandler cb =? 0)
    then call_handler (m_pfnCBHandler cb) (m_pvUserData cb) (m_u32Reserved cb)
    else ret tt.

Definition _nu_pdma_transfer (i32ChannID u32Peripheral head u32IdleTimeout_us : Z) : M drv unit :=
  let PDMA := NU_PDMA_GET_BASE i32ChannID in
  let ch := NU_PDMA_GET_MOD_CHIDX i32ChannID in
  let! h := gets phw in
  flush_chain (S (size (hw_dsct h))) head head ;;
  let! psDesc := nu_pdma_get_channel_desc i32ChannID in
  on_hw (PDMA_DisableTimeout PDMA (bit ch)) ;;
  let! d := on_hw (read_dsct head) in
  on_hw (PDMA_SetTransferMode PDMA ch u32Peripheral
    (if negb (NEXT d =? 0) then 1 else 0) head) ;;
  on_hw (PDMA_EnableInt PDMA ch PDMA_INT_TRANS_DONE) ;;
  let! _r := nu_pdma_timeout_set i32ChannID u32IdleTimeout_us in
  pdma_start i32ChannID u32Peripheral.

Definition _nu_pdma_free_sgtbls (i32ChannID : Z) : M drv unit :=
  let! c := chn i32ChannID in
  if negb (m_ppsSgtbl c =? 0) then
    nu_pdma_sgtbls_free (m_ppsSgtbl c) (m_u32WantedSGTblNum c) ;;
    rt_free_align (m_ppsSgtbl c) ;;
    modify (fun s => set_sgtbl (delete (m_ppsSgtbl c) (sgtbl s)) s) ;;
    upd_chn (set_m_ppsSgtbl 0) i32ChannID ;;
    upd_chn (set_m_u32WantedSGTblNum 0) i32ChannID
  else ret tt.

(** The descriptor loop of [_nu_pdma_transfer_chain], from table [i] with [n] left;
    the result is the last [ret] of the loop. *)
Fixpoint chain_setup (n : nat) (i i32ChannID u32DataWidth u32AddrSrc u32AddrDst
                      u32TransferCnt u32Offset eMemCtl : Z) : M drv Z :=
  match n with
  | O => ret RT_EOK
  | S n =>
      let! c := chn i32ChannID in
      let u32TxCnt := if NU_PDMA_MAX_TXCNT <? u32TransferCnt then NU_PDMA_MAX_TXCNT
                      else u32TransferCnt in
      let last := i + 1 =? m_u32WantedSGTblNum c in
      let! desc := sgtbl_load (m_ppsSgtbl c) i in
      let! next := if last then ret 0 else sgtbl_load (m_ppsSgtbl c) (i + 1) in
      let! r := nu_pdma_desc_setup i32ChannID desc u32DataWidth
        (if tst eMemCtl 2 then u32 (u32AddrSrc + u32Offset) else u32AddrSrc)
        (if tst eMemCtl 1 then u32 (u32AddrDst + u32Offset) else u32AddrDst)
        u32TxCnt next (if last then 0 else 1) in
      if negb (r =? RT_EOK) then ret r else
      chain_setup n (i + 1) i32ChannID u32DataWidth u32AddrSrc u32AddrDst
        (u32 (u32TransferCnt - u32TxCnt)) (u32 (u32Offset + u32 (u32TxCnt * u32DataWidth) / 8))
        eMemCtl
  end.

(** The table (re)allocation of [_nu_pdma_transfer_chain]; [false] is its
    [goto exit__nu_pdma_transfer_chain]. *)
Definition chain_tables (i32ChannID u32TransferCnt : Z) : M drv bool :=
  let wanted := u32TransferCnt / NU_PDMA_MAX_TXCNT + 1 in
  let! c := chn i32ChannID in
  if negb (m_u32WantedSGTblNum c =? wanted) then
    (if 0 <? m_u32WantedSGTblNum c then _nu_pdma_free_sgtbls i32ChannID else ret tt) ;;
    upd_chn (set_m_u32WantedSGTblNum wanted) i32ChannID ;;
    let! p := rt_malloc_align (u32 (4 * wanted)) 4 in
    upd_chn (set_m_ppsSgtbl p) i32ChannID ;;
    if p =? 0 then ret false else
    modify (fun s => set_sgtbl (<[p := replicate (Z.to_nat wanted) 0]> (sgtbl s)) s) ;;
    let! _r := nu_pdma_sgtbls_allocate p wanted in
    ret true
  else ret true.

Definition _nu_pdma_transfer_chain
  (i32ChannID u32DataWidth u32AddrSrc u32AddrDst u32TransferCnt u32IdleTimeout_us : Z)
  : M drv Z :=
  let! eMemCtl := nu_pdma_channel_memctrl_get i32ChannID in
  let! ok := chain_tables i32ChannID u32TransferCnt in
  if negb ok then _nu_pdma_free_sgtbls i32ChannID ;; ret (- RT_ERROR) else
  let! c := chn i32ChannID in
  let! r := chain_setup (Z.to_nat (m_u32WantedSGTblNum c)) 0 i32ChannID u32DataWidth
    u32AddrSrc u32AddrDst u32TransferCnt 0 eMemCtl in
  if negb (r =? RT_EOK) then _nu_pdma_free_sgtbls i32ChannID ;; ret (- r) else
  let! c := chn i32ChannID in
  let! head := sgtbl_load (m_ppsSgtbl c) 0 in
  _nu_pdma_transfer i32ChannID (m_u32Peripheral (m_spPeripCtl c)) head u32IdleTimeout_us ;;
  ret RT_EOK.

Definition nu_pdma_transfer
  (i32ChannID u32DataWidth u32AddrSrc u32AddrDst u32TransferCnt u32IdleTimeout_us : Z)
  : M drv Z :=
  let! na := nu_pdma_check_is_nonallocated i32ChannID in
  if na then ret (- RT_EINVAL) else
  if u32TransferCnt =? 0 then ret (- RT_EINVAL) else
  if NU_PDMA_MAX_TXCNT <? u32TransferCnt then
    _nu_pdma_transfer_chain i32ChannID u32DataWidth u32AddrSrc u32AddrDst u32TransferCnt
      u32IdleTimeout_us
  else
  let! c := chn i32ChannID in
  let head := dsct_addr (NU_PDMA_GET_BASE i32ChannID) (NU_PDMA_GET_MOD_CHIDX i32ChannID) in
  let! r := nu_pdma_desc_setup i32ChannID head u32DataWidth u32AddrSrc u32AddrDst
    u32TransferCnt 0 0 in
  if negb (r =? RT_EOK) then ret (- r) else
  _nu_pdma_transfer i32ChannID (m_u32Peripheral (m_spPeripCtl c)) head u32IdleTimeout_us ;;
  ret (- RT_EOK).

Definition nu_pdma_sg_transfer (i32ChannID head u32IdleTimeout_us : Z) : M drv Z :=
  if head =? 0 then ret (- RT_EINVAL) else
  let! na := nu_pdma_check_is_nonallocated i32ChannID in
  if na then ret (- RT_EINVAL) else
  let! c := chn i32ChannID in
  _nu_pdma_transfer i32ChannID (m_u32Peripheral (m_spPeripCtl c)) head u32IdleTimeout_us ;;
  ret (- RT_EOK).

(** *** Interrupt service *)

Record isr_status : Type := mkSts {
  abtsts : Z; tdsts : Z; unalignsts : Z; reqto_ch : Z
}.

(** The event word of channel [i] of a module. *)
Definition isr_events (st : isr_status) (i : Z) : Z :=
  let ev (w e : Z) := if tst w (bit i) then e else 0 in
  Z.lor (Z.lor (Z.lor (ev (abtsts st) NU_PDMA_EVENT_ABORT)
                      (ev (tdsts st) NU_PDMA_EVENT_TRANSFER_DONE))
               (ev (unalignsts st) NU_PDMA_EVENT_ALIGNMENT))
        (ev (reqto_ch st) NU_PDMA_EVENT_TIMEOUT).

(** The body of the dispatch loop of [nu_pdma_isr] for channel [i] of module [PDMA]. *)
Definition isr_channel (PDMA : Z) (st : isr_status) (i : Z) : M drv unit :=
  let module_id := (PDMA - DEF_PDMA_BASE_START) / 0x10000 in
  let j := i + module_id * PDMA_CH_MAX in
  let! arr := gets nu_pdma_chn_mask_arr in
  let! m := deref (znth arr module_id) in
  if tst m (bit i) then
    let! c := chn j in
    if negb (m_pfnCBHandler (m_sCB_Event c) =? 0) then
      let ch_event := isr_events st i in
      (if tst (reqto_ch st) (bit i) then on_hw (PDMA_DisableTimeout PDMA (bit i)) else ret tt) ;;
      let dis := m_sCB_Disable c in
      (if negb (m_pfnCBHandler dis =? 0)
       then call_handler (m_pfnCBHandler dis) (m_pvUserData dis) (m_u32Reserved dis)
       else ret tt) ;;
      let! c := chn j in
      let ev := m_sCB_Event c in
      (if tst (m_u32EventFilter c) ch_event && negb (m_pfnCBHandler ev =? 0)
       then call_handler (m_pfnCBHandler ev) (m_pvUserData ev) ch_event
       else ret tt) ;;
      (if tst (reqto_ch st) (bit i) then
         let! c := chn j in
         let! _r := nu_pdma_timeout_set j (m_u32IdleTimeout_us c) in ret tt
       else ret tt)
    else ret tt
  else ret tt.

(** [while ((i = nu_ctz(allch_sts)) < PDMA_CH_MAX)] *)
Fixpoint isr_loop (fuel : nat) (PDMA : Z) (st : isr_status) (allch_sts : Z) : M drv unit :=
  let i := nu_ctz allch_sts in
  if i <? PDMA_CH_MAX then
    match fuel with
    | O => out_of_fuel
    | S fuel =>
        isr_channel PDMA st i ;;
        isr_loop fuel PDMA st (Z.land allch_sts (not32 (bit i)))
    end
  else ret tt.

Definition nu_pdma_isr (PDMA : Z) : M drv unit :=
  let! intsts := on_hw (reg INTSTS PDMA) in
  let! abt := on_hw (reg ABTSTS PDMA) in
  let! td := on_hw (reg TDSTS PDMA) in
  let! un := on_hw (reg ALIGN PDMA) in
  let reqto := Z.land intsts PDMA_INTSTS_REQTOFn_Msk in
  let st := mkSts abt td un (Z.shiftr reqto PDMA_INTSTS_REQTOFn_Pos) in
  let allch_sts := Z.lor (Z.lor (Z.lor (reqto_ch st) td) abt) un in
  (if tst intsts PDMA_INTSTS_ABTIF_Msk then on_hw (poke R_ABTSTS abt PDMA) else ret tt) ;;
  (if tst intsts PDMA_INTSTS_TDIF_Msk then on_hw (poke R_TDSTS td PDMA) else ret tt) ;;
  (if tst intsts PDMA_INTSTS_ALIGNF_Msk then on_hw (poke R_ALIGN un PDMA) else ret tt) ;;
  (if negb (reqto =? 0) then on_hw (poke R_INTSTS reqto PDMA) else ret tt) ;;
  isr_loop (Z.to_nat PDMA_CH_MAX) PDMA st allch_sts.
End driver.
