(* ===== verification/PdmaFacts.v ===== *)
(** * Facts about the PDMA driver state

    The well-formedness of the register file and of the driver's tables, the
    abstraction of the tables to the set of allocated channels, and one lemma per
    register-level operation: it returns, and what it leaves unchanged.  The
    property files build on these.  At the end, a concrete board for their witnesses. *)

From Stdlib Require Import ZArith Lia Bool.
From stdpp Require Import base tactics numbers list option gmap.
From S2P Require Import Prelude BitUtil PdmaRegs Pdma.

Open Scope Z_scope.

(** ** Well-formedness *)

Record wf_hw (h : pdma_hw) : Prop := {
  wf_reg : forall i, 0 <= i < PDMA_CNT ->
    exists p, hw_regs h !! module_base i = Some p /\ rows_ok p;
  wf_desc : forall i ch, 0 <= i < PDMA_CNT -> 0 <= ch < PDMA_CH_MAX ->
    is_Some (hw_dsct h !! dsct_addr (module_base i) ch)
}.

(** An allocation mask of an initialised module: a word whose bits above the last
    channel are set. *)
Definition mask_ok (m : Z) : Prop :=
  is_u32 m /\ forall k, PDMA_CH_MAX <= k < 32 -> Z.testbit m k = true.

(** The static tables have their declared sizes; after initialisation the masks
    are allocation masks. *)
Record wf (s : drv) : Prop := {
  wf_masks : length (nu_pdma_chn_mask_arr s) = Z.to_nat PDMA_CNT;
  wf_mask_ok : nu_pdma_inited s = true -> Forall mask_ok (nu_pdma_chn_mask_arr s);
  wf_chns : length (nu_pdma_chn_arr s) = Z.to_nat NU_PDMA_CH_MAX;
  wf_phw : wf_hw (phw s)
}.

Definition is_chan (c : Z) : Prop := 0 <= c < NU_PDMA_CH_MAX.

(** The channel is marked in the mask of its module. *)
Definition allocated (s : drv) (c : Z) : bool :=
  match znth (nu_pdma_chn_mask_arr s) (c / PDMA_CH_MAX) with
  | Some m => Z.testbit m (c mod PDMA_CH_MAX)
  | None => false
  end.

(** ** Channel numbers *)

Ltac chan_consts :=
  unfold is_chan, NU_PDMA_CH_MAX, PDMA_CNT, PDMA_CH_MAX in *.

Lemma chan_u32 c : is_chan c -> u32 c = c.
Proof. intros H. apply u32_small. chan_consts. unfold is_u32. lia. Qed.

Lemma chan_mod_idx c : is_chan c -> NU_PDMA_GET_MOD_IDX c = c / PDMA_CH_MAX.
Proof. intros H. unfold NU_PDMA_GET_MOD_IDX. by rewrite chan_u32. Qed.

Lemma chan_mod_chidx c : is_chan c -> NU_PDMA_GET_MOD_CHIDX c = c mod PDMA_CH_MAX.
Proof. intros H. unfold NU_PDMA_GET_MOD_CHIDX. by rewrite chan_u32. Qed.

Lemma chan_parts c : is_chan c -> 0 <= c / PDMA_CH_MAX < PDMA_CNT /\ 0 <= c mod PDMA_CH_MAX < PDMA_CH_MAX.
Proof. intros H. chan_consts. split; Z.div_mod_to_equations; lia. Qed.

Lemma chan_base c : is_chan c -> NU_PDMA_GET_BASE c = module_base (c / PDMA_CH_MAX).
Proof.
  intros H. unfold NU_PDMA_GET_BASE, module_base. rewrite (chan_u32 c) by done.
  destruct (chan_parts c H) as [H1 _]. chan_consts. rewrite u32_small; [lia|].
  unfold is_u32, DEF_PDMA_BASE_START. lia.
Qed.

(** A channel is a module and a position in it. *)
Lemma chan_split i k :
  0 <= i < PDMA_CNT -> 0 <= k < PDMA_CH_MAX ->
  is_chan (k + i * PDMA_CH_MAX) /\
  (k + i * PDMA_CH_MAX) / PDMA_CH_MAX = i /\ (k + i * PDMA_CH_MAX) mod PDMA_CH_MAX = k.
Proof. intros. chan_consts. split_and!; Z.div_mod_to_equations; lia. Qed.

(** Descriptor registers of different channels do not coincide. *)
Lemma dsct_addr_inj i k i' k' :
  0 <= i < PDMA_CNT -> 0 <= k < PDMA_CH_MAX -> 0 <= i' < PDMA_CNT -> 0 <= k' < PDMA_CH_MAX ->
  dsct_addr (module_base i) k = dsct_addr (module_base i') k' -> i = i' /\ k = k'.
Proof.
  unfold dsct_addr, module_base, sizeof_DSCT_T, DEF_PDMA_BASE_START. chan_consts. lia.
Qed.

Lemma module_base_inj i i' : module_base i = module_base i' -> i = i'.
Proof. unfold module_base. lia. Qed.

(** ** Register-level operations *)

Lemma reg_eq {A} (f : PDMA_T -> A) b h p :
  hw_regs h !! b = Some p -> reg f b h = Ret (f p, h).
Proof. intros H. unfold reg, bind, get, deref. by rewrite H. Qed.

Lemma upd_reg_eq f b h p :
  hw_regs h !! b = Some p ->
  upd_reg f b h = Ret (tt, mkHw (<[b := f p]> (hw_regs h)) (hw_dsct h)).
Proof. intros H. unfold upd_reg, bind, get, deref. by rewrite H. Qed.

Lemma read_dsct_eq a h d : hw_dsct h !! a = Some d -> read_dsct a h = Ret (d, h).
Proof. intros H. unfold read_dsct, bind, get, deref. by rewrite H. Qed.

Lemma upd_dsct_eq f a h d :
  hw_dsct h !! a = Some d ->
  upd_dsct f a h = Ret (tt, mkHw (hw_regs h) (<[a := f d]> (hw_dsct h))).
Proof. intros H. unfold upd_dsct, read_dsct, bind, get, deref, modify. by rewrite H. Qed.

Lemma wf_hw_upd_reg h b f p :
  wf_hw h -> hw_regs h !! b = Some p -> (rows_ok p -> rows_ok (f p)) ->
  wf_hw (mkHw (<[b := f p]> (hw_regs h)) (hw_dsct h)).
Proof.
  intros [Hr Hd] Hp Hf. split; [|done]. intros i Hi. cbn.
  destruct (Hr i Hi) as (q & Hq & Hrow). destruct (decide (b = module_base i)) as [->|Hne].
  - rewrite lookup_insert_eq. exists (f p). split; [done|]. apply Hf. congruence.
  - rewrite lookup_insert_ne by done. eauto.
Qed.

Lemma wf_hw_insert_dsct h a d :
  wf_hw h -> wf_hw (mkHw (hw_regs h) (<[a := d]> (hw_dsct h))).
Proof.
  intros [Hr Hd]. split; [done|]. intros i ch Hi Hch. cbn. apply lookup_insert_is_Some'. right.
  exact (Hd i ch Hi Hch).
Qed.

(** Operations on the registers of a module: they return, keep the register file
    well-formed, and leave every descriptor outside [A] alone. *)
Definition hw_op (A : gset Z) (m : M pdma_hw unit) : Prop := forall h, wf_hw h ->
  returns m h (fun _ h' => wf_hw h' /\ forall a, a ∉ A -> hw_dsct h' !! a = hw_dsct h !! a).

Lemma hw_op_bind A m k : hw_op A m -> hw_op A k -> hw_op A (m ;; k).
Proof.
  intros Hm Hk h Hh. eapply returns_bind; [by apply Hm|]. intros [] h1 [H1 E1].
  eapply returns_mono; [by apply Hk|]. intros [] h2 [H2 E2]. split; [done|].
  intros a Ha. by rewrite E2, E1.
Qed.

Lemma hw_op_if A (b : bool) m k : hw_op A m -> hw_op A k -> hw_op A (if b then m else k).
Proof. by destruct b. Qed.

Lemma hw_op_ret A : hw_op A (ret tt).
Proof. intros h Hh. by apply returns_ret. Qed.

Lemma hw_op_upd_reg A i f :
  0 <= i < PDMA_CNT -> (forall p, rows_ok p -> rows_ok (f p)) ->
  hw_op A (upd_reg f (module_base i)).
Proof.
  intros Hi Hf h Hh. destruct (wf_reg h Hh i Hi) as (p & Hp & _).
  eexists _, _. split; [by apply upd_reg_eq|]. split; [|done]. apply wf_hw_upd_reg; auto.
Qed.

Lemma hw_op_upd_dsct (A : gset Z) i ch f :
  0 <= i < PDMA_CNT -> 0 <= ch < PDMA_CH_MAX -> dsct_addr (module_base i) ch ∈ A ->
  hw_op A (upd_dsct f (dsct_addr (module_base i) ch)).
Proof.
  intros Hi Hch HA h Hh. destruct (wf_desc h Hh i ch Hi Hch) as (d & Hd).
  eexists _, _. split; [by apply upd_dsct_eq|]. split; [by apply wf_hw_insert_dsct|].
  intros a Ha. cbn. apply lookup_insert_ne. intros <-. by apply Ha.
Qed.

Lemma rows_ok_set_TOC v p : length v = 5%nat -> rows_ok p -> rows_ok (set_TOC v p).
Proof. by intros ? []. Qed.
Lemma rows_ok_set_REQSEL v p : length v = 3%nat -> rows_ok p -> rows_ok (set_REQSEL v p).
Proof. by intros ? []. Qed.

Create HintDb hw.
#[export] Hint Resolve hw_op_bind hw_op_if hw_op_ret hw_op_upd_reg hw_op_upd_dsct : hw.
#[export] Hint Extern 3 (forall p, rows_ok p -> rows_ok _) => by intros ? [] : hw.

(** Reading a register row at an index the row has. *)
Lemma row_lookup (l : list Z) (i : Z) n :
  length l = n -> 0 <= i < Z.of_nat n -> exists v, znth l i = Some v.
Proof. intros <-. apply znth_in_range. Qed.

Section ops.
Context `{HW : PdmaHw} `{HS : !PdmaHwSpec}.
Implicit Types (i ch : Z).

Lemma hw_op_DisableTimeout A i m :
  0 <= i < PDMA_CNT -> hw_op A (PDMA_DisableTimeout (module_base i) m).
Proof. intros. unfold PDMA_DisableTimeout. eauto with hw. Qed.

Lemma hw_op_EnableInt (A : gset Z) i ch m :
  0 <= i < PDMA_CNT -> 0 <= ch < PDMA_CH_MAX -> dsct_addr (module_base i) ch ∈ A ->
  hw_op A (PDMA_EnableInt (module_base i) ch m).
Proof. intros. unfold PDMA_EnableInt. auto 10 with hw. Qed.

Lemma hw_op_DisableInt (A : gset Z) i ch m :
  0 <= i < PDMA_CNT -> 0 <= ch < PDMA_CH_MAX -> dsct_addr (module_base i) ch ∈ A ->
  hw_op A (PDMA_DisableInt (module_base i) ch m).
Proof. intros. unfold PDMA_DisableInt. auto 10 with hw. Qed.

Lemma hw_op_poke A i r v : 0 <= i < PDMA_CNT -> hw_op A (poke r v (module_base i)).
Proof. intros. unfold poke. apply hw_op_upd_reg; [done|]. apply hw_write_rows. Qed.

Lemma hw_op_Close A i : 0 <= i < PDMA_CNT -> hw_op A (PDMA_Close (module_base i)).
Proof. intros. unfold PDMA_Close. eauto with hw. Qed.

(** A row of registers read at a valid index and then updated there. *)
Lemma hw_op_row (A : gset Z) i (f : PDMA_T -> list Z) (idx : Z) n (k : Z -> M pdma_hw unit) :
  0 <= i < PDMA_CNT -> (forall p, rows_ok p -> length (f p) = n) -> 0 <= idx < Z.of_nat n ->
  (forall v, hw_op A (k v)) ->
  hw_op A (let! r := reg f (module_base i) in let! v := deref (znth r idx) in k v).
Proof.
  intros Hi Hf Hidx Hk h Hh. destruct (wf_reg h Hh i Hi) as (p & Hp & Hrow).
  destruct (row_lookup (f p) idx n (Hf p Hrow) Hidx) as [v Hv].
  destruct (Hk v h Hh) as (a & h' & E & HQ). exists a, h'. split; [|done].
  rewrite (bind_Ret _ _ _ _ _ (reg_eq f _ h p Hp)), (bind_deref _ v) by done. done.
Qed.

Lemma hw_op_upd_row_REQSEL A i idx g :
  0 <= i < PDMA_CNT ->
  hw_op A (upd_reg (fun p => set_REQSEL (zupd (REQSEL p) idx (g p)) p) (module_base i)).
Proof.
  intros. apply hw_op_upd_reg; [done|]. intros p [? ?].
  apply rows_ok_set_REQSEL; [by rewrite length_zupd|done].
Qed.

Lemma hw_op_upd_row_TOC A i idx g :
  0 <= i < PDMA_CNT ->
  hw_op A (upd_reg (fun p => set_TOC (zupd (TOC p) idx (g p)) p) (module_base i)).
Proof.
  intros. apply hw_op_upd_reg; [done|]. intros p [? ?].
  apply rows_ok_set_TOC; [by rewrite length_zupd|done].
Qed.

Lemma hw_op_SetTransferMode (A : gset Z) i ch per sc desc :
  0 <= i < PDMA_CNT -> 0 <= ch < PDMA_CH_MAX -> dsct_addr (module_base i) ch ∈ A ->
  hw_op A (PDMA_SetTransferMode (module_base i) ch per sc desc).
Proof.
  intros Hi Hch HA. unfold PDMA_SetTransferMode. apply hw_op_if; [|auto with hw].
  eapply (hw_op_row A i REQSEL (ch / 4) 3); [done|by intros ? []| |].
  { chan_consts. Z.div_mod_to_equations. lia. }
  intros v. apply hw_op_bind; [by apply (hw_op_upd_row_REQSEL A i _ (fun _ => _))|].
  auto with hw.
Qed.

Lemma hw_op_SetTimeOut (A : gset Z) i ch on cnt :
  0 <= i < PDMA_CNT -> 0 <= ch < PDMA_CH_MAX ->
  hw_op A (PDMA_SetTimeOut (module_base i) ch on cnt).
Proof.
  intros Hi Hch. unfold PDMA_SetTimeOut. apply hw_op_if; [|auto with hw].
  eapply (hw_op_row A i TOC (ch / 2) 5); [done|by intros ? []| |].
  { chan_consts. Z.div_mod_to_equations. lia. }
  intros v. apply hw_op_bind; [by apply (hw_op_upd_row_TOC A i _ (fun _ => _))|].
  auto with hw.
Qed.

Lemma hw_op_Trigger (A : gset Z) i ch :
  0 <= i < PDMA_CNT -> 0 <= ch < PDMA_CH_MAX -> hw_op A (PDMA_Trigger (module_base i) ch).
Proof.
  intros Hi Hch. unfold PDMA_Trigger.
  eapply (hw_op_row A i REQSEL (ch / 4) 3); [done|by intros ? []| |].
  { chan_consts. Z.div_mod_to_equations. lia. }
  intros v. apply hw_op_if; [by apply hw_op_poke|auto with hw].
Qed.

Lemma hw_op_Open (A : gset Z) i m :
  0 <= i < PDMA_CNT ->
  (forall k, 0 <= k < PDMA_CH_MAX -> dsct_addr (module_base i) k ∈ A) ->
  hw_op A (PDMA_Open (module_base i) m).
Proof.
  intros Hi HA. unfold PDMA_Open. apply hw_op_bind; [|auto with hw].
  cut (forall l, Forall (fun k => 0 <= k < PDMA_CH_MAX) l -> hw_op A (for_each l (fun k =>
    if tst (bit k) m then upd_dsct (set_CTL 0) (dsct_addr (module_base i) k) else ret tt))).
  { intros H. apply H, Forall_forall. intros k Hk%elem_of_seqZ. lia. }
  intros l. induction 1 as [|k l Hk Hl IH]; cbn [for_each]; [auto with hw|].
  apply hw_op_bind; [|done]. apply hw_op_if; auto with hw.
Qed.
End ops.
#[export] Hint Resolve hw_op_DisableTimeout hw_op_EnableInt hw_op_DisableInt hw_op_poke
  hw_op_Close hw_op_SetTransferMode hw_op_SetTimeOut hw_op_Trigger : hw.

(** ** Lifting to the driver state *)

Lemma on_hw_eq {A} (m : M pdma_hw A) s a h :
  m (phw s) = Ret (a, h) -> on_hw m s = Ret (a, set_phw h s).
Proof. intros E. unfold on_hw. by rewrite E. Qed.

Lemma on_hw_inv {A} (m : M pdma_hw A) s a s' :
  on_hw m s = Ret (a, s') -> exists h, s' = set_phw h s.
Proof.
  unfold on_hw. destruct (m (phw s)) as [[b h]| | |]; [|done..]. intros [= _ <-]. by exists h.
Qed.

(** A register-level sequence inside a driver-level one. *)
Lemma on_hw_bind {A B C} (m : M pdma_hw A) (f : A -> M pdma_hw B) (k : B -> M drv C) s :
  bind (on_hw (bind m f)) k s = bind (on_hw m) (fun a => bind (on_hw (f a)) k) s.
Proof. unfold bind, on_hw. by destruct (m (phw s)) as [[]| | |]. Qed.

Lemma on_hw_op A m s :
  hw_op A m -> wf s ->
  exists h, on_hw m s = Ret (tt, set_phw h s) /\ wf_hw h /\
            forall a, a ∉ A -> hw_dsct h !! a = hw_dsct (phw s) !! a.
Proof.
  intros Hm Hs. destruct (Hm (phw s) (wf_phw s Hs)) as ([] & h & E & Hh & Hd).
  exists h. split; [by apply on_hw_eq|done].
Qed.

Lemma wf_set_phw s h : wf s -> wf_hw h -> wf (set_phw h s).
Proof. intros [] ?. by split. Qed.

Lemma wf_set_chn s l :
  wf s -> length l = Z.to_nat NU_PDMA_CH_MAX -> wf (set_nu_pdma_chn_arr l s).
Proof. intros [] ?. by split. Qed.

Lemma set_phw_id s : set_phw (phw s) s = s.
Proof. by destruct s. Qed.

Lemma on_hw_read {A} (m : M pdma_hw A) s a :
  m (phw s) = Ret (a, phw s) -> on_hw m s = Ret (a, s).
Proof. intros E. rewrite (on_hw_eq _ _ _ _ E). by rewrite set_phw_id. Qed.

Lemma insert_regs_id (h : pdma_hw) b p :
  hw_regs h !! b = Some p -> mkHw (<[b := p]> (hw_regs h)) (hw_dsct h) = h.
Proof. intros H. rewrite insert_id by done. by destruct h. Qed.

Lemma set_phw_phw s h h' : set_phw h (set_phw h' s) = set_phw h s.
Proof. done. Qed.
Lemma phw_set_phw s h : phw (set_phw h s) = h.
Proof. done. Qed.
#[export] Hint Rewrite set_phw_phw phw_set_phw : monad.

(** ** A concrete board

    An instance of the hardware, heap and callback interfaces that satisfies their
    specifications - a channel reset that completes at once, a heap that allocates upwards,
    callbacks that do nothing - and the state of the driver before its initialisation.  The
    witnesses evaluate the driver on it. *)

Definition board_write (r : hwreg) (v : Z) (p : PDMA_T) : PDMA_T :=
  match r with
  | R_CHRST => set_CHCTL (Z.land (CHCTL p) (not32 v)) p
  | R_SWREQ => p
  | R_INTSTS => set_INTSTS (Z.land (INTSTS p) (not32 (Z.land v PDMA_INTSTS_REQTOFn_Msk))) p
  | R_ABTSTS => set_ABTSTS (Z.land (ABTSTS p) (not32 v)) p
  | R_TDSTS => set_TDSTS (Z.land (TDSTS p) (not32 v)) p
  | R_ALIGN => set_ALIGN (Z.land (ALIGN p) (not32 v)) p
  end.

Definition board_hw : PdmaHw :=
  {| hw_write := board_write; hw_idle := fun p => p; hw_reset_latency := 0;
     hw_ip_reset := fun p => p |}.

(** The end of the highest live block, rounded up to the alignment; the heap ends
    64 KiB into RAM. *)
Definition heap_top (live : gmap Z Z) : Z :=
  map_fold (fun a sz top => Z.max (a + sz) top) 0x80000000 live.

Definition board_pick (live : gmap Z Z) (size align : Z) : Z :=
  let p := (heap_top live + align - 1) / align * align in
  if (0 <? align) && (p + size <=? 0x80010000) then p else 0.

Definition board_heap : RtHeap := {| malloc_pick := board_pick |}.

Definition board_cbs : Callbacks := {| cb_run := fun _ _ _ => ret tt |}.

Lemma land_not32_self x m : 0 <= m -> is_u32 m -> Z.land (Z.land x (not32 m)) m = 0.
Proof.
  intros H0 Hm. apply Z.bits_inj'; intros i Hi. autorewrite with bits.
  destruct (Z.ltb_spec i 32); [|rewrite (u32_high m) by done];
    by destruct (Z.testbit x i), (Z.testbit m i).
Qed.

Lemma heap_top_ge live a sz : live !! a = Some sz -> a + sz <= heap_top live.
Proof.
  unfold heap_top. revert a sz.
  apply (map_fold_weak_ind (fun top live => forall a sz, live !! a = Some sz -> a + sz <= top));
    [done|].
  intros i x m r Hi IH a sz. destruct (decide (i = a)) as [->|Hne].
  - rewrite lookup_insert_eq. intros [= ->]. lia.
  - rewrite lookup_insert_ne by done. intros H. specialize (IH _ _ H). lia.
Qed.

Lemma heap_top_low live : 0x80000000 <= heap_top live.
Proof.
  unfold heap_top.
  apply (map_fold_weak_ind (fun top (_ : gmap Z Z) => 0x80000000 <= top)); [done|].
  intros. lia.
Qed.

Lemma board_heap_spec : @RtHeapSpec board_heap.
Proof.
  split.
  - intros live size align Hs p Hp. subst p. cbn in *. unfold board_pick in *.
    pose proof (heap_top_low live).
    destruct (Z.ltb_spec 0 align); [|done].
    destruct (Z.leb_spec ((heap_top live + align - 1) / align * align + size) 0x80010000); [|done].
    cbn [andb] in *. split_and!; [|lia|apply Z.mod_mul; lia].
    Z.div_mod_to_equations. nia.
  - intros live size align a sz Hs p Hp Ha. subst p. cbn in *. unfold board_pick in *. right.
    apply heap_top_ge in Ha.
    destruct (Z.ltb_spec 0 align); [|done].
    destruct (Z.leb_spec ((heap_top live + align - 1) / align * align + size) 0x80010000); [|done].
    cbn [andb] in *. Z.div_mod_to_equations. nia.
Qed.

Definition board_regs : PDMA_T :=
  mkPDMA 0 0 0 0 0 0 0 0 (replicate 5 0) 0 0 (replicate 3 0)
    (replicate 6 0) (replicate 6 0) (replicate 2 0) (replicate 2 0).

Definition board_dsct : gmap Z DSCT_T :=
  list_to_map (i ← [0; 1]; k ← seqZ 0 PDMA_CH_MAX;
    [(dsct_addr (module_base i) k, mkDSCT 0 0 0 0)])%list.

(** Before [nu_pdma_init]. *)
Definition board_boot : drv :=
  mkDrv false [0; 0] (replicate 20 chn_zero) (replicate 4 (mkActor 0 0 None)) 0 0 None
    (mkHw (<[module_base 0 := board_regs]> (<[module_base 1 := board_regs]> ∅)) board_dsct)
    [] ∅ ∅ [] [] true 64 0x10.

Lemma board_dsct_some i k :
  0 <= i < PDMA_CNT -> 0 <= k < PDMA_CH_MAX -> is_Some (board_dsct !! dsct_addr (module_base i) k).
Proof.
  intros Hi Hk.
  assert (Hall : Forall (fun i => Forall (fun k =>
    is_Some (board_dsct !! dsct_addr (module_base i) k)) (seqZ 0 PDMA_CH_MAX)) (seqZ 0 PDMA_CNT))
    by (apply (bool_decide_unpack _); vm_compute; done).
  rewrite !Forall_forall in Hall. specialize (Hall i). rewrite Forall_forall in Hall.
  apply Hall; apply elem_of_seqZ; lia.
Qed.

Lemma wf_board_boot : wf board_boot.
Proof.
  split; [done|done|done|]. split.
  - intros i Hi. exists board_regs. split; [|done].
    by assert (i = 0 \/ i = 1) as [-> | ->] by (chan_consts; lia).
  - apply board_dsct_some.
Qed.

Lemma board_hw_spec : @PdmaHwSpec board_hw.
Proof.
  split; cbn; try done.
  - intros m p Hm. exists O. split; [lia|]. cbn. apply land_not32_self; [apply Hm|done].
  - by intros [] v p [H1 H2].
Qed.

(** Well-formedness of a concrete state, by evaluation. *)
Definition wf_check (s : drv) : bool :=
  bool_decide (length (nu_pdma_chn_mask_arr s) = Z.to_nat PDMA_CNT) &&
  bool_decide (length (nu_pdma_chn_arr s) = Z.to_nat NU_PDMA_CH_MAX) &&
  bool_decide (Forall (fun m => (0 <= m < 2 ^ 32) /\
    Forall (fun k => Z.testbit m k = true) (seqZ PDMA_CH_MAX (32 - PDMA_CH_MAX)))
    (nu_pdma_chn_mask_arr s)) &&
  forallb (fun i => match hw_regs (phw s) !! module_base i with
    | Some p => Nat.eqb (length (TOC p)) 5 && Nat.eqb (length (REQSEL p)) 3
    | None => false end) (seqZ 0 PDMA_CNT) &&
  bool_decide (Forall (fun i => Forall (fun k =>
    is_Some (hw_dsct (phw s) !! dsct_addr (module_base i) k)) (seqZ 0 PDMA_CH_MAX)) (seqZ 0 PDMA_CNT)).

Lemma wf_check_sound s : wf_check s = true -> wf s.
Proof.
  unfold wf_check. rewrite !andb_true_iff, !bool_decide_eq_true, forallb_forall.
  intros [[[[H1 H2] H3] H4] H5]. split; [done| |done|split].
  - intros _. eapply Forall_impl; [exact H3|]. intros m [Hm Hk]. split; [done|].
    rewrite Forall_forall in Hk. intros k Hk'. apply Hk, elem_of_seqZ. lia.
  - intros i Hi. specialize (H4 i ltac:(apply list_elem_of_In, elem_of_seqZ; lia)).
    destruct (hw_regs (phw s) !! module_base i) as [p|]; [|done]. exists p. split; [done|].
    apply andb_true_iff in H4 as [?%Nat.eqb_eq ?%Nat.eqb_eq]. done.
  - intros i k Hi Hk. rewrite Forall_forall in H5. specialize (H5 i).
    rewrite Forall_forall in H5. apply H5; apply elem_of_seqZ; lia.
Qed.
