(* ===== verification/PdmaAlloc.v ===== *)
(** * PDMA channel allocation

    [nu_pdma_channel_allocate] and [nu_pdma_channel_free] against an abstract
    specification: the driver's masks are a set of allocated channels, allocation
    takes the lowest free channel of the lowest module that has one, freeing
    removes the channel, and every other operation leaves the set alone. *)

From Stdlib Require Import ZArith Lia Bool.
From stdpp Require Import base tactics numbers list option gmap.
From S2P Require Import Prelude BitUtil PdmaRegs Pdma PdmaFacts.

Open Scope Z_scope.

Section alloc.
Context `{HW : PdmaHw} `{HS : !PdmaHwSpec} `{RH : RtHeap} `{CBS : Callbacks}.

(** ** The channel test *)

Lemma wf_mask_lookup s i :
  wf s -> 0 <= i < PDMA_CNT -> exists m, znth (nu_pdma_chn_mask_arr s) i = Some m.
Proof. intros Hs Hi. apply znth_in_range. rewrite (wf_masks s Hs). chan_consts. lia. Qed.

Lemma wf_chn_lookup s c :
  wf s -> is_chan c -> exists r, znth (nu_pdma_chn_arr s) c = Some r.
Proof. intros Hs Hc. apply znth_in_range. rewrite (wf_chns s Hs). chan_consts. lia. Qed.

Lemma check_eq s c :
  wf s -> is_chan c ->
  nu_pdma_check_is_nonallocated c s = Ret (negb (allocated s c), s).
Proof.
  intros Hs Hc. destruct (chan_parts c Hc) as [Hi Hk].
  destruct (wf_mask_lookup s _ Hs Hi) as [m Hm].
  unfold nu_pdma_check_is_nonallocated, allocated.
  rewrite chan_mod_idx, chan_mod_chidx by done.
  rewrite bind_assert by lia. rewrite bind_gets, (bind_deref _ m) by done. rewrite Hm.
  rewrite tst_bit by lia. done.
Qed.

(** A number that is no channel trips the assertion. *)
Lemma check_not_chan s c :
  u32 c = c \/ c < 0 -> - 2 ^ 31 <= c -> ~ is_chan c ->
  nu_pdma_check_is_nonallocated c s = AssertFail.
Proof.
  intros Hc Hlo Hn. unfold nu_pdma_check_is_nonallocated, NU_PDMA_GET_MOD_IDX.
  assert (20 <= u32 c) as Hge.
  { chan_consts. destruct Hc as [Hc|Hc]; [pose proof (u32_range c); unfold is_u32 in *; lia|].
    unfold u32. Z.div_mod_to_equations. lia. }
  unfold bind. destruct (Z.ltb_spec (u32 c / PDMA_CH_MAX) PDMA_CNT) as [H|_]; [|done].
  exfalso. chan_consts. Z.div_mod_to_equations. lia.
Qed.

Lemma chn_eq s c r : znth (nu_pdma_chn_arr s) c = Some r -> chn c s = Ret (r, s).
Proof. intros H. unfold chn. rewrite bind_gets. unfold deref. by rewrite H. Qed.

Lemma upd_chn_eq f s c r :
  znth (nu_pdma_chn_arr s) c = Some r ->
  upd_chn f c s = Ret (tt, set_nu_pdma_chn_arr (zupd (nu_pdma_chn_arr s) c (f r)) s).
Proof. intros H. unfold upd_chn. by rewrite (bind_Ret _ _ _ _ _ (chn_eq s c r H)). Qed.

(** ** Terminating a channel *)

Lemma wait_chctl_done n fuel s base ch p :
  (n < fuel)%nat -> 0 <= ch ->
  hw_regs (phw s) !! base = Some p -> rows_ok p ->
  Z.land (CHCTL (hw_idles n p)) (bit ch) = 0 ->
  exists q, rows_ok q /\ tst (CHCTL q) (bit ch) = false /\
    wait_chctl fuel base ch s =
    Ret (tt, set_phw (mkHw (<[base := q]> (hw_regs (phw s))) (hw_dsct (phw s))) s).
Proof.
  revert fuel s p. induction n as [|n IH]; intros fuel s p Hlt Hch Hp Hrow Hz;
    (destruct fuel as [|fuel]; [lia|]); cbn [wait_chctl];
    rewrite (bind_Ret _ _ _ _ _ (on_hw_read _ s _ (reg_eq CHCTL base _ p Hp)));
    destruct (tst (CHCTL p) (bit ch)) eqn:Et.
  - exfalso. unfold tst in Et. cbn in Hz. by rewrite Hz in Et.
  - exists p. split_and!; [done..|]. by rewrite insert_regs_id, set_phw_id.
  - rewrite (bind_Ret _ _ _ _ _ (on_hw_eq _ _ _ _ (upd_reg_eq _ _ _ p Hp))).
    edestruct (IH fuel (set_phw (mkHw (<[base := hw_idle p]> (hw_regs (phw s))) (hw_dsct (phw s))) s)
      (hw_idle p)) as (q & Hq & Eq & ->).
    + lia.
    + done.
    + cbn. apply lookup_insert_eq.
    + by apply hw_idle_rows.
    + done.
    + exists q. split_and!; [done..|]. cbn. by rewrite insert_insert_eq.
  - exists p. split_and!; [done..|]. by rewrite insert_regs_id, set_phw_id.
Qed.

Lemma reset_returns s c :
  wf s -> is_chan c ->
  exists h, nu_pdma_channel_reset c s = Ret (tt, set_phw h s) /\ wf_hw h /\
            hw_dsct h = hw_dsct (phw s).
Proof.
  intros Hs Hc. destruct (chan_parts c Hc) as [Hi Hk]. unfold nu_pdma_channel_reset.
  rewrite chan_base, chan_mod_chidx by done.
  destruct (wf_reg _ (wf_phw s Hs) _ Hi) as (p & Hp & Hrow).
  unfold poke. rewrite (bind_Ret _ _ _ _ _ (on_hw_eq _ _ _ _ (upd_reg_eq _ _ _ p Hp))).
  destruct (hw_reset_done (bit (c mod PDMA_CH_MAX)) p) as (n & Hn & Hz); [apply bit_u32; chan_consts; lia|].
  edestruct (wait_chctl_done n (S hw_reset_latency)) as (q & Hq & _ & ->).
  - lia.
  - apply Hk.
  - cbn. apply lookup_insert_eq.
  - by apply hw_write_rows.
  - done.
  - eexists. split; [rewrite set_phw_phw; reflexivity|]. cbn. split; [|done].
    rewrite insert_insert_eq. apply (wf_hw_upd_reg _ _ (fun _ => q) p); auto using wf_phw.
Qed.

Lemma enable_returns s c :
  wf s -> is_chan c ->
  exists h, nu_pdma_channel_enable c s = Ret (tt, set_phw h s) /\ wf_hw h /\
    (forall a, a <> dsct_addr (module_base (c / PDMA_CH_MAX)) (c mod PDMA_CH_MAX) ->
       hw_dsct h !! a = hw_dsct (phw s) !! a) /\
    CTL <$> hw_dsct h !! dsct_addr (module_base (c / PDMA_CH_MAX)) (c mod PDMA_CH_MAX) = Some 0 /\
    exists p, hw_regs h !! module_base (c / PDMA_CH_MAX) = Some p /\
              Z.testbit (CHCTL p) (c mod PDMA_CH_MAX) = true.
Proof.
  intros Hs Hc. destruct (chan_parts c Hc) as [Hi Hk]. unfold nu_pdma_channel_enable.
  rewrite chan_base, chan_mod_chidx by done. set (a0 := dsct_addr _ _).
  pose proof (wf_phw s Hs) as Hw.
  destruct (wf_reg _ Hw _ Hi) as (p & Hp & Hrow). destruct (wf_desc _ Hw _ _ Hi Hk) as (d & Hd).
  rewrite (bind_Ret _ _ _ _ _ (on_hw_eq _ _ _ _ (upd_dsct_eq _ _ _ d Hd))).
  rewrite (on_hw_eq _ (set_phw _ s) _ _ (upd_reg_eq _ _ (mkHw _ _) p Hp)), set_phw_phw.
  eexists. split; [reflexivity|]. split_and!.
  - apply (wf_hw_upd_reg (mkHw _ _)); [by apply wf_hw_insert_dsct|done|by intros []].
  - intros a Ha. cbn. by apply lookup_insert_ne.
  - cbn. by rewrite lookup_insert_eq.
  - eexists. cbn. split; [apply lookup_insert_eq|]. cbn.
    rewrite Z.lor_spec, testbit_bit, Z.eqb_refl by lia. apply orb_true_r.
Qed.

Lemma timeout_0_returns s c r :
  wf s -> is_chan c -> allocated s c = true -> znth (nu_pdma_chn_arr s) c = Some r ->
  exists h, nu_pdma_timeout_set c 0 s =
      Ret (- RT_EINVAL, set_phw h (set_nu_pdma_chn_arr
        (zupd (nu_pdma_chn_arr s) c (set_m_u32IdleTimeout_us 0 r)) s)) /\ wf_hw h /\
    forall a, a <> dsct_addr (module_base (c / PDMA_CH_MAX)) (c mod PDMA_CH_MAX) ->
      hw_dsct h !! a = hw_dsct (phw s) !! a.
Proof.
  intros Hs Hc Ha Hr. destruct (chan_parts c Hc) as [Hi Hk]. unfold nu_pdma_timeout_set.
  rewrite (bind_Ret _ _ _ _ _ (check_eq s c Hs Hc)), Ha. cbn [negb].
  rewrite chan_base, chan_mod_chidx by done.
  rewrite (bind_Ret _ _ _ _ _ (upd_chn_eq _ s c r Hr)). cbn [Z.eqb negb].
  set (s1 := set_nu_pdma_chn_arr _ s). set (a0 := dsct_addr _ _).
  assert (Hs1 : wf s1) by (apply wf_set_chn; [done|by rewrite length_zupd; apply wf_chns]).
  destruct (on_hw_op {[a0]} (PDMA_DisableInt (module_base (c / PDMA_CH_MAX)) (c mod PDMA_CH_MAX)
    PDMA_INT_TIMEOUT) s1) as (h1 & E1 & W1 & D1); [apply hw_op_DisableInt; [done..|set_solver]|done|].
  rewrite (bind_Ret _ _ _ _ _ E1).
  destruct (on_hw_op {[a0]} (PDMA_DisableTimeout (module_base (c / PDMA_CH_MAX))
    (bit (c mod PDMA_CH_MAX))) (set_phw h1 s1)) as (h2 & E2 & W2 & D2);
    [by apply hw_op_DisableTimeout|by apply wf_set_phw|].
  rewrite (bind_Ret _ _ _ _ _ E2). exists h2. split; [done|]. split; [done|].
  intros a Hne. rewrite D2, D1 by set_solver. done.
Qed.

Lemma terminate_returns s c r :
  wf s -> is_chan c -> allocated s c = true -> znth (nu_pdma_chn_arr s) c = Some r ->
  exists h, nu_pdma_channel_terminate c s =
      Ret (tt, set_phw h (set_nu_pdma_chn_arr
        (zupd (nu_pdma_chn_arr s) c (set_m_u32IdleTimeout_us 0 r)) s)) /\ wf_hw h /\
    (forall a, a <> dsct_addr (module_base (c / PDMA_CH_MAX)) (c mod PDMA_CH_MAX) ->
       hw_dsct h !! a = hw_dsct (phw s) !! a) /\
    CTL <$> hw_dsct h !! dsct_addr (module_base (c / PDMA_CH_MAX)) (c mod PDMA_CH_MAX) = Some 0 /\
    exists p, hw_regs h !! module_base (c / PDMA_CH_MAX) = Some p /\
              Z.testbit (CHCTL p) (c mod PDMA_CH_MAX) = true.
Proof.
  intros Hs Hc Ha Hr. unfold nu_pdma_channel_terminate.
  rewrite (bind_Ret _ _ _ _ _ (check_eq s c Hs Hc)), Ha. cbn [negb].
  destruct (timeout_0_returns s c r Hs Hc Ha Hr) as (h1 & E1 & W1 & D1).
  rewrite (bind_Ret _ _ _ _ _ E1). set (s1 := set_nu_pdma_chn_arr _ s) in *.
  assert (Hs1 : wf (set_phw h1 s1)).
  { apply wf_set_phw; [|done]. apply wf_set_chn; [done|]. rewrite length_zupd. by apply wf_chns. }
  destruct (reset_returns (set_phw h1 s1) c Hs1 Hc) as (h2 & E2 & W2 & D2).
  rewrite (bind_Ret _ _ _ _ _ E2).
  assert (Hs2 : wf (set_phw h2 (set_phw h1 s1))) by by apply wf_set_phw.
  destruct (enable_returns _ c Hs2 Hc) as (h3 & E3 & W3 & D3 & C3 & P3).
  exists h3. rewrite E3. split; [done|]. split_and!; [done| |done|done].
  intros a Hne. rewrite D3 by done. cbn. rewrite D2. cbn. by apply D1.
Qed.

(** ** The request-source table *)

Lemma peripheral_index_spec pool idx t :
  0 <= idx ->
  (peripheral_index pool idx t = -1 /\ t ∉ pool.*1) \/
  (exists mem, idx <= peripheral_index pool idx t /\
     znth pool (peripheral_index pool idx t - idx) = Some (t, mem)).
Proof.
  revert idx. induction pool as [|[p mem] pool IH]; intros idx Hidx; cbn [peripheral_index].
  - left. split; [done|]. apply not_elem_of_nil.
  - destruct (Z.eqb_spec p t) as [->|Hne].
    + right. exists mem. split; [lia|]. by rewrite Z.sub_diag.
    + destruct (IH (idx + 1)) as [[E Hn]|(mem' & Hle & Hm)]; [lia| |].
      * left. split; [done|]. cbn. apply not_elem_of_cons. split; [|done].
        intros ->. done.
      * right. exists mem'. split; [lia|]. unfold znth in *.
        destruct (Z.ltb_spec (peripheral_index pool (idx + 1) t - (idx + 1)) 0); [done|].
        destruct (Z.ltb_spec (peripheral_index pool (idx + 1) t - idx) 0); [lia|].
        replace (Z.to_nat (peripheral_index pool (idx + 1) t - idx))
          with (S (Z.to_nat (peripheral_index pool (idx + 1) t - (idx + 1)))) by lia. done.
Qed.

Lemma peripheral_set_spec t :
  (nu_pdma_peripheral_set t = -1 /\ t ∉ g_nu_pdma_peripheral_ctl_pool.*1) \/
  (exists mem, 0 <= nu_pdma_peripheral_set t /\
     znth g_nu_pdma_peripheral_ctl_pool (nu_pdma_peripheral_set t) = Some (t, mem)).
Proof.
  destruct (peripheral_index_spec g_nu_pdma_peripheral_ctl_pool 0 t) as [|(mem & ? & H)];
    [lia|by left|]. right. exists mem. by rewrite Z.sub_0_r in H.
Qed.

(** ** Allocation as an update of the set *)

Lemma set_allocated s i m k d :
  wf s -> 0 <= i < PDMA_CNT -> 0 <= k < PDMA_CH_MAX -> is_chan d ->
  znth (nu_pdma_chn_mask_arr s) i = Some m ->
  allocated (set_nu_pdma_chn_mask_arr (zupd (nu_pdma_chn_mask_arr s) i (Z.lor m (bit k))) s) d =
  (d =? k + i * PDMA_CH_MAX) || allocated s d.
Proof.
  intros Hs Hi Hk Hd Hm. destruct (chan_parts d Hd) as [Hdi Hdk]. unfold allocated. cbn.
  destruct (Z.eq_dec i (d / PDMA_CH_MAX)) as [->|Hne].
  - rewrite znth_zupd_eq by (by eapply znth_Some). rewrite Hm, Z.lor_spec, testbit_bit by lia.
    rewrite orb_comm. f_equal. chan_consts. apply eq_true_iff_eq. rewrite !Z.eqb_eq.
    Z.div_mod_to_equations; lia.
  - rewrite znth_zupd_ne by lia.
    destruct (Z.eqb_spec d (k + i * PDMA_CH_MAX)) as [->|]; [|done].
    exfalso. apply Hne. symmetry. by apply chan_split.
Qed.

Lemma clear_allocated s c m d :
  wf s -> is_chan c -> is_chan d -> znth (nu_pdma_chn_mask_arr s) (c / PDMA_CH_MAX) = Some m ->
  allocated (set_nu_pdma_chn_mask_arr (zupd (nu_pdma_chn_mask_arr s) (c / PDMA_CH_MAX)
    (Z.land m (not32 (bit (c mod PDMA_CH_MAX))))) s) d =
  negb (d =? c) && allocated s d.
Proof.
  intros Hs Hc Hd Hm. destruct (chan_parts c Hc) as [Hi Hk].
  destruct (chan_parts d Hd) as [Hdi Hdk]. unfold allocated. cbn.
  destruct (Z.eq_dec (c / PDMA_CH_MAX) (d / PDMA_CH_MAX)) as [E|Hne].
  - rewrite <-E, znth_zupd_eq by (by eapply znth_Some).
    rewrite Hm, Z.land_spec, testbit_not32, testbit_bit by lia. rewrite andb_comm.
    destruct (Z.ltb_spec (d mod PDMA_CH_MAX) 32); [|chan_consts; lia]. cbn [andb]. do 2 f_equal.
    chan_consts. apply eq_true_iff_eq. rewrite !Z.eqb_eq. Z.div_mod_to_equations; lia.
  - rewrite znth_zupd_ne by lia. destruct (Z.eqb_spec d c) as [->|]; done.
Qed.

Lemma mask_ok_set m k : mask_ok m -> 0 <= k < 32 -> mask_ok (Z.lor m (bit k)).
Proof.
  intros [Hu Hh] Hk. split; [apply lor_u32; [done|by apply bit_u32]|].
  intros j Hj. by rewrite Z.lor_spec, Hh.
Qed.

Lemma mask_ok_clear m k : mask_ok m -> 0 <= k < PDMA_CH_MAX -> mask_ok (Z.land m (not32 (bit k))).
Proof.
  intros [Hu Hh] Hk. split; [apply land_u32_l; [done|apply not32_u32]|].
  intros j Hj. rewrite Z.land_spec, Hh, testbit_not32, testbit_bit by (chan_consts; lia).
  destruct (Z.ltb_spec j 32), (Z.eqb_spec j k); chan_consts; try done; lia.
Qed.

Lemma wf_set_mask s i m :
  wf s -> (nu_pdma_inited s = true -> mask_ok m) ->
  wf (set_nu_pdma_chn_mask_arr (zupd (nu_pdma_chn_mask_arr s) i m) s).
Proof.
  intros [Hm Ho Hc Hh] H. split; cbn; [by rewrite length_zupd| |done|done].
  intros Hin. apply Forall_zupd; auto.
Qed.

(** ** The lowest free channel *)

Definition first_free (s : drv) : option Z :=
  snd <$> list_find (fun c => allocated s c = false) (seqZ 0 NU_PDMA_CH_MAX).

Lemma first_free_Some s c :
  is_chan c -> allocated s c = false -> (forall d, 0 <= d < c -> allocated s d = true) ->
  first_free s = Some c.
Proof.
  intros Hc Hf Hlt. unfold first_free.
  assert (list_find (fun c => allocated s c = false) (seqZ 0 NU_PDMA_CH_MAX)
          = Some (Z.to_nat c, c)) as ->; [|done].
  apply list_find_Some. split_and!; [|done|].
  - rewrite lookup_seqZ. chan_consts. lia.
  - intros j y Hj Hjlt. apply lookup_seqZ in Hj as [-> Hj]. rewrite Hlt by lia. done.
Qed.

Lemma first_free_None s :
  (forall d, is_chan d -> allocated s d = true) -> first_free s = None.
Proof.
  intros H. unfold first_free.
  assert (list_find (fun c => allocated s c = false) (seqZ 0 NU_PDMA_CH_MAX) = None) as ->; [|done].
  apply list_find_None, Forall_forall. intros c Hc%elem_of_seqZ.
  rewrite H by (chan_consts; lia). done.
Qed.

Lemma first_free_inv s :
  match first_free s with
  | Some c => is_chan c /\ allocated s c = false /\ forall d, 0 <= d < c -> allocated s d = true
  | None => forall d, is_chan d -> allocated s d = true
  end.
Proof.
  unfold first_free. destruct (list_find _ _) as [[j c]|] eqn:E; cbn.
  - apply list_find_Some in E as (Hj & Hf & Hlt). apply lookup_seqZ in Hj as [-> Hj].
    split_and!; [chan_consts; lia|done|]. intros d Hd.
    destruct (allocated s d) eqn:Ha; [done|]. exfalso.
    apply (Hlt (Z.to_nat d) d); [apply lookup_seqZ; lia|lia|done].
  - apply list_find_None in E. rewrite Forall_forall in E. intros d Hd.
    destruct (allocated s d) eqn:Ha; [done|]. exfalso. apply (E d); [|done].
    apply elem_of_seqZ. chan_consts. lia.
Qed.

Lemma first_free_least s c :
  first_free s = Some c -> forall d, 0 <= d < c -> allocated s d = true.
Proof. intros E. pose proof (first_free_inv s) as H. rewrite E in H. apply H. Qed.

Lemma first_free_full s :
  first_free s = None -> forall d, is_chan d -> allocated s d = true.
Proof. intros E. pose proof (first_free_inv s) as H. by rewrite E in H. Qed.

Lemma allocated_lookup s i m k :
  0 <= i < PDMA_CNT -> 0 <= k < PDMA_CH_MAX -> znth (nu_pdma_chn_mask_arr s) i = Some m ->
  allocated s (k + i * PDMA_CH_MAX) = Z.testbit m k.
Proof.
  intros Hi Hk Hm. destruct (chan_split i k Hi Hk) as (_ & E1 & E2).
  unfold allocated. by rewrite E1, E2, Hm.
Qed.

(** The channel [nu_cto] selects in a module, when it selects one. *)
Lemma cto_channel s i m :
  wf s -> nu_pdma_inited s = true -> 0 <= i < PDMA_CNT ->
  znth (nu_pdma_chn_mask_arr s) i = Some m ->
  if nu_cto m <? PDMA_CH_MAX then
    0 <= nu_cto m < PDMA_CH_MAX /\ allocated s (nu_cto m + i * PDMA_CH_MAX) = false /\
    forall k, 0 <= k < nu_cto m -> allocated s (k + i * PDMA_CH_MAX) = true
  else forall k, 0 <= k < PDMA_CH_MAX -> allocated s (k + i * PDMA_CH_MAX) = true.
Proof.
  intros Hs Hin Hi Hm.
  destruct (Forall_znth _ _ _ _ (wf_mask_ok s Hs Hin) Hm) as [Hu Hh].
  destruct (Z.ltb_spec (nu_cto m) PDMA_CH_MAX) as [Hlt|Hge].
  - destruct (nu_cto_lowest m Hu) as (H0 & Hf & Ht); [chan_consts; lia|].
    split_and!; [done..| |].
    + by rewrite (allocated_lookup _ _ m) by (done || lia).
    + intros k Hk. rewrite (allocated_lookup _ _ m) by (done || lia). by apply Ht.
  - intros k Hk. rewrite (allocated_lookup _ _ m) by done.
    destruct (Z.lt_ge_cases (nu_cto m) 32) as [Hlt|Hge'].
    + destruct (nu_cto_lowest m Hu Hlt) as (_ & _ & Ht). apply Ht. lia.
    + apply nu_cto_full; [done|lia|chan_consts; lia].
Qed.

(** ** What one allocation does *)

(** Channel [c] taken for request source [per]: the set gains [c], its record is
    fresh, its descriptor is stopped and its enable bit set; every other channel
    record, every other descriptor and every other variable is as before. *)
Record takes (s s' : drv) (c per mem : Z) : Prop := {
  takes_set : forall d, is_chan d -> allocated s' d = (d =? c) || allocated s d;
  takes_chn : znth (nu_pdma_chn_arr s') c = Some (set_m_spPeripCtl (mkPeriph per mem) chn_zero);
  takes_other : forall d, d <> c -> znth (nu_pdma_chn_arr s') d = znth (nu_pdma_chn_arr s) d;
  takes_rest : s' = set_phw (phw s') (set_nu_pdma_chn_arr (nu_pdma_chn_arr s')
                 (set_nu_pdma_chn_mask_arr (nu_pdma_chn_mask_arr s') s));
  takes_desc : forall a, a <> dsct_addr (module_base (c / PDMA_CH_MAX)) (c mod PDMA_CH_MAX) ->
    hw_dsct (phw s') !! a = hw_dsct (phw s) !! a;
  takes_stopped :
    CTL <$> hw_dsct (phw s') !! dsct_addr (module_base (c / PDMA_CH_MAX)) (c mod PDMA_CH_MAX)
    = Some 0;
  takes_enabled : exists p, hw_regs (phw s') !! module_base (c / PDMA_CH_MAX) = Some p /\
    Z.testbit (CHCTL p) (c mod PDMA_CH_MAX) = true
}.

(** Taking channel [k] of module [i], whose mask is [m]. *)
Lemma take_returns s i m k idx per mem :
  wf s -> 0 <= i < PDMA_CNT -> 0 <= k < PDMA_CH_MAX ->
  znth (nu_pdma_chn_mask_arr s) i = Some m ->
  znth g_nu_pdma_peripheral_ctl_pool idx = Some (per, mem) ->
  let c := k + i * PDMA_CH_MAX in
  exists s', (modify (set_nu_pdma_chn_mask_arr (zupd (nu_pdma_chn_mask_arr s) i (Z.lor m (bit k)))) ;;
    upd_chn (fun _ => chn_zero) c ;;
    nu_pdma_periph_ctrl_fill c idx ;;
    nu_pdma_channel_terminate c ;;
    ret c) s = Ret (c, s') /\ wf s' /\ takes s s' c per mem.
Proof.
  intros Hs Hi Hk Hm Hidx c. destruct (chan_split i k Hi Hk) as (Hc & Ei & Ek). fold c in Hc, Ei, Ek.
  rewrite bind_modify. set (s1 := set_nu_pdma_chn_mask_arr _ s).
  assert (Hs1 : wf s1).
  { apply wf_set_mask; [done|]. intros Hin. apply mask_ok_set; [|chan_consts; lia].
    by apply (Forall_znth _ _ _ _ (wf_mask_ok s Hs Hin) Hm). }
  destruct (wf_chn_lookup s1 c Hs1 Hc) as [r Hr].
  assert (Hlen : 0 <= c < Z.of_nat (length (nu_pdma_chn_arr s1))) by (by eapply znth_Some).
  rewrite (bind_Ret _ _ _ _ _ (upd_chn_eq _ s1 c r Hr)).
  set (s2 := set_nu_pdma_chn_arr _ s1).
  assert (Hr2 : znth (nu_pdma_chn_arr s2) c = Some chn_zero) by (by apply znth_zupd_eq).
  unfold nu_pdma_periph_ctrl_fill at 1. rewrite bind_assoc, (bind_deref _ (per, mem)) by done.
  rewrite (bind_Ret _ _ _ _ _ (upd_chn_eq _ s2 c _ Hr2)). cbn [fst snd].
  set (s3 := set_nu_pdma_chn_arr _ s2).
  assert (Hs3 : wf s3).
  { do 2 (apply wf_set_chn; [|cbn; rewrite ?length_zupd; by apply wf_chns]). done. }
  assert (Hr3 : znth (nu_pdma_chn_arr s3) c = Some (set_m_spPeripCtl (mkPeriph per mem) chn_zero)).
  { apply znth_zupd_eq. cbn. by rewrite length_zupd. }
  assert (Hset : forall d, is_chan d -> allocated s3 d = (d =? c) || allocated s d).
  { intros d Hd. by apply (set_allocated s i m k d). }
  assert (Ha3 : allocated s3 c = true) by (by rewrite Hset, Z.eqb_refl).
  destruct (terminate_returns s3 c _ Hs3 Hc Ha3 Hr3) as (h & E & Hh & D & C & P).
  rewrite (bind_Ret _ _ _ _ _ E). eexists. split; [reflexivity|]. split.
  { apply wf_set_phw; [|done]. apply wf_set_chn; [done|]. rewrite length_zupd. by apply wf_chns. }
  split; cbn.
  - intros d Hd. by apply Hset.
  - rewrite !zupd_zupd. by apply znth_zupd_eq.
  - intros d Hd. rewrite !zupd_zupd. apply znth_zupd_ne; [apply Hc|done].
  - done.
  - done.
  - done.
  - done.
Qed.

(** Every channel below [n * PDMA_CH_MAX] is taken. *)
Definition full_below (s : drv) (n : Z) : Prop :=
  forall d, 0 <= d < n * PDMA_CH_MAX -> allocated s d = true.

Lemma full_below_step s i :
  0 <= i -> full_below s i ->
  (forall k, 0 <= k < PDMA_CH_MAX -> allocated s (k + i * PDMA_CH_MAX) = true) ->
  full_below s (i + 1).
Proof.
  intros Hi Hb Hk d Hd. destruct (Z.lt_ge_cases d (i * PDMA_CH_MAX)) as [|Hge]; [by apply Hb; lia|].
  replace d with ((d - i * PDMA_CH_MAX) + i * PDMA_CH_MAX) by lia. apply Hk. chan_consts. lia.
Qed.

Lemma allocate_scan_returns s idx per mem :
  wf s -> nu_pdma_inited s = true ->
  znth g_nu_pdma_peripheral_ctl_pool idx = Some (per, mem) ->
  match first_free s with
  | Some c => is_chan c /\ allocated s c = false /\
      exists s', allocate_scan (seqZ 0 PDMA_CNT) idx s = Ret (c, s') /\ wf s' /\ takes s s' c per mem
  | None => allocate_scan (seqZ 0 PDMA_CNT) idx s = Ret (- RT_ERROR, s)
  end.
Proof.
  intros Hs Hin Hidx.
  assert (Hgen : forall n i, 0 <= i -> i + Z.of_nat n = PDMA_CNT -> full_below s i ->
    match first_free s with
    | Some c => is_chan c /\ allocated s c = false /\
        exists s', allocate_scan (seqZ i (Z.of_nat n)) idx s = Ret (c, s') /\ wf s' /\ takes s s' c per mem
    | None => allocate_scan (seqZ i (Z.of_nat n)) idx s = Ret (- RT_ERROR, s)
    end); [|by apply (Hgen (Z.to_nat PDMA_CNT) 0); [lia|done|intros d Hd; lia]].
  induction n as [|n IH]; intros i Hi Hn Hb.
  { rewrite first_free_None; [done|]. intros d Hd. apply Hb. chan_consts. lia. }
  rewrite seqZ_cons by lia. replace (Z.pred (Z.of_nat (S n))) with (Z.of_nat n) by lia.
  cbn [allocate_scan]. destruct (wf_mask_lookup s i Hs) as [m Hm]; [lia|].
  pose proof (cto_channel s i m Hs Hin ltac:(lia) Hm) as Hcto.
  destruct (nu_cto m <? PDMA_CH_MAX) eqn:Elt.
  - destruct Hcto as (Hk & Hf & Ht). destruct (chan_split i (nu_cto m) ltac:(lia) Hk) as (Hc & _).
    rewrite (first_free_Some s (nu_cto m + i * PDMA_CH_MAX)); [|done|done|].
    + split; [done|]. split; [done|].
      destruct (take_returns s i m (nu_cto m) idx per mem) as (s' & E & ?); [done|lia|done..|].
      exists s'. split; [|done].
      rewrite bind_gets, (bind_deref _ m) by done. by rewrite Elt.
    + intros d Hd. destruct (Z.lt_ge_cases d (i * PDMA_CH_MAX)) as [|Hge]; [apply Hb; lia|].
      replace d with ((d - i * PDMA_CH_MAX) + i * PDMA_CH_MAX) by lia. apply Ht. lia.
  - specialize (IH (i + 1) ltac:(lia) ltac:(lia) (full_below_step s i Hi Hb Hcto)).
    replace (Z.succ i) with (i + 1) by lia.
    rewrite bind_gets, (bind_deref _ m) by done. rewrite Elt. exact IH.
Qed.

(** ** Initialisation *)

Lemma init_mask_ok : mask_ok (not32 PDMA_CH_Msk).
Proof.
  split; [apply not32_u32|]. intros k Hk. unfold PDMA_CH_Msk.
  rewrite testbit_not32 by (chan_consts; lia).
  change (Z.shiftl 1 PDMA_CH_MAX - 1) with (Z.ones PDMA_CH_MAX).
  rewrite testbit_ones by (chan_consts; lia).
  by destruct (Z.ltb_spec k 32), (Z.ltb_spec k PDMA_CH_MAX); try lia.
Qed.

Lemma init_mask_clear k : 0 <= k < PDMA_CH_MAX -> Z.testbit (not32 PDMA_CH_Msk) k = false.
Proof.
  intros Hk. unfold PDMA_CH_Msk. rewrite testbit_not32 by lia.
  change (Z.shiftl 1 PDMA_CH_MAX - 1) with (Z.ones PDMA_CH_MAX).
  rewrite testbit_ones by (chan_consts; lia).
  destruct (Z.ltb_spec k PDMA_CH_MAX); [apply andb_false_r|lia].
Qed.

Lemma init_module_returns s i :
  wf s -> 0 <= i < PDMA_CNT ->
  exists h, init_module i s =
  Ret (tt, set_isr_installed (i :: isr_installed s) (set_phw h (set_nu_pdma_chn_mask_arr
      (zupd (nu_pdma_chn_mask_arr s) i (not32 PDMA_CH_Msk)) s))) /\ wf_hw h.
Proof.
  intros Hs Hi. unfold init_module. rewrite bind_modify. set (s1 := set_nu_pdma_chn_mask_arr _ s).
  assert (Hw1 : wf s1) by (apply wf_set_mask; [done|intros _; apply init_mask_ok]).
  set (A := list_to_set (dsct_addr (module_base i) <$> seqZ 0 PDMA_CH_MAX) : gset Z).
  assert (HA : forall k, 0 <= k < PDMA_CH_MAX -> dsct_addr (module_base i) k ∈ A).
  { intros k Hk. apply elem_of_list_to_set, list_elem_of_fmap. exists k. split; [done|].
    apply elem_of_seqZ. lia. }
  destruct (on_hw_op A (upd_reg hw_ip_reset (module_base i)) s1) as (h1 & E1 & W1 & _);
    [apply hw_op_upd_reg; [done|apply hw_ip_reset_rows]|done|].
  rewrite (bind_Ret _ _ _ _ _ E1).
  destruct (on_hw_op A (PDMA_Open (module_base i) PDMA_CH_Msk) (set_phw h1 s1)) as (h2 & E2 & W2 & _);
    [by apply hw_op_Open|by apply wf_set_phw|].
  rewrite (bind_Ret _ _ _ _ _ E2).
  destruct (on_hw_op A (PDMA_Close (module_base i)) (set_phw h2 (set_phw h1 s1))) as (h3 & E3 & W3 & _);
    [by apply hw_op_Close|by apply wf_set_phw; [apply wf_set_phw|]|].
  rewrite (bind_Ret _ _ _ _ _ E3). by exists h3.
Qed.

Lemma init_returns s :
  wf s -> nu_pdma_inited s = false ->
  exists s', nu_pdma_init s = Ret (tt, s') /\ wf s' /\ nu_pdma_inited s' = true /\
    (forall c, is_chan c -> allocated s' c = false) /\
    nu_pdma_chn_arr s' = replicate (Z.to_nat NU_PDMA_CH_MAX) chn_zero.
Proof.
  intros Hs Hin. unfold nu_pdma_init. rewrite bind_gets, Hin, bind_modify.
  set (s0 := set_nu_pdma_chn_arr _ s).
  assert (Hs0 : wf s0) by (apply wf_set_chn; [done|apply length_replicate]).
  change (seqZ 0 PDMA_CNT) with [0; 1]. cbn [for_each]. rewrite !bind_assoc.
  destruct (init_module_returns s0 0 Hs0) as (h1 & E1 & W1); [chan_consts; lia|].
  rewrite (bind_Ret _ _ _ _ _ E1). set (s1 := set_isr_installed _ _).
  assert (Hs1 : wf s1).
  { destruct Hs0 as [? _ ? _]. split; cbn; [by rewrite length_zupd|by rewrite Hin|done|done]. }
  rewrite bind_assoc.
  destruct (init_module_returns s1 1 Hs1) as (h2 & E2 & W2); [chan_consts; lia|].
  rewrite (bind_Ret _ _ _ _ _ E2), bind_ret_l. set (s2 := set_isr_installed _ _).
  assert (Hm : nu_pdma_chn_mask_arr s2 = [not32 PDMA_CH_Msk; not32 PDMA_CH_Msk]).
  { pose proof (wf_masks s Hs) as Hl. cbn.
    by destruct (nu_pdma_chn_mask_arr s) as [|a [|b [|]]]. }
  eexists. split; [reflexivity|]. split_and!; cbn; [split; cbn|done| |done].
  - change (zupd _ 1 _) with (nu_pdma_chn_mask_arr s2). by rewrite Hm.
  - intros _. change (zupd _ 1 _) with (nu_pdma_chn_mask_arr s2). rewrite Hm.
    repeat constructor; apply init_mask_ok.
  - done.
  - done.
  - intros c Hc. destruct (chan_parts c Hc) as [Hi Hk]. unfold allocated. cbn.
    change (zupd _ 1 _) with (nu_pdma_chn_mask_arr s2). rewrite Hm.
    assert (znth [not32 PDMA_CH_Msk; not32 PDMA_CH_Msk] (c / PDMA_CH_MAX)
            = Some (not32 PDMA_CH_Msk)) as ->; [|by apply init_mask_clear].
    by assert (c / PDMA_CH_MAX = 0 \/ c / PDMA_CH_MAX = 1) as [->| ->] by (chan_consts; lia).
Qed.

(** ** Freeing a channel *)

(** Channel [c] given back: the set loses [c], its enable bit is clear and its
    record stays as it was. *)
Record gives_back (s s' : drv) (c : Z) : Prop := {
  gives_set : forall d, is_chan d -> allocated s' d = negb (d =? c) && allocated s d;
  gives_disabled : exists p, hw_regs (phw s') !! module_base (c / PDMA_CH_MAX) = Some p /\
    Z.testbit (CHCTL p) (c mod PDMA_CH_MAX) = false;
  gives_dsct : hw_dsct (phw s') = hw_dsct (phw s);
  gives_rest : s' = set_phw (phw s') (set_nu_pdma_chn_mask_arr (nu_pdma_chn_mask_arr s') s)
}.

Lemma free_returns s c :
  wf s -> nu_pdma_inited s = true -> is_chan c -> allocated s c = true ->
  exists s', nu_pdma_channel_free c s = Ret (- RT_EOK, s') /\ wf s' /\ gives_back s s' c.
Proof.
  intros Hs Hin Hc Ha. destruct (chan_parts c Hc) as [Hi Hk].
  unfold nu_pdma_channel_free. rewrite bind_gets, Hin. cbn [negb].
  rewrite (bind_Ret _ _ _ _ _ (check_eq s c Hs Hc)), Ha. cbn [negb].
  rewrite chan_u32, chan_mod_idx, chan_mod_chidx by done.
  assert ((c <? NU_PDMA_CH_MAX) && (0 <=? c) = true) as -> by (chan_consts; lia).
  destruct (wf_mask_lookup s _ Hs Hi) as [m Hm].
  rewrite bind_gets, (bind_deref _ m) by done. rewrite bind_modify.
  set (s1 := set_nu_pdma_chn_mask_arr _ s).
  assert (Hs1 : wf s1).
  { apply wf_set_mask; [done|]. intros _. apply mask_ok_clear; [|done].
    by apply (Forall_znth _ _ _ _ (wf_mask_ok s Hs Hin) Hm). }
  unfold nu_pdma_channel_disable. rewrite chan_base, chan_mod_chidx by done.
  destruct (wf_reg _ (wf_phw s Hs) _ Hi) as (p & Hp & Hrow).
  rewrite (bind_Ret _ _ _ _ _ (on_hw_eq _ s1 _ _ (upd_reg_eq _ _ _ p Hp))).
  eexists. split; [reflexivity|]. split.
  { apply wf_set_phw; [done|]. apply wf_hw_upd_reg; [by apply wf_phw|done|by intros []]. }
  split; cbn; [|eexists; split; [apply lookup_insert_eq|]|done|done].
  - intros d Hd. by apply (clear_allocated s c m d).
  - cbn. rewrite Z.land_spec, testbit_not32, testbit_bit, Z.eqb_refl by lia.
    cbn. by rewrite andb_false_r, andb_false_r.
Qed.

Lemma init_again s : nu_pdma_inited s = true -> nu_pdma_init s = Ret (tt, s).
Proof. intros Hin. unfold nu_pdma_init. by rewrite bind_gets, Hin. Qed.

Lemma init_any s :
  wf s ->
  exists s0, nu_pdma_init s = Ret (tt, s0) /\ wf s0 /\ nu_pdma_inited s0 = true /\
    if nu_pdma_inited s then s0 = s else forall d, is_chan d -> allocated s0 d = false.
Proof.
  intros Hs. destruct (nu_pdma_inited s) eqn:Hin.
  - exists s. by rewrite init_again.
  - destruct (init_returns s Hs Hin) as (s0 & E & Hs0 & Hi & Hf & _). by exists s0.
Qed.

(** Allocation in an initialised driver, by cases. *)
Lemma allocate_unknown s t :
  nu_pdma_inited s = true -> u32 t ∉ g_nu_pdma_peripheral_ctl_pool.*1 ->
  nu_pdma_channel_allocate t s = Ret (- RT_ERROR, s).
Proof.
  intros Hin Ht. unfold nu_pdma_channel_allocate. rewrite (bind_Ret _ _ _ _ _ (init_again s Hin)).
  destruct (peripheral_set_spec (u32 t)) as [[-> _]|(mem & _ & Hl)]; [done|].
  exfalso. apply Ht, list_elem_of_fmap. exists (u32 t, mem). split; [done|].
  unfold znth in Hl. destruct (_ <? 0); [done|]. by eapply list_elem_of_lookup_2.
Qed.

Lemma allocate_known s t :
  wf s -> nu_pdma_inited s = true -> u32 t ∈ g_nu_pdma_peripheral_ctl_pool.*1 ->
  exists mem, (u32 t, mem) ∈ g_nu_pdma_peripheral_ctl_pool /\
  match first_free s with
  | Some c => is_chan c /\ allocated s c = false /\
      exists s', nu_pdma_channel_allocate t s = Ret (c, s') /\ wf s' /\ takes s s' c (u32 t) mem
  | None => nu_pdma_channel_allocate t s = Ret (- RT_ERROR, s)
  end.
Proof.
  intros Hs Hin Ht. destruct (peripheral_set_spec (u32 t)) as [[_ Hn]|(mem & Hge & Hl)]; [done|].
  exists mem. split.
  { unfold znth in Hl. destruct (_ <? 0); [done|]. by eapply list_elem_of_lookup_2. }
  assert (E : nu_pdma_channel_allocate t s =
              allocate_scan (seqZ 0 PDMA_CNT) (nu_pdma_peripheral_set (u32 t)) s).
  { unfold nu_pdma_channel_allocate. rewrite (bind_Ret _ _ _ _ _ (init_again s Hin)).
    by destruct (Z.ltb_spec (nu_pdma_peripheral_set (u32 t)) 0); [lia|]. }
  rewrite E. by apply allocate_scan_returns.
Qed.

(** Allocation always returns, with a well-formed initialised driver. *)
Lemma allocate_total s t :
  wf s ->
  exists c s', nu_pdma_channel_allocate t s = Ret (c, s') /\ wf s' /\ nu_pdma_inited s' = true.
Proof.
  intros Hs. destruct (init_any s Hs) as (s0 & E0 & Hs0 & Hin & _).
  assert (E : nu_pdma_channel_allocate t s = nu_pdma_channel_allocate t s0).
  { unfold nu_pdma_channel_allocate.
    by rewrite (bind_Ret _ _ _ _ _ E0), (bind_Ret _ _ _ _ _ (init_again s0 Hin)). }
  rewrite E. destruct (decide (u32 t ∈ g_nu_pdma_peripheral_ctl_pool.*1)) as [Ht|Ht].
  2: { rewrite allocate_unknown by done. by eexists _, _. }
  destruct (allocate_known s0 t Hs0 Hin Ht) as (mem & _ & H).
  destruct (first_free s0) as [c|].
  - destruct H as (_ & _ & s' & H1 & H2 & H3). exists c, s'. split_and!; [done..|].
    by rewrite (takes_rest _ _ _ _ _ H3).
  - by eexists _, _.
Qed.

(** ** Properties *)

(** Channel allocation, from every well-formed driver state.  The driver is
    initialised first if it was not (no channel is then taken).  A request source
    outside the table gives [- RT_ERROR] and no change.  Otherwise the result is the
    lowest free channel of the lowest module with one, fresh for that source
    ([takes]); with every channel taken it is [- RT_ERROR] and nothing changes. *)
Theorem channel_allocate_spec s t :
  wf s ->
  exists s0, nu_pdma_init s = Ret (tt, s0) /\ wf s0 /\ nu_pdma_inited s0 = true /\
    (if nu_pdma_inited s then s0 = s else forall d, is_chan d -> allocated s0 d = false) /\
    if decide (u32 t ∈ g_nu_pdma_peripheral_ctl_pool.*1) then
      match first_free s0 with
      | Some c =>
          is_chan c /\ allocated s0 c = false /\ (forall d, 0 <= d < c -> allocated s0 d = true) /\
          exists mem s', (u32 t, mem) ∈ g_nu_pdma_peripheral_ctl_pool /\
            nu_pdma_channel_allocate t s = Ret (c, s') /\ wf s' /\ takes s0 s' c (u32 t) mem
      | None =>
          (forall d, is_chan d -> allocated s0 d = true) /\
          nu_pdma_channel_allocate t s = Ret (- RT_ERROR, s0)
      end
    else nu_pdma_channel_allocate t s = Ret (- RT_ERROR, s0).
Proof.
  intros Hs. destruct (init_any s Hs) as (s0 & E0 & Hs0 & Hin & Hset).
  exists s0. split_and!; [done..|].
  assert (E : nu_pdma_channel_allocate t s = nu_pdma_channel_allocate t s0).
  { unfold nu_pdma_channel_allocate.
    by rewrite (bind_Ret _ _ _ _ _ E0), (bind_Ret _ _ _ _ _ (init_again s0 Hin)). }
  rewrite E. destruct (decide _) as [Ht|Ht]; [|by apply allocate_unknown].
  destruct (allocate_known s0 t Hs0 Hin Ht) as (mem & Hmem & H).
  destruct (first_free s0) as [c|] eqn:Ef.
  - destruct H as (Hc & Hf & s' & H1 & H2 & H3). split_and!; [done..| |by exists mem, s'].
    by apply first_free_least.
  - split; [|done]. by apply first_free_full.
Qed.

(** Freeing a channel.  An allocated channel of an initialised driver is given
    back ([gives_back]: it alone leaves the set, its enable bit is cleared, its
    record and every other variable stay) with [RT_EOK]; a channel that is not
    allocated, and any channel of an uninitialised driver, gives [- RT_EINVAL] and
    no change; a number that is no channel trips the assertion of the channel test. *)
Theorem channel_free_spec s c :
  wf s -> - 2 ^ 31 <= c < 2 ^ 31 ->
  if negb (nu_pdma_inited s) then nu_pdma_channel_free c s = Ret (- RT_EINVAL, s)
  else if decide (0 <= c < NU_PDMA_CH_MAX) then
    if allocated s c then
      exists s', nu_pdma_channel_free c s = Ret (RT_EOK, s') /\ wf s' /\ gives_back s s' c
    else nu_pdma_channel_free c s = Ret (- RT_EINVAL, s)
  else nu_pdma_channel_free c s = AssertFail.
Proof.
  intros Hs Hc. destruct (nu_pdma_inited s) eqn:Hin; cbn [negb].
  2: { unfold nu_pdma_channel_free. by rewrite bind_gets, Hin. }
  destruct (decide _) as [Hch|Hch].
  - destruct (allocated s c) eqn:Ha; [by apply free_returns|].
    unfold nu_pdma_channel_free. rewrite bind_gets, Hin. cbn [negb].
    by rewrite (bind_Ret _ _ _ _ _ (check_eq s c Hs Hch)), Ha.
  - unfold nu_pdma_channel_free. rewrite bind_gets, Hin. cbn [negb]. unfold bind at 1.
    rewrite check_not_chan; [done|  |lia|done].
    destruct (Z.lt_ge_cases c 0); [by right|left; apply u32_small; unfold is_u32; lia].
Qed.
End alloc.

(** ** Witnesses *)

(** The board after initialisation and one allocation. *)
Definition board_one : drv :=
  match nu_pdma_channel_allocate (HW := board_hw)
          PDMA_QSPI0_TX board_boot with
  | Ret (_, s) => s
  | _ => board_boot
  end.

Lemma wf_board_one : wf board_one /\ nu_pdma_inited board_one = true.
Proof.
  unfold board_one.
  destruct (@allocate_total board_hw board_hw_spec board_boot PDMA_QSPI0_TX
    wf_board_boot) as (c & s' & -> & Hw & Hi).
  done.
Qed.

Lemma channel_allocate_spec_witness :
  wf board_boot /\ exists s0, nu_pdma_init (HW := board_hw) board_boot = Ret (tt, s0) /\ wf s0.
Proof.
  split; [apply wf_board_boot|].
  destruct (@channel_allocate_spec board_hw board_hw_spec board_boot
    PDMA_QSPI0_TX wf_board_boot) as (s0 & H1 & H2 & _).
  exists s0. exact (conj H1 H2).
Defined.

Lemma channel_free_spec_witness :
  exists s', nu_pdma_channel_free 0 board_one = Ret (RT_EOK, s') /\ wf s' /\
    gives_back board_one s' 0.
Proof.
  pose proof (channel_free_spec board_one 0
    (proj1 wf_board_one) ltac:(lia)) as H.
  revert H. rewrite (proj2 wf_board_one). cbn [negb].
  destruct (decide (0 <= 0 < NU_PDMA_CH_MAX)) as [_|Hn]; [|destruct Hn; chan_consts; lia].
  replace (allocated board_one 0) with true by (vm_compute; reflexivity).
  exact (fun H => H).
Defined.
