(* ===== verification/PdmaSpec.v ===== *)
(** * An abstract specification of PDMA channel management

    The channel functions of [drv_pdma.c] as operations on a finite map from the
    allocated channels to what their owner set on them.  The driver's masks,
    tables and registers refine it: every operation of the driver returns what the
    abstract operation returns, and the states stay related. *)

From Stdlib Require Import ZArith Lia Bool.
From stdpp Require Import base tactics numbers list option gmap.
From S2P Require Import Prelude BitUtil PdmaRegs Pdma PdmaFacts PdmaAlloc.

Open Scope Z_scope.

(** What the owner of a channel sees of it: the request source, the address
    control, the event filter and the three callbacks with their user data. *)
Record chan_view : Type := mkView {
  v_per : Z; v_mem : Z; v_filter : Z;
  v_event : Z * Z; v_trigger : Z * Z; v_disable : Z * Z
}.

Definition view_cb (c : nu_pdma_chn_cb) : Z * Z := (m_pfnCBHandler c, m_pvUserData c).

Definition view (c : nu_pdma_chn) : chan_view :=
  mkView (m_u32Peripheral (m_spPeripCtl c)) (m_eMemCtl (m_spPeripCtl c)) (m_u32EventFilter c)
    (view_cb (m_sCB_Event c)) (view_cb (m_sCB_Trigger c)) (view_cb (m_sCB_Disable c)).

(** ** The operations *)

Inductive chan_op : Type :=
  | OpAllocate (i32PeripType : Z)
  | OpFree (i32ChannID : Z)
  | OpFilterSet (i32ChannID u32EventFilter : Z)
  | OpFilterGet (i32ChannID : Z)
  | OpMemctlSet (i32ChannID eMemCtrl : Z)
  | OpMemctlGet (i32ChannID : Z)
  | OpRegister (i32ChannID : Z) (cb : nu_pdma_chn_cb)
  | OpHijack (i32ChannID eCBType : Z) (cb : nu_pdma_chn_cb)
  | OpTerminate (i32ChannID : Z).

Definition op_chan (o : chan_op) : option Z :=
  match o with
  | OpAllocate _ => None
  | OpFree c | OpFilterSet c _ | OpFilterGet c | OpMemctlSet c _ | OpMemctlGet c
  | OpRegister c _ | OpHijack c _ _ | OpTerminate c => Some c
  end.

(** Operations on channel numbers that exist; for the others see
    [channel_free_spec]. *)
Definition op_ok (o : chan_op) : Prop :=
  match op_chan o with Some c => is_chan c | None => True end.

#[export] Instance op_ok_dec o : Decision (op_ok o).
Proof. destruct o; cbv [op_ok op_chan is_chan]; apply _. Defined.

Definition run_op `{PdmaHw} (o : chan_op) : M drv Z :=
  match o with
  | OpAllocate t => nu_pdma_channel_allocate t
  | OpFree c => nu_pdma_channel_free c
  | OpFilterSet c f => nu_pdma_filtering_set c f
  | OpFilterGet c => nu_pdma_filtering_get c
  | OpMemctlSet c m => nu_pdma_channel_memctrl_set c m
  | OpMemctlGet c => nu_pdma_channel_memctrl_get c
  | OpRegister c cb => nu_pdma_callback_register c (Some cb)
  | OpHijack c t cb => let! r := nu_pdma_callback_hijack c t (Some cb) in ret (fst r)
  | OpTerminate c => nu_pdma_channel_terminate c ;; ret RT_EOK
  end.

Fixpoint run_ops `{PdmaHw} (os : list chan_op) : M drv (list Z) :=
  match os with
  | [] => ret []
  | o :: os => let! r := run_op o in let! rs := run_ops os in ret (r :: rs)
  end.

(** ** The abstract machine *)

Abbreviation chans := (gmap Z chan_view).

Definition lowest_free (A : chans) : option Z :=
  snd <$> list_find (fun c => A !! c = None) (seqZ 0 NU_PDMA_CH_MAX).

(** The address control the table gives a request source. *)
Definition default_memctl (t : Z) : option Z :=
  snd <$> (snd <$> list_find (fun e => fst e = t) g_nu_pdma_peripheral_ctl_pool).

Definition fresh_view (t mem : Z) : chan_view := mkView t mem 0 (0, 0) (0, 0) (0, 0).

Definition set_v_filter (f : Z) (v : chan_view) : chan_view :=
  mkView (v_per v) (v_mem v) f (v_event v) (v_trigger v) (v_disable v).
Definition set_v_mem (m : Z) (v : chan_view) : chan_view :=
  mkView (v_per v) m (v_filter v) (v_event v) (v_trigger v) (v_disable v).

(** The callback an enumerator selects, and the view with it replaced. *)
Definition view_slot (t : Z) (v : chan_view) : option (Z * Z) :=
  if t =? eCBType_Event then Some (v_event v)
  else if t =? eCBType_Trigger then Some (v_trigger v)
  else if t =? eCBType_Disable then Some (v_disable v) else None.
Definition set_view_slot (t : Z) (x : Z * Z) (v : chan_view) : chan_view :=
  if t =? eCBType_Event then mkView (v_per v) (v_mem v) (v_filter v) x (v_trigger v) (v_disable v)
  else if t =? eCBType_Trigger then
    mkView (v_per v) (v_mem v) (v_filter v) (v_event v) x (v_disable v)
  else if t =? eCBType_Disable then
    mkView (v_per v) (v_mem v) (v_filter v) (v_event v) (v_trigger v) x
  else v.

(** A memory-to-memory channel never has a fixed source. *)
Definition memctl_ok (v : chan_view) (m : Z) : bool :=
  (eMemCtl_SrcFix_DstFix <=? m) && (m <=? eMemCtl_SrcInc_DstInc) &&
  negb ((v_per v =? PDMA_MEM) && ((m =? eMemCtl_SrcFix_DstInc) || (m =? eMemCtl_SrcFix_DstFix))).

Definition abs_op (o : chan_op) (A : chans) : Z * chans :=
  match o with
  | OpAllocate t =>
      match default_memctl (u32 t), lowest_free A with
      | Some mem, Some c => (c, <[c := fresh_view (u32 t) mem]> A)
      | _, _ => (- RT_ERROR, A)
      end
  | OpFree c =>
      match A !! c with Some _ => (RT_EOK, delete c A) | None => (- RT_EINVAL, A) end
  | OpFilterSet c f =>
      match A !! c with
      | Some v => (RT_EOK, <[c := set_v_filter f v]> A) | None => (- RT_EINVAL, A) end
  | OpFilterGet c => (match A !! c with Some v => v_filter v | None => 0 end, A)
  | OpMemctlSet c m =>
      match A !! c with
      | Some v => if memctl_ok v m then (RT_EOK, <[c := set_v_mem m v]> A) else (- RT_EINVAL, A)
      | None => (- RT_EINVAL, A)
      end
  | OpMemctlGet c => (match A !! c with Some v => v_mem v | None => eMemCtl_Undefined end, A)
  | OpRegister c cb =>
      match A !! c with
      | Some v =>
          match view_slot (m_eCBType cb) v with
          | Some _ => (RT_EOK, <[c := set_view_slot (m_eCBType cb) (view_cb cb) v]> A)
          | None => (- RT_EINVAL, A)
          end
      | None => (- RT_EINVAL, A)
      end
  | OpHijack c t cb =>
      match A !! c with
      | Some v =>
          match view_slot t v with
          | Some x => (fst x, <[c := set_view_slot t (view_cb cb) v]> A)
          | None => (0, A)
          end
      | None => (0, A)
      end
  | OpTerminate c => (RT_EOK, A)
  end.

Fixpoint abs_ops (os : list chan_op) (A : chans) : list Z * chans :=
  match os with
  | [] => ([], A)
  | o :: os => let '(r, A') := abs_op o A in let '(rs, A'') := abs_ops os A' in (r :: rs, A'')
  end.

(** ** The refinement relation *)

Definition abs_chan (s : drv) (c : Z) : option chan_view :=
  if allocated s c then view <$> znth (nu_pdma_chn_arr s) c else None.

Record R (s : drv) (A : chans) : Prop := {
  R_wf : wf s;
  R_boot : nu_pdma_inited s = false -> forall c, is_chan c -> allocated s c = false;
  R_map : forall c, A !! c = abs_chan s c
}.

Lemma allocated_is_chan s c : wf s -> allocated s c = true -> is_chan c.
Proof.
  intros Hs. unfold allocated. destruct (znth _ _) as [m|] eqn:E; [|done]. intros _.
  apply znth_Some in E. rewrite (wf_masks s Hs) in E. chan_consts. Z.div_mod_to_equations. lia.
Qed.

Lemma R_chan s A c v :
  R s A -> A !! c = Some v -> is_chan c /\ allocated s c = true /\
  exists r, znth (nu_pdma_chn_arr s) c = Some r /\ v = view r.
Proof.
  intros HR. rewrite (R_map s A HR). unfold abs_chan. destruct (allocated s c) eqn:Ha; [|done].
  intros H. apply fmap_Some in H as (r & Hr & ->). split_and!; [|done|by exists r].
  apply (allocated_is_chan s); [apply HR|done].
Qed.

Lemma R_none s A c : R s A -> is_chan c -> A !! c = None -> allocated s c = false.
Proof.
  intros HR Hc. rewrite (R_map s A HR). unfold abs_chan. destruct (allocated s c); [|done].
  destruct (wf_chn_lookup s c (R_wf s A HR) Hc) as [r ->]. done.
Qed.

(** The records of allocated channels determine the abstract state: one record
    changed is one entry changed. *)
Lemma R_upd_chn s A c r r' :
  R s A -> A !! c = Some (view r) -> znth (nu_pdma_chn_arr s) c = Some r ->
  R (set_nu_pdma_chn_arr (zupd (nu_pdma_chn_arr s) c r') s) (<[c := view r']> A).
Proof.
  intros HR HA Hr. destruct (R_chan s A c _ HR HA) as (Hc & Ha & _). destruct HR as [Hw Hb Hm].
  split; [|done|].
  - apply wf_set_chn; [done|]. rewrite length_zupd. by apply wf_chns.
  - intros d. unfold abs_chan. change (allocated (set_nu_pdma_chn_arr _ s) d) with (allocated s d).
    cbn. destruct (decide (c = d)) as [<-|Hne].
    + rewrite lookup_insert_eq, Ha, znth_zupd_eq; [done|]. by eapply znth_Some.
    + rewrite lookup_insert_ne by done. rewrite znth_zupd_ne by (chan_consts; lia). by rewrite Hm.
Qed.

Lemma R_set_phw s A h : R s A -> wf_hw h -> R (set_phw h s) A.
Proof. intros [Hw Hb Hm] Hh. split; [by apply wf_set_phw|done|done]. Qed.

Section refinement.
Context `{HW : PdmaHw} `{HS : !PdmaHwSpec}.

(** A channel operation that first tests the channel: by cases on the abstract
    state. *)
Lemma R_check s A c :
  R s A -> is_chan c ->
  match A !! c with
  | Some v => exists r, znth (nu_pdma_chn_arr s) c = Some r /\ v = view r /\
      nu_pdma_check_is_nonallocated c s = Ret (false, s)
  | None => nu_pdma_check_is_nonallocated c s = Ret (true, s)
  end.
Proof.
  intros HR Hc. rewrite (check_eq s c (R_wf s A HR) Hc). destruct (A !! c) as [v|] eqn:E.
  - destruct (R_chan s A c v HR E) as (_ & -> & r & Hr & ->). by exists r.
  - by rewrite (R_none s A c HR Hc E).
Qed.

Lemma lowest_free_refines s A : R s A -> lowest_free A = first_free s.
Proof.
  intros HR. unfold lowest_free, first_free. f_equal. apply list_find_ext. intros c.
  rewrite (R_map s A HR). unfold abs_chan. split; [|by intros ->].
  destruct (allocated s c) eqn:Ha; [|done].
  destruct (wf_chn_lookup s c (R_wf s A HR) (allocated_is_chan s c (R_wf s A HR) Ha)) as [r ->].
  done.
Qed.

Lemma default_memctl_pool t :
  match default_memctl t with
  | Some mem => (t, mem) ∈ g_nu_pdma_peripheral_ctl_pool
  | None => t ∉ g_nu_pdma_peripheral_ctl_pool.*1
  end.
Proof.
  unfold default_memctl. destruct (list_find _ _) as [[i [t' mem]]|] eqn:E.
  - change ((t, mem) ∈ g_nu_pdma_peripheral_ctl_pool). apply list_find_Some in E as (Hi & Ht & _). cbn in Ht. subst t'.
    by eapply list_elem_of_lookup_2.
  - change (t ∉ g_nu_pdma_peripheral_ctl_pool.*1).
    apply list_find_None in E. rewrite Forall_forall in E.
    intros Hin. apply list_elem_of_fmap in Hin as (e & -> & He). by apply (E e).
Qed.

(** The table has one entry per request source. *)
Lemma pool_functional t m m' :
  (t, m) ∈ g_nu_pdma_peripheral_ctl_pool -> (t, m') ∈ g_nu_pdma_peripheral_ctl_pool -> m = m'.
Proof.
  intros H H'.
  assert (Hall : Forall (fun e => Forall (fun e' : Z * Z => fst e = fst e' -> snd e = snd e')
    g_nu_pdma_peripheral_ctl_pool) g_nu_pdma_peripheral_ctl_pool)
    by (apply (bool_decide_unpack _); vm_compute; done).
  rewrite Forall_forall in Hall. specialize (Hall _ H). rewrite Forall_forall in Hall.
  by apply (Hall _ H').
Qed.

Lemma in_pool_sources t m :
  (t, m) ∈ g_nu_pdma_peripheral_ctl_pool -> t ∈ g_nu_pdma_peripheral_ctl_pool.*1.
Proof. intros H. apply list_elem_of_fmap. by exists (t, m). Qed.

(** Initialisation does not change the abstract state. *)
Lemma R_init s A :
  R s A -> exists s0, nu_pdma_init s = Ret (tt, s0) /\ R s0 A /\ nu_pdma_inited s0 = true.
Proof.
  intros HR. destruct (init_any s (R_wf s A HR)) as (s0 & E & Hw & Hi & Hset).
  exists s0. split_and!; [done| |done]. destruct (nu_pdma_inited s) eqn:Hin; [by subst|].
  split; [done|congruence|]. intros c. rewrite (R_map s A HR). unfold abs_chan.
  destruct (allocated s c) eqn:Ha.
  - rewrite (R_boot s A HR) in Ha; [done|done|]. by apply (allocated_is_chan s c (R_wf s A HR)).
  - destruct (allocated s0 c) eqn:Ha0; [|done].
    by rewrite Hset in Ha0 by (by apply (allocated_is_chan s0)).
Qed.

Lemma R_takes s s' A c t mem :
  R s A -> wf s' -> nu_pdma_inited s = true -> is_chan c -> takes s s' c t mem ->
  R s' (<[c := fresh_view t mem]> A).
Proof.
  intros HR Hw Hin Hc Ht. split; [done| |].
  - rewrite (takes_rest _ _ _ _ _ Ht). cbn. congruence.
  - intros d. unfold abs_chan. destruct (decide (c = d)) as [<-|Hne].
    + rewrite lookup_insert_eq, (takes_set _ _ _ _ _ Ht) by done.
      by rewrite Z.eqb_refl, (takes_chn _ _ _ _ _ Ht).
    + rewrite lookup_insert_ne by done. rewrite (R_map s A HR). unfold abs_chan.
      destruct (allocated s' d) eqn:E'.
      * pose proof E' as E. rewrite (takes_set _ _ _ _ _ Ht) in E
          by (by apply (allocated_is_chan s')).
        destruct (Z.eqb_spec d c); [congruence|]. cbn in E. rewrite E.
        by rewrite (takes_other _ _ _ _ _ Ht).
      * destruct (allocated s d) eqn:E; [|done].
        pose proof (allocated_is_chan s d (R_wf s A HR) E) as Hd.
        rewrite (takes_set _ _ _ _ _ Ht), E, orb_true_r in E' by done. done.
Qed.

Lemma R_gives_back s s' A c :
  R s A -> wf s' -> nu_pdma_inited s = true -> is_chan c -> gives_back s s' c ->
  R s' (delete c A).
Proof.
  intros HR Hw Hin Hc Hg. split; [done| |].
  - rewrite (gives_rest _ _ _ Hg). cbn. congruence.
  - intros d. unfold abs_chan.
    assert (nu_pdma_chn_arr s' = nu_pdma_chn_arr s) as -> by (by rewrite (gives_rest _ _ _ Hg)).
    destruct (decide (c = d)) as [<-|Hne].
    + rewrite lookup_delete_eq, (gives_set _ _ _ Hg) by done. by rewrite Z.eqb_refl.
    + rewrite lookup_delete_ne by done. rewrite (R_map s A HR). unfold abs_chan.
      assert (allocated s' d = allocated s d) as ->; [|done].
      destruct (decide (is_chan d)) as [Hd|Hd].
      * rewrite (gives_set _ _ _ Hg) by done. by destruct (Z.eqb_spec d c); [congruence|].
      * destruct (allocated s' d) eqn:E'; [by destruct Hd; apply (allocated_is_chan s')|].
        destruct (allocated s d) eqn:E; [|done]. by destruct Hd; apply (allocated_is_chan s), E; apply HR.
Qed.

(** ** One operation *)

(** The driver's operation returns the abstract result, in a related state. *)
Definition refines_op (m : M drv Z) (a : chans -> Z * chans) : Prop := forall s A,
  R s A -> exists s', m s = Ret (fst (a A), s') /\ R s' (snd (a A)).

Lemma refine_allocate t : refines_op (nu_pdma_channel_allocate t) (abs_op (OpAllocate t)).
Proof.
  intros s A HR. destruct (R_init s A HR) as (s0 & E0 & HR0 & Hin).
  assert (E : nu_pdma_channel_allocate t s = nu_pdma_channel_allocate t s0).
  { unfold nu_pdma_channel_allocate.
    by rewrite (bind_Ret _ _ _ _ _ E0), (bind_Ret _ _ _ _ _ (init_again s0 Hin)). }
  rewrite E. cbn [abs_op]. pose proof (default_memctl_pool (u32 t)) as Hp.
  destruct (default_memctl (u32 t)) as [mem|].
  2: { rewrite allocate_unknown by done. by exists s0. }
  destruct (allocate_known s0 t (R_wf _ _ HR0) Hin (in_pool_sources _ _ Hp)) as (mem' & Hp' & H).
  rewrite (pool_functional _ _ _ Hp' Hp) in H. rewrite (lowest_free_refines s0 A HR0).
  destruct (first_free s0) as [c|].
  - destruct H as (Hc & Hf & s' & -> & Hw & Ht). exists s'. split; [done|].
    by eapply R_takes.
  - by exists s0.
Qed.

Lemma refine_free c : is_chan c -> refines_op (nu_pdma_channel_free c) (abs_op (OpFree c)).
Proof.
  intros Hc s A HR. cbn [abs_op]. destruct (A !! c) as [v|] eqn:EA.
  - destruct (R_chan s A c v HR EA) as (_ & Ha & _).
    destruct (nu_pdma_inited s) eqn:Hin; [|by rewrite (R_boot s A HR) in Ha].
    destruct (free_returns s c (R_wf s A HR) Hin Hc Ha) as (s' & -> & Hw & Hg).
    exists s'. split; [done|]. by eapply R_gives_back.
  - exists s. split; [|done]. unfold nu_pdma_channel_free. rewrite bind_gets.
    destruct (nu_pdma_inited s); [|done]. cbn [negb].
    pose proof (R_check s A c HR Hc) as Hk. rewrite EA in Hk. by rewrite (bind_Ret _ _ _ _ _ Hk).
Qed.

(** An operation that tests the channel and is refused on a free one. *)
Lemma refine_checked c m r0 (k : M drv Z) (a : chans -> Z * chans) :
  is_chan c ->
  (forall s, m s = (let! na := nu_pdma_check_is_nonallocated c in if na then ret r0 else k) s) ->
  (forall A, A !! c = None -> a A = (r0, A)) ->
  (forall s A r, R s A -> A !! c = Some (view r) -> znth (nu_pdma_chn_arr s) c = Some r ->
     exists s', k s = Ret (fst (a A), s') /\ R s' (snd (a A))) ->
  refines_op m a.
Proof.
  intros Hc Hm Hnone Hsome s A HR. rewrite Hm. pose proof (R_check s A c HR Hc) as Hk.
  destruct (A !! c) as [v|] eqn:EA.
  - destruct Hk as (r & Hr & -> & Hk). rewrite (bind_Ret _ _ _ _ _ Hk). by apply (Hsome s A r).
  - rewrite (bind_Ret _ _ _ _ _ Hk). exists s. by rewrite Hnone.
Qed.

Ltac checked c :=
  eapply (refine_checked c); [done|by intros|intros A HA; cbn [abs_op]; by rewrite HA|
    intros s A r HR HA Hr; cbn [abs_op]; rewrite HA].

Lemma refine_filter_set c f :
  is_chan c -> refines_op (nu_pdma_filtering_set c f) (abs_op (OpFilterSet c f)).
Proof.
  intros Hc. checked c. rewrite (bind_Ret _ _ _ _ _ (upd_chn_eq _ s c r Hr)).
  eexists. split; [reflexivity|]. cbn [snd]. by apply (R_upd_chn s A c r (set_m_u32EventFilter f r)).
Qed.

Lemma refine_filter_get c :
  is_chan c -> refines_op (nu_pdma_filtering_get c) (abs_op (OpFilterGet c)).
Proof.
  intros Hc. checked c. rewrite (bind_Ret _ _ _ _ _ (chn_eq s c r Hr)). by exists s.
Qed.

Lemma refine_memctl_get c :
  is_chan c -> refines_op (nu_pdma_channel_memctrl_get c) (abs_op (OpMemctlGet c)).
Proof.
  intros Hc. checked c. rewrite (bind_Ret _ _ _ _ _ (chn_eq s c r Hr)). by exists s.
Qed.

Lemma refine_memctl_set c m :
  is_chan c -> refines_op (nu_pdma_channel_memctrl_set c m) (abs_op (OpMemctlSet c m)).
Proof.
  intros Hc. checked c. unfold memctl_ok. rewrite !Z.leb_antisym.
  destruct (m <? eMemCtl_SrcFix_DstFix); [by exists s|].
  destruct (eMemCtl_SrcInc_DstInc <? m); [by exists s|]. cbn [orb negb andb].
  rewrite (bind_Ret _ _ _ _ _ (chn_eq s c r Hr)). cbn [v_per view].
  destruct (_ && _); [by exists s|].
  rewrite (bind_Ret _ _ _ _ _ (upd_chn_eq _ s c r Hr)). eexists. split; [reflexivity|].
  by apply (R_upd_chn s A c r (set_m_spPeripCtl (set_m_eMemCtl m (m_spPeripCtl r)) r)).
Qed.

(** Replacing a callback slot is replacing its entry of the view. *)
Lemma cb_slot_view t :
  match cb_slot t with
  | Some (get_slot, set_slot) => forall cb r,
      view_slot t (view r) = Some (view_cb (get_slot r)) /\
      view (set_slot (cb_assign cb (get_slot r)) r) = set_view_slot t (view_cb cb) (view r)
  | None => forall v, view_slot t v = None
  end.
Proof.
  unfold cb_slot, view_slot, set_view_slot. by repeat destruct (_ =? _).
Qed.

Lemma refine_register c cb :
  is_chan c -> refines_op (nu_pdma_callback_register c (Some cb)) (abs_op (OpRegister c cb)).
Proof.
  intros Hc. checked c. pose proof (cb_slot_view (m_eCBType cb)) as Hv.
  destruct (cb_slot (m_eCBType cb)) as [[g f]|]; [|rewrite Hv; by exists s].
  destruct (Hv cb r) as [-> Ev].
  rewrite (bind_Ret _ _ _ _ _ (upd_chn_eq (fun x => f (cb_assign cb (g x)) x) s c r Hr)).
  eexists. split; [reflexivity|]. cbn [snd]. rewrite <-Ev. by apply (R_upd_chn s A c r).
Qed.

Lemma refine_hijack c t cb :
  is_chan c ->
  refines_op (let! r := nu_pdma_callback_hijack c t (Some cb) in ret (fst r)) (abs_op (OpHijack c t cb)).
Proof.
  intros Hc. eapply (refine_checked c _ 0 (match cb_slot t with
    | None => ret 0
    | Some (get_slot, set_slot) =>
        let! r := chn c in
        upd_chn (fun c => set_slot (cb_assign cb (get_slot c)) c) c ;;
        ret (m_pfnCBHandler (get_slot r))
    end)); [done| |intros A HA; cbn [abs_op]; by rewrite HA|].
  - intros s. unfold nu_pdma_callback_hijack. rewrite bind_assoc.
    apply bind_ext. intros [] s'; [done|]. destruct (cb_slot t) as [[g f]|]; [|done].
    rewrite bind_assoc. apply bind_ext. intros r s''. by rewrite bind_assoc.
  - intros s A r HR HA Hr. cbn [abs_op]. rewrite HA. pose proof (cb_slot_view t) as Hv.
    destruct (cb_slot t) as [[g f]|]; [|rewrite Hv; by exists s].
    destruct (Hv cb r) as [-> Ev]. rewrite (bind_Ret _ _ _ _ _ (chn_eq s c r Hr)).
    rewrite (bind_Ret _ _ _ _ _ (upd_chn_eq (fun x => f (cb_assign cb (g x)) x) s c r Hr)).
    eexists. split; [reflexivity|]. cbn [snd]. rewrite <-Ev. by apply (R_upd_chn s A c r).
Qed.

Lemma refine_terminate c :
  is_chan c -> refines_op (nu_pdma_channel_terminate c ;; ret RT_EOK) (abs_op (OpTerminate c)).
Proof.
  intros Hc s A HR. cbn [abs_op fst snd]. pose proof (R_check s A c HR Hc) as Hk.
  destruct (A !! c) as [v|] eqn:EA.
  - destruct Hk as (r & Hr & -> & _). destruct (R_chan s A c _ HR EA) as (_ & Ha & _).
    destruct (terminate_returns s c r (R_wf s A HR) Hc Ha Hr) as (h & E & Hh & _).
    rewrite (bind_Ret _ _ _ _ _ E). eexists. split; [reflexivity|]. apply R_set_phw; [|done].
    rewrite <-(insert_id A c _ EA).
    by apply (R_upd_chn s A c r (set_m_u32IdleTimeout_us 0 r)).
  - exists s. split; [|done]. unfold nu_pdma_channel_terminate.
    by rewrite bind_assoc, (bind_Ret _ _ _ _ _ Hk).
Qed.

Lemma refine_op o : op_ok o -> refines_op (run_op o) (abs_op o).
Proof.
  destruct o; unfold op_ok; cbn; intros Hok;
    eauto using refine_allocate, refine_free, refine_filter_set, refine_filter_get,
      refine_memctl_set, refine_memctl_get, refine_register, refine_hijack, refine_terminate.
Qed.

Lemma refine_ops os s A :
  R s A -> Forall op_ok os ->
  exists s', run_ops os s = Ret (fst (abs_ops os A), s') /\ R s' (snd (abs_ops os A)).
Proof.
  revert s A. induction os as [|o os IH]; intros s A HR Hok; cbn [run_ops abs_ops].
  { by exists s. }
  apply Forall_cons in Hok as [Ho Hok]. destruct (refine_op o Ho s A HR) as (s1 & E1 & HR1).
  destruct (IH s1 _ HR1 Hok) as (s2 & E2 & HR2). rewrite (bind_Ret _ _ _ _ _ E1).
  rewrite (bind_Ret _ _ _ _ _ E2). exists s2.
  destruct (abs_op o A) as [r A1]. cbn [fst snd] in *. by destruct (abs_ops os A1).
Qed.

(** ** The abstract machine never grants a channel twice *)

Lemma lowest_free_free A c : lowest_free A = Some c -> A !! c = None /\ is_chan c.
Proof.
  unfold lowest_free. intros H. apply fmap_Some in H as ([j d] & E & ->). cbn [snd].
  apply list_find_Some in E as (Hj & Hf & _). apply lookup_seqZ in Hj as [-> Hj].
  split; [done|]. chan_consts. lia.
Qed.

Lemma abs_allocate_grants t A :
  let '(c, A') := abs_op (OpAllocate t) A in
  0 <= c -> A !! c = None /\ is_Some (A' !! c).
Proof.
  cbn [abs_op]. destruct (default_memctl _) as [m|]; [|done].
  destruct (lowest_free A) as [c|] eqn:E; [|done]. intros _. split.
  - by apply lowest_free_free.
  - rewrite lookup_insert_eq. by eexists.
Qed.

(** A channel stays with its owner until it is freed. *)
Lemma abs_op_keeps o A c :
  o <> OpFree c -> is_Some (A !! c) -> is_Some (snd (abs_op o A) !! c).
Proof.
  intros Ho Hc.
  assert (Hi : forall d v, is_Some ((<[d := v]> A : chans) !! c))
    by (intros; by apply lookup_insert_is_Some'; right).
  destruct o; cbn [abs_op]; repeat case_match; cbn [snd]; try done.
  rewrite lookup_delete_ne; [done|]. by intros ->.
Qed.

Lemma abs_ops_keeps os A c :
  OpFree c ∉ os -> is_Some (A !! c) -> is_Some (snd (abs_ops os A) !! c).
Proof.
  revert A. induction os as [|o os IH]; intros A Hno Hc; [done|].
  apply not_elem_of_cons in Hno as [Ho Hno]. cbn [abs_ops].
  pose proof (abs_op_keeps o A c (not_eq_sym Ho) Hc) as H1.
  destruct (abs_op o A) as [r A1]. cbn [snd] in *. specialize (IH A1 Hno H1).
  by destruct (abs_ops os A1).
Qed.

Lemma abs_ops_app os os' A :
  abs_ops (os ++ os') A =
  (fst (abs_ops os A) ++ fst (abs_ops os' (snd (abs_ops os A))),
   snd (abs_ops os' (snd (abs_ops os A)))).
Proof.
  revert A. induction os as [|o os IH]; intros A; cbn [abs_ops app fst snd]; [by destruct (abs_ops os' A)|].
  destruct (abs_op o A) as [r A1]. rewrite IH. by destruct (abs_ops os A1).
Qed.

Lemma abs_ops_length os A : length (fst (abs_ops os A)) = length os.
Proof.
  revert A. induction os as [|o os IH]; intros A; cbn [abs_ops]; [done|].
  destruct (abs_op o A) as [r A1]. specialize (IH A1). destruct (abs_ops os A1).
  cbn in *. congruence.
Qed.

(** ** Properties *)

(** C5: the driver refines the abstract machine.  From related states, any sequence
    of channel operations on existing channel numbers runs to completion, returns
    exactly the abstract results, one per operation, and ends in related states. *)
Theorem channel_ops_refine os s A :
  R s A -> Forall op_ok os ->
  exists s', run_ops os s = Ret (fst (abs_ops os A), s') /\ R s' (snd (abs_ops os A)).
Proof. apply refine_ops. Qed.

(** Exclusive ownership.  In any sequence of channel operations, a channel
    number that an allocation returned is not returned by a later allocation
    unless it was freed in between. *)
Theorem no_double_grant os1 t1 os2 t2 s A :
  R s A -> Forall op_ok (os1 ++ OpAllocate t1 :: os2 ++ [OpAllocate t2]) ->
  exists rs1 c1 rs2 c2 s',
    run_ops (os1 ++ OpAllocate t1 :: os2 ++ [OpAllocate t2]) s =
      Ret (rs1 ++ c1 :: rs2 ++ [c2], s') /\
    length rs1 = length os1 /\ length rs2 = length os2 /\
    (0 <= c1 -> OpFree c1 ∉ os2 -> c2 <> c1).
Proof.
  intros HR Hok. destruct (refine_ops _ s A HR Hok) as (s' & E & _). revert E.
  rewrite abs_ops_app. cbn [fst]. set (A1 := snd (abs_ops os1 A)). cbn [abs_ops].
  pose proof (abs_allocate_grants t1 A1) as H1. destruct (abs_op (OpAllocate t1) A1) as [c1 A2].
  rewrite abs_ops_app. cbn [fst abs_ops]. set (A3 := snd (abs_ops os2 A2)).
  pose proof (abs_allocate_grants t2 A3) as H2. destruct (abs_op (OpAllocate t2) A3) as [c2 A4].
  intros E. eexists _, c1, _, c2, s'. split; [exact E|]. rewrite !abs_ops_length.
  split_and!; [done..|]. intros Hc1 Hno ->. destruct (H1 Hc1) as [_ Hs].
  destruct (H2 Hc1) as [Hn _]. apply (abs_ops_keeps os2 A2 c1 Hno) in Hs.
  fold A3 in Hs. rewrite Hn in Hs. by destruct Hs.
Qed.
End refinement.

(** ** Witnesses *)

Lemma R_board_boot : R board_boot ∅.
Proof.
  assert (H : forall c, allocated board_boot c = false).
  { intros c. unfold allocated. cbn. unfold znth. destruct (_ <? 0); [done|].
    destruct (Z.to_nat (c / PDMA_CH_MAX)) as [|[|]]; [apply Z.testbit_0_l..|done]. }
  split; [apply wf_board_boot|done|]. intros c. rewrite lookup_empty. unfold abs_chan.
  by rewrite H.
Qed.

(** A UART takes two channels, sets a filter, frees one and takes another. *)
Definition board_ops : list chan_op :=
  [OpAllocate PDMA_UART0_TX; OpFilterSet 0 2; OpAllocate PDMA_UART0_RX; OpFree 0].

Lemma channel_ops_refine_witness :
  exists s', run_ops (H := board_hw) board_ops board_boot = Ret ([0; 0; 1; 0], s').
Proof.
  destruct (@channel_ops_refine board_hw board_hw_spec board_ops board_boot ∅ R_board_boot
    ltac:(apply (bool_decide_unpack _); vm_compute; exact I)) as (s' & E & _).
  exists s'. exact E.
Defined.

Lemma no_double_grant_witness :
  exists rs1 c1 rs2 c2 s',
    run_ops (H := board_hw) (board_ops ++ OpAllocate PDMA_SPI0_TX :: [OpFilterGet 0] ++
      [OpAllocate PDMA_SPI0_RX]) board_boot = Ret (rs1 ++ c1 :: rs2 ++ [c2], s') /\
    length rs1 = 4%nat /\ length rs2 = 1%nat /\
    (0 <= c1 -> OpFree c1 ∉ [OpFilterGet 0] -> c2 <> c1).
Proof.
  exact (@no_double_grant board_hw board_hw_spec board_ops PDMA_SPI0_TX [OpFilterGet 0] PDMA_SPI0_RX
    board_boot ∅ R_board_boot ltac:(apply (bool_decide_unpack _); vm_compute; exact I)).
Defined.
