(* ===== verification/PdmaDesc.v ===== *)
(** * PDMA descriptors

    What a descriptor word means to the module ([decode]) and what
    [nu_pdma_desc_setup] writes; the checks it makes first. *)

From Stdlib Require Import ZArith Lia Bool.
From stdpp Require Import base tactics numbers list option gmap.
From S2P Require Import Prelude BitUtil PdmaRegs Pdma PdmaFacts PdmaAlloc.

Open Scope Z_scope.

(** ** The meaning of a descriptor *)

(** A transfer: [x_count] elements of [x_width] bytes from [x_src] to [x_dst], each
    address advancing or fixed; [x_burst] the request type; a silent descriptor
    raises no transfer-done interrupt; [x_next] is the next table, 0 at the end. *)
Record xfer : Type := mkX {
  x_src : Z; x_src_inc : bool;
  x_dst : Z; x_dst_inc : bool;
  x_width : Z; x_count : Z;
  x_burst : Z; x_silent : bool; x_next : Z
}.

Definition dsct_count (d : DSCT_T) : Z :=
  Z.shiftr (Z.land (CTL d) PDMA_DSCT_CTL_TXCNT_Msk) PDMA_DSCT_CTL_TXCNT_Pos + 1.

Definition dsct_mode (d : DSCT_T) : Z := Z.land (CTL d) PDMA_DSCT_CTL_OPMODE_Msk.

Definition decode (d : DSCT_T) : xfer :=
  mkX (SA d) (Z.land (CTL d) PDMA_DSCT_CTL_SAINC_Msk =? PDMA_SAR_INC)
      (DA d) (Z.land (CTL d) PDMA_DSCT_CTL_DAINC_Msk =? PDMA_DAR_INC)
      (bit (Z.shiftr (Z.land (CTL d) PDMA_DSCT_CTL_TXWIDTH_Msk) PDMA_DSCT_CTL_TXWIDTH_Pos))
      (dsct_count d)
      (Z.land (CTL d) (Z.lor PDMA_DSCT_CTL_TXTYPE_Msk PDMA_DSCT_CTL_BURSIZE_Msk))
      (tst (CTL d) PDMA_DSCT_CTL_TBINTDIS_Msk)
      (if dsct_mode d =? PDMA_OP_SCATTER then NEXT d else 0).

(** The element count a request asks for; the field stores the count less one, so
    0 stands for the whole range. *)
Definition eff_count (cnt : Z) : Z := if cnt =? 0 then NU_PDMA_MAX_TXCNT else cnt.

Definition src_inc (m : Z) : bool :=
  negb ((m =? eMemCtl_SrcFix_DstFix) || (m =? eMemCtl_SrcFix_DstInc)).
Definition dst_inc (m : Z) : bool :=
  negb ((m =? eMemCtl_SrcFix_DstFix) || (m =? eMemCtl_SrcInc_DstFix)).

Definition width_ok (w : Z) : bool := (w =? 8) || (w =? 16) || (w =? 32).

Definition req_burst (per : Z) : Z :=
  if per =? PDMA_MEM then Z.lor PDMA_REQ_BURST PDMA_BURST_32 else PDMA_REQ_SINGLE.

(** ** The control word *)

Lemma lor_hi_land_lo x k m :
  0 <= x -> 0 <= m < 2 ^ 16 -> Z.land (Z.lor (Z.shiftl x 16) k) m = Z.land k m.
Proof.
  intros Hx Hm. apply Z.bits_inj'; intros i Hi. rewrite !Z.land_spec, Z.lor_spec, Z.shiftl_spec by done.
  destruct (Z.lt_ge_cases i 16).
  - by rewrite (Z.testbit_neg_r x) by lia.
  - rewrite <-(Z.mod_small m (2 ^ 16)) by done. rewrite testbit_mod_pow2 by lia.
    destruct (Z.ltb_spec i 16); [lia|]. by rewrite !andb_false_r.
Qed.

Lemma lor_hi_count x k :
  0 <= x < 2 ^ 16 -> 0 <= k < 2 ^ 16 ->
  Z.shiftr (Z.land (Z.lor (Z.shiftl x 16) k) PDMA_DSCT_CTL_TXCNT_Msk) PDMA_DSCT_CTL_TXCNT_Pos = x.
Proof.
  intros Hx Hk. unfold PDMA_DSCT_CTL_TXCNT_Msk, PDMA_DSCT_CTL_TXCNT_Pos.
  change 0xffff with (Z.ones 16). apply Z.bits_inj'; intros i Hi.
  rewrite <-(Z.mod_small k (2 ^ 16)), <-(Z.mod_small x (2 ^ 16)) by done.
  rewrite Z.shiftr_spec, Z.land_spec, Z.lor_spec, !Z.shiftl_spec, testbit_ones by lia.
  rewrite !testbit_mod_pow2 by lia. replace (i + 16 - 16) with i by lia.
  destruct (Z.ltb_spec i 16), (Z.ltb_spec (i + 16) 16); try lia;
    by rewrite ?andb_true_r, ?andb_false_r, ?orb_false_r, ?orb_true_r.
Qed.

(** The part of the control word below the count. *)
Definition desc_low (m per w next silent : Z) : Z := desc_ctl m per w 1 next silent.

Lemma land_high_not3 x : 0 <= x < 2 ^ 16 ->
  Z.land (Z.shiftl x 16) (not32 PDMA_DSCT_CTL_OPMODE_Msk) = Z.shiftl x 16.
Proof.
  intros Hx. unfold PDMA_DSCT_CTL_OPMODE_Msk. change 3 with (Z.ones 2).
  rewrite <-(Z.mod_small x (2 ^ 16)) by done. apply Z.bits_inj'; intros i Hi.
  rewrite Z.land_spec, Z.shiftl_spec, testbit_not32, testbit_ones by lia.
  destruct (Z.lt_ge_cases i 16); [by rewrite Z.testbit_neg_r by lia|].
  rewrite testbit_mod_pow2 by lia.
  destruct (Z.ltb_spec (i - 16) 16), (Z.ltb_spec i 32), (Z.ltb_spec i 2); try lia;
    cbn [andb negb]; by rewrite ?andb_true_r.
Qed.

Lemma desc_ctl_split m per w cnt next silent :
  0 <= cnt <= NU_PDMA_MAX_TXCNT ->
  desc_ctl m per w cnt next silent =
  Z.lor (Z.shiftl (eff_count cnt - 1) 16) (desc_low m per w next silent).
Proof.
  intros Hc. unfold desc_low, desc_ctl.
  destruct (nu_pdma_channel_memctrl_fill m) as [a b].
  assert (Hs : shl32 (cnt - 1) PDMA_DSCT_CTL_TXCNT_Pos = Z.shiftl (eff_count cnt - 1) 16).
  { unfold eff_count, PDMA_DSCT_CTL_TXCNT_Pos, NU_PDMA_MAX_TXCNT in *.
    destruct (Z.eqb_spec cnt 0) as [->|]; [done|]. unfold shl32. apply u32_small.
    unfold is_u32. rewrite Z.shiftl_mul_pow2 by lia. lia. }
  assert (Hx : 0 <= eff_count cnt - 1 < 2 ^ 16).
  { unfold eff_count, NU_PDMA_MAX_TXCNT in *. destruct (Z.eqb_spec cnt 0); lia. }
  rewrite Hs. change (shl32 (1 - 1) PDMA_DSCT_CTL_TXCNT_Pos) with 0. 
  match goal with |- context [Z.lor 0 ?x] => rewrite (Z.lor_0_l x) end.
  unfold field_set. pose proof (land_high_not3 _ Hx) as Hn.
  destruct (per =? PDMA_MEM), (negb (next =? 0)), (negb (silent =? 0));
    rewrite ?Z.land_lor_distr_l, ?Hn, !Z.lor_assoc; done.
Qed.

Lemma field_set_mode x : Z.land (field_set x PDMA_DSCT_CTL_OPMODE_Msk PDMA_OP_SCATTER) PDMA_DSCT_CTL_OPMODE_Msk
  = PDMA_OP_SCATTER.
Proof.
  unfold field_set. rewrite Z.land_lor_distr_l, <-Z.land_assoc.
  change (Z.land (not32 PDMA_DSCT_CTL_OPMODE_Msk) PDMA_DSCT_CTL_OPMODE_Msk) with 0.
  by rewrite Z.land_0_r.
Qed.

(** The fields of the low part, case by case. *)
Lemma desc_low_fields m per w next silent :
  width_ok w = true ->
  let k := desc_low m per w next silent in
  0 <= k < 2 ^ 16 /\
  (Z.land k PDMA_DSCT_CTL_SAINC_Msk =? PDMA_SAR_INC) = src_inc m /\
  (Z.land k PDMA_DSCT_CTL_DAINC_Msk =? PDMA_DAR_INC) = dst_inc m /\
  bit (Z.shiftr (Z.land k PDMA_DSCT_CTL_TXWIDTH_Msk) PDMA_DSCT_CTL_TXWIDTH_Pos) = w / 8 /\
  Z.land k (Z.lor PDMA_DSCT_CTL_TXTYPE_Msk PDMA_DSCT_CTL_BURSIZE_Msk) = req_burst per /\
  tst k PDMA_DSCT_CTL_TBINTDIS_Msk = negb (silent =? 0) /\
  Z.land k PDMA_DSCT_CTL_OPMODE_Msk = (if next =? 0 then PDMA_OP_BASIC else PDMA_OP_SCATTER).
Proof.
  intros Hw. unfold desc_low, desc_ctl, nu_pdma_channel_memctrl_fill, src_inc, dst_inc, req_burst.
  assert (Hw' : w = 8 \/ w = 16 \/ w = 32) by (unfold width_ok in Hw; lia).
  destruct (per =? PDMA_MEM), (next =? 0), (silent =? 0);
  unfold eMemCtl_SrcFix_DstFix, eMemCtl_SrcFix_DstInc, eMemCtl_SrcInc_DstFix, eMemCtl_SrcInc_DstInc in *;
    (destruct (Z.eqb_spec m 0); [subst m|destruct (Z.eqb_spec m 1); [subst m|
      destruct (Z.eqb_spec m 2); [subst m|destruct (m =? 3)]]]);
    destruct Hw' as [-> | [-> | ->]]; vm_compute; repeat split; done.
Qed.

(** The transfer a request describes. *)
Definition request (m per w src dst cnt next silent : Z) : xfer :=
  mkX src (src_inc m) dst (dst_inc m) (w / 8) (eff_count cnt) (req_burst per)
    (negb (silent =? 0)) next.

Lemma decode_desc m per w src dst cnt next silent :
  width_ok w = true -> 0 <= cnt <= NU_PDMA_MAX_TXCNT ->
  let d := mkDSCT (desc_ctl m per w cnt next silent) src dst (if negb (next =? 0) then next else 0) in
  decode d = request m per w src dst cnt next silent /\
  dsct_mode d = (if next =? 0 then PDMA_OP_BASIC else PDMA_OP_SCATTER).
Proof.
  intros Hw Hc d. subst d. unfold decode, request, dsct_mode, dsct_count. cbn [SA DA CTL NEXT].
  rewrite desc_ctl_split by done.
  destruct (desc_low_fields m per w next silent Hw) as (Hk & H1 & H2 & H3 & H4 & H5 & H6).
  set (k := desc_low m per w next silent) in *.
  assert (Hx : 0 <= eff_count cnt - 1 < 2 ^ 16).
  { unfold eff_count, NU_PDMA_MAX_TXCNT in *. destruct (Z.eqb_spec cnt 0); lia. }
  unfold tst. rewrite lor_hi_count, !lor_hi_land_lo by (lia || by (vm_compute; done)).
  fold (tst k PDMA_DSCT_CTL_TBINTDIS_Msk). rewrite H1, H2, H3, H4, H5, H6.
  split; [|done]. f_equal; [lia|]. destruct (Z.eqb_spec next 0) as [->|]; done.
Qed.

Lemma desc_ctl_u32 m per w cnt next silent :
  width_ok w = true -> 0 <= cnt <= NU_PDMA_MAX_TXCNT -> is_u32 (desc_ctl m per w cnt next silent).
Proof.
  intros Hw Hc. rewrite desc_ctl_split by done.
  destruct (desc_low_fields m per w next silent Hw) as (Hk & _).
  unfold eff_count, NU_PDMA_MAX_TXCNT in *. apply lor_u32.
  - unfold is_u32. rewrite Z.shiftl_mul_pow2 by lia. destruct (Z.eqb_spec cnt 0); lia.
  - unfold is_u32. lia.
Qed.

(** ** Setting a descriptor up *)

Definition setup_ok (s : drv) (c desc w src dst cnt : Z) : bool :=
  negb (desc =? 0) && allocated s c && width_ok w &&
  (src mod (w / 8) =? 0) && (dst mod (w / 8) =? 0) && (u32 cnt <=? NU_PDMA_MAX_TXCNT).

(** A descriptor store. *)
Definition put_dsct (a : Z) (d : DSCT_T) (s : drv) : drv :=
  set_phw (mkHw (hw_regs (phw s)) (<[a := d]> (hw_dsct (phw s)))) s.

(** The record stored for a request by channel record [r]. *)
Definition request_desc (r : nu_pdma_chn) (w src dst cnt next silent : Z) : DSCT_T :=
  mkDSCT (desc_ctl (m_eMemCtl (m_spPeripCtl r)) (m_u32Peripheral (m_spPeripCtl r)) w cnt next silent)
    src dst (if negb (next =? 0) then next else 0).

Section desc.
Context `{HW : PdmaHw} `{HS : !PdmaHwSpec}.

Lemma setup_refused s c desc w src dst cnt next silent :
  wf s -> is_chan c -> setup_ok s c desc w src dst cnt = false ->
  nu_pdma_desc_setup c desc w src dst cnt next silent s = Ret (- RT_EINVAL, s).
Proof.
  intros Hs Hc Hno. unfold nu_pdma_desc_setup, setup_ok, width_ok in *.
  destruct (desc =? 0); [done|]. rewrite (bind_Ret _ _ _ _ _ (check_eq s c Hs Hc)).
  destruct (allocated s c); [|done]. cbn [negb andb] in *.
  destruct (_ || _ || _); [|done]. cbn [negb andb] in *.
  destruct (src mod (w / 8) =? 0), (dst mod (w / 8) =? 0); try done. cbn [negb andb orb] in *.
  rewrite Z.leb_antisym in Hno. by destruct (NU_PDMA_MAX_TXCNT <? u32 cnt).
Qed.

Lemma setup_accepted s c desc w src dst cnt next silent r :
  wf s -> is_chan c -> setup_ok s c desc w src dst cnt = true ->
  znth (nu_pdma_chn_arr s) c = Some r -> is_Some (hw_dsct (phw s) !! desc) ->
  nu_pdma_desc_setup c desc w src dst cnt next silent s =
  Ret (RT_EOK, put_dsct desc (request_desc r w src dst cnt next silent) s).
Proof.
  intros Hs Hc Hok Hr [d0 Hd]. unfold nu_pdma_desc_setup, setup_ok, width_ok in *.
  destruct (desc =? 0); [done|]. rewrite (bind_Ret _ _ _ _ _ (check_eq s c Hs Hc)).
  destruct (allocated s c); [|done]. cbn [negb andb] in *.
  destruct (_ || _ || _); [|done]. cbn [negb andb] in *.
  destruct (src mod (w / 8) =? 0), (dst mod (w / 8) =? 0); try done. cbn [negb andb orb] in *.
  rewrite Z.leb_antisym in Hok. destruct (NU_PDMA_MAX_TXCNT <? u32 cnt); [done|].
  rewrite (bind_Ret _ _ _ _ _ (chn_eq s c r Hr)).
  by rewrite (bind_Ret _ _ _ _ _ (on_hw_eq _ s _ _ (upd_dsct_eq _ desc _ d0 Hd))).
Qed.

Lemma u32_small_count cnt :
  - 2 ^ 31 <= cnt < 2 ^ 31 -> u32 cnt <= NU_PDMA_MAX_TXCNT -> 0 <= cnt <= NU_PDMA_MAX_TXCNT.
Proof.
  unfold u32, NU_PDMA_MAX_TXCNT. intros Hc Hu. Z.div_mod_to_equations. lia.
Qed.

(** Setting a descriptor up.  A NULL descriptor, a free channel, a width other
    than 8, 16 or 32, an address not aligned to the width, or a count above 65536 is
    refused with [- RT_EINVAL] and no change.  Otherwise exactly that descriptor is
    written, and the module reads it as the transfer asked for: the addresses, the
    increment modes of the channel, the width, the count (0 standing for 65536), the
    burst of the request source, the silence, and the next table - scatter-gather
    mode exactly when there is one. *)
Theorem desc_setup_spec s c desc w src dst cnt next silent r :
  wf s -> is_chan c -> - 2 ^ 31 <= cnt < 2 ^ 31 ->
  znth (nu_pdma_chn_arr s) c = Some r -> is_Some (hw_dsct (phw s) !! desc) ->
  if setup_ok s c desc w src dst cnt then
    exists d,
      nu_pdma_desc_setup c desc w src dst cnt next silent s = Ret (RT_EOK, put_dsct desc d s) /\
      decode d = request (m_eMemCtl (m_spPeripCtl r)) (m_u32Peripheral (m_spPeripCtl r))
                   w src dst cnt next silent /\
      dsct_mode d = (if next =? 0 then PDMA_OP_BASIC else PDMA_OP_SCATTER)
  else nu_pdma_desc_setup c desc w src dst cnt next silent s = Ret (- RT_EINVAL, s).
Proof.
  intros Hs Hc Hcnt Hr Hd. destruct (setup_ok s c desc w src dst cnt) eqn:Hok.
  - eexists. split; [by apply (setup_accepted s c desc w src dst cnt next silent r)|].
    unfold setup_ok in Hok. rewrite !andb_true_iff, Z.leb_le in Hok.
    destruct Hok as [[[[[_ _] Hw] _] _] Hu]. apply decode_desc; [done|]. by apply u32_small_count.
  - by apply setup_refused.
Qed.
End desc.

(** ** Witnesses *)

(** The board with one memory-to-memory channel. *)
Definition board_m2m : drv :=
  match nu_pdma_channel_allocate (HW := board_hw) PDMA_MEM board_boot with
  | Ret (_, s) => s
  | _ => board_boot
  end.

Lemma wf_board_m2m : wf board_m2m.
Proof.
  unfold board_m2m.
  by destruct (@allocate_total board_hw board_hw_spec board_boot PDMA_MEM wf_board_boot)
    as (c & s' & -> & Hw & Hi).
Qed.

Definition m2m_chn : nu_pdma_chn := set_m_spPeripCtl (mkPeriph PDMA_MEM eMemCtl_SrcInc_DstInc) chn_zero.

Lemma desc_setup_spec_witness :
  exists d,
    nu_pdma_desc_setup 0 0x40080000 32 0x80001000 0x80002000 100 0 0 board_m2m =
      Ret (RT_EOK, put_dsct 0x40080000 d board_m2m) /\
    decode d = request eMemCtl_SrcInc_DstInc PDMA_MEM 32 0x80001000 0x80002000 100 0 0 /\
    dsct_mode d = PDMA_OP_BASIC.
Proof.
  assert (Hr : znth (nu_pdma_chn_arr board_m2m) 0 = Some m2m_chn) by (vm_compute; reflexivity).
  assert (Hd : is_Some (hw_dsct (phw board_m2m) !! 0x40080000))
    by (apply (bool_decide_unpack _); vm_compute; exact I).
  assert (Hok : setup_ok board_m2m 0 0x40080000 32 0x80001000 0x80002000 100 = true)
    by (vm_compute; reflexivity).
  pose proof (desc_setup_spec board_m2m 0 0x40080000 32 0x80001000 0x80002000 100 0 0 m2m_chn
    wf_board_m2m ltac:(chan_consts; lia) ltac:(lia) Hr Hd) as H.
  rewrite Hok in H. exact H.
Defined.
