(* ===== verification/PdmaTimeout.v ===== *)
(** * The idle time-out of a PDMA channel

    [nu_pdma_timeout_set]: what it programs, by cases on the channel and on the
    time. *)

From Stdlib Require Import ZArith Lia Bool.
From stdpp Require Import base tactics numbers list option gmap.
From S2P Require Import Prelude BitUtil PdmaRegs Pdma PdmaFacts PdmaAlloc.

Open Scope Z_scope.

(** ** Operations on the registers of one module *)

(** [m] applies [f] to the registers of the module at [b] and does nothing else. *)
Definition reg_run (b : Z) (f : PDMA_T -> PDMA_T) (m : M pdma_hw unit) : Prop := forall h p,
  hw_regs h !! b = Some p -> rows_ok p ->
  m h = Ret (tt, mkHw (<[b := f p]> (hw_regs h)) (hw_dsct h)).

Lemma reg_run_upd b f : reg_run b f (upd_reg f b).
Proof. intros h p Hp _. by apply upd_reg_eq. Qed.

Lemma reg_run_seq b f g m k :
  reg_run b f m -> reg_run b g k -> (forall p, rows_ok p -> rows_ok (f p)) ->
  reg_run b (fun p => g (f p)) (m ;; k).
Proof.
  intros Hm Hk Hf h p Hp Hrow. rewrite (bind_Ret _ _ _ _ _ (Hm h p Hp Hrow)).
  rewrite (Hk (mkHw _ _) (f p)); [cbn; by rewrite insert_insert_eq|apply lookup_insert_eq|auto].
Qed.

(** On the driver state. *)
Lemma on_reg_run i f m s :
  0 <= i < PDMA_CNT -> reg_run (module_base i) f m -> wf s -> (forall p, rows_ok p -> rows_ok (f p)) ->
  exists p, hw_regs (phw s) !! module_base i = Some p /\ rows_ok p /\
    let h := mkHw (<[module_base i := f p]> (hw_regs (phw s))) (hw_dsct (phw s)) in
    on_hw m s = Ret (tt, set_phw h s) /\ wf_hw h.
Proof.
  intros Hi Hm Hs Hf. destruct (wf_reg _ (wf_phw s Hs) i Hi) as (p & Hp & Hrow).
  exists p. split; [done|]. split; [done|]. split.
  - by apply on_hw_eq, Hm.
  - apply wf_hw_upd_reg; [by apply wf_phw|done|auto].
Qed.

(** ** The register programming *)

Definition enable_timeout_int (k : Z) (p : PDMA_T) : PDMA_T :=
  set_TOUTIEN (Z.lor (TOUTIEN p) (bit k)) p.
Definition clear_timeout (k : Z) (p : PDMA_T) : PDMA_T :=
  set_TOUTEN (Z.land (TOUTEN p) (not32 (bit k))) p.
Definition clear_timeout_int (k : Z) (p : PDMA_T) : PDMA_T :=
  set_TOUTIEN (Z.land (TOUTIEN p) (not32 (bit k))) p.
Definition put_prescaler (k d : Z) (p : PDMA_T) : PDMA_T :=
  set_TOUTPSC (field_set (TOUTPSC p) (shl32 (Z.ones 3) (4 * k)) (shl32 d (4 * k))) p.
Definition put_counter (k cnt : Z) (p : PDMA_T) : PDMA_T :=
  set_TOUTEN (Z.lor (TOUTEN p) (bit k))
    (set_TOC (match znth (TOC p) (k / 2) with
              | Some v => zupd (TOC p) (k / 2)
                  (field_set v (shl32 (Z.ones 16) (k mod 2 * 16)) (shl32 cnt (k mod 2 * 16)))
              | None => TOC p
              end) p).

Lemma reg_run_enable_int b k : reg_run b (enable_timeout_int k) (PDMA_EnableInt b k PDMA_INT_TIMEOUT).
Proof.
  intros h p Hp _. unfold PDMA_EnableInt. change (tst PDMA_INT_TIMEOUT PDMA_INT_TRANS_DONE) with false.
  change (tst PDMA_INT_TIMEOUT PDMA_INT_TEMPTY) with false.
  change (tst PDMA_INT_TIMEOUT PDMA_INT_TIMEOUT) with true.
  cbn iota. rewrite !bind_ret_l. by apply (upd_reg_eq (enable_timeout_int k)).
Qed.

Lemma reg_run_disable_int b k : reg_run b (clear_timeout_int k) (PDMA_DisableInt b k PDMA_INT_TIMEOUT).
Proof.
  intros h p Hp _. unfold PDMA_DisableInt. change (tst PDMA_INT_TIMEOUT PDMA_INT_TRANS_DONE) with false.
  change (tst PDMA_INT_TIMEOUT PDMA_INT_TEMPTY) with false.
  change (tst PDMA_INT_TIMEOUT PDMA_INT_TIMEOUT) with true.
  cbn iota. rewrite !bind_ret_l. by apply (upd_reg_eq (clear_timeout_int k)).
Qed.

Lemma reg_run_disable b k : reg_run b (clear_timeout k) (PDMA_DisableTimeout b (bit k)).
Proof. apply reg_run_upd. Qed.

Lemma reg_run_counter b k cnt :
  0 <= k < PDMA_CH_MAX -> reg_run b (put_counter k cnt) (PDMA_SetTimeOut b k 1 cnt).
Proof.
  intros Hk h p Hp [Hrow _]. unfold PDMA_SetTimeOut.
  destruct (Z.ltb_spec k PDMA_CH_MAX); [|lia]. cbn [Z.eqb negb].
  rewrite (bind_Ret _ _ _ _ _ (reg_eq TOC b h p Hp)).
  destruct (row_lookup (TOC p) (k / 2) 5 Hrow) as [v Hv].
  { chan_consts. Z.div_mod_to_equations. lia. }
  rewrite (bind_deref _ v) by done. rewrite (bind_Ret _ _ _ _ _ (upd_reg_eq _ _ _ p Hp)).
  erewrite upd_reg_eq by apply lookup_insert_eq. cbn. rewrite insert_insert_eq.
  unfold put_counter. by rewrite Hv.
Qed.

Lemma rows_put_counter k cnt p : rows_ok p -> rows_ok (put_counter k cnt p).
Proof.
  intros [H1 H2]. split; [|done]. cbn. destruct (znth _ _); [by rewrite length_zupd|done].
Qed.

(** The prescaler field of channels 0 to 7; from 8 on the code shifts by 32 or more. *)
Lemma prescaler_eq s i k d :
  0 <= k < PDMA_CH_MAX ->
  set_prescaler (module_base i) k d s =
  if k <? 8 then on_hw (upd_reg (put_prescaler k d) (module_base i)) s else Undef.
Proof.
  intros Hk. unfold set_prescaler, shl_ul, PDMA_TOUTPSC_TOUTPSC1_Pos. destruct (Z.ltb_spec k 8).
  - destruct (Z.ltb_spec (4 * k) 32); [|lia]. by rewrite !bind_ret_l.
  - by destruct (Z.ltb_spec (4 * k) 32); [lia|].
Qed.

(** Microseconds per 256 ticks of SYSCLK1: never zero. *)
Definition us_per_tick (s : drv) : Z := if Z.land (CLKSEL0 s) 0x10 =? 0 then 10 else 1.

(** The prescaler and counter for a time: the eight prescaler steps saturate. *)
Definition timeout_ticks (s : drv) (t : Z) : Z := u32 t / us_per_tick s.
Definition timeout_div (s : drv) (t : Z) : Z := Z.min 7 (timeout_ticks s t / 65536).
Definition timeout_cnt (s : drv) (t : Z) : Z :=
  if 7 <? timeout_ticks s t / 65536 then 65535 else timeout_ticks s t mod 65536.

Definition program_timeout (k d cnt : Z) (p : PDMA_T) : PDMA_T :=
  put_counter k cnt (put_prescaler k d (enable_timeout_int k (clear_timeout k p))).

Definition set_idle (c t : Z) (r : nu_pdma_chn) (s : drv) : drv :=
  set_nu_pdma_chn_arr (zupd (nu_pdma_chn_arr s) c (set_m_u32IdleTimeout_us (u32 t) r)) s.

Lemma clk_spec s :
  exists f, CLK_GetSYSCLK1Freq s = Ret (f, s) /\ f / 256 <> 0 /\ 1000000 / (f / 256) = us_per_tick s.
Proof.
  unfold CLK_GetSYSCLK1Freq, us_per_tick. rewrite bind_gets.
  eexists. split; [reflexivity|]. by destruct (Z.land (CLKSEL0 s) 0x10 =? 0).
Qed.

Lemma div_ul_eq x y s : y <> 0 -> div_ul x y s = Ret (x / y, s).
Proof. intros H. unfold div_ul. by destruct (Z.eqb_spec y 0). Qed.

(** Channels 0 to 7, a time other than 0. *)
Lemma timeout_returns s c t r :
  wf s -> is_chan c -> allocated s c = true -> znth (nu_pdma_chn_arr s) c = Some r ->
  t <> 0 -> c mod PDMA_CH_MAX < 8 ->
  exists p, hw_regs (phw s) !! module_base (c / PDMA_CH_MAX) = Some p /\ rows_ok p /\
    let h := mkHw (<[module_base (c / PDMA_CH_MAX) :=
               program_timeout (c mod PDMA_CH_MAX) (timeout_div s t) (timeout_cnt s t) p]>
               (hw_regs (phw s))) (hw_dsct (phw s)) in
    nu_pdma_timeout_set c t s = Ret (RT_EOK, set_phw h (set_idle c t r s)) /\ wf_hw h.
Proof.
  intros Hs Hc Ha Hr Ht Hk8. destruct (chan_parts c Hc) as [Hi Hk].
  set (b := module_base (c / PDMA_CH_MAX)). set (k := c mod PDMA_CH_MAX) in *.
  assert (Hrun : reg_run b (program_timeout k (timeout_div s t) (timeout_cnt s t))
    (PDMA_DisableTimeout b (bit k) ;; PDMA_EnableInt b k PDMA_INT_TIMEOUT ;;
     upd_reg (put_prescaler k (timeout_div s t)) b ;; PDMA_SetTimeOut b k 1 (timeout_cnt s t))).
  { unfold program_timeout.
    apply (reg_run_seq b (clear_timeout k)
      (fun p => put_counter k _ (put_prescaler k _ (enable_timeout_int k p))));
      [apply reg_run_disable| |by intros ? []].
    apply (reg_run_seq b (enable_timeout_int k) (fun p => put_counter k _ (put_prescaler k _ p)));
      [apply reg_run_enable_int| |by intros ? []].
    apply (reg_run_seq b (put_prescaler k _) (put_counter k _));
      [apply reg_run_upd|by apply reg_run_counter|by intros ? []]. }
  assert (Hrows : forall p, rows_ok p -> rows_ok (program_timeout k (timeout_div s t) (timeout_cnt s t) p)).
  { intros p Hp. apply rows_put_counter. by destruct Hp. }
  set (s1 := set_idle c t r s).
  assert (Hs1 : wf s1) by (apply wf_set_chn; [done|by rewrite length_zupd; apply wf_chns]).
  destruct (on_reg_run (c / PDMA_CH_MAX) _ _ s1 Hi Hrun Hs1 Hrows) as (p & Hp & Hrow & E & Hw).
  exists p. split; [done|]. split; [done|]. split; [|done]. unfold nu_pdma_timeout_set.
  rewrite (bind_Ret _ _ _ _ _ (check_eq s c Hs Hc)), Ha. cbn [negb].
  rewrite chan_base, chan_mod_chidx by done. fold b k.
  rewrite (bind_Ret _ _ _ _ _ (upd_chn_eq _ s c r Hr)). fold (set_idle c t r s). fold s1.
  destruct (Z.eqb_spec t 0); [done|]. cbn [negb].
  destruct (clk_spec s1) as (f & Ef & Hf & Hu). rewrite (bind_Ret _ _ _ _ _ Ef).
  rewrite (bind_Ret _ _ _ _ _ (div_ul_eq _ _ s1 Hf)), Hu.
  assert (Hu0 : us_per_tick s1 <> 0) by (unfold us_per_tick; by destruct (_ =? 0)).
  rewrite (bind_Ret _ _ _ _ _ (div_ul_eq _ _ s1 Hu0)).
  change (u32 t / us_per_tick s1) with (timeout_ticks s t).
  assert ((if 7 <? timeout_ticks s t / 65536 then 7 else timeout_ticks s t / 65536) = timeout_div s t) as ->.
  { unfold timeout_div. destruct (Z.ltb_spec 7 (timeout_ticks s t / 65536)); lia. }
  fold (timeout_cnt s t).
  transitivity (bind (on_hw (PDMA_DisableTimeout b (bit k) ;; PDMA_EnableInt b k PDMA_INT_TIMEOUT ;;
     upd_reg (put_prescaler k (timeout_div s t)) b ;; PDMA_SetTimeOut b k 1 (timeout_cnt s t)))
     (fun _ => ret RT_EOK) s1); [|by rewrite (bind_Ret _ _ _ _ _ E)].
  rewrite on_hw_bind. apply bind_ext. intros [] s2. rewrite on_hw_bind.
  apply bind_ext. intros [] s3. rewrite on_hw_bind.
  unfold bind at 1 3. unfold b at 1. rewrite prescaler_eq by done.
  destruct (Z.ltb_spec k 8); [done|lia].
Qed.

(** Channels 8 and 9, a time other than 0: the shift is as wide as the word. *)
Lemma timeout_undefined s c t r :
  wf s -> is_chan c -> allocated s c = true -> znth (nu_pdma_chn_arr s) c = Some r ->
  t <> 0 -> 8 <= c mod PDMA_CH_MAX -> nu_pdma_timeout_set c t s = Undef.
Proof.
  intros Hs Hc Ha Hr Ht Hk8. destruct (chan_parts c Hc) as [Hi Hk].
  set (b := module_base (c / PDMA_CH_MAX)). set (k := c mod PDMA_CH_MAX) in *.
  set (s1 := set_idle c t r s).
  assert (Hs1 : wf s1) by (apply wf_set_chn; [done|by rewrite length_zupd; apply wf_chns]).
  unfold nu_pdma_timeout_set.
  rewrite (bind_Ret _ _ _ _ _ (check_eq s c Hs Hc)), Ha. cbn [negb].
  rewrite chan_base, chan_mod_chidx by done. fold b k.
  rewrite (bind_Ret _ _ _ _ _ (upd_chn_eq _ s c r Hr)). fold (set_idle c t r s). fold s1.
  destruct (Z.eqb_spec t 0); [done|]. cbn [negb].
  destruct (clk_spec s1) as (f & Ef & Hf & Hu). rewrite (bind_Ret _ _ _ _ _ Ef).
  rewrite (bind_Ret _ _ _ _ _ (div_ul_eq _ _ s1 Hf)), Hu.
  assert (Hu0 : us_per_tick s1 <> 0) by (unfold us_per_tick; by destruct (_ =? 0)).
  rewrite (bind_Ret _ _ _ _ _ (div_ul_eq _ _ s1 Hu0)).
  destruct (on_hw_op ∅ _ s1 (hw_op_DisableTimeout ∅ _ (bit k) Hi) Hs1) as (h1 & E1 & W1 & _).
  rewrite (bind_Ret _ _ _ _ _ E1).
  destruct (on_hw_op {[dsct_addr b k]} (PDMA_EnableInt b k PDMA_INT_TIMEOUT) (set_phw h1 s1))
    as (h2 & E2 & W2 & _); [by apply hw_op_EnableInt; [..|set_solver]|by apply wf_set_phw|].
  rewrite (bind_Ret _ _ _ _ _ E2). unfold bind. unfold b at 1. rewrite prescaler_eq by done.
  by destruct (Z.ltb_spec k 8); [lia|].
Qed.

Lemma timeout_zero_returns s c r :
  wf s -> is_chan c -> allocated s c = true -> znth (nu_pdma_chn_arr s) c = Some r ->
  let b := module_base (c / PDMA_CH_MAX) in let k := c mod PDMA_CH_MAX in
  exists p, hw_regs (phw s) !! b = Some p /\ rows_ok p /\
    let h := mkHw (<[b := clear_timeout k (clear_timeout_int k p)]> (hw_regs (phw s)))
               (hw_dsct (phw s)) in
    nu_pdma_timeout_set c 0 s = Ret (- RT_EINVAL, set_phw h (set_idle c 0 r s)) /\ wf_hw h.
Proof.
  intros Hs Hc Ha Hr b k. destruct (chan_parts c Hc) as [Hi Hk].
  set (s1 := set_idle c 0 r s).
  assert (Hs1 : wf s1) by (apply wf_set_chn; [done|by rewrite length_zupd; apply wf_chns]).
  assert (Hrun : reg_run b (fun p => clear_timeout k (clear_timeout_int k p))
    (PDMA_DisableInt b k PDMA_INT_TIMEOUT ;; PDMA_DisableTimeout b (bit k))).
  { apply (reg_run_seq b (clear_timeout_int k) (clear_timeout k));
      [apply reg_run_disable_int|apply reg_run_disable|by intros ? []]. }
  destruct (on_reg_run (c / PDMA_CH_MAX) _ _ s1 Hi Hrun Hs1) as (p & Hp & Hrow & E & Hw);
    [by intros ? []|].
  exists p. split; [done|]. split; [done|]. split; [|done]. unfold nu_pdma_timeout_set.
  rewrite (bind_Ret _ _ _ _ _ (check_eq s c Hs Hc)), Ha. cbn [negb].
  rewrite chan_base, chan_mod_chidx by done. fold b k.
  rewrite (bind_Ret _ _ _ _ _ (upd_chn_eq _ s c r Hr)). fold (set_idle c 0 r s). fold s1.
  cbn [Z.eqb negb].
  transitivity (bind (on_hw (PDMA_DisableInt b k PDMA_INT_TIMEOUT ;; PDMA_DisableTimeout b (bit k)))
     (fun _ => ret (- RT_EINVAL)) s1); [|by rewrite (bind_Ret _ _ _ _ _ E)].
  by rewrite on_hw_bind.
Qed.

(** The time-out of channel [k] as the registers hold it. *)
Definition timeout_armed (k : Z) (p : PDMA_T) : bool :=
  Z.testbit (TOUTEN p) k && Z.testbit (TOUTIEN p) k.
Definition timeout_off (k : Z) (p : PDMA_T) : bool :=
  negb (Z.testbit (TOUTEN p) k) && negb (Z.testbit (TOUTIEN p) k).
Definition timeout_prescaler (k : Z) (p : PDMA_T) : Z := field_get (TOUTPSC p) 3 (4 * k).
Definition timeout_counter (k : Z) (p : PDMA_T) : option Z :=
  (fun v => field_get v 16 (k mod 2 * 16)) <$> znth (TOC p) (k / 2).

Lemma timeout_div_range s t : 0 <= timeout_div s t < 2 ^ 3.
Proof.
  unfold timeout_div. assert (0 <= timeout_ticks s t); [|Z.div_mod_to_equations; lia].
  unfold timeout_ticks. pose proof (u32_range t) as [H _].
  unfold us_per_tick. destruct (_ =? 0); Z.div_mod_to_equations; lia.
Qed.

Lemma timeout_cnt_range s t : 0 <= timeout_cnt s t < 2 ^ 16.
Proof. unfold timeout_cnt. destruct (_ <? _); Z.div_mod_to_equations; lia. Qed.

Lemma program_timeout_fields k d cnt p :
  0 <= k < 8 -> 0 <= d < 2 ^ 3 -> 0 <= cnt < 2 ^ 16 -> rows_ok p ->
  let p' := program_timeout k d cnt p in
  timeout_armed k p' = true /\ timeout_prescaler k p' = d /\ timeout_counter k p' = Some cnt.
Proof.
  intros Hk Hd Hcnt [Hrow _] p'. subst p'. split_and!.
  - unfold timeout_armed. cbn. rewrite !Z.lor_spec, testbit_bit, Z.eqb_refl by lia.
    by rewrite !orb_true_r.
  - unfold timeout_prescaler. cbn. by apply field_get_set; lia.
  - unfold timeout_counter. cbn.
    destruct (row_lookup (TOC p) (k / 2) 5 Hrow) as [v Hv]; [Z.div_mod_to_equations; lia|].
    rewrite Hv, znth_zupd_eq by (by eapply znth_Some). cbn.
    rewrite field_get_set; [done|lia|Z.div_mod_to_equations; lia..|done].
Qed.

(** The two cases in which the time-out is programmed, for the users of
    [nu_pdma_timeout_set]. *)
Lemma timeout_any s c t r :
  wf s -> is_chan c -> allocated s c = true -> znth (nu_pdma_chn_arr s) c = Some r ->
  t = 0 \/ c mod PDMA_CH_MAX < 8 ->
  let b := module_base (c / PDMA_CH_MAX) in let k := c mod PDMA_CH_MAX in
  exists rv p p', hw_regs (phw s) !! b = Some p /\ rows_ok p' /\
    let h := mkHw (<[b := p']> (hw_regs (phw s))) (hw_dsct (phw s)) in
    nu_pdma_timeout_set c t s = Ret (rv, set_phw h (set_idle c t r s)) /\ wf_hw h /\
    REQSEL p' = REQSEL p /\ INTEN p' = INTEN p /\ CHCTL p' = CHCTL p /\
    (if t =? 0 then timeout_off k p' = true else timeout_armed k p' = true).
Proof.
  intros Hs Hc Ha Hr Hcase b k. destruct (chan_parts c Hc) as [Hi Hk].
  destruct (Z.eqb_spec t 0) as [->|Ht].
  - destruct (timeout_zero_returns s c r Hs Hc Ha Hr) as (p & Hp & Hrow & E & Hw).
    eexists _, p, _. split; [done|]. split; [|split; [exact E|]]; [by destruct Hrow|].
    split; [done|]. split_and!; [done..|]. unfold timeout_off. cbn.
    rewrite !Z.land_spec, !testbit_not32, !testbit_bit by lia.
    fold k. rewrite Z.eqb_refl. by rewrite !andb_false_r.
  - destruct Hcase as [|H8]; [done|].
    destruct (timeout_returns s c t r Hs Hc Ha Hr Ht H8) as (p & Hp & Hrow & E & Hw).
    eexists _, p, _. split; [done|]. split; [|split; [exact E|]].
    { apply rows_put_counter. by destruct Hrow. }
    split; [done|]. split_and!; [done..|]. apply program_timeout_fields;
      [lia|apply timeout_div_range|apply timeout_cnt_range|done].
Qed.

(** The idle time-out.  A free channel is refused.  Time 0 stops the time-out
    and its interrupt - and still reports [- RT_EINVAL].  Any other time, on channels
    0 to 7 of a module, arms the time-out with the prescaler and counter of
    [timeout_div]/[timeout_cnt] and returns [RT_EOK]; on channels 8 and 9 it shifts a
    32-bit word by 32 or more, which C leaves undefined. *)
Theorem timeout_set_spec s c t r :
  wf s -> is_chan c -> znth (nu_pdma_chn_arr s) c = Some r ->
  let b := module_base (c / PDMA_CH_MAX) in let k := c mod PDMA_CH_MAX in
  if negb (allocated s c) then nu_pdma_timeout_set c t s = Ret (- RT_EINVAL, s)
  else if negb (t =? 0) && (8 <=? k) then nu_pdma_timeout_set c t s = Undef
  else exists p h,
    nu_pdma_timeout_set c t s =
      Ret (if t =? 0 then - RT_EINVAL else RT_EOK, set_phw h (set_idle c t r s)) /\
    wf_hw h /\ hw_dsct h = hw_dsct (phw s) /\ hw_regs h !! b = Some p /\
    if t =? 0 then timeout_off k p = true
    else timeout_armed k p = true /\ timeout_prescaler k p = timeout_div s t /\
         timeout_counter k p = Some (timeout_cnt s t).
Proof.
  intros Hs Hc Hr b k. destruct (chan_parts c Hc) as [Hi Hk].
  destruct (allocated s c) eqn:Ha; cbn [negb].
  2: { unfold nu_pdma_timeout_set. by rewrite (bind_Ret _ _ _ _ _ (check_eq s c Hs Hc)), Ha. }
  destruct (Z.eqb_spec t 0) as [->|Ht]; cbn [negb andb].
  - destruct (timeout_zero_returns s c r Hs Hc Ha Hr) as (p & Hp & Hrow & E & Hw).
    eexists _, _. split; [exact E|]. split; [done|]. split; [done|].
    split; [apply lookup_insert_eq|]. unfold timeout_off. cbn.
    rewrite !Z.land_spec, !testbit_not32, !testbit_bit by (fold k; lia).
    fold k. rewrite Z.eqb_refl. by rewrite !andb_false_r.
  - destruct (Z.leb_spec 8 k) as [H8|H8]; [by apply (timeout_undefined s c t r)|].
    destruct (timeout_returns s c t r Hs Hc Ha Hr Ht H8) as (p & Hp & Hrow & E & Hw).
    eexists _, _. split; [exact E|]. split; [done|]. split; [done|].
    split; [apply lookup_insert_eq|]. fold k.
    apply program_timeout_fields; [lia|apply timeout_div_range|apply timeout_cnt_range|done].
Qed.

(** ** Witness *)

Lemma timeout_set_spec_witness :
  exists p h,
    nu_pdma_timeout_set 0 500000 board_one = Ret (RT_EOK, set_phw h (set_idle 0 500000
      (set_m_spPeripCtl (mkPeriph PDMA_QSPI0_TX eMemCtl_SrcInc_DstFix) chn_zero) board_one)) /\
    wf_hw h /\ hw_dsct h = hw_dsct (phw board_one) /\ hw_regs h !! module_base 0 = Some p /\
    timeout_armed 0 p = true /\ timeout_prescaler 0 p = 7 /\ timeout_counter 0 p = Some 41248.
Proof.
  assert (Hr : znth (nu_pdma_chn_arr board_one) 0 =
    Some (set_m_spPeripCtl (mkPeriph PDMA_QSPI0_TX eMemCtl_SrcInc_DstFix) chn_zero))
    by (vm_compute; reflexivity).
  assert (Ha : allocated board_one 0 = true) by (vm_compute; reflexivity).
  pose proof (timeout_set_spec board_one 0 500000 _ (proj1 wf_board_one) ltac:(chan_consts; lia) Hr) as H.
  rewrite Ha in H. exact H.
Defined.
