(* ===== verification/PdmaXfer.v ===== *)
(** * PDMA transfers

    [_nu_pdma_transfer], [_nu_pdma_transfer_chain], [nu_pdma_transfer] and
    [nu_pdma_sg_transfer]: the descriptor chain a transfer leaves in memory, what
    the cache maintenance covers, what the channel's registers hold when the
    transfer is started, and the element counts of a chained transfer. *)

From Stdlib Require Import ZArith Lia Bool.
From stdpp Require Import base tactics numbers list option gmap.
From S2P Require Import Prelude BitUtil PdmaRegs Pdma PdmaFacts PdmaAlloc PdmaDesc PdmaTimeout.

Open Scope Z_scope.

(** ** Descriptor chains *)

(** From address [a] the tables [ts] hold the descriptors [ds], each leading to the
    next and the last to [e]: 0 for a chain that ends, its head for a ring. *)
Fixpoint linked (e : Z) (D : gmap Z DSCT_T) (a : Z) (ts : list Z) (ds : list DSCT_T) : Prop :=
  match ts, ds with
  | [], [] => a = e
  | t :: ts, d :: ds => a = t /\ t <> 0 /\ D !! t = Some d /\ linked e D (NEXT d) ts ds
  | _, _ => False
  end.

Lemma linked_frame e D D' a ts ds :
  (forall t, t ∈ ts -> D' !! t = D !! t) -> linked e D a ts ds -> linked e D' a ts ds.
Proof.
  revert a ds. induction ts as [|t ts IH]; intros a [|d ds] HD; cbn; try done.
  intros (-> & Ht & Hd & Hl). split_and!; [done..| |].
  - rewrite HD; [done|]. by left.
  - apply IH; [|done]. intros u Hu. apply HD. by right.
Qed.

Lemma linked_in_map e D a ts ds :
  linked e D a ts ds -> Forall (fun t => is_Some (D !! t)) ts.
Proof.
  revert a ds. induction ts as [|t ts IH]; intros a [|d ds]; cbn; try done.
  intros (_ & _ & Hd & Hl). constructor; [by eexists|]. by eapply IH.
Qed.

(** A list of distinct keys is no longer than the map: the fuel of the cache
    maintenance loop suffices for every chain without a repeated table. *)
Lemma nodup_keys_length (D : gmap Z DSCT_T) (ts : list Z) :
  NoDup ts -> Forall (fun t => is_Some (D !! t)) ts -> (length ts <= size D)%nat.
Proof.
  intros Hn Hall. rewrite <-(size_dom (D := gset Z)).
  rewrite <-(size_list_to_set (C := gset Z) ts Hn). apply subseteq_size.
  intros t Ht%elem_of_list_to_set. apply elem_of_dom. rewrite Forall_forall in Hall. auto.
Qed.

(** ** Cache maintenance *)

(** The ranges one table has written back: the buffers whose address advances and
    the table itself. *)
Definition flush_ranges (t : Z) (d : DSCT_T) : list (Z * Z) :=
  let x := decode d in
  let len := u32 (x_count x * x_width x) in
  (if x_src_inc x then [(SA d, len)] else []) ++
  (if x_dst_inc x then [(DA d, len)] else []) ++ [(t, sizeof_DSCT_T)].

Fixpoint chain_ranges (ts : list Z) (ds : list DSCT_T) : list (Z * Z) :=
  match ts, ds with
  | t :: ts, d :: ds => flush_ranges t d ++ chain_ranges ts ds
  | _, _ => []
  end.

(** Only the cache log and the alignment warning differ. *)
Definition flushed (L : list (Z * Z)) (w : bool) (s : drv) : drv :=
  set_bNonCacheAlignedWarning w (set_dcache_log (rev L ++ dcache_log s) s).

Lemma flushed_flushed L1 w1 L2 w2 s :
  flushed L2 w2 (flushed L1 w1 s) = flushed (L1 ++ L2) w2 s.
Proof. unfold flushed. cbn. by rewrite rev_app_distr, app_assoc. Qed.

Section xfer.
Context `{HW : PdmaHw} `{HS : !PdmaHwSpec} `{RH : RtHeap} `{CBS : Callbacks}.

Lemma flush_chain_step fuel head t d s :
  t <> 0 -> hw_dsct (phw s) !! t = Some d ->
  exists w, flush_chain (S fuel) head t s =
    (if NEXT d =? head then ret tt else flush_chain fuel head (NEXT d))
      (flushed (flush_ranges t d) w s).
Proof.
  intros Ht Hd. cbn [flush_chain]. destruct (Z.eqb_spec t 0); [done|].
  rewrite (bind_Ret _ _ _ _ _ (on_hw_read _ s _ (read_dsct_eq t _ d Hd))).
  eexists (_ && _). unfold flush_ranges, decode, dsct_count. cbn [x_count x_width x_src_inc x_dst_inc].
  destruct (Z.land (CTL d) PDMA_DSCT_CTL_SAINC_Msk =? PDMA_SAR_INC),
    (Z.land (CTL d) PDMA_DSCT_CTL_DAINC_Msk =? PDMA_DAR_INC); reflexivity.
Qed.

Lemma flush_chain_returns fuel head e t ts d ds s :
  e = 0 \/ e = head -> head <> 0 -> head ∉ ts -> (S (length ts) < fuel)%nat ->
  linked e (hw_dsct (phw s)) t (t :: ts) (d :: ds) ->
  exists w, flush_chain fuel head t s = Ret (tt, flushed (chain_ranges (t :: ts) (d :: ds)) w s).
Proof.
  intros He Hh. revert fuel t d ds s. induction ts as [|t' ts IH]; intros fuel t d ds s Hno Hf Hl;
    (destruct fuel as [|fuel]; [lia|]); cbn [linked] in Hl; destruct Hl as (_ & Ht & Hd & Hl);
    destruct (flush_chain_step fuel head t d s Ht Hd) as (w & ->).
  - destruct ds; [|done]. cbn in Hl. rewrite Hl. exists w. cbn [chain_ranges]. rewrite app_nil_r.
    destruct (Z.eqb_spec e head); [done|]. destruct He as [->|]; [|done].
    destruct fuel; [cbn in Hf; lia|done].
  - destruct ds as [|d' ds]; [done|]. apply not_elem_of_cons in Hno as [Hne Hno].
    pose proof Hl as (E & _). rewrite E in *.
    destruct (Z.eqb_spec t' head); [congruence|].
    edestruct (IH fuel t' d' ds (flushed (flush_ranges t d) w s)) as (w' & ->);
      [done|cbn in Hf; lia|exact Hl|].
    exists w'. by rewrite flushed_flushed.
Qed.

Lemma wf_flushed L w s : wf s -> wf (flushed L w s).
Proof. by intros []. Qed.

(** ** Starting a channel *)

(** The request source selected for channel [k]. *)
Definition reqsel (k : Z) (p : PDMA_T) : option Z :=
  (fun v => field_get v 8 (k mod 4 * 8)) <$> znth (REQSEL p) (k / 4).

(** What [PDMA_SetTransferMode] leaves in the channel's own descriptor: linked to the
    head in scatter-gather mode, in basic mode otherwise. *)
Definition armed_desc (scatter : bool) (head : Z) (d : DSCT_T) : DSCT_T :=
  if scatter then set_CTL (field_set (CTL d) PDMA_DSCT_CTL_OPMODE_Msk PDMA_OP_SCATTER) (set_NEXT head d)
  else set_CTL (field_set (CTL d) PDMA_DSCT_CTL_OPMODE_Msk PDMA_OP_BASIC) d.

Definition select_source (k per : Z) (p : PDMA_T) : PDMA_T :=
  set_REQSEL (match znth (REQSEL p) (k / 4) with
    | Some v => zupd (REQSEL p) (k / 4)
        (field_set v (shl32 (Z.ones 8) (k mod 4 * 8)) (shl32 per (k mod 4 * 8)))
    | None => REQSEL p
    end) p.

Lemma set_transfer_mode_eq b k per sc head h p d :
  0 <= k < PDMA_CH_MAX -> hw_regs h !! b = Some p -> rows_ok p ->
  hw_dsct h !! dsct_addr b k = Some d ->
  PDMA_SetTransferMode b k per (if sc : bool then 1 else 0) head h =
  Ret (tt, mkHw (<[b := select_source k per p]> (hw_regs h))
                (<[dsct_addr b k := armed_desc sc head d]> (hw_dsct h))).
Proof.
  intros Hk Hp [_ Hrow] Hd. unfold PDMA_SetTransferMode.
  destruct (Z.ltb_spec k PDMA_CH_MAX); [|lia].
  rewrite (bind_Ret _ _ _ _ _ (reg_eq REQSEL b h p Hp)).
  destruct (row_lookup (REQSEL p) (k / 4) 3 Hrow) as [v Hv].
  { chan_consts. Z.div_mod_to_equations. lia. }
  rewrite (bind_deref _ v) by done. rewrite (bind_Ret _ _ _ _ _ (upd_reg_eq _ b h p Hp)).
  unfold select_source. rewrite Hv. destruct sc; cbn [Z.eqb negb armed_desc].
  - rewrite (bind_Ret _ _ _ _ _ (upd_dsct_eq _ _ (mkHw _ _) d Hd)).
    erewrite upd_dsct_eq by apply lookup_insert_eq. cbn. by rewrite insert_insert_eq.
  - by erewrite (upd_dsct_eq _ _ (mkHw _ _) d Hd).
Qed.

Lemma reqsel_select k per p :
  0 <= k < PDMA_CH_MAX -> 0 <= per < 256 -> rows_ok p ->
  reqsel k (select_source k per p) = Some per.
Proof.
  intros Hk Hper [_ Hrow]. unfold reqsel, select_source. cbn.
  destruct (row_lookup (REQSEL p) (k / 4) 3 Hrow) as [v Hv].
  { chan_consts. Z.div_mod_to_equations. lia. }
  rewrite Hv, znth_zupd_eq by (by eapply znth_Some). cbn.
  rewrite field_get_set; [done|lia|Z.div_mod_to_equations; lia..|done].
Qed.

Lemma rows_select_source k per p : rows_ok p -> rows_ok (select_source k per p).
Proof. intros [? ?]. split; [done|]. cbn. destruct (znth _ _); by rewrite ?length_zupd. Qed.

Lemma enable_trans_done_eq b k h p :
  hw_regs h !! b = Some p ->
  PDMA_EnableInt b k PDMA_INT_TRANS_DONE h =
  Ret (tt, mkHw (<[b := set_INTEN (Z.lor (INTEN p) (bit k)) p]> (hw_regs h)) (hw_dsct h)).
Proof.
  intros Hp. unfold PDMA_EnableInt. change (tst PDMA_INT_TRANS_DONE PDMA_INT_TRANS_DONE) with true.
  change (tst PDMA_INT_TRANS_DONE PDMA_INT_TEMPTY) with false.
  change (tst PDMA_INT_TRANS_DONE PDMA_INT_TIMEOUT) with false. cbn iota.
  by rewrite (bind_Ret _ _ _ _ _ (upd_reg_eq _ b h p Hp)).
Qed.

(** The state in which channel [c], with record [r], is started on the chain at
    [head]: [s] is the state after the descriptors were written. *)
Record armed (s s1 : drv) (c head t : Z) (r : nu_pdma_chn) (L : list (Z * Z)) : Prop := {
  armed_wf : wf s1;
  armed_frame : exists w, s1 = set_phw (phw s1) (set_idle c t r (flushed L w s));
  armed_dsct : forall a, a <> dsct_addr (module_base (c / PDMA_CH_MAX)) (c mod PDMA_CH_MAX) ->
    hw_dsct (phw s1) !! a = hw_dsct (phw s) !! a;
  armed_own : exists d0 dh, hw_dsct (phw s) !! head = Some dh /\
    hw_dsct (phw s) !! dsct_addr (module_base (c / PDMA_CH_MAX)) (c mod PDMA_CH_MAX) = Some d0 /\
    hw_dsct (phw s1) !! dsct_addr (module_base (c / PDMA_CH_MAX)) (c mod PDMA_CH_MAX)
    = Some (armed_desc (negb (NEXT dh =? 0)) head d0);
  armed_regs : exists p, hw_regs (phw s1) !! module_base (c / PDMA_CH_MAX) = Some p /\
    reqsel (c mod PDMA_CH_MAX) p = Some (m_u32Peripheral (m_spPeripCtl r)) /\
    Z.testbit (INTEN p) (c mod PDMA_CH_MAX) = true /\
    if t =? 0 then timeout_off (c mod PDMA_CH_MAX) p = true
    else timeout_armed (c mod PDMA_CH_MAX) p = true
}.

Lemma transfer_arms s c t r e head hd ts ds :
  wf s -> is_chan c -> allocated s c = true -> znth (nu_pdma_chn_arr s) c = Some r ->
  0 <= m_u32Peripheral (m_spPeripCtl r) < 256 ->
  t = 0 \/ c mod PDMA_CH_MAX < 8 ->
  e = 0 \/ e = head -> head <> 0 -> NoDup (head :: ts) ->
  linked e (hw_dsct (phw s)) head (head :: ts) (hd :: ds) ->
  exists s1,
    _nu_pdma_transfer c (m_u32Peripheral (m_spPeripCtl r)) head t s =
      pdma_start c (m_u32Peripheral (m_spPeripCtl r)) s1 /\
    armed s s1 c head t r (chain_ranges (head :: ts) (hd :: ds)).
Proof.
  intros Hs Hc Ha Hr Hper Hcase He Hh Hnd Hl. destruct (chan_parts c Hc) as [Hi Hk].
  unfold _nu_pdma_transfer. rewrite bind_gets, chan_base, chan_mod_chidx by done.
  set (b := module_base (c / PDMA_CH_MAX)). set (k := c mod PDMA_CH_MAX) in *.
  set (per := m_u32Peripheral (m_spPeripCtl r)) in *.
  pose proof (nodup_keys_length _ _ Hnd (linked_in_map _ _ _ _ _ Hl)) as Hlen.
  destruct (flush_chain_returns (S (size (hw_dsct (phw s)))) head e head ts hd ds s)
    as (w & E); [done..|by apply NoDup_cons in Hnd as []|cbn in Hlen; lia|done|].
  rewrite (bind_Ret _ _ _ _ _ E). clear E. set (L := chain_ranges _ _).
  set (s2 := flushed L w s). assert (Hs2 : wf s2) by (by apply wf_flushed).
  unfold nu_pdma_get_channel_desc. rewrite bind_assoc.
  rewrite (bind_Ret _ _ _ _ _ (check_eq s2 c Hs2 Hc)).
  change (allocated s2 c) with (allocated s c). rewrite Ha. cbn [negb]. rewrite bind_ret_l.
  destruct (wf_reg _ (wf_phw s Hs) _ Hi) as (p0 & Hp0 & Hrow0). fold b in Hp0.
  unfold PDMA_DisableTimeout at 1.
  rewrite (bind_Ret _ _ _ _ _ (on_hw_eq _ s2 _ _ (upd_reg_eq _ b (phw s2) p0 Hp0))).
  set (p1 := set_TOUTEN _ p0). destruct Hl as (_ & _ & Hhd & _).
  rewrite (bind_Ret _ _ _ _ _ (on_hw_read _ (set_phw _ s2) _ (read_dsct_eq head (mkHw _ _) hd Hhd))).
  destruct (wf_desc _ (wf_phw s Hs) _ _ Hi Hk) as (d0 & Hd0). fold b in Hd0.
  rewrite (bind_Ret _ _ _ _ _ (on_hw_eq _ (set_phw _ s2) _ _
    (set_transfer_mode_eq b k per (negb (NEXT hd =? 0)) head (mkHw _ _) p1 d0 Hk
      (lookup_insert_eq _ _ _) ltac:(by destruct Hrow0) Hd0))).
  rewrite (bind_Ret _ _ _ _ _ (on_hw_eq _ (set_phw _ _) _ _
    (enable_trans_done_eq b k (mkHw _ _) _ (lookup_insert_eq _ _ _)))).
  rewrite !set_phw_phw. cbn [hw_regs hw_dsct]. set (p3 := set_INTEN _ _).
  set (s3 := set_phw _ s2).
  assert (Hrow3 : rows_ok p3) by (by apply (rows_select_source k per p1); destruct Hrow0).
  assert (Hs3 : wf s3).
  { apply wf_set_phw; [done|]. unfold b. do 2 rewrite insert_insert_eq.
    apply (wf_hw_upd_reg (mkHw _ _) _ (fun _ => p3) p0); [|done|done].
    apply wf_hw_insert_dsct. by apply wf_phw. }
  assert (Hp3 : hw_regs (phw s3) !! b = Some p3) by apply lookup_insert_eq.
  destruct (timeout_any s3 c t r Hs3 Hc Ha Hr Hcase) as (rv & p & p' & Hp & Hrow' & E & Hw' & R1 & R2 & _ & R3).
  fold b in Hp. rewrite Hp3 in Hp. injection Hp as <-. fold b k in R3, E, Hw'.
  rewrite (bind_Ret _ _ _ _ _ E). eexists. split; [reflexivity|]. split.
  - apply wf_set_phw; [|done]. apply wf_set_chn; [done|]. rewrite length_zupd. by apply wf_chns.
  - by exists w.
  - intros a Hne. cbn. by apply lookup_insert_ne.
  - exists d0, hd. split; [done|]. split; [done|]. cbn. by rewrite lookup_insert_eq.
  - exists p'. fold b k. split; [apply lookup_insert_eq|]. rewrite R2.
    split_and!; [|cbn; rewrite Z.lor_spec, testbit_bit, Z.eqb_refl by lia; apply orb_true_r|done].
    unfold reqsel. rewrite R1. apply (reqsel_select k per p1); [done|done|by destruct Hrow0].
Qed.

(** ** A transfer of at most 65536 elements *)

(** Channel [c]'s descriptor registers. *)
Definition own_dsct (c : Z) : Z := dsct_addr (module_base (c / PDMA_CH_MAX)) (c mod PDMA_CH_MAX).

Lemma own_dsct_eq c :
  is_chan c -> dsct_addr (NU_PDMA_GET_BASE c) (NU_PDMA_GET_MOD_CHIDX c) = own_dsct c.
Proof. intros Hc. by rewrite chan_base, chan_mod_chidx. Qed.

Lemma own_dsct_range c : is_chan c -> 0x40080000 <= own_dsct c < 0x400A0000.
Proof.
  intros Hc. destruct (chan_parts c Hc). unfold own_dsct, dsct_addr, sizeof_DSCT_T, module_base, DEF_PDMA_BASE_START.
  chan_consts. lia.
Qed.

Lemma armed_desc_basic r w src dst cnt silent head :
  width_ok w = true -> 0 <= cnt <= NU_PDMA_MAX_TXCNT ->
  armed_desc false head (request_desc r w src dst cnt 0 silent) = request_desc r w src dst cnt 0 silent.
Proof.
  intros Hw Hc. unfold armed_desc, request_desc, set_CTL. cbn [CTL SA DA NEXT]. f_equal.
  apply field_set_same; [by apply desc_ctl_u32|].
  apply (decode_desc (m_eMemCtl (m_spPeripCtl r)) (m_u32Peripheral (m_spPeripCtl r)) w src dst cnt 0 silent Hw Hc).
Qed.

Lemma wf_put_dsct a d s : wf s -> wf (put_dsct a d s).
Proof. intros Hs. apply wf_set_phw; [done|]. apply wf_hw_insert_dsct. by apply wf_phw. Qed.

(** A transfer of at most 65536 elements.  Without an allocated channel or with
    count 0 it is refused with [- RT_EINVAL]; with a bad width or a misaligned
    address it is refused with the positive [RT_EINVAL].  Otherwise the channel is
    started - the software request or the trigger callback - in a state where its
    own descriptor means exactly the transfer asked for, in basic mode, its request
    source is selected, its transfer-done interrupt is enabled, its time-out is set
    as asked, and both buffers whose address advances and the descriptor have been
    written back. *)
Theorem transfer_single_spec s c w src dst n t r :
  wf s -> is_chan c -> znth (nu_pdma_chn_arr s) c = Some r ->
  0 <= m_u32Peripheral (m_spPeripCtl r) < 256 -> 0 <= n <= NU_PDMA_MAX_TXCNT ->
  t = 0 \/ c mod PDMA_CH_MAX < 8 ->
  if negb (allocated s c) || (n =? 0) then
    nu_pdma_transfer c w src dst n t s = Ret (- RT_EINVAL, s)
  else if negb (width_ok w && (src mod (w / 8) =? 0) && (dst mod (w / 8) =? 0)) then
    nu_pdma_transfer c w src dst n t s = Ret (RT_EINVAL, s)
  else exists d s1,
    nu_pdma_transfer c w src dst n t s =
      (pdma_start c (m_u32Peripheral (m_spPeripCtl r)) ;; ret RT_EOK) s1 /\
    decode d = request (m_eMemCtl (m_spPeripCtl r)) (m_u32Peripheral (m_spPeripCtl r)) w src dst n 0 0 /\
    dsct_mode d = PDMA_OP_BASIC /\
    hw_dsct (phw s1) !! own_dsct c = Some d /\
    armed (put_dsct (own_dsct c) d s) s1 c (own_dsct c) t r (flush_ranges (own_dsct c) d).
Proof.
  intros Hs Hc Hr Hper Hn Hcase. unfold nu_pdma_transfer.
  rewrite (bind_Ret _ _ _ _ _ (check_eq s c Hs Hc)).
  destruct (allocated s c) eqn:Ha; [|done]. cbn [negb orb].
  destruct (Z.eqb_spec n 0) as [|Hn0]; [done|].
  destruct (Z.ltb_spec NU_PDMA_MAX_TXCNT n); [lia|].
  rewrite (bind_Ret _ _ _ _ _ (chn_eq s c r Hr)). rewrite own_dsct_eq by done.
  pose proof (own_dsct_range c Hc) as Hrange.
  destruct (chan_parts c Hc) as [Hi Hk].
  pose proof (wf_desc _ (wf_phw s Hs) _ _ Hi Hk) as Hd0. fold (own_dsct c) in Hd0.
  assert (Hu : u32 n = n) by (apply u32_small; unfold is_u32, NU_PDMA_MAX_TXCNT in *; lia).
  assert (Hok : setup_ok s c (own_dsct c) w src dst n =
    width_ok w && (src mod (w / 8) =? 0) && (dst mod (w / 8) =? 0)).
  { unfold setup_ok. rewrite Ha, Hu. destruct (Z.eqb_spec (own_dsct c) 0); [lia|]. cbn [negb andb].
    destruct (Z.leb_spec n NU_PDMA_MAX_TXCNT); [apply andb_true_r|lia]. }
  rewrite <-Hok. destruct (setup_ok s c (own_dsct c) w src dst n) eqn:E; cbn [negb].
  2: { by rewrite (bind_Ret _ _ _ _ _ (setup_refused s c _ w src dst n 0 0 Hs Hc E)). }
  rewrite (bind_Ret _ _ _ _ _ (setup_accepted s c _ w src dst n 0 0 r Hs Hc E Hr Hd0)).
  rewrite Z.eqb_refl. cbn [negb]. set (d := request_desc r w src dst n 0 0).
  assert (Hw : width_ok w = true) by (symmetry in Hok; apply andb_true_iff in Hok as [Hok _];
    by apply andb_true_iff in Hok as [Hok _]).
  destruct (transfer_arms (put_dsct (own_dsct c) d s) c t r 0 (own_dsct c) d [] []) as (s1 & E1 & A1);
    [by apply wf_put_dsct|done..|by left|lia|apply NoDup_singleton| |].
  { cbn. rewrite lookup_insert_eq. split_and!; [done|lia|done|done]. }
  destruct (decode_desc (m_eMemCtl (m_spPeripCtl r)) (m_u32Peripheral (m_spPeripCtl r))
    w src dst n 0 0 Hw Hn) as [Hdec Hmode].
  exists d, s1. unfold bind at 1. rewrite E1. split; [done|]. split; [done|]. split; [done|].
  split; [|by cbn [chain_ranges] in A1; rewrite app_nil_r in A1].
  destruct A1 as [_ _ _ (d0 & dh & H0 & H1 & H2) _]. fold (own_dsct c) in H1, H2. rewrite H2.
  cbn in H0, H1. rewrite lookup_insert_eq in H0, H1. injection H0 as <-. injection H1 as <-.
  f_equal. by apply (armed_desc_basic r w src dst n 0).
Qed.
End xfer.

Lemma transfer_single_spec_witness :
  exists d s1,
    nu_pdma_transfer (HW := board_hw) (RH := board_heap) (CBS := board_cbs)
      0 32 0x80001000 0x80002000 100 0 board_m2m =
      (pdma_start (HW := board_hw) (CBS := board_cbs) 0 PDMA_MEM ;; ret RT_EOK) s1 /\
    decode d = request eMemCtl_SrcInc_DstInc PDMA_MEM 32 0x80001000 0x80002000 100 0 0 /\
    dsct_mode d = PDMA_OP_BASIC /\
    hw_dsct (phw s1) !! own_dsct 0 = Some d /\
    armed (put_dsct (own_dsct 0) d board_m2m) s1 0 (own_dsct 0) 0 m2m_chn
      (flush_ranges (own_dsct 0) d).
Proof.
  assert (Hr : znth (nu_pdma_chn_arr board_m2m) 0 = Some m2m_chn) by (vm_compute; reflexivity).
  assert (Hg : negb (allocated board_m2m 0) || (100 =? 0) = false) by (vm_compute; reflexivity).
  pose proof (@transfer_single_spec board_hw board_heap board_cbs board_m2m 0 32 0x80001000 0x80002000
    100 0 m2m_chn wf_board_m2m ltac:(chan_consts; lia) Hr
    ltac:(unfold m2m_chn, PDMA_MEM; cbn; lia) ltac:(chan_consts; unfold NU_PDMA_MAX_TXCNT; lia)
    ltac:(by left)) as H.
  rewrite Hg in H. exact H.
Defined.
