(* ===== verification/PdmaChain.v ===== *)
(** * Chained PDMA transfers

    [_nu_pdma_transfer_chain]: more than 65536 elements, one scatter-gather table
    per 65536 elements and one more.  The chain it builds, the ranges the tables
    move, what happens when the count is a multiple of 65536, and the table
    allocation. *)

From Stdlib Require Import ZArith Lia Bool.
From stdpp Require Import base tactics numbers list option gmap.
From S2P Require Import Prelude BitUtil PdmaRegs Pdma PdmaFacts PdmaAlloc PdmaDesc PdmaTimeout PdmaXfer.

Open Scope Z_scope.

(** ** The plan of a chained transfer *)

(** Number of tables for [n] elements. *)
Definition tables_for (n : Z) : Z := n / NU_PDMA_MAX_TXCNT + 1.

(** Byte offset of table [i]. *)
Definition seg_off (w i : Z) : Z := i * NU_PDMA_MAX_TXCNT * (w / 8).

Definition seg_addr (inc : bool) (base w i : Z) : Z :=
  if inc then u32 (base + seg_off w i) else base.

(** Elements asked of table [i]. *)
Definition seg_cnt (n i : Z) : Z := Z.min NU_PDMA_MAX_TXCNT (n - i * NU_PDMA_MAX_TXCNT).

(** The table after [i]: the last one leads nowhere and is not silent. *)
Definition seg_next (ts : list Z) (i : Z) : Z :=
  match znth ts (i + 1) with Some t => t | None => 0 end.

Definition seg_desc (r : nu_pdma_chn) (w src dst n : Z) (ts : list Z) (i : Z) : DSCT_T :=
  let m := m_eMemCtl (m_spPeripCtl r) in
  request_desc r w (seg_addr (src_inc m) src w i) (seg_addr (dst_inc m) dst w i) (seg_cnt n i)
    (seg_next ts i) (if i + 1 =? Z.of_nat (length ts) then 0 else 1).

(** Tables that channel record [r] owns: distinct descriptors in RAM, their pointers
    in the array at [m_ppsSgtbl]. *)
Record tables_ready (s : drv) (r : nu_pdma_chn) (ts : list Z) : Prop := {
  tr_wanted : m_u32WantedSGTblNum r = Z.of_nat (length ts);
  tr_array : m_ppsSgtbl r <> 0;
  tr_ptrs : sgtbl s !! m_ppsSgtbl r = Some ts;
  tr_nodup : NoDup ts;
  tr_ram : Forall (fun t => 0x80000000 <= t < 2 ^ 32 /\ is_Some (hw_dsct (phw s) !! t)) ts
}.

(** The address control is one of the four enumerators. *)
Definition memctl_valid (r : nu_pdma_chn) : Prop := 0 <= m_eMemCtl (m_spPeripCtl r) <= 3.

Lemma src_inc_tst m : 0 <= m <= 3 -> tst m 2 = src_inc m.
Proof. intros H. by assert (m = 0 \/ m = 1 \/ m = 2 \/ m = 3) as [->|[->|[->| ->]]] by lia. Qed.
Lemma dst_inc_tst m : 0 <= m <= 3 -> tst m 1 = dst_inc m.
Proof. intros H. by assert (m = 0 \/ m = 1 \/ m = 2 \/ m = 3) as [->|[->|[->| ->]]] by lia. Qed.

Lemma width_cases w : width_ok w = true -> w = 8 \/ w = 16 \/ w = 32.
Proof. unfold width_ok. lia. Qed.

Lemma u32_add_l a b : u32 (u32 a + b) = u32 (a + b).
Proof. unfold u32. apply Zplus_mod_idemp_l. Qed.
Lemma u32_add_r a b : u32 (a + u32 b) = u32 (a + b).
Proof. unfold u32. apply Zplus_mod_idemp_r. Qed.

(** An aligned buffer has aligned segments. *)
Lemma seg_addr_aligned inc base w i :
  width_ok w = true -> base mod (w / 8) = 0 -> seg_addr inc base w i mod (w / 8) = 0.
Proof.
  intros Hw Hb. unfold seg_addr, seg_off, u32. destruct inc; [|done].
  assert (Hk : 0 < w / 8 /\ (w / 8 | 2 ^ 32)).
  { destruct (width_cases w Hw) as [->|[->| ->]]; (split; [by vm_compute|]).
    - by exists (2 ^ 32).
    - by exists (2 ^ 31).
    - by exists (2 ^ 30). }
  rewrite Z.mod_mod_divide by tauto. by rewrite Z.mod_add by lia.
Qed.

Lemma seg_cnt_range n i :
  0 <= i < tables_for n -> 0 <= seg_cnt n i <= NU_PDMA_MAX_TXCNT.
Proof.
  unfold seg_cnt, tables_for, NU_PDMA_MAX_TXCNT. intros Hi. Z.div_mod_to_equations. lia.
Qed.

(** The offset the loop carries. *)
Lemma seg_off_step w i :
  width_ok w = true ->
  u32 (u32 (seg_off w i) + u32 (NU_PDMA_MAX_TXCNT * w) / 8) = u32 (seg_off w (i + 1)).
Proof.
  intros Hw. rewrite u32_add_l. f_equal. unfold seg_off.
  assert (u32 (NU_PDMA_MAX_TXCNT * w) / 8 = NU_PDMA_MAX_TXCNT * (w / 8)) as ->; [|lia].
  by destruct (width_cases w Hw) as [->|[->| ->]].
Qed.

Section chain.
Context `{HW : PdmaHw} `{HS : !PdmaHwSpec} `{RH : RtHeap} `{RS : !RtHeapSpec} `{CBS : Callbacks}.

(** The state after the tables [i, i + k) have been written. *)
Fixpoint put_segs (k : nat) (i : Z) (f : Z -> DSCT_T) (ts : list Z) (s : drv) : drv :=
  match k with
  | O => s
  | S k => match znth ts i with
           | Some t => put_segs k (i + 1) f ts (put_dsct t (f i) s)
           | None => s
           end
  end.

Lemma sgtbl_load_eq s p ts i t :
  sgtbl s !! p = Some ts -> znth ts i = Some t -> sgtbl_load p i s = Ret (t, s).
Proof. intros Hp Ht. unfold sgtbl_load. rewrite bind_gets, (bind_deref _ ts) by done. by rewrite Ht. Qed.

Lemma tables_ready_put s r ts a d :
  tables_ready s r ts -> tables_ready (put_dsct a d s) r ts.
Proof.
  intros [H1 H2 H3 H4 H5]. split; [done..|]. eapply Forall_impl; [exact H5|].
  intros t [Ht Hs]. split; [done|]. cbn. apply lookup_insert_is_Some'. by right.
Qed.

Lemma tables_ram s r ts i t :
  tables_ready s r ts -> znth ts i = Some t ->
  0x80000000 <= t < 2 ^ 32 /\ is_Some (hw_dsct (phw s) !! t).
Proof. intros Hr Ht. apply (Forall_znth _ _ _ _ (tr_ram s r ts Hr) Ht). Qed.

(** The loop writes the planned descriptors. *)
Lemma chain_setup_returns k i s c r ts w src dst n :
  wf s -> is_chan c -> allocated s c = true -> znth (nu_pdma_chn_arr s) c = Some r ->
  memctl_valid r -> width_ok w = true -> src mod (w / 8) = 0 -> dst mod (w / 8) = 0 ->
  tables_ready s r ts -> 0 <= n < 2 ^ 32 -> Z.of_nat (length ts) = tables_for n ->
  0 <= i -> i + Z.of_nat k = Z.of_nat (length ts) ->
  chain_setup k i c w src dst (n - i * NU_PDMA_MAX_TXCNT) (u32 (seg_off w i))
    (m_eMemCtl (m_spPeripCtl r)) s =
  Ret (RT_EOK, put_segs k i (seg_desc r w src dst n ts) ts s).
Proof.
  intros Hs Hc Ha Hr Hm Hw Hsrc Hdst Htr Hn Hlen Hi Hk. revert i s Hs Ha Hr Htr Hi Hk.
  induction k as [|k IH]; intros i s Hs Ha Hr Htr Hi Hk; [done|]. cbn [chain_setup put_segs].
  rewrite (bind_Ret _ _ _ _ _ (chn_eq s c r Hr)).
  destruct (znth_in_range ts i) as [t Ht]; [lia|]. rewrite Ht.
  rewrite (bind_Ret _ _ _ _ _ (sgtbl_load_eq s _ ts i t (tr_ptrs s r ts Htr) Ht)).
  rewrite (tr_wanted s r ts Htr).
  assert (Hnext : (if i + 1 =? Z.of_nat (length ts) then ret 0 else sgtbl_load (m_ppsSgtbl r) (i + 1)) s
                  = Ret (seg_next ts i, s)).
  { unfold seg_next. destruct (Z.eqb_spec (i + 1) (Z.of_nat (length ts))) as [E|E].
    - destruct (znth ts (i + 1)) eqn:En; [apply znth_Some in En; lia|done].
    - destruct (znth_in_range ts (i + 1)) as [t' Ht']; [lia|]. rewrite Ht'.
      by apply (sgtbl_load_eq s _ ts _ t' (tr_ptrs s r ts Htr)). }
  rewrite (bind_Ret _ _ _ _ _ Hnext).
  rewrite src_inc_tst, dst_inc_tst by done. rewrite !u32_add_r.
  change (if src_inc ?m then u32 (src + seg_off w i) else src) with (seg_addr (src_inc m) src w i).
  change (if dst_inc ?m then u32 (dst + seg_off w i) else dst) with (seg_addr (dst_inc m) dst w i).
  assert (Hcnt : (if NU_PDMA_MAX_TXCNT <? n - i * NU_PDMA_MAX_TXCNT then NU_PDMA_MAX_TXCNT
                  else n - i * NU_PDMA_MAX_TXCNT) = seg_cnt n i).
  { unfold seg_cnt. destruct (Z.ltb_spec NU_PDMA_MAX_TXCNT (n - i * NU_PDMA_MAX_TXCNT)); lia. }
  rewrite Hcnt. pose proof (seg_cnt_range n i ltac:(lia)) as Hrange.
  destruct (tables_ram s r ts i t Htr Ht) as [Hram Hdesc].
  assert (Hok : forall sa da, sa mod (w / 8) = 0 -> da mod (w / 8) = 0 ->
    setup_ok s c t w sa da (seg_cnt n i) = true).
  { intros sa da H1 H2. unfold setup_ok. rewrite Ha, Hw, H1, H2, u32_small by
      (unfold is_u32, NU_PDMA_MAX_TXCNT in *; lia).
    destruct (Z.eqb_spec t 0); [lia|]. cbn. lia. }
  rewrite (bind_Ret _ _ _ _ _ (setup_accepted s c t w _ _ (seg_cnt n i) (seg_next ts i) _ r Hs Hc
    (Hok _ _ (seg_addr_aligned _ _ _ _ Hw Hsrc) (seg_addr_aligned _ _ _ _ Hw Hdst)) Hr Hdesc)).
  rewrite Z.eqb_refl. cbn [negb]. destruct k as [|k]; [done|].
  rewrite <-IH; [|by apply wf_put_dsct|done|done|by apply tables_ready_put|lia|lia].
  assert (Hfull : seg_cnt n i = NU_PDMA_MAX_TXCNT).
  { unfold seg_cnt, tables_for, NU_PDMA_MAX_TXCNT in *. Z.div_mod_to_equations. lia. }
  rewrite Hfull, seg_off_step by done.
  f_equal; [|by unfold seg_desc; rewrite Hfull].
  rewrite u32_small; [unfold NU_PDMA_MAX_TXCNT; lia|].
  unfold is_u32. unfold tables_for, NU_PDMA_MAX_TXCNT in *. Z.div_mod_to_equations. lia.
Qed.

(** ** The chain in memory *)

Lemma put_segs_frame k i f ts s a :
  0 <= i -> a ∉ drop (Z.to_nat i) ts ->
  hw_dsct (phw (put_segs k i f ts s)) !! a = hw_dsct (phw s) !! a.
Proof.
  revert i s. induction k as [|k IH]; intros i s Hi Ha; [done|]. cbn [put_segs].
  destruct (znth ts i) as [t|] eqn:Ht; [|done].
  assert (Hd : drop (Z.to_nat i) ts = t :: drop (Z.to_nat (i + 1)) ts).
  { replace (Z.to_nat (i + 1)) with (S (Z.to_nat i)) by lia. apply drop_S.
    unfold znth in Ht. by destruct (Z.ltb_spec i 0); [lia|]. }
  rewrite Hd, not_elem_of_cons in Ha. destruct Ha as [Hne Ha]. rewrite IH by (lia || done).
  cbn. by apply lookup_insert_ne.
Qed.

Lemma put_segs_linked k i f ts s :
  NoDup ts -> Forall (fun t => t <> 0) ts ->
  (forall j, 0 <= j < Z.of_nat (length ts) -> NEXT (f j) = seg_next ts j) ->
  0 <= i -> i + Z.of_nat k = Z.of_nat (length ts) ->
  linked 0 (hw_dsct (phw (put_segs k i f ts s))) (seg_next ts (i - 1)) (drop (Z.to_nat i) ts)
    (map f (seqZ i (Z.of_nat k))).
Proof.
  intros Hnd Hnz Hnext. revert i s. induction k as [|k IH]; intros i s Hi Hk.
  - assert (Hd : drop (Z.to_nat i) ts = []) by (apply drop_ge; lia). rewrite Hd. cbn.
    unfold seg_next. replace (i - 1 + 1) with i by lia.
    destruct (znth ts i) eqn:E; [apply znth_Some in E; lia|done].
  - destruct (znth_in_range ts i) as [t Ht]; [lia|]. cbn [put_segs]. rewrite Ht.
    assert (Hl : ts !! Z.to_nat i = Some t)
      by (unfold znth in Ht; by destruct (Z.ltb_spec i 0); [lia|]).
    rewrite (drop_S _ t) by done. replace (S (Z.to_nat i)) with (Z.to_nat (i + 1)) by lia.
    rewrite seqZ_cons by lia. replace (Z.pred (Z.of_nat (S k))) with (Z.of_nat k) by lia.
    replace (Z.succ i) with (i + 1) by lia. cbn [map linked].
    assert (Hnot : t ∉ drop (Z.to_nat (i + 1)) ts).
    { intros Hin. apply list_elem_of_lookup in Hin as [j Hj]. rewrite lookup_drop in Hj.
      pose proof (NoDup_lookup ts _ _ t Hnd Hl Hj). lia. }
    split_and!.
    + unfold seg_next. replace (i - 1 + 1) with i by lia. by rewrite Ht.
    + rewrite Forall_forall in Hnz. by apply Hnz, (list_elem_of_lookup_2 _ _ _ Hl).
    + rewrite put_segs_frame by (lia || done). cbn. apply lookup_insert_eq.
    + rewrite Hnext by lia. specialize (IH (i + 1) (put_dsct t (f i) s)).
      replace (i + 1 - 1) with i in IH by lia. apply IH; lia.
Qed.

Lemma put_segs_facts k i f ts s c :
  wf s ->
  wf (put_segs k i f ts s) /\ allocated (put_segs k i f ts s) c = allocated s c /\
  exists D, put_segs k i f ts s = set_phw (mkHw (hw_regs (phw s)) D) s.
Proof.
  revert i s. induction k as [|k IH]; intros i s Hs; cbn [put_segs].
  { split_and!; [done..|]. exists (hw_dsct (phw s)). by destruct s as [? ? ? ? ? ? ? []]. }
  destruct (znth ts i) as [t|].
  - destruct (IH (i + 1) (put_dsct t (f i) s)) as (H1 & H2 & D & H3); [by apply wf_put_dsct|].
    split_and!; [done..|]. exists D. by rewrite H3.
  - split_and!; [done..|]. exists (hw_dsct (phw s)). by destruct s as [? ? ? ? ? ? ? []].
Qed.

(** The whole function, up to the start of the channel. *)
Lemma chain_returns s c r ts w src dst n t :
  wf s -> is_chan c -> allocated s c = true -> znth (nu_pdma_chn_arr s) c = Some r ->
  memctl_valid r -> 0 <= m_u32Peripheral (m_spPeripCtl r) < 256 -> width_ok w = true ->
  src mod (w / 8) = 0 -> dst mod (w / 8) = 0 ->
  NU_PDMA_MAX_TXCNT < n < 2 ^ 32 -> t = 0 \/ c mod PDMA_CH_MAX < 8 ->
  tables_ready s r ts -> Z.of_nat (length ts) = tables_for n ->
  let ds := map (seg_desc r w src dst n ts) (seqZ 0 (tables_for n)) in
  let s0 := put_segs (length ts) 0 (seg_desc r w src dst n ts) ts s in
  exists s1,
    nu_pdma_transfer c w src dst n t s =
      (pdma_start c (m_u32Peripheral (m_spPeripCtl r)) ;; ret RT_EOK) s1 /\
    armed s0 s1 c (seg_next ts (-1)) t r (chain_ranges ts ds) /\
    linked 0 (hw_dsct (phw s1)) (seg_next ts (-1)) ts ds.
Proof.
  intros Hs Hc Ha Hr Hm Hper Hw Hsrc Hdst Hn Ht Htr Hlen ds s0.
  assert (Hpos : 1 < tables_for n)
    by (unfold tables_for, NU_PDMA_MAX_TXCNT in *; Z.div_mod_to_equations; lia).
  assert (Hnz : Forall (fun t => t <> 0) ts)
    by (eapply Forall_impl; [apply (tr_ram s r ts Htr)|]; intros ? [? _]; cbn; lia).
  assert (Hlink : linked 0 (hw_dsct (phw s0)) (seg_next ts (-1)) ts ds).
  { unfold ds. rewrite <-Hlen. apply (put_segs_linked (length ts) 0 _ ts s); [apply Htr|done| |lia|lia].
    intros j Hj. unfold seg_desc, request_desc. cbn [NEXT].
    by destruct (Z.eqb_spec (seg_next ts j) 0) as [->|]. }
  destruct (put_segs_facts (length ts) 0 (seg_desc r w src dst n ts) ts s c Hs) as (Hw0 & Ha0 & D & E0).
  fold s0 in Hw0, Ha0, E0. rewrite Ha in Ha0.
  assert (Hr0 : znth (nu_pdma_chn_arr s0) c = Some r) by (by rewrite E0).
  destruct ts as [|t0 ts']; [cbn in Hlen; lia|].
  assert (Hds : ds = seg_desc r w src dst n (t0 :: ts') 0 ::
                     map (seg_desc r w src dst n (t0 :: ts')) (seqZ 1 (tables_for n - 1))).
  { unfold ds. rewrite seqZ_cons by lia. cbn [map]. do 3 f_equal; lia. }
  change (seg_next (t0 :: ts') (-1)) with t0 in *.
  destruct (transfer_arms s0 c t r 0 t0 (seg_desc r w src dst n (t0 :: ts') 0) ts'
    (map (seg_desc r w src dst n (t0 :: ts')) (seqZ 1 (tables_for n - 1)))) as (s1 & E1 & A1);
    [done..|by left|by apply Forall_inv in Hnz|apply Htr|by rewrite <-Hds|].
  rewrite <-Hds in A1. exists s1. split_and!; [|done|].
  - unfold nu_pdma_transfer. rewrite (bind_Ret _ _ _ _ _ (check_eq s c Hs Hc)), Ha. cbn [negb].
    destruct (Z.eqb_spec n 0); [unfold NU_PDMA_MAX_TXCNT in *; lia|].
    destruct (Z.ltb_spec NU_PDMA_MAX_TXCNT n); [|lia].
    unfold _nu_pdma_transfer_chain, nu_pdma_channel_memctrl_get. rewrite bind_assoc.
    rewrite (bind_Ret _ _ _ _ _ (check_eq s c Hs Hc)), Ha. cbn [negb]. rewrite bind_assoc.
    rewrite (bind_Ret _ _ _ _ _ (chn_eq s c r Hr)), bind_ret_l.
    unfold chain_tables. rewrite bind_assoc, (bind_Ret _ _ _ _ _ (chn_eq s c r Hr)).
    fold (tables_for n). rewrite (tr_wanted s r _ Htr), Hlen, Z.eqb_refl. cbn [negb].
    rewrite bind_ret_l. cbn [negb]. rewrite (bind_Ret _ _ _ _ _ (chn_eq s c r Hr)).
    rewrite (tr_wanted s r _ Htr), Nat2Z.id.
    pose proof (chain_setup_returns (length (t0 :: ts')) 0 s c r (t0 :: ts') w src dst n
      Hs Hc Ha Hr Hm Hw Hsrc Hdst Htr ltac:(unfold NU_PDMA_MAX_TXCNT in *; lia) Hlen
      ltac:(lia) ltac:(lia)) as E.
    rewrite Z.mul_0_l, Z.sub_0_r in E. change (u32 (seg_off w 0)) with 0 in E.
    rewrite (bind_Ret _ _ _ _ _ E).
    rewrite Z.eqb_refl. cbn [negb]. fold s0. rewrite (bind_Ret _ _ _ _ _ (chn_eq s0 c r Hr0)).
    rewrite (bind_Ret _ _ _ _ _ (sgtbl_load_eq s0 _ (t0 :: ts') 0 t0
      ltac:(by rewrite E0; apply (tr_ptrs s r _ Htr)) eq_refl)).
    unfold bind at 1. rewrite E1. done.
  - apply (linked_frame 0 (hw_dsct (phw s0))); [|done]. intros u Hu.
    apply (armed_dsct _ _ _ _ _ _ _ A1). intros ->.
    pose proof (tr_ram s r _ Htr) as Hram. rewrite Forall_forall in Hram.
    apply Hram in Hu as [Hu _]. pose proof (own_dsct_range c Hc) as Ho. unfold own_dsct in Ho. lia.
Qed.

(** ** Table allocation *)

(** What table management may change: the heap, the pointer arrays and descriptors
    in RAM. *)
Definition heap_frame (s s' : drv) : Prop :=
  exists D T H, s' = set_phw (mkHw (hw_regs (phw s)) D) (set_heap H (set_sgtbl T s)) /\
    forall a, a < 0x80000000 -> D !! a = hw_dsct (phw s) !! a.

Lemma heap_frame_refl s : heap_frame s s.
Proof.
  exists (hw_dsct (phw s)), (sgtbl s), (heap s). split; [|done].
  by destruct s as [? ? ? ? ? ? ? []].
Qed.

Lemma heap_frame_set_heap H s : heap_frame s (set_heap H s).
Proof.
  exists (hw_dsct (phw s)), (sgtbl s), H. split; [|done]. by destruct s as [? ? ? ? ? ? ? []].
Qed.

Lemma heap_frame_set_sgtbl T s : heap_frame s (set_sgtbl T s).
Proof.
  exists (hw_dsct (phw s)), T, (heap s). split; [|done]. by destruct s as [? ? ? ? ? ? ? []].
Qed.

Lemma heap_frame_trans s1 s2 s3 : heap_frame s1 s2 -> heap_frame s2 s3 -> heap_frame s1 s3.
Proof.
  intros (D1 & T1 & H1 & -> & F1) (D2 & T2 & H2 & -> & F2). exists D2, T2, H2.
  split; [done|]. intros a Ha. rewrite F2 by done. by apply F1.
Qed.

Lemma heap_frame_wf s s' : heap_frame s s' -> wf s -> wf s'.
Proof.
  intros (D & T & H & -> & F) [W1 W2 W3 [W4 W5]]. split; [done..|]. split; [done|].
  intros i k Hi Hk. cbn. rewrite F; [by apply W5|].
  unfold dsct_addr, module_base, sizeof_DSCT_T, DEF_PDMA_BASE_START. chan_consts. lia.
Qed.

Lemma heap_frame_chn s s' : heap_frame s s' -> nu_pdma_chn_arr s' = nu_pdma_chn_arr s.
Proof. by intros (D & T & H & -> & _). Qed.
Lemma heap_frame_allocated s s' c : heap_frame s s' -> allocated s' c = allocated s c.
Proof. by intros (D & T & H & -> & _). Qed.

(** The array at [p] is [cur]; its first [i] entries are distinct live tables. *)
Record filling (s : drv) (p : Z) (cur : list Z) (i : nat) : Prop := {
  fill_ptrs : sgtbl s !! p = Some cur;
  fill_nodup : NoDup (take i cur);
  fill_live : Forall (fun t => (0x80000000 <= t < 2 ^ 32 /\ is_Some (hw_dsct (phw s) !! t)) /\
                               heap s !! t = Some 64) (take i cur)
}.

(** One turn of the allocation loop of [nu_pdma_sgtbls_allocate]. *)
Definition alloc_table (p i : Z) : M drv unit :=
  let! t := rt_malloc_align 64 64 in
  sgtbl_store p i t ;;
  rt_assert (negb (t =? 0)) ;;
  on_hw (modify (fun h => mkHw (hw_regs h) (<[t := mkDSCT 0 0 0 0]> (hw_dsct h)))).

Lemma malloc_eq size align s :
  let p := malloc_pick (heap s) size align in
  rt_malloc_align size align s = Ret (p, if p =? 0 then s else set_heap (<[p := size]> (heap s)) s).
Proof.
  intros p. unfold rt_malloc_align, bind, get. fold p. by destruct (p =? 0).
Qed.

Lemma alloc_table_returns s p cur i :
  filling s p cur i -> (i < length cur)%nat ->
  alloc_table p (Z.of_nat i) s = AssertFail \/
  exists s' cur', alloc_table p (Z.of_nat i) s = Ret (tt, s') /\ heap_frame s s' /\
    length cur' = length cur /\ filling s' p cur' (S i).
Proof.
  intros [Hp Hnd Hlive] Hi. unfold alloc_table. rewrite (bind_Ret _ _ _ _ _ (malloc_eq 64 64 s)).
  pose proof (malloc_ram (heap s) 64 64 ltac:(lia)) as Hram.
  pose proof (fun a sz => malloc_disjoint (heap s) 64 64 a sz ltac:(lia)) as Hdis.
  cbn zeta in Hram, Hdis. set (t := malloc_pick (heap s) 64 64) in *.
  unfold sgtbl_store. rewrite bind_assoc, bind_gets.
  assert (Hp' : sgtbl (if t =? 0 then s else set_heap (<[t := 64]> (heap s)) s) !! p = Some cur)
    by (by destruct (t =? 0)).
  rewrite bind_assoc, (bind_deref _ cur) by done.
  assert ((0 <=? Z.of_nat i) && (Z.of_nat i <? Z.of_nat (length cur)) = true) as -> by lia.
  rewrite bind_modify. destruct (Z.eqb_spec t 0) as [|Ht]; cbn [negb]; [by left|right].
  rewrite bind_assert by done. specialize (Hram Ht). specialize (fun a sz => Hdis a sz Ht).
  eexists _, (zupd cur (Z.of_nat i) t). split; [reflexivity|]. cbn [on_hw]. split.
  { eexists _, _, _. split; [reflexivity|]. intros a Ha. cbn. apply lookup_insert_ne. lia. }
  split; [apply length_zupd|].
  assert (Hz : zupd cur (Z.of_nat i) t = <[i := t]> cur).
  { unfold zupd. destruct (Z.ltb_spec (Z.of_nat i) 0); [lia|]. by rewrite Nat2Z.id. }
  assert (Htake : take (S i) (zupd cur (Z.of_nat i) t) = take i cur ++ [t]).
  { rewrite Hz. rewrite (take_S_r _ _ t); [by rewrite take_insert_ge by lia|].
    by apply list_lookup_insert_eq. }
  split; cbn.
  - by apply lookup_insert_eq.
  - rewrite Htake. apply NoDup_app. split_and!; [done| |apply NoDup_singleton].
    intros x Hx Hx'. apply list_elem_of_singleton in Hx' as ->. rewrite Forall_forall in Hlive.
    destruct (Hlive t Hx) as [_ Hheap]. specialize (Hdis t 64 Hheap). lia.
  - rewrite Htake. apply Forall_app. split.
    + eapply Forall_impl; [exact Hlive|]. intros x [[Hx1 Hx2] Hx3]. cbn. split.
      * split; [done|]. apply lookup_insert_is_Some'. by right.
      * rewrite lookup_insert_ne; [done|]. intros ->. specialize (Hdis x 64 Hx3). lia.
    + constructor; [|done]. rewrite !lookup_insert_eq. split; [|done].
      split; [lia|by eexists].
Qed.

Lemma alloc_tables_returns k i s p cur :
  filling s p cur i -> (i + k = length cur)%nat ->
  for_each (seqZ (Z.of_nat i) (Z.of_nat k)) (alloc_table p) s = AssertFail \/
  exists s' cur', for_each (seqZ (Z.of_nat i) (Z.of_nat k)) (alloc_table p) s = Ret (tt, s') /\
    heap_frame s s' /\ length cur' = length cur /\ filling s' p cur' (length cur').
Proof.
  revert i s cur. induction k as [|k IH]; intros i s cur Hf Hlen.
  { right. exists s, cur. split; [done|]. split; [apply heap_frame_refl|]. split; [done|].
    by replace (length cur) with i by lia. }
  rewrite seqZ_cons by lia. replace (Z.pred (Z.of_nat (S k))) with (Z.of_nat k) by lia.
  replace (Z.succ (Z.of_nat i)) with (Z.of_nat (S i)) by lia. cbn [for_each].
  destruct (alloc_table_returns s p cur i Hf ltac:(lia)) as [E|(s1 & cur1 & E & F1 & L1 & Hf1)].
  { left. unfold bind. by rewrite E. }
  rewrite (bind_Ret _ _ _ _ _ E).
  destruct (IH (S i) s1 cur1 Hf1 ltac:(lia)) as [E2|(s2 & cur2 & E2 & F2 & L2 & Hf2)]; [by left|].
  right. exists s2, cur2. split; [done|]. split; [by eapply heap_frame_trans|]. split; [lia|done].
Qed.

Lemma sgtbls_allocate_eq p num s :
  p <> 0 -> 0 < num ->
  nu_pdma_sgtbls_allocate p num s = (for_each (seqZ 0 num) (alloc_table p) ;; ret RT_EOK) s.
Proof.
  intros Hp Hn. unfold nu_pdma_sgtbls_allocate.
  rewrite bind_assert by (by destruct (Z.eqb_spec p 0)). by rewrite bind_assert by lia.
Qed.

(** Freeing the tables of an array. *)
Lemma free_tables_returns k i s p ts :
  sgtbl s !! p = Some ts -> Forall (fun t => 0x80000000 <= t) ts ->
  (i + k <= length ts)%nat ->
  exists s', for_each (seqZ (Z.of_nat i) (Z.of_nat k)) (fun i =>
      let! q := sgtbl_load p i in
      rt_free_align q ;;
      on_hw (modify (fun h => mkHw (hw_regs h) (delete q (hw_dsct h))))) s = Ret (tt, s') /\
    heap_frame s s' /\ sgtbl s' = sgtbl s.
Proof.
  revert i s. induction k as [|k IH]; intros i s Hp Hram Hle.
  { exists s. split; [done|]. split; [apply heap_frame_refl|done]. }
  rewrite seqZ_cons by lia. replace (Z.pred (Z.of_nat (S k))) with (Z.of_nat k) by lia.
  replace (Z.succ (Z.of_nat i)) with (Z.of_nat (S i)) by lia. cbn [for_each].
  destruct (znth_in_range ts (Z.of_nat i)) as [t Ht]; [lia|].
  rewrite bind_assoc, (bind_Ret _ _ _ _ _ (sgtbl_load_eq s p ts _ t Hp Ht)).
  pose proof (Forall_znth _ _ _ _ Hram Ht) as Hge. cbn beta in Hge.
  set (s1 := set_phw (mkHw (hw_regs (phw s)) (delete t (hw_dsct (phw s))))
    (set_heap (delete t (heap s)) s)).
  assert (F1 : heap_frame s s1).
  { exists (delete t (hw_dsct (phw s))), (sgtbl s), (delete t (heap s)). split; [by destruct s|].
    intros a Ha. apply lookup_delete_ne. lia. }
  destruct (IH (S i) s1) as (s' & E & F & Hsg); [done|done|lia|].
  exists s'. split; [exact E|]. split; [by eapply heap_frame_trans|done].
Qed.

Lemma free_sgtbls_returns s c r ts :
  znth (nu_pdma_chn_arr s) c = Some r -> tables_ready s r ts -> ts <> [] ->
  exists s', _nu_pdma_free_sgtbls c s = Ret (tt, s') /\
    heap_frame (set_nu_pdma_chn_arr (zupd (nu_pdma_chn_arr s) c
      (set_m_u32WantedSGTblNum 0 (set_m_ppsSgtbl 0 r))) s) s'.
Proof.
  intros Hr Htr Hne. unfold _nu_pdma_free_sgtbls.
  rewrite (bind_Ret _ _ _ _ _ (chn_eq s c r Hr)).
  destruct (Z.eqb_spec (m_ppsSgtbl r) 0) as [E|E]; [by destruct (tr_array s r ts Htr)|]. cbn [negb].
  rewrite (tr_wanted s r ts Htr). unfold nu_pdma_sgtbls_free.
  assert (Hlen : 0 < Z.of_nat (length ts)) by (destruct ts; [done|cbn; lia]).
  rewrite bind_assoc, bind_assert by (by destruct (Z.eqb_spec (m_ppsSgtbl r) 0)).
  rewrite bind_assoc, bind_assert by lia.
  assert (Hram : Forall (fun t => 0x80000000 <= t) ts)
    by (eapply Forall_impl; [apply (tr_ram s r ts Htr)|]; intros ? [? _]; cbn; lia).
  destruct (free_tables_returns (length ts) 0 s _ ts (tr_ptrs s r ts Htr) Hram ltac:(lia))
    as (s1 & E1 & F1 & _).
  rewrite (bind_Ret _ _ _ _ _ E1). unfold rt_free_align. rewrite !bind_modify.
  set (s2 := set_sgtbl _ _).
  assert (F2 : heap_frame s s2).
  { eapply heap_frame_trans; [exact F1|].
    exists (hw_dsct (phw s1)), (delete (m_ppsSgtbl r) (sgtbl s1)), (delete (m_ppsSgtbl r) (heap s1)).
    split; [|done]. by destruct s1 as [? ? ? ? ? ? ? []]. }
  assert (Hr2 : znth (nu_pdma_chn_arr s2) c = Some r) by (by rewrite (heap_frame_chn s s2 F2)).
  rewrite (bind_Ret _ _ _ _ _ (upd_chn_eq _ s2 c r Hr2)). set (s3 := set_nu_pdma_chn_arr _ s2).
  assert (Hr3 : znth (nu_pdma_chn_arr s3) c = Some (set_m_ppsSgtbl 0 r))
    by (apply znth_zupd_eq; by eapply znth_Some).
  rewrite (upd_chn_eq _ s3 c _ Hr3). eexists. split; [reflexivity|].
  destruct F2 as (D & T & H & E2 & F2). exists D, T, H. split; [|done].
  unfold s3. rewrite E2. cbn. by rewrite zupd_zupd.
Qed.

(** The tables a channel record may own when a chained transfer begins. *)
Definition tables_state (s : drv) (r : nu_pdma_chn) : Prop :=
  m_u32WantedSGTblNum r = 0 /\ m_ppsSgtbl r = 0 \/
  exists ts, ts <> [] /\ tables_ready s r ts.

(** Any old tables are given back: a state with none. *)
Lemma drop_tables s c r :
  znth (nu_pdma_chn_arr s) c = Some r -> tables_state s r ->
  exists s', (if 0 <? m_u32WantedSGTblNum r then _nu_pdma_free_sgtbls c else ret tt) s = Ret (tt, s') /\
    heap_frame (set_nu_pdma_chn_arr (zupd (nu_pdma_chn_arr s) c
      (set_m_u32WantedSGTblNum 0 (set_m_ppsSgtbl 0 r))) s) s'.
Proof.
  intros Hr [[E1 E2]|(ts & Hne & Htr)].
  - rewrite E1. cbn [Z.ltb]. exists s. split; [done|].
    assert (set_m_u32WantedSGTblNum 0 (set_m_ppsSgtbl 0 r) = r) as -> by (rewrite <-E1, <-E2 at 1; by destruct r).
    rewrite zupd_same by done. destruct s; apply heap_frame_refl.
  - rewrite (tr_wanted s r ts Htr).
    assert ((0 <? Z.of_nat (length ts)) = true) as ->.
    { apply Z.ltb_lt. destruct ts; [done|]. cbn. lia. }
    by apply (free_sgtbls_returns s c r ts).
Qed.

(** The record and the state while the tables are obtained. *)
Definition want_tables (k p : Z) (r : nu_pdma_chn) : nu_pdma_chn :=
  set_m_ppsSgtbl p (set_m_u32WantedSGTblNum k r).

Definition put_chn (c : Z) (r : nu_pdma_chn) (s : drv) : drv :=
  set_nu_pdma_chn_arr (zupd (nu_pdma_chn_arr s) c r) s.

Lemma heap_frame_put_chn c r s s' :
  heap_frame s s' -> heap_frame (put_chn c r s) (put_chn c r s').
Proof. intros (D & T & H & -> & F). by exists D, T, H. Qed.

Lemma put_chn_put_chn c r1 r2 s : put_chn c r1 (put_chn c r2 s) = put_chn c r1 s.
Proof. unfold put_chn. cbn. by rewrite zupd_zupd. Qed.

(** The outcomes of [chain_tables]: the pointer array cannot be had, a table cannot
    be had (the code asserts), or all the tables are ready. *)
Lemma chain_tables_returns s c r n :
  znth (nu_pdma_chn_arr s) c = Some r -> tables_state s r -> 0 <= n ->
  m_u32WantedSGTblNum r <> tables_for n ->
  chain_tables c n s = AssertFail \/
  (exists s', chain_tables c n s = Ret (false, s') /\
     heap_frame (put_chn c (want_tables (tables_for n) 0 r) s) s') \/
  (exists s' p ts, chain_tables c n s = Ret (true, s') /\
     heap_frame (put_chn c (want_tables (tables_for n) p r) s) s' /\
     Z.of_nat (length ts) = tables_for n /\
     tables_ready s' (want_tables (tables_for n) p r) ts).
Proof.
  intros Hr Hst Hn Hne. unfold chain_tables. fold (tables_for n).
  assert (Hk : 0 < tables_for n) by (unfold tables_for, NU_PDMA_MAX_TXCNT; Z.div_mod_to_equations; lia).
  rewrite (bind_Ret _ _ _ _ _ (chn_eq s c r Hr)).
  destruct (Z.eqb_spec (m_u32WantedSGTblNum r) (tables_for n)); [done|]. cbn [negb].
  destruct (drop_tables s c r Hr Hst) as (s1 & E1 & F1). rewrite (bind_Ret _ _ _ _ _ E1).
  fold (put_chn c (set_m_u32WantedSGTblNum 0 (set_m_ppsSgtbl 0 r)) s) in F1.
  assert (Hr1 : znth (nu_pdma_chn_arr s1) c = Some (set_m_u32WantedSGTblNum 0 (set_m_ppsSgtbl 0 r))).
  { rewrite (heap_frame_chn _ _ F1). apply znth_zupd_eq. by eapply znth_Some. }
  rewrite (bind_Ret _ _ _ _ _ (upd_chn_eq _ s1 c _ Hr1)). set (r1 := set_m_u32WantedSGTblNum _ _).
  fold (put_chn c r1 s1). rewrite (bind_Ret _ _ _ _ _ (malloc_eq _ 4 _)).
  set (p := malloc_pick _ _ 4).
  set (s2 := if p =? 0 then put_chn c r1 s1 else _).
  assert (F2 : heap_frame (put_chn c r1 s) s2).
  { eapply heap_frame_trans.
    - pose proof (heap_frame_put_chn c r1 _ _ F1) as F1'. rewrite put_chn_put_chn in F1'. exact F1'.
    - unfold s2. destruct (p =? 0); [apply heap_frame_refl|apply heap_frame_set_heap]. }
  assert (Hr2 : znth (nu_pdma_chn_arr s2) c = Some r1).
  { rewrite (heap_frame_chn _ _ F2). apply znth_zupd_eq. by eapply znth_Some. }
  rewrite (bind_Ret _ _ _ _ _ (upd_chn_eq _ s2 c _ Hr2)).
  assert (Hw : set_m_ppsSgtbl p r1 = want_tables (tables_for n) p r) by done.
  rewrite Hw. fold (put_chn c (want_tables (tables_for n) p r) s2).
  pose proof (heap_frame_put_chn c (want_tables (tables_for n) p r) _ _ F2) as F3.
  rewrite put_chn_put_chn in F3. set (s3 := put_chn c (want_tables (tables_for n) p r) s2) in *.
  destruct (Z.eqb_spec p 0) as [Hp|Hp].
  { right. left. exists s3. split; [done|]. by rewrite <-Hp. }
  rewrite bind_modify. set (s4 := set_sgtbl _ s3).
  assert (F4 : heap_frame s3 s4) by apply heap_frame_set_sgtbl.
  assert (Hfill : filling s4 p (replicate (Z.to_nat (tables_for n)) 0) 0).
  { split; [apply lookup_insert_eq|constructor|constructor]. }
  destruct (alloc_tables_returns (Z.to_nat (tables_for n)) 0 s4 p _ Hfill) as [E|(s5 & ts & E & F5 & L5 & Hf)].
  { by rewrite length_replicate. }
  { left. rewrite Z2Nat.id in E by lia. change (Z.of_nat 0) with 0 in E. unfold bind at 1. rewrite sgtbls_allocate_eq by done.
    unfold bind. by rewrite E. }
  right. right. exists s5, p, ts. rewrite Z2Nat.id in E by lia. change (Z.of_nat 0) with 0 in E. split.
  { unfold bind at 1. rewrite sgtbls_allocate_eq by done. by rewrite (bind_Ret _ _ _ _ _ E). } split; [exact (heap_frame_trans _ _ _ F3 (heap_frame_trans _ _ _ F4 F5))|].
  rewrite length_replicate in L5. split; [lia|].
  destruct Hf as [H1 H2 H3]. rewrite firstn_all in H2, H3. split.
  - cbn. lia.
  - done.
  - done.
  - done.
  - eapply Forall_impl; [exact H3|]. by intros x [? _].
Qed.

(** ** Element counts *)

Definition total_count (xs : list xfer) : Z := foldr (fun x acc => x_count x + acc) 0 xs.

(** The transfer table [i] performs. *)
Definition seg_xfer (r : nu_pdma_chn) (w src dst n : Z) (ts : list Z) (i : Z) : xfer :=
  let m := m_eMemCtl (m_spPeripCtl r) in
  request m (m_u32Peripheral (m_spPeripCtl r)) w (seg_addr (src_inc m) src w i)
    (seg_addr (dst_inc m) dst w i) (seg_cnt n i) (seg_next ts i)
    (if i + 1 =? Z.of_nat (length ts) then 0 else 1).

Lemma decode_seg r w src dst n ts i :
  width_ok w = true -> 0 <= i < tables_for n ->
  decode (seg_desc r w src dst n ts i) = seg_xfer r w src dst n ts i.
Proof.
  intros Hw Hi. unfold seg_desc, seg_xfer, request_desc. apply decode_desc; [done|].
  by apply seg_cnt_range.
Qed.

Lemma total_count_app xs ys : total_count (xs ++ ys) = total_count xs + total_count ys.
Proof. unfold total_count. induction xs as [|x xs IH]; cbn; [done|]. rewrite IH. lia. Qed.

Lemma total_one r w src dst n ts i :
  total_count (map (seg_xfer r w src dst n ts) (seqZ i 1)) = eff_count (seg_cnt n i).
Proof. change (eff_count (seg_cnt n i) + 0 = eff_count (seg_cnt n i)). lia. Qed.

Lemma total_full r w src dst n ts k :
  Z.of_nat k <= n / NU_PDMA_MAX_TXCNT ->
  total_count (map (seg_xfer r w src dst n ts) (seqZ 0 (Z.of_nat k))) = Z.of_nat k * NU_PDMA_MAX_TXCNT.
Proof.
  induction k as [|k IH]; intros Hk; [done|].
  replace (Z.of_nat (S k)) with (Z.of_nat k + 1) by lia.
  rewrite seqZ_app, map_app, total_count_app, IH, total_one by lia. rewrite Z.add_0_l.
  assert (seg_cnt n (Z.of_nat k) = NU_PDMA_MAX_TXCNT) as ->.
  { unfold seg_cnt, NU_PDMA_MAX_TXCNT in *. Z.div_mod_to_equations. lia. }
  change (eff_count NU_PDMA_MAX_TXCNT) with NU_PDMA_MAX_TXCNT. lia.
Qed.

(** The tables move [n] elements - and 65536 more when [n] is a multiple. *)
Lemma total_plan r w src dst n ts :
  NU_PDMA_MAX_TXCNT < n ->
  total_count (map (seg_xfer r w src dst n ts) (seqZ 0 (tables_for n))) =
  n + (if n mod NU_PDMA_MAX_TXCNT =? 0 then NU_PDMA_MAX_TXCNT else 0).
Proof.
  intros Hn. unfold tables_for. set (q := n / NU_PDMA_MAX_TXCNT).
  assert (Hq : 0 <= q) by (unfold q, NU_PDMA_MAX_TXCNT in *; Z.div_mod_to_equations; lia).
  rewrite seqZ_app, map_app, total_count_app by lia.
  replace q with (Z.of_nat (Z.to_nat q)) at 1 by lia. rewrite total_full by lia.
  rewrite total_one. rewrite Z.add_0_l.
  assert (seg_cnt n q = n mod NU_PDMA_MAX_TXCNT) as ->.
  { unfold seg_cnt, q, NU_PDMA_MAX_TXCNT in *. Z.div_mod_to_equations. lia. }
  unfold eff_count, q, NU_PDMA_MAX_TXCNT in *.
  destruct (Z.eqb_spec (n mod 65536) 0); Z.div_mod_to_equations; lia.
Qed.

Lemma map_decode_segs r w src dst n ts :
  width_ok w = true ->
  map decode (map (seg_desc r w src dst n ts) (seqZ 0 (tables_for n))) =
  map (seg_xfer r w src dst n ts) (seqZ 0 (tables_for n)).
Proof.
  intros Hw. rewrite map_map. apply map_ext_in. intros i Hi%list_elem_of_In%elem_of_seqZ.
  apply decode_seg; [done|lia].
Qed.

(** The channel's own descriptor, when started on a chain of two or more tables. *)
Lemma chain_own_desc s0 s1 c t r w src dst n ts :
  let ds := map (seg_desc r w src dst n ts) (seqZ 0 (tables_for n)) in
  armed s0 s1 c (seg_next ts (-1)) t r (chain_ranges ts ds) ->
  linked 0 (hw_dsct (phw s1)) (seg_next ts (-1)) ts ds ->
  is_chan c -> Forall (fun t => 0x80000000 <= t) ts -> 1 < tables_for n ->
  exists d, hw_dsct (phw s1) !! own_dsct c = Some d /\
    dsct_mode d = PDMA_OP_SCATTER /\ NEXT d = seg_next ts (-1).
Proof.
  intros ds A L Hc Hram Hn. destruct A as [_ _ Hframe (d0 & dh & H0 & H1 & H2) _].
  fold (own_dsct c) in *. exists (armed_desc (negb (NEXT dh =? 0)) (seg_next ts (-1)) d0).
  split; [done|]. unfold ds in L. rewrite seqZ_cons, seqZ_cons in L by lia.
  destruct ts as [|t0 [|t1 ts]]; cbn [map linked] in L; [done|by destruct L as (_ & _ & _ & [])|].
  destruct L as (_ & Ht0 & Hd0 & E1 & Ht1 & _). apply Forall_inv in Hram.
  change (seg_next (t0 :: t1 :: ts) (-1)) with t0 in *.
  pose proof (own_dsct_range c Hc). rewrite Hframe in Hd0 by lia. rewrite H0 in Hd0.
  injection Hd0 as ->. rewrite E1. destruct (Z.eqb_spec t1 0); [done|]. cbn [negb armed_desc].
  split; [|done]. unfold dsct_mode. cbn. apply field_set_mode.
Qed.

(** A chained transfer begins with the tables. *)
Lemma chain_prefix s c r w src dst n t :
  wf s -> is_chan c -> allocated s c = true -> znth (nu_pdma_chn_arr s) c = Some r ->
  NU_PDMA_MAX_TXCNT < n < 2 ^ 32 ->
  nu_pdma_transfer c w src dst n t s =
  (let! ok := chain_tables c n in
   if negb ok then _nu_pdma_free_sgtbls c ;; ret (- RT_ERROR) else
   let! r' := chn c in
   let! e := chain_setup (Z.to_nat (m_u32WantedSGTblNum r')) 0 c w src dst n 0
     (m_eMemCtl (m_spPeripCtl r)) in
   if negb (e =? RT_EOK) then _nu_pdma_free_sgtbls c ;; ret (- e) else
   let! r' := chn c in
   let! head := sgtbl_load (m_ppsSgtbl r') 0 in
   _nu_pdma_transfer c (m_u32Peripheral (m_spPeripCtl r')) head t ;;
   ret RT_EOK) s.
Proof.
  intros Hs Hc Ha Hr Hn. unfold nu_pdma_transfer.
  rewrite (bind_Ret _ _ _ _ _ (check_eq s c Hs Hc)), Ha. cbn [negb].
  destruct (Z.eqb_spec n 0); [unfold NU_PDMA_MAX_TXCNT in *; lia|].
  destruct (Z.ltb_spec NU_PDMA_MAX_TXCNT n); [|lia].
  unfold _nu_pdma_transfer_chain, nu_pdma_channel_memctrl_get. rewrite bind_assoc.
  rewrite (bind_Ret _ _ _ _ _ (check_eq s c Hs Hc)), Ha. cbn [negb]. rewrite bind_assoc.
  by rewrite (bind_Ret _ _ _ _ _ (chn_eq s c r Hr)), bind_ret_l.
Qed.

Lemma put_chn_lookup c r0 r s s' :
  znth (nu_pdma_chn_arr s) c = Some r0 -> heap_frame (put_chn c r s) s' ->
  znth (nu_pdma_chn_arr s') c = Some r.
Proof.
  intros H F. rewrite (heap_frame_chn _ _ F). apply znth_zupd_eq. by eapply znth_Some.
Qed.

(** ** Properties *)

(** C10: a transfer of more than 65536 elements that is not a multiple of 65536,
    when the channel's tables are the right number.  The channel is started in
    scatter-gather mode at the head of a chain that ends, one table per segment: the
    tables' addresses advance by exactly the elements before them where the channel
    increments, every table but the last is silent, and the counts add up to the
    count asked for. *)
Theorem chain_transfer_tiles s c r ts w src dst n t :
  wf s -> is_chan c -> allocated s c = true -> znth (nu_pdma_chn_arr s) c = Some r ->
  memctl_valid r -> 0 <= m_u32Peripheral (m_spPeripCtl r) < 256 -> width_ok w = true ->
  src mod (w / 8) = 0 -> dst mod (w / 8) = 0 ->
  NU_PDMA_MAX_TXCNT < n < 2 ^ 32 -> n mod NU_PDMA_MAX_TXCNT <> 0 ->
  t = 0 \/ c mod PDMA_CH_MAX < 8 ->
  tables_ready s r ts -> Z.of_nat (length ts) = tables_for n ->
  exists ds s0 s1 d,
    nu_pdma_transfer c w src dst n t s =
      (pdma_start c (m_u32Peripheral (m_spPeripCtl r)) ;; ret RT_EOK) s1 /\
    armed s0 s1 c (seg_next ts (-1)) t r (chain_ranges ts ds) /\
    hw_dsct (phw s1) !! own_dsct c = Some d /\
    dsct_mode d = PDMA_OP_SCATTER /\ NEXT d = seg_next ts (-1) /\
    linked 0 (hw_dsct (phw s1)) (seg_next ts (-1)) ts ds /\
    map decode ds = map (seg_xfer r w src dst n ts) (seqZ 0 (tables_for n)) /\
    total_count (map decode ds) = n.
Proof.
  intros Hs Hc Ha Hr Hm Hper Hw Hsrc Hdst Hn Hmod Ht Htr Hlen.
  destruct (chain_returns s c r ts w src dst n t) as (s1 & E & A & L); [done..|].
  destruct (chain_own_desc _ _ _ _ _ _ _ _ _ _ A L Hc) as (d & Hd & Hmode & Hnext).
  { eapply Forall_impl; [apply (tr_ram s r ts Htr)|]. intros ? [? _]. cbn. lia. }
  { clear -Hn. unfold tables_for, NU_PDMA_MAX_TXCNT in *. Z.div_mod_to_equations. lia. }
  eexists _, _, s1, d. split; [exact E|]. split; [exact A|]. do 3 (split; [done|]). split; [exact L|].
  rewrite map_decode_segs by done. split; [done|]. rewrite total_plan by lia.
  destruct (Z.eqb_spec (n mod NU_PDMA_MAX_TXCNT) 0); [done|lia].
Qed.

(** C11: the same when the count is a multiple of 65536.  The chain then has one
    table too many: the last one asks for 0 elements, which the module reads as
    65536, so the chain moves 65536 elements more than asked for, and where the
    destination increments it writes from the end of the buffer on. *)
Theorem chain_transfer_overruns s c r ts w src dst n t :
  wf s -> is_chan c -> allocated s c = true -> znth (nu_pdma_chn_arr s) c = Some r ->
  memctl_valid r -> 0 <= m_u32Peripheral (m_spPeripCtl r) < 256 -> width_ok w = true ->
  src mod (w / 8) = 0 -> dst mod (w / 8) = 0 ->
  NU_PDMA_MAX_TXCNT < n < 2 ^ 32 -> n mod NU_PDMA_MAX_TXCNT = 0 ->
  t = 0 \/ c mod PDMA_CH_MAX < 8 ->
  tables_ready s r ts -> Z.of_nat (length ts) = tables_for n ->
  exists ds s1 d,
    nu_pdma_transfer c w src dst n t s =
      (pdma_start c (m_u32Peripheral (m_spPeripCtl r)) ;; ret RT_EOK) s1 /\
    linked 0 (hw_dsct (phw s1)) (seg_next ts (-1)) ts ds /\
    total_count (map decode ds) = n + NU_PDMA_MAX_TXCNT /\
    last ds = Some d /\ x_count (decode d) = NU_PDMA_MAX_TXCNT /\
    x_dst (decode d) =
      (if dst_inc (m_eMemCtl (m_spPeripCtl r)) then u32 (dst + n * (w / 8)) else dst).
Proof.
  intros Hs Hc Ha Hr Hm Hper Hw Hsrc Hdst Hn Hmod Ht Htr Hlen.
  destruct (chain_returns s c r ts w src dst n t) as (s1 & E & A & L); [done..|].
  exists (map (seg_desc r w src dst n ts) (seqZ 0 (tables_for n))), s1,
    (seg_desc r w src dst n ts (n / NU_PDMA_MAX_TXCNT)).
  split; [exact E|]. split; [exact L|]. rewrite map_decode_segs by done.
  assert (Hq : 0 <= n / NU_PDMA_MAX_TXCNT < tables_for n).
  { unfold tables_for, NU_PDMA_MAX_TXCNT in *. Z.div_mod_to_equations. lia. }
  split_and!.
  - rewrite total_plan by lia. by rewrite Hmod.
  - unfold tables_for. rewrite seqZ_app, map_app by lia. apply last_snoc.
  - rewrite decode_seg by done. cbn. unfold seg_cnt.
    replace (n - n / NU_PDMA_MAX_TXCNT * NU_PDMA_MAX_TXCNT) with 0; [done|].
    unfold NU_PDMA_MAX_TXCNT in *. Z.div_mod_to_equations. lia.
  - rewrite decode_seg by done. cbn [x_dst seg_xfer request]. unfold seg_addr, seg_off.
    replace (n / NU_PDMA_MAX_TXCNT * NU_PDMA_MAX_TXCNT) with n; [done|].
    unfold NU_PDMA_MAX_TXCNT in *. Z.div_mod_to_equations. lia.
Qed.

(** The first chained transfer, or one that needs another number of tables.
    Old tables are given back first.  If the pointer array cannot be had the call
    returns [- RT_ERROR]; if a table cannot be had the code asserts; otherwise the
    call does exactly what it does from a state in which the channel owns the right
    number of distinct tables in RAM ([chain_transfer_tiles] and
    [chain_transfer_overruns] then apply), and nothing but the heap, the tables and
    the channel's record of them has changed. *)
Theorem chain_allocates s c r w src dst n t :
  wf s -> is_chan c -> allocated s c = true -> znth (nu_pdma_chn_arr s) c = Some r ->
  NU_PDMA_MAX_TXCNT < n < 2 ^ 32 ->
  tables_state s r -> m_u32WantedSGTblNum r <> tables_for n ->
  nu_pdma_transfer c w src dst n t s = AssertFail \/
  (exists s', nu_pdma_transfer c w src dst n t s = Ret (- RT_ERROR, s') /\
     heap_frame (put_chn c (want_tables (tables_for n) 0 r) s) s') \/
  (exists s' p ts, nu_pdma_transfer c w src dst n t s = nu_pdma_transfer c w src dst n t s' /\
     wf s' /\ heap_frame (put_chn c (want_tables (tables_for n) p r) s) s' /\
     Z.of_nat (length ts) = tables_for n /\
     tables_ready s' (want_tables (tables_for n) p r) ts).
Proof.
  intros Hs Hc Ha Hr Hn Hst Hne. rewrite (chain_prefix s c r) by done.
  destruct (chain_tables_returns s c r n Hr Hst ltac:(unfold NU_PDMA_MAX_TXCNT in *; lia) Hne)
    as [E|[(s' & E & F)|(s' & p & ts & E & F & Hlen & Htr)]].
  - left. unfold bind. by rewrite E.
  - right. left. exists s'. split; [|done]. rewrite (bind_Ret _ _ _ _ _ E). cbn [negb].
    unfold _nu_pdma_free_sgtbls. rewrite bind_assoc.
    rewrite (bind_Ret _ _ _ _ _ (chn_eq s' c _ (put_chn_lookup _ _ _ _ _ Hr F))). done.
  - right. right. exists s', p, ts. pose proof (put_chn_lookup _ _ _ _ _ Hr F) as Hr'.
    split; [|split_and!; [|done..]].
    2: { eapply heap_frame_wf; [exact F|]. apply wf_set_chn; [done|]. rewrite length_zupd.
         by apply wf_chns. }
    rewrite (bind_Ret _ _ _ _ _ E).
    rewrite (chain_prefix s' c (want_tables (tables_for n) p r)); [| |done| |done|done].
    + unfold chain_tables. rewrite bind_assoc, (bind_Ret _ _ _ _ _ (chn_eq s' c _ Hr')).
      fold (tables_for n). change (m_u32WantedSGTblNum (want_tables (tables_for n) 0 r)) with (tables_for n).
      rewrite Z.eqb_refl. cbn [negb]. by rewrite bind_ret_l.
    + eapply heap_frame_wf; [exact F|]. apply wf_set_chn; [done|]. rewrite length_zupd.
      by apply wf_chns.
    + by rewrite (heap_frame_allocated _ _ c F).
Qed.

(** After the pointer array could not be had, the record still claims the
    tables it wanted; the next transfer of a count that needs as many takes them to
    be there and dereferences the NULL array. *)
Theorem chain_after_out_of_memory s c r w src dst n t :
  wf s -> is_chan c -> allocated s c = true ->
  znth (nu_pdma_chn_arr s) c = Some (want_tables (tables_for n) 0 r) ->
  NU_PDMA_MAX_TXCNT < n < 2 ^ 32 -> sgtbl s !! 0 = None ->
  nu_pdma_transfer c w src dst n t s = Undef.
Proof.
  intros Hs Hc Ha Hr Hn H0. rewrite (chain_prefix s c _ w src dst n t Hs Hc Ha Hr Hn).
  unfold chain_tables. rewrite bind_assoc, (bind_Ret _ _ _ _ _ (chn_eq s c _ Hr)).
  fold (tables_for n). change (m_u32WantedSGTblNum _) with (tables_for n) at 1.
  rewrite Z.eqb_refl. cbn [negb]. rewrite bind_ret_l. cbn [negb].
  rewrite (bind_Ret _ _ _ _ _ (chn_eq s c _ Hr)).
  change (m_u32WantedSGTblNum _) with (tables_for n) at 1.
  assert (exists k, Z.to_nat (tables_for n) = S k) as [k ->].
  { exists (Z.to_nat (tables_for n) - 1)%nat. unfold tables_for, NU_PDMA_MAX_TXCNT in *.
    Z.div_mod_to_equations. lia. }
  apply bind_Undef. cbn [chain_setup]. rewrite (bind_Ret _ _ _ _ _ (chn_eq s c _ Hr)).
  apply bind_Undef. unfold sgtbl_load. rewrite bind_gets.
  change (m_ppsSgtbl (want_tables (tables_for n) 0 r)) with 0. by rewrite H0.
Qed.
End chain.

(** ** Witnesses *)

(** The board after a first chained transfer of [n] elements of the memory channel. *)
Definition board_chain (n : Z) : drv :=
  match nu_pdma_transfer (HW := board_hw) (RH := board_heap) (CBS := board_cbs)
          0 32 0x80100000 0x80300000 n 0 board_m2m with
  | Ret (_, s) => s
  | _ => board_m2m
  end.

Definition chain_chn (k : Z) : nu_pdma_chn := want_tables k 0x80000000 m2m_chn.

Ltac by_eval := apply (bool_decide_unpack _); vm_compute; exact I.

Lemma board_chain_2 :
  let s := board_chain 65636 in let ts := [0x80000040; 0x80000080] in
  wf s /\ allocated s 0 = true /\ znth (nu_pdma_chn_arr s) 0 = Some (chain_chn 2) /\
  tables_ready s (chain_chn 2) ts /\ Z.of_nat (length ts) = tables_for 65636.
Proof.
  intros s ts. split; [apply wf_check_sound; vm_compute; reflexivity|].
  split; [vm_compute; reflexivity|]. split; [vm_compute; reflexivity|]. split; [|done].
  split; [done|done|vm_compute; reflexivity|by_eval|by_eval].
Qed.

Lemma board_chain_3 :
  let s := board_chain 131072 in let ts := [0x80000040; 0x80000080; 0x800000C0] in
  wf s /\ allocated s 0 = true /\ znth (nu_pdma_chn_arr s) 0 = Some (chain_chn 3) /\
  tables_ready s (chain_chn 3) ts /\ Z.of_nat (length ts) = tables_for 131072.
Proof.
  intros s ts. split; [apply wf_check_sound; vm_compute; reflexivity|].
  split; [vm_compute; reflexivity|]. split; [vm_compute; reflexivity|]. split; [|done].
  split; [done|done|vm_compute; reflexivity|by_eval|by_eval].
Qed.

Lemma chain_transfer_tiles_witness :
  exists ds s1, total_count (map decode ds) = 65636 /\
    linked 0 (hw_dsct (phw s1)) 0x80000040 [0x80000040; 0x80000080] ds.
Proof.
  destruct board_chain_2 as (Hw & Ha & Hr & Ht & Hl).
  destruct (@chain_transfer_tiles board_hw board_heap board_cbs (board_chain 65636) 0
    (chain_chn 2) _ 32 0x80100000 0x80300000 65636 0 Hw ltac:(chan_consts; lia) Ha Hr
    ltac:(cbv; split; discriminate) ltac:(cbv; split; [discriminate|reflexivity]) eq_refl eq_refl eq_refl
    ltac:(unfold NU_PDMA_MAX_TXCNT; lia) ltac:(discriminate) (or_introl eq_refl) Ht Hl)
    as (ds & s0 & s1 & d & _ & _ & _ & _ & _ & H1 & _ & H2).
  exists ds, s1. exact (conj H2 H1).
Defined.

(** 128 Ki words: the third table writes 65536 words from the end of the buffer. *)
Lemma chain_transfer_overruns_witness :
  exists ds d, total_count (map decode ds) = 196608 /\ last ds = Some d /\
    x_dst (decode d) = 0x80300000 + 131072 * 4.
Proof.
  destruct board_chain_3 as (Hw & Ha & Hr & Ht & Hl).
  destruct (@chain_transfer_overruns board_hw board_heap board_cbs (board_chain 131072) 0
    (chain_chn 3) _ 32 0x80100000 0x80300000 131072 0 Hw ltac:(chan_consts; lia) Ha Hr
    ltac:(cbv; split; discriminate) ltac:(cbv; split; [discriminate|reflexivity]) eq_refl eq_refl eq_refl
    ltac:(unfold NU_PDMA_MAX_TXCNT; lia) eq_refl (or_introl eq_refl) Ht Hl)
    as (ds & s1 & d & _ & _ & H1 & H2 & _ & H3).
  exists ds, d. exact (conj H1 (conj H2 H3)).
Defined.

Lemma chain_allocates_witness :
  nu_pdma_transfer (HW := board_hw) (RH := board_heap) (CBS := board_cbs)
    0 32 0x80100000 0x80300000 65636 0 board_m2m = AssertFail \/
  (exists s', nu_pdma_transfer (HW := board_hw) (RH := board_heap) (CBS := board_cbs)
      0 32 0x80100000 0x80300000 65636 0 board_m2m = Ret (- RT_ERROR, s')) \/
  exists s' p ts, Z.of_nat (length ts) = 2 /\ tables_ready s' (want_tables 2 p m2m_chn) ts.
Proof.
  assert (Hr : znth (nu_pdma_chn_arr board_m2m) 0 = Some m2m_chn) by (vm_compute; reflexivity).
  assert (Ha : allocated board_m2m 0 = true) by (vm_compute; reflexivity).
  destruct (@chain_allocates board_hw board_heap board_heap_spec board_cbs board_m2m 0 m2m_chn
    32 0x80100000 0x80300000 65636 0 wf_board_m2m ltac:(chan_consts; lia) Ha Hr
    ltac:(unfold NU_PDMA_MAX_TXCNT; lia) (or_introl (conj eq_refl eq_refl)) ltac:(discriminate))
    as [E|[(s' & E & _)|(s' & p & ts & _ & _ & _ & H1 & H2)]].
  - left. exact E.
  - right. left. exists s'. exact E.
  - right. right. exists s', p, ts. exact (conj H1 H2).
Defined.

(** The record as a failed allocation of the pointer array leaves it. *)
Definition board_oom : drv :=
  put_chn 0 (want_tables 2 0 m2m_chn) board_m2m.

Lemma chain_after_out_of_memory_witness :
  nu_pdma_transfer (HW := board_hw) (RH := board_heap) (CBS := board_cbs)
    0 32 0x80100000 0x80300000 65636 0 board_oom = Undef.
Proof.
  assert (Hw : wf board_oom) by (apply wf_check_sound; vm_compute; reflexivity).
  exact (@chain_after_out_of_memory board_hw board_heap board_cbs board_oom 0 m2m_chn
    32 0x80100000 0x80300000 65636 0 Hw ltac:(chan_consts; lia)
    ltac:(vm_compute; reflexivity) ltac:(vm_compute; reflexivity) ltac:(unfold NU_PDMA_MAX_TXCNT; lia)
    ltac:(vm_compute; reflexivity)).
Defined.
