(* ===== verification/PdmaIsr.v ===== *)
(** * The PDMA interrupt service routine

    [nu_pdma_isr]: the pending status bits are acknowledged, and the channels they
    name are served in increasing order, each once; what serving a channel calls. *)

From Stdlib Require Import ZArith Lia Bool Sorted.
From stdpp Require Import base tactics numbers list option gmap.
From S2P Require Import Prelude BitUtil PdmaRegs Pdma PdmaFacts PdmaAlloc PdmaDesc PdmaTimeout PdmaXfer.

Open Scope Z_scope.

(** ** The loop over the pending channels *)

(** The channels of a module from [k] on whose bit is set. *)
Definition pending_from (w k : Z) : list Z := flags_from PDMA_CH_MAX w k.

Definition pending (w : Z) : list Z := pending_from w 0.

Section isr.
Context `{HW : PdmaHw} `{HS : !PdmaHwSpec} `{CBS : Callbacks}.

Lemma isr_loop_from fuel PDMA st w k s :
  is_u32 w -> 0 <= k -> PDMA_CH_MAX - k <= Z.of_nat fuel ->
  (forall j, 0 <= j < k -> Z.testbit w j = false) ->
  isr_loop fuel PDMA st w s = for_each (pending_from w k) (isr_channel PDMA st) s.
Proof.
  intros Hw Hk Hfuel Hlow. revert w k s Hw Hk Hfuel Hlow.
  induction fuel as [|fuel IH]; intros w k s Hw Hk Hfuel Hlow; cbn [isr_loop];
    destruct (Z.ltb_spec (nu_ctz w) PDMA_CH_MAX) as [Hlt|Hge].
  1, 3: destruct (Z.eq_dec w 0) as [->|Hw0]; [by rewrite nu_ctz_0 in Hlt|].
  1, 2: destruct (nu_ctz_lowest w Hw Hw0) as (Hr & Hb & Hl).
  1, 2: assert (k <= nu_ctz w)
    by (destruct (Z.lt_ge_cases (nu_ctz w) k) as [Hk'|]; [|done];
        rewrite Hlow in Hb by lia; discriminate).
  1: lia.
  - unfold pending_from. rewrite (flags_from_next PDMA_CH_MAX w k (nu_ctz w)) by (done || lia || (intros; apply Hl; lia)).
    cbn [for_each]. apply bind_ext. intros [] s'. apply IH.
    + apply land_u32_l; [done|apply not32_u32].
    + lia.
    + lia.
    + intros j Hj. rewrite Z.land_spec, testbit_not32, testbit_bit by lia.
      destruct (Z.eq_dec j (nu_ctz w)) as [->|Hne].
      * rewrite Z.eqb_refl. cbn. by rewrite andb_false_r, andb_false_r.
      * rewrite Hl by lia. done.
  - unfold pending_from. rewrite flags_from_none; [done|]. intros j Hj.
    destruct (Z.eq_dec w 0) as [->|Hw0]; [apply Z.bits_0|].
    destruct (nu_ctz_lowest w Hw Hw0) as (_ & _ & Hl). apply Hl. lia.
  - unfold pending_from. rewrite flags_from_none; [done|]. intros j Hj.
    destruct (Z.eq_dec w 0) as [->|Hw0]; [apply Z.bits_0|].
    destruct (nu_ctz_lowest w Hw Hw0) as (_ & _ & Hl). apply Hl. lia.
Qed.

(** ** Acknowledgement *)

(** The status the routine reads. *)
Definition read_status (p : PDMA_T) : isr_status :=
  mkSts (ABTSTS p) (TDSTS p) (ALIGN p)
    (Z.shiftr (Z.land (INTSTS p) PDMA_INTSTS_REQTOFn_Msk) PDMA_INTSTS_REQTOFn_Pos).

Definition all_status (st : isr_status) : Z :=
  Z.lor (Z.lor (Z.lor (reqto_ch st) (tdsts st)) (abtsts st)) (unalignsts st).

Definition ack (p : PDMA_T) : PDMA_T :=
  let p := if tst (INTSTS p) PDMA_INTSTS_ABTIF_Msk then set_ABTSTS (Z.land (ABTSTS p) (not32 (ABTSTS p))) p else p in
  let p := if tst (INTSTS p) PDMA_INTSTS_TDIF_Msk then set_TDSTS (Z.land (TDSTS p) (not32 (TDSTS p))) p else p in
  let p := if tst (INTSTS p) PDMA_INTSTS_ALIGNF_Msk then set_ALIGN (Z.land (ALIGN p) (not32 (ALIGN p))) p else p in
  let reqto := Z.land (INTSTS p) PDMA_INTSTS_REQTOFn_Msk in
  if negb (reqto =? 0) then
    set_INTSTS (Z.land (INTSTS p) (not32 (Z.land reqto PDMA_INTSTS_REQTOFn_Msk))) p
  else p.

Definition ack_regs (b : Z) (p : PDMA_T) (s : drv) : drv :=
  set_phw (mkHw (<[b := p]> (hw_regs (phw s))) (hw_dsct (phw s))) s.

Lemma poke_eq b r v s p f :
  hw_regs (phw s) !! b = Some p -> hw_write r v p = f p ->
  on_hw (poke r v b) s = Ret (tt, ack_regs b (f p) s).
Proof. intros Hp Hf. unfold poke. rewrite (on_hw_eq _ _ _ _ (upd_reg_eq _ b _ p Hp)). by rewrite Hf. Qed.

(** A conditional acknowledgement. *)
Lemma cond_poke {A} (c : bool) b r v s p f (k : unit -> M drv A) :
  hw_regs (phw s) !! b = Some p -> hw_write r v p = f p ->
  bind (if c then on_hw (poke r v b) else ret tt) k s =
  k tt (ack_regs b (if c then f p else p) s).
Proof.
  intros Hp Hf. destruct c.
  - by rewrite (bind_Ret _ _ _ _ _ (poke_eq b r v s p f Hp Hf)).
  - rewrite bind_ret_l. unfold ack_regs. by rewrite insert_regs_id, set_phw_id.
Qed.

Lemma ack_regs_lookup b p s : hw_regs (phw (ack_regs b p s)) !! b = Some p.
Proof. apply lookup_insert_eq. Qed.

Lemma ack_regs_twice b p q s : ack_regs b p (ack_regs b q s) = ack_regs b p s.
Proof. unfold ack_regs. cbn. by rewrite insert_insert_eq. Qed.

Lemma isr_acks s b p :
  hw_regs (phw s) !! b = Some p ->
  nu_pdma_isr b s =
  isr_loop (Z.to_nat PDMA_CH_MAX) b (read_status p) (all_status (read_status p))
    (ack_regs b (ack p) s).
Proof.
  intros Hp. unfold nu_pdma_isr.
  do 4 rewrite (bind_Ret _ _ _ _ _ (on_hw_read _ s _ (reg_eq _ b _ p Hp))).
  rewrite (cond_poke _ b R_ABTSTS _ s p (fun q => set_ABTSTS (Z.land (ABTSTS q) (not32 (ABTSTS p))) q))
    by (done || apply hw_abtsts_w1c).
  set (p1 := if tst (INTSTS p) PDMA_INTSTS_ABTIF_Msk then _ else p).
  rewrite (cond_poke _ b R_TDSTS _ _ p1 (fun q => set_TDSTS (Z.land (TDSTS q) (not32 (TDSTS p))) q))
    by (apply ack_regs_lookup || apply hw_tdsts_w1c).
  rewrite ack_regs_twice.
  set (p2 := if tst (INTSTS p) PDMA_INTSTS_TDIF_Msk then _ else p1).
  rewrite (cond_poke _ b R_ALIGN _ _ p2 (fun q => set_ALIGN (Z.land (ALIGN q) (not32 (ALIGN p))) q))
    by (apply ack_regs_lookup || apply hw_align_w1c).
  rewrite ack_regs_twice.
  set (p3 := if tst (INTSTS p) PDMA_INTSTS_ALIGNF_Msk then _ else p2).
  rewrite (cond_poke _ b R_INTSTS _ _ p3 (fun q => set_INTSTS (Z.land (INTSTS q)
      (not32 (Z.land (Z.land (INTSTS p) PDMA_INTSTS_REQTOFn_Msk) PDMA_INTSTS_REQTOFn_Msk))) q))
    by (apply ack_regs_lookup || apply hw_intsts_w1c).
  rewrite ack_regs_twice. f_equal. f_equal.
  unfold ack, p3, p2, p1.
  by destruct (tst (INTSTS p) PDMA_INTSTS_ABTIF_Msk), (tst (INTSTS p) PDMA_INTSTS_TDIF_Msk) eqn:E2,
    (tst (INTSTS p) PDMA_INTSTS_ALIGNF_Msk) eqn:E3; cbn; rewrite ?E2, ?E3; cbn; rewrite ?E3.
Qed.

Definition status_u32 (p : PDMA_T) : Prop :=
  is_u32 (INTSTS p) /\ is_u32 (ABTSTS p) /\ is_u32 (TDSTS p) /\ is_u32 (ALIGN p).

Lemma all_status_u32 p : status_u32 p -> is_u32 (all_status (read_status p)).
Proof.
  intros (H1 & H2 & H3 & H4). unfold all_status, read_status. cbn.
  repeat apply lor_u32; try done.
  assert (Hl : is_u32 (Z.land (INTSTS p) PDMA_INTSTS_REQTOFn_Msk))
    by (apply land_u32_l; [done|vm_compute; discriminate]).
  unfold is_u32 in *.
  rewrite Z.shiftr_div_pow2 by (vm_compute; discriminate).
  change (2 ^ PDMA_INTSTS_REQTOFn_Pos) with 256. Z.div_mod_to_equations. lia.
Qed.

(** Bit [k] of the time-out flags. *)
Definition timeout_flag (p : PDMA_T) (k : Z) : bool := Z.testbit (INTSTS p) (PDMA_INTSTS_REQTOFn_Pos + k).

Lemma reqto_bit p k :
  0 <= k < PDMA_CH_MAX -> Z.testbit (reqto_ch (read_status p)) k = timeout_flag p k.
Proof.
  intros Hk. unfold read_status, timeout_flag. cbn. rewrite Z.shiftr_spec, Z.land_spec by lia.
  unfold PDMA_INTSTS_REQTOFn_Msk, PDMA_CH_Msk.
  change (Z.shiftl 1 PDMA_CH_MAX - 1) with (Z.ones PDMA_CH_MAX).
  rewrite Z.shiftl_spec, testbit_ones by (unfold PDMA_INTSTS_REQTOFn_Pos; chan_consts; lia).
  destruct (Z.ltb_spec (k + PDMA_INTSTS_REQTOFn_Pos - PDMA_INTSTS_REQTOFn_Pos) PDMA_CH_MAX); [|lia].
  by rewrite andb_true_r, Z.add_comm.
Qed.

Lemma pending_spec p k :
  k ∈ pending (all_status (read_status p)) <->
  0 <= k < PDMA_CH_MAX /\
  (timeout_flag p k || Z.testbit (TDSTS p) k || Z.testbit (ABTSTS p) k || Z.testbit (ALIGN p) k) = true.
Proof.
  unfold pending, pending_from, flags_from. rewrite list_elem_of_filter, elem_of_seqZ.
  assert (H : 0 <= k < PDMA_CH_MAX -> Z.testbit (all_status (read_status p)) k =
    (timeout_flag p k || Z.testbit (TDSTS p) k || Z.testbit (ABTSTS p) k || Z.testbit (ALIGN p) k)).
  { intros Hk. unfold all_status. rewrite !Z.lor_spec, reqto_bit by done. done. }
  split.
  - intros [Hb Hk]. split; [lia|]. rewrite <-H by lia. done.
  - intros [Hk Hb]. split; [by rewrite H|lia].
Qed.

Lemma land_not32_eq0 x : is_u32 x -> Z.land x (not32 x) = 0.
Proof.
  intros Hx. apply Z.bits_inj'; intros i Hi. autorewrite with bits.
  destruct (Z.testbit x i); [by rewrite andb_false_r|done].
Qed.

Lemma ack_timeouts p q k :
  INTSTS q = INTSTS p -> 0 <= k < PDMA_CH_MAX ->
  let r := Z.land (INTSTS p) PDMA_INTSTS_REQTOFn_Msk in
  timeout_flag (if negb (r =? 0)
    then set_INTSTS (Z.land (INTSTS p) (not32 (Z.land r PDMA_INTSTS_REQTOFn_Msk))) q else q) k = false.
Proof.
  intros Hq Hk r.
  assert (Hm : Z.testbit PDMA_INTSTS_REQTOFn_Msk (PDMA_INTSTS_REQTOFn_Pos + k) = true).
  { unfold PDMA_INTSTS_REQTOFn_Msk, PDMA_CH_Msk.
    change (Z.shiftl 1 PDMA_CH_MAX - 1) with (Z.ones PDMA_CH_MAX).
    rewrite Z.shiftl_spec, testbit_ones by (unfold PDMA_INTSTS_REQTOFn_Pos; chan_consts; lia).
    destruct (Z.ltb_spec (PDMA_INTSTS_REQTOFn_Pos + k - PDMA_INTSTS_REQTOFn_Pos) PDMA_CH_MAX); [done|lia]. }
  unfold timeout_flag. destruct (Z.eqb_spec r 0) as [Hr|Hr]; cbn.
  - rewrite Hq. pose proof (f_equal (fun x => Z.testbit x (PDMA_INTSTS_REQTOFn_Pos + k)) Hr) as Hb.
    cbn beta in Hb. unfold r in Hb. by rewrite Z.land_spec, Hm, andb_true_r, Z.bits_0 in Hb.
  - unfold r. rewrite Z.land_spec, testbit_not32, !Z.land_spec, Hm
      by (unfold PDMA_INTSTS_REQTOFn_Pos; lia).
    by destruct (Z.testbit (INTSTS p) _), (_ <? 32).
Qed.

Lemma ack_clears p :
  status_u32 p ->
  (tst (INTSTS p) PDMA_INTSTS_ABTIF_Msk = true -> ABTSTS (ack p) = 0) /\
  (tst (INTSTS p) PDMA_INTSTS_TDIF_Msk = true -> TDSTS (ack p) = 0) /\
  (tst (INTSTS p) PDMA_INTSTS_ALIGNF_Msk = true -> ALIGN (ack p) = 0) /\
  (forall k, 0 <= k < PDMA_CH_MAX -> timeout_flag (ack p) k = false).
Proof.
  intros (H1 & H2 & H3 & H4). unfold ack.
  destruct (tst (INTSTS p) PDMA_INTSTS_ABTIF_Msk); cbn;
  destruct (tst (INTSTS p) PDMA_INTSTS_TDIF_Msk); cbn;
  destruct (tst (INTSTS p) PDMA_INTSTS_ALIGNF_Msk); cbn.
  all: assert (Hto : forall q, INTSTS q = INTSTS p ->
    let r := Z.land (INTSTS p) PDMA_INTSTS_REQTOFn_Msk in
    forall k, 0 <= k < PDMA_CH_MAX ->
    timeout_flag (if negb (r =? 0)
      then set_INTSTS (Z.land (INTSTS p) (not32 (Z.land r PDMA_INTSTS_REQTOFn_Msk))) q else q) k = false)
    by (intros q Hq r k Hk; by apply ack_timeouts).
  all: split_and!; intros; try done; try (by apply Hto);
    destruct (negb _); cbn; by apply land_not32_eq0.
Qed.

Lemma rows_ack p : rows_ok p -> rows_ok (ack p).
Proof.
  intros H. unfold ack. by repeat match goal with |- context [if ?c then _ else _] => destruct c end.
Qed.

Lemma pending_sorted w : StronglySorted Z.lt (pending w).
Proof.
  unfold pending, pending_from, flags_from. rewrite Z.sub_0_r.
  assert (Hs : StronglySorted Z.lt (seqZ 0 PDMA_CH_MAX))
    by (vm_compute; repeat constructor).
  induction Hs as [|k l Hl IH Hk]; [constructor|]. rewrite filter_cons.
  destruct (decide _); [|done]. constructor; [done|]. rewrite Forall_forall in *.
  intros j [_ Hj]%list_elem_of_filter. auto.
Qed.

(** ** Serving a channel *)

(** The calls that serving channel [k] of module [i] makes, in order: the disable
    callback, then the event callback when the filter lets an event through. *)
Definition serve_calls (s : drv) (st : isr_status) (i k : Z) : list (Z * Z * Z) :=
  match znth (nu_pdma_chn_arr s) (k + i * PDMA_CH_MAX) with
  | Some r =>
      if allocated s (k + i * PDMA_CH_MAX) && negb (m_pfnCBHandler (m_sCB_Event r) =? 0) then
        (if negb (m_pfnCBHandler (m_sCB_Disable r) =? 0) then
           [(m_pfnCBHandler (m_sCB_Disable r), m_pvUserData (m_sCB_Disable r),
             m_u32Reserved (m_sCB_Disable r))] else []) ++
        (if tst (m_u32EventFilter r) (isr_events st k) then
           [(m_pfnCBHandler (m_sCB_Event r), m_pvUserData (m_sCB_Event r), isr_events st k)] else [])
      else []
  | None => []
  end.

(** Callbacks that leave the driver's state alone. *)
Definition quiet_callbacks : Prop := forall h u a s, cb_run h u a s = Ret (tt, s).

(** The idle time-out of a channel can be re-armed. *)
Definition rearmable (s : drv) (st : isr_status) (i k : Z) : Prop :=
  forall r, znth (nu_pdma_chn_arr s) (k + i * PDMA_CH_MAX) = Some r ->
    is_u32 (m_u32IdleTimeout_us r) /\
    (Z.testbit (reqto_ch st) k = true -> m_u32IdleTimeout_us r = 0 \/ k < 8).

Definition logged (L : list (Z * Z * Z)) (s : drv) : drv := set_cb_log (rev L ++ cb_log s) s.

(** [s'] is [s] with the calls [L] made and other registers. *)
Definition served (s s' : drv) (L : list (Z * Z * Z)) : Prop :=
  wf s' /\ exists h, s' = set_phw h (logged L s).

Lemma served_trans s1 s2 s3 L1 L2 : served s1 s2 L1 -> served s2 s3 L2 -> served s1 s3 (L1 ++ L2).
Proof.
  intros [W1 (h1 & ->)] [W2 (h2 & ->)]. split; [done|]. exists h2.
  unfold logged. cbn. by rewrite rev_app_distr, app_assoc.
Qed.

Lemma served_refl s : wf s -> served s s [].
Proof. intros Hs. split; [done|]. exists (phw s). by destruct s. Qed.

Lemma call_handler_served h u a s :
  quiet_callbacks -> wf s -> exists s', call_handler h u a s = Ret (tt, s') /\ served s s' [(h, u, a)].
Proof.
  intros Hq Hs. unfold call_handler. rewrite bind_modify, Hq. eexists. split; [done|].
  split; [by destruct Hs; split|]. exists (phw s). by destruct s.
Qed.

Lemma served_chn s s' L : served s s' L -> nu_pdma_chn_arr s' = nu_pdma_chn_arr s.
Proof. by intros [_ (h & ->)]. Qed.
Lemma served_allocated s s' L c : served s s' L -> allocated s' c = allocated s c.
Proof. by intros [_ (h & ->)]. Qed.

Lemma rearm_served s c r :
  wf s -> is_chan c -> allocated s c = true -> znth (nu_pdma_chn_arr s) c = Some r ->
  is_u32 (m_u32IdleTimeout_us r) -> m_u32IdleTimeout_us r = 0 \/ c mod PDMA_CH_MAX < 8 ->
  exists rv s', nu_pdma_timeout_set c (m_u32IdleTimeout_us r) s = Ret (rv, s') /\ served s s' [].
Proof.
  intros Hs Hc Ha Hr Hu Hcase.
  destruct (timeout_any s c _ r Hs Hc Ha Hr Hcase) as (rv & p & p' & _ & _ & E & Hw & _).
  eexists rv, _. split; [exact E|].
  assert (Hid : set_idle c (m_u32IdleTimeout_us r) r s = s).
  { unfold set_idle. rewrite u32_small by done.
    assert (set_m_u32IdleTimeout_us (m_u32IdleTimeout_us r) r = r) as -> by (by destruct r).
    rewrite zupd_same by done. by destruct s. }
  rewrite Hid. split; [by apply wf_set_phw|]. eexists. by destruct s.
Qed.

(** An optional step that makes the calls [L]. *)
Definition serves (m : M drv unit) (s : drv) (L : list (Z * Z * Z)) : Prop :=
  exists s', m s = Ret (tt, s') /\ served s s' L.

Lemma serves_bind m (k : unit -> M drv unit) s L1 L2 :
  serves m s L1 -> (forall s', served s s' L1 -> serves (k tt) s' L2) -> serves (bind m k) s (L1 ++ L2).
Proof.
  intros (s1 & E1 & H1) Hk. destruct (Hk s1 H1) as (s2 & E2 & H2). exists s2.
  rewrite (bind_Ret _ _ _ _ _ E1). split; [done|]. by eapply served_trans.
Qed.

Lemma serves_ret s : wf s -> serves (ret tt) s [].
Proof. intros Hs. exists s. split; [done|]. by apply served_refl. Qed.

(** Serving one channel. *)
Lemma isr_channel_serves s st i k :
  quiet_callbacks -> wf s -> 0 <= i < PDMA_CNT -> 0 <= k < PDMA_CH_MAX -> rearmable s st i k ->
  serves (isr_channel (module_base i) st k) s (serve_calls s st i k).
Proof.
  intros Hq Hs Hi Hk Hre. destruct (chan_split i k Hi Hk) as (Hc & Ei & Ek).
  set (c := k + i * PDMA_CH_MAX) in *. unfold serve_calls, isr_channel, serves. fold c.
  assert ((module_base i - DEF_PDMA_BASE_START) / 0x10000 = i) as ->
    by (unfold module_base; Z.div_mod_to_equations; lia).
  destruct (wf_mask_lookup s i Hs Hi) as [m Hm]. destruct (wf_chn_lookup s c Hs Hc) as [r Hr].
  destruct (Hre r Hr) as [Hu Hto]. rewrite Hr, bind_gets, (bind_deref _ m) by done. fold c.
  assert (tst m (bit k) = allocated s c) as ->
    by (rewrite tst_bit by lia; unfold allocated; by rewrite Ei, Ek, Hm).
  destruct (allocated s c) eqn:Ha; cbn [andb]; [|by apply serves_ret].
  rewrite (bind_Ret _ _ _ _ _ (chn_eq s c r Hr)).
  destruct (negb (m_pfnCBHandler (m_sCB_Event r) =? 0)) eqn:Hev; [|by apply serves_ret].
  assert (Hkeep : forall s' L, served s s' L -> znth (nu_pdma_chn_arr s') c = Some r)
    by (intros s' L H; by rewrite (served_chn _ _ _ H)).
  apply (serves_bind _ _ s []).
  { destruct (tst (reqto_ch st) (bit k)); [|by apply serves_ret].
    destruct (on_hw_op ∅ _ s (hw_op_DisableTimeout ∅ i (bit k) Hi) Hs) as (h & E & Hh & _).
    exists (set_phw h s). split; [done|]. split; [by apply wf_set_phw|]. exists h. by destruct s. }
  intros s1 H1. apply serves_bind.
  { destruct (negb (m_pfnCBHandler (m_sCB_Disable r) =? 0)); [|by apply serves_ret, H1].
    apply call_handler_served; [done|apply H1]. }
  intros s2 H2.
  pose proof (served_trans _ _ _ _ _ H1 H2) as H12. cbn [app] in H12.
  unfold serves. rewrite (bind_Ret _ _ _ _ _ (chn_eq s2 c r (Hkeep _ _ H12))), Hev, andb_true_r.
  rewrite <-(app_nil_r (if tst _ _ then _ else [])). apply serves_bind.
  { destruct (tst (m_u32EventFilter r) (isr_events st k)); [|by apply serves_ret, H2].
    apply call_handler_served; [done|apply H2]. }
  intros s3 H3. pose proof (served_trans _ _ _ _ _ H12 H3) as H13.
  rewrite tst_bit by lia. destruct (Z.testbit (reqto_ch st) k) eqn:Et; [|by apply serves_ret, H3].
  unfold serves. rewrite (bind_Ret _ _ _ _ _ (chn_eq s3 c r (Hkeep _ _ H13))).
  destruct (rearm_served s3 c r) as (rv & s4 & E4 & H4);
    [apply H13|done|by rewrite (served_allocated _ _ _ c H13)|by apply (Hkeep _ _ H13)|done| |].
  { destruct (Hto eq_refl); [by left|right; by rewrite Ek]. }
  rewrite (bind_Ret _ _ _ _ _ E4). exists s4. split; [done|done].
Qed.

Lemma serve_all s st i l :
  quiet_callbacks -> wf s -> 0 <= i < PDMA_CNT ->
  (forall k, k ∈ l -> 0 <= k < PDMA_CH_MAX /\ rearmable s st i k) ->
  serves (for_each l (isr_channel (module_base i) st)) s (concat (map (serve_calls s st i) l)).
Proof.
  intros Hq. revert s. induction l as [|k l IH]; intros s Hs Hi Hl; cbn [for_each map concat].
  { by apply serves_ret. }
  destruct (Hl k) as [Hk Hre]; [by left|]. apply serves_bind; [by apply isr_channel_serves|].
  intros s' H'. assert (Hsame : map (serve_calls s st i) l = map (serve_calls s' st i) l).
  { apply map_ext. intros j. unfold serve_calls.
    by rewrite (served_chn _ _ _ H'), (served_allocated _ _ _ _ H'). }
  rewrite Hsame. apply IH; [apply H'|done|]. intros j Hj. destruct (Hl j) as [? Hj']; [by right|].
  split; [done|]. unfold rearmable. by rewrite (served_chn _ _ _ H').
Qed.

(** ** Properties *)

(** C14: the interrupt routine, whatever the callbacks do.  It acknowledges the abort,
    transfer-done and alignment flags whose summary bit is set and every time-out
    flag, and then serves exactly the channels with a pending flag, each once, in
    increasing order: the scan by [nu_ctz] terminates and misses none. *)
Theorem isr_serves_pending s i p :
  0 <= i < PDMA_CNT -> hw_regs (phw s) !! module_base i = Some p -> status_u32 p ->
  let b := module_base i in
  let st := read_status p in
  nu_pdma_isr b s = for_each (pending (all_status st)) (isr_channel b st) (ack_regs b (ack p) s) /\
  (forall k, k ∈ pending (all_status st) <-> 0 <= k < PDMA_CH_MAX /\
     (timeout_flag p k || Z.testbit (TDSTS p) k || Z.testbit (ABTSTS p) k || Z.testbit (ALIGN p) k) = true) /\
  StronglySorted Z.lt (pending (all_status st)) /\
  (tst (INTSTS p) PDMA_INTSTS_ABTIF_Msk = true -> ABTSTS (ack p) = 0) /\
  (tst (INTSTS p) PDMA_INTSTS_TDIF_Msk = true -> TDSTS (ack p) = 0) /\
  (tst (INTSTS p) PDMA_INTSTS_ALIGNF_Msk = true -> ALIGN (ack p) = 0) /\
  (forall k, 0 <= k < PDMA_CH_MAX -> timeout_flag (ack p) k = false).
Proof.
  intros Hi Hp Hu b st. split.
  { rewrite (isr_acks s b p Hp). apply isr_loop_from; [by apply all_status_u32|done|done|].
    intros j Hj. lia. }
  split; [apply pending_spec|]. split; [apply pending_sorted|]. by apply ack_clears.
Qed.

(** Event delivery.  When the callbacks leave the driver alone, serving an
    interrupt returns and makes exactly these calls, in channel order: for each
    pending allocated channel with an event callback, its disable callback if any,
    then the event callback - when the channel's filter lets one of its events
    through - with the event word, whose bits are the channel's four status flags.
    Apart from the registers nothing else changes. *)
Theorem isr_delivers_events s i p :
  quiet_callbacks -> wf s -> 0 <= i < PDMA_CNT ->
  hw_regs (phw s) !! module_base i = Some p -> status_u32 p ->
  (forall k, 0 <= k < PDMA_CH_MAX -> rearmable s (read_status p) i k) ->
  let st := read_status p in
  (exists h, nu_pdma_isr (module_base i) s =
     Ret (tt, set_phw h (logged (concat (map (serve_calls s st i) (pending (all_status st)))) s)) /\
     wf_hw h) /\
  (forall k, 0 <= k < PDMA_CH_MAX ->
     tst (isr_events st k) NU_PDMA_EVENT_ABORT = Z.testbit (ABTSTS p) k /\
     tst (isr_events st k) NU_PDMA_EVENT_TRANSFER_DONE = Z.testbit (TDSTS p) k /\
     tst (isr_events st k) NU_PDMA_EVENT_ALIGNMENT = Z.testbit (ALIGN p) k /\
     tst (isr_events st k) NU_PDMA_EVENT_TIMEOUT = timeout_flag p k).
Proof.
  intros Hq Hs Hi Hp Hu Hre st. split.
  - rewrite (isr_acks s (module_base i) p Hp). fold st.
    rewrite (isr_loop_from _ _ _ _ 0) by (by apply all_status_u32 || lia || done).
    set (s0 := ack_regs _ _ s).
    assert (Hs0 : wf s0).
    { apply wf_set_phw; [done|]. destruct (wf_reg _ (wf_phw s Hs) i Hi) as (q & Hq' & Hrow).
      rewrite Hp in Hq'. injection Hq' as <-.
      apply (wf_hw_upd_reg _ _ (fun _ => ack p) p); [by apply wf_phw|done|].
      intros _. by apply rows_ack. }
    destruct (serve_all s0 st i (pending (all_status st)) Hq Hs0 Hi) as (s' & E & Hw & h & ->).
    { intros k Hk%pending_spec. split; [apply Hk|]. apply (Hre k), Hk. }
    exists h. split; [exact E|]. apply (wf_phw _ Hw).
  - intros k Hk. unfold isr_events. rewrite <-(reqto_bit p k Hk). fold st.
    change (abtsts st) with (ABTSTS p). change (tdsts st) with (TDSTS p).
    change (unalignsts st) with (ALIGN p). rewrite !tst_bit by lia.
    by destruct (Z.testbit (ABTSTS p) k), (Z.testbit (TDSTS p) k), (Z.testbit (ALIGN p) k),
      (Z.testbit (reqto_ch st) k).
Qed.
End isr.

(** ** Witnesses *)

(** Channel 0 allocated with an event callback for completed transfers; module 0
    reports channels 0 and 3 done and channel 0 timed out. *)
Definition irq_chn : nu_pdma_chn :=
  set_m_u32EventFilter NU_PDMA_EVENT_TRANSFER_DONE
    (set_m_sCB_Event (mkCB 0 0x1000 7 0) (set_m_spPeripCtl (mkPeriph PDMA_MEM eMemCtl_SrcInc_DstInc) chn_zero)).

Definition irq_regs : PDMA_T := set_INTSTS 0x102 (set_TDSTS 0x9 board_regs).

Definition board_irq : drv :=
  ack_regs (module_base 0) irq_regs
    (set_nu_pdma_chn_arr (zupd (nu_pdma_chn_arr board_m2m) 0 irq_chn) board_m2m).

Lemma irq_status_u32 : status_u32 irq_regs.
Proof. by vm_compute. Qed.

Lemma isr_serves_pending_witness :
  nu_pdma_isr (HW := board_hw) (CBS := board_cbs) (module_base 0) board_irq =
  for_each [0; 3] (isr_channel (CBS := board_cbs) (module_base 0) (mkSts 0 0x9 0 0x1))
    (ack_regs (module_base 0) (set_INTSTS 0x2 (set_TDSTS 0 board_regs)) board_irq).
Proof.
  assert (Hp : hw_regs (phw board_irq) !! module_base 0 = Some irq_regs) by (vm_compute; reflexivity).
  destruct (@isr_serves_pending board_hw board_hw_spec board_cbs board_irq 0 irq_regs
    ltac:(chan_consts; lia) Hp irq_status_u32) as (H & _).
  exact H.
Defined.

Lemma isr_delivers_events_witness :
  exists h, nu_pdma_isr (HW := board_hw) (CBS := board_cbs) (module_base 0) board_irq =
    Ret (tt, set_phw h (logged [(0x1000, 7, 10)] board_irq)) /\ wf_hw h.
Proof.
  assert (Hp : hw_regs (phw board_irq) !! module_base 0 = Some irq_regs) by (vm_compute; reflexivity).
  assert (Hw : wf board_irq) by (apply wf_check_sound; vm_compute; reflexivity).
  assert (Hre : forall k, 0 <= k < PDMA_CH_MAX -> rearmable board_irq (read_status irq_regs) 0 k).
  { intros k Hk r Hr.
    assert (Hall : Forall (fun r => m_u32IdleTimeout_us r = 0) (nu_pdma_chn_arr board_irq))
      by (apply (bool_decide_unpack _); vm_compute; exact I).
    pose proof (Forall_znth _ _ _ _ Hall Hr) as H0. cbn beta in H0. rewrite H0.
    split; [by vm_compute|by left]. }
  destruct (@isr_delivers_events board_hw board_hw_spec board_cbs board_irq 0 irq_regs
    ltac:(intros h u a s; reflexivity) Hw ltac:(chan_consts; lia) Hp irq_status_u32 Hre) as (H & _).
  exact H.
Defined.
