(* ===== verification/PdmaMem.v ===== *)
(** * PDMA memory-to-memory functions

    The end of [drv_pdma.c]: a pool of actors - memory-to-memory channels, each with
    a semaphore its interrupt callback releases - behind [nu_pdma_memfun],
    [nu_pdma_mempush] and [nu_pdma_memcpy].  A semaphore is its value, [None] for a
    NULL pointer.  This file follows one thread, for which the pool's mutex is free when it
    takes it; while the thread blocks, the rest of the system runs: [env_step].  The
    theorems say what [nu_pdma_memcpy] asks of the actors and what an actor returns.
    [PdmaPool] has the functions of several threads, their accesses interleaved. *)

From Stdlib Require Import ZArith Lia Bool.
From stdpp Require Import base tactics numbers list option gmap.
From S2P Require Import Prelude BitUtil PdmaRegs Pdma PdmaFacts PdmaAlloc PdmaDesc PdmaTimeout PdmaXfer.

Open Scope Z_scope.

Definition RT_SEM_VALUE_MAX : Z := 65535.
Definition sizeof_actor : Z := 12.

(** The addresses of the actor array and of [nu_pdma_memfun_cb]. *)
Class MemAddr : Type := { actor_base : Z; memfun_cb_addr : Z }.

(** The surroundings: what happens while a thread waits and for how many steps it is
    followed, and whether the kernel has memory for a semaphore or mutex. *)
Class MemEnv : Type := {
  env_step : M drv unit;
  env_fuel : nat;
  obj_create_ok : drv -> bool
}.

Section mem.
Context `{ADDR : MemAddr} `{HW : PdmaHw} `{HS : !PdmaHwSpec} `{RH : RtHeap} `{CBS : Callbacks} `{ENV : MemEnv}.

Definition actor (idx : Z) : M drv nu_pdma_memfun_actor :=
  let! arr := gets nu_pdma_memfun_actor_arr in deref (znth arr idx).

Definition upd_actor (f : nu_pdma_memfun_actor -> nu_pdma_memfun_actor) (idx : Z) : M drv unit :=
  let! a := actor idx in
  modify (fun s => set_nu_pdma_memfun_actor_arr (zupd (nu_pdma_memfun_actor_arr s) idx (f a)) s).

Definition actor_ptr (idx : Z) : Z := actor_base + sizeof_actor * idx.

(** [rt_sem_create], with its assertion. *)
Definition sem_create (value : Z) : M drv (option Z) :=
  let! ok := gets obj_create_ok in
  rt_assert ok ;; ret (Some value).

(** [rt_sem_release], with the assertion on its result: NULL and a full semaphore
    trip assertions. *)
Definition sem_up (sem : option Z) : M drv (option Z) :=
  match sem with
  | None => fail_assert
  | Some n => rt_assert (n <? RT_SEM_VALUE_MAX) ;; ret (Some (n + 1))
  end.

(** [rt_sem_take] with [RT_WAITING_FOREVER], on the semaphore [get] reads and [put]
    writes. *)
Fixpoint sem_take (fuel : nat) (get : M drv (option Z)) (put : Z -> M drv unit) : M drv unit :=
  match fuel with
  | O => out_of_fuel
  | S fuel =>
      let! sem := get in
      match sem with
      | None => fail_assert
      | Some n => if 0 <? n then put (n - 1) else env_step ;; sem_take fuel get put
      end
  end.

Definition pool_take : M drv unit :=
  sem_take env_fuel (gets nu_pdma_memfun_actor_pool_sem)
    (fun n => modify (set_nu_pdma_memfun_actor_pool_sem (Some n))).

Definition actor_take (idx : Z) : M drv unit :=
  sem_take env_fuel (let! a := actor idx in ret (m_psSemMemFun a))
    (fun n => upd_actor (set_m_psSemMemFun (Some n)) idx).

(** The loop of [nu_pdma_memfun_actor_init]: the number of actors that got a channel. *)
Fixpoint actor_init_loop (js : list Z) (i : Z) : M drv Z :=
  match js with
  | [] => ret i
  | j :: js =>
      upd_actor (fun _ => mkActor 0 0 None) j ;;
      let! c := nu_pdma_channel_allocate PDMA_MEM in
      upd_actor (set_m_i32ChannID c) j ;;
      if negb (c =? - RT_ERROR) then
        let! sem := sem_create 0 in
        upd_actor (set_m_psSemMemFun sem) j ;;
        actor_init_loop js (i + 1)
      else ret i
  end.

Definition nu_pdma_memfun_actor_init : M drv unit :=
  nu_pdma_init ;;
  let! i := actor_init_loop (seqZ 0 NU_PDMA_MEMFUN_ACTOR_MAX) 0 in
  if negb (i =? 0) then
    modify (set_nu_pdma_memfun_actor_maxnum i) ;;
    modify (set_nu_pdma_memfun_actor_mask (not32 (bit i - 1))) ;;
    let! sem := sem_create i in
    modify (set_nu_pdma_memfun_actor_pool_sem sem) ;;
    let! _lock := sem_create 1 in
    ret tt
  else ret tt.

Definition nu_pdma_memfun_cb (pvUserData u32Events : Z) : M drv unit :=
  let idx := (pvUserData - actor_base) / sizeof_actor in
  upd_actor (set_m_u32Result u32Events) idx ;;
  let! a := actor idx in
  let! sem := sem_up (m_psSemMemFun a) in
  upd_actor (set_m_psSemMemFun sem) idx.

(** The section of [nu_pdma_memfun_employ] under the mutex. *)
Definition memfun_pick : M drv Z :=
  let! mask := gets nu_pdma_memfun_actor_mask in
  let idx := nu_cto mask in
  if negb (idx =? 32) then
    modify (set_nu_pdma_memfun_actor_mask (Z.lor mask (bit idx))) ;; ret idx
  else ret (-1).

Definition nu_pdma_memfun_employ : M drv Z :=
  let! sem := gets nu_pdma_memfun_actor_pool_sem in
  match sem with
  | None => ret (-1)
  | Some _ => pool_take ;; memfun_pick
  end.

(** [while ((idx = nu_pdma_memfun_employ()) < 0);] *)
Fixpoint employ_loop (fuel : nat) : M drv Z :=
  match fuel with
  | O => out_of_fuel
  | S fuel =>
      let! idx := nu_pdma_memfun_employ in
      if idx <? 0 then employ_loop fuel else ret idx
  end.

(** The section of [nu_pdma_memfun] under the mutex: the actor is free again. *)
Definition memfun_clear (idx : Z) : M drv unit :=
  modify (fun s => set_nu_pdma_memfun_actor_mask
    (Z.land (nu_pdma_memfun_actor_mask s) (not32 (bit idx))) s).

(** [rt_sem_release(nu_pdma_memfun_actor_pool_sem)] *)
Definition pool_release : M drv unit :=
  let! sem := gets nu_pdma_memfun_actor_pool_sem in
  let! sem := sem_up sem in
  modify (set_nu_pdma_memfun_actor_pool_sem sem).

(** [nu_pdma_memfun] between employing the actor [idx] and waiting for it. *)
Definition memfun_request (idx dest src u32DataWidth u32TransferCnt eMemCtl : Z) : M drv unit :=
  let! a := actor idx in
  let! _r := nu_pdma_channel_memctrl_set (m_i32ChannID a) eMemCtl in
  let! _r := nu_pdma_filtering_set (m_i32ChannID a)
    (Z.lor NU_PDMA_EVENT_ABORT NU_PDMA_EVENT_TRANSFER_DONE) in
  let! _r := nu_pdma_callback_register (m_i32ChannID a)
    (Some (mkCB eCBType_Event memfun_cb_addr (actor_ptr idx) 0)) in
  upd_actor (set_m_u32Result 0) idx ;;
  let! a := actor idx in
  let! _r := nu_pdma_transfer (m_i32ChannID a) u32DataWidth src dest u32TransferCnt 0 in
  ret tt.

(** The elements moved, once the actor [idx] has been woken. *)
Definition memfun_result (idx u32TransferCnt : Z) : M drv Z :=
  let! a := actor idx in
  let! n := (if tst (m_u32Result a) NU_PDMA_EVENT_TRANSFER_DONE then ret u32TransferCnt
             else let! left := nu_pdma_non_transfer_count_get (m_i32ChannID a) in
                  ret (u32 (u32TransferCnt - left))) in
  let! a := actor idx in
  (if tst (m_u32Result a) NU_PDMA_EVENT_ABORT then nu_pdma_channel_terminate (m_i32ChannID a)
   else ret tt) ;;
  ret n.

Definition nu_pdma_memfun (dest src u32DataWidth u32TransferCnt eMemCtl : Z) : M drv Z :=
  let! idx := employ_loop env_fuel in
  memfun_request idx dest src u32DataWidth u32TransferCnt eMemCtl ;;
  actor_take idx ;;
  let! n := memfun_result idx u32TransferCnt in
  memfun_clear idx ;;
  pool_release ;;
  ret n.

Definition nu_pdma_mempush (dest src data_width transfer_count : Z) : M drv Z :=
  if (data_width =? 8) || (data_width =? 16) || (data_width =? 32)
  then nu_pdma_memfun dest src data_width transfer_count eMemCtl_SrcInc_DstFix
  else ret 0.

(** The loop of [nu_pdma_memcpy], for the element sizes [js]; [None] is its
    [goto exit_nu_pdma_memcpy], [Some] the offset at the end of the loop. *)
Fixpoint memcpy_loop (js : list Z) (dest src u32Offset u32Remaining : Z) : M drv (option Z) :=
  match js with
  | [] => ret (Some u32Offset)
  | i :: js =>
      if 0 <? u32Remaining then
        let u32src := u32 (src + u32Offset) in
        let u32dest := u32 (dest + u32Offset) in
        if (u32src mod i =? u32dest mod i) && (u32src mod i =? 0) &&
           (i <=? Z.land u32Remaining (not32 (i - 1)))
        then
          let u32TXCnt := u32Remaining / i in
          let! n := nu_pdma_memfun u32dest u32src (i * 8) u32TXCnt eMemCtl_SrcInc_DstInc in
          if negb (u32TXCnt =? n) then ret None else
          memcpy_loop js dest src (u32 (u32Offset + u32 (u32TXCnt * i)))
            (u32 (u32Remaining - u32 (u32TXCnt * i)))
        else memcpy_loop js dest src u32Offset u32Remaining
      else ret (Some u32Offset)
  end.

Definition nu_pdma_memcpy (dest src count : Z) : M drv Z :=
  let! r := memcpy_loop [4; 2; 1] dest src 0 count in
  match r with
  | Some u32Offset => if count =? u32Offset then ret dest else ret 0
  | None => ret 0
  end.

Definition rt_hw_pdma_memfun_init : M drv Z := nu_pdma_memfun_actor_init ;; ret 0.

(** ** What [nu_pdma_memcpy] asks for *)

(** A request: element size in bytes, offset in the buffers, element count. *)
Definition request_seg : Type := Z * Z * Z.

Definition seg_fits (dest src off rem i : Z) : bool :=
  ((dest + off) mod i =? 0) && ((src + off) mod i =? 0) && (i <=? rem).

(** The requests for element sizes [js] from offset [off], with [rem] bytes left:
    each size that both addresses are aligned to takes what it can. *)
Fixpoint memcpy_plan (js : list Z) (dest src off rem : Z) : list request_seg :=
  match js with
  | [] => []
  | i :: js =>
      if seg_fits dest src off rem i then
        (i, off, rem / i) :: memcpy_plan js dest src (off + rem / i * i) (rem - rem / i * i)
      else memcpy_plan js dest src off rem
  end.

(** The requests made one after the other, up to the first that moves less. *)
Fixpoint run_plan (dest src : Z) (segs : list request_seg) : M drv bool :=
  match segs with
  | [] => ret true
  | (i, off, cnt) :: segs =>
      let! n := nu_pdma_memfun (u32 (dest + off)) (u32 (src + off)) (i * 8) cnt eMemCtl_SrcInc_DstInc in
      if negb (cnt =? n) then ret false else run_plan dest src segs
  end.

(** The requests cover [off, total) without gap or overlap, each aligned in both
    buffers. *)
Fixpoint tiles (dest src off total : Z) (segs : list request_seg) : Prop :=
  match segs with
  | [] => off = total
  | (i, o, cnt) :: segs =>
      o = off /\ (i = 4 \/ i = 2 \/ i = 1) /\ 0 < cnt /\
      (dest + o) mod i = 0 /\ (src + o) mod i = 0 /\
      tiles dest src (off + cnt * i) total segs
  end.

Definition elem_size (i : Z) : Prop := i = 4 \/ i = 2 \/ i = 1.

Lemma u32_mod_elem x i : elem_size i -> u32 x mod i = x mod i.
Proof.
  intros Hi. unfold u32. apply Z.mod_mod_divide.
  destruct Hi as [->|[->| ->]]; [by exists (2 ^ 30)|by exists (2 ^ 31)|by exists (2 ^ 32)].
Qed.

(** [RT_ALIGN_DOWN] of a word to an element size. *)
Lemma align_down_elem x i :
  elem_size i -> is_u32 x -> Z.land x (not32 (i - 1)) = x / i * i.
Proof.
  intros Hi Hx.
  assert (exists k, 0 <= k <= 2 /\ i = 2 ^ k /\ i - 1 = Z.ones k) as (k & Hk & Ei & Eo).
  { destruct Hi as [->|[->| ->]]; [by exists 2|by exists 1|by exists 0]. }
  rewrite Eo, Ei, <-Z.shiftr_div_pow2, <-Z.shiftl_mul_pow2 by lia.
  apply Z.bits_inj'; intros j Hj. rewrite Z.land_spec, testbit_not32, testbit_ones by lia.
  rewrite Z.shiftl_spec by lia.
  destruct (Z.ltb_spec j k).
  - rewrite andb_false_r, andb_false_r. by rewrite Z.testbit_neg_r by lia.
  - rewrite Z.shiftr_spec by lia. replace (j - k + k) with j by lia. cbn [negb]. rewrite andb_true_r.
    destruct (Z.ltb_spec j 32); [by rewrite andb_true_r|]. by rewrite (u32_high x).
Qed.

Lemma align_down_fits x i : elem_size i -> is_u32 x -> (i <=? Z.land x (not32 (i - 1))) = (i <=? x).
Proof.
  intros Hi Hx. rewrite align_down_elem by done. apply eq_true_iff_eq. rewrite !Z.leb_le.
  unfold is_u32 in Hx. destruct Hi as [->|[->| ->]]; Z.div_mod_to_equations; lia.
Qed.

(** The test of the loop is [seg_fits]. *)
Lemma memcpy_test dest src off rem i :
  elem_size i -> is_u32 rem ->
  (u32 (src + off) mod i =? u32 (dest + off) mod i) && (u32 (src + off) mod i =? 0) &&
  (i <=? Z.land rem (not32 (i - 1))) = seg_fits dest src off rem i.
Proof.
  intros Hi Hr. rewrite !u32_mod_elem, align_down_fits by done. unfold seg_fits.
  apply eq_true_iff_eq. rewrite !andb_true_iff, !Z.eqb_eq. intuition congruence.
Qed.

Lemma plan_no_rest js dest src off : Forall elem_size js -> memcpy_plan js dest src off 0 = [].
Proof.
  revert off. induction js as [|i js IH]; intros off Hjs; cbn [memcpy_plan]; [done|].
  apply Forall_cons in Hjs as [Hi Hjs]. unfold seg_fits.
  destruct (Z.leb_spec i 0); [destruct Hi as [->|[->| ->]]; lia|].
  rewrite andb_false_r. by apply IH.
Qed.

Definition plan_end (segs : list request_seg) (off : Z) : Z :=
  foldl (fun o '(i, _, cnt) => o + cnt * i) off segs.

Lemma memcpy_loop_eq js dest src off rem s :
  Forall elem_size js -> 0 <= off -> 0 <= rem -> off + rem < 2 ^ 32 ->
  memcpy_loop js dest src off rem s =
  (let! ok := run_plan dest src (memcpy_plan js dest src off rem) in
   ret (if ok then Some (plan_end (memcpy_plan js dest src off rem) off) else None)) s.
Proof.
  revert off rem s. induction js as [|i js IH]; intros off rem s Hjs Ho Hr Hle; [done|].
  cbn [memcpy_loop]. destruct (Z.ltb_spec 0 rem) as [Hpos|Hz].
  2: { assert (rem = 0) as -> by lia. by rewrite plan_no_rest. }
  apply Forall_cons in Hjs as [Hi Hjs]. rewrite memcpy_test by (done || unfold is_u32; lia).
  cbn [memcpy_plan]. destruct (seg_fits dest src off rem i) eqn:Hf; [|by apply IH].
  cbn [run_plan plan_end foldl]. rewrite bind_assoc. apply bind_ext. intros n s'.
  destruct (negb (rem / i =? n)); [done|].
  assert (Hdiv : 0 <= rem / i * i <= rem)
    by (destruct Hi as [->|[->| ->]]; Z.div_mod_to_equations; lia).
  rewrite (u32_small (rem / i * i)) by (unfold is_u32; lia).
  rewrite !u32_small by (unfold is_u32; lia). apply IH; [done|lia..].
Qed.

(** With byte elements at the end, nothing is left over. *)
Lemma plan_tiles js dest src off rem :
  Forall elem_size js -> 0 <= rem -> 0 <= off ->
  tiles dest src off (off + rem) (memcpy_plan (js ++ [1%Z]) dest src off rem) /\
  plan_end (memcpy_plan (js ++ [1%Z]) dest src off rem) off = off + rem /\
  (length (memcpy_plan (js ++ [1%Z]) dest src off rem) <= length js + 1)%nat.
Proof.
  revert off rem. induction js as [|i js IH]; intros off rem Hjs Hr Ho; cbn [app memcpy_plan].
  - unfold seg_fits. rewrite !Z.mod_1_r. cbn [Z.eqb andb]. destruct (Z.leb_spec 1 rem).
    + cbn. rewrite Z.div_1_r, !Z.mod_1_r. split_and!; [done|by right; right|lia|done|done|lia|lia|lia].
    + cbn. split_and!; lia.
  - apply Forall_cons in Hjs as [Hi Hjs]. destruct (seg_fits dest src off rem i) eqn:Hf.
    + unfold seg_fits in Hf. rewrite !andb_true_iff, !Z.eqb_eq, Z.leb_le in Hf.
      assert (Hdiv : 0 < rem / i /\ 0 <= rem / i * i <= rem)
        by (destruct Hi as [->|[->| ->]]; Z.div_mod_to_equations; lia).
      destruct (IH (off + rem / i * i) (rem - rem / i * i)) as (H1 & H2 & H3); [done|lia|lia|].
      replace (off + rem / i * i + (rem - rem / i * i)) with (off + rem) in * by lia.
      cbn [tiles plan_end foldl length]. split_and!; [done|done|lia|apply Hf|apply Hf|done|done|lia].
    + destruct (IH off rem) as (H1 & H2 & H3); [done|lia|lia|]. split_and!; [done|done|cbn; lia].
Qed.

(** ** Initialisation of the pool *)

(** A pool of [m] actors, none employed, as the initialisation leaves it. *)
Record pool_ready (s : drv) (m : Z) : Prop := {
  pr_range : 1 <= m <= NU_PDMA_MEMFUN_ACTOR_MAX;
  pr_max : nu_pdma_memfun_actor_maxnum s = m;
  pr_mask : nu_pdma_memfun_actor_mask s = not32 (bit m - 1);
  pr_sem : nu_pdma_memfun_actor_pool_sem s = Some m
}.

Lemma actor_eq s j a : znth (nu_pdma_memfun_actor_arr s) j = Some a -> actor j s = Ret (a, s).
Proof. intros H. unfold actor. rewrite bind_gets. unfold deref. by rewrite H. Qed.

Definition put_actor (j : Z) (a : nu_pdma_memfun_actor) (s : drv) : drv :=
  set_nu_pdma_memfun_actor_arr (zupd (nu_pdma_memfun_actor_arr s) j a) s.

Lemma upd_actor_eq f s j a :
  znth (nu_pdma_memfun_actor_arr s) j = Some a -> upd_actor f j s = Ret (tt, put_actor j (f a) s).
Proof. intros H. unfold upd_actor. by rewrite (bind_Ret _ _ _ _ _ (actor_eq s j a H)). Qed.

Lemma wf_put_actor j a s : wf s -> wf (put_actor j a s).
Proof. by intros []. Qed.

Lemma put_actor_lookup s j a a' :
  znth (nu_pdma_memfun_actor_arr s) j = Some a ->
  znth (nu_pdma_memfun_actor_arr (put_actor j a' s)) j = Some a'.
Proof. intros H. apply znth_zupd_eq. by eapply znth_Some. Qed.

(** After [i] turns of the loop: the first [i] actors own the channels [cs]; [s0] is
    the state after [nu_pdma_init]. *)
Record recruited (s0 s : drv) (i : Z) (cs : list Z) : Prop := {
  rc_wf : wf s;
  rc_inited : nu_pdma_inited s = true;
  rc_len : length (nu_pdma_memfun_actor_arr s) = Z.to_nat NU_PDMA_MEMFUN_ACTOR_MAX;
  rc_count : Z.of_nat (length cs) = i;
  rc_nodup : NoDup cs;
  rc_new : Forall (fun c => is_chan c /\ allocated s0 c = false /\ allocated s c = true) cs;
  rc_keeps : forall c, allocated s0 c = true -> allocated s c = true;
  rc_actors : forall j c, znth cs j = Some c ->
    znth (nu_pdma_memfun_actor_arr s) j = Some (mkActor c 0 (Some 0));
  rc_pool : nu_pdma_memfun_actor_pool_sem s = nu_pdma_memfun_actor_pool_sem s0
}.

Lemma mem_in_pool : u32 PDMA_MEM ∈ g_nu_pdma_peripheral_ctl_pool.*1.
Proof. by left. Qed.

Lemma takes_allocated s s' c per mem d :
  wf s -> wf s' -> takes s s' c per mem -> is_chan c ->
  allocated s' d = (d =? c) || allocated s d.
Proof.
  intros Hs Hs' Ht Hc. destruct (decide (is_chan d)) as [Hd|Hd]; [by apply (takes_set _ _ _ _ _ Ht)|].
  destruct (Z.eqb_spec d c) as [->|]; [done|]. cbn.
  assert (forall x, wf x -> allocated x d = false) as Hno.
  { intros x Hx. unfold allocated. destruct (znth _ _) as [m|] eqn:E; [|done].
    destruct Hd. apply znth_Some in E. rewrite (wf_masks x Hx) in E. chan_consts.
    Z.div_mod_to_equations. lia. }
  by rewrite !Hno.
Qed.

(** One more actor. *)
Lemma recruit_one s0 s i cs :
  recruited s0 s i cs -> 0 <= i < NU_PDMA_MEMFUN_ACTOR_MAX ->
  let s1 := put_actor i (mkActor 0 0 None) s in
  match first_free s1 with
  | Some c => exists s2, nu_pdma_channel_allocate PDMA_MEM s1 = Ret (c, s2) /\ 0 <= c /\
      znth (nu_pdma_memfun_actor_arr s2) i = Some (mkActor 0 0 None) /\
      recruited s0 (put_actor i (mkActor c 0 (Some 0)) s2) (i + 1) (cs ++ [c])
  | None => nu_pdma_channel_allocate PDMA_MEM s1 = Ret (- RT_ERROR, s1) /\
      forall d, is_chan d -> allocated s d = true
  end.
Proof.
  intros [R1 R2 R3 R4 R5 R6 R7 R8 R9] Hi s1.
  assert (Hs1 : wf s1) by (by apply wf_put_actor).
  destruct (allocate_known s1 PDMA_MEM Hs1 R2 mem_in_pool) as (mem & _ & H).
  pose proof (first_free_inv s1) as Hff. destruct (first_free s1) as [c|].
  2: { split; [exact H|exact Hff]. }
  destruct H as (Hc & Hf & s2 & E & Hs2 & Ht). change (allocated s c = false) in Hf.
  exists s2. split; [done|]. split; [apply Hc|].
  pose proof (takes_rest _ _ _ _ _ Ht) as Hrest.
  assert (Harr : nu_pdma_memfun_actor_arr s2 = nu_pdma_memfun_actor_arr s1) by (by rewrite Hrest).
  assert (Hold : exists a, znth (nu_pdma_memfun_actor_arr s) i = Some a)
    by (apply znth_in_range; rewrite R3; lia).
  destruct Hold as [a Ha].
  assert (Hnew : znth (nu_pdma_memfun_actor_arr s2) i = Some (mkActor 0 0 None))
    by (rewrite Harr; by eapply put_actor_lookup).
  split; [done|].
  assert (Hall : forall d, allocated s2 d = (d =? c) || allocated s d)
    by (intros d; by apply (takes_allocated s1 s2 c (u32 PDMA_MEM) mem)).
  split.
  - by apply wf_put_actor.
  - cbn. by rewrite Hrest.
  - cbn. rewrite length_zupd, Harr. cbn. by rewrite length_zupd.
  - rewrite length_app. cbn. lia.
  - apply NoDup_app. split; [done|]. split; [|apply NoDup_singleton].
    intros d Hd ->%list_elem_of_singleton. rewrite Forall_forall in R6.
    destruct (R6 c Hd) as (_ & _ & E1). by rewrite E1 in Hf.
  - apply Forall_app. split.
    + eapply Forall_impl; [exact R6|]. intros d (H1 & H2 & H3). cbn. split_and!; [done..|].
      change (allocated s2 d = true). by rewrite Hall, H3, orb_true_r.
    + constructor; [|done]. split_and!; [done| |].
      * destruct (allocated s0 c) eqn:E0; [|done]. apply R7 in E0. by rewrite E0 in Hf.
      * change (allocated s2 c = true). by rewrite Hall, Z.eqb_refl.
  - intros d Hd. change (allocated s2 d = true). by rewrite Hall, (R7 d Hd), orb_true_r.
  - intros j d Hj. cbn. destruct (Z.eq_dec j i) as [->|Hne].
    + rewrite znth_zupd_eq by (by eapply znth_Some).
      assert (d = c) as ->; [|done]. unfold znth in Hj. destruct (Z.ltb_spec i 0); [lia|].
      rewrite lookup_app_r in Hj by lia. replace (Z.to_nat i - length cs)%nat with O in Hj by lia.
      by injection Hj.
    + assert (Hj' : znth cs j = Some d).
      { unfold znth in *. destruct (Z.ltb_spec j 0); [done|].
        destruct (decide (Z.to_nat j < length cs)%nat); [by rewrite lookup_app_l in Hj|].
        rewrite lookup_app_r in Hj by lia.
        apply list_lookup_singleton_Some in Hj as [Hj _]. lia. }
      rewrite znth_zupd_ne by (lia || (apply znth_Some in Hj'; lia)).
      rewrite Harr. cbn. rewrite znth_zupd_ne by lia. by apply R8.
  - cbn. by rewrite Hrest.
Qed.

Lemma sem_create_cases n s :
  sem_create n s = AssertFail \/ sem_create n s = Ret (Some n, s).
Proof. unfold sem_create. rewrite bind_gets. unfold bind, rt_assert. destruct (obj_create_ok s); auto. Qed.

(** The whole loop. *)
Lemma recruit_all n s0 s i cs :
  recruited s0 s i cs -> 0 <= i -> i + Z.of_nat n = NU_PDMA_MEMFUN_ACTOR_MAX ->
  actor_init_loop (seqZ i (Z.of_nat n)) i s = AssertFail \/
  exists k cs' s1 s2, actor_init_loop (seqZ i (Z.of_nat n)) i s = Ret (k, s2) /\
    recruited s0 s1 k cs' /\ 0 <= k <= NU_PDMA_MEMFUN_ACTOR_MAX /\
    (s2 = s1 /\ k = NU_PDMA_MEMFUN_ACTOR_MAX \/
     s2 = put_actor k (mkActor (- RT_ERROR) 0 None) s1 /\ k < NU_PDMA_MEMFUN_ACTOR_MAX /\
       forall d, is_chan d -> allocated s1 d = true).
Proof.
  revert s i cs. induction n as [|n IH]; intros s i cs Hr Hi Hn.
  { right. exists i, cs, s, s. split_and!; [done|done|lia|lia|]. left. split; [done|lia]. }
  rewrite seqZ_cons by lia. replace (Z.pred (Z.of_nat (S n))) with (Z.of_nat n) by lia.
  replace (Z.succ i) with (i + 1) by lia. cbn [actor_init_loop].
  destruct (znth_in_range (nu_pdma_memfun_actor_arr s) i) as [a Ha]; [rewrite (rc_len _ _ _ _ Hr); lia|].
  rewrite (bind_Ret _ _ _ _ _ (upd_actor_eq _ s i a Ha)).
  pose proof (recruit_one s0 s i cs Hr ltac:(lia)) as H. cbn zeta in H.
  set (s1 := put_actor i _ s) in *. destruct (first_free s1) as [c|].
  - destruct H as (s2 & E & Hc & Hnew & Hr2). rewrite (bind_Ret _ _ _ _ _ E).
    rewrite (bind_Ret _ _ _ _ _ (upd_actor_eq _ s2 i _ Hnew)).
    destruct (Z.eqb_spec c (- RT_ERROR)) as [|_]; [unfold RT_ERROR in *; lia|]. cbn [negb].
    destruct (sem_create_cases 0 (put_actor i (set_m_i32ChannID c (mkActor 0 0 None)) s2)) as [Es|Es].
    { left. by apply bind_AssertFail. }
    rewrite (bind_Ret _ _ _ _ _ Es).
    rewrite (bind_Ret _ _ _ _ _ (upd_actor_eq _ _ i _ (put_actor_lookup s2 i _ _ Hnew))).
    assert (Hput : put_actor i (set_m_psSemMemFun (Some 0) (set_m_i32ChannID c (mkActor 0 0 None)))
      (put_actor i (set_m_i32ChannID c (mkActor 0 0 None)) s2) = put_actor i (mkActor c 0 (Some 0)) s2).
    { unfold put_actor. cbn. by rewrite zupd_zupd. }
    rewrite Hput. apply (IH _ _ (cs ++ [c])); [done|lia|lia].
  - destruct H as (E & Hfull). rewrite (bind_Ret _ _ _ _ _ E).
    rewrite (bind_Ret _ _ _ _ _ (upd_actor_eq _ s1 i _ (put_actor_lookup s i _ _ Ha))).
    rewrite Z.eqb_refl. cbn [negb]. right.
    exists i, cs, s, (put_actor i (mkActor (- RT_ERROR) 0 None) s). split_and!.
    + unfold ret. unfold s1, put_actor, set_nu_pdma_memfun_actor_arr. cbn. by rewrite zupd_zupd.
    + done.
    + lia.
    + lia.
    + right. split_and!; [done|lia|done].
Qed.

Lemma init_keeps_actors s s0 :
  nu_pdma_init s = Ret (tt, s0) -> nu_pdma_memfun_actor_arr s0 = nu_pdma_memfun_actor_arr s.
Proof.
  unfold nu_pdma_init. rewrite bind_gets. destruct (nu_pdma_inited s); [by injection 1 as <-|].
  rewrite bind_modify. change (seqZ 0 PDMA_CNT) with [0; 1]. cbn [for_each].
  set (s1 := set_nu_pdma_chn_arr _ s).
  assert (Hm : forall i x y, init_module i x = Ret (tt, y) ->
    nu_pdma_memfun_actor_arr y = nu_pdma_memfun_actor_arr x).
  { intros i x y. unfold init_module. rewrite bind_modify.
    intros (u1 & x1 & (h1 & ->)%on_hw_inv & E)%bind_inv. apply bind_inv in E as (u2 & x2 & H2 & E).
    apply on_hw_inv in H2 as (h2 & ->). apply bind_inv in E as (u3 & x3 & H3 & E).
    apply on_hw_inv in H3 as (h3 & ->). by injection E as <-. }
  intros (a & s2 & E1 & E2)%bind_inv. apply bind_inv in E1 as (b & s3 & E3 & E4).
  apply bind_inv in E4 as (c & s4 & E5 & E6). injection E6 as <- <-. destruct b, c.
  apply Hm in E3, E5. injection E2 as <-. cbn. by rewrite E5, E3.
Qed.

Lemma recruited_start s :
  wf s -> nu_pdma_inited s = true ->
  length (nu_pdma_memfun_actor_arr s) = Z.to_nat NU_PDMA_MEMFUN_ACTOR_MAX ->
  recruited s s 0 [].
Proof.
  intros Hw Hi Hl. split; try done; [apply NoDup_nil_2|].
  intros j c Hj. apply znth_Some in Hj. cbn in Hj. lia.
Qed.

(** What the callback of an actor does: the result is stored and its semaphore
    released. *)
Lemma memfun_cb_returns s idx a ev n :
  znth (nu_pdma_memfun_actor_arr s) idx = Some a -> m_psSemMemFun a = Some n ->
  n < RT_SEM_VALUE_MAX ->
  nu_pdma_memfun_cb (actor_ptr idx) ev s =
  Ret (tt, put_actor idx (set_m_psSemMemFun (Some (n + 1)) (set_m_u32Result ev a)) s).
Proof.
  intros Ha Hn Hlt. unfold nu_pdma_memfun_cb, actor_ptr.
  replace ((actor_base + sizeof_actor * idx - actor_base) / sizeof_actor) with idx
    by (unfold sizeof_actor; Z.div_mod_to_equations; lia).
  rewrite (bind_Ret _ _ _ _ _ (upd_actor_eq _ s idx a Ha)).
  pose proof (put_actor_lookup s idx a (set_m_u32Result ev a) Ha) as Ha1.
  rewrite (bind_Ret _ _ _ _ _ (actor_eq _ idx _ Ha1)). cbn [m_psSemMemFun set_m_u32Result].
  rewrite Hn. unfold sem_up. rewrite bind_assoc, bind_assert by lia. rewrite bind_ret_l.
  rewrite (upd_actor_eq _ _ idx _ Ha1). unfold put_actor. cbn. by rewrite zupd_zupd.
Qed.

(** ** One use of an actor *)

(** The channel settings change channel records only. *)
Definition chn_only (m : M drv Z) : Prop := forall s, wf s ->
  exists v l, m s = Ret (v, set_nu_pdma_chn_arr l s) /\ length l = length (nu_pdma_chn_arr s).

Lemma chn_only_refl (v : Z) s :
  exists v' l, Ret (v, s) = Ret (v', set_nu_pdma_chn_arr l s) /\ length l = length (nu_pdma_chn_arr s).
Proof. exists v, (nu_pdma_chn_arr s). split; [by destruct s|done]. Qed.

Lemma chn_only_upd f c (v : Z) s r :
  znth (nu_pdma_chn_arr s) c = Some r ->
  exists v' l, (upd_chn f c ;; ret v) s = Ret (v', set_nu_pdma_chn_arr l s) /\
    length l = length (nu_pdma_chn_arr s).
Proof.
  intros Hr. rewrite (bind_Ret _ _ _ _ _ (upd_chn_eq f s c r Hr)). eexists v, _.
  split; [done|]. by rewrite length_zupd.
Qed.

Lemma chn_only_filter c f : is_chan c -> chn_only (nu_pdma_filtering_set c f).
Proof.
  intros Hc s Hs. unfold nu_pdma_filtering_set. rewrite (bind_Ret _ _ _ _ _ (check_eq s c Hs Hc)).
  destruct (wf_chn_lookup s c Hs Hc) as [r Hr].
  destruct (negb (allocated s c)); [apply chn_only_refl|]. by eapply chn_only_upd.
Qed.

Lemma chn_only_memctl c m : is_chan c -> chn_only (nu_pdma_channel_memctrl_set c m).
Proof.
  intros Hc s Hs. unfold nu_pdma_channel_memctrl_set. rewrite (bind_Ret _ _ _ _ _ (check_eq s c Hs Hc)).
  destruct (wf_chn_lookup s c Hs Hc) as [r Hr].
  destruct (negb (allocated s c)); [apply chn_only_refl|].
  destruct (_ || _); [apply chn_only_refl|]. rewrite (bind_Ret _ _ _ _ _ (chn_eq s c r Hr)).
  destruct (_ && _); [apply chn_only_refl|]. by eapply chn_only_upd.
Qed.

Lemma chn_only_register c cb : is_chan c -> chn_only (nu_pdma_callback_register c (Some cb)).
Proof.
  intros Hc s Hs. unfold nu_pdma_callback_register. rewrite (bind_Ret _ _ _ _ _ (check_eq s c Hs Hc)).
  destruct (wf_chn_lookup s c Hs Hc) as [r Hr].
  destruct (negb (allocated s c)); [apply chn_only_refl|].
  destruct (cb_slot _) as [[g f]|]; [|apply chn_only_refl].
  by apply (chn_only_upd (fun x => f (cb_assign cb (g x)) x) c _ s r).
Qed.

(** Employing the lowest free actor. *)
Lemma employ_returns s n :
  nu_pdma_memfun_actor_pool_sem s = Some n -> 0 < n ->
  nu_cto (nu_pdma_memfun_actor_mask s) <> 32 -> 0 <= nu_cto (nu_pdma_memfun_actor_mask s) ->
  (0 < env_fuel)%nat ->
  let idx := nu_cto (nu_pdma_memfun_actor_mask s) in
  employ_loop env_fuel s =
  Ret (idx, set_nu_pdma_memfun_actor_mask (Z.lor (nu_pdma_memfun_actor_mask s) (bit idx))
              (set_nu_pdma_memfun_actor_pool_sem (Some (n - 1)) s)).
Proof.
  intros Hsem Hn H32 Hge Hf idx. destruct env_fuel as [|fuel] eqn:Ef; [lia|]. cbn [employ_loop].
  unfold nu_pdma_memfun_employ. rewrite bind_assoc, bind_gets, Hsem. rewrite bind_assoc.
  unfold pool_take. rewrite Ef. cbn [sem_take]. rewrite bind_assoc, bind_gets, Hsem.
  destruct (Z.ltb_spec 0 n); [|lia]. rewrite bind_modify. unfold memfun_pick.
  rewrite bind_assoc, bind_gets. cbn [nu_pdma_memfun_actor_mask set_nu_pdma_memfun_actor_pool_sem].
  fold idx. destruct (Z.eqb_spec idx 32); [done|]. cbn [negb].
  rewrite bind_assoc, bind_modify, bind_ret_l. by destruct (Z.ltb_spec idx 0); [lia|].
Qed.

(** Waiting for an actor nobody will wake, when nothing else happens meanwhile. *)
Lemma take_stuck fuel s idx a :
  (forall s, env_step s = Ret (tt, s)) ->
  znth (nu_pdma_memfun_actor_arr s) idx = Some a -> m_psSemMemFun a = Some 0 ->
  sem_take fuel (let! a := actor idx in ret (m_psSemMemFun a))
    (fun n => upd_actor (set_m_psSemMemFun (Some n)) idx) s = OutOfFuel.
Proof.
  intros Hq Ha H0. induction fuel as [|fuel IH]; [done|]. cbn [sem_take].
  rewrite bind_assoc, (bind_Ret _ _ _ _ _ (actor_eq s idx a Ha)), bind_ret_l, H0.
  change (0 <? 0) with false. cbn iota. by rewrite (bind_Ret _ _ _ _ _ (Hq s)).
Qed.

Lemma transfer_misaligned s c w src dst n :
  wf s -> is_chan c -> allocated s c = true -> width_ok w = true -> 0 < n <= NU_PDMA_MAX_TXCNT ->
  src mod (w / 8) <> 0 \/ dst mod (w / 8) <> 0 ->
  nu_pdma_transfer c w src dst n 0 s = Ret (RT_EINVAL, s).
Proof.
  intros Hs Hc Ha Hw Hn Hmis. unfold nu_pdma_transfer.
  rewrite (bind_Ret _ _ _ _ _ (check_eq s c Hs Hc)), Ha. cbn [negb].
  destruct (Z.eqb_spec n 0); [lia|]. destruct (Z.ltb_spec NU_PDMA_MAX_TXCNT n); [lia|].
  destruct (wf_chn_lookup s c Hs Hc) as [r Hr].
  rewrite (bind_Ret _ _ _ _ _ (chn_eq s c r Hr)).
  assert (Hno : setup_ok s c (dsct_addr (NU_PDMA_GET_BASE c) (NU_PDMA_GET_MOD_CHIDX c)) w src dst n = false).
  { unfold setup_ok. destruct Hmis as [Hz|Hz];
      [destruct (Z.eqb_spec (src mod (w / 8)) 0)|destruct (Z.eqb_spec (dst mod (w / 8)) 0)];
      try done; by rewrite ?andb_false_r. }
  by rewrite (bind_Ret _ _ _ _ _ (setup_refused s c _ w src dst n 0 0 Hs Hc Hno)).
Qed.

(** ** Properties *)

(** C16: [nu_pdma_memcpy] is its plan.  For any buffers that fit the address space
    the call is: make the requests of [memcpy_plan] in order, each an increasing
    copy, and return NULL at the first that moves less than asked, the destination
    if none does.  The plan covers the [count] bytes from the first to the last
    without gap or overlap, in at most three requests, each of an element size both
    addresses are aligned to. *)
Theorem memcpy_is_its_plan dest src count s :
  0 <= count < 2 ^ 32 ->
  let plan := memcpy_plan [4; 2; 1] dest src 0 count in
  nu_pdma_memcpy dest src count s =
    (let! ok := run_plan dest src plan in ret (if ok then dest else 0)) s /\
  tiles dest src 0 count plan /\ (length plan <= 3)%nat.
Proof.
  intros Hc plan.
  assert (Hel : Forall elem_size [4; 2; 1])
    by (repeat constructor; unfold elem_size; auto).
  destruct (plan_tiles [4; 2] dest src 0 count) as (H1 & H2 & H3);
    [by inversion_clear Hel as [|? ? ? Hel']; inversion_clear Hel'; repeat constructor|lia|lia|].
  cbn [app] in H1, H2, H3. fold plan in H1, H2, H3. cbn [length Nat.add] in H3.
  split_and!; [|done|done]. unfold nu_pdma_memcpy.
  unfold bind at 1. rewrite memcpy_loop_eq by (done || lia). fold plan. rewrite H2.
  unfold bind. destruct (run_plan dest src plan s) as [[[] s']| | |]; [|done..].
  unfold ret. by rewrite Z.eqb_refl.
Qed.

(** Initialisation of the pool.  Unless the kernel has no memory for a semaphore
    (then the code asserts), it takes one fresh memory-to-memory channel for each
    actor until four have one or no channel is free; the actors' channels are
    distinct and allocated, their semaphores empty; and with at least one actor the
    pool is as [PdmaPool] starts with it. *)
Theorem actor_init_spec s :
  wf s -> length (nu_pdma_memfun_actor_arr s) = Z.to_nat NU_PDMA_MEMFUN_ACTOR_MAX ->
  nu_pdma_memfun_actor_init s = AssertFail \/
  exists s0 s' k cs, nu_pdma_init s = Ret (tt, s0) /\
    nu_pdma_memfun_actor_init s = Ret (tt, s') /\ wf s' /\
    Z.of_nat (length cs) = k /\ 0 <= k <= NU_PDMA_MEMFUN_ACTOR_MAX /\ NoDup cs /\
    Forall (fun c => is_chan c /\ allocated s0 c = false /\ allocated s' c = true) cs /\
    (forall j c, znth cs j = Some c ->
       znth (nu_pdma_memfun_actor_arr s') j = Some (mkActor c 0 (Some 0))) /\
    (k < NU_PDMA_MEMFUN_ACTOR_MAX -> forall d, is_chan d -> allocated s' d = true) /\
    (if k =? 0 then nu_pdma_memfun_actor_pool_sem s' = nu_pdma_memfun_actor_pool_sem s0
     else pool_ready s' k).
Proof.
  intros Hs Hl. destruct (init_any s Hs) as (s0 & E0 & Hs0 & Hin & _).
  assert (Hl0 : length (nu_pdma_memfun_actor_arr s0) = Z.to_nat NU_PDMA_MEMFUN_ACTOR_MAX)
    by (by rewrite (init_keeps_actors s s0 E0)).
  unfold nu_pdma_memfun_actor_init. rewrite (bind_Ret _ _ _ _ _ E0).
  change NU_PDMA_MEMFUN_ACTOR_MAX with (Z.of_nat 4).
  destruct (recruit_all 4 s0 s0 0 [] (recruited_start s0 Hs0 Hin Hl0)) as
    [E|(k & cs & s1 & s2 & E & Hr & Hk & Hcase)]; [done|done| |].
  { left. by apply bind_AssertFail. }
  rewrite (bind_Ret _ _ _ _ _ E).
  assert (Hw2 : wf s2) by (destruct Hcase as [[-> _]|(-> & _ & _)]; [apply Hr|apply wf_put_actor, Hr]).
  assert (Halloc : forall d, allocated s2 d = allocated s1 d)
    by (by destruct Hcase as [[-> _]|(-> & _ & _)]).
  assert (Hact : forall j c, znth cs j = Some c ->
    znth (nu_pdma_memfun_actor_arr s2) j = Some (mkActor c 0 (Some 0))).
  { intros j c Hj. pose proof (rc_actors _ _ _ _ Hr j c Hj) as Ha.
    destruct Hcase as [[-> _]|(-> & _ & _)]; [done|]. cbn.
    apply znth_Some in Hj. pose proof (rc_count _ _ _ _ Hr). by rewrite znth_zupd_ne by lia. }
  assert (Hpool : nu_pdma_memfun_actor_pool_sem s2 = nu_pdma_memfun_actor_pool_sem s0).
  { destruct Hcase as [[-> _]|(-> & _ & _)]; apply (rc_pool _ _ _ _ Hr). }
  assert (Hnew : Forall (fun c => is_chan c /\ allocated s0 c = false /\ allocated s2 c = true) cs).
  { eapply Forall_impl; [apply (rc_new _ _ _ _ Hr)|]. intros c Hc. cbn. by rewrite Halloc. }
  assert (Hfull : k < NU_PDMA_MEMFUN_ACTOR_MAX -> forall d, is_chan d -> allocated s2 d = true).
  { intros Hlt d Hd. rewrite Halloc. destruct Hcase as [[_ ->]|(_ & _ & Hf)]; [lia|by apply Hf]. }
  destruct (Z.eqb_spec k 0) as [Hk0|Hk0]; cbn [negb].
  - right. exists s0, s2, k, cs. rewrite Hk0 in *.
    split; [done|]. split; [done|]. split; [done|]. split; [apply Hr|]. split; [done|].
    split; [apply (rc_nodup _ _ _ _ Hr)|]. by split_and!.
  - rewrite !bind_modify. set (s3 := set_nu_pdma_memfun_actor_mask _ _).
    destruct (sem_create_cases k s3) as [Es|Es]; [by left; apply bind_AssertFail|].
    rewrite (bind_Ret _ _ _ _ _ Es). rewrite bind_modify. set (s4 := set_nu_pdma_memfun_actor_pool_sem _ _).
    destruct (sem_create_cases 1 s4) as [Es4|Es4]; [by left; apply bind_AssertFail|].
    rewrite (bind_Ret _ _ _ _ _ Es4). right. exists s0, s4, k, cs.
    split; [done|]. split; [done|]. split; [by destruct Hw2; split|]. split; [apply Hr|].
    split; [done|]. split; [apply (rc_nodup _ _ _ _ Hr)|]. split; [done|]. split; [done|].
    split; [done|]. destruct (Z.eqb_spec k 0); [done|]. split; cbn; try done. lia.
Qed.

(** The end of [nu_pdma_memfun].  When the actor it employed is woken, the result
    is the count asked for if the transfer was reported done and otherwise what the
    channel had moved; an abort terminates the channel; and in both cases the actor
    is marked free and the pool's semaphore released, nothing else of the pool
    changing. *)
Theorem memfun_returns_actor s idx s0 s1 s2 a c r n dest src w cnt m :
  employ_loop env_fuel s = Ret (idx, s0) ->
  memfun_request idx dest src w cnt m s0 = Ret (tt, s1) ->
  actor_take idx s1 = Ret (tt, s2) -> wf s2 ->
  znth (nu_pdma_memfun_actor_arr s2) idx = Some a -> m_i32ChannID a = c -> is_chan c ->
  allocated s2 c = true -> znth (nu_pdma_chn_arr s2) c = Some r ->
  nu_pdma_memfun_actor_pool_sem s2 = Some n -> n < RT_SEM_VALUE_MAX ->
  exists d s3,
    hw_dsct (phw s2) !! own_dsct c = Some d /\
    nu_pdma_memfun dest src w cnt m s =
      Ret (if tst (m_u32Result a) NU_PDMA_EVENT_TRANSFER_DONE then cnt
           else u32 (cnt - dsct_count d), s3) /\
    nu_pdma_memfun_actor_mask s3 = Z.land (nu_pdma_memfun_actor_mask s2) (not32 (bit idx)) /\
    nu_pdma_memfun_actor_pool_sem s3 = Some (n + 1) /\
    nu_pdma_memfun_actor_arr s3 = nu_pdma_memfun_actor_arr s2 /\
    (forall e, is_chan e -> allocated s3 e = allocated s2 e) /\
    if tst (m_u32Result a) NU_PDMA_EVENT_ABORT
    then CTL <$> hw_dsct (phw s3) !! own_dsct c = Some 0
    else phw s3 = phw s2.
Proof.
  intros E0 E1 E2 Hs2 Ha Hac Hc Halloc Hr Hsem Hn.
  destruct (chan_parts c Hc) as [Hi Hk].
  destruct (wf_desc _ (wf_phw s2 Hs2) _ _ Hi Hk) as [d Hd].
  unfold nu_pdma_memfun. rewrite (bind_Ret _ _ _ _ _ E0), (bind_Ret _ _ _ _ _ E1).
  rewrite (bind_Ret _ _ _ _ _ E2). unfold memfun_result.
  rewrite bind_assoc, (bind_Ret _ _ _ _ _ (actor_eq s2 idx a Ha)), bind_assoc, Hac.
  assert (Hcnt : (if tst (m_u32Result a) NU_PDMA_EVENT_TRANSFER_DONE then ret cnt
     else let! left := nu_pdma_non_transfer_count_get c in ret (u32 (cnt - left))) s2 =
     Ret (if tst (m_u32Result a) NU_PDMA_EVENT_TRANSFER_DONE then cnt else u32 (cnt - dsct_count d), s2)).
  { destruct (tst _ _); [done|]. unfold nu_pdma_non_transfer_count_get. rewrite own_dsct_eq by done.
    rewrite bind_assoc, (bind_Ret _ _ _ _ _ (on_hw_read _ s2 _ (read_dsct_eq _ _ d Hd))). done. }
  rewrite (bind_Ret _ _ _ _ _ Hcnt). clear Hcnt. set (v := if tst _ _ then cnt else _).
  rewrite bind_assoc, (bind_Ret _ _ _ _ _ (actor_eq s2 idx a Ha)), bind_assoc, Hac.
  assert (Hrel : forall x, nu_pdma_memfun_actor_pool_sem x = Some n ->
    (memfun_clear idx ;; pool_release ;; ret v) x =
    Ret (v, set_nu_pdma_memfun_actor_pool_sem (Some (n + 1)) (set_nu_pdma_memfun_actor_mask
      (Z.land (nu_pdma_memfun_actor_mask x) (not32 (bit idx))) x))).
  { intros x Hx. unfold memfun_clear. rewrite bind_modify. unfold pool_release.
    rewrite bind_assoc, bind_gets. cbn [nu_pdma_memfun_actor_pool_sem set_nu_pdma_memfun_actor_mask].
    rewrite Hx. unfold sem_up. rewrite !bind_assoc, bind_assert by lia.
    by rewrite !bind_ret_l, bind_modify. }
  destruct (tst (m_u32Result a) NU_PDMA_EVENT_ABORT).
  - destruct (terminate_returns s2 c r Hs2 Hc Halloc Hr) as (h & E & Hh & _ & Hctl & _).
    rewrite (bind_Ret _ _ _ _ _ E), bind_ret_l, Hrel by done.
    eexists d, _. split; [exact Hd|]. split; [reflexivity|]. split_and!; done.
  - rewrite !bind_ret_l, Hrel by done.
    eexists d, _. split; [exact Hd|]. split; [reflexivity|]. split_and!; done.
Qed.

(** A request the driver refuses is waited for all the same.  With a misaligned
    address [nu_pdma_transfer] fails without starting anything; its result is
    dropped, and [nu_pdma_mempush] goes on to wait for a completion that nothing
    will signal: followed for any number of steps in which nothing else happens, the
    call has not returned. *)
Theorem mempush_refused_blocks s n a c w dest src cnt :
  (forall x, env_step x = Ret (tt, x)) -> (0 < env_fuel)%nat ->
  wf s -> nu_pdma_memfun_actor_pool_sem s = Some n -> 0 < n ->
  let idx := nu_cto (nu_pdma_memfun_actor_mask s) in
  0 <= idx < 32 -> znth (nu_pdma_memfun_actor_arr s) idx = Some a ->
  m_psSemMemFun a = Some 0 -> m_i32ChannID a = c -> is_chan c -> allocated s c = true ->
  width_ok w = true -> 0 < cnt <= NU_PDMA_MAX_TXCNT ->
  src mod (w / 8) <> 0 \/ dest mod (w / 8) <> 0 ->
  nu_pdma_mempush dest src w cnt s = OutOfFuel.
Proof.
  intros Hq Hf Hs Hsem Hn idx Hidx Ha Ha0 Hac Hc Halloc Hw Hcnt Hmis.
  unfold nu_pdma_mempush. unfold width_ok in Hw. rewrite Hw. unfold nu_pdma_memfun.
  rewrite (bind_Ret _ _ _ _ _ (employ_returns s n Hsem Hn ltac:(fold idx; lia) ltac:(fold idx; lia) Hf)).
  fold idx. set (s0 := set_nu_pdma_memfun_actor_mask _ _).
  assert (Hs0 : wf s0) by (by destruct Hs; split).
  assert (Hreq : exists s1, memfun_request idx dest src w cnt eMemCtl_SrcInc_DstFix s0 = Ret (tt, s1) /\
    znth (nu_pdma_memfun_actor_arr s1) idx = Some (set_m_u32Result 0 a)).
  { unfold memfun_request. rewrite (bind_Ret _ _ _ _ _ (actor_eq s0 idx a Ha)), Hac.
    destruct (chn_only_memctl c eMemCtl_SrcInc_DstFix Hc s0 Hs0) as (v1 & l1 & E1 & L1).
    rewrite (bind_Ret _ _ _ _ _ E1).
    assert (Hs1 : wf (set_nu_pdma_chn_arr l1 s0)) by (apply wf_set_chn; [done|]; rewrite L1; apply (wf_chns _ Hs0)).
    destruct (chn_only_filter c (Z.lor NU_PDMA_EVENT_ABORT NU_PDMA_EVENT_TRANSFER_DONE) Hc _ Hs1) as (v2 & l2 & E2 & L2).
    rewrite (bind_Ret _ _ _ _ _ E2).
    assert (Hs2 : wf (set_nu_pdma_chn_arr l2 (set_nu_pdma_chn_arr l1 s0)))
      by (apply wf_set_chn; [done|]; rewrite L2; apply (wf_chns _ Hs1)).
    destruct (chn_only_register c (mkCB eCBType_Event memfun_cb_addr (actor_ptr idx) 0) Hc _ Hs2) as (v3 & l3 & E3 & L3).
    rewrite (bind_Ret _ _ _ _ _ E3). set (s3 := set_nu_pdma_chn_arr l3 _).
    assert (Hs3 : wf s3) by (apply wf_set_chn; [done|]; rewrite L3; apply (wf_chns _ Hs2)).
    assert (Ha3 : znth (nu_pdma_memfun_actor_arr s3) idx = Some a) by done.
    rewrite (bind_Ret _ _ _ _ _ (upd_actor_eq _ s3 idx a Ha3)).
    pose proof (put_actor_lookup s3 idx a (set_m_u32Result 0 a) Ha3) as Ha4.
    set (s4 := put_actor _ _ s3) in *.
    rewrite (bind_Ret _ _ _ _ _ (actor_eq s4 idx _ Ha4)).
    change (m_i32ChannID (set_m_u32Result 0 a)) with (m_i32ChannID a). rewrite Hac.
    assert (Hs4 : wf s4) by (by apply wf_put_actor).
    rewrite (bind_Ret _ _ _ _ _ (transfer_misaligned s4 c w src dest cnt Hs4 Hc Halloc Hw Hcnt Hmis)).
    by exists s4. }
  destruct Hreq as (s1 & E1 & Ha1). rewrite (bind_Ret _ _ _ _ _ E1). unfold actor_take.
  unfold bind at 1. rewrite (take_stuck _ s1 idx _ Hq Ha1); done.
Qed.
End mem.

(** ** Witnesses *)

(** A board whose software requests complete at once, whose interrupts run while a
    thread waits, and whose heap of semaphores is never full. *)
Definition quick_write (r : hwreg) (v : Z) (p : PDMA_T) : PDMA_T :=
  match r with
  | R_SWREQ => set_TDSTS (Z.lor (TDSTS p) v) (set_INTSTS (Z.lor (INTSTS p) PDMA_INTSTS_TDIF_Msk) p)
  | _ => board_write r v p
  end.

Definition quick_hw : PdmaHw :=
  {| hw_write := quick_write; hw_idle := fun p => p; hw_reset_latency := 0;
     hw_ip_reset := fun p => p |}.

Lemma quick_hw_spec : @PdmaHwSpec quick_hw.
Proof.
  split; cbn; try done.
  - intros m p Hm. exists O. split; [lia|]. cbn. apply land_not32_self; [apply Hm|done].
  - by intros [] v p [H1 H2].
Qed.

Definition board_addr : MemAddr := {| actor_base := 0x20000000; memfun_cb_addr := 0x1000 |}.

Definition quick_cbs : Callbacks :=
  {| cb_run := fun h u a =>
       if h =? 0x1000 then @nu_pdma_memfun_cb board_addr u a else ret tt |}.

Definition quick_env : MemEnv :=
  {| env_step :=
       @nu_pdma_isr quick_hw quick_cbs (module_base 0) ;;
       @nu_pdma_isr quick_hw quick_cbs (module_base 1);
     env_fuel := 2; obj_create_ok := fun _ => true |}.

Definition still_env : MemEnv :=
  {| env_step := ret tt; env_fuel := 2; obj_create_ok := fun _ => true |}.

Definition quick_memcpy (dest src count : Z) : M drv Z :=
  @nu_pdma_memcpy board_addr quick_hw board_heap quick_cbs quick_env dest src count.

Definition board_actors : drv :=
  match @nu_pdma_memfun_actor_init quick_hw quick_env board_boot with
  | Ret (_, s) => s
  | _ => board_boot
  end.

(** 1007 bytes between word-aligned buffers: 251 words, a half-word and a byte. *)
Lemma memcpy_is_its_plan_witness :
  let plan := memcpy_plan [4; 2; 1] 0x80200000 0x80100000 0 1007 in
  @nu_pdma_memcpy board_addr quick_hw board_heap quick_cbs quick_env 0x80200000 0x80100000 1007
    board_actors =
    (let! ok := @run_plan board_addr quick_hw board_heap quick_cbs quick_env 0x80200000 0x80100000 plan
     in ret (if ok then 0x80200000 else 0)) board_actors /\
  plan = [(4, 0, 251); (2, 1004, 1); (1, 1006, 1)] /\
  exists s, quick_memcpy 0x80200000 0x80100000 1007 board_actors = Ret (0x80200000, s).
Proof.
  intros plan.
  destruct (@memcpy_is_its_plan board_addr quick_hw board_heap quick_cbs quick_env
    0x80200000 0x80100000 1007 board_actors ltac:(lia)) as (H & _ & _).
  split; [exact H|]. split; [vm_compute; reflexivity|]. eexists. vm_compute. reflexivity.
Defined.

Lemma board_actors_ready : pool_ready board_actors 4.
Proof. split; [split; by vm_compute|vm_compute; reflexivity..]. Qed.

Lemma actor_init_spec_witness :
  @nu_pdma_memfun_actor_init quick_hw quick_env board_boot = AssertFail \/
  exists s' k (cs : list Z),
    @nu_pdma_memfun_actor_init quick_hw quick_env board_boot = Ret (tt, s') /\
    Z.of_nat (length cs) = k /\ NoDup cs.
Proof.
  destruct (@actor_init_spec quick_hw quick_hw_spec quick_env board_boot wf_board_boot eq_refl)
    as [E|(s0 & s' & k & cs & _ & E & _ & Hl & _ & Hnd & _)].
  - left. exact E.
  - right. exists s', k, cs. exact (conj E (conj Hl Hnd)).
Defined.

(** The first actor with its transfer reported done. *)
Definition woken (m : M drv unit) (s : drv) : drv := match m s with Ret (_, x) => x | _ => s end.

Definition mem_s0 : drv := woken (let! _i := @employ_loop quick_env 2 in ret tt) board_actors.
Definition mem_s1 : drv :=
  woken (@memfun_request board_addr quick_hw board_heap quick_cbs 0 0x80200000 0x80100000 32 100
    eMemCtl_SrcInc_DstInc) mem_s0.
Definition mem_s2 : drv := woken (@actor_take quick_env 0) mem_s1.

Lemma memfun_returns_actor_witness :
  exists d s3, @nu_pdma_memfun board_addr quick_hw board_heap quick_cbs quick_env
      0x80200000 0x80100000 32 100 eMemCtl_SrcInc_DstInc board_actors
      = Ret (if tst NU_PDMA_EVENT_TRANSFER_DONE NU_PDMA_EVENT_TRANSFER_DONE then 100
             else u32 (100 - dsct_count d), s3) /\
    nu_pdma_memfun_actor_pool_sem s3 = Some 4.
Proof.
  assert (Hw : wf mem_s2) by (apply wf_check_sound; vm_compute; reflexivity).
  assert (Hr : exists r, znth (nu_pdma_chn_arr mem_s2) 0 = Some r) by (eexists; vm_compute; reflexivity).
  destruct Hr as [r Hr].
  destruct (@memfun_returns_actor board_addr quick_hw quick_hw_spec board_heap quick_cbs quick_env
    board_actors 0 mem_s0 mem_s1 mem_s2 (mkActor 0 NU_PDMA_EVENT_TRANSFER_DONE (Some 0)) 0 r 3
    0x80200000 0x80100000 32 100 eMemCtl_SrcInc_DstInc
    ltac:(vm_compute; reflexivity) ltac:(vm_compute; reflexivity) ltac:(vm_compute; reflexivity)
    Hw ltac:(vm_compute; reflexivity) eq_refl ltac:(chan_consts; lia) ltac:(vm_compute; reflexivity) Hr
    ltac:(vm_compute; reflexivity) ltac:(unfold RT_SEM_VALUE_MAX; lia))
    as (d & s3 & _ & H1 & _ & H2 & _).
  exists d, s3. exact (conj H1 H2).
Defined.

Lemma mempush_refused_blocks_witness :
  @nu_pdma_mempush board_addr quick_hw board_heap quick_cbs still_env 0x80200000 0x80100002 32 100
    board_actors = OutOfFuel.
Proof.
  assert (Hw : wf board_actors) by (apply wf_check_sound; vm_compute; reflexivity).
  exact (@mempush_refused_blocks board_addr quick_hw board_heap quick_cbs still_env board_actors 4
    (mkActor 0 0 (Some 0)) 0 32 0x80200000 0x80100002 100
    (fun x => eq_refl) ltac:(cbn; lia) Hw ltac:(vm_compute; reflexivity) ltac:(lia)
    ltac:(vm_compute; split; [discriminate|reflexivity]) ltac:(vm_compute; reflexivity) eq_refl eq_refl
    ltac:(chan_consts; lia) ltac:(vm_compute; reflexivity) eq_refl
    ltac:(unfold NU_PDMA_MAX_TXCNT; lia) ltac:(left; vm_compute; discriminate)).
Defined.
