(* ===== verification/Conc.v ===== *)
(** * Programs that run at the same time

    Code that threads of two processors run on shared registers and variables, one access
    at a time.  A program is the tree of its accesses: what it does next depends on the
    value the access gives.  [While] is [while (1)], [Again] starts its body again.

    A system is any number of threads, each of which makes one call after the other, and
    one run of the interrupt handler at a time on each processor.  Which thread or handler
    makes the next access is open. *)

From Stdlib Require Import ZArith Lia Bool.
From stdpp Require Import base tactics numbers list option.
From S2P Require Import Prelude.

Open Scope Z_scope.

Inductive prog (O : Type) : Type :=
  | Stop (z : Z)
  | Again
  | While (body : prog O)
  | Do (o : O) (k : Z -> prog O).

Arguments Stop {O} z.
Arguments Again {O}.
Arguments While {O} body.
Arguments Do {O} o k.

Lemma Do_inj {O} (o o' : O) k k' : Do o k = Do o' k' -> o = o' /\ k = k'.
Proof. by intros [= -> ->]. Qed.

Declare Scope prog_scope.
Delimit Scope prog_scope with prog.
Notation "'get!' x := o 'in' p" := (Do o (fun x => p))
  (at level 10, x name, o at level 200, p at level 200) : prog_scope.
Notation "'do!' o ;; p" := (Do o (fun _ => p))
  (at level 10, o at level 99, p at level 200) : prog_scope.
Open Scope prog_scope.

(** A thread: what it has left to do, and the body of the loop it is in. *)
Record thread (O : Type) : Type := mkThread { code : prog O; body : prog O }.
Arguments mkThread {O} code body.
Arguments code {O} t.
Arguments body {O} t.

Section steps.
Context {O S : Type} (access : O -> Z -> S -> option (Z * S)).

(** One step of a thread.  [choice] settles what the environment decides about the access;
    [None] is an access that has to wait, or nothing to do. *)
Definition thread_step (choice : Z) (t : thread O) (s : S) : option (thread O * S) :=
  match code t with
  | Stop _ => None
  | Again => Some (mkThread (body t) (body t), s)
  | While b => Some (mkThread b b, s)
  | Do o k => match access o choice s with
              | Some (x, s') => Some (mkThread (k x) (body t), s')
              | None => None
              end
  end.

(** Runs of one thread alone; [cs] are the choices of its steps. *)
Fixpoint run_alone (cs : list Z) (t : thread O) (s : S) : option (thread O * S) :=
  match cs with
  | [] => Some (t, s)
  | c :: cs' => match thread_step c t s with Some (t', s') => run_alone cs' t' s' | None => None end
  end.
End steps.

(** ** One thread alone

    The thread runs on CPU [c], and nothing else happens, until [q] is left to do. *)
Section alone.
Context {O S : Type} (access : O -> Z -> S -> option (Z * S)).

Definition alone (c : Z) (th : thread O) (h : S) (q : prog O) (h' : S) : Prop :=
  exists k b, run_alone access (replicate k c) th h = Some (mkThread q b, h').

(** One access, then the rest. *)
Lemma alone_do c o k b h x h1 q h' :
  access o c h = Some (x, h1) -> alone c (mkThread (k x) b) h1 q h' -> alone c (mkThread (Do o k) b) h q h'.
Proof.
  intros Ha (j & b' & Hr). exists (Datatypes.S j), b'. cbn [replicate run_alone thread_step code]. rewrite Ha. exact Hr.
Qed.

Lemma alone_while c bd b h q h' : alone c (mkThread bd bd) h q h' -> alone c (mkThread (While bd) b) h q h'.
Proof. intros (j & b' & Hr). by exists (Datatypes.S j), b'. Qed.

Lemma alone_end c q b h : alone c (mkThread q b) h q h.
Proof. by exists 0%nat, b. Qed.
End alone.

(** ** Functions with one value changed *)

Definition upd {A} (f : Z -> A) (n : Z) (v : A) : Z -> A := fun m => if m =? n then v else f m.
Definition upd_side {P} `{EqDecision P} {A} (f : P -> A) (p : P) (v : A) : P -> A := fun q => if decide (q = p) then v else f q.
Definition upd2 {P} `{EqDecision P} {A} (f : P -> Z -> A) (p : P) (n : Z) (v : A) : P -> Z -> A := upd_side f p (upd (f p) n v).

Lemma upd_eq {A} (f : Z -> A) n v : upd f n v n = v.
Proof. unfold upd. by rewrite Z.eqb_refl. Qed.
Lemma upd_ne {A} (f : Z -> A) n v m : m <> n -> upd f n v m = f m.
Proof. intros H. unfold upd. by destruct (Z.eqb_spec m n). Qed.

Section upd.
Context {P : Type} `{EqDecision P}.

Lemma upd_side_eq {A} (f : P -> A) p v : upd_side f p v p = v.
Proof. unfold upd_side. by rewrite decide_True. Qed.
Lemma upd_side_ne {A} (f : P -> A) p v q : q <> p -> upd_side f p v q = f q.
Proof. intros H. unfold upd_side. by rewrite decide_False. Qed.
Lemma upd2_eq {A} (f : P -> Z -> A) p n v : upd2 f p n v p n = v.
Proof. unfold upd2. by rewrite upd_side_eq, upd_eq. Qed.
Lemma upd2_ne {A} (f : P -> Z -> A) p n v q m : (q, m) <> (p, n) -> upd2 f p n v q m = f q m.
Proof.
  intros H. unfold upd2. destruct (decide (q = p)) as [->|Hne]; [rewrite upd_side_eq; apply upd_ne; congruence|by rewrite upd_side_ne].
Qed.
End upd.

(** ** Systems *)

(** The two processors. *)
Inductive side : Type := A35 | M4.
#[global] Instance side_eq_dec : EqDecision side.
Proof. solve_decision. Defined.

Definition other (p : side) : side := match p with A35 => M4 | M4 => A35 end.

Lemma side_cases (p q : side) : q = p \/ q = other p.
Proof. destruct p, q; auto. Qed.
Lemma other_other p : other (other p) = p.
Proof. by destruct p. Qed.
Lemma other_ne p : other p <> p.
Proof. by destruct p. Qed.

Record sys (O S C : Type) : Type := mkSys {
  hw : S;                      (** registers and variables *)
  last : Z -> C;               (** the last call of each thread *)
  threads : Z -> thread O;
  isr : side -> thread O
}.
Arguments mkSys {O S C} hw last threads isr.
Arguments hw {O S C} s.
Arguments last {O S C} s t.
Arguments threads {O S C} s t.
Arguments isr {O S C} s p.

Inductive action (C : Type) : Type :=
  | Start (t : Z) (c : C)
  | Step (t choice : Z)
  | Irq (p : side)
  | Isr (p : side).
Arguments Start {C} t c.
Arguments Step {C} t choice.
Arguments Irq {C} p.
Arguments Isr {C} p.

Definition stopped {O} (t : thread O) : bool := match code t with Stop _ => true | _ => false end.

(** What the code of one driver makes of a system: its accesses, the programs of its calls
    and of its interrupt handler, when the interrupt is raised, and what a return leaves
    in the record of the run. *)
Record driver (O S C : Type) : Type := mkDriver {
  access_of : O -> Z -> S -> option (Z * S);
  call_of : Z -> C -> prog O;
  raised : side -> S -> bool;
  handler : side -> prog O;
  on_return : Z -> C -> Z -> S -> S
}.
Arguments mkDriver {O S C}.
Arguments access_of {O S C}.
Arguments call_of {O S C}.
Arguments raised {O S C}.
Arguments handler {O S C}.
Arguments on_return {O S C}.

Section system.
Context {O S C : Type} (d : driver O S C).

Definition leave (t : Z) (c : C) (th : thread O) (h : S) : S :=
  match code th with Stop z => on_return d t c z h | _ => h end.

Definition sys_step (a : action C) (s : sys O S C) : option (sys O S C) :=
  match a with
  | Start t c =>
      if stopped (threads s t) then
        let th := mkThread (call_of d t c) Again in
        Some (mkSys (leave t c th (hw s)) (upd (last s) t c) (upd (threads s) t th) (isr s))
      else None
  | Step t choice =>
      match thread_step (access_of d) choice (threads s t) (hw s) with
      | Some (th, h) => Some (mkSys (leave t (last s t) th h) (last s) (upd (threads s) t th) (isr s))
      | None => None
      end
  | Irq p =>
      if stopped (isr s p) && raised d p (hw s) then
        Some (mkSys (hw s) (last s) (threads s) (upd_side (isr s) p (mkThread (handler d p) Again)))
      else None
  | Isr p =>
      match thread_step (access_of d) 0 (isr s p) (hw s) with
      | Some (th, h) => Some (mkSys h (last s) (threads s) (upd_side (isr s) p th))
      | None => None
      end
  end.

(** What can be reached by the steps that [permits] lets happen. *)
Inductive reach_when (permits : sys O S C -> action C -> Prop) (s0 : sys O S C) : sys O S C -> Prop :=
  | reach_when_start : reach_when permits s0 s0
  | reach_when_step s a s' : reach_when permits s0 s -> permits s a -> sys_step a s = Some s' -> reach_when permits s0 s'.

Lemma reach_when_rule permits (I : sys O S C -> Prop) s0 s :
  (forall s a s', I s -> permits s a -> sys_step a s = Some s' -> I s') -> I s0 -> reach_when permits s0 s -> I s.
Proof. intros Hs H0. induction 1; eauto. Qed.

(** What can be reached when the threads only start what [allowed] permits. *)
Variable allowed : action C -> Prop.

Definition reach : sys O S C -> sys O S C -> Prop := reach_when (fun _ => allowed).

Lemma reach_start s0 : reach s0 s0.
Proof. apply reach_when_start. Qed.

Lemma reach_step s0 s a s' : reach s0 s -> allowed a -> sys_step a s = Some s' -> reach s0 s'.
Proof. intros Hr Ha. by apply reach_when_step. Qed.

Lemma reach_rule (I : sys O S C -> Prop) s0 s :
  (forall s a s', I s -> allowed a -> sys_step a s = Some s' -> I s') -> I s0 -> reach s0 s -> I s.
Proof. apply reach_when_rule. Qed.

Fixpoint run_sys (l : list (action C)) (s : sys O S C) : option (sys O S C) :=
  match l with
  | [] => Some s
  | a :: l' => match sys_step a s with Some s' => run_sys l' s' | None => None end
  end.

Lemma reach_run l s0 s s' : reach s0 s -> Forall allowed l -> run_sys l s = Some s' -> reach s0 s'.
Proof.
  intros Hr Hl. revert s Hr. induction Hl as [|a l Ha _ IH]; intros s Hr; cbn [run_sys]; [by intros [= <-]|].
  destruct (sys_step a s) as [s1|] eqn:E; [|done]. apply IH. by eapply reach_step.
Qed.
End system.

(** ** Every access of a program without loops *)

Inductive straight {O} (Q : O -> Prop) : prog O -> Prop :=
  | straight_stop z : straight Q (Stop z)
  | straight_do o k : Q o -> (forall x, straight Q (k x)) -> straight Q (Do o k).
