(* ===== verification/PdmaPool.v ===== *)
(** * The actors of the PDMA memory functions under interleaving

    [nu_pdma_memfun], [nu_pdma_memfun_employ] and the callback [nu_pdma_memfun_cb] of
    [drv_pdma.c] as programs of single accesses ([Conc]): the pool's semaphore and mutex, the
    reads and writes of the mask, the channel of an actor, its semaphore and its result.  Any
    number of threads run the function, any number of interrupt contexts the callback, and
    their accesses interleave at will.  [PdmaMem] has the same functions run by one thread,
    with the registers of the channel. *)

From Stdlib Require Import ZArith Lia Bool.
From stdpp Require Import base tactics numbers list option gmap.
From S2P Require Import Prelude BitUtil PdmaRegs Pdma PdmaFacts PdmaMem Conc.

Open Scope Z_scope.

(** ** State *)

(** The arguments of [nu_pdma_memfun]. *)
Record request : Type := mkRequest { r_dest : Z; r_src : Z; r_width : Z; r_count : Z; r_ctl : Z }.

(** The channel of an actor: free; working for thread [t]; its end, with the events and the
    elements left, being reported by the interrupt context [u]; reported, and not yet seen by
    the thread that waits. *)
Inductive channel : Type :=
  | Idle
  | Running (t : Z) (r : request)
  | Ending (u t : Z) (r : request) (events left : Z)
  | Ended (t : Z) (r : request) (events left : Z).

(** An actor: its semaphore, [m_u32Result], and its channel with its settings and the count
    of elements not transferred. *)
Record actor_state : Type := mkActorState {
  wake : Z;
  result : Z;
  memctl : Z;
  filter_of : Z;
  callback : bool;
  left_over : Z;
  chan : channel
}.

(** The variables of the pool ([slots] and [lock] are its semaphore and mutex), the actors;
    and of the run the end of the last transfer of each thread, and how often a transfer was
    started on a channel that was not free. *)
Record pool : Type := mkPool {
  mask : Z;
  slots : option Z;
  lock : option Z;
  actor_of : Z -> actor_state;
  moved : Z -> option (request * Z * Z);
  clashes : Z
}.

Definition set_mask (v : Z) (h : pool) : pool := mkPool v (slots h) (lock h) (actor_of h) (moved h) (clashes h).
Definition set_slots (v : Z) (h : pool) : pool := mkPool (mask h) (Some v) (lock h) (actor_of h) (moved h) (clashes h).
Definition set_lock (v : option Z) (h : pool) : pool := mkPool (mask h) (slots h) v (actor_of h) (moved h) (clashes h).
Definition set_actor (i : Z) (a : actor_state) (h : pool) : pool :=
  mkPool (mask h) (slots h) (lock h) (upd (actor_of h) i a) (moved h) (clashes h).
Definition set_moved (t : Z) (v : option (request * Z * Z)) (h : pool) : pool :=
  mkPool (mask h) (slots h) (lock h) (actor_of h) (upd (moved h) t v) (clashes h).
Definition add_clash (n : Z) (h : pool) : pool := mkPool (mask h) (slots h) (lock h) (actor_of h) (moved h) (clashes h + n).

Definition set_wake (v : Z) (a : actor_state) := mkActorState v (result a) (memctl a) (filter_of a) (callback a) (left_over a) (chan a).
Definition set_result (v : Z) (a : actor_state) := mkActorState (wake a) v (memctl a) (filter_of a) (callback a) (left_over a) (chan a).
Definition set_memctl (v : Z) (a : actor_state) := mkActorState (wake a) (result a) v (filter_of a) (callback a) (left_over a) (chan a).
Definition set_filter (v : Z) (a : actor_state) := mkActorState (wake a) (result a) (memctl a) v (callback a) (left_over a) (chan a).
Definition set_callback (a : actor_state) := mkActorState (wake a) (result a) (memctl a) (filter_of a) true (left_over a) (chan a).
Definition set_chan (c : channel) (a : actor_state) := mkActorState (wake a) (result a) (memctl a) (filter_of a) (callback a) (left_over a) c.
Definition set_left (v : Z) (a : actor_state) := mkActorState (wake a) (result a) (memctl a) (filter_of a) (callback a) v (chan a).

(** ** Accesses *)

Inductive op : Type :=
  | Pool_sem                              (** is [nu_pdma_memfun_actor_pool_sem] set *)
  | Take_pool
  | Give_pool
  | Lock (t : Z)
  | Unlock (t : Z)
  | Read_mask
  | Write_mask (v : Z)
  | Memctrl_set (i v : Z)
  | Filtering_set (i v : Z)
  | Callback_register (i : Z)
  | Write_result (i v : Z)
  | Read_result (i : Z)
  | Transfer (t i dest src width count : Z)
  | Take_actor (i : Z)
  | Give_actor (i : Z)
  | Non_transfer_count (i : Z)
  | Terminate (i : Z)
  | End (u i events left : Z).            (** the channel ends and raises its interrupt *)

Definition is_idle (c : channel) : bool := match c with Idle => true | _ => false end.

(** A semaphore at 0 and a mutex that is held make the thread wait, a failed assertion stops
    it.  [nu_pdma_transfer] may refuse (choice 1), and then starts nothing.  The callback is
    run when a channel ends with an event its filter lets through. *)
Definition access (o : op) (choice : Z) (h : pool) : option (Z * pool) :=
  match o with
  | Pool_sem => Some (match slots h with Some _ => 1 | None => 0 end, h)
  | Take_pool => match slots h with Some n => if 0 <? n then Some (RT_EOK, set_slots (n - 1) h) else None | None => None end
  | Give_pool => match slots h with Some n => if n <? RT_SEM_VALUE_MAX then Some (RT_EOK, set_slots (n + 1) h) else None | None => None end
  | Lock t => match lock h with None => Some (RT_EOK, set_lock (Some t) h) | Some _ => None end
  | Unlock t => match lock h with Some u => if u =? t then Some (RT_EOK, set_lock None h) else None | None => None end
  | Read_mask => Some (mask h, h)
  | Write_mask v => Some (0, set_mask v h)
  | Memctrl_set i v => Some (0, set_actor i (set_memctl v (actor_of h i)) h)
  | Filtering_set i v => Some (0, set_actor i (set_filter v (actor_of h i)) h)
  | Callback_register i => Some (0, set_actor i (set_callback (actor_of h i)) h)
  | Write_result i v => Some (0, set_actor i (set_result v (actor_of h i)) h)
  | Read_result i => Some (result (actor_of h i), h)
  | Transfer t i dest src width count =>
      let a := actor_of h i in
      if choice =? 1 then Some (-1, h)
      else Some (0, add_clash (if is_idle (chan a) then 0 else 1)
        (set_moved t None (set_actor i (set_chan (Running t (mkRequest dest src width count (memctl a))) a) h)))
  | Take_actor i =>
      let a := actor_of h i in
      if 0 <? wake a then
        Some (RT_EOK, set_actor i (set_wake (wake a - 1) (set_chan (match chan a with Ended _ _ _ _ => Idle | c => c end) a)) h)
      else None
  | Give_actor i =>
      let a := actor_of h i in
      if wake a <? RT_SEM_VALUE_MAX then
        Some (RT_EOK, set_actor i (set_wake (wake a + 1) (set_chan (match chan a with Ending _ t r ev l => Ended t r ev l | c => c end) a)) h)
      else None
  | Non_transfer_count i => Some (left_over (actor_of h i), h)
  | Terminate i =>
      let a := actor_of h i in
      Some (0, set_actor i (set_chan (match chan a with Running _ _ => Idle | c => c end) a) h)
  | End u i ev l =>
      let a := actor_of h i in
      match chan a with
      | Running t r =>
          if callback a && tst (filter_of a) ev
          then Some (0, set_moved t (Some (r, ev, l)) (set_actor i (set_left l (set_chan (Ending u t r ev l) a)) h))
          else None
      | _ => None
      end
  end.

(** ** The functions

    The rest of the calling function is a parameter where C returns to it. *)

(** The section under the mutex, and the whole. *)
Definition employ_set (t idx : Z) (k : Z -> prog op) : prog op :=
  get! m := Read_mask in do! Write_mask (Z.lor m (bit idx)) ;; do! Unlock t ;; k idx.

Definition employ_pick (t : Z) (k : Z -> prog op) : prog op :=
  get! m := Read_mask in
  let idx := nu_cto m in
  if negb (idx =? 32) then employ_set t idx k else do! Unlock t ;; k (-1).

Definition employ_lock (t : Z) (k : Z -> prog op) : prog op := do! Lock t ;; employ_pick t k.

Definition employ_take (t : Z) (k : Z -> prog op) : prog op :=
  get! result := Take_pool in if result =? RT_EOK then employ_lock t k else k (-1).

Definition nu_pdma_memfun_employ (t : Z) (k : Z -> prog op) : prog op :=
  get! sem := Pool_sem in if negb (sem =? 0) then employ_take t k else k (-1).

(** The actor is free again, and so is its slot. *)
Definition fire_release (n : Z) : prog op := do! Give_pool ;; Stop n.
Definition fire_unlock (t n : Z) : prog op := do! Unlock t ;; fire_release n.
Definition fire_clear (t idx n : Z) : prog op :=
  get! m := Read_mask in do! Write_mask (Z.land m (not32 (bit idx))) ;; fire_unlock t n.
Definition fire (t idx n : Z) : prog op := do! Lock t ;; fire_clear t idx n.

Definition memfun_abort (t idx n : Z) : prog op :=
  get! res := Read_result idx in
  if tst res NU_PDMA_EVENT_ABORT then do! Terminate idx ;; fire t idx n else fire t idx n.

Definition memfun_count (t idx count : Z) : prog op :=
  get! res := Read_result idx in
  if tst res NU_PDMA_EVENT_TRANSFER_DONE then memfun_abort t idx count
  else get! l := Non_transfer_count idx in memfun_abort t idx (u32 (count - l)).

Definition memfun_wait (t idx count : Z) : prog op := do! Take_actor idx ;; memfun_count t idx count.

Definition memfun_transfer (t idx : Z) (r : request) : prog op :=
  do! Transfer t idx (r_dest r) (r_src r) (r_width r) (r_count r) ;; memfun_wait t idx (r_count r).

Definition memfun_settings (t idx : Z) (r : request) : prog op :=
  do! Filtering_set idx (Z.lor NU_PDMA_EVENT_ABORT NU_PDMA_EVENT_TRANSFER_DONE) ;;
  do! Callback_register idx ;;
  do! Write_result idx 0 ;;
  memfun_transfer t idx r.

Definition memfun_work (t idx : Z) (r : request) : prog op :=
  do! Memctrl_set idx (r_ctl r) ;; memfun_settings t idx r.

(** The loop that employs an actor; what follows it is where the loop is left. *)
Definition memfun_body (t : Z) (r : request) : prog op :=
  nu_pdma_memfun_employ t (fun idx => if idx <? 0 then Again else memfun_work t idx r).

Definition nu_pdma_memfun (t : Z) (r : request) : prog op := While (memfun_body t r).

Definition nu_pdma_memfun_cb (idx events : Z) : prog op :=
  do! Write_result idx events ;; do! Give_actor idx ;; Stop 0.

(** ** The system *)

(** A thread calls [nu_pdma_memfun]; an interrupt context runs the callback of an actor whose
    channel has ended. *)
Inductive pool_call : Type :=
  | Memfun (r : request)
  | Interrupt (idx events left : Z).

Definition pool_prog (t : Z) (c : pool_call) : prog op :=
  match c with
  | Memfun r => nu_pdma_memfun t r
  | Interrupt idx ev l => do! End t idx ev l ;; nu_pdma_memfun_cb idx ev
  end.

Definition pool_driver : driver op pool pool_call :=
  mkDriver access pool_prog (fun _ _ => false) (fun _ => Stop 0) (fun _ _ _ h => h).

(** As the initialisation leaves the pool. *)
Definition fresh_actor : actor_state := mkActorState 0 0 0 0 false 0 Idle.
Definition pool_boot (s : drv) : sys op pool pool_call :=
  mkSys (mkPool (nu_pdma_memfun_actor_mask s) (nu_pdma_memfun_actor_pool_sem s) None (fun _ => fresh_actor) (fun _ => None) 0)
    (fun _ => Interrupt 0 0 0) (fun _ => mkThread (Stop 0) Again) (fun _ => mkThread (Stop 0) Again).

(** What [nu_pdma_memfun] returns for a transfer that ended so. *)
Definition outcome (r : request) (events left : Z) : Z :=
  if tst events NU_PDMA_EVENT_TRANSFER_DONE then r_count r else u32 (r_count r - left).

(** ** The mask and the semaphore against what threads hold *)

(** What a thread inside [nu_pdma_memfun] holds: a slot; an actor; a slot still to be given
    back. *)
Inductive phase : Type :=
  | Took
  | Working (idx : Z)
  | Cleared.

Record counted (m : Z) (v : Z) (sem : option Z) (T : gmap Z phase) : Prop := {
  pi_range : 1 <= m <= NU_PDMA_MEMFUN_ACTOR_MAX;
  pi_u32 : is_u32 v;
  pi_high : forall i, m <= i < 32 -> Z.testbit v i = true;
  pi_bits : forall i, 0 <= i < m -> Z.testbit v i = true <-> exists t, T !! t = Some (Working i);
  pi_idx : forall t i, T !! t = Some (Working i) -> 0 <= i < m;
  pi_inj : forall t t' i, T !! t = Some (Working i) -> T !! t' = Some (Working i) -> t = t';
  pi_size : Z.of_nat (size T) <= m;
  pi_sem : sem = Some (m - Z.of_nat (size T))
}.

Definition working_idx (p : Z * phase) : option Z := match snd p with Working i => Some i | _ => None end.

Lemma omap_length_le {A B} (f : A -> option B) l : (length (omap f l) <= length l)%nat.
Proof. induction l as [|y l IH]; cbn; [lia|]. destruct (f y); cbn; lia. Qed.

Lemma omap_length_lt {A B} (f : A -> option B) l x : x ∈ l -> f x = None -> (length (omap f l) < length l)%nat.
Proof.
  intros Hx Hf. induction l as [|y l IH]; [by apply not_elem_of_nil in Hx|].
  pose proof (omap_length_le f l) as Hle. cbn.
  apply elem_of_cons in Hx as [<-|Hx]; [rewrite Hf; lia|]. specialize (IH Hx). destruct (f y); cbn; lia.
Qed.

Section counted.
Variables (m v : Z) (sem : option Z) (T : gmap Z phase).
Hypothesis HI : counted m v sem T.

(** While a thread holds a slot without an actor, an actor is free. *)
Lemma counted_free t : T !! t = Some Took -> exists i, 0 <= i < m /\ Z.testbit v i = false.
Proof.
  intros Ht. destruct (decide (Forall (fun i => Z.testbit v i = true) (seqZ 0 m))) as [Hall|Hn].
  - exfalso. rewrite Forall_forall in Hall.
    assert (Hsub : seqZ 0 m ⊆+ omap working_idx (map_to_list T)).
    { apply NoDup_submseteq; [apply NoDup_seqZ|]. intros i Hi.
      pose proof Hi as Hi'. apply elem_of_seqZ in Hi'. apply list_elem_of_omap.
      destruct (proj1 (pi_bits _ _ _ _ HI i ltac:(lia)) (Hall i Hi)) as (t' & Ht').
      exists (t', Working i). split; [by apply elem_of_map_to_list|done]. }
    apply submseteq_length in Hsub. rewrite length_seqZ in Hsub.
    pose proof (omap_length_lt working_idx (map_to_list T) (t, Took) ltac:(by apply elem_of_map_to_list) eq_refl) as Hlt.
    rewrite length_map_to_list in Hlt. pose proof (pi_size _ _ _ _ HI). lia.
  - apply not_Forall_Exists in Hn; [|intros i; apply _]. apply Exists_exists in Hn as (i & Hi & Hb).
    exists i. split; [apply elem_of_seqZ in Hi; lia|]. by apply not_true_is_false.
Qed.

(** [nu_cto] finds it, and nobody works with it. *)
Lemma counted_pick t : T !! t = Some Took -> 0 <= nu_cto v < m /\ forall t', T !! t' <> Some (Working (nu_cto v)).
Proof.
  intros Ht. destruct (counted_free t Ht) as (i & Hi & Hb).
  pose proof (pi_u32 _ _ _ _ HI) as Hu. pose proof (pi_range _ _ _ _ HI) as Hm. unfold NU_PDMA_MEMFUN_ACTOR_MAX in Hm.
  assert (Hle : nu_cto v <= i).
  { destruct (Z.lt_ge_cases i (nu_cto v)) as [Hlt|]; [|done]. destruct (Z.lt_ge_cases (nu_cto v) 32).
    - destruct (nu_cto_lowest _ Hu) as (_ & _ & Hl); [done|]. rewrite Hl in Hb by lia. done.
    - rewrite (nu_cto_full _ Hu) in Hb by (done || lia). done. }
  destruct (nu_cto_lowest _ Hu) as (H0 & Hf & _); [lia|]. split; [lia|].
  intros t' Ht'. assert (Z.testbit v (nu_cto v) = true) as E by (apply (pi_bits _ _ _ _ HI); [lia|by exists t']). by rewrite Hf in E.
Qed.

Lemma insert_phase t p t' q : <[t := p]> T !! t' = Some q <-> (t' = t /\ p = q) \/ (t' <> t /\ T !! t' = Some q).
Proof. rewrite lookup_insert_Some. split; (intros [[-> ->]|[H1 H2]]; [by left|right; by split; [intros ->|]]). Qed.

Lemma counted_take t : T !! t = None -> 0 < m - Z.of_nat (size T) -> counted m v (Some (m - Z.of_nat (size T) - 1)) (<[t := Took]> T).
Proof.
  destruct HI as [I1 I3 I4 I5 I6 I7 I8 I9]. intros Ht Hpos.
  assert (Hw : forall t' i, <[t := Took]> T !! t' = Some (Working i) <-> T !! t' = Some (Working i)).
  { intros t' i. destruct (decide (t = t')) as [<-|Hne]; [|by rewrite lookup_insert_ne].
    rewrite lookup_insert_eq, Ht. split; intros; discriminate. }
  split; try done.
  - intros i Hi. rewrite I5 by done. by setoid_rewrite Hw.
  - intros t' i Hi. apply Hw in Hi. by eapply I6.
  - intros t1 t2 i H1 H2. apply Hw in H1, H2. by eapply I7.
  - rewrite map_size_insert_None by done. lia.
  - rewrite map_size_insert_None by done. f_equal. lia.
Qed.

Lemma counted_set t idx :
  T !! t = Some Took -> 0 <= idx < m -> (forall t', T !! t' <> Some (Working idx)) ->
  counted m (Z.lor v (bit idx)) sem (<[t := Working idx]> T).
Proof.
  destruct HI as [I1 I3 I4 I5 I6 I7 I8 I9]. intros Ht Hidx Hno. unfold NU_PDMA_MEMFUN_ACTOR_MAX in I1.
  assert (Hw : forall t' i, <[t := Working idx]> T !! t' = Some (Working i) <->
    (t' = t /\ i = idx) \/ (t' <> t /\ T !! t' = Some (Working i))).
  { intros t' i. rewrite insert_phase. split; [intros [[-> E]|H]; [|by right]| intros [[-> ->]|H]; [by left|by right]].
    left. by injection E as ->. }
  split; try done.
  - apply lor_u32; [done|]. apply bit_u32. lia.
  - intros i Hi. rewrite Z.lor_spec, I4 by done. done.
  - intros i Hi. rewrite Z.lor_spec, testbit_bit by lia. setoid_rewrite Hw. rewrite orb_true_iff, Z.eqb_eq, I5 by done. split.
    + intros [(t' & Ht')| ->]; [|exists t; by left]. exists t'. destruct (decide (t' = t)) as [->|]; [congruence|by right].
    + intros (t' & [[-> ->]|[Hne Ht']]); [by right|left; by exists t'].
  - intros t' i Hi. apply Hw in Hi as [[-> ->]|[_ Hi]]; [done|by eapply I6].
  - intros t1 t2 i H1 H2. apply Hw in H1, H2. destruct H1 as [[-> ->]|[N1 H1]], H2 as [[-> E]|[N2 H2]]; [done| | |by eapply I7];
      exfalso; subst; by eapply Hno.
  - by rewrite map_size_insert_Some by (by eexists).
  - by rewrite map_size_insert_Some by (by eexists).
Qed.

Lemma counted_clear t idx : T !! t = Some (Working idx) -> counted m (Z.land v (not32 (bit idx))) sem (<[t := Cleared]> T).
Proof.
  destruct HI as [I1 I3 I4 I5 I6 I7 I8 I9]. intros Ht. unfold NU_PDMA_MEMFUN_ACTOR_MAX in I1. pose proof (I6 t idx Ht) as Hidx.
  assert (Hw : forall t' i, <[t := Cleared]> T !! t' = Some (Working i) <-> t' <> t /\ T !! t' = Some (Working i)).
  { intros t' i. rewrite insert_phase. split; [by intros [[_ E]|H]|by right]. }
  split; try done.
  - apply land_u32_l; [done|]. apply not32_u32.
  - intros i Hi. rewrite Z.land_spec, testbit_not32, testbit_bit, I4 by lia. by destruct (Z.eqb_spec i idx), (Z.ltb_spec i 32); try lia.
  - intros i Hi. rewrite Z.land_spec, testbit_not32, testbit_bit by lia. setoid_rewrite Hw. destruct (Z.ltb_spec i 32); [|lia].
    cbn [andb]. rewrite andb_true_iff, negb_true_iff, Z.eqb_neq, I5 by done. split.
    + intros [(t' & Ht') Hne]. exists t'. split; [|done]. intros ->. congruence.
    + intros (t' & Hne & Ht'). split; [by exists t'|]. intros ->. apply Hne. by eapply I7.
  - intros t' i Hi. apply Hw in Hi as [_ Hi]. by eapply I6.
  - intros t1 t2 i H1 H2. apply Hw in H1 as [_ H1], H2 as [_ H2]. by eapply I7.
  - by rewrite map_size_insert_Some by (by eexists).
  - by rewrite map_size_insert_Some by (by eexists).
Qed.

Lemma counted_give t : T !! t = Some Cleared -> counted m v (Some (m - Z.of_nat (size T) + 1)) (delete t T).
Proof.
  destruct HI as [I1 I3 I4 I5 I6 I7 I8 I9]. intros Ht.
  assert (Hw : forall t' i, delete t T !! t' = Some (Working i) <-> T !! t' = Some (Working i)).
  { intros t' i. destruct (decide (t = t')) as [<-|Hne]; [|by rewrite lookup_delete_ne].
    rewrite lookup_delete_eq, Ht. split; intros; discriminate. }
  assert (Hsz : (size T > 0)%nat).
  { apply Nat.neq_0_lt_0. intros E. apply map_size_empty_iff in E. subst T. by rewrite lookup_empty in Ht. }
  split; try done.
  - intros i Hi. rewrite I5 by done. by setoid_rewrite Hw.
  - intros t' i Hi. apply Hw in Hi. by eapply I6.
  - intros t1 t2 i H1 H2. apply Hw in H1, H2. by eapply I7.
  - rewrite map_size_delete_Some by (by eexists). lia.
  - rewrite map_size_delete_Some by (by eexists). f_equal. lia.
Qed.
End counted.

(** The mask of a pool of which nothing is in use. *)
Lemma whole_mask m v : 1 <= m <= NU_PDMA_MEMFUN_ACTOR_MAX -> is_u32 v ->
  v = not32 (bit m - 1) <-> forall i, 0 <= i < 32 -> Z.testbit v i = (m <=? i).
Proof.
  intros Hm Hv. unfold NU_PDMA_MEMFUN_ACTOR_MAX in Hm.
  assert (Hb : forall i, 0 <= i < 32 -> Z.testbit (not32 (bit m - 1)) i = (m <=? i)).
  { intros i Hi. unfold bit. rewrite Z.shiftl_1_l. replace (2 ^ m - 1) with (Z.ones m) by (rewrite Z.ones_equiv; lia).
    rewrite testbit_not32, testbit_ones by lia. destruct (Z.ltb_spec i 32); [|lia]. cbn [andb]. by rewrite Z.leb_antisym. }
  split; [by intros ->|]. intros H. apply Z.bits_inj'. intros i Hi. destruct (Z.lt_ge_cases i 32); [by rewrite H, Hb|].
  rewrite !(u32_high _ i) by (done || apply not32_u32). done.
Qed.

Lemma counted_whole m : 1 <= m <= NU_PDMA_MEMFUN_ACTOR_MAX -> counted m (not32 (bit m - 1)) (Some m) ∅.
Proof.
  intros Hm. pose proof (proj1 (whole_mask m _ Hm (not32_u32 _)) eq_refl) as Hb. pose proof Hm as Hm'. unfold NU_PDMA_MEMFUN_ACTOR_MAX in Hm'.
  split; try done.
  - apply not32_u32.
  - intros i Hi. rewrite Hb by lia. apply Z.leb_le. lia.
  - intros i Hi. rewrite Hb by lia. split; [intros Hle%Z.leb_le; lia|]. intros (t & Ht). by rewrite lookup_empty in Ht.
  - rewrite map_size_empty. lia.
  - rewrite map_size_empty. f_equal. lia.
Qed.

(** ** Program points *)

Definition chan_by (c : channel) : option Z :=
  match c with Idle => None | Running t _ | Ending _ t _ _ _ | Ended t _ _ _ => Some t end.

Record pool_inv (m : Z) (h : pool) (T : gmap Z phase) : Prop := {
  pv_count : counted m (mask h) (slots h) T;
  pv_by : forall i t, chan_by (chan (actor_of h i)) = Some t -> T !! t = Some (Working i);
  pv_wake : forall i, wake (actor_of h i) = match chan (actor_of h i) with Ended _ _ _ _ => 1 | _ => 0 end;
  pv_clash : clashes h = 0
}.

(** The transfer of thread [t] on actor [i], from its request to the wake-up; or it was
    refused. *)
Definition underway (h : pool) (t i : Z) (r : request) : Prop :=
  match chan (actor_of h i) with
  | Idle => True
  | Running t' r' => t' = t /\ r' = r
  | Ending _ t' r' ev l => t' = t /\ r' = r /\ moved h t = Some (r, ev, l) /\ left_over (actor_of h i) = l
  | Ended t' r' ev l => t' = t /\ r' = r /\ moved h t = Some (r, ev, l) /\ left_over (actor_of h i) = l /\ result (actor_of h i) = ev
  end.

(** It has ended, and the actor says how. *)
Definition finished (h : pool) (t i : Z) (r : request) (n : option Z) : Prop :=
  exists ev l, chan (actor_of h i) = Idle /\ moved h t = Some (r, ev, l) /\ result (actor_of h i) = ev /\ left_over (actor_of h i) = l /\
    match n with Some n => n = outcome r ev l | None => True end.

Definition gives (h : pool) (t : Z) (r : request) (n : Z) : Prop :=
  exists ev l, moved h t = Some (r, ev, l) /\ n = outcome r ev l.

Definition idle_for (h : pool) (i : Z) : Prop := chan (actor_of h i) = Idle.
Definition my_lock (h : pool) (t : Z) : Prop := lock h = Some t.

Definition employed (t : Z) (r : request) (idx : Z) : prog op := if idx <? 0 then Again else memfun_work t idx r.

(** Where a thread can be, with what it holds and what it then knows. *)
Inductive point (h : pool) (t : Z) : option phase -> pool_call -> prog op -> prog op -> Prop :=
  | pt_stop c z b : ~ my_lock h t -> (forall r, c = Memfun r -> gives h t r z) -> point h t None c (Stop z) b
  | pt_while r b : ~ my_lock h t -> point h t None (Memfun r) (While (memfun_body t r)) b
  | pt_body r : ~ my_lock h t -> point h t None (Memfun r) (memfun_body t r) (memfun_body t r)
  | pt_take r : ~ my_lock h t -> point h t None (Memfun r) (employ_take t (employed t r)) (memfun_body t r)
  | pt_lock r b : ~ my_lock h t -> point h t (Some Took) (Memfun r) (employ_lock t (employed t r)) b
  | pt_pick r b : my_lock h t -> point h t (Some Took) (Memfun r) (employ_pick t (employed t r)) b
  | pt_set r b : my_lock h t -> point h t (Some Took) (Memfun r) (employ_set t (nu_cto (mask h)) (employed t r)) b
  | pt_write r b : my_lock h t -> point h t (Some Took) (Memfun r)
      (Do (Write_mask (Z.lor (mask h) (bit (nu_cto (mask h))))) (fun _ => Do (Unlock t) (fun _ => employed t r (nu_cto (mask h))))) b
  | pt_unlock r i b : my_lock h t -> 0 <= i -> idle_for h i ->
      point h t (Some (Working i)) (Memfun r) (Do (Unlock t) (fun _ => employed t r i)) b
  | pt_work r i b : ~ my_lock h t -> idle_for h i -> point h t (Some (Working i)) (Memfun r) (memfun_work t i r) b
  | pt_filter r i b : ~ my_lock h t -> idle_for h i -> memctl (actor_of h i) = r_ctl r ->
      point h t (Some (Working i)) (Memfun r) (memfun_settings t i r) b
  | pt_callback r i b : ~ my_lock h t -> idle_for h i -> memctl (actor_of h i) = r_ctl r ->
      point h t (Some (Working i)) (Memfun r) (Do (Callback_register i) (fun _ => Do (Write_result i 0) (fun _ => memfun_transfer t i r))) b
  | pt_clear_result r i b : ~ my_lock h t -> idle_for h i -> memctl (actor_of h i) = r_ctl r ->
      point h t (Some (Working i)) (Memfun r) (Do (Write_result i 0) (fun _ => memfun_transfer t i r)) b
  | pt_transfer r i b : ~ my_lock h t -> idle_for h i -> memctl (actor_of h i) = r_ctl r ->
      point h t (Some (Working i)) (Memfun r) (memfun_transfer t i r) b
  | pt_wait r i b : ~ my_lock h t -> underway h t i r -> point h t (Some (Working i)) (Memfun r) (memfun_wait t i (r_count r)) b
  | pt_count r i b : ~ my_lock h t -> finished h t i r None -> point h t (Some (Working i)) (Memfun r) (memfun_count t i (r_count r)) b
  | pt_left r i b : ~ my_lock h t -> finished h t i r None -> tst (result (actor_of h i)) NU_PDMA_EVENT_TRANSFER_DONE = false ->
      point h t (Some (Working i)) (Memfun r) (Do (Non_transfer_count i) (fun l => memfun_abort t i (u32 (r_count r - l)))) b
  | pt_abort r i n b : ~ my_lock h t -> finished h t i r (Some n) -> point h t (Some (Working i)) (Memfun r) (memfun_abort t i n) b
  | pt_terminate r i n b : ~ my_lock h t -> finished h t i r (Some n) ->
      point h t (Some (Working i)) (Memfun r) (Do (Terminate i) (fun _ => fire t i n)) b
  | pt_fire r i n b : ~ my_lock h t -> finished h t i r (Some n) -> point h t (Some (Working i)) (Memfun r) (fire t i n) b
  | pt_clear r i n b : my_lock h t -> finished h t i r (Some n) -> point h t (Some (Working i)) (Memfun r) (fire_clear t i n) b
  | pt_clear_set r i n b : my_lock h t -> finished h t i r (Some n) -> point h t (Some (Working i)) (Memfun r)
      (Do (Write_mask (Z.land (mask h) (not32 (bit i)))) (fun _ => fire_unlock t n)) b
  | pt_cleared r n b : my_lock h t -> gives h t r n -> point h t (Some Cleared) (Memfun r) (fire_unlock t n) b
  | pt_release r n b : ~ my_lock h t -> gives h t r n -> point h t (Some Cleared) (Memfun r) (fire_release n) b
  | pt_end i ev l b : ~ my_lock h t -> point h t None (Interrupt i ev l) (Do (End t i ev l) (fun _ => nu_pdma_memfun_cb i ev)) b
  | pt_cb i ev l b t' r : ~ my_lock h t -> chan (actor_of h i) = Ending t t' r ev l ->
      point h t None (Interrupt i ev l) (nu_pdma_memfun_cb i ev) b
  | pt_cb_give i ev l b t' r : ~ my_lock h t -> chan (actor_of h i) = Ending t t' r ev l -> result (actor_of h i) = ev ->
      point h t None (Interrupt i ev l) (Do (Give_actor i) (fun _ => Stop 0)) b.

(** ** What the others do *)

(** A change that respects what a thread [t] in phase [p] knows. *)
Record quiet (t : Z) (p : option phase) (h h' : pool) : Prop := {
  q_lock : my_lock h t <-> my_lock h' t;
  q_mask : my_lock h t -> mask h' = mask h;
  q_moved : (forall i r, p = Some (Working i) -> chan (actor_of h i) <> Running t r) -> moved h' t = moved h t;
  q_idle : forall i, p = Some (Working i) -> idle_for h i -> actor_of h' i = actor_of h i;
  q_wait : forall i r, p = Some (Working i) -> underway h t i r -> underway h' t i r;
  q_end : forall i t' r ev l, chan (actor_of h i) = Ending t t' r ev l ->
    chan (actor_of h' i) = chan (actor_of h i) /\ result (actor_of h' i) = result (actor_of h i)
}.

Lemma pool_quiet_point t p h h' c q b : quiet t p h h' -> point h t p c q b -> point h' t p c q b.
Proof.
  intros [Q1 Q2 Q3 Q4 Q5 Q6] Hp.
  assert (Hl : ~ my_lock h t -> ~ my_lock h' t) by tauto.
  assert (Hl' : my_lock h t -> my_lock h' t) by tauto.
  assert (Hgive : (forall i, p <> Some (Working i)) -> forall r z, gives h t r z -> gives h' t r z).
  { intros Hn r z (ev & l & Hm & E). exists ev, l. rewrite Q3; [done|]. intros i r' Hpi. by destruct (Hn i). }
  assert (Hidle : forall i, p = Some (Working i) -> idle_for h i -> idle_for h' i /\ memctl (actor_of h' i) = memctl (actor_of h i)).
  { intros i Hpi Hi. unfold idle_for. by rewrite Q4. }
  assert (Hfin : forall i r n, p = Some (Working i) -> finished h t i r n ->
    finished h' t i r n /\ result (actor_of h' i) = result (actor_of h i)).
  { intros i r n Hpi (ev & l & Hc & Hm & Hr). pose proof (Q4 i Hpi Hc) as Ea. split; [|by rewrite Ea]. exists ev, l. rewrite Ea.
    split; [done|]. rewrite Q3; [done|]. intros j r' Hpj. rewrite Hpi in Hpj. injection Hpj as <-. by rewrite Hc. }
  destruct Hp; try (rewrite <-Q2 by done); try (by constructor; auto);
    try (by match goal with H : idle_for _ _ |- _ => destruct (Hidle _ eq_refl H) as [Hi Hm] end; constructor; auto; congruence);
    try (by match goal with H : finished _ _ _ _ _ |- _ => destruct (Hfin _ _ _ eq_refl H) as [Hf Hr] end; constructor; auto; congruence).
  - destruct (Q6 _ _ _ _ _ H0) as [E1 E2]. apply (pt_cb _ _ _ _ _ _ t' r); [auto|]. congruence.
  - destruct (Q6 _ _ _ _ _ H0) as [E1 E2]. apply (pt_cb_give _ _ _ _ _ _ t' r); [auto|congruence|congruence].
Qed.

Lemma quiet_same t p h h' :
  lock h' = lock h -> (my_lock h t -> mask h' = mask h) -> actor_of h' = actor_of h -> moved h' = moved h -> quiet t p h h'.
Proof. intros E1 E2 E3 E4. split; unfold my_lock, idle_for, underway; rewrite ?E1, ?E3, ?E4; auto. Qed.

(** ** One access of a thread *)

Section polite.
Variables (m : Z) (h : pool) (T : gmap Z phase) (t : Z).
Hypothesis HI : pool_inv m h T.

(** What thread [t] may make of the state, holding [p'] afterwards. *)
Definition polite (h' : pool) (p' : option phase) : Prop :=
  exists T', pool_inv m h' T' /\ T' !! t = p' /\ forall u, u <> t -> T' !! u = T !! u /\ quiet u (T !! u) h h'.

Lemma pool_polite_refl : polite h (T !! t).
Proof. exists T. split_and!; [done|done|]. intros u _. split; [done|]. by apply quiet_same. Qed.

Lemma polite_lock o : (o = Some t /\ lock h = None) \/ (o = None /\ my_lock h t) -> polite (set_lock o h) (T !! t).
Proof.
  intros Ho. exists T. split_and!; [by destruct HI|done|]. intros u Hu. split; [done|].
  split; unfold my_lock, idle_for, underway in *; cbn; auto.
  destruct Ho as [[-> E]|[-> E]]; rewrite E; split; congruence.
Qed.

Lemma polite_mask v p : my_lock h t -> counted m v (slots h) (<[t := p]> T) ->
  (forall i u, chan_by (chan (actor_of h i)) = Some u -> u <> t) -> polite (set_mask v h) (Some p).
Proof.
  intros Hl Hc Hby. exists (<[t := p]> T). split_and!; [|by rewrite lookup_insert_eq|].
  - destruct HI as [H1 H2 H3 H4]. split; try done. intros i u Hu. cbn in Hu. rewrite lookup_insert_ne; [by apply H2|]. intros <-. by eapply Hby.
  - intros u Hu. split; [by rewrite lookup_insert_ne|]. apply quiet_same; try done. unfold my_lock in *. congruence.
Qed.

Lemma polite_slots v T' : counted m (mask h) (Some v) T' -> (forall u, u <> t -> T' !! u = T !! u) ->
  (forall i u, chan_by (chan (actor_of h i)) = Some u -> u <> t) -> polite (set_slots v h) (T' !! t).
Proof.
  intros Hc Ht Hby. exists T'. split_and!; [|done|].
  - destruct HI as [H1 H2 H3 H4]. split; try done. intros i u Hu. cbn in Hu. rewrite Ht; [by apply H2|by eapply Hby].
  - intros u Hu. split; [by apply Ht|]. by apply quiet_same.
Qed.

(** Thread [t] works with actor [i], and no callback is under way. *)
Definition no_callback (i : Z) : Prop := match chan (actor_of h i) with Ending _ _ _ _ _ => False | _ => True end.

Lemma polite_actor i a h' :
  T !! t = Some (Working i) -> no_callback i ->
  chan_by (chan a) = None \/ chan_by (chan a) = Some t -> wake a = match chan a with Ended _ _ _ _ => 1 | _ => 0 end ->
  mask h' = mask h -> slots h' = slots h -> lock h' = lock h -> actor_of h' = upd (actor_of h) i a -> clashes h' = 0 ->
  (forall u, u <> t -> moved h' u = moved h u) -> polite h' (T !! t).
Proof.
  intros Ht Hn Hby Hw E1 E2 E3 E4 E5 E6. exists T. split_and!; [|done|].
  - destruct HI as [H1 H2 H3 H4]. split; rewrite ?E1, ?E2, ?E4; try done; intros j; destruct (Z.eq_dec j i) as [->|Hne];
      rewrite ?upd_eq, ?upd_ne by done; auto. intros u Hu. destruct Hby as [Hby|Hby]; congruence.
  - intros u Hu. split; [done|].
    assert (Hj : forall j, T !! u = Some (Working j) -> actor_of h' j = actor_of h j).
    { intros j Hj. rewrite E4, upd_ne; [done|]. intros ->. apply Hu. by apply (pi_inj _ _ _ _ (pv_count _ _ _ HI) _ _ i). }
    split; unfold my_lock; rewrite ?E3; try done.
    + intros _. by apply E6.
    + intros j Hp _. by apply Hj.
    + intros j r Hp. unfold underway. by rewrite (Hj j Hp), E6.
    + intros j t' r ev l Hc. rewrite E4. destruct (Z.eq_dec j i) as [->|Hne]; [|by rewrite upd_ne].
      exfalso. revert Hn. unfold no_callback. by rewrite Hc.
Qed.

(** The callback that [t] runs for actor [i], whose transfer is that of [t1]. *)
Lemma polite_callback i t1 a h' :
  T !! t = None -> chan_by (chan (actor_of h i)) = Some t1 -> chan_by (chan a) = Some t1 ->
  wake a = match chan a with Ended _ _ _ _ => 1 | _ => 0 end ->
  (forall r, underway h t1 i r -> underway h' t1 i r) ->
  (forall u t' r ev l, chan (actor_of h i) = Ending u t' r ev l -> u = t) ->
  mask h' = mask h -> slots h' = slots h -> lock h' = lock h -> actor_of h' = upd (actor_of h) i a -> clashes h' = clashes h ->
  (forall u, moved h' u = moved h u \/ u = t1 /\ exists r, chan (actor_of h i) = Running t1 r) -> polite h' (T !! t).
Proof.
  intros Ht Hb Hb' Hw Hun Hend E1 E2 E3 E4 E5 E6. pose proof (pv_by _ _ _ HI _ _ Hb) as Ht1. exists T. split_and!; [|done|].
  - destruct HI as [H1 H2 H3 H4]. split; rewrite ?E1, ?E2, ?E4, ?E5; try done; intros j; destruct (Z.eq_dec j i) as [->|Hne];
      rewrite ?upd_eq, ?upd_ne by done; auto. intros u Hu. congruence.
  - intros u Hu. split; [done|].
    assert (Hj : forall j, T !! u = Some (Working j) -> u = t1 /\ j = i \/ u <> t1 /\ actor_of h' j = actor_of h j).
    { intros j Hj. destruct (Z.eq_dec j i) as [->|Hne]; [left|right].
      - split; [|done]. by apply (pi_inj _ _ _ _ (pv_count _ _ _ HI) _ _ i).
      - split; [congruence|]. by rewrite E4, upd_ne. }
    split; unfold my_lock; rewrite ?E3; try done.
    + intros Hr. destruct (E6 u) as [|[-> [r Hc]]]; [done|]. by destruct (Hr i r Ht1).
    + intros j Hp Hidle. destruct (Hj j Hp) as [[-> ->]|[_ ?]]; [|done]. unfold idle_for in Hidle. by rewrite Hidle in Hb.
    + intros j r Hp. destruct (Hj j Hp) as [[-> ->]|[Hne Ea]]; [by apply Hun|]. unfold underway. rewrite Ea.
      by destruct (E6 u) as [->|[-> _]].
    + intros j t' r ev l Hc. rewrite E4. destruct (Z.eq_dec j i) as [->|Hne]; [|by rewrite upd_ne]. by destruct Hu; eapply Hend.
Qed.

Lemma no_transfer i u : (forall j, T !! t <> Some (Working j)) -> chan_by (chan (actor_of h i)) = Some u -> u <> t.
Proof. intros Hn Hu ->. by apply (Hn i), (pv_by _ _ _ HI). Qed.

Lemma finished_one i r n j u : T !! t = Some (Working i) -> finished h t i r n -> chan_by (chan (actor_of h j)) = Some u -> u <> t.
Proof.
  intros Ht (ev & l & Hc & _) Hu ->. pose proof (pv_by _ _ _ HI _ _ Hu) as Hj. assert (j = i) by congruence. subst. by rewrite Hc in Hu.
Qed.

Lemma free_channel i : (forall u, T !! u <> Some (Working i)) -> idle_for h i.
Proof.
  intros Hn. unfold idle_for. destruct (chan (actor_of h i)) as [|u r|v u r ev l|u r ev l] eqn:E; [done|..].
  all: destruct (Hn u); apply (pv_by _ _ _ HI); by rewrite E.
Qed.

(** A setting of an idle actor. *)
Lemma polite_idle i a :
  T !! t = Some (Working i) -> idle_for h i -> chan a = Idle -> wake a = wake (actor_of h i) -> polite (set_actor i a h) (Some (Working i)).
Proof.
  intros Ht Hi Ha Hw. rewrite <-Ht. pose proof (pv_wake _ _ _ HI i) as Hwk. unfold idle_for in Hi. rewrite Hi in Hwk.
  apply (polite_actor i a); try done; [unfold no_callback; by rewrite Hi|left; by rewrite Ha|by rewrite Ha, Hw|apply HI].
Qed.

Lemma pool_point c b o kk ch x h' p :
  T !! t = p -> point h t p c (Do o kk) b -> (match c, p with Memfun _, (None | Some Took) => True | _, _ => False end) ->
  access o ch h = Some (x, h') -> exists p', polite h' p' /\ point h' t p' c (kk x) b.
Proof.
  intros Ht Hpt Hc. remember (Do o kk) as q eqn:Eq. pose proof (pv_count _ _ _ HI) as HC. destruct Hpt; try discriminate; try done.
  - injection Eq as <- <-. cbn. rewrite (pi_sem _ _ _ _ HC). intros [= <- <-]. exists None. rewrite <-Ht at 1. split; [apply pool_polite_refl|by apply pt_take].
  - injection Eq as <- <-. cbn. rewrite (pi_sem _ _ _ _ HC). destruct (Z.ltb_spec 0 (m - Z.of_nat (size T))); [|done]. intros [= <- <-].
    exists (Some Took). split; [|by apply pt_lock]. rewrite <-(lookup_insert_eq T t Took). apply polite_slots.
    + by eapply counted_take.
    + intros u Hu. by rewrite lookup_insert_ne.
    + intros i u. apply no_transfer. by rewrite Ht.
  - injection Eq as <- <-. cbn. destruct (lock h) eqn:El; [done|]. intros [= <- <-]. exists (Some Took). rewrite <-Ht at 1.
    split; [apply polite_lock; by left|by apply pt_pick].
  - injection Eq as <- <-. intros [= <- <-]. exists (Some Took). rewrite <-Ht at 1. split; [apply pool_polite_refl|].
    destruct (counted_pick _ _ _ _ HC t Ht) as [Hr _]. pose proof (pi_range _ _ _ _ HC). unfold NU_PDMA_MEMFUN_ACTOR_MAX in *.
    destruct (Z.eqb_spec (nu_cto (mask h)) 32); [lia|]. by apply pt_set.
  - injection Eq as <- <-. intros [= <- <-]. exists (Some Took). rewrite <-Ht at 1. split; [apply pool_polite_refl|by apply pt_write].
  - injection Eq as <- <-. intros [= <- <-]. destruct (counted_pick _ _ _ _ HC t Ht) as [Hr Hno].
    exists (Some (Working (nu_cto (mask h)))). split.
    + apply polite_mask; [done|by apply counted_set|]. intros i u. apply no_transfer. by rewrite Ht.
    + apply pt_unlock; [done|lia|]. by apply free_channel.
Qed.

Lemma settings_point c b o kk ch x h' i :
  T !! t = Some (Working i) -> point h t (Some (Working i)) c (Do o kk) b ->
  access o ch h = Some (x, h') -> exists p', polite h' p' /\ point h' t p' c (kk x) b.
Proof.
  intros Ht Hpt. remember (Do o kk) as q eqn:Eq. remember (Some (Working i)) as p eqn:Ep. pose proof (pv_count _ _ _ HI) as HC.
  destruct Hpt; try discriminate; injection Ep as ->.
  - injection Eq as <- <-. cbn. rewrite H. destruct (Z.eqb_spec t t); [|done]. intros [= <- <-]. exists (Some (Working i)). rewrite <-Ht at 1.
    split; [apply polite_lock; by right|]. unfold employed. destruct (Z.ltb_spec i 0); [lia|]. by apply pt_work.
  - injection Eq as <- <-. intros [= <- <-]. exists (Some (Working i)). split; [by apply polite_idle|].
    apply pt_filter; [done|unfold idle_for; cbn; by rewrite upd_eq|cbn; by rewrite upd_eq].
  - injection Eq as <- <-. intros [= <- <-]. exists (Some (Working i)). split; [by apply polite_idle|].
    apply pt_callback; [done|unfold idle_for; cbn; by rewrite upd_eq|cbn; by rewrite upd_eq].
  - injection Eq as <- <-. intros [= <- <-]. exists (Some (Working i)). split; [by apply polite_idle|].
    apply pt_clear_result; [done|unfold idle_for; cbn; by rewrite upd_eq|cbn; by rewrite upd_eq].
  - injection Eq as <- <-. intros [= <- <-]. exists (Some (Working i)). split; [by apply polite_idle|].
    apply pt_transfer; [done|unfold idle_for; cbn; by rewrite upd_eq|cbn; by rewrite upd_eq].
  - injection Eq as <- <-. cbn. unfold idle_for in *. destruct (ch =? 1); intros [= <- <-]; exists (Some (Working i)); rewrite <-Ht at 1.
    + split; [apply pool_polite_refl|]. apply pt_wait; [done|]. unfold underway. by rewrite H0.
    + split.
      * eapply (polite_actor i); try done; cbn.
        -- unfold no_callback. by rewrite H0.
        -- by right.
        -- rewrite (pv_wake _ _ _ HI), H0. done.
        -- rewrite H0, (pv_clash _ _ _ HI). done.
        -- intros u Hu. by rewrite upd_ne.
      * apply pt_wait; [done|]. unfold underway. cbn. rewrite upd_eq. cbn. split; [done|]. rewrite H1. by destruct r.
  - injection Eq as <- <-. cbn. pose proof (pv_wake _ _ _ HI i) as Hw. destruct (Z.ltb_spec 0 (wake (actor_of h i))); [|done].
    intros [= <- <-]. exists (Some (Working i)). rewrite <-Ht at 1. unfold underway in H0.
    destruct (chan (actor_of h i)) as [|u r'|v u r' ev l|u r' ev l] eqn:Ec; try lia. destruct H0 as (-> & -> & Hm & Hlo & Hres). split.
    + eapply (polite_actor i); try done; [unfold no_callback; by rewrite Ec|by left|cbn; lia|apply HI].
    + apply pt_count; [done|]. exists ev, l. cbn. by rewrite upd_eq.
  - injection Eq as <- <-. intros [= <- <-]. exists (Some (Working i)). rewrite <-Ht at 1. split; [apply pool_polite_refl|].
    destruct (tst _ _) eqn:Et; [|by apply pt_left]. apply pt_abort; [done|]. destruct H0 as (ev & l & Hi & Hm & Hr & Hl & _).
    exists ev, l. split_and!; try done. unfold outcome. by rewrite <-Hr, Et.
  - injection Eq as <- <-. intros [= <- <-]. exists (Some (Working i)). rewrite <-Ht at 1. split; [apply pool_polite_refl|].
    apply pt_abort; [done|]. destruct H0 as (ev & l & Hi & Hm & Hr & Hl & _). exists ev, l. split_and!; try done. unfold outcome. by rewrite <-Hr, H1, Hl.
  - injection Eq as <- <-. intros [= <- <-]. exists (Some (Working i)). rewrite <-Ht at 1. split; [apply pool_polite_refl|].
    destruct (tst _ _); [by apply pt_terminate|by apply pt_fire].
  - injection Eq as <- <-. intros [= <- <-]. destruct (H0) as (ev & l & Hi & Hm & Hr & Hl & Hn). rewrite Hi. exists (Some (Working i)). split; [by apply polite_idle|].
    apply pt_fire; [done|]. exists ev, l. cbn. by rewrite upd_eq.
  - injection Eq as <- <-. cbn. destruct (lock h) eqn:El; [done|]. intros [= <- <-]. exists (Some (Working i)). rewrite <-Ht at 1.
    split; [apply polite_lock; by left|by apply pt_clear].
  - injection Eq as <- <-. intros [= <- <-]. exists (Some (Working i)). rewrite <-Ht at 1. split; [apply pool_polite_refl|by apply pt_clear_set].
  - injection Eq as <- <-. intros [= <- <-]. exists (Some Cleared). split.
    + apply polite_mask; [done|by apply counted_clear|]. intros j u. by eapply finished_one.
    + apply pt_cleared; [done|]. destruct H0 as (ev & l & _ & Hm & _ & _ & Hn). by exists ev, l.
Qed.

Lemma callback_point c b o kk ch x h' p :
  T !! t = p -> point h t p c (Do o kk) b -> (match c, p with Interrupt _ _ _, _ | _, Some Cleared => True | _, _ => False end) ->
  access o ch h = Some (x, h') -> exists p', polite h' p' /\ point h' t p' c (kk x) b.
Proof.
  intros Ht Hpt Hc. remember (Do o kk) as q eqn:Eq. pose proof (pv_count _ _ _ HI) as HC. destruct Hpt; try discriminate; try done.
  - injection Eq as <- <-. cbn. rewrite H. destruct (Z.eqb_spec t t); [|done]. intros [= <- <-]. exists (Some Cleared). rewrite <-Ht at 1.
    split; [apply polite_lock; by right|by apply pt_release].
  - injection Eq as <- <-. cbn. rewrite (pi_sem _ _ _ _ HC). destruct (_ <? RT_SEM_VALUE_MAX); [|done]. intros [= <- <-].
    exists None. split; [|apply pt_stop; [done|by intros r' [= <-]]]. rewrite <-(lookup_delete_eq T t). apply polite_slots.
    + by eapply counted_give.
    + intros u Hu. by rewrite lookup_delete_ne.
    + intros i u. apply no_transfer. by rewrite Ht.
  - injection Eq as <- <-. cbn. destruct (chan (actor_of h i)) as [|t1 r| |] eqn:Ec; try done. destruct (_ && _); [|done].
    intros [= <- <-]. exists None. rewrite <-Ht at 1. split.
    + eapply (polite_callback i t1); try done; cbn.
      * by rewrite Ec.
      * done.
      * by rewrite (pv_wake _ _ _ HI), Ec.
      * intros r'. unfold underway. rewrite Ec. cbn. rewrite !upd_eq. cbn. by intros [_ ->].
      * by rewrite Ec.
      * intros u. destruct (Z.eq_dec u t1) as [->|]; [right; split; [done|]; rewrite Ec; by exists r|left; by rewrite upd_ne].
    + apply (pt_cb _ _ _ _ _ _ t1 r); [done|]. cbn. by rewrite upd_eq.
  - injection Eq as <- <-. intros [= <- <-]. exists None. rewrite <-Ht at 1. split.
    + eapply (polite_callback i t'); try done; cbn.
      * by rewrite H0.
      * by rewrite H0.
      * by rewrite (pv_wake _ _ _ HI), H0.
      * intros r'. unfold underway. cbn. rewrite upd_eq. cbn. by rewrite H0.
      * rewrite H0. by intros u ? ? ? ? [= <-].
      * by left.
    + apply (pt_cb_give _ _ _ _ _ _ t' r); [done|cbn; by rewrite upd_eq..].
  - injection Eq as <- <-. cbn. destruct (_ <? RT_SEM_VALUE_MAX); [|done]. rewrite H0. intros [= <- <-]. exists None. rewrite <-Ht at 1. split.
    + eapply (polite_callback i t'); try done; cbn.
      * by rewrite H0.
      * done.
      * by rewrite (pv_wake _ _ _ HI), H0.
      * intros r'. unfold underway. cbn. rewrite H0, upd_eq. cbn. by intros (_ & -> & ? & ?).
      * rewrite H0. by intros u ? ? ? ? [= <-].
      * by left.
    + by apply pt_stop.
Qed.

Lemma pool_access_point c b o kk ch x h' :
  point h t (T !! t) c (Do o kk) b -> access o ch h = Some (x, h') -> exists p', polite h' p' /\ point h' t p' c (kk x) b.
Proof.
  intros Hpt. destruct (T !! t) as [[|i|]|] eqn:Ht; destruct c as [r|idx ev l].
  - by eapply pool_point.
  - by eapply callback_point.
  - by eapply settings_point.
  - by eapply settings_point.
  - by eapply callback_point.
  - by eapply callback_point.
  - by eapply pool_point.
  - by eapply callback_point.
Qed.
End polite.

(** ** The steps of the system *)

Definition sys_inv (m : Z) (s : sys op pool pool_call) : Prop :=
  (exists T, pool_inv m (hw s) T /\ forall t, point (hw s) t (T !! t) (last s t) (code (threads s t)) (body (threads s t))) /\
  forall p, stopped (isr s p) = true.

Lemma stopped_point h t p c q b : point h t p c q b -> (exists z, q = Stop z) -> p = None /\ ~ my_lock h t.
Proof. intros Hp [z Ez]. destruct Hp; try discriminate. done. Qed.

Lemma loop_point h t p c q b b' :
  point h t p c q b -> q = While b' \/ (q = Again /\ b' = b) -> point h t p c b' b'.
Proof.
  intros Hpt Hq. destruct Hpt; destruct Hq as [Eq|[Eq ->]]; try discriminate. injection Eq as <-. by apply pt_body.
Qed.

Lemma pool_leave t c th h : leave pool_driver t c th h = h.
Proof. unfold leave. by destruct (code th). Qed.

Lemma pool_start_point h t c : ~ my_lock h t -> point h t None c (pool_prog t c) Again.
Proof. intros Hl. destruct c; [by apply pt_while|by apply pt_end]. Qed.

Lemma pool_step_inv m s a s' : sys_inv m s -> sys_step pool_driver a s = Some s' -> sys_inv m s'.
Proof.
  intros [(T & HI & Hp) Hisr]. destruct a as [t c|t ch|p|p]; cbn [sys_step]; rewrite ?pool_leave; cbn [access_of call_of raised handler pool_driver].
  - destruct (stopped (threads s t)) eqn:Es; intros [= <-]. split; [|done]. exists T. split; [done|]. intros u. cbn.
    destruct (Z.eq_dec u t) as [->|Hne]; [rewrite !upd_eq|by rewrite !upd_ne]. cbn. unfold stopped in Es.
    destruct (code (threads s t)) as [z| | |] eqn:Ec; try done. pose proof (Hp t) as Hpt. rewrite Ec in Hpt.
    destruct (stopped_point _ _ _ _ _ _ Hpt ltac:(by exists z)) as [-> Hl]. by apply pool_start_point.
  - pose proof (Hp t) as Hpt. unfold thread_step. destruct (code (threads s t)) as [z| |bd|o kk] eqn:Ec; [done| | |].
    1,2: rewrite pool_leave; intros [= <-]; split; [|done]; exists T; split; [done|]; intros u; cbn;
      (destruct (Z.eq_dec u t) as [->|Hne]; [rewrite upd_eq|by rewrite upd_ne]); cbn; eapply loop_point; [exact Hpt|auto].
    destruct (access o ch (hw s)) as [[x h']|] eqn:Ea; [|done]. rewrite pool_leave. intros [= <-]. split; [|done].
    destruct (pool_access_point _ _ _ _ HI _ _ _ _ _ _ _ Hpt Ea) as (p' & (T' & HI' & Ht' & Hu) & Hpt'). exists T'. split; [done|]. intros u. cbn.
    destruct (Z.eq_dec u t) as [->|Hne]; [by rewrite upd_eq, Ht'|rewrite upd_ne by done].
    destruct (Hu u Hne) as [-> Hq]. by apply (pool_quiet_point _ _ (hw s)).
  - by rewrite andb_false_r.
  - specialize (Hisr p). unfold stopped in Hisr. unfold thread_step. by destruct (code (isr s p)).
Qed.

Lemma pool_boot_inv s m : pool_ready s m -> sys_inv m (pool_boot s).
Proof.
  intros [Hm _ Hmask Hsem]. split; [|done]. exists ∅. split.
  - split; cbn; try done. rewrite Hmask, Hsem. by apply counted_whole.
  - intros t. rewrite lookup_empty. by apply pt_stop.
Qed.

(** Only a thread that holds a slot looks for an actor. *)
Lemma pick_point h t p c q k b : point h t p c q b -> q = employ_pick t k -> p = Some Took.
Proof.
  intros Hp Eq. destruct Hp; try discriminate; try done. apply Do_inj in Eq as [_ Eq]. apply (f_equal (fun f => f 0)) in Eq.
  vm_compute in Eq. discriminate.
Qed.

(** A call that has returned [z]. *)
Definition returned (s : sys op pool pool_call) (t : Z) (c : pool_call) (z : Z) : Prop := last s t = c /\ code (threads s t) = Stop z.

(** C17: the actors under any interleaving.  Any number of threads run [nu_pdma_memfun] with
    any requests, any number of interrupt contexts the callback, and channels end with any
    events and counts.  Then a transfer is only started on a channel that is free: the one
    before it has ended, its callback has run and its thread has been woken; a thread whose
    call has returned got the result of its own last transfer, which had the buffers, width,
    count and memory control it asked for; a thread that has taken the pool's semaphore finds
    a free actor of the pool under the mutex; and when nobody is inside a function, the pool
    is whole again: mask and semaphore as after the initialisation, mutex free, the
    semaphores of the actors at 0. *)
Theorem actor_pool_exclusive (d : drv) m s :
  pool_ready d m -> reach pool_driver (fun _ => True) (pool_boot d) s ->
  clashes (hw s) = 0 /\
  (forall t r z, returned s t (Memfun r) z -> exists ev l, moved (hw s) t = Some (r, ev, l) /\ z = outcome r ev l) /\
  (forall t k, code (threads s t) = employ_pick t k -> 0 <= nu_cto (mask (hw s)) < m) /\
  ((forall t, stopped (threads s t) = true) ->
     mask (hw s) = nu_pdma_memfun_actor_mask d /\ slots (hw s) = nu_pdma_memfun_actor_pool_sem d /\ lock (hw s) = None /\
     forall i, wake (actor_of (hw s) i) = 0).
Proof.
  intros Hd Hr. assert (HI : sys_inv m s).
  { revert Hr. apply (reach_rule _ _ (sys_inv m)); [|by apply pool_boot_inv]. intros x a x' Hx _. by apply pool_step_inv. }
  destruct HI as [(T & HI & Hp) _]. split_and!.
  - apply HI.
  - intros t r z [Hl Hc]. pose proof (Hp t) as Hpt. rewrite Hl, Hc in Hpt. remember (Stop z) as q eqn:Eq. remember (Memfun r) as c eqn:Ec.
    destruct Hpt; try discriminate. injection Eq as ->. by apply H0.
  - intros t k Hc. pose proof (Hp t) as Hpt. apply (counted_pick _ _ _ _ (pv_count _ _ _ HI) t).
    by apply (pick_point _ _ _ _ _ _ _ Hpt) in Hc.
  - intros Hall. assert (Hnone : forall t, T !! t = None /\ ~ my_lock (hw s) t).
    { intros t. pose proof (Hp t) as Hpt. specialize (Hall t). unfold stopped in Hall.
      destruct (code (threads s t)) as [z| | |] eqn:Ec; try done. eapply stopped_point; [exact Hpt|by exists z]. }
    assert (T = ∅) as -> by (apply map_empty; intros t; apply Hnone). destruct HI as [[I1 I2 I3 I4 _ _ _ I8] Hby Hwk _].
    destruct Hd as [_ _ -> ->]. rewrite map_size_empty in I8. split_and!.
    + apply whole_mask; [done|done|]. intros i Hi. destruct (Z.leb_spec m i); [apply I3; lia|]. apply not_true_is_false.
      intros Hb. apply I4 in Hb as [t Ht]; [|lia]. by rewrite lookup_empty in Ht.
    + rewrite I8. f_equal. lia.
    + destruct (lock (hw s)) as [t|] eqn:El; [|done]. by destruct (proj2 (Hnone t)).
    + intros i. rewrite Hwk. destruct (chan (actor_of (hw s) i)) as [| | |t r ev l] eqn:Ec; try done.
      assert (T0 : (∅ : gmap Z phase) !! t = Some (Working i)) by (apply Hby; by rewrite Ec). by rewrite lookup_empty in T0.
Qed.

(** Two threads at once; the transfer of the first is aborted with three elements left. *)
Definition two_requests : request * request := (mkRequest 0x1000 0x2000 32 8 eMemCtl_SrcInc_DstInc, mkRequest 0x3000 0x4000 8 5 eMemCtl_SrcInc_DstFix).
Definition two_threads : list (action pool_call) :=
  [Start 1 (Memfun (fst two_requests)); Start 2 (Memfun (snd two_requests))] ++
  replicate 4 (Step 1 0) ++ replicate 3 (Step 2 0) ++ replicate 9 (Step 1 0) ++ replicate 10 (Step 2 0) ++
  [Start 10 (Interrupt 0 NU_PDMA_EVENT_ABORT 3); Start 11 (Interrupt 1 NU_PDMA_EVENT_TRANSFER_DONE 0)] ++
  replicate 3 (Step 11 0) ++ replicate 3 (Step 10 0) ++ replicate 8 (Step 2 0) ++ replicate 10 (Step 1 0).

Lemma actor_pool_exclusive_witness :
  pool_ready board_actors 4 /\
  exists s, reach pool_driver (fun _ => True) (pool_boot board_actors) s /\ returned s 1 (Memfun (fst two_requests)) 5 /\
    returned s 2 (Memfun (snd two_requests)) 5 /\ clashes (hw s) = 0 /\
    exists ev l, moved (hw s) 1 = Some (fst two_requests, ev, l) /\ 5 = outcome (fst two_requests) ev l.
Proof.
  split; [exact board_actors_ready|].
  assert (H : match run_sys pool_driver two_threads (pool_boot board_actors) with
              | Some s => returned s 1 (Memfun (fst two_requests)) 5 /\ returned s 2 (Memfun (snd two_requests)) 5 | None => False end)
    by (vm_compute; repeat split).
  destruct (run_sys pool_driver two_threads (pool_boot board_actors)) as [s|] eqn:E; [|destruct H].
  assert (Hr : reach pool_driver (fun _ => True) (pool_boot board_actors) s).
  { eapply reach_run; [apply reach_start|apply Forall_true; done|exact E]. }
  destruct H as [H1 H2]. destruct (actor_pool_exclusive board_actors 4 s board_actors_ready Hr) as (Hc & Hret & _).
  exists s. exact (conj Hr (conj H1 (conj H2 (conj Hc (Hret 1 _ 5 H1))))).
Defined.
