(* ===== verification/SpiHw.v ===== *)
(** * The SPI controller

    The registers of an SPI or QSPI controller as [libraries/ma35/StdDriver/inc/nu_spi.h],
    [nu_qspi.h] and the two functions of [nu_spi.c] the drivers call see them, and the
    shift engine behind the two FIFOs.  Both controllers share the register layout the
    drivers use (the QSPI driver casts one to the other).

    The engine moves words from the transmit FIFO to the wire in order, one answer
    into the receive FIFO for each; how many words it moves before a status read is a
    function of time the model does not fix ([pace]), and so are the answers of the
    device on the bus ([slave]).  A word that arrives at a full receive FIFO is lost. *)

From Stdlib Require Import ZArith Lia Bool.
From stdpp Require Import base tactics numbers list option.
From S2P Require Import Prelude.

Open Scope Z_scope.

(** ** Registers *)

Definition SPI_CTL_SPIEN_Msk : Z := bit 0.
Definition SPI_CTL_RXNEG_Msk : Z := bit 1.
Definition SPI_CTL_TXNEG_Msk : Z := bit 2.
Definition SPI_CTL_CLKPOL_Msk : Z := bit 3.
Definition SPI_CTL_DWIDTH_Pos : Z := 8.
Definition SPI_CTL_DWIDTH_Msk : Z := shl32 0x1f SPI_CTL_DWIDTH_Pos.
Definition SPI_CTL_LSB_Msk : Z := bit 13.
Definition SPI_CTL_SLAVE_Msk : Z := bit 18.
Definition QSPI_CTL_DATDIR_Msk : Z := bit 20.
Definition QSPI_CTL_DUALIOEN_Msk : Z := bit 21.
Definition QSPI_CTL_QUADIOEN_Msk : Z := bit 22.
Definition SPI_SSCTL_SS_Msk : Z := bit 0.
Definition SPI_SSCTL_SSACTPOL_Msk : Z := bit 2.
Definition SPI_SSCTL_AUTOSS_Msk : Z := bit 3.
Definition SPI_PDMACTL_TXPDMAEN_Msk : Z := bit 0.
Definition SPI_PDMACTL_RXPDMAEN_Msk : Z := bit 1.
Definition SPI_FIFOCTL_RXFBCLR_Msk : Z := bit 8.

Definition SPI_MODE_0 : Z := SPI_CTL_TXNEG_Msk.
Definition SPI_MODE_1 : Z := SPI_CTL_RXNEG_Msk.
Definition SPI_MODE_2 : Z := Z.lor SPI_CTL_CLKPOL_Msk SPI_CTL_RXNEG_Msk.
Definition SPI_MODE_3 : Z := Z.lor SPI_CTL_CLKPOL_Msk SPI_CTL_TXNEG_Msk.
Definition SPI_SLAVE : Z := SPI_CTL_SLAVE_Msk.
Definition SPI_MASTER : Z := 0.

(** How the data pins are driven.  With both the dual and the quad bit set the
    controller's behaviour is not documented. *)
Inductive bus_mode : Type :=
| Single
| Lines2 (out : bool)
| Lines4 (out : bool)
| Undocumented.

#[export] Instance bus_mode_eq_dec : EqDecision bus_mode.
Proof. solve_decision. Defined.

(** What the wire carries: the level of the controller's select pin after a write to
    SSCTL, a level written to a port pin that selects a device, and the words - mode, width in bits, the word sent and the word received. *)
Inductive wire_ev : Type :=
| WSel (high : bool)
| WPin (pin : Z) (high : bool)
| WWord (m : bus_mode) (width w r : Z).

Record spi_hw : Type := mkSpiHw {
  spi_CTL : Z;
  spi_CLKDIV : Z;
  spi_SSCTL : Z;
  spi_PDMACTL : Z;
  spi_FIFOCTL : Z;
  spi_CLKSEL4 : Z;
  spi_I2SCTL : Z;
  TXQ : list Z;
  RXQ : list Z;
  wire : list wire_ev;
  polls : nat
}.

Definition set_spi_CTL (v : Z) (h : spi_hw) : spi_hw :=
  mkSpiHw v (spi_CLKDIV h) (spi_SSCTL h) (spi_PDMACTL h) (spi_FIFOCTL h) (spi_CLKSEL4 h)
    (spi_I2SCTL h) (TXQ h) (RXQ h) (wire h) (polls h).
Definition set_spi_CLKDIV (v : Z) (h : spi_hw) : spi_hw :=
  mkSpiHw (spi_CTL h) v (spi_SSCTL h) (spi_PDMACTL h) (spi_FIFOCTL h) (spi_CLKSEL4 h)
    (spi_I2SCTL h) (TXQ h) (RXQ h) (wire h) (polls h).
Definition set_spi_SSCTL (v : Z) (h : spi_hw) : spi_hw :=
  mkSpiHw (spi_CTL h) (spi_CLKDIV h) v (spi_PDMACTL h) (spi_FIFOCTL h) (spi_CLKSEL4 h)
    (spi_I2SCTL h) (TXQ h) (RXQ h) (wire h) (polls h).
Definition set_spi_PDMACTL (v : Z) (h : spi_hw) : spi_hw :=
  mkSpiHw (spi_CTL h) (spi_CLKDIV h) (spi_SSCTL h) v (spi_FIFOCTL h) (spi_CLKSEL4 h)
    (spi_I2SCTL h) (TXQ h) (RXQ h) (wire h) (polls h).
Definition set_spi_FIFOCTL (v : Z) (h : spi_hw) : spi_hw :=
  mkSpiHw (spi_CTL h) (spi_CLKDIV h) (spi_SSCTL h) (spi_PDMACTL h) v (spi_CLKSEL4 h)
    (spi_I2SCTL h) (TXQ h) (RXQ h) (wire h) (polls h).
Definition set_spi_CLKSEL4 (v : Z) (h : spi_hw) : spi_hw :=
  mkSpiHw (spi_CTL h) (spi_CLKDIV h) (spi_SSCTL h) (spi_PDMACTL h) (spi_FIFOCTL h) v
    (spi_I2SCTL h) (TXQ h) (RXQ h) (wire h) (polls h).
Definition set_spi_I2SCTL (v : Z) (h : spi_hw) : spi_hw :=
  mkSpiHw (spi_CTL h) (spi_CLKDIV h) (spi_SSCTL h) (spi_PDMACTL h) (spi_FIFOCTL h) (spi_CLKSEL4 h)
    v (TXQ h) (RXQ h) (wire h) (polls h).
Definition set_fifos (t r : list Z) (h : spi_hw) : spi_hw :=
  mkSpiHw (spi_CTL h) (spi_CLKDIV h) (spi_SSCTL h) (spi_PDMACTL h) (spi_FIFOCTL h) (spi_CLKSEL4 h)
    (spi_I2SCTL h) t r (wire h) (polls h).
Definition set_wire (w : list wire_ev) (h : spi_hw) : spi_hw :=
  mkSpiHw (spi_CTL h) (spi_CLKDIV h) (spi_SSCTL h) (spi_PDMACTL h) (spi_FIFOCTL h) (spi_CLKSEL4 h)
    (spi_I2SCTL h) (TXQ h) (RXQ h) w (polls h).
Definition set_polls (n : nat) (h : spi_hw) : spi_hw :=
  mkSpiHw (spi_CTL h) (spi_CLKDIV h) (spi_SSCTL h) (spi_PDMACTL h) (spi_FIFOCTL h) (spi_CLKSEL4 h)
    (spi_I2SCTL h) (TXQ h) (RXQ h) (wire h) n.

(** The data width in bits: the field holds 0 for 32. *)
Definition word_width (ctl : Z) : Z :=
  let d := field_get ctl 5 SPI_CTL_DWIDTH_Pos in if d =? 0 then 32 else d.

Definition mode_of (ctl : Z) : bus_mode :=
  let out := tst ctl QSPI_CTL_DATDIR_Msk in
  match tst ctl QSPI_CTL_DUALIOEN_Msk, tst ctl QSPI_CTL_QUADIOEN_Msk with
  | false, false => Single
  | true, false => Lines2 out
  | false, true => Lines4 out
  | true, true => Undocumented
  end.

(** The level of the select pin: the active level while SS is set. *)
Definition pin_level (ssctl : Z) : bool :=
  if tst ssctl SPI_SSCTL_SS_Msk then tst ssctl SPI_SSCTL_SSACTPOL_Msk
  else negb (tst ssctl SPI_SSCTL_SSACTPOL_Msk).

(** ** The shift engine *)

(** [pace n]: words shifted before the [n]-th status read; [slave]: the device's
    answer, from everything the wire has carried; the depths of the FIFOs; and the
    fuel of the polling loops. *)
Class SpiHw : Type := {
  pace : nat -> nat;
  slave : list wire_ev -> bus_mode -> Z -> Z;
  tx_depth : nat;
  rx_depth : nat;
  poll_fuel : nat
}.

Section hw.
Context `{SH : SpiHw}.

Definition answer (m : bus_mode) (width : Z) (wr : list wire_ev) (w : Z) : Z :=
  Z.land (slave wr m w) (Z.ones width).

Definition shift1 (h : spi_hw) : spi_hw :=
  match TXQ h with
  | [] => h
  | w :: q =>
      let m := mode_of (spi_CTL h) in
      let width := word_width (spi_CTL h) in
      let r := answer m width (wire h) w in
      set_wire (wire h ++ [WWord m width w r])
        (set_fifos q (if (length (RXQ h) <? rx_depth)%nat then RXQ h ++ [r] else RXQ h) h)
  end.

Fixpoint shifts (n : nat) (h : spi_hw) : spi_hw :=
  match n with O => h | S n' => shifts n' (shift1 h) end.

(** A read of STATUS finds the engine where the time passed has brought it. *)
Definition status_read : M spi_hw unit :=
  modify (fun h => set_polls (S (polls h)) (shifts (pace (polls h)) h)).

Definition SPI_IS_BUSY : M spi_hw bool :=
  status_read ;; gets (fun h => negb (length (TXQ h) =? 0)%nat).
Definition SPI_GET_RX_FIFO_EMPTY_FLAG : M spi_hw bool :=
  status_read ;; gets (fun h => (length (RXQ h) =? 0)%nat).
Definition SPI_GET_TX_FIFO_FULL_FLAG : M spi_hw bool :=
  status_read ;; gets (fun h => (tx_depth <=? length (TXQ h))%nat).

(** A read of an empty receive FIFO is left undefined. *)
Definition SPI_READ_RX : M spi_hw Z :=
  let! h := get in
  let! r := deref (head (RXQ h)) in
  modify (fun h => set_fifos (TXQ h) (tail (RXQ h)) h) ;;
  ret r.

(** Only the low bits of the data width are shifted; a write to a full FIFO is lost. *)
Definition SPI_WRITE_TX (w : Z) : M spi_hw unit :=
  modify (fun h =>
    if (length (TXQ h) <? tx_depth)%nat
    then set_fifos (TXQ h ++ [Z.land w (Z.ones (word_width (spi_CTL h)))]) (RXQ h) h
    else h).

(** A write to CTL that changes the data width clears both FIFOs. *)
Definition write_CTL (v : Z) : M spi_hw unit :=
  modify (fun h =>
    let h' := set_spi_CTL v h in
    if word_width v =? word_width (spi_CTL h) then h' else set_fifos [] [] h').
Definition update_CTL (f : Z -> Z) : M spi_hw unit :=
  let! h := get in write_CTL (f (spi_CTL h)).

Definition write_SSCTL (v : Z) : M spi_hw unit :=
  modify (fun h => set_wire (wire h ++ [WSel (pin_level v)]) (set_spi_SSCTL v h)).
Definition update_SSCTL (f : Z -> Z) : M spi_hw unit :=
  let! h := get in write_SSCTL (f (spi_SSCTL h)).

(** Bit RXFBCLR clears the receive FIFO and reads as written. *)
Definition SPI_ClearRxFIFO : M spi_hw unit :=
  modify (fun h => set_spi_FIFOCTL (Z.lor (spi_FIFOCTL h) SPI_FIFOCTL_RXFBCLR_Msk)
                     (set_fifos (TXQ h) [] h)).
Definition SPI_DisableAutoSS : M spi_hw unit :=
  update_SSCTL (fun v => Z.land v (not32 (Z.lor SPI_SSCTL_AUTOSS_Msk SPI_SSCTL_SS_Msk))).

Definition SPI_SET_SS_HIGH : M spi_hw unit :=
  update_SSCTL (fun v => Z.lor (Z.land v (not32 SPI_SSCTL_AUTOSS_Msk))
                           (Z.lor SPI_SSCTL_SSACTPOL_Msk SPI_SSCTL_SS_Msk)).
Definition SPI_SET_SS_LOW : M spi_hw unit :=
  update_SSCTL (fun v =>
    Z.lor (Z.land v (not32 (Z.lor SPI_SSCTL_AUTOSS_Msk SPI_SSCTL_SSACTPOL_Msk))) SPI_SSCTL_SS_Msk).
Definition SPI_SET_LSB_FIRST : M spi_hw unit := update_CTL (fun v => Z.lor v SPI_CTL_LSB_Msk).
Definition SPI_SET_MSB_FIRST : M spi_hw unit :=
  update_CTL (fun v => Z.land v (not32 SPI_CTL_LSB_Msk)).
Definition SPI_TRIGGER_TX_RX_PDMA : M spi_hw unit :=
  modify (fun h => set_spi_PDMACTL (Z.lor (spi_PDMACTL h)
    (Z.lor SPI_PDMACTL_TXPDMAEN_Msk SPI_PDMACTL_RXPDMAEN_Msk)) h).
Definition SPI_DISABLE_TX_RX_PDMA : M spi_hw unit :=
  modify (fun h => set_spi_PDMACTL (Z.land (spi_PDMACTL h)
    (not32 (Z.lor SPI_PDMACTL_TXPDMAEN_Msk SPI_PDMACTL_RXPDMAEN_Msk))) h).

Definition QSPI_DISABLE_DUAL_MODE : M spi_hw unit :=
  update_CTL (fun v => Z.land v (not32 QSPI_CTL_DUALIOEN_Msk)).
Definition QSPI_ENABLE_DUAL_INPUT_MODE : M spi_hw unit :=
  update_CTL (fun v => Z.lor (Z.land v (not32 QSPI_CTL_DATDIR_Msk)) QSPI_CTL_DUALIOEN_Msk).
Definition QSPI_ENABLE_DUAL_OUTPUT_MODE : M spi_hw unit :=
  update_CTL (fun v => Z.lor v (Z.lor QSPI_CTL_DATDIR_Msk QSPI_CTL_DUALIOEN_Msk)).
Definition QSPI_DISABLE_QUAD_MODE : M spi_hw unit :=
  update_CTL (fun v => Z.land v (not32 QSPI_CTL_QUADIOEN_Msk)).
Definition QSPI_ENABLE_QUAD_INPUT_MODE : M spi_hw unit :=
  update_CTL (fun v => Z.lor (Z.land v (not32 QSPI_CTL_DATDIR_Msk)) QSPI_CTL_QUADIOEN_Msk).
Definition QSPI_ENABLE_QUAD_OUTPUT_MODE : M spi_hw unit :=
  update_CTL (fun v => Z.lor v (Z.lor QSPI_CTL_DATDIR_Msk QSPI_CTL_QUADIOEN_Msk)).
End hw.

(** The engine never stops for good: in any stretch of [b] status reads it moves a
    word; the loops have fuel for a full transmit FIFO and a full receive FIFO. *)
Class SpiHwSpec `{SH : SpiHw} : Prop := {
  tx_depth_pos : (0 < tx_depth)%nat;
  pace_progress : exists b : nat, (b * tx_depth + rx_depth + 2 <= poll_fuel)%nat /\
    forall n, exists d, (d < b)%nat /\ (0 < pace (n + d))%nat
}.

(** ** What the FIFOs will become

    Words in the transmit FIFO are as good as sent: [clock] gives what the wire will
    have carried and the answers, and a status read changes neither. *)

Section facts.
Context `{SH : SpiHw}.

Fixpoint clock (m : bus_mode) (width : Z) (ws : list Z) (wr : list wire_ev)
  : list wire_ev * list Z :=
  match ws with
  | [] => (wr, [])
  | w :: ws' =>
      let r := answer m width wr w in
      let p := clock m width ws' (wr ++ [WWord m width w r]) in
      (fst p, r :: snd p)
  end.

Definition engine (h : spi_hw) : list wire_ev * list Z :=
  clock (mode_of (spi_CTL h)) (word_width (spi_CTL h)) (TXQ h) (wire h).
Definition final_wire (h : spi_hw) : list wire_ev := fst (engine h).
Definition final_rx (h : spi_hw) : list Z := RXQ h ++ snd (engine h).
Definition outstanding (h : spi_hw) : nat := (length (TXQ h) + length (RXQ h))%nat.

(** The registers software alone writes. *)
Definition spi_regs (h : spi_hw) : Z * Z * Z * Z * Z :=
  (spi_CTL h, spi_CLKDIV h, spi_SSCTL h, spi_PDMACTL h, spi_CLKSEL4 h).

Definition quiet (h : spi_hw) : Prop := TXQ h = [] /\ RXQ h = [].

Lemma clock_app m width ws1 ws2 wr :
  clock m width (ws1 ++ ws2) wr =
    let p1 := clock m width ws1 wr in
    let p2 := clock m width ws2 (fst p1) in (fst p2, snd p1 ++ snd p2).
Proof.
  revert wr. induction ws1 as [|w ws1 IH]; intros wr; cbn.
  - by destruct (clock m width ws2 wr).
  - rewrite IH. done.
Qed.

Lemma clock_length m width ws wr : length (snd (clock m width ws wr)) = length ws.
Proof. revert wr. induction ws as [|w ws IH]; intros wr; cbn; [done|]. by rewrite IH. Qed.

Lemma clock_wire m width ws wr : exists ev, fst (clock m width ws wr) = wr ++ ev /\ length ev = length ws.
Proof.
  revert wr. induction ws as [|w ws IH]; intros wr; cbn.
  - exists []. by rewrite app_nil_r.
  - destruct (IH (wr ++ [WWord m width w (answer m width wr w)])) as (ev & E & L).
    eexists (_ :: ev). rewrite E, <-app_assoc. cbn. by rewrite L.
Qed.

(** The engine moving [n] words. *)
Lemma shift1_regs h : spi_regs (shift1 h) = spi_regs h /\ polls (shift1 h) = polls h.
Proof. unfold shift1. by destruct (TXQ h). Qed.

Lemma shift1_TXQ h : TXQ (shift1 h) = tail (TXQ h).
Proof. unfold shift1. by destruct (TXQ h) eqn:E. Qed.

Lemma shift1_wire h : final_wire (shift1 h) = final_wire h.
Proof. unfold final_wire, engine, shift1. destruct (TXQ h) eqn:E; [by rewrite E|done]. Qed.

Lemma shift1_rx h :
  (outstanding h <= rx_depth)%nat ->
  final_rx (shift1 h) = final_rx h /\ outstanding (shift1 h) = outstanding h.
Proof.
  unfold final_rx, engine, outstanding, shift1. destruct (TXQ h) as [|w q] eqn:E; [by rewrite E|].
  intros Ho. cbn in Ho. destruct (Nat.ltb_spec (length (RXQ h)) rx_depth); [|lia].
  cbn. rewrite <-app_assoc, length_app. cbn. split; [done|lia].
Qed.

Lemma shifts_regs n h : spi_regs (shifts n h) = spi_regs h /\ polls (shifts n h) = polls h.
Proof.
  revert h. induction n as [|n IH]; intros h; [done|]. cbn. destruct (IH (shift1 h)) as [-> ->].
  apply shift1_regs.
Qed.

Lemma shifts_TXQ n h : TXQ (shifts n h) = drop n (TXQ h).
Proof.
  revert h. induction n as [|n IH]; intros h; [done|]. cbn. rewrite IH, shift1_TXQ.
  by destruct (TXQ h); cbn; rewrite ?drop_nil.
Qed.

Lemma shifts_wire n h : final_wire (shifts n h) = final_wire h.
Proof. revert h. induction n as [|n IH]; intros h; [done|]. cbn. by rewrite IH, shift1_wire. Qed.

Lemma shifts_rx n h :
  (outstanding h <= rx_depth)%nat ->
  final_rx (shifts n h) = final_rx h /\ outstanding (shifts n h) = outstanding h.
Proof.
  revert h. induction n as [|n IH]; intros h Ho; [done|]. cbn.
  destruct (shift1_rx h Ho) as [<- Eo]. destruct (IH (shift1 h)) as [-> ->]; [lia|done].
Qed.

Lemma shifts_idle n h : TXQ h = [] -> shifts n h = h.
Proof. intros E. induction n as [|n IH]; [done|]. cbn. unfold shift1. by rewrite E. Qed.

(** A status read. *)
Definition poll (h : spi_hw) : spi_hw := set_polls (S (polls h)) (shifts (pace (polls h)) h).

Lemma status_read_eq h : status_read h = Ret (tt, poll h).
Proof. done. Qed.

Lemma poll_regs h : spi_regs (poll h) = spi_regs h.
Proof. unfold poll. cbn. by destruct (shifts_regs (pace (polls h)) h). Qed.

Lemma poll_wire h : final_wire (poll h) = final_wire h.
Proof. apply (shifts_wire (pace (polls h)) h). Qed.

Lemma poll_rx h :
  (outstanding h <= rx_depth)%nat ->
  final_rx (poll h) = final_rx h /\ outstanding (poll h) = outstanding h.
Proof. apply (shifts_rx (pace (polls h)) h). Qed.

Lemma poll_TXQ_le h : (length (TXQ (poll h)) <= length (TXQ h))%nat.
Proof. unfold poll. cbn. rewrite shifts_TXQ, length_drop. lia. Qed.

Lemma poll_idle h : TXQ h = [] -> poll h = set_polls (S (polls h)) h.
Proof. intros E. unfold poll. by rewrite shifts_idle. Qed.

(** Words moved by [k] reads from the [p]-th on. *)
Fixpoint shifted (p k : nat) : nat :=
  match k with O => O | S k' => (pace p + shifted (S p) k')%nat end.

(** [k] more reads find the transmit FIFO empty. *)
Definition drains_in (k : nat) (h : spi_hw) : Prop := (length (TXQ h) <= shifted (polls h) k)%nat.

Lemma drains_in_poll k h : drains_in (S k) h -> drains_in k (poll h).
Proof.
  unfold drains_in, poll. cbn. rewrite shifts_TXQ, length_drop. lia.
Qed.

Lemma drains_in_0 h : drains_in 0 h -> TXQ h = [].
Proof. unfold drains_in. cbn. intros H. apply length_zero_iff_nil. lia. Qed.

Lemma shifted_add p j k : shifted p (j + k) = (shifted p j + shifted (p + j) k)%nat.
Proof.
  revert p. induction j as [|j IH]; intros p; cbn; [by rewrite Nat.add_0_r|].
  rewrite IH, Nat.add_succ_comm. lia.
Qed.

Lemma shifted_one p d : (0 < pace (p + d))%nat -> (0 < shifted p (S d))%nat.
Proof.
  revert p. induction d as [|d IH]; intros p H; cbn.
  - rewrite Nat.add_0_r in H. lia.
  - rewrite <-Nat.add_succ_comm in H. apply IH in H. cbn in H. lia.
Qed.

Lemma shifted_progress b n p :
  (forall i, exists d, (d < b)%nat /\ (0 < pace (i + d))%nat) -> (n <= shifted p (b * n))%nat.
Proof.
  intros Hb. revert p. induction n as [|n IH]; intros p; [lia|].
  replace (b * S n)%nat with (b + b * n)%nat by lia. rewrite shifted_add.
  destruct (Hb p) as (d & Hd & Hp). apply shifted_one in Hp.
  replace b with (S d + (b - S d))%nat at 1 by lia. rewrite shifted_add.
  specialize (IH (p + b)%nat). lia.
Qed.

Lemma shifted_mono p j k : (j <= k)%nat -> (shifted p j <= shifted p k)%nat.
Proof. intros H. replace k with (j + (k - j))%nat by lia. rewrite shifted_add. lia. Qed.

Lemma drains_in_fuel `{HS : !SpiHwSpec} h :
  (length (TXQ h) <= tx_depth)%nat -> exists k, (k + rx_depth + 2 <= poll_fuel)%nat /\ drains_in k h.
Proof.
  intros Hl. destruct pace_progress as (b & Hf & Hb). exists (b * tx_depth)%nat. split; [lia|].
  unfold drains_in. pose proof (shifted_progress b tx_depth (polls h) Hb). lia.
Qed.

(** The select pin. *)
Lemma update_SSCTL_eq f h :
  update_SSCTL f h =
    Ret (tt, set_wire (wire h ++ [WSel (pin_level (f (spi_SSCTL h)))]) (set_spi_SSCTL (f (spi_SSCTL h)) h)).
Proof. done. Qed.

Lemma update_CTL_eq f h :
  word_width (f (spi_CTL h)) = word_width (spi_CTL h) ->
  update_CTL f h = Ret (tt, set_spi_CTL (f (spi_CTL h)) h).
Proof.
  intros E. unfold update_CTL, write_CTL. rewrite bind_get. unfold modify. by rewrite E, Z.eqb_refl.
Qed.
End facts.

(** ** An example controller

    Eight-word FIFOs, words moved at the pace [p], a device that answers [sl]. *)
Definition board_spi (p : nat -> nat) (sl : list wire_ev -> bus_mode -> Z -> Z) : SpiHw :=
  Build_SpiHw p sl 8 8 200.

Definition spi_reset : spi_hw := mkSpiHw 0 0 0 0 0 0 0 [] [] [] 0.

Lemma board_spi_spec p sl : (forall n, 0 < p n)%nat -> SpiHwSpec (SH := board_spi p sl).
Proof.
  intros Hp. split; [cbn; lia|]. exists 1%nat. split; [cbn; lia|].
  intros n. exists O. split; [lia|apply Hp].
Qed.
