(* ===== verification/SpiOpen.v ===== *)
(** * Opening a controller and its bus clock

    [QSPI_Open], [QSPI_SetBusClock], [QSPI_GetBusClock] and their clock-source helpers
    of [libraries/ma35/StdDriver/src/nu_qspi.c], and [SPI_Open] of [nu_spi.c]; the
    frequencies the clock controller reports come in as [clk_rates].  The property
    relates the frequency [QSPI_Open] returns to the one the divider it programs
    gives. *)

From Stdlib Require Import ZArith Lia Bool.
From stdpp Require Import base tactics numbers list option.
From S2P Require Import Prelude SpiHw.

Open Scope Z_scope.

Definition QSPI0_BASE : Z := 0x40680000.
Definition QSPI1_BASE : Z := 0x40690000.
Definition SPI0_BASE : Z := 0x40600000.
Definition SPI1_BASE : Z := 0x40610000.
Definition SPI2_BASE : Z := 0x40620000.

Definition SPI_CLKDIV_DIVIDER_Msk : Z := 0x1ff.
Definition SPI_I2SCTL_I2SEN_Msk : Z := bit 0.
Definition SPI_SS_ACTIVE_LOW : Z := 0.

(** What [CLK_GetSYSCLK0Freq], [CLK_GetSYSCLK1Freq] (which PCLK0, PCLK1 and PCLK2
    are) and [CLK_GetPLLClockFreq(APLL)] return. *)
Record clk_rates : Type := mkRates {
  SYSCLK0 : Z;
  SYSCLK1 : Z;
  APLL : Z
}.


(** *** QSPI *)

Definition QSPI_GetSrcClkSetting (f : clk_rates) (qspi : Z) : M spi_hw Z :=
  let! sel := gets spi_CLKSEL4 in
  if qspi =? QSPI0_BASE then
    ret (match field_get sel 2 8 with 0 => SYSCLK1 f | 1 => APLL f | _ => 0 end)
  else if qspi =? QSPI1_BASE then
    ret (match field_get sel 2 10 with 0 => SYSCLK1 f | 1 => APLL f | _ => 0 end)
  else ret 0.

Definition QSPI_SetSrcClkToPCLK (qspi : Z) : M spi_hw unit :=
  let pm := if qspi =? QSPI0_BASE then (8, shl32 3 8)
            else if qspi =? QSPI1_BASE then (10, shl32 3 10) else (0, 0) in
  modify (fun h => set_spi_CLKSEL4 (field_set (spi_CLKSEL4 h) (snd pm) (shl32 2 (fst pm))) h).

(** Both the divider and the frequency the function reports. *)
Definition put_divider (v : Z -> Z) : M spi_hw unit :=
  modify (fun h => set_spi_CLKDIV (v (spi_CLKDIV h)) h).

Definition round_divider (src bus : Z) : Z := u32 (u32 (u32 (src * 10) / bus + 5) / 10 - 1).

(** The part [QSPI_Open], [QSPI_SetBusClock] and [SPI_Open] share, which they write
    out each: [limit] is the largest divider they compute. *)
Definition program_divider (limit src sysclk bus : Z) : M spi_hw Z :=
  if (sysclk <=? bus) || (src <=? bus) then
    put_divider (fun _ => 0) ;; ret src
  else if bus =? 0 then
    put_divider (fun v => Z.lor v SPI_CLKDIV_DIVIDER_Msk) ;; ret (src / 256)
  else
    let u32Div := round_divider src bus in
    if limit <? u32Div then
      put_divider (fun v => Z.lor v SPI_CLKDIV_DIVIDER_Msk) ;; ret (src / 256)
    else
      put_divider (fun v => field_set v SPI_CLKDIV_DIVIDER_Msk u32Div) ;;
      ret (src / (u32Div + 1)).

Definition open_ctl (ms mode width : Z) : Z :=
  Z.lor (Z.lor (Z.lor ms (shl32 width SPI_CTL_DWIDTH_Pos)) mode) SPI_CTL_SPIEN_Msk.

Definition QSPI_Open (f : clk_rates) (qspi u32MasterSlave u32QSPIMode u32DataWidth u32BusClock : Z)
  : M spi_hw Z :=
  let u32DataWidth := if u32DataWidth =? 32 then 0 else u32DataWidth in
  if u32MasterSlave =? SPI_MASTER then
    write_SSCTL SPI_SS_ACTIVE_LOW ;;
    write_CTL (open_ctl u32MasterSlave u32QSPIMode u32DataWidth) ;;
    (if SYSCLK0 f <=? u32BusClock then QSPI_SetSrcClkToPCLK qspi else ret tt) ;;
    let! u32ClkSrcFreq := QSPI_GetSrcClkSetting f qspi in
    program_divider 0xFF u32ClkSrcFreq (SYSCLK0 f) u32BusClock
  else
    write_SSCTL SPI_SS_ACTIVE_LOW ;;
    write_CTL (open_ctl u32MasterSlave u32QSPIMode u32DataWidth) ;;
    put_divider (fun _ => 0) ;;
    QSPI_SetSrcClkToPCLK qspi ;;
    ret (SYSCLK1 f).

Definition QSPI_SetBusClock (f : clk_rates) (qspi u32BusClock : Z) : M spi_hw Z :=
  (if SYSCLK0 f <=? u32BusClock then QSPI_SetSrcClkToPCLK qspi else ret tt) ;;
  let! u32ClkSrcFreq := QSPI_GetSrcClkSetting f qspi in
  program_divider 0x1FF u32ClkSrcFreq (SYSCLK0 f) u32BusClock.

Definition QSPI_GetBusClock (f : clk_rates) (qspi : Z) : M spi_hw Z :=
  let! u32ClkSrcFreq := QSPI_GetSrcClkSetting f qspi in
  let! v := gets spi_CLKDIV in
  ret (u32ClkSrcFreq / (Z.land v SPI_CLKDIV_DIVIDER_Msk + 1)).

(** *** SPI *)

(** The position of the controller's source field; value 0 selects its PCLK, 1 the
    APLL. *)
Definition spi_sel_pos (spi : Z) : Z :=
  if spi =? SPI0_BASE then 0 else if spi =? SPI1_BASE then 2 else if spi =? SPI2_BASE then 4 else 6.

Definition SPI_SetSrcClkToPCLK (spi : Z) : M spi_hw unit :=
  modify (fun h => set_spi_CLKSEL4 (field_set (spi_CLKSEL4 h) (shl32 3 (spi_sel_pos spi)) 0) h).

Definition SPI_GetSrcClk (f : clk_rates) (spi : Z) : M spi_hw Z :=
  let! sel := gets spi_CLKSEL4 in
  let v := field_get sel 2 (spi_sel_pos spi) in
  ret (if v =? 1 then APLL f else if v =? 0 then SYSCLK1 f else 0).

Definition SPI_Open (f : clk_rates) (spi u32MasterSlave u32SPIMode u32DataWidth u32BusClock : Z)
  : M spi_hw Z :=
  modify (fun h => set_spi_I2SCTL (Z.land (spi_I2SCTL h) (not32 SPI_I2SCTL_I2SEN_Msk)) h) ;;
  let u32DataWidth := if u32DataWidth =? 32 then 0 else u32DataWidth in
  write_SSCTL SPI_SS_ACTIVE_LOW ;;
  write_CTL (open_ctl u32MasterSlave u32SPIMode u32DataWidth) ;;
  if u32MasterSlave =? SPI_MASTER then
    (if SYSCLK0 f <=? u32BusClock then SPI_SetSrcClkToPCLK spi else ret tt) ;;
    let! u32ClkSrc := SPI_GetSrcClk f spi in
    program_divider 0xFF u32ClkSrc (SYSCLK0 f) u32BusClock
  else
    put_divider (fun _ => 0) ;;
    SPI_SetSrcClkToPCLK spi ;;
    ret (SYSCLK1 f).

(** ** The divider *)

(** The divider is the nearest integer to the ratio, less one. *)
Lemma round_divider_nearest src bus :
  0 < bus < src -> src * 10 < 2 ^ 32 ->
  0 <= round_divider src bus /\ round_divider src bus + 1 <= src /\
  2 * Z.abs (src - (round_divider src bus + 1) * bus) <= bus.
Proof.
  intros Hb Hs. unfold round_divider. rewrite (u32_small (src * 10)) by (unfold is_u32; lia).
  set (q := src * 10 / bus).
  assert (Hq : bus * q <= src * 10 < bus * q + bus).
  { subst q. pose proof (Z.mul_div_le (src * 10) bus). pose proof (Z.mul_succ_div_gt (src * 10) bus). lia. }
  assert (10 <= q <= src * 10) by nia.
  rewrite (u32_small (q + 5)) by (unfold is_u32; lia).
  set (n := (q + 5) / 10).
  assert (Hn : 10 * n <= q + 5 < 10 * n + 10).
  { subst n. pose proof (Z.mul_div_le (q + 5) 10). pose proof (Z.mul_succ_div_gt (q + 5) 10). lia. }
  rewrite u32_small by (unfold is_u32; lia). split; [lia|]. split; [lia|].
  replace (n - 1 + 1) with n by lia. apply Z.abs_case; [solve_proper|nia..].
Qed.

Lemma lor_land_ones x n : 0 <= n -> Z.land (Z.lor x (Z.ones n)) (Z.ones n) = Z.ones n.
Proof.
  intros Hn. apply Z.bits_inj'; intros i Hi. autorewrite with bits.
  by destruct (i <? n), (Z.testbit x i).
Qed.


Lemma program_divider_returns limit src sysclk bus h :
  0 <= limit <= 0x1ff -> 0 < bus < src -> bus < sysclk -> src * 10 < 2 ^ 32 ->
  is_u32 (spi_CLKDIV h) ->
  exists v, program_divider limit src sysclk bus h =
      Ret (src / (if limit <? round_divider src bus then 256 else round_divider src bus + 1),
           set_spi_CLKDIV v h) /\
    Z.land v SPI_CLKDIV_DIVIDER_Msk =
      (if limit <? round_divider src bus then 511 else round_divider src bus).
Proof.
  intros Hl Hb Hs Ho Hv. unfold program_divider.
  destruct (Z.leb_spec sysclk bus); [lia|]. destruct (Z.leb_spec src bus); [lia|].
  destruct (Z.eqb_spec bus 0); [lia|]. cbn [orb].
  destruct (round_divider_nearest src bus Hb Ho) as (Hge & _ & _).
  destruct (Z.ltb_spec limit (round_divider src bus)).
  - eexists. split; [reflexivity|]. change SPI_CLKDIV_DIVIDER_Msk with (Z.ones 9).
    apply lor_land_ones; lia.
  - eexists. split; [reflexivity|].
    pose proof (field_get_set (spi_CLKDIV h) 9 0 (round_divider src bus)) as E.
    unfold field_get in E. rewrite Z.shiftr_0_r in E.
    rewrite (ltac:(unfold shl32; rewrite Z.shiftl_0_r; apply u32_small; unfold is_u32; lia)
      : shl32 (round_divider src bus) 0 = round_divider src bus) in E.
    apply E; lia.
Qed.

Definition src_freq (f : clk_rates) (qspi : Z) (h : spi_hw) : Z :=
  let sel := field_get (spi_CLKSEL4 h) 2 (if qspi =? QSPI0_BASE then 8 else 10) in
  match sel with 0 => SYSCLK1 f | 1 => APLL f | _ => 0 end.

Lemma src_freq_eq f qspi h :
  qspi = QSPI0_BASE \/ qspi = QSPI1_BASE -> QSPI_GetSrcClkSetting f qspi h = Ret (src_freq f qspi h, h).
Proof. by intros [-> | ->]. Qed.

(** The controller as [QSPI_Open] leaves it before the clock. *)
Definition opened (ctl : Z) (h : spi_hw) : spi_hw :=
  let h1 := set_wire (wire h ++ [WSel true]) (set_spi_SSCTL SPI_SS_ACTIVE_LOW h) in
  if word_width ctl =? word_width (spi_CTL h) then set_spi_CTL ctl h1
  else set_fifos [] [] (set_spi_CTL ctl h1).

Lemma opened_frame ctl h :
  spi_CLKDIV (opened ctl h) = spi_CLKDIV h /\ spi_CLKSEL4 (opened ctl h) = spi_CLKSEL4 h /\
  spi_CTL (opened ctl h) = ctl /\ wire (opened ctl h) = wire h ++ [WSel true].
Proof. unfold opened. destruct (word_width ctl =? word_width (spi_CTL h)); split_and!; reflexivity. Qed.

Lemma opened_eq {A} ctl (k : M spi_hw A) h :
  (write_SSCTL SPI_SS_ACTIVE_LOW ;; write_CTL ctl ;; k) h = k (opened ctl h).
Proof.
  unfold write_SSCTL, write_CTL, opened. rewrite !bind_modify.
  reflexivity.
Qed.

Lemma bus_clock_eq f qspi v h :
  qspi = QSPI0_BASE \/ qspi = QSPI1_BASE ->
  QSPI_GetBusClock f qspi (set_spi_CLKDIV v h) =
    Ret (src_freq f qspi h / (Z.land v SPI_CLKDIV_DIVIDER_Msk + 1), set_spi_CLKDIV v h).
Proof.
  intros Hq. unfold QSPI_GetBusClock.
  by rewrite (bind_Ret _ _ _ _ _ (src_freq_eq f qspi (set_spi_CLKDIV v h) Hq)).
Qed.

(** [QSPI_SetSrcClkToPCLK] leaves the selector at 2, for which the source frequency
    is 0. *)
Lemma to_pclk_eq f qspi h :
  qspi = QSPI0_BASE \/ qspi = QSPI1_BASE ->
  exists s, QSPI_SetSrcClkToPCLK qspi h = Ret (tt, set_spi_CLKSEL4 s h) /\
    src_freq f qspi (set_spi_CLKSEL4 s h) = 0.
Proof.
  intros Hq. set (pos := if qspi =? QSPI0_BASE then 8 else 10).
  exists (field_set (spi_CLKSEL4 h) (shl32 3 pos) (shl32 2 pos)).
  split; [unfold pos; by destruct Hq as [-> | ->]|]. unfold src_freq. fold pos. cbn [spi_CLKSEL4 set_spi_CLKSEL4].
  rewrite (field_get_set _ 2 pos 2); [done|lia|unfold pos; destruct (_ =? _); lia..|lia].
Qed.

(** The divider and the frequency reported for a clock below the source and SYSCLK0. *)
Lemma divider_cases f qspi bus h :
  qspi = QSPI0_BASE \/ qspi = QSPI1_BASE -> 0 <= bus < SYSCLK0 f -> is_u32 (spi_CLKDIV h) ->
  bus < src_freq f qspi h -> src_freq f qspi h * 10 < 2 ^ 32 ->
  let src := src_freq f qspi h in
  exists n v, (bus = 0 \/ (1 <= n <= src /\ 2 * Z.abs (src - n * bus) <= bus)) /\
    program_divider 0xFF src (SYSCLK0 f) bus h =
      Ret (src / (if (bus =? 0) || (256 <? n) then 256 else n), set_spi_CLKDIV v h) /\
    Z.land v SPI_CLKDIV_DIVIDER_Msk + 1 = (if (bus =? 0) || (256 <? n) then 512 else n).
Proof.
  intros Hq Hb Hv Hs Ho src. destruct (Z.eqb_spec bus 0) as [E|E].
  - exists 1, (Z.lor (spi_CLKDIV h) SPI_CLKDIV_DIVIDER_Msk). split; [by left|]. unfold program_divider.
    destruct (Z.leb_spec (SYSCLK0 f) bus); [lia|]. destruct (Z.leb_spec src bus); [lia|].
    rewrite E. split; [done|]. change SPI_CLKDIV_DIVIDER_Msk with (Z.ones 9). by rewrite lor_land_ones.
  - destruct (program_divider_returns 0xFF src (SYSCLK0 f) bus h) as (v & Ep & Ev); [lia..|done|done|].
    destruct (round_divider_nearest src bus) as (H1 & H2 & H3); [lia|done|].
    exists (round_divider src bus + 1), v. split; [right; lia|]. cbn [orb].
    rewrite Ep, Ev. by destruct (Z.ltb_spec 0xFF (round_divider src bus)),
      (Z.ltb_spec 256 (round_divider src bus + 1)); try lia.
Qed.

(** C21: the clock of [QSPI_Open] in master mode.  A bus clock below the source and
    SYSCLK0 gets the divider nearest to their ratio; if that divider is at most 256
    the frequency returned is the one the bus then has, as [QSPI_GetBusClock] gives
    it; if it is larger, or no clock was asked for, the register gets 511 but the
    value returned is that of divider 256.  A bus clock of SYSCLK0 or more moves the
    clock selector to a value neither function knows: the frequency reported is 0. *)
Theorem qspi_open_clock f qspi mode width bus h :
  qspi = QSPI0_BASE \/ qspi = QSPI1_BASE ->
  is_u32 (spi_CLKDIV h) -> 0 <= bus ->
  0 < SYSCLK0 f -> src_freq f qspi h * 10 < 2 ^ 32 ->
  let src := src_freq f qspi h in
  exists rate h', QSPI_Open f qspi SPI_MASTER mode width bus h = Ret (rate, h') /\
    spi_CTL h' = open_ctl SPI_MASTER mode (if width =? 32 then 0 else width) /\
    wire h' = wire h ++ [WSel true] /\
    if SYSCLK0 f <=? bus then
      rate = 0 /\ QSPI_GetBusClock f qspi h' = Ret (0, h')
    else if src <=? bus then
      rate = src /\ QSPI_GetBusClock f qspi h' = Ret (src, h')
    else exists n, (bus = 0 \/ (1 <= n <= src /\ 2 * Z.abs (src - n * bus) <= bus)) /\
      if (bus =? 0) || (256 <? n) then
        rate = src / 256 /\ QSPI_GetBusClock f qspi h' = Ret (src / 512, h')
      else rate = src / n /\ QSPI_GetBusClock f qspi h' = Ret (src / n, h').
Proof.
  intros Hq Hd Hb0 Hsys Ho src. unfold QSPI_Open. rewrite Z.eqb_refl, opened_eq.
  set (ctl := open_ctl _ _ _). destruct (opened_frame ctl h) as (Ed & Es & Ec & Ew).
  assert (Hsrc : src_freq f qspi (opened ctl h) = src) by (unfold src, src_freq; by rewrite Es).
  destruct (Z.leb_spec (SYSCLK0 f) bus).
  - destruct (to_pclk_eq f qspi (opened ctl h) Hq) as (sel & E & Hz).
    rewrite (bind_Ret _ _ _ _ _ E), (bind_Ret _ _ _ _ _ (src_freq_eq f qspi _ Hq)), Hz.
    unfold program_divider. destruct (Z.leb_spec (SYSCLK0 f) bus); [|lia].
    eexists _, _. split; [reflexivity|]. do 2 (split; [done|]). split; [done|].
    by rewrite bus_clock_eq, Hz.
  - rewrite bind_ret_l, (bind_Ret _ _ _ _ _ (src_freq_eq f qspi _ Hq)), Hsrc.
    destruct (Z.leb_spec src bus).
    + unfold program_divider. destruct (Z.leb_spec (SYSCLK0 f) bus); [lia|].
      destruct (Z.leb_spec src bus); [|lia].
      eexists _, _. split; [reflexivity|]. do 2 (split; [done|]). split; [done|].
      rewrite bus_clock_eq, Hsrc by done. by rewrite Z.div_1_r.
    + destruct (divider_cases f qspi bus (opened ctl h)) as (n & v & Hn & E & Ev);
        [done|lia|by rewrite Ed|by rewrite Hsrc|by rewrite Hsrc|].
      rewrite Hsrc in Hn, E. eexists _, _. split; [exact E|]. do 2 (split; [done|]).
      exists n. split; [done|]. rewrite bus_clock_eq, Hsrc, Ev by done.
      by destruct ((bus =? 0) || (256 <? n)).
Qed.

Definition board_rates : clk_rates := mkRates 180000000 180000000 200000000.

(** 48 MHz are asked for and 45 MHz had; 100 kHz are asked for, the function returns
    703125 Hz and the bus runs at 351562 Hz. *)
Lemma qspi_open_clock_witness :
  (exists rate h', QSPI_Open board_rates
     QSPI0_BASE SPI_MASTER SPI_MODE_0 8 48000000 spi_reset = Ret (rate, h') /\ rate = 45000000) /\
  (exists h', QSPI_Open board_rates
     QSPI0_BASE SPI_MASTER SPI_MODE_0 8 100000 spi_reset = Ret (703125, h') /\
     QSPI_GetBusClock board_rates QSPI0_BASE h' = Ret (351562, h')).
Proof.
  split; [eexists _, _; split; [vm_compute; reflexivity|reflexivity]|].
  destruct (qspi_open_clock board_rates QSPI0_BASE
    SPI_MODE_0 8 100000 spi_reset) as (rate & h' & E & _ & _ & _);
    [by left|unfold is_u32; cbn; lia|lia|cbn; lia|vm_compute; reflexivity|].
  exists h'. revert E. vm_compute. intros E. injection E as <- <-. split; reflexivity.
Defined.
