(* ===== verification/Spi.v ===== *)
(** * The SPI bus driver

    Models [libraries/ma35/rtt_port/drv_spi.c] and [drv_spi.h]: the polled transfer and
    its FIFO accesses, the PDMA transfer and its callbacks, the choice between the
    two, [nu_spi_bus_xfer], [nu_spi_bus_configure] and the allocation of the channels.
    A buffer is its address and its bytes; a function that fills a receive buffer
    returns the bytes it stored, in order.  A transfer by PDMA runs on the driver of
    [Pdma]; its callbacks that are this file's own act on the controller when the PDMA
    function that made the call returns (that driver does not touch the controller). *)

From Stdlib Require Import ZArith Lia Bool.
From stdpp Require Import base tactics numbers list option gmap.
From S2P Require Import Prelude BitUtil PdmaRegs Pdma SpiHw SpiOpen.

Open Scope Z_scope.

(** ** Data *)

Definition RT_SPI_CPHA : Z := bit 0.
Definition RT_SPI_CPOL : Z := bit 1.
Definition RT_SPI_MSB : Z := bit 2.
Definition RT_SPI_SLAVE : Z := bit 3.
Definition RT_SPI_CS_HIGH : Z := bit 4.
Definition RT_SPI_NO_CS : Z := bit 5.
Definition RT_SPI_MODE_0 : Z := 0.
Definition RT_SPI_MODE_1 : Z := RT_SPI_CPHA.
Definition RT_SPI_MODE_2 : Z := RT_SPI_CPOL.
Definition RT_SPI_MODE_3 : Z := Z.lor RT_SPI_CPOL RT_SPI_CPHA.

Definition NU_SPI_USE_PDMA_MIN_THRESHOLD : Z := 128.
Definition NU_PDMA_UNUSED : Z := -1.

Record rt_spi_configuration : Type := mkSpiCfg {
  mode : Z;
  data_width : Z;
  reserved : Z;
  max_hz : Z
}.

#[export] Instance spi_cfg_eq_dec : EqDecision rt_spi_configuration.
Proof. solve_decision. Defined.

(** A buffer; NULL is [None] where a buffer is expected. *)
Record buf : Type := mkBuf { buf_addr : Z; buf_bytes : list Z }.

Definition addr_of (b : option buf) : Z := match b with Some b => buf_addr b | None => 0 end.

(** [recv_buf] is the address only. *)
Record rt_spi_message : Type := mkMsg {
  send_buf : option buf;
  recv_buf : option Z;
  length_ : Z;
  cs_take : bool;
  cs_release : bool
}.

(** [dummy] is the address and the value of [dummy[0]]. *)
Record nu_spi : Type := mkNuSpi {
  spi_base : Z;
  dummy : Z * Z;
  pdma_perp_tx : Z;
  pdma_chanid_tx : Z;
  pdma_perp_rx : Z;
  pdma_chanid_rx : Z;
  m_psSemBus : option Z;
  configuration : rt_spi_configuration
}.

Definition set_dummy (v : Z) (b : nu_spi) : nu_spi :=
  mkNuSpi (spi_base b) (fst (dummy b), v) (pdma_perp_tx b) (pdma_chanid_tx b) (pdma_perp_rx b)
    (pdma_chanid_rx b) (m_psSemBus b) (configuration b).
Definition set_pdma_chanid_tx (v : Z) (b : nu_spi) : nu_spi :=
  mkNuSpi (spi_base b) (dummy b) (pdma_perp_tx b) v (pdma_perp_rx b) (pdma_chanid_rx b)
    (m_psSemBus b) (configuration b).
Definition set_pdma_chanid_rx (v : Z) (b : nu_spi) : nu_spi :=
  mkNuSpi (spi_base b) (dummy b) (pdma_perp_tx b) (pdma_chanid_tx b) (pdma_perp_rx b) v
    (m_psSemBus b) (configuration b).
Definition set_m_psSemBus (v : option Z) (b : nu_spi) : nu_spi :=
  mkNuSpi (spi_base b) (dummy b) (pdma_perp_tx b) (pdma_chanid_tx b) (pdma_perp_rx b)
    (pdma_chanid_rx b) v (configuration b).
Definition set_configuration (v : rt_spi_configuration) (b : nu_spi) : nu_spi :=
  mkNuSpi (spi_base b) (dummy b) (pdma_perp_tx b) (pdma_chanid_tx b) (pdma_perp_rx b)
    (pdma_chanid_rx b) (m_psSemBus b) v.

(** The bus, its controller and the PDMA driver. *)
Record spi_st : Type := mkSpiSt {
  sbus : nu_spi;
  shw : spi_hw;
  sdma : drv
}.

Definition set_sbus (v : nu_spi) (s : spi_st) : spi_st := mkSpiSt v (shw s) (sdma s).
Definition set_shw (v : spi_hw) (s : spi_st) : spi_st := mkSpiSt (sbus s) v (sdma s).
Definition set_sdma (v : drv) (s : spi_st) : spi_st := mkSpiSt (sbus s) (shw s) v.

(** The addresses of the callbacks and of the bus structure, the stack word the
    callback structure starts with, and the frequency of a PLL. *)
Class SpiEnv : Type := {
  rx_cb_event_addr : Z;
  rx_cb_disable_addr : Z;
  tx_cb_trigger_addr : Z;
  spi_bus_addr : Z;
  stack_word : Z;
  CLK_GetPLLClockFreq : Z -> Z
}.

(** What happens while a thread waits for the PDMA: a step of the surroundings, how
    many are followed, whether the kernel has memory for a semaphore, and the bytes
    the receive channel has stored from an address on. *)
Class SpiDma : Type := {
  dma_step : M spi_st unit;
  dma_fuel : nat;
  sem_create_ok : spi_st -> bool;
  dma_stored : spi_st -> Z -> Z -> list Z
}.

(** ** The controller's FIFOs *)

(** The [switch]es of [nu_spi_write] and [nu_spi_read]; [None]: the bytes are not
    there. *)
Definition load_word (bytes_per_word : Z) (b : list Z) : option Z :=
  match bytes_per_word with
  | 4 => nu_get32_le b
  | 3 => nu_get24_le b
  | 2 => nu_get16_le b
  | _ => head b
  end.
Definition store_word (bytes_per_word val : Z) : list Z :=
  match bytes_per_word with
  | 4 => nu_set32_le val
  | 3 => nu_set24_le val
  | 2 => nu_set16_le val
  | _ => [u8 val]
  end.
Definition word_size_ok (bytes_per_word : Z) : bool :=
  (1 <=? bytes_per_word) && (bytes_per_word <=? 4).

Section fifo.
Context `{SH : SpiHw}.

Fixpoint wait_busy (fuel : nat) : M spi_hw unit :=
  match fuel with
  | O => out_of_fuel
  | S fuel => let! b := SPI_IS_BUSY in if b then wait_busy fuel else ret tt
  end.

Fixpoint clear_rx (fuel : nat) : M spi_hw unit :=
  match fuel with
  | O => out_of_fuel
  | S fuel =>
      let! e := SPI_GET_RX_FIFO_EMPTY_FLAG in
      if e then ret tt else SPI_ClearRxFIFO ;; clear_rx fuel
  end.

Definition nu_spi_drain_rxfifo : M spi_hw unit := wait_busy poll_fuel ;; clear_rx poll_fuel.

(** The size reported and the bytes stored; the [default:] reports the size and
    stores nothing. *)
Definition nu_spi_read (bytes_per_word : Z) : M spi_hw (Z * list Z) :=
  let! e := SPI_GET_RX_FIFO_EMPTY_FLAG in
  if e then ret (0, []) else
  if word_size_ok bytes_per_word then
    let! val := SPI_READ_RX in ret (bytes_per_word, store_word bytes_per_word val)
  else ret (bytes_per_word, []).

Fixpoint wait_tx_room (fuel : nat) : M spi_hw unit :=
  match fuel with
  | O => out_of_fuel
  | S fuel => let! f := SPI_GET_TX_FIFO_FULL_FLAG in if f then wait_tx_room fuel else ret tt
  end.

Definition nu_spi_write (send_addr : list Z) (bytes_per_word : Z) : M spi_hw Z :=
  wait_tx_room poll_fuel ;;
  (if word_size_ok bytes_per_word then
     let! w := deref (load_word bytes_per_word send_addr) in SPI_WRITE_TX w
   else ret tt) ;;
  ret bytes_per_word.

(** The three [while (length > 0)] loops; a pass takes at least a byte off when the
    word size is one the code supports.  [next n b] is where the send pointer stands
    after a word: the read-only loop sends the dummy word again and again. *)
Fixpoint write_loop (fuel : nat) (send : list Z) (length bytes_per_word : Z) : M spi_hw unit :=
  if length <=? 0 then ret tt else
  match fuel with
  | O => out_of_fuel
  | S fuel =>
      let! n := nu_spi_write send bytes_per_word in
      write_loop fuel (drop (Z.to_nat n) send) (length - bytes_per_word) bytes_per_word
  end.

Fixpoint exchange_loop (fuel : nat) (next : nat -> list Z -> list Z) (send : list Z)
    (length bytes_per_word : Z) (recv : list Z) : M spi_hw (list Z) :=
  if length <=? 0 then ret recv else
  match fuel with
  | O => out_of_fuel
  | S fuel =>
      let! n := nu_spi_write send bytes_per_word in
      let! '(_, bs) := nu_spi_read bytes_per_word in
      exchange_loop fuel next (next (Z.to_nat n) send) (length - n) bytes_per_word (recv ++ bs)
  end.

Fixpoint read_all (fuel : nat) (bytes_per_word : Z) (recv : list Z) : M spi_hw (list Z) :=
  match fuel with
  | O => out_of_fuel
  | S fuel =>
      let! e := SPI_GET_RX_FIFO_EMPTY_FLAG in
      if e then ret recv else
      let! '(_, bs) := nu_spi_read bytes_per_word in
      read_all fuel bytes_per_word (recv ++ bs)
  end.

Fixpoint read_busy (fuel : nat) (bytes_per_word : Z) (recv : list Z) : M spi_hw (list Z) :=
  match fuel with
  | O => out_of_fuel
  | S fuel =>
      let! b := SPI_IS_BUSY in
      if b then
        let! recv := read_all poll_fuel bytes_per_word recv in
        read_busy fuel bytes_per_word recv
      else ret recv
  end.

(** The wait for the last words: [if (recv_addr) ... else ...]. *)
Definition read_tail (bytes_per_word : Z) (recv : list Z) : M spi_hw (list Z) :=
  let! recv := read_busy poll_fuel bytes_per_word recv in
  read_all poll_fuel bytes_per_word recv.

(** [nu_spi_transmission_with_poll] on the controller; [dummy_bytes] are those of the
    dummy word, already cleared.  With both pointers NULL the third branch reads
    through NULL. *)
Definition poll_transfer (dummy_bytes : list Z) (send : option (list Z)) (recv : bool)
    (length bytes_per_word : Z) : M spi_hw (list Z) :=
  let fuel := Z.to_nat length in
  let! got :=
    match send, recv with
    | Some b, false => write_loop fuel b length bytes_per_word ;; ret []
    | None, true => exchange_loop fuel (fun _ b => b) dummy_bytes length bytes_per_word []
    | Some b, true => exchange_loop fuel drop b length bytes_per_word []
    | None, false => exchange_loop fuel drop [] length bytes_per_word []
    end in
  if recv then read_tail bytes_per_word got else nu_spi_drain_rxfifo ;; ret [].
End fifo.

(** ** The driver *)

Section driver.
Context `{HW : PdmaHw} `{RH : RtHeap} `{CBS : Callbacks} `{SH : SpiHw} `{SE : SpiEnv} `{SD : SpiDma}.

Definition on_shw {A} (m : M spi_hw A) : M spi_st A := fun s =>
  match m (shw s) with
  | Ret (a, h) => Ret (a, set_shw h s)
  | AssertFail => AssertFail
  | Undef => Undef
  | OutOfFuel => OutOfFuel
  end.
Definition upd_bus (f : nu_spi -> nu_spi) : M spi_st unit := modify (fun s => set_sbus (f (sbus s)) s).

(** *** Callbacks *)

Definition nu_pdma_spi_rx_cb_event (pvUserData : Z) : M spi_st unit :=
  rt_assert (negb (pvUserData =? 0)) ;;
  let! sem := gets (fun s => m_psSemBus (sbus s)) in
  match sem with
  | None => fail_assert
  | Some n => rt_assert (n <? 65535) ;; upd_bus (set_m_psSemBus (Some (n + 1)))
  end.
Definition nu_pdma_spi_tx_cb_trigger : M spi_st unit := on_shw SPI_TRIGGER_TX_RX_PDMA.
Definition nu_pdma_spi_rx_cb_disable : M spi_st unit := on_shw SPI_DISABLE_TX_RX_PDMA.

(** A call the PDMA driver made, when it is to one of these. *)
Definition run_callback (call : Z * Z * Z) : M spi_st unit :=
  let '(h, user, _) := call in
  if h =? rx_cb_event_addr then nu_pdma_spi_rx_cb_event user
  else if h =? tx_cb_trigger_addr then nu_pdma_spi_tx_cb_trigger
  else if h =? rx_cb_disable_addr then nu_pdma_spi_rx_cb_disable
  else ret tt.

Definition on_dma {A} (m : M drv A) : M spi_st A := fun s =>
  match m (sdma s) with
  | Ret (a, d) =>
      let new := rev (take (length (cb_log d) - length (cb_log (sdma s))) (cb_log d)) in
      (for_each new run_callback ;; ret a) (set_sdma d s)
  | AssertFail => AssertFail
  | Undef => Undef
  | OutOfFuel => OutOfFuel
  end.

(** *** Transfers by PDMA *)

Definition SPI_TX_ADDR (base : Z) : Z := base + 0x20.
Definition SPI_RX_ADDR (base : Z) : Z := base + 0x30.

Definition nu_pdma_spi_rx_config (pu8Buf : option Z) (i32RcvLen bytes_per_word : Z) : M spi_st Z :=
  let! b := gets sbus in
  let spi_pdma_rx_chid := u8 (pdma_chanid_rx b) in
  let! _r := on_dma (nu_pdma_filtering_set spi_pdma_rx_chid NU_PDMA_EVENT_TRANSFER_DONE) in
  let! result := on_dma (nu_pdma_callback_register spi_pdma_rx_chid
    (Some (mkCB eCBType_Event rx_cb_event_addr spi_bus_addr stack_word))) in
  if negb (result =? RT_EOK) then ret result else
  let! result := on_dma (nu_pdma_callback_register spi_pdma_rx_chid
    (Some (mkCB eCBType_Disable rx_cb_disable_addr (spi_base b) stack_word))) in
  if negb (result =? RT_EOK) then ret result else
  let '(memctrl, dst_addr) :=
    match pu8Buf with
    | None => (eMemCtl_SrcFix_DstFix, fst (dummy b))
    | Some a => (eMemCtl_SrcFix_DstInc, a)
    end in
  let! result := on_dma (nu_pdma_channel_memctrl_set spi_pdma_rx_chid memctrl) in
  if negb (result =? RT_EOK) then ret result else
  on_dma (nu_pdma_transfer spi_pdma_rx_chid (bytes_per_word * 8) (SPI_RX_ADDR (spi_base b)) dst_addr
    (i32RcvLen / bytes_per_word) 0).

Definition nu_pdma_spi_tx_config (pu8Buf : option Z) (i32SndLen bytes_per_word : Z) : M spi_st Z :=
  let! b := gets sbus in
  let spi_pdma_tx_chid := u8 (pdma_chanid_tx b) in
  (match pu8Buf with None => upd_bus (set_dummy 0) | Some _ => ret tt end) ;;
  let '(memctrl, src_addr) :=
    match pu8Buf with
    | None => (eMemCtl_SrcFix_DstFix, fst (dummy b))
    | Some a => (eMemCtl_SrcInc_DstFix, a)
    end in
  let! result := on_dma (nu_pdma_callback_register spi_pdma_tx_chid
    (Some (mkCB eCBType_Trigger tx_cb_trigger_addr (spi_base b) stack_word))) in
  if negb (result =? RT_EOK) then ret result else
  let! result := on_dma (nu_pdma_channel_memctrl_set spi_pdma_tx_chid memctrl) in
  if negb (result =? RT_EOK) then ret result else
  on_dma (nu_pdma_transfer spi_pdma_tx_chid (bytes_per_word * 8) src_addr (SPI_TX_ADDR (spi_base b))
    (i32SndLen / bytes_per_word) 0).

(** [rt_sem_take(spi_bus->m_psSemBus, RT_WAITING_FOREVER)] *)
Fixpoint bus_sem_take (fuel : nat) : M spi_st unit :=
  match fuel with
  | O => out_of_fuel
  | S fuel =>
      let! sem := gets (fun s => m_psSemBus (sbus s)) in
      match sem with
      | None => fail_assert
      | Some n => if 0 <? n then upd_bus (set_m_psSemBus (Some (n - 1)))
                  else dma_step ;; bus_sem_take fuel
      end
  end.

(** The bytes found in the receive buffer at the end; the length is returned as
    well. *)
Definition nu_spi_pdma_transmit (send_addr recv_addr : option Z) (length bytes_per_word : Z)
  : M spi_st (Z * list Z) :=
  let! result := nu_pdma_spi_rx_config recv_addr length bytes_per_word in
  rt_assert (result =? RT_EOK) ;;
  let! result := nu_pdma_spi_tx_config send_addr length bytes_per_word in
  rt_assert (result =? RT_EOK) ;;
  bus_sem_take dma_fuel ;;
  let! s := get in
  ret (length, match recv_addr with Some a => dma_stored s a length | None => [] end).

Definition nu_hw_spi_pdma_allocate : M spi_st Z :=
  let! b := gets sbus in
  let! tx := on_dma (nu_pdma_channel_allocate (pdma_perp_tx b)) in
  upd_bus (set_pdma_chanid_tx tx) ;;
  if tx <? 0 then ret (- RT_ERROR) else
  let! rx := on_dma (nu_pdma_channel_allocate (pdma_perp_rx b)) in
  upd_bus (set_pdma_chanid_rx rx) ;;
  if rx <? 0 then
    let! _r := on_dma (nu_pdma_channel_free tx) in
    ret (- RT_ERROR)
  else
    let! ok := gets sem_create_ok in
    rt_assert ok ;;
    upd_bus (set_m_psSemBus (Some 0)) ;;
    ret RT_EOK.

(** *** Transfers *)

Definition nu_spi_transmission_with_poll (send : option buf) (recv : option Z)
    (length bytes_per_word : Z) : M spi_st (list Z) :=
  (match send, recv with None, Some _ => upd_bus (set_dummy 0) | _, _ => ret tt end) ;;
  let! b := gets sbus in
  on_shw (poll_transfer (nu_set32_le (snd (dummy b))) (buf_bytes <$> send) (bool_decide (is_Some recv))
            length bytes_per_word).

(** A remainder by 0 is undefined. *)
Definition rem_ok (x m : Z) : M spi_st Z := if m =? 0 then undefined else ret (x mod m).

Definition use_pdma (tx : option buf) (rx : option Z) (length bytes_per_word : Z) : M spi_st bool :=
  let! s := get in
  if negb (0 <=? pdma_chanid_rx (sbus s)) then ret false else
  let! rt := rem_ok (u32 (addr_of tx)) bytes_per_word in
  if negb (rt =? 0) then ret false else
  let! rr := rem_ok (u32 (default 0 rx)) bytes_per_word in
  if negb (rr =? 0) then ret false else
  ret (negb (bytes_per_word =? 3) &&
       (tst (spi_CTL (shw s)) SPI_CTL_SLAVE_Msk || (NU_SPI_USE_PDMA_MIN_THRESHOLD <=? length))).

Definition nu_spi_transfer (tx : option buf) (rx : option Z) (length bytes_per_word : Z)
  : M spi_st (list Z) :=
  let! dma := use_pdma tx rx length bytes_per_word in
  if dma then
    let! '(_, got) := nu_spi_pdma_transmit (buf_addr <$> tx) rx length bytes_per_word in ret got
  else
    let! s := get in
    rt_assert (negb (tst (spi_CTL (shw s)) SPI_CTL_SLAVE_Msk)) ;;
    nu_spi_transmission_with_poll tx rx length bytes_per_word.

(** The select pin of the device, which is a port pin if the device names one. *)
Definition select_pin (user_data : option Z) (high : bool) : M spi_st unit :=
  match user_data with
  | Some pin => on_shw (modify (fun h => set_wire (wire h ++ [WPin pin high]) h))
  | None => on_shw (if high then SPI_SET_SS_HIGH else SPI_SET_SS_LOW)
  end.

Definition nu_spi_bus_xfer (user_data : option Z) (message : rt_spi_message)
  : M spi_st (Z * list Z) :=
  let! b := gets sbus in
  let cfg := configuration b in
  let bytes_per_word := u8 (data_width cfg / 8) in
  let! r := rem_ok (length_ message) bytes_per_word in
  if negb (r =? 0) then ret (0, []) else
  if 0 <? length_ message then
    (if cs_take message && negb (tst (mode cfg) RT_SPI_NO_CS)
     then select_pin user_data (tst (mode cfg) RT_SPI_CS_HIGH) else ret tt) ;;
    let! got := nu_spi_transfer (send_buf message) (recv_buf message) (length_ message) bytes_per_word in
    (if cs_release message && negb (tst (mode cfg) RT_SPI_NO_CS)
     then select_pin user_data (negb (tst (mode cfg) RT_SPI_CS_HIGH)) else ret tt) ;;
    ret (length_ message, got)
  else ret (length_ message, []).

(** *** Configuration *)

(** nu_clk.c: SYSCLK0 is half the EPLL or [SYSPLLFREQCLK]. *)
Definition EPLL : Z := 4.
Definition PLL_APLL : Z := 3.
Definition CLK_GetSYSCLK0Freq : M drv Z :=
  let! c := gets CLKSEL0 in
  ret (if Z.land c 0x4 =? 0 then CLK_GetPLLClockFreq EPLL / 2 else 180000000).

Definition clocks : M spi_st clk_rates :=
  let! f0 := on_dma CLK_GetSYSCLK0Freq in
  let! f1 := on_dma CLK_GetSYSCLK1Freq in
  ret (mkRates f0 f1 (CLK_GetPLLClockFreq PLL_APLL)).

(** The two [switch]es and checks the configuration functions start with: the
    controller's mode, or the error. *)
Definition spi_mode_of (configuration : rt_spi_configuration) : Z :=
  match Z.land (mode configuration) RT_SPI_MODE_3 with
  | 0 => SPI_MODE_0
  | 1 => SPI_MODE_1
  | 2 => SPI_MODE_2
  | _ => SPI_MODE_3
  end.
Definition width_supported (w : Z) : bool :=
  (w =? 8) || (w =? 16) || (w =? 24) || (w =? 32).

Definition nu_spi_bus_configure (user_data : option Z) (cfg : rt_spi_configuration) : M spi_st Z :=
  if negb (width_supported (data_width cfg)) then ret (- RT_EINVAL) else
  let! b := gets sbus in
  (if decide (cfg = configuration b) then ret tt else
     upd_bus (set_configuration cfg) ;;
     let! f := clocks in
     let! _rate := on_shw (SPI_Open f (spi_base b)
       (if tst (mode cfg) RT_SPI_SLAVE then SPI_SLAVE else SPI_MASTER) (spi_mode_of cfg)
       (data_width cfg) (max_hz cfg)) in
     on_shw SPI_DisableAutoSS ;;
     select_pin user_data (negb (tst (mode cfg) RT_SPI_CS_HIGH)) ;;
     on_shw (if tst (mode cfg) RT_SPI_MSB then SPI_SET_MSB_FIRST else SPI_SET_LSB_FIRST)) ;;
  on_shw nu_spi_drain_rxfifo ;;
  ret (- RT_EOK).
End driver.
