(* ===== verification/SpiPoll.v ===== *)
(** * The polled transfer

    What [nu_spi_transmission_with_poll] puts on the wire and stores, for every pace
    of the controller: the loops terminate, the words go out in order, and the words
    received are stored in order - all of them as long as the receive FIFO cannot
    overflow, which the code does not see to ([poll_read_loses_words]). *)

From Stdlib Require Import ZArith Lia Bool.
From stdpp Require Import base tactics numbers list option.
From S2P Require Import Prelude BitUtil SpiHw Spi.

Open Scope Z_scope.

(** The words a buffer holds, as [nu_spi_write] reads them. *)
Fixpoint words_at (bytes_per_word : Z) (n : nat) (b : list Z) : option (list Z) :=
  match n with
  | O => Some []
  | S n =>
      match load_word bytes_per_word b, words_at bytes_per_word n (drop (Z.to_nat bytes_per_word) b) with
      | Some w, Some ws => Some (w :: ws)
      | _, _ => None
      end
  end.

Section poll.
Context `{SH : SpiHw} `{HS : !SpiHwSpec}.

(** The wire and the answers once [ws] have been sent, in the mode and width of [h]. *)
Definition low (h : spi_hw) (w : Z) : Z := Z.land w (Z.ones (word_width (spi_CTL h))).
Definition send (h : spi_hw) (ws : list Z) (wr : list wire_ev) : list wire_ev * list Z :=
  clock (mode_of (spi_CTL h)) (word_width (spi_CTL h)) (map (low h) ws) wr.

Lemma send_regs h h' ws wr : spi_regs h' = spi_regs h -> send h' ws wr = send h ws wr.
Proof. intros [= E _ _ _ _]. unfold send, low. by rewrite E. Qed.

(** ** Steps of the engine *)

(** Time passes: nothing the software wrote changes, nor what will be on the wire. *)
Record flows (h h' : spi_hw) : Prop := {
  flows_regs : spi_regs h' = spi_regs h;
  flows_wire : final_wire h' = final_wire h;
  flows_TXQ : (length (TXQ h') <= length (TXQ h))%nat;
  flows_drains : forall k, drains_in k h -> drains_in k h'
}.

Lemma flows_refl h : flows h h.
Proof. by split. Qed.

Lemma flows_trans h1 h2 h3 : flows h1 h2 -> flows h2 h3 -> flows h1 h3.
Proof. intros [R1 W1 T1 D1] [R2 W2 T2 D2]. split; [congruence|congruence|lia|auto]. Qed.

Lemma drains_mono j k h : (j <= k)%nat -> drains_in j h -> drains_in k h.
Proof. unfold drains_in. intros Hjk H. pose proof (shifted_mono (polls h) j k Hjk). lia. Qed.

Lemma flows_poll h : flows h (poll h).
Proof.
  split; [apply poll_regs|apply poll_wire|apply poll_TXQ_le|].
  intros k H. apply drains_in_poll. by apply (drains_mono k); [lia|].
Qed.

(** Time passes and [rs] are read, in order, none lost. *)
Record reads (h h' : spi_hw) (rs : list Z) : Prop := {
  reads_flows : flows h h';
  reads_rx : final_rx h = rs ++ final_rx h';
  reads_out : outstanding h = (length rs + outstanding h')%nat
}.

Lemma reads_trans h1 h2 h3 rs1 rs2 : reads h1 h2 rs1 -> reads h2 h3 rs2 -> reads h1 h3 (rs1 ++ rs2).
Proof.
  intros [F1 R1 O1] [F2 R2 O2]. split; [by eapply flows_trans| |].
  - by rewrite R1, R2, <-app_assoc.
  - rewrite length_app. lia.
Qed.

Lemma reads_poll h : (outstanding h <= rx_depth)%nat -> reads h (poll h) [].
Proof.
  intros Ho. destruct (poll_rx h Ho) as [E1 E2]. split; [apply flows_poll|done|by rewrite E2].
Qed.

Lemma reads_pop h r q : RXQ h = r :: q -> reads h (set_fifos (TXQ h) q h) [r].
Proof.
  intros E. split; [by split| |].
  - unfold final_rx. by rewrite E.
  - unfold outstanding. rewrite E. cbn. lia.
Qed.

Lemma read_rx_eq h r q : RXQ h = r :: q -> SPI_READ_RX h = Ret (r, set_fifos (TXQ h) q h).
Proof. intros E. unfold SPI_READ_RX. rewrite bind_get, (bind_deref _ r), bind_modify by (by rewrite E). unfold ret. by rewrite E. Qed.

Lemma reads_room h h' rs : reads h h' rs -> (outstanding h <= rx_depth)%nat -> (outstanding h' <= rx_depth)%nat.
Proof. intros [_ _ E] H. lia. Qed.

Lemma poll_RXQ h : RXQ h <> [] -> RXQ (poll h) <> [].
Proof.
  intros Hr. change (RXQ (poll h)) with (RXQ (shifts (pace (polls h)) h)). revert h Hr.
  enough (forall n h, RXQ h <> [] -> RXQ (shifts n h) <> []) by auto.
  induction n as [|n IH]; intros h Hr; [done|]. cbn. apply IH. unfold shift1.
  destruct (TXQ h); [done|]. cbn [RXQ set_wire set_fifos].
  destruct (length (RXQ h) <? rx_depth)%nat; [|done]. by destruct (RXQ h).
Qed.

(** ** The loops *)

Lemma wait_busy_returns k fuel h :
  drains_in k h -> (k < fuel)%nat ->
  exists h', wait_busy fuel h = Ret (tt, h') /\ flows h h' /\ TXQ h' = [].
Proof.
  revert fuel h. induction k as [|k IH]; intros [|fuel] h Hd Hf; [lia| |lia|].
  - cbn [wait_busy]. unfold SPI_IS_BUSY. rewrite !bind_assoc, (bind_Ret _ _ _ _ _ (status_read_eq h)), bind_gets.
    pose proof (drains_in_0 (poll h) (flows_drains _ _ (flows_poll h) _ Hd)) as E. rewrite E.
    exists (poll h). split; [done|]. by split; [apply flows_poll|].
  - cbn [wait_busy]. unfold SPI_IS_BUSY. rewrite !bind_assoc, (bind_Ret _ _ _ _ _ (status_read_eq h)), bind_gets.
    destruct (Nat.eqb_spec (length (TXQ (poll h))) 0) as [E|E]; cbn [negb].
    + exists (poll h). split; [done|]. split; [apply flows_poll|by apply length_zero_iff_nil].
    + destruct (IH fuel (poll h)) as (h' & E' & F & T); [by apply drains_in_poll|lia|].
      exists h'. split; [done|]. split; [|done]. eapply flows_trans; [apply flows_poll|done].
Qed.

Lemma wait_tx_room_returns k fuel h :
  drains_in k h -> (k < fuel)%nat -> 
  exists h', wait_tx_room fuel h = Ret (tt, h') /\ flows h h' /\ (length (TXQ h') < tx_depth)%nat /\
    ((outstanding h <= rx_depth)%nat -> reads h h' []).
Proof.
  pose proof tx_depth_pos as Hpos.
  revert fuel h. induction k as [|k IH]; intros [|fuel] h Hd Hf; [lia| |lia|].
  - cbn [wait_tx_room]. unfold SPI_GET_TX_FIFO_FULL_FLAG.
    rewrite !bind_assoc, (bind_Ret _ _ _ _ _ (status_read_eq h)), bind_gets.
    pose proof (drains_in_0 (poll h) (flows_drains _ _ (flows_poll h) _ Hd)) as E. rewrite E.
    destruct (Nat.leb_spec tx_depth (length (@nil Z))) as [H|H]; [cbn in H; lia|].
    exists (poll h). split; [done|]. split; [apply flows_poll|]. split; [by rewrite E|apply reads_poll].
  - cbn [wait_tx_room]. unfold SPI_GET_TX_FIFO_FULL_FLAG.
    rewrite !bind_assoc, (bind_Ret _ _ _ _ _ (status_read_eq h)), bind_gets.
    destruct (Nat.leb_spec tx_depth (length (TXQ (poll h)))) as [E|E].
    + destruct (IH fuel (poll h)) as (h' & E' & F & T & R); [by apply drains_in_poll|lia|].
      exists h'. split; [done|]. split; [eapply flows_trans; [apply flows_poll|done]|].
      split; [done|]. intros Ho. pose proof (reads_poll h Ho) as Rp.
      apply (reads_trans _ _ _ [] []  Rp). apply R. by apply (reads_room _ _ _ Rp).
    + exists (poll h). split; [done|]. split; [apply flows_poll|]. split; [done|apply reads_poll].
Qed.

(** A word goes to the end of the transmit FIFO. *)
Lemma write_tx_final h w :
  (length (TXQ h) < tx_depth)%nat ->
  exists h', SPI_WRITE_TX w h = Ret (tt, h') /\ spi_regs h' = spi_regs h /\
    length (TXQ h') = S (length (TXQ h)) /\
    final_wire h' = fst (send h [w] (final_wire h)) /\
    final_rx h' = final_rx h ++ snd (send h [w] (final_wire h)) /\
    outstanding h' = S (outstanding h).
Proof.
  intros Hl. unfold SPI_WRITE_TX. eexists. split; [reflexivity|].
  destruct (Nat.ltb_spec (length (TXQ h)) tx_depth); [|lia].
  split; [done|]. split; [cbn; rewrite length_app; cbn; lia|].
  unfold final_wire, final_rx, engine, send, outstanding. cbn [TXQ RXQ set_fifos spi_CTL wire map].
  rewrite clock_app, length_app. cbn [fst snd length]. split; [done|]. split; [by rewrite app_assoc|lia].
Qed.

Lemma write_returns h b bpw w :
  (length (TXQ h) <= tx_depth)%nat -> word_size_ok bpw = true -> load_word bpw b = Some w ->
  exists h', nu_spi_write b bpw h = Ret (bpw, h') /\ spi_regs h' = spi_regs h /\
    (length (TXQ h') <= tx_depth)%nat /\
    final_wire h' = fst (send h [w] (final_wire h)) /\
    ((outstanding h <= rx_depth)%nat ->
       final_rx h' = final_rx h ++ snd (send h [w] (final_wire h)) /\ outstanding h' = S (outstanding h)).
Proof.
  intros Hl Hw E. destruct (drains_in_fuel h Hl) as (k & Hf & Hd).
  destruct (wait_tx_room_returns k poll_fuel h Hd ltac:(lia)) as (h1 & E1 & [R1 W1 _ _] & T1 & Rd1).
  destruct (write_tx_final h1 w T1) as (h2 & E2 & R2 & T2 & W2 & X2 & O2).
  rewrite W1, (send_regs _ _ _ _ R1) in W2, X2.
  exists h2. unfold nu_spi_write. rewrite (bind_Ret _ _ _ _ _ E1), Hw, bind_assoc.
  rewrite (bind_deref _ w) by done. rewrite (bind_Ret _ _ _ _ _ E2). split; [done|]. split; [congruence|]. split; [lia|].
  split; [done|]. intros Ho. destruct (Rd1 Ho) as [_ X O]. cbn in X, O. rewrite X2, O2, X. split; [done|lia].
Qed.

Lemma send_cons h w ws wr :
  fst (send h (w :: ws) wr) = fst (send h ws (fst (send h [w] wr))) /\
  snd (send h (w :: ws) wr) = snd (send h [w] wr) ++ snd (send h ws (fst (send h [w] wr))).
Proof. done. Qed.

Lemma write_loop_returns bpw n : forall fuel b h ws,
  word_size_ok bpw = true -> words_at bpw n b = Some ws -> (n <= fuel)%nat ->
  (length (TXQ h) <= tx_depth)%nat ->
  exists h', write_loop fuel b (Z.of_nat n * bpw) bpw h = Ret (tt, h') /\ spi_regs h' = spi_regs h /\
    (length (TXQ h') <= tx_depth)%nat /\ final_wire h' = fst (send h ws (final_wire h)).
Proof.
  induction n as [|n IH]; intros fuel b h ws Hw Hws Hf Hl.
  - injection Hws as <-. exists h. by destruct fuel.
  - assert (1 <= bpw <= 4) by (unfold word_size_ok in Hw; lia).
    cbn in Hws. destruct (load_word bpw b) as [w|] eqn:Ew; [|done].
    destruct (words_at bpw n _) as [ws'|] eqn:Ews; [|done]. injection Hws as <-.
    destruct fuel as [|fuel]; [lia|]. cbn [write_loop]. destruct (Z.leb_spec (Z.of_nat (S n) * bpw) 0); [lia|].
    destruct (write_returns h b bpw w Hl Hw Ew) as (h1 & E1 & R1 & T1 & W1 & _).
    rewrite (bind_Ret _ _ _ _ _ E1). replace (Z.of_nat (S n) * bpw - bpw) with (Z.of_nat n * bpw) by lia.
    destruct (IH fuel _ h1 ws' Hw Ews ltac:(lia) T1) as (h2 & E2 & R2 & T2 & W2).
    exists h2. split; [done|]. split; [congruence|]. split; [done|].
    by rewrite W2, W1, (send_regs _ _ _ _ R1).
Qed.

(** ** Reading *)

Definition stored (bpw : Z) (rs : list Z) : list Z := concat (map (store_word bpw) rs).

Lemma stored_app bpw rs1 rs2 : stored bpw (rs1 ++ rs2) = stored bpw rs1 ++ stored bpw rs2.
Proof. unfold stored. by rewrite map_app, concat_app. Qed.

Lemma read_returns h bpw :
  (outstanding h <= rx_depth)%nat -> word_size_ok bpw = true ->
  exists n rs h', nu_spi_read bpw h = Ret ((n, stored bpw rs), h') /\ reads h h' rs /\
    (if decide (RXQ (poll h) = []) then rs = [] /\ RXQ h' = [] else length rs = 1%nat).
Proof.
  intros Ho Hw. pose proof (reads_poll h Ho) as Rp. unfold nu_spi_read, SPI_GET_RX_FIFO_EMPTY_FLAG.
  rewrite !bind_assoc, (bind_Ret _ _ _ _ _ (status_read_eq h)), bind_gets.
  destruct (RXQ (poll h)) as [|r q] eqn:E.
  - exists 0, [], (poll h). by rewrite E.
  - rewrite Hw. cbn [length Nat.eqb]. rewrite (bind_Ret _ _ _ _ _ (read_rx_eq (poll h) r q E)).
    exists bpw, [r], (set_fifos (TXQ (poll h)) q (poll h)).
    split; [unfold stored; cbn [map concat]; by rewrite app_nil_r|].
    split; [apply (reads_trans _ _ _ [] [r] Rp); by apply reads_pop|done].
Qed.

Lemma read_all_returns bpw fuel h recv :
  (outstanding h <= rx_depth)%nat -> (outstanding h < fuel)%nat -> word_size_ok bpw = true ->
  exists rs h', read_all fuel bpw recv h = Ret (recv ++ stored bpw rs, h') /\ reads h h' rs /\ RXQ h' = [].
Proof.
  revert h recv. induction fuel as [|fuel IH]; intros h recv Ho Hf Hw; [lia|].
  pose proof (reads_poll h Ho) as Rp. cbn [read_all]. unfold SPI_GET_RX_FIFO_EMPTY_FLAG at 1.
  rewrite !bind_assoc, (bind_Ret _ _ _ _ _ (status_read_eq h)), bind_gets.
  destruct (Nat.eqb_spec (length (RXQ (poll h))) 0) as [E|E].
  - exists [], (poll h). cbn. rewrite app_nil_r. split; [done|]. split; [done|by apply length_zero_iff_nil].
  - pose proof (reads_room _ _ _ Rp Ho) as Ho1.
    destruct (read_returns (poll h) bpw Ho1 Hw) as (n & rs & h1 & E1 & R1 & Hrs).
    rewrite (bind_Ret _ _ _ _ _ E1).
    assert (length rs = 1%nat) as Hrs1.
    { destruct (decide _) as [Hn|]; [|done]. exfalso.
      apply (poll_RXQ (poll h)); [|done]. intros E0. apply E. by rewrite E0. }
    pose proof (reads_trans _ _ _ _ _ Rp R1) as R01. cbn [app] in R01.
    destruct (IH h1 (recv ++ stored bpw rs)) as (rs2 & h2 & E2 & R2 & Q2);
      [by apply (reads_room _ _ _ R01)|destruct R01 as [_ _ O]; lia|done|].
    exists (rs ++ rs2), h2. split; [by rewrite E2, stored_app, app_assoc|].
    split; [by eapply reads_trans|done].
Qed.

Lemma read_busy_returns bpw k fuel h recv :
  (outstanding h <= rx_depth)%nat -> drains_in k h -> (k < fuel)%nat -> word_size_ok bpw = true ->
  exists rs h', read_busy fuel bpw recv h = Ret (recv ++ stored bpw rs, h') /\ reads h h' rs /\ TXQ h' = [].
Proof.
  revert k h recv. induction fuel as [|fuel IH]; intros k h recv Ho Hd Hf Hw; [lia|].
  pose proof (reads_poll h Ho) as Rp. cbn [read_busy]. unfold SPI_IS_BUSY.
  rewrite !bind_assoc, (bind_Ret _ _ _ _ _ (status_read_eq h)), bind_gets.
  destruct (Nat.eqb_spec (length (TXQ (poll h))) 0) as [E|E]; cbn [negb].
  { exists [], (poll h). cbn. rewrite app_nil_r. split; [done|]. split; [done|by apply length_zero_iff_nil]. }
  pose proof (reads_room _ _ _ Rp Ho) as Ho1.
  destruct pace_progress as (b & Hb & _).
  destruct (read_all_returns bpw poll_fuel (poll h) recv Ho1 ltac:(lia) Hw) as (rs & h1 & E1 & R1 & _).
  rewrite (bind_Ret _ _ _ _ _ E1). pose proof (reads_trans _ _ _ _ _ Rp R1) as R01. cbn [app] in R01.
  destruct k as [|k].
  { exfalso. apply E. apply length_zero_iff_nil. apply drains_in_0. by apply (flows_drains _ _ (flows_poll h)). }
  destruct (IH k h1 (recv ++ stored bpw rs)) as (rs2 & h2 & E2 & R2 & T2);
    [by apply (reads_room _ _ _ R01)|apply (flows_drains _ _ (reads_flows _ _ _ R1)); by apply drains_in_poll
    |lia|done|].
  exists (rs ++ rs2), h2. split; [by rewrite E2, stored_app, app_assoc|]. split; [by eapply reads_trans|done].
Qed.

Lemma idle_final h : quiet h -> final_wire h = wire h /\ final_rx h = [].
Proof. intros [T R]. unfold final_wire, final_rx, engine. by rewrite T, R. Qed.

(** The end of a receiving transfer collects everything that is still to come. *)
Lemma read_tail_returns bpw h recv :
  (length (TXQ h) <= tx_depth)%nat -> (outstanding h <= rx_depth)%nat -> word_size_ok bpw = true ->
  exists h', read_tail bpw recv h = Ret (recv ++ stored bpw (final_rx h), h') /\ quiet h' /\
    spi_regs h' = spi_regs h /\ wire h' = final_wire h.
Proof.
  intros Hl Ho Hw. destruct (drains_in_fuel h Hl) as (k & Hf & Hd).
  destruct (read_busy_returns bpw k poll_fuel h recv Ho Hd ltac:(lia) Hw) as (rs1 & h1 & E1 & R1 & T1).
  pose proof (reads_room _ _ _ R1 Ho) as Ho1.
  destruct (read_all_returns bpw poll_fuel h1 (recv ++ stored bpw rs1) Ho1 ltac:(lia) Hw)
    as (rs2 & h2 & E2 & R2 & Q2).
  pose proof (reads_trans _ _ _ _ _ R1 R2) as R12.
  assert (TXQ h2 = []) as T2.
  { apply length_zero_iff_nil. pose proof (flows_TXQ _ _ (reads_flows _ _ _ R2)) as H. rewrite T1 in H. cbn in H. lia. }
  destruct (idle_final h2 (conj T2 Q2)) as [W2 X2].
  exists h2. unfold read_tail. rewrite (bind_Ret _ _ _ _ _ E1), E2.
  destruct R12 as [[Rg Wf _ _] X _]. rewrite X, X2, app_nil_r, stored_app, app_assoc.
  split; [done|]. split; [done|]. split; [done|congruence].
Qed.

(** The end of a sending transfer throws what was received away. *)
Lemma drain_returns h :
  (length (TXQ h) <= tx_depth)%nat ->
  exists h', nu_spi_drain_rxfifo h = Ret (tt, h') /\ quiet h' /\ spi_regs h' = spi_regs h /\
    wire h' = final_wire h.
Proof.
  intros Hl. destruct (drains_in_fuel h Hl) as (k & Hf & Hd).
  destruct (wait_busy_returns k poll_fuel h Hd ltac:(lia)) as (h1 & E1 & [R1 W1 _ _] & T1).
  unfold nu_spi_drain_rxfifo. rewrite (bind_Ret _ _ _ _ _ E1).
  destruct poll_fuel as [|[|fuel]]; [lia..|].
  cbn [clear_rx]. unfold SPI_GET_RX_FIFO_EMPTY_FLAG.
  rewrite !bind_assoc, (bind_Ret _ _ _ _ _ (status_read_eq h1)), bind_gets, (poll_idle h1 T1).
  assert (Hw : wire h1 = final_wire h) by (rewrite <-W1; unfold final_wire, engine; by rewrite T1).
  destruct (Nat.eqb_spec (length (RXQ (set_polls (S (polls h1)) h1))) 0) as [E|E].
  - eexists. split; [reflexivity|]. split; [split; [done|by apply length_zero_iff_nil]|]. by split.
  - unfold SPI_ClearRxFIFO. rewrite bind_modify.
    rewrite !bind_assoc, (bind_Ret _ _ _ _ _ (status_read_eq _)), bind_gets, poll_idle by done.
    eexists. split; [reflexivity|]. by split_and!.
Qed.

(** Whether [n] words can come without filling the receive FIFO. *)
Definition lossless (n : nat) : Prop := (n <= rx_depth \/ tx_depth < rx_depth)%nat.

(** With [n] words still to send. *)
Definition room (n : nat) (h : spi_hw) : Prop :=
  (outstanding h + n <= rx_depth \/ outstanding h <= tx_depth /\ tx_depth < rx_depth)%nat.

Lemma exchange_loop_returns bpw next n : forall fuel b h ws recv,
  word_size_ok bpw = true ->
  (forall m, (m < n)%nat -> exists w, nth_error ws m = Some w /\
     load_word bpw (Nat.iter m (next (Z.to_nat bpw)) b) = Some w) ->
  length ws = n -> (n <= fuel)%nat -> (length (TXQ h) <= tx_depth)%nat -> room n h ->
  exists rs h', exchange_loop fuel next b (Z.of_nat n * bpw) bpw recv h = Ret (recv ++ stored bpw rs, h') /\
    spi_regs h' = spi_regs h /\ (length (TXQ h') <= tx_depth)%nat /\ (outstanding h' <= rx_depth)%nat /\
    final_wire h' = fst (send h ws (final_wire h)) /\
    rs ++ final_rx h' = final_rx h ++ snd (send h ws (final_wire h)).
Proof.
  induction n as [|n IH]; intros fuel b h ws recv Hw Hb Hlen Hf Hl Hr.
  - destruct ws; [|done]. exists [], h. cbn [stored map concat]. rewrite !app_nil_r.
    assert (outstanding h <= rx_depth)%nat by (destruct Hr; lia). by destruct fuel.
  - assert (1 <= bpw <= 4) by (unfold word_size_ok in Hw; lia).
    destruct ws as [|w ws]; [done|]. destruct (Hb O ltac:(lia)) as (w' & [= <-] & Ew). cbn in Ew.
    destruct fuel as [|fuel]; [lia|]. cbn [exchange_loop].
    destruct (Z.leb_spec (Z.of_nat (S n) * bpw) 0); [lia|].
    assert (Ho : (outstanding h <= rx_depth)%nat) by (destruct Hr; lia).
    destruct (write_returns h b bpw w Hl Hw Ew) as (h1 & E1 & R1 & T1 & W1 & X1).
    destruct (X1 Ho) as [Xr Xo]. rewrite (bind_Ret _ _ _ _ _ E1).
    assert (Ho1 : (outstanding h1 <= rx_depth)%nat) by (destruct Hr; lia).
    destruct (read_returns h1 bpw Ho1 Hw) as (m & rs & h2 & E2 & [[Rg2 Wf2 T2 _] X2 O2] & Hrs).
    rewrite (bind_Ret _ _ _ _ _ E2). cbn match.
    replace (Z.of_nat (S n) * bpw - bpw) with (Z.of_nat n * bpw) by lia.
    destruct (IH fuel (next (Z.to_nat bpw) b) h2 ws (recv ++ stored bpw rs)) as
      (rs2 & h3 & E3 & R3 & T3 & O3 & W3 & X3); [done| |by injection Hlen|lia|lia| |].
    + intros i Hi. destruct (Hb (S i) ltac:(lia)) as (w2 & Hn & Hld). exists w2. split; [done|].
      by rewrite Nat.iter_succ_r in Hld.
    + unfold room. destruct (decide _) as [Hd|Hd]; [|destruct Hr; lia].
      destruct Hrs as [-> Hq]. cbn [length] in O2.
      assert (outstanding h2 = length (TXQ h2)) by (unfold outstanding; rewrite Hq; cbn [length]; lia).
      destruct Hr; lia.
    + exists (rs ++ rs2), h3. rewrite E3, stored_app, app_assoc. split; [done|]. split; [congruence|].
      split; [done|]. split; [done|]. destruct (send_cons h w ws (final_wire h)) as [-> ->].
      rewrite W3, Wf2, W1, (send_regs h h2) by congruence. split; [done|].
      rewrite <-app_assoc, X3, app_assoc, <-X2, Xr, <-!app_assoc. by rewrite Wf2, W1, (send_regs h h2) by congruence.
Qed.
End poll.
