(* ===== verification/SpiXfer.v ===== *)
(** * Transfers on an SPI bus

    The properties of [nu_spi_transfer] without PDMA, for sending and for receiving,
    the overflow the receiving loop allows, and the allocation of a bus's PDMA
    channels. *)

From Stdlib Require Import ZArith Lia Bool.
From stdpp Require Import base tactics numbers list option gmap.
From S2P Require Import Prelude BitUtil PdmaRegs Pdma PdmaFacts PdmaAlloc SpiHw SpiOpen Spi SpiPoll.

Open Scope Z_scope.

Section xfer.
Context `{HW : PdmaHw} `{RH : RtHeap} `{CBS : Callbacks} `{SH : SpiHw} `{HS : !SpiHwSpec}
  `{SE : SpiEnv} `{SD : SpiDma}.

Lemma on_shw_eq {A} (m : M spi_hw A) s a h :
  m (shw s) = Ret (a, h) -> on_shw m s = Ret (a, set_shw h s).
Proof. intros E. unfold on_shw. by rewrite E. Qed.

(** A master bus that does not use the PDMA for this length. *)
Definition polled (s : spi_st) (length : Z) : Prop :=
  tst (spi_CTL (shw s)) SPI_CTL_SLAVE_Msk = false /\
  (pdma_chanid_rx (sbus s) < 0 \/ length < NU_SPI_USE_PDMA_MIN_THRESHOLD).

Lemma use_pdma_polled s tx rx length bpw :
  polled s length -> word_size_ok bpw = true -> use_pdma tx rx length bpw s = Ret (false, s).
Proof.
  intros [Hs Hp] Hw. unfold use_pdma. rewrite bind_get. unfold rem_ok.
  assert (1 <= bpw <= 4) by (unfold word_size_ok in Hw; lia).
  destruct (Z.leb_spec 0 (pdma_chanid_rx (sbus s))); cbn [negb]; [|done].
  destruct (Z.eqb_spec bpw 0); [lia|]. rewrite bind_ret_l.
  destruct (Z.eqb_spec (u32 (addr_of tx) mod bpw) 0); cbn [negb]; [|done]. rewrite bind_ret_l.
  destruct (Z.eqb_spec (u32 (default 0 rx) mod bpw) 0); cbn [negb]; [|done].
  rewrite Hs. destruct (Z.leb_spec NU_SPI_USE_PDMA_MIN_THRESHOLD length); [lia|].
  unfold ret. by rewrite andb_false_r.
Qed.

Lemma transfer_polled s tx rx length bpw :
  polled s length -> word_size_ok bpw = true ->
  nu_spi_transfer tx rx length bpw s = nu_spi_transmission_with_poll tx rx length bpw s.
Proof.
  intros Hp Hw. unfold nu_spi_transfer.
  rewrite (bind_Ret _ _ _ _ _ (use_pdma_polled s tx rx length bpw Hp Hw)), bind_get.
  destruct Hp as [-> _]. by rewrite bind_assert.
Qed.

(** The state after a polled transfer: the controller is quiet, its registers are as
    they were, and the wire has carried [wr]. *)
Definition sent (s : spi_st) (wr : list wire_ev) (s' : spi_st) : Prop :=
  exists h', s' = set_shw h' s /\ quiet h' /\ spi_regs h' = spi_regs (shw s) /\ wire h' = wr.

Lemma transfer_sends_lemma s b n bpw ws :
  polled s (Z.of_nat n * bpw) -> word_size_ok bpw = true -> quiet (shw s) ->
  words_at bpw n (buf_bytes b) = Some ws ->
  exists s', nu_spi_transfer (Some b) None (Z.of_nat n * bpw) bpw s = Ret ([], s') /\
    sent s (fst (send (shw s) ws (wire (shw s)))) s'.
Proof.
  intros Hp Hw Hq Hws. rewrite transfer_polled by done. unfold nu_spi_transmission_with_poll.
  rewrite bind_ret_l, bind_gets. unfold poll_transfer. cbn [fmap option_fmap option_map].
  assert (1 <= bpw <= 4) by (unfold word_size_ok in Hw; lia). destruct Hq as [HT HR].
  destruct (write_loop_returns bpw n (Z.to_nat (Z.of_nat n * bpw)) (buf_bytes b) (shw s) ws Hw Hws)
    as (h1 & E1 & R1 & T1 & W1); [nia|rewrite HT; cbn; lia|].
  destruct (drain_returns h1 T1) as (h2 & E2 & Q2 & R2 & W2).
  exists (set_shw h2 s). split; [|exists h2; split_and!; [done|done|congruence|]].
  - apply on_shw_eq. change (bool_decide (is_Some (@None Z))) with false. cbn match.
    rewrite bind_assoc, (bind_Ret _ _ _ _ _ E1), bind_ret_l. by rewrite (bind_Ret _ _ _ _ _ E2).
  - rewrite W2, W1. by destruct (idle_final (shw s) (conj HT HR)) as [-> _].
Qed.

(** The words of an exchange: those of the buffer, or zeroes. *)
Definition out_words (tx : option buf) (n : nat) (bpw : Z) : option (list Z) :=
  match tx with Some b => words_at bpw n (buf_bytes b) | None => Some (replicate n 0) end.

Lemma words_at_nth bpw n : forall b ws, words_at bpw n b = Some ws ->
  length ws = n /\ forall m, (m < n)%nat -> exists w, nth_error ws m = Some w /\
    load_word bpw (Nat.iter m (drop (Z.to_nat bpw)) b) = Some w.
Proof.
  induction n as [|n IH]; intros b ws E; cbn in E; [injection E as <-; split; [done|lia]|].
  destruct (load_word bpw b) as [w|] eqn:Ew; [|done].
  destruct (words_at bpw n (drop (Z.to_nat bpw) b)) as [ws'|] eqn:Es; [|done]. injection E as <-.
  destruct (IH _ _ Es) as [Hl Hn]. split; [cbn; by rewrite Hl|].
  intros [|m] Hm; [by exists w|]. destruct (Hn m ltac:(lia)) as (v & Hv & Hld). exists v. split; [done|].
  by rewrite Nat.iter_succ_r.
Qed.

Lemma iter_same {A} m (x : A) : Nat.iter m (fun b => b) x = x.
Proof. induction m as [|m IH]; [done|exact IH]. Qed.

Lemma dummy_word bpw : word_size_ok bpw = true -> load_word bpw (nu_set32_le 0) = Some 0.
Proof.
  intros Hw. assert (bpw = 1 \/ bpw = 2 \/ bpw = 3 \/ bpw = 4) as [-> | [-> | [-> | ->]]]; [|done..].
  unfold word_size_ok in Hw. lia.
Qed.

Lemma nth_replicate (n m : nat) (x : Z) : (m < n)%nat -> nth_error (replicate n x) m = Some x.
Proof. revert n. induction m as [|m IH]; intros [|n] H; [lia|done|lia|]. cbn. apply IH. lia. Qed.

Lemma exchange_returns s tx a n bpw ws :
  polled s (Z.of_nat n * bpw) -> word_size_ok bpw = true -> quiet (shw s) -> lossless n ->
  out_words tx n bpw = Some ws ->
  exists s0 s', nu_spi_transfer tx (Some a) (Z.of_nat n * bpw) bpw s =
      Ret (stored bpw (snd (send (shw s) ws (wire (shw s)))), s') /\
    sent s0 (fst (send (shw s) ws (wire (shw s)))) s' /\
    s0 = match tx with Some _ => s | None => set_sbus (set_dummy 0 (sbus s)) s end.
Proof.
  intros Hp Hw Hq Hl Hws. rewrite transfer_polled by done. unfold nu_spi_transmission_with_poll.
  assert (1 <= bpw <= 4) by (unfold word_size_ok in Hw; lia).
  set (s0 := match tx with Some _ => s | None => set_sbus (set_dummy 0 (sbus s)) s end).
  assert (E0 : (match tx with None => upd_bus (set_dummy 0) | Some _ => ret tt end) s = Ret (tt, s0))
    by (by destruct tx).
  assert (Es : shw s0 = shw s) by (unfold s0; by destruct tx).
  destruct (idle_final (shw s) Hq) as [Hfw Hfr]. destruct Hq as [HT HR].
  set (next := match tx with Some _ => drop | None => fun _ b => b end : nat -> list Z -> list Z).
  set (b := match tx with Some b => buf_bytes b | None => nu_set32_le 0 end).
  assert (Hwords : length ws = n /\ forall m, (m < n)%nat -> exists w, nth_error ws m = Some w /\
     load_word bpw (Nat.iter m (next (Z.to_nat bpw)) b) = Some w).
  { destruct tx as [t|]; [by apply words_at_nth|]. injection Hws as <-. split; [apply length_replicate|].
    intros m Hm. exists 0. split; [by apply nth_replicate|]. unfold next. rewrite iter_same. by apply dummy_word. }
  destruct Hwords as [Hlen Hnth].
  destruct (exchange_loop_returns bpw next n (Z.to_nat (Z.of_nat n * bpw)) b (shw s) ws [] Hw Hnth Hlen)
    as (rs & h1 & E1 & R1 & T1 & O1 & W1 & X1);
    [nia|rewrite HT; cbn; lia|unfold room, outstanding; rewrite HT, HR; cbn; destruct Hl; lia|].
  destruct (read_tail_returns bpw h1 (stored bpw rs) T1 O1 Hw) as (h2 & E2 & Q2 & R2 & W2).
  rewrite Hfw, Hfr in *. cbn [app] in X1, E1. exists s0, (set_shw h2 s0). split; [|split; [|done]].
  - destruct tx as [t|]; rewrite (bind_Ret _ _ _ _ _ E0), bind_gets; apply on_shw_eq;
      unfold poll_transfer; cbn [fmap option_fmap option_map];
      change (bool_decide (is_Some (Some a))) with true; cbn match;
      rewrite Es, (bind_Ret _ _ _ _ _ E1), E2, <-stored_app, X1; done.
  - exists h2. split; [done|]. split; [done|]. split; [by destruct tx; cbn; congruence|congruence].
Qed.
(** ** The select pin *)

Definition cs_wire (user_data : option Z) (high : bool) : wire_ev :=
  match user_data with Some pin => WPin pin high | None => WSel high end.

(** What a message's select flag puts on the wire. *)
Definition cs_events (cfg : rt_spi_configuration) (flag : bool) (user_data : option Z) (high : bool)
  : list wire_ev :=
  if flag && negb (tst (mode cfg) RT_SPI_NO_CS) then [cs_wire user_data high] else [].

Lemma ss_high_level v :
  pin_level (Z.lor (Z.land v (not32 SPI_SSCTL_AUTOSS_Msk)) (Z.lor SPI_SSCTL_SSACTPOL_Msk SPI_SSCTL_SS_Msk)) = true.
Proof.
  unfold pin_level, SPI_SSCTL_SS_Msk, SPI_SSCTL_SSACTPOL_Msk. rewrite !tst_bit by lia.
  rewrite !Z.lor_spec, !testbit_bit by lia. by rewrite !orb_true_r.
Qed.

Lemma ss_low_level v :
  pin_level (Z.lor (Z.land v (not32 (Z.lor SPI_SSCTL_AUTOSS_Msk SPI_SSCTL_SSACTPOL_Msk))) SPI_SSCTL_SS_Msk)
  = false.
Proof.
  unfold pin_level, SPI_SSCTL_SS_Msk, SPI_SSCTL_SSACTPOL_Msk, SPI_SSCTL_AUTOSS_Msk. rewrite !tst_bit by lia.
  rewrite !Z.lor_spec, !Z.land_spec, !testbit_not32, !Z.lor_spec, !testbit_bit by lia.
  cbn. by rewrite !andb_false_r, !orb_true_r.
Qed.

Lemma select_pin_eq user_data high s :
  exists h', select_pin user_data high s = Ret (tt, set_shw h' s) /\
    wire h' = wire (shw s) ++ [cs_wire user_data high] /\ spi_CTL h' = spi_CTL (shw s) /\
    TXQ h' = TXQ (shw s) /\ RXQ h' = RXQ (shw s).
Proof.
  destruct user_data as [pin|]; [by eexists|].
  destruct high; (eexists; split; [reflexivity|]); cbn; split_and!; try done; repeat f_equal.
  - apply ss_high_level.
  - apply ss_low_level.
Qed.

Lemma cs_step cfg flag user_data high s :
  exists h', (if flag && negb (tst (mode cfg) RT_SPI_NO_CS) then select_pin user_data high else ret tt) s
      = Ret (tt, set_shw h' s) /\
    wire h' = wire (shw s) ++ cs_events cfg flag user_data high /\ spi_CTL h' = spi_CTL (shw s) /\
    TXQ h' = TXQ (shw s) /\ RXQ h' = RXQ (shw s).
Proof.
  unfold cs_events. destruct (flag && _); [apply select_pin_eq|].
  exists (shw s). rewrite app_nil_r. by destruct s.
Qed.

Lemma send_ctl h h' ws wr : spi_CTL h' = spi_CTL h -> send h' ws wr = send h ws wr.
Proof. intros E. unfold send, low. by rewrite E. Qed.

(** The words a transfer sends: the bytes the message gives, or zeroes. *)
Lemma xfer_words tx rx n bpw ws s :
  polled s (Z.of_nat n * bpw) -> word_size_ok bpw = true -> quiet (shw s) ->
  is_Some tx \/ is_Some rx -> (is_Some rx -> lossless n) -> out_words tx n bpw = Some ws ->
  exists s0 s', nu_spi_transfer tx rx (Z.of_nat n * bpw) bpw s =
      Ret (match rx with Some _ => stored bpw (snd (send (shw s) ws (wire (shw s)))) | None => [] end, s') /\
    sent s0 (fst (send (shw s) ws (wire (shw s)))) s' /\ shw s0 = shw s /\ sdma s0 = sdma s /\
    set_dummy 0 (sbus s0) = set_dummy 0 (sbus s).
Proof.
  intros Hp Hw Hq Hne Hl Hws. destruct rx as [a|].
  - destruct (exchange_returns s tx a n bpw ws Hp Hw Hq (Hl ltac:(by eexists)) Hws) as (s0 & s' & E & S & ->).
    eexists _, s'. split; [done|]. split; [done|]. by destruct tx.
  - destruct tx as [b|]; [|by destruct Hne as [[]|[]]].
    destruct (transfer_sends_lemma s b n bpw ws Hp Hw Hq Hws) as (s' & E & S). by exists s, s'.
Qed.

(** C22: a message on an SPI bus, without PDMA.  At any configured width of 8 bits or more
    ([bpw] bytes to a word) a length that is not a whole number of words, and length 0, are
    answered 0 and nothing happens; at a width below 8 bits the check itself divides by 0.
    When words have one to four bytes - the widths [nu_spi_bus_configure] lets pass are
    those - a whole number of them is answered with the length, whatever the pace of the
    controller; the wire has carried the select pin going active (when the message takes it
    and the bus has one), the words of the send buffer in order - or zeroes - and the pin
    going inactive (when the message releases it); the controller is quiet again; and the
    receive buffer, if there is one, holds the device's answers in order, under the
    condition that the receive FIFO cannot overflow ([lossless]: it is deeper than the
    transmit FIFO, or has room for all the words), without which answers can be lost. *)
Theorem bus_xfer_wire s user m bpw :
  bpw = u8 (data_width (configuration (sbus s)) / 8) -> 0 <= length_ m ->
  (bpw = 0 -> nu_spi_bus_xfer user m s = Undef) /\
  (bpw <> 0 -> length_ m mod bpw <> 0 \/ length_ m = 0 -> nu_spi_bus_xfer user m s = Ret ((0, []), s)) /\
  (forall n ws,
    word_size_ok bpw = true -> polled s (length_ m) -> quiet (shw s) -> is_Some (send_buf m) \/ is_Some (recv_buf m) ->
    (is_Some (recv_buf m) -> lossless n) -> out_words (send_buf m) n bpw = Some ws ->
    Z.of_nat n * bpw = length_ m -> 0 < length_ m ->
    exists s', let cfg := configuration (sbus s) in
      let active := tst (mode cfg) RT_SPI_CS_HIGH in
      let p := send (shw s) ws (wire (shw s) ++ cs_events cfg (cs_take m) user active) in
      nu_spi_bus_xfer user m s =
        Ret ((length_ m, match recv_buf m with Some _ => stored bpw (snd p) | None => [] end), s') /\
      wire (shw s') = fst p ++ cs_events cfg (cs_release m) user (negb active) /\
      quiet (shw s') /\ spi_CTL (shw s') = spi_CTL (shw s) /\ sdma s' = sdma s).
Proof.
  intros Hbpw H0. unfold nu_spi_bus_xfer. rewrite bind_gets, <-Hbpw. unfold rem_ok.
  split_and!; [by intros ->| |].
  { intros E Hc. destruct (Z.eqb_spec bpw 0); [done|]. rewrite bind_ret_l.
    destruct (Z.eqb_spec (length_ m mod bpw) 0); cbn [negb]; [|done].
    destruct Hc as [Hc|Hc]; [done|]. rewrite Hc. done. }
  intros n ws Hw Hp Hq Hne Hl Hws Hlen Hpos.
  destruct (Z.eqb_spec bpw 0) as [E|E]; [unfold word_size_ok in Hw; lia|]. rewrite bind_ret_l.
  assert (length_ m mod bpw = 0) as -> by (rewrite <-Hlen; by apply Z_mod_mult).
  destruct (Z.ltb_spec 0 (length_ m)); [|lia]. cbn [Z.eqb negb].
  cbv zeta. set (cfg := configuration (sbus s)). set (active := tst (mode cfg) RT_SPI_CS_HIGH).
  destruct (cs_step cfg (cs_take m) user active s) as (h1 & E1 & W1 & C1 & T1 & R1).
  rewrite (bind_Ret _ _ _ _ _ E1). set (s1 := set_shw h1 s).
  assert (Hp1 : polled s1 (Z.of_nat n * bpw)) by (rewrite Hlen; unfold polled, s1; cbn; by rewrite C1).
  assert (Hq1 : quiet (shw s1)) by (unfold quiet, s1; cbn; by rewrite T1, R1).
  destruct (xfer_words (send_buf m) (recv_buf m) n bpw ws s1 Hp1 Hw Hq1 Hne Hl Hws)
    as (s0 & s2 & E2 & (h2 & -> & Q2 & R2 & W2) & Es0 & Ed0 & _).
  rewrite Hlen in E2. rewrite (bind_Ret _ _ _ _ _ E2).
  destruct (cs_step cfg (cs_release m) user (negb active) (set_shw h2 s0)) as (h3 & E3 & W3 & C3 & T3 & R3).
  rewrite (bind_Ret _ _ _ _ _ E3). exists (set_shw h3 (set_shw h2 s0)).
  cbn [shw s1 set_shw] in *. rewrite <-W1, <-(send_ctl (shw s) h1) by done.
  split; [done|]. split; [by rewrite W3, W2|]. split; [unfold quiet; rewrite T3, R3; done|].
  split; [|done]. rewrite C3. rewrite Es0 in R2. injection R2 as -> _ _ _ _. done.
Qed.
End xfer.

(** ** The PDMA channels of a bus *)

Section channels.
Context `{HW : PdmaHw} `{HWS : !PdmaHwSpec} `{RH : RtHeap} `{CBS : Callbacks} `{SH : SpiHw}
  `{SE : SpiEnv} `{SD : SpiDma}.

(** A PDMA function that logs no callback. *)
Lemma on_dma_eq {A} (m : M drv A) s a d :
  m (sdma s) = Ret (a, d) -> cb_log d = cb_log (sdma s) -> on_dma m s = Ret (a, set_sdma d s).
Proof. intros E L. unfold on_dma. by rewrite E, L, Nat.sub_diag. Qed.

Lemma takes_cb_log s s' c per mem : takes s s' c per mem -> cb_log s' = cb_log s.
Proof. intros T. by rewrite (takes_rest _ _ _ _ _ T). Qed.
Lemma takes_inited s s' c per mem : takes s s' c per mem -> nu_pdma_inited s' = nu_pdma_inited s.
Proof. intros T. by rewrite (takes_rest _ _ _ _ _ T). Qed.
Lemma gives_cb_log s s' c : gives_back s s' c -> cb_log s' = cb_log s.
Proof. intros T. by rewrite (gives_rest _ _ _ T). Qed.

(** One allocation, from the channels' point of view. *)
Lemma allocate_channel d t :
  wf d -> nu_pdma_inited d = true -> u32 t ∈ g_nu_pdma_peripheral_ctl_pool.*1 ->
  (nu_pdma_channel_allocate t d = Ret (- RT_ERROR, d) /\ forall c, is_chan c -> allocated d c = true) \/
  exists c d', nu_pdma_channel_allocate t d = Ret (c, d') /\ wf d' /\ nu_pdma_inited d' = true /\
    cb_log d' = cb_log d /\ is_chan c /\ allocated d c = false /\
    forall e, is_chan e -> allocated d' e = (e =? c) || allocated d e.
Proof.
  intros Hd Hi Ht. destruct (allocate_known d t Hd Hi Ht) as (mem & _ & H).
  destruct (first_free d) as [c|] eqn:Ef.
  - destruct H as (Hc & Hf & d' & E & Hw & T). right. exists c, d'. split; [done|]. split; [done|].
    rewrite (takes_inited _ _ _ _ _ T). split_and!; [done|by eapply takes_cb_log|done|done|].
    apply (takes_set _ _ _ _ _ T).
  - left. split; [done|]. by apply first_free_full.
Qed.

(** The PDMA channels of a bus, from any initialised PDMA driver.  The code
    asserts only if the kernel has no memory for the semaphore.  It returns
    [RT_EOK] with two different channels that were free, nothing else allocated or
    freed, recorded in the bus with an empty semaphore; or [- RT_ERROR] with exactly
    the channels allocated that were allocated before, and then fewer than two were
    free. *)
Theorem spi_pdma_allocate_spec s :
  wf (sdma s) -> nu_pdma_inited (sdma s) = true ->
  u32 (pdma_perp_tx (sbus s)) ∈ g_nu_pdma_peripheral_ctl_pool.*1 ->
  u32 (pdma_perp_rx (sbus s)) ∈ g_nu_pdma_peripheral_ctl_pool.*1 ->
  (nu_hw_spi_pdma_allocate s = AssertFail /\ exists s1, sem_create_ok s1 = false) \/
  (exists s' tx rx, nu_hw_spi_pdma_allocate s = Ret (RT_EOK, s') /\ wf (sdma s') /\
     is_chan tx /\ is_chan rx /\ tx <> rx /\
     allocated (sdma s) tx = false /\ allocated (sdma s) rx = false /\
     (forall c, is_chan c -> allocated (sdma s') c = (c =? tx) || (c =? rx) || allocated (sdma s) c) /\
     sbus s' = set_m_psSemBus (Some 0) (set_pdma_chanid_rx rx (set_pdma_chanid_tx tx (sbus s))) /\
     shw s' = shw s) \/
  (exists s', nu_hw_spi_pdma_allocate s = Ret (- RT_ERROR, s') /\ wf (sdma s') /\
     (forall c, is_chan c -> allocated (sdma s') c = allocated (sdma s) c) /\
     (forall c1 c2, is_chan c1 -> is_chan c2 -> allocated (sdma s) c1 = false ->
        allocated (sdma s) c2 = false -> c1 = c2)).
Proof.
  intros Hd Hi Ht Hr. unfold nu_hw_spi_pdma_allocate. rewrite bind_gets.
  destruct (allocate_channel _ _ Hd Hi Ht) as [[E Hfull]|(tx & d1 & E & Hd1 & Hi1 & L1 & Hc1 & Hf1 & A1)].
  { right. right. rewrite (bind_Ret _ _ _ _ _ (on_dma_eq _ s _ _ E eq_refl)). unfold upd_bus.
    rewrite bind_modify. eexists. split; [reflexivity|]. split; [done|]. split; [done|].
    intros c1 c2 H1 _ F1 _. by rewrite Hfull in F1. }
  rewrite (bind_Ret _ _ _ _ _ (on_dma_eq _ s _ _ E L1)). unfold upd_bus. rewrite bind_modify.
  destruct (Z.ltb_spec tx 0); [chan_consts; lia|]. set (s1 := set_sbus _ _).
  destruct (allocate_channel d1 _ Hd1 Hi1 Hr) as [[E2 Hfull]|(rx & d2 & E2 & Hd2 & Hi2 & L2 & Hc2 & Hf2 & A2)].
  - right. right. rewrite (bind_Ret _ _ _ _ _ (on_dma_eq _ s1 _ _ E2 eq_refl)), bind_modify.
    change (- RT_ERROR <? 0) with true. cbn match. set (s2 := set_sbus _ (set_sdma d1 s1)).
    destruct (free_returns d1 tx Hd1 Hi1 Hc1) as (d3 & E3 & Hd3 & G); [by rewrite A1, Z.eqb_refl|].
    rewrite (bind_Ret _ _ _ _ _ (on_dma_eq _ s2 _ _ E3 (gives_cb_log _ _ _ G))).
    eexists. split; [reflexivity|]. split; [done|]. cbn [sdma set_sdma]. split.
    + intros c Hc. rewrite (gives_set _ _ _ G), A1 by done. destruct (Z.eqb_spec c tx) as [->|]; [by rewrite Hf1|done].
    + intros c1 c2 H1 H2 F1 F2.
      pose proof (Hfull c1 H1) as X1. pose proof (Hfull c2 H2) as X2. rewrite A1, F1 in X1 by done.
      rewrite A1, F2 in X2 by done. rewrite orb_false_r in X1, X2. lia.
  - rewrite (bind_Ret _ _ _ _ _ (on_dma_eq _ s1 _ _ E2 L2)), bind_modify.
    destruct (Z.ltb_spec rx 0); [chan_consts; lia|]. rewrite bind_gets.
    set (s2 := set_sbus _ _). destruct (sem_create_ok s2) eqn:Es; [|left; split; [done|by exists s2]].
    right. left. rewrite bind_assert, bind_modify by done. eexists _, tx, rx.
    split; [reflexivity|]. cbn [sdma set_sbus s2 set_sdma s1 sbus shw]. rewrite A1 in Hf2 by done.
    apply orb_false_iff in Hf2 as [Hne Hf2]. split_and!; try done; [lia|].
    intros c Hc. rewrite A2, A1 by done. by destruct (c =? rx), (c =? tx).
Qed.
End channels.

(** ** The receiving loop can lose words *)

(** The controller with 8-bit words. *)
Definition spi_8bit : spi_hw := set_spi_CTL (open_ctl SPI_MASTER SPI_MODE_0 8) spi_reset.

(** Time stands still for the first 16 status reads, then the transfer is held up
    once for eight word times. *)
Definition late_pace (n : nat) : nat :=
  if (n <? 16)%nat then 0%nat else if (n =? 17)%nat then 8%nat else 1%nat.

(** The device counts: it answers each word with the number of words before it. *)
Definition counting (wr : list wire_ev) (_ : bus_mode) (_ : Z) : Z := Z.of_nat (length wr).

(** The receiving loop checks that the transmit FIFO has room, not that the
    receive FIFO has.  With FIFOs of the same depth (eight words) and a controller
    that never stops for good there is a pace at which a read of 16 bytes sends 16
    words, loses one of the answers, and stores 15 bytes only. *)
Theorem poll_read_loses_words :
  SpiHwSpec (SH := board_spi late_pace counting) /\
  exists got h',
    poll_transfer (SH := board_spi late_pace counting) (nu_set32_le 0) None true 16 1 spi_8bit
      = Ret (got, h') /\
    length (wire h') = 16%nat /\ got = [0; 1; 2; 3; 4; 5; 6; 7; 9; 10; 11; 12; 13; 14; 15].
Proof.
  split.
  - split; [cbn; lia|]. exists 17%nat. split; [cbn; lia|]. intros n. exists 16%nat. split; [lia|].
    unfold pace, board_spi, late_pace. destruct (Nat.ltb_spec (n + 16) 16); [lia|].
    destruct (n + 16 =? 17)%nat; lia.
  - eexists _, _. split; [vm_compute; reflexivity|]. split; reflexivity.
Qed.

(** ** Examples *)

Definition board_spi_env : SpiEnv := Build_SpiEnv 0x80001000 0x80001100 0x80001200 0x80002000 0 (fun _ => 200000000).
Definition board_spi_dma : SpiDma :=
  Build_SpiDma (ret tt) 1 (fun _ => true) (fun _ _ n => replicate (Z.to_nat n) 0).

Definition board_qspi0 : nu_spi :=
  mkNuSpi QSPI0_BASE (0x80003000, 0) PDMA_QSPI0_TX (-1) PDMA_QSPI0_RX (-1) None
    (mkSpiCfg RT_SPI_MSB 8 0 48000000).
Definition board_bus : spi_st := mkSpiSt board_qspi0 spi_8bit board_one.

Lemma bus_xfer_wire_witness :
  exists s', nu_spi_bus_xfer (HW := board_hw) (RH := board_heap) (CBS := board_cbs)
      (SH := board_spi (fun _ => 1%nat) counting) (SE := board_spi_env) (SD := board_spi_dma)
      None (mkMsg None (Some 0x80004000) 3 true true) board_bus = Ret ((3, [1; 2; 3]), s') /\
    wire (shw s') = [WSel false; WWord Single 8 0 1; WWord Single 8 0 2; WWord Single 8 0 3; WSel true].
Proof.
  pose proof (@bus_xfer_wire board_hw board_heap board_cbs (board_spi (fun _ => 1%nat) counting)
    (board_spi_spec (fun _ => 1%nat) counting ltac:(intros; cbn; lia)) board_spi_env board_spi_dma board_bus None
    (mkMsg None (Some 0x80004000) 3 true true) 1 eq_refl ltac:(cbn; lia)) as (_ & _ & H).
  specialize (H 3%nat (replicate 3 0) eq_refl
    ltac:(split; [vm_compute; reflexivity|right; cbn; unfold NU_SPI_USE_PDMA_MIN_THRESHOLD; lia])
    (conj eq_refl eq_refl) ltac:(right; by eexists) ltac:(left; cbn; lia) eq_refl eq_refl ltac:(cbn; lia)).
  destruct H as (s' & E & W & _). exists s'. split; [rewrite E|rewrite W]; vm_compute; reflexivity.
Defined.

Lemma spi_pdma_allocate_spec_witness :
  exists s' (tx rx : Z), nu_hw_spi_pdma_allocate (HW := board_hw) (SE := board_spi_env) (SD := board_spi_dma) board_bus
      = Ret (RT_EOK, s') /\ tx <> rx.
Proof.
  destruct (@spi_pdma_allocate_spec board_hw board_hw_spec board_spi_env board_spi_dma board_bus
    (proj1 wf_board_one) (proj2 wf_board_one)) as [[_ [s1 H]]|[H|H]].
  - apply (bool_decide_unpack _). vm_compute. exact I.
  - apply (bool_decide_unpack _). vm_compute. exact I.
  - discriminate H.
  - destruct H as (s' & tx & rx & E & _ & _ & _ & Hne & _). exists s', tx, rx. split; [exact E|exact Hne].
  - destruct H as (s' & _ & _ & _ & H). exfalso.
    assert (1 = 2) as E; [|discriminate E]. apply H; [chan_consts; lia|chan_consts; lia|vm_compute; reflexivity..].
Defined.
