(* ===== verification/Qspi.v ===== *)
(** * The QSPI bus driver

    Models [libraries/ma35/rtt_port/drv_qspi.c]: [nu_qspi_mode_config],
    [nu_qspi_bus_xfer] and [nu_qspi_bus_configure].  A message goes out as up to five
    stages - instruction, address, alternate bytes, dummy cycles, data - each on its
    own number of lines; the property gives the wire of a message stage by stage. *)

From Stdlib Require Import ZArith Lia Bool.
From stdpp Require Import base tactics numbers list option gmap.
From S2P Require Import Prelude BitUtil PdmaRegs Pdma PdmaFacts SpiHw SpiOpen Spi SpiPoll SpiXfer.

Open Scope Z_scope.

(** ** Data *)

Record stage : Type := mkStage { content : Z; size : Z; qspi_lines : Z }.

Record rt_qspi_message : Type := mkQMsg {
  parent : rt_spi_message;
  instruction_content : Z;
  instruction_lines : Z;
  address : stage;
  alternate_bytes : stage;
  dummy_cycles : Z;
  qspi_data_lines : Z
}.

(** The addresses of the message's instruction byte and of the local words. *)
Class QspiAddr : Type := { content_addr : Z; local_addr : Z }.

Section qspi.
Context `{HW : PdmaHw} `{RH : RtHeap} `{CBS : Callbacks} `{SH : SpiHw} `{SE : SpiEnv} `{SD : SpiDma}
  `{QA : QspiAddr}.

(** [tx]: whether the transmit pointer is not NULL. *)
Definition nu_qspi_mode_config (tx : bool) (lines : Z) : M spi_hw Z :=
  (if 1 <? lines then
     if tx then
       if lines =? 2 then QSPI_ENABLE_DUAL_OUTPUT_MODE
       else if lines =? 4 then QSPI_ENABLE_QUAD_OUTPUT_MODE else ret tt
     else
       if lines =? 2 then QSPI_ENABLE_DUAL_INPUT_MODE
       else if lines =? 4 then QSPI_ENABLE_QUAD_INPUT_MODE else ret tt
   else QSPI_DISABLE_DUAL_MODE ;; QSPI_DISABLE_QUAD_MODE) ;;
  ret lines.

(** A stage that sends: the mode, then the bytes. *)
Definition send_stage (lines : Z) (b : buf) (n : Z) : M spi_st Z :=
  let! u8last := on_shw (nu_qspi_mode_config true lines) in
  let! _got := nu_spi_transfer (Some b) None n 1 in
  ret (u8 u8last).

(** The [switch] on the number of bytes of the address and alternate-bytes stages:
    the bytes of the local word. *)
Definition be_bytes (n content : Z) : option (list Z) :=
  match n with
  | 1 => Some (nu_set32_le (Z.land content 0xff))
  | 2 => Some (nu_set16_be content)
  | 3 => Some (nu_set24_be content)
  | 4 => Some (nu_set32_be content)
  | _ => None
  end.

Definition word_stage (st : stage) : M spi_st Z :=
  match be_bytes (size st / 8) (content st) with
  | None => fail_assert
  | Some bs => send_stage (qspi_lines st) (mkBuf local_addr bs) (size st / 8)
  end.

Definition nu_qspi_bus_xfer (message : rt_qspi_message) : M spi_st (Z * list Z) :=
  let! b := gets sbus in
  let cfg := configuration b in
  let bytes_per_word := u8 (data_width cfg / 8) in
  let msg := parent message in
  (if cs_take msg && negb (tst (mode cfg) RT_SPI_NO_CS)
   then on_shw (if tst (mode cfg) RT_SPI_CS_HIGH then SPI_SET_SS_HIGH else SPI_SET_SS_LOW) else ret tt) ;;
  let! u8last :=
    if negb (instruction_content message =? 0) then
      send_stage (instruction_lines message) (mkBuf content_addr [instruction_content message]) 1
    else ret 1 in
  let! u8last := if 0 <? size (address message) then word_stage (address message) else ret u8last in
  let alt := alternate_bytes message in
  let! u8last := if (0 <? size alt) && (size alt <=? 4) then word_stage alt else ret u8last in
  (if 0 <? dummy_cycles message then
     upd_bus (set_dummy 0) ;;
     if (u8last =? 0) || (8 <? u8last) then undefined else
     let! _last := send_stage u8last (mkBuf (fst (dummy b)) (nu_set32_le 0))
                     (dummy_cycles message / (8 / u8last)) in
     ret tt
   else ret tt) ;;
  let! '(u32len, got) :=
    if 0 <? length_ msg then
      let! _last := on_shw (nu_qspi_mode_config (bool_decide (is_Some (send_buf msg)))
                              (qspi_data_lines message)) in
      let! got := nu_spi_transfer (send_buf msg) (recv_buf msg) (length_ msg) bytes_per_word in
      ret (length_ msg, got)
    else ret (1, []) in
  (if cs_release msg && negb (tst (mode cfg) RT_SPI_NO_CS)
   then on_shw (if tst (mode cfg) RT_SPI_CS_HIGH then SPI_SET_SS_LOW else SPI_SET_SS_HIGH) else ret tt) ;;
  ret (u32len, got).

Definition nu_qspi_bus_configure (cfg : rt_spi_configuration) : M spi_st Z :=
  if negb (width_supported (data_width cfg)) then ret (- RT_EINVAL) else
  let! b := gets sbus in
  (if decide (cfg = configuration b) then ret tt else
     upd_bus (set_configuration cfg) ;;
     let! f := clocks in
     let! _rate := on_shw (QSPI_Open f (spi_base b) SPI_MASTER (spi_mode_of cfg) (data_width cfg) (max_hz cfg)) in
     on_shw (if tst (mode cfg) RT_SPI_CS_HIGH then SPI_SET_SS_LOW else SPI_SET_SS_HIGH) ;;
     on_shw (if tst (mode cfg) RT_SPI_MSB then SPI_SET_MSB_FIRST else SPI_SET_LSB_FIRST)) ;;
  on_shw nu_spi_drain_rxfifo ;;
  ret (- RT_EOK).
End qspi.

(** ** Modes *)

Lemma field_get_ext x y n pos :
  0 <= n -> 0 <= pos -> (forall i, pos <= i < pos + n -> Z.testbit x i = Z.testbit y i) ->
  field_get x n pos = field_get y n pos.
Proof.
  intros Hn Hp H. unfold field_get. apply Z.bits_inj'; intros i Hi. autorewrite with bits.
  destruct (Z.ltb_spec i n); [rewrite H by lia; done|by rewrite !andb_false_r].
Qed.

(** A CTL update that leaves the word width, the role and the dual bit alone. *)
Definition keeps_ctl (f : Z -> Z) : Prop :=
  forall x i, 0 <= i < 20 -> Z.testbit (f x) i = Z.testbit x i.

Lemma keeps_width f x : keeps_ctl f -> word_width (f x) = word_width x.
Proof.
  intros Hf. unfold word_width. rewrite (field_get_ext (f x) x); [done|lia|unfold SPI_CTL_DWIDTH_Pos; lia|].
  intros i Hi. apply Hf. unfold SPI_CTL_DWIDTH_Pos in Hi. lia.
Qed.

Lemma keeps_slave f x : keeps_ctl f -> tst (f x) SPI_CTL_SLAVE_Msk = tst x SPI_CTL_SLAVE_Msk.
Proof. intros Hf. unfold SPI_CTL_SLAVE_Msk. rewrite !tst_bit by lia. apply Hf. lia. Qed.

Definition no_dual (ctl : Z) : Prop := Z.testbit ctl 21 = false.

(** The mode of a stage on one or four lines. *)
Definition line_mode (out : bool) (lines : Z) : bus_mode :=
  if lines =? 1 then Single else Lines4 out.

Lemma mode_of_bits ctl :
  mode_of ctl =
  match Z.testbit ctl 21, Z.testbit ctl 22 with
  | false, false => Single
  | true, false => Lines2 (Z.testbit ctl 20)
  | false, true => Lines4 (Z.testbit ctl 20)
  | true, true => Undocumented
  end.
Proof.
  unfold mode_of, QSPI_CTL_DATDIR_Msk, QSPI_CTL_DUALIOEN_Msk, QSPI_CTL_QUADIOEN_Msk.
  by rewrite !tst_bit by lia.
Qed.

Ltac ctl_bits :=
  intros; unfold QSPI_CTL_DATDIR_Msk, QSPI_CTL_DUALIOEN_Msk, QSPI_CTL_QUADIOEN_Msk;
  autorewrite with bits; repeat (bits_step; try lia); cbn [andb orb negb];
  rewrite ?andb_true_r, ?andb_false_r, ?orb_false_r, ?orb_true_r; try done.

Section modes.
Context `{SH : SpiHw}.

Lemma mode_config_eq tx lines h :
  lines = 1 \/ lines = 4 -> no_dual (spi_CTL h) ->
  exists c, nu_qspi_mode_config tx lines h = Ret (lines, set_spi_CTL c h) /\
    mode_of c = line_mode tx lines /\ no_dual c /\ word_width c = word_width (spi_CTL h) /\
    tst c SPI_CTL_SLAVE_Msk = tst (spi_CTL h) SPI_CTL_SLAVE_Msk.
Proof.
  intros Hl Hd. unfold nu_qspi_mode_config, no_dual in *.
  assert (Hstep : forall f g, keeps_ctl f ->
    update_CTL f g = Ret (tt, set_spi_CTL (f (spi_CTL g)) g))
    by (intros f g Hf; apply update_CTL_eq; by apply keeps_width).
  destruct Hl as [-> | ->]; cbn [Z.ltb Z.compare Pos.compare Pos.compare_cont Z.eqb Pos.eqb].
  - unfold QSPI_DISABLE_DUAL_MODE, QSPI_DISABLE_QUAD_MODE.
    set (f1 := fun v => Z.land v (not32 QSPI_CTL_DUALIOEN_Msk)).
    set (f2 := fun v => Z.land v (not32 QSPI_CTL_QUADIOEN_Msk)).
    assert (K1 : keeps_ctl f1) by (unfold f1, keeps_ctl; ctl_bits).
    assert (K2 : keeps_ctl f2) by (unfold f2, keeps_ctl; ctl_bits).
    rewrite bind_assoc, (bind_Ret _ _ _ _ _ (Hstep f1 h K1)), (bind_Ret _ _ _ _ _ (Hstep f2 _ K2)).
    exists (f2 (f1 (spi_CTL h))). split; [done|]. rewrite mode_of_bits.
    rewrite !keeps_width, !keeps_slave by done.
    assert (Z.testbit (f2 (f1 (spi_CTL h))) 21 = false) as -> by (unfold f1, f2; ctl_bits).
    assert (Z.testbit (f2 (f1 (spi_CTL h))) 22 = false) as -> by (unfold f1, f2; ctl_bits).
    done.
  - destruct tx.
    + unfold QSPI_ENABLE_QUAD_OUTPUT_MODE. match goal with |- context [update_CTL ?g] => set (f := g) end.
      assert (K : keeps_ctl f) by (unfold f, keeps_ctl; ctl_bits).
      rewrite (bind_Ret _ _ _ _ _ (Hstep f h K)). exists (f (spi_CTL h)). split; [done|].
      rewrite mode_of_bits, keeps_width, keeps_slave by done.
      assert (Z.testbit (f (spi_CTL h)) 21 = false) as -> by (unfold f; ctl_bits).
      assert (Z.testbit (f (spi_CTL h)) 22 = true) as -> by (unfold f; ctl_bits).
      assert (Z.testbit (f (spi_CTL h)) 20 = true) as -> by (unfold f; ctl_bits). done.
    + unfold QSPI_ENABLE_QUAD_INPUT_MODE. match goal with |- context [update_CTL ?g] => set (f := g) end.
      assert (K : keeps_ctl f) by (unfold f, keeps_ctl; ctl_bits).
      rewrite (bind_Ret _ _ _ _ _ (Hstep f h K)). exists (f (spi_CTL h)). split; [done|].
      rewrite mode_of_bits, keeps_width, keeps_slave by done.
      assert (Z.testbit (f (spi_CTL h)) 21 = false) as -> by (unfold f; ctl_bits).
      assert (Z.testbit (f (spi_CTL h)) 22 = true) as -> by (unfold f; ctl_bits).
      assert (Z.testbit (f (spi_CTL h)) 20 = false) as -> by (unfold f; ctl_bits). done.
Qed.
End modes.

(** ** The wire of a message *)

(** A bus between messages: master, words of 8 bits, nothing in flight, and never
    switched to two lines. *)
Record qready (s : spi_st) : Prop := {
  qready_quiet : quiet (shw s);
  qready_master : tst (spi_CTL (shw s)) SPI_CTL_SLAVE_Msk = false;
  qready_width : word_width (spi_CTL (shw s)) = 8;
  qready_dual : no_dual (spi_CTL (shw s))
}.

(** The same bus, up to the contents of the dummy word. *)
Definition same_bus (b b' : nu_spi) : Prop := set_dummy 0 b' = set_dummy 0 b.

Definition lines_ok (l : Z) : Prop := l = 1 \/ l = 4.

Section wire.
Context `{SH : SpiHw}.

(** Bytes sent in a stage. *)
Definition stage_wire (wr : list wire_ev) (st : Z * list Z) : list wire_ev :=
  fst (clock (line_mode true (fst st)) 8 (snd st) wr).

Definition be_address (n : nat) (content : Z) : list Z := rev (take n (nu_set32_le content)).

Definition command_stages (m : rt_qspi_message) : list (Z * list Z) :=
  (if instruction_content m =? 0 then [] else [(instruction_lines m, [instruction_content m])]) ++
  (if size (address m) =? 0 then []
   else [(qspi_lines (address m), be_address (Z.to_nat (size (address m) / 8)) (content (address m)))]).

(** The lines of the last stage, which the dummy cycles use. *)
Definition last_lines (m : rt_qspi_message) : Z :=
  if size (address m) =? 0 then if instruction_content m =? 0 then 1 else instruction_lines m
  else qspi_lines (address m).

Definition dummy_bytes (m : rt_qspi_message) : Z := dummy_cycles m / (8 / last_lines m).

Definition sent_stages (m : rt_qspi_message) : list (Z * list Z) :=
  command_stages m ++
  (if dummy_cycles m =? 0 then [] else [(last_lines m, replicate (Z.to_nat (dummy_bytes m)) 0)]).

(** The data stage: the words sent, and the mode, which follows the send buffer. *)
Definition data_words (m : rt_spi_message) : list Z :=
  match send_buf m with
  | Some b => take (Z.to_nat (length_ m)) (buf_bytes b)
  | None => replicate (Z.to_nat (length_ m)) 0
  end.
Definition data_mode (m : rt_qspi_message) : bus_mode :=
  line_mode (bool_decide (is_Some (send_buf (parent m)))) (qspi_data_lines m).

Definition message_wire (cfg : rt_spi_configuration) (m : rt_qspi_message) (wr : list wire_ev)
  : list wire_ev * list Z :=
  let active := tst (mode cfg) RT_SPI_CS_HIGH in
  let wr1 := fold_left stage_wire (sent_stages m) (wr ++ cs_events cfg (cs_take (parent m)) None active) in
  let p := if length_ (parent m) =? 0 then (wr1, [])
           else clock (data_mode m) 8 (data_words (parent m)) wr1 in
  (fst p ++ cs_events cfg (cs_release (parent m)) None (negb active),
   match recv_buf (parent m) with Some _ => snd p | None => [] end).
End wire.

(** What the code takes for granted of a message: lines the mode function knows (two
    apart), a whole number of address bytes, dummy bytes within the dummy word, and
    buffers as long as the data. *)
Record message_ok `{SH : SpiHw} (m : rt_qspi_message) : Prop := {
  ok_instr : is_u8 (instruction_content m);
  ok_instr_lines : lines_ok (instruction_lines m) \/ instruction_content m = 0;
  ok_addr : size (address m) ∈ [0; 8; 16; 24; 32];
  ok_addr_lines : lines_ok (qspi_lines (address m)) \/ size (address m) = 0;
  ok_dummy : 0 <= dummy_cycles m /\ dummy_bytes m <= 4;
  ok_length : 0 <= length_ (parent m);
  ok_data_lines : lines_ok (qspi_data_lines m) \/ length_ (parent m) = 0;
  ok_data : length_ (parent m) = 0 \/ is_Some (send_buf (parent m)) \/ is_Some (recv_buf (parent m));
  ok_send : forall b, send_buf (parent m) = Some b -> length_ (parent m) <> 0 ->
    Forall is_u8 (buf_bytes b) /\ length_ (parent m) <= Z.of_nat (length (buf_bytes b));
  ok_recv : is_Some (recv_buf (parent m)) -> lossless (Z.to_nat (length_ (parent m)))
}.

Section stages.
Context `{HW : PdmaHw} `{RH : RtHeap} `{CBS : Callbacks} `{SH : SpiHw} `{HS : !SpiHwSpec}
  `{SE : SpiEnv} `{SD : SpiDma} `{QA : QspiAddr}.

Lemma words_at_bytes n b : (n <= length b)%nat -> words_at 1 n b = Some (take n b).
Proof.
  revert b. induction n as [|n IH]; intros b Hn; [done|]. destruct b as [|x b]; [cbn in Hn; lia|].
  cbn in Hn. cbn [words_at load_word head]. change (drop (Z.to_nat 1) (x :: b)) with b.
  rewrite IH by lia. done.
Qed.

Lemma low_bytes h bs : word_width (spi_CTL h) = 8 -> Forall is_u8 bs -> map (low h) bs = bs.
Proof.
  intros Hw. induction 1 as [|x bs Hx Hbs IH]; [done|]. cbn [map]. rewrite IH. f_equal.
  unfold low. rewrite Hw, Z.land_ones by lia. by apply Z.mod_small.
Qed.

Lemma stored_bytes rs : Forall is_u8 rs -> stored 1 rs = rs.
Proof.
  induction 1 as [|x rs Hx Hrs IH]; [done|]. unfold stored in *. cbn [map concat store_word app].
  rewrite IH. f_equal. by apply u8_small.
Qed.

Lemma clock_u8 m ws wr : Forall is_u8 (snd (clock m 8 ws wr)).
Proof.
  revert wr. induction ws as [|w ws IH]; intros wr; [constructor|]. cbn. constructor; [|apply IH].
  unfold answer. rewrite Z.land_ones by lia. apply u8_range.
Qed.

Lemma polled_short s n : tst (spi_CTL (shw s)) SPI_CTL_SLAVE_Msk = false -> n < 128 -> polled s n.
Proof. intros Hs Hn. split; [done|by right]. Qed.

(** The state after a stage. *)
Definition staged (s : spi_st) (wr : list wire_ev) (s' : spi_st) : Prop :=
  exists h', s' = set_shw h' s /\ qready s' /\ wire h' = wr.

Lemma mode_config_staged s tx lines :
  qready s -> lines_ok lines ->
  exists s', on_shw (nu_qspi_mode_config tx lines) s = Ret (lines, s') /\ staged s (wire (shw s)) s' /\
    mode_of (spi_CTL (shw s')) = line_mode tx lines.
Proof.
  intros [[T R] Sl Wd Du] Hl. destruct (mode_config_eq tx lines (shw s) Hl Du) as (c & E & Mo & Nd & Ww & Ss).
  exists (set_shw (set_spi_CTL c (shw s)) s). split; [by apply on_shw_eq|]. split; [|done].
  eexists. split; [reflexivity|]. split; [|done].
  split; cbn [shw set_shw spi_CTL set_spi_CTL]; [by split|congruence|congruence|done].
Qed.

Lemma sent_staged s wr s' : qready s -> sent s wr s' -> staged s wr s'.
Proof.
  intros [Q Sl Wd Du] (h' & -> & Q' & R' & W'). injection R' as Rc _ _ _ _. exists h'. split; [done|].
  split; [|done]. split; cbn [shw set_shw]; rewrite ?Rc; done.
Qed.

Lemma staged_trans s1 w1 s2 w2 s3 : staged s1 w1 s2 -> staged s2 w2 s3 -> staged s1 w2 s3.
Proof. intros (h1 & -> & _ & _) (h2 & -> & Q & W). by exists h2. Qed.

Lemma send_stage_returns s lines b k :
  qready s -> lines_ok lines -> (k <= length (buf_bytes b))%nat -> (k < 128)%nat ->
  Forall is_u8 (take k (buf_bytes b)) ->
  exists s', send_stage lines b (Z.of_nat k) s = Ret (lines, s') /\
    staged s (stage_wire (wire (shw s)) (lines, take k (buf_bytes b))) s'.
Proof.
  intros Hq Hl Hk H128 Hb. destruct (mode_config_staged s true lines Hq Hl) as (s1 & E1 & S1 & M1).
  pose proof S1 as (h1 & Es1 & Q1 & W1). unfold send_stage. rewrite (bind_Ret _ _ _ _ _ E1).
  destruct (transfer_sends_lemma s1 b k 1 (take k (buf_bytes b))) as (s2 & E2 & S2);
    [apply polled_short; [apply Q1|lia]|done|apply Q1|by apply words_at_bytes|].
  rewrite Z.mul_1_r in E2. rewrite (bind_Ret _ _ _ _ _ E2). exists s2.
  split; [unfold ret; repeat f_equal; destruct Hl as [-> | ->]; done|].
  eapply staged_trans; [exact S1|]. unfold stage_wire. cbn [fst snd].
  replace (clock (line_mode true lines) 8 (take k (buf_bytes b)) (wire (shw s)))
    with (send (shw s1) (take k (buf_bytes b)) (wire (shw s1))); [by apply sent_staged|].
  unfold send. rewrite low_bytes, M1 by (first [apply Q1|done]). rewrite (qready_width _ Q1).
  by rewrite Es1, <-W1.
Qed.

Lemma be_bytes_address n c :
  n = 1 \/ n = 2 \/ n = 3 \/ n = 4 ->
  exists bs, be_bytes n c = Some bs /\ take (Z.to_nat n) bs = be_address (Z.to_nat n) c /\
    (Z.to_nat n <= length bs)%nat /\ Forall is_u8 (take (Z.to_nat n) bs).
Proof.
  intros [-> | [-> | [-> | ->]]]; eexists; (split; [reflexivity|]); (split; [|split]); try (cbn; lia).
  all: unfold be_address; rewrite ?nu_set24_be_rev, ?nu_set32_be_rev.
  all: change (Z.to_nat 1) with 1%nat; change (Z.to_nat 2) with 2%nat;
       change (Z.to_nat 3) with 3%nat; change (Z.to_nat 4) with 4%nat.
  all: rewrite ?nu_set32_le_eq, ?nu_set24_le_eq; cbn [take rev app nu_set16_be].
  all: rewrite ?land_255, ?Z.shiftr_div_pow2 by lia; unfold u8; rewrite ?Z.mod_mod by lia.
  all: repeat constructor; try apply u8_range.
Qed.

Lemma word_stage_returns s st :
  qready s -> lines_ok (qspi_lines st) -> size st ∈ [8; 16; 24; 32] ->
  exists s', word_stage st s = Ret (qspi_lines st, s') /\
    staged s (stage_wire (wire (shw s)) (qspi_lines st, be_address (Z.to_nat (size st / 8)) (content st))) s'.
Proof.
  intros Hq Hl Hs. unfold word_stage.
  assert (Hn : size st / 8 = 1 \/ size st / 8 = 2 \/ size st / 8 = 3 \/ size st / 8 = 4)
    by (rewrite !elem_of_cons in Hs; destruct_or! Hs; first [rewrite Hs; vm_compute; tauto|by apply not_elem_of_nil in Hs]).
  destruct (be_bytes_address (size st / 8) (content st) Hn) as (bs & -> & <- & Hlen & Hu).
  destruct (send_stage_returns s (qspi_lines st) (mkBuf local_addr bs) (Z.to_nat (size st / 8)) Hq Hl)
    as (s' & E & S); [done|lia|done|]. rewrite Z2Nat.id in E by lia. by exists s'.
Qed.

(** Where a message, or a part of one, leaves the bus. *)
Record stepped (s : spi_st) (wr : list wire_ev) (s' : spi_st) : Prop := {
  stepped_ready : qready s';
  stepped_wire : wire (shw s') = wr;
  stepped_bus : same_bus (sbus s) (sbus s');
  stepped_dma : sdma s' = sdma s
}.

Lemma staged_stepped s wr s' : staged s wr s' -> stepped s wr s'.
Proof. by intros (h' & -> & Q & W). Qed.

Lemma stepped_trans s1 w1 s2 w2 s3 : stepped s1 w1 s2 -> stepped s2 w2 s3 -> stepped s1 w2 s3.
Proof. unfold same_bus. intros [Q1 W1 B1 D1] [Q2 W2 B2 D2]. split; [done|done|unfold same_bus; congruence|congruence]. Qed.

Lemma stepped_refl s : qready s -> stepped s (wire (shw s)) s.
Proof. by split. Qed.

Lemma stepped_polled s wr s' n : polled s n -> stepped s wr s' -> polled s' n.
Proof.
  intros [_ Hp] [Q _ B _]. split; [apply Q|]. unfold same_bus in B.
  apply (f_equal pdma_chanid_rx) in B. cbn in B. by rewrite B.
Qed.

Lemma same_bus_configuration b b' : same_bus b b' -> configuration b' = configuration b.
Proof. intros H. by apply (f_equal configuration) in H. Qed.

Lemma cs_stepped cfg (flag high : bool) s :
  qready s ->
  exists s', (if flag && negb (tst (mode cfg) RT_SPI_NO_CS)
              then on_shw (if high then SPI_SET_SS_HIGH else SPI_SET_SS_LOW) else ret tt : M spi_st unit) s
      = Ret (tt, s') /\
    stepped s (wire (shw s) ++ cs_events cfg flag None high) s'.
Proof.
  intros [[T R] Sl Wd Du]. destruct (cs_step cfg flag None high s) as (h' & E & W & C & T' & R').
  exists (set_shw h' s). split; [exact E|]. split; [|done..].
  split; cbn [shw set_shw]; rewrite ?C; [split; congruence|done..].
Qed.

(** The instruction and the address. *)
Lemma command_returns {B} m (k : Z -> M spi_st B) s :
  qready s -> message_ok m ->
  exists s', (let! u8last :=
       if negb (instruction_content m =? 0) then
         send_stage (instruction_lines m) (mkBuf content_addr [instruction_content m]) 1
       else ret 1 in
     let! u8last := if 0 <? size (address m) then word_stage (address m) else ret u8last in k u8last) s
     = k (last_lines m) s' /\
    stepped s (fold_left stage_wire (command_stages m) (wire (shw s))) s'.
Proof.
  intros Hq Hm. unfold command_stages, last_lines.
  assert (Hi : exists s1, (if negb (instruction_content m =? 0) then
         send_stage (instruction_lines m) (mkBuf content_addr [instruction_content m]) 1 else ret 1) s
      = Ret (if instruction_content m =? 0 then 1 else instruction_lines m, s1) /\
      stepped s (fold_left stage_wire (if instruction_content m =? 0 then []
         else [(instruction_lines m, [instruction_content m])]) (wire (shw s))) s1).
  { destruct (Z.eqb_spec (instruction_content m) 0) as [E|E]; cbn [negb]; [exists s; split; [done|by apply stepped_refl]|].
    destruct (ok_instr_lines m Hm) as [Hl|]; [|done].
    destruct (send_stage_returns s (instruction_lines m) (mkBuf content_addr [instruction_content m]) 1 Hq Hl)
      as (s1 & E1 & S1); [cbn; lia|lia|by constructor; [apply Hm|]|].
    exists s1. split; [done|by apply staged_stepped]. }
  destruct Hi as (s1 & E1 & S1). rewrite (bind_Ret _ _ _ _ _ E1), fold_left_app.
  pose proof (ok_addr m Hm) as Hs. destruct (Z.eqb_spec (size (address m)) 0) as [E|E].
  - rewrite E. change (0 <? 0) with false. cbv iota. rewrite bind_ret_l. by exists s1.
  - apply elem_of_cons in Hs as [Hs|Hs]; [done|].
    assert ((0 <? size (address m)) = true) as ->
      by (rewrite !elem_of_cons in Hs; destruct_or! Hs; first [by rewrite Hs|by apply not_elem_of_nil in Hs]).
    destruct (ok_addr_lines m Hm) as [Hl|]; [|done].
    destruct (word_stage_returns s1 (address m) (stepped_ready _ _ _ S1) Hl Hs) as (s2 & E2 & S2).
    rewrite (bind_Ret _ _ _ _ _ E2). exists s2. split; [done|]. cbn [fold_left].
    eapply stepped_trans; [exact S1|]. rewrite <-(stepped_wire _ _ _ S1). by apply staged_stepped.
Qed.

Lemma last_lines_ok m : message_ok m -> lines_ok (last_lines m).
Proof.
  intros Hm. unfold last_lines. destruct (Z.eqb_spec (size (address m)) 0); [|by destruct (ok_addr_lines m Hm)].
  destruct (Z.eqb_spec (instruction_content m) 0); [by left|by destruct (ok_instr_lines m Hm)].
Qed.

Lemma dummy_returns m a s :
  qready s -> message_ok m ->
  exists s', (if 0 <? dummy_cycles m then
       upd_bus (set_dummy 0) ;;
       if (last_lines m =? 0) || (8 <? last_lines m) then undefined else
       let! _last := send_stage (last_lines m) (mkBuf a (nu_set32_le 0)) (dummy_cycles m / (8 / last_lines m)) in
       ret tt
     else ret tt) s = Ret (tt, s') /\
    stepped s (fold_left stage_wire (if dummy_cycles m =? 0 then []
      else [(last_lines m, replicate (Z.to_nat (dummy_bytes m)) 0)]) (wire (shw s))) s'.
Proof.
  intros Hq Hm. destruct (ok_dummy m Hm) as [H0 H4]. pose proof (last_lines_ok m Hm) as Hl.
  destruct (Z.eqb_spec (dummy_cycles m) 0) as [->|E]; [exists s; split; [done|by apply stepped_refl]|].
  destruct (Z.ltb_spec 0 (dummy_cycles m)); [|lia]. unfold upd_bus. rewrite bind_modify.
  assert ((last_lines m =? 0) || (8 <? last_lines m) = false) as -> by (by destruct Hl as [-> | ->]).
  fold (dummy_bytes m). set (n := dummy_bytes m) in *. set (s0 := set_sbus _ s).
  assert (0 <= n) by (unfold n, dummy_bytes; destruct Hl as [-> | ->]; apply Z.div_pos; try (vm_compute; reflexivity); lia).
  assert (Ht : take (Z.to_nat n) (nu_set32_le 0) = replicate (Z.to_nat n) 0)
    by (change (nu_set32_le 0) with (replicate 4 0); rewrite take_replicate; f_equal; lia).
  assert (Hq0 : qready s0) by (destruct Hq; by split).
  destruct (send_stage_returns s0 (last_lines m) (mkBuf a (nu_set32_le 0)) (Z.to_nat n) Hq0 Hl)
    as (s' & E' & S'); [cbn; lia|lia|cbn [buf_bytes]; rewrite Ht; apply Forall_replicate; unfold is_u8; lia|].
  rewrite Z2Nat.id in E' by lia. rewrite (bind_Ret _ _ _ _ _ E'). exists s'. split; [done|].
  cbn [buf_bytes] in S'. rewrite Ht in S'. destruct S' as (h' & -> & Q' & W'). by split.
Qed.

Lemma data_returns m s :
  qready s -> message_ok m -> polled s (length_ (parent m)) -> 0 < length_ (parent m) ->
  exists s', let p := clock (data_mode m) 8 (data_words (parent m)) (wire (shw s)) in
    (let! _last := on_shw (nu_qspi_mode_config (bool_decide (is_Some (send_buf (parent m))))
                              (qspi_data_lines m)) in
       let! got := nu_spi_transfer (send_buf (parent m)) (recv_buf (parent m)) (length_ (parent m)) 1 in
       ret (length_ (parent m), got)) s =
    Ret ((length_ (parent m), match recv_buf (parent m) with Some _ => snd p | None => [] end), s') /\
    stepped s (fst p) s'.
Proof.
  intros Hq Hm Hp Hn. destruct (ok_data_lines m Hm) as [Hl|]; [|lia].
  destruct (mode_config_staged s (bool_decide (is_Some (send_buf (parent m)))) (qspi_data_lines m) Hq Hl)
    as (s1 & E1 & S1 & M1).
  rewrite (bind_Ret _ _ _ _ _ E1). apply staged_stepped in S1. set (n := Z.to_nat (length_ (parent m))).
  assert (Hwords : out_words (send_buf (parent m)) n 1 = Some (data_words (parent m)) /\
                   Forall is_u8 (data_words (parent m))).
  { unfold out_words, data_words. destruct (send_buf (parent m)) as [b|] eqn:Eb.
    - destruct (ok_send m Hm b Eb ltac:(lia)) as [Hu Hlen]. split; [apply words_at_bytes; lia|by apply Forall_take].
    - split; [done|]. apply Forall_replicate. unfold is_u8. lia. }
  destruct Hwords as [Hws Hu]. pose proof (stepped_ready _ _ _ S1) as Q1.
  destruct (xfer_words (send_buf (parent m)) (recv_buf (parent m)) n 1 (data_words (parent m)) s1)
    as (s0 & s2 & E2 & Se & Eh & Ed & Eb);
    [rewrite Z.mul_1_r; unfold n; rewrite Z2Nat.id by lia; by apply (stepped_polled s _ _ _ Hp S1)
    |done|apply Q1|destruct (ok_data m Hm) as [|[]]; [lia|by left|by right]|apply Hm|done|].
  assert (Ews : send (shw s1) (data_words (parent m)) (wire (shw s1)) =
                clock (data_mode m) 8 (data_words (parent m)) (wire (shw s))).
  { unfold send. by rewrite low_bytes, M1, (qready_width _ Q1), (stepped_wire _ _ _ S1) by (first [apply Q1|done]). }
  rewrite Ews in E2, Se. rewrite Z.mul_1_r in E2. unfold n in E2. rewrite Z2Nat.id in E2 by lia.
  rewrite (bind_Ret _ _ _ _ _ E2). exists s2. split.
  - unfold ret. destruct (recv_buf (parent m)); [|done]. by rewrite stored_bytes by apply clock_u8.
  - apply sent_staged in Se; [|destruct Q1; split; by rewrite Eh]. apply staged_stepped in Se.
    eapply stepped_trans; [exact S1|]. destruct Se as [Q2 W2 B2 D2]. split; [done|done| |congruence].
    unfold same_bus in *. congruence.
Qed.

(** A message without the alternate-bytes stage. *)
Definition no_alternate (m : rt_qspi_message) : Prop :=
  (0 <? size (alternate_bytes m)) && (size (alternate_bytes m) <=? 4) = false.

Lemma data_stage_returns m s :
  qready s -> message_ok m -> polled s (length_ (parent m)) ->
  exists s', let p := if length_ (parent m) =? 0 then (wire (shw s), [])
                      else clock (data_mode m) 8 (data_words (parent m)) (wire (shw s)) in
    (if 0 <? length_ (parent m) then
       let! _last := on_shw (nu_qspi_mode_config (bool_decide (is_Some (send_buf (parent m)))) (qspi_data_lines m)) in
       let! got := nu_spi_transfer (send_buf (parent m)) (recv_buf (parent m)) (length_ (parent m)) 1 in
       ret (length_ (parent m), got) else ret (1, [])) s =
    Ret ((Z.max 1 (length_ (parent m)), match recv_buf (parent m) with Some _ => snd p | None => [] end), s') /\
    stepped s (fst p) s'.
Proof.
  intros Hq Hm Hp. pose proof (ok_length m Hm). destruct (Z.ltb_spec 0 (length_ (parent m))).
  - destruct (Z.eqb_spec (length_ (parent m)) 0); [lia|]. rewrite Z.max_r by lia. by apply data_returns.
  - destruct (Z.eqb_spec (length_ (parent m)) 0) as [->|]; [|lia]. exists s.
    split; [by destruct (recv_buf (parent m))|by apply stepped_refl].
Qed.

Lemma qspi_xfer_returns s m :
  qready s -> data_width (configuration (sbus s)) = 8 -> message_ok m -> no_alternate m ->
  polled s (length_ (parent m)) ->
  exists s', let p := message_wire (configuration (sbus s)) m (wire (shw s)) in
    nu_qspi_bus_xfer m s = Ret ((Z.max 1 (length_ (parent m)), snd p), s') /\ stepped s (fst p) s'.
Proof.
  intros Hq Hw Hm Ha Hp. unfold nu_qspi_bus_xfer. rewrite bind_gets, Hw. cbv zeta.
  set (cfg := configuration (sbus s)). set (active := tst (mode cfg) RT_SPI_CS_HIGH).
  destruct (cs_stepped cfg (cs_take (parent m)) active s Hq) as (s1 & E1 & S1).
  rewrite (bind_Ret _ _ _ _ _ E1).
  match goal with |- context [bind (if negb (instruction_content m =? 0) then _ else _)
    (fun u => bind _ ?k0)] => destruct (command_returns m k0 s1 (stepped_ready _ _ _ S1) Hm) as (s2 & E2 & S2) end.
  rewrite E2. clear E2. unfold no_alternate in Ha. rewrite Ha, bind_ret_l.
  destruct (dummy_returns m (fst (dummy (sbus s))) s2 (stepped_ready _ _ _ S2) Hm) as (s3 & E3 & S3).
  rewrite (bind_Ret _ _ _ _ _ E3).
  pose proof (stepped_trans _ _ _ _ _ S1 (stepped_trans _ _ _ _ _ S2 S3)) as S123.
  rewrite (stepped_wire _ _ _ S2), (stepped_wire _ _ _ S1), <-fold_left_app in S123. fold (sent_stages m) in S123.
  destruct (data_stage_returns m s3 (stepped_ready _ _ _ S3) Hm) as (s4 & E4 & S4); [by eapply stepped_polled|].
  change (u8 (8 / 8)) with 1. rewrite (bind_Ret _ _ _ _ _ E4). cbn match.
  destruct (cs_stepped cfg (cs_release (parent m)) (negb active) s4 (stepped_ready _ _ _ S4)) as (s5 & E5 & S5).
  rewrite (bind_Ret _ _ _ _ _ (eq_trans (f_equal (fun b : M spi_hw unit =>
    (if cs_release (parent m) && negb (tst (mode cfg) RT_SPI_NO_CS) then on_shw b else ret tt) s4)
    (ltac:(by destruct active) : (if active then SPI_SET_SS_LOW else SPI_SET_SS_HIGH) =
       (if negb active then SPI_SET_SS_HIGH else SPI_SET_SS_LOW))) E5)).
  exists s5. unfold message_wire. fold cfg. cbv zeta. fold active. cbn [fst snd].
  rewrite <-(stepped_wire _ _ _ S123). split; [done|].
  pose proof (stepped_trans _ _ _ _ _ S123 (stepped_trans _ _ _ _ _ S4 S5)) as S.
  by rewrite (stepped_wire _ _ _ S4) in S.
Qed.

Lemma alternate_asserts s m :
  qready s -> data_width (configuration (sbus s)) = 8 -> message_ok m -> ~ no_alternate m ->
  nu_qspi_bus_xfer m s = AssertFail.
Proof.
  intros Hq Hw Hm Ha. unfold nu_qspi_bus_xfer. rewrite bind_gets, Hw. cbv zeta.
  destruct (cs_stepped (configuration (sbus s)) (cs_take (parent m))
    (tst (mode (configuration (sbus s))) RT_SPI_CS_HIGH) s Hq) as (s1 & E1 & S1).
  rewrite (bind_Ret _ _ _ _ _ E1).
  match goal with |- context [bind (if negb (instruction_content m =? 0) then _ else _)
    (fun u => bind _ ?k0)] => destruct (command_returns m k0 s1 (stepped_ready _ _ _ S1) Hm) as (s2 & E2 & S2) end.
  rewrite E2. apply not_false_is_true in Ha. rewrite Ha.
  apply andb_prop in Ha as [Ea1%Z.ltb_lt Ea2%Z.leb_le].
  apply bind_AssertFail. unfold word_stage. by rewrite Z.div_small by lia.
Qed.

(** C25: a message on a QSPI bus of 8-bit words, without PDMA, whatever the pace of
    the controller.  Alternate bytes of 1 to 4 bits - the sizes the code acts on -
    trip its assertion.  Any other message that is [message_ok] goes out as its
    stages: select, instruction, address in big-endian order, dummy bytes on the
    lines of the stage before them, the data on the data lines and in the direction
    of the send buffer, release; the receive buffer gets the device's answers in
    order; the call returns the length, or 1 for a message without data; and the
    bus is ready for the next message. *)
Theorem qspi_xfer_wire s m :
  qready s -> data_width (configuration (sbus s)) = 8 -> message_ok m ->
  polled s (length_ (parent m)) ->
  if (0 <? size (alternate_bytes m)) && (size (alternate_bytes m) <=? 4) then
    nu_qspi_bus_xfer m s = AssertFail
  else exists s',
    let p := message_wire (configuration (sbus s)) m (wire (shw s)) in
    nu_qspi_bus_xfer m s = Ret ((Z.max 1 (length_ (parent m)), snd p), s') /\ stepped s (fst p) s'.
Proof.
  intros Hq Hw Hm Hp. destruct ((0 <? _) && _) eqn:Ea; [|by apply qspi_xfer_returns].
  apply alternate_asserts; [done..|]. unfold no_alternate. by rewrite Ea.
Qed.
End stages.

(** ** Example *)

Definition board_qaddr : QspiAddr := Build_QspiAddr 0x80005000 0x80005100.

(** A quad read of three bytes at column 0x0810. *)
Definition quad_read : rt_qspi_message :=
  mkQMsg (mkMsg None (Some 0x80004000) 3 true true) 0x6b 1 (mkStage 0x810 16 1) (mkStage 0 0 0) 8 4.

Lemma board_bus_ready : qready board_bus.
Proof. by split. Qed.

Lemma quad_read_ok p : message_ok (SH := board_spi p counting) quad_read.
Proof.
  split; cbn.
  - unfold is_u8. lia.
  - left. by left.
  - right. right. left.
  - left. by left.
  - split; [lia|]. by vm_compute.
  - lia.
  - left. by right.
  - right. right. by eexists.
  - done.
  - intros _. left. cbn. lia.
Qed.

Lemma qspi_xfer_wire_witness :
  exists s', nu_qspi_bus_xfer (HW := board_hw) (RH := board_heap) (CBS := board_cbs)
      (SH := board_spi (fun _ => 1%nat) counting) (SE := board_spi_env) (SD := board_spi_dma)
      (QA := board_qaddr) quad_read board_bus = Ret ((3, [5; 6; 7]), s') /\
    wire (shw s') = [WSel false; WWord Single 8 0x6b 1; WWord Single 8 0x08 2; WWord Single 8 0x10 3;
      WWord Single 8 0 4; WWord (Lines4 false) 8 0 5; WWord (Lines4 false) 8 0 6; WWord (Lines4 false) 8 0 7;
      WSel true].
Proof.
  pose proof (@qspi_xfer_wire board_hw board_heap board_cbs (board_spi (fun _ => 1%nat) counting)
    (board_spi_spec (fun _ => 1%nat) counting ltac:(intros; cbn; lia)) board_spi_env board_spi_dma board_qaddr
    board_bus quad_read board_bus_ready eq_refl (quad_read_ok (fun _ => 1%nat))
    ltac:(split; [vm_compute; reflexivity|right; cbn; unfold NU_SPI_USE_PDMA_MIN_THRESHOLD; lia])) as H.
  cbn match in H. destruct H as (s' & E & S). exists s'. split; [rewrite E|rewrite (stepped_wire _ _ _ S)];
    vm_compute; reflexivity.
Defined.
