(* ===== verification/NandBus.v ===== *)
(** * Messages on the SPI-NAND's bus

    The transfer functions of [libraries/nu_packages/SPINAND/drv_spinand.c]:
    [nu_qspi_transfer_message], [nu_qspi_send] and [nu_qspi_send_then_recv], and the
    data of [spinand.h] and [mtd_nand.h].  They run on any bus that offers the two
    operations of [struct rt_spi_ops] ([QspiBus]); what they rely on is the class
    [QspiBusSpec], which the QSPI bus driver of [Qspi] discharges. *)

From Stdlib Require Import ZArith Lia Bool String.
From stdpp Require Import base tactics numbers list option.
From S2P Require Import Prelude BitUtil PdmaRegs Pdma SpiHw SpiOpen Spi SpiPoll SpiXfer Qspi.

Open Scope Z_scope.

(** ** Data *)

Definition RT_MTD_EECC : Z := 101.
Definition RT_MTD_EIO : Z := 103.
Definition RT_TICK_PER_SECOND : Z := 1000.
Definition SPINAND_SPARE_LAYOUT_SIZE : Z := 16.

Record nu_spinand_info : Type := mkInfo {
  u32JEDECID : Z;
  u16PageSize : Z;
  u16OOBSize : Z;
  u8QuadReadCmdId : Z;
  u8ReadStatusCmdId : Z;
  u8WriteStatusCmdid : Z;
  u8StatusValue : Z;
  u8DummyByte : Z;
  u32BlockPerFlash : Z;
  u32PagePerBlock : Z;
  u8IsDieSelect : Z;
  szDescription : string;
  au8DataLayout : list Z;
  au8EccLayout : list Z
}.

(** [ops]: whether the operations are those of [spinand_ops], or none yet. *)
Record rt_mtd_nand_device : Type := mkMtd {
  page_size : Z;
  oob_size : Z;
  oob_free : Z;
  plane_num : Z;
  pages_per_block : Z;
  block_total : Z;
  block_start : Z;
  block_end : Z;
  mtd_ops : bool
}.

(** [g_spinandflash_dev], the layouts, the partitions and the flag of [spinand.c] and
    [drv_spinand.c], with the parts of the bus device they use: [bus] is the bus
    driver's state, [bus_lock] and [flash_lock] how often this thread holds the two
    mutexes, [bus_owner] whether the bus is configured for this device, [qspi_device]
    whether the device pointer is set, [ops] whether the operations are those of
    [spinand_ops_wb], and [tick_reads] how often the tick was read. *)
Record nand (B : Type) : Type := mkNand {
  bus : B;
  bus_lock : Z;
  bus_owner : bool;
  rt_errno : Z;
  tick_reads : nat;
  qspi_device : bool;
  dev_config : rt_spi_configuration;
  flash_info : nu_spinand_info;
  ops : bool;
  flash_lock : Z;
  spinand_flash_data_layout : list Z;
  spinand_flash_ecc_layout : list Z;
  mtd_partitions : list rt_mtd_nand_device;
  u32IsInited : bool
}.
Arguments mkNand {B}.
Arguments bus {B}. Arguments bus_lock {B}. Arguments bus_owner {B}. Arguments rt_errno {B}.
Arguments tick_reads {B}. Arguments qspi_device {B}. Arguments dev_config {B}. Arguments flash_info {B}.
Arguments ops {B}. Arguments flash_lock {B}. Arguments spinand_flash_data_layout {B}.
Arguments spinand_flash_ecc_layout {B}. Arguments mtd_partitions {B}. Arguments u32IsInited {B}.

Section setters.
Context {B : Type}.
Implicit Types s : nand B.
Definition set_nbus (v : B) s : nand B := mkNand v (bus_lock s) (bus_owner s) (rt_errno s) (tick_reads s)
  (qspi_device s) (dev_config s) (flash_info s) (ops s) (flash_lock s) (spinand_flash_data_layout s)
  (spinand_flash_ecc_layout s) (mtd_partitions s) (u32IsInited s).
Definition set_bus_lock (v : Z) s : nand B := mkNand (bus s) v (bus_owner s) (rt_errno s) (tick_reads s)
  (qspi_device s) (dev_config s) (flash_info s) (ops s) (flash_lock s) (spinand_flash_data_layout s)
  (spinand_flash_ecc_layout s) (mtd_partitions s) (u32IsInited s).
Definition set_bus_owner (v : bool) s : nand B := mkNand (bus s) (bus_lock s) v (rt_errno s) (tick_reads s)
  (qspi_device s) (dev_config s) (flash_info s) (ops s) (flash_lock s) (spinand_flash_data_layout s)
  (spinand_flash_ecc_layout s) (mtd_partitions s) (u32IsInited s).
Definition set_errno (v : Z) s : nand B := mkNand (bus s) (bus_lock s) (bus_owner s) v (tick_reads s)
  (qspi_device s) (dev_config s) (flash_info s) (ops s) (flash_lock s) (spinand_flash_data_layout s)
  (spinand_flash_ecc_layout s) (mtd_partitions s) (u32IsInited s).
Definition set_tick_reads (v : nat) s : nand B := mkNand (bus s) (bus_lock s) (bus_owner s) (rt_errno s) v
  (qspi_device s) (dev_config s) (flash_info s) (ops s) (flash_lock s) (spinand_flash_data_layout s)
  (spinand_flash_ecc_layout s) (mtd_partitions s) (u32IsInited s).
Definition set_qspi_device (c : rt_spi_configuration) s : nand B := mkNand (bus s) (bus_lock s) (bus_owner s)
  (rt_errno s) (tick_reads s) true c (flash_info s) (ops s) (flash_lock s) (spinand_flash_data_layout s)
  (spinand_flash_ecc_layout s) (mtd_partitions s) (u32IsInited s).
Definition set_flash (i : nu_spinand_info) (o : bool) (dl el : list Z) s : nand B := mkNand (bus s) (bus_lock s)
  (bus_owner s) (rt_errno s) (tick_reads s) (qspi_device s) (dev_config s) i o (flash_lock s) dl el
  (mtd_partitions s) (u32IsInited s).
Definition set_flash_lock (v : Z) s : nand B := mkNand (bus s) (bus_lock s) (bus_owner s) (rt_errno s)
  (tick_reads s) (qspi_device s) (dev_config s) (flash_info s) (ops s) v (spinand_flash_data_layout s)
  (spinand_flash_ecc_layout s) (mtd_partitions s) (u32IsInited s).
Definition set_partitions (v : list rt_mtd_nand_device) (i : bool) s : nand B := mkNand (bus s) (bus_lock s)
  (bus_owner s) (rt_errno s) (tick_reads s) (qspi_device s) (dev_config s) (flash_info s) (ops s) (flash_lock s)
  (spinand_flash_data_layout s) (spinand_flash_ecc_layout s) v i.
End setters.

(** Two states given by setters. *)
Ltac nand_cbv :=
  cbv beta iota delta [ret set_nbus set_bus_lock set_bus_owner set_errno set_tick_reads set_qspi_device
    set_flash set_flash_lock set_partitions bus bus_lock bus_owner rt_errno tick_reads qspi_device
    dev_config flash_info ops flash_lock spinand_flash_data_layout spinand_flash_ecc_layout
    mtd_partitions u32IsInited].
Ltac nand_eq := nand_cbv; repeat f_equal; rewrite ?Z.add_simpl_r; try done.

(** ** Interfaces *)

(** [struct rt_spi_ops]: the operations of the bus the device hangs on; a transfer
    also gives the bytes it stored in the receive buffer. *)
Class QspiBus (B : Type) : Type := {
  ops_configure : rt_spi_configuration -> M B Z;
  ops_xfer : rt_qspi_message -> M B (Z * list Z)
}.

(** The kernel's side: the tick at the [n]-th read, the results of taking the two
    mutexes, and the addresses of the local buffers. *)
Class NandEnv (B : Type) : Type := {
  tick_at : nat -> Z;
  busy_fuel : nat;
  bus_take : nand B -> Z;
  flash_take : nand B -> Z;
  cmd_addr : Z;
  recv_addr : Z
}.

(** A bus that carries messages: [bus_ready] for 8-bit words in a configuration; the
    messages of [bus_takes] - short ones at least, and longer ones as far as the
    driver behind it goes - put their wire on the bus. *)
Class QspiBusSpec (B : Type) `{QB : QspiBus B} `{SH : SpiHw} : Type := {
  bus_ready : rt_spi_configuration -> B -> Prop;
  bus_takes : rt_qspi_message -> Prop;
  bus_wire : B -> list wire_ev;
  takes_short : forall m, message_ok m -> no_alternate m -> length_ (parent m) <= 4 -> bus_takes m;
  ops_xfer_wire : forall cfg b m, bus_ready cfg b -> bus_takes m ->
    exists b', let p := message_wire cfg m (bus_wire b) in
      ops_xfer m b = Ret ((Z.max 1 (length_ (parent m)), snd p), b') /\
      bus_ready cfg b' /\ bus_wire b' = fst p
}.

(** ** The transfer functions *)

Section bus.
Context {B : Type} `{QB : QspiBus B} `{NE : NandEnv B}.

Definition on_bus {A} (m : M B A) : M (nand B) A := fun s =>
  match m (bus s) with
  | Ret (a, b) => Ret (a, set_nbus b s)
  | AssertFail => AssertFail
  | Undef => Undef
  | OutOfFuel => OutOfFuel
  end.

Definition rt_set_errno (v : Z) : M (nand B) unit := modify (set_errno v).

Definition bus_mutex_take : M (nand B) Z :=
  let! s := get in
  if bus_take s =? RT_EOK then modify (fun s => set_bus_lock (bus_lock s + 1) s) ;; ret RT_EOK
  else ret (bus_take s).
Definition bus_mutex_release : M (nand B) unit := modify (fun s => set_bus_lock (bus_lock s - 1) s).

(** The [while (index)] loop over the chain of messages, with what each received. *)
Fixpoint transmit (ms : list rt_qspi_message) (got : list (list Z)) : M (nand B) (Z * list (list Z)) :=
  match ms with
  | [] => ret (RT_EOK, got)
  | m :: ms =>
      let! '(n, bs) := on_bus (ops_xfer m) in
      if n =? 0 then rt_set_errno (- RT_EIO) ;; ret (- RT_EIO, got ++ [bs])
      else transmit ms (got ++ [bs])
  end.

Definition nu_qspi_transfer_message (message : list rt_qspi_message) : M (nand B) (Z * list (list Z)) :=
  let! device := gets qspi_device in
  rt_assert device ;;
  let! result := bus_mutex_take in
  if negb (result =? RT_EOK) then rt_set_errno (- RT_EBUSY) ;; ret (0, []) else
  rt_set_errno RT_EOK ;;
  let! owner := gets bus_owner in
  let! result :=
    if owner then ret RT_EOK else
    let! cfg := gets dev_config in
    let! result := on_bus (ops_configure cfg) in
    (if result =? RT_EOK then modify (set_bus_owner true) else rt_set_errno (- RT_EIO)) ;;
    ret result in
  let! r := if negb (result =? RT_EOK) then ret (result, []) else transmit message [] in
  bus_mutex_release ;;
  ret r.

Definition no_stage : stage := mkStage 0 0 0.

(** The two messages of [nu_qspi_send_then_recv]. *)
Definition command_message (send_buf : list Z) : rt_qspi_message :=
  mkQMsg (mkMsg (Some (mkBuf cmd_addr send_buf)) None (Z.of_nat (length send_buf)) true false)
    0 0 no_stage no_stage 0 1.
Definition reply_message (recv_buf recv_length : Z) : rt_qspi_message :=
  mkQMsg (mkMsg None (Some recv_buf) recv_length false true) 0 0 no_stage no_stage 0 1.

(** The result and what the receive buffer got. *)
Definition nu_qspi_send_then_recv (send_buf : list Z) (recv_buf recv_length : Z) : M (nand B) (Z * list Z) :=
  rt_assert (negb (recv_buf =? 0)) ;;
  rt_assert (negb (Z.of_nat (length send_buf) =? 0)) ;;
  let! '(result, got) := nu_qspi_transfer_message [command_message send_buf; reply_message recv_buf recv_length] in
  ret (result, default [] (got !! 1%nat)).

Definition send_message (c : Z) (rest : list Z) : rt_qspi_message :=
  mkQMsg (mkMsg (Some (mkBuf (cmd_addr + 1) rest)) None (Z.of_nat (length rest)) true true)
    c 1 no_stage no_stage 0 1.

Definition nu_qspi_send (send_buf : list Z) : M (nand B) Z :=
  match send_buf with
  | [] => fail_assert
  | c :: rest =>
      let! '(result, _got) := nu_qspi_transfer_message [send_message c rest] in ret result
  end.
End bus.

(** ** What the transfer function does on any bus *)

Section transfer.
Context {B : Type} `{QB : QspiBus B} `{NE : NandEnv B}.

(** The messages transferred one after the other, up to the first the bus reports as
    failed: what each received, and whether all went through. *)
Inductive carried : list rt_qspi_message -> B -> list (list Z) -> B -> bool -> Prop :=
| carried_all b : carried [] b [] b true
| carried_failed m ms b bs b' : ops_xfer m b = Ret ((0, bs), b') -> carried (m :: ms) b [bs] b' false
| carried_next m ms b n bs b1 got b2 ok :
    ops_xfer m b = Ret ((n, bs), b1) -> n <> 0 -> carried ms b1 got b2 ok ->
    carried (m :: ms) b (bs :: got) b2 ok.

Lemma on_bus_eq {A} (m : M B A) s a b : m (bus s) = Ret (a, b) -> on_bus m s = Ret (a, set_nbus b s).
Proof. intros E. unfold on_bus. by rewrite E. Qed.

Definition settle (b : B) (ok : bool) (s : nand B) : nand B :=
  if ok then set_nbus b s else set_errno (- RT_EIO) (set_nbus b s).

Lemma transmit_carried ms b got b' ok :
  carried ms b got b' ok -> forall s acc, bus s = b ->
  transmit ms acc s = Ret ((if ok then RT_EOK else - RT_EIO, acc ++ got), settle b' ok s).
Proof.
  induction 1 as [b|m ms b bs b' E|m ms b n bs b1 got b2 ok E Hn H IH]; intros s acc Hb.
  - cbn. rewrite app_nil_r, <-Hb. by destruct s.
  - cbn [transmit]. rewrite (bind_Ret _ _ _ _ _ (on_bus_eq _ s _ _ ltac:(by rewrite Hb))). done.
  - cbn [transmit]. rewrite (bind_Ret _ _ _ _ _ (on_bus_eq _ s _ _ ltac:(by rewrite Hb))).
    destruct (Z.eqb_spec n 0); [done|]. rewrite (IH (set_nbus b1 s) _ eq_refl), <-app_assoc. by destruct ok.
Qed.

Lemma locked_transmit s got ms b' ok :
  carried ms (bus s) got b' ok ->
  (let! r := transmit ms [] in bus_mutex_release ;; ret r) s =
    Ret ((if ok then RT_EOK else - RT_EIO, got), set_bus_lock (bus_lock s - 1) (settle b' ok s)).
Proof.
  intros H. rewrite (bind_Ret _ _ _ _ _ (transmit_carried _ _ _ _ _ H s [] eq_refl)).
  unfold bus_mutex_release. rewrite bind_modify. by destruct ok.
Qed.

Lemma bus_take_eq s :
  bus_mutex_take s = if bus_take s =? RT_EOK then Ret (RT_EOK, set_bus_lock (bus_lock s + 1) s)
                     else Ret (bus_take s, s).
Proof. unfold bus_mutex_take. rewrite bind_get. by destruct (_ =? _). Qed.

(** The lock taken, the error number reset. *)
Definition entered (s : nand B) : nand B := set_errno RT_EOK (set_bus_lock (bus_lock s + 1) s).

Lemma transfer_granted s ms :
  qspi_device s = true -> bus_take s = RT_EOK ->
  nu_qspi_transfer_message ms s =
  (let! result :=
     if bus_owner s then ret RT_EOK else
     let! result := on_bus (ops_configure (dev_config s)) in
     (if result =? RT_EOK then modify (set_bus_owner true) else rt_set_errno (- RT_EIO)) ;;
     ret result in
   let! r := if negb (result =? RT_EOK) then ret (result, []) else transmit ms [] in
   bus_mutex_release ;; ret r) (entered s).
Proof.
  intros Hd Ht. unfold nu_qspi_transfer_message. rewrite bind_gets, Hd, bind_assert by done.
  pose proof (bus_take_eq s) as E. rewrite Ht in E. cbn [Z.eqb RT_EOK] in E.
  rewrite (bind_Ret _ _ _ _ _ E). cbn [negb Z.eqb RT_EOK]. unfold rt_set_errno at 1.
  rewrite bind_modify, bind_gets. cbn [bus_owner set_errno set_bus_lock]. by destruct (bus_owner s).
Qed.

(** [nu_qspi_transfer_message] on any bus.  Without a device it asserts.  When
    the bus lock is refused it sets the error number to -RT_EBUSY, touches nothing
    else and yet returns 0, the value of success.  Otherwise it has the lock: the bus
    is configured for the device unless it already is; a refused configuration is
    returned and reported as -RT_EIO, with nothing sent; then the messages go out in
    order up to the first that fails, which gives -RT_EIO, and all of them give
    RT_EOK; and on each of these ways the lock is given back. *)
Theorem transfer_message_spec (s : nand B) ms :
  (qspi_device s = false -> nu_qspi_transfer_message ms s = AssertFail) /\
  (qspi_device s = true -> bus_take s <> RT_EOK ->
     nu_qspi_transfer_message ms s = Ret ((0, []), set_errno (- RT_EBUSY) s)) /\
  (forall r b, qspi_device s = true -> bus_take s = RT_EOK -> bus_owner s = false ->
     ops_configure (dev_config s) (bus s) = Ret (r, b) -> r <> RT_EOK ->
     nu_qspi_transfer_message ms s = Ret ((r, []), set_errno (- RT_EIO) (set_nbus b s))) /\
  (forall b got b' ok, qspi_device s = true -> bus_take s = RT_EOK ->
     (if bus_owner s then b = bus s
      else ops_configure (dev_config s) (bus s) = Ret (RT_EOK, b)) ->
     carried ms b got b' ok ->
     nu_qspi_transfer_message ms s =
       Ret ((if ok then RT_EOK else - RT_EIO, got),
            set_errno (if ok then RT_EOK else - RT_EIO) (set_bus_owner true (set_nbus b' s)))).
Proof.
  split_and!.
  - intros Hd. unfold nu_qspi_transfer_message. by rewrite bind_gets, Hd.
  - intros Hd Ht. unfold nu_qspi_transfer_message. rewrite bind_gets, Hd, bind_assert by done.
    pose proof (bus_take_eq s) as E. destruct (Z.eqb_spec (bus_take s) RT_EOK); [done|].
    rewrite (bind_Ret _ _ _ _ _ E). by destruct (Z.eqb_spec (bus_take s) RT_EOK).
  - intros r b Hd Ht Ho Ec Hr. rewrite transfer_granted, Ho by done.
    rewrite bind_assoc, (bind_Ret _ _ _ _ _ (on_bus_eq _ (entered s) r b Ec)).
    destruct (Z.eqb_spec r RT_EOK) as [|Er]; [done|]. unfold rt_set_errno. rewrite bind_assoc, bind_modify, bind_ret_l.
    destruct (Z.eqb_spec r RT_EOK); [done|]. cbn [negb]. unfold bus_mutex_release, entered.
    rewrite bind_ret_l, bind_modify. destruct s; nand_eq.
  - intros b got b' ok Hd Ht Hc Hm. rewrite transfer_granted by done.
    destruct (bus_owner s) eqn:Ho.
    + subst b. rewrite bind_ret_l. cbn match. rewrite (locked_transmit _ got ms b' ok) by done.
      unfold settle, entered. clear Hm Hd Ht. destruct s, ok; cbn in Ho; subst; nand_eq.
    + rewrite bind_assoc, (bind_Ret _ _ _ _ _ (on_bus_eq _ (entered s) RT_EOK b Hc)).
      change (RT_EOK =? RT_EOK) with true. cbn match. rewrite bind_assoc, bind_modify, bind_ret_l. cbn match.
      rewrite (locked_transmit _ got ms b' ok) by done. unfold settle, entered. clear. destruct s, ok; nand_eq.
Qed.
End transfer.
