(* ===== verification/NandPort.v ===== *)
(** * The SPI-NAND on its bus

    The QSPI bus driver is a bus in the sense of [NandBus]; on such a bus the two
    transfer helpers of [drv_spinand.c] put a command on the wire, or a command and
    its reply.  The lemmas here are what the properties of the flash driver use. *)

From Stdlib Require Import ZArith Lia Bool String.
From stdpp Require Import base tactics numbers list option.
From S2P Require Import Prelude BitUtil PdmaRegs Pdma PdmaFacts SpiHw SpiOpen Spi SpiPoll SpiXfer Qspi NandBus.

Open Scope Z_scope.

(** ** The QSPI driver as a bus *)

Section port.
Context `{HW : PdmaHw} `{RH : RtHeap} `{CBS : Callbacks} `{SH : SpiHw} `{HS : !SpiHwSpec}
  `{SE : SpiEnv} `{SD : SpiDma} `{QA : QspiAddr}.

#[export] Instance nu_qspi_ops : QspiBus spi_st :=
  {| ops_configure := nu_qspi_bus_configure; ops_xfer := nu_qspi_bus_xfer |}.

(** Without PDMA channels every message is polled. *)
Record polled_ready (cfg : rt_spi_configuration) (s : spi_st) : Prop := {
  polled_qready : qready s;
  polled_cfg : configuration (sbus s) = cfg;
  polled_width : data_width cfg = 8;
  polled_only : pdma_chanid_rx (sbus s) < 0
}.

Lemma polled_xfer cfg s m :
  polled_ready cfg s -> message_ok m /\ no_alternate m ->
  exists s', let p := message_wire cfg m (wire (shw s)) in
    nu_qspi_bus_xfer m s = Ret ((Z.max 1 (length_ (parent m)), snd p), s') /\
    polled_ready cfg s' /\ wire (shw s') = fst p.
Proof.
  intros [Q C W P] [Hm Ha].
  destruct (qspi_xfer_returns s m Q ltac:(by rewrite C) Hm Ha) as (s' & E & [Q' W' B' D']);
    [split; [apply Q|by left]|].
  rewrite C in E, W'. exists s'. split; [done|]. split; [|done].
  split; [done|rewrite (same_bus_configuration _ _ B'); done|done|].
  unfold same_bus in B'. apply (f_equal pdma_chanid_rx) in B'. cbn in B'. by rewrite B'.
Qed.

#[export] Instance nu_qspi_spec : QspiBusSpec spi_st.
Proof.
  refine {| bus_ready := polled_ready; bus_takes m := message_ok m /\ no_alternate m;
            bus_wire s := wire (shw s) |}.
  - by intros m Hm Ha _.
  - intros cfg b m Hb Hm. by apply polled_xfer.
Defined.
End port.

(** ** Commands on the wire *)

(** What [rt_hw_mtd_spinand_register] configures the device for. *)
Definition nand_config : rt_spi_configuration :=
  mkSpiCfg (Z.lor RT_SPI_MODE_0 RT_SPI_MSB) 8 0 48000000.

Section wires.
Context `{SH : SpiHw}.

Definition select (wr : list wire_ev) : list wire_ev := wr ++ [WSel false].
Definition release (wr : list wire_ev) : list wire_ev := wr ++ [WSel true].

(** Bytes sent on one line, or on four. *)
Definition put (out : list Z) (wr : list wire_ev) : list wire_ev := fst (clock Single 8 out wr).
Definition put4 (out : list Z) (wr : list wire_ev) : list wire_ev := fst (clock (Lines4 true) 8 out wr).

(** A command, and a command with its reply of [n] bytes. *)
Definition command (out : list Z) (wr : list wire_ev) : list wire_ev := release (put out (select wr)).
Definition query (out : list Z) (n : nat) (wr : list wire_ev) : list wire_ev * list Z :=
  let p := clock Single 8 (replicate n 0) (put out (select wr)) in (release (fst p), snd p).

(** A read of the cache on four lines, after the address and the dummy bytes. *)
Definition quad_query (out : list Z) (n : nat) (wr : list wire_ev) : list wire_ev * list Z :=
  let p := clock (Lines4 false) 8 (replicate n 0) (put out (select wr)) in (release (fst p), snd p).

Lemma put_app a b wr : put (a ++ b) wr = put b (put a wr).
Proof. unfold put. by rewrite clock_app. Qed.

Lemma put_nil wr : put [] wr = wr.
Proof. done. Qed.

Fixpoint messages_wire (ms : list rt_qspi_message) (wr : list wire_ev) : list wire_ev * list (list Z) :=
  match ms with
  | [] => (wr, [])
  | m :: ms =>
      let p := message_wire nand_config m wr in
      let q := messages_wire ms (fst p) in (fst q, snd p :: snd q)
  end.

Lemma cs_take_events wr (flag : bool) :
  wr ++ cs_events nand_config flag None (tst (mode nand_config) RT_SPI_CS_HIGH) = if flag then select wr else wr.
Proof. unfold cs_events, select. destruct flag; [done|]. cbn. by rewrite app_nil_r. Qed.

Lemma cs_release_events wr (flag : bool) :
  wr ++ cs_events nand_config flag None (negb (tst (mode nand_config) RT_SPI_CS_HIGH)) = if flag then release wr else wr.
Proof. unfold cs_events, release. destruct flag; [done|]. cbn. by rewrite app_nil_r. Qed.

(** The wire of a message of the flash: a command byte, perhaps a 16-bit column and
    dummy bytes, all on one line, then the data. *)
Lemma message_wire_nand m wr :
  instruction_content m <> 0 -> instruction_lines m = 1 ->
  address m = mkStage (content (address m)) 16 1 -> 0 <= dummy_cycles m ->
  message_wire nand_config m wr =
  let wr1 := put (instruction_content m :: be_address 2 (content (address m)) ++
                    replicate (Z.to_nat (dummy_cycles m / 8)) 0)
               (if cs_take (parent m) then select wr else wr) in
  let p := clock (data_mode m) 8 (data_words (parent m)) wr1 in
  (if cs_release (parent m) then release (fst p) else fst p,
   match recv_buf (parent m) with Some _ => snd p | None => [] end).
Proof.
  intros Hi Hl Ha Hd. unfold message_wire. rewrite cs_take_events, cs_release_events. cbv zeta.
  assert (Hs : forall wr0, fold_left stage_wire (sent_stages m) wr0 =
      put (instruction_content m :: be_address 2 (content (address m)) ++
           replicate (Z.to_nat (dummy_cycles m / 8)) 0) wr0).
  { intros wr0. unfold sent_stages, command_stages, last_lines, dummy_bytes, last_lines. rewrite Ha. cbn [size qspi_lines content].
    destruct (Z.eqb_spec (instruction_content m) 0); [done|]. rewrite Hl. change (16 =? 0) with false.
    change (Z.to_nat (16 / 8)) with 2%nat. change (8 / 1) with 8. cbn match. rewrite fold_left_app.
    change (instruction_content m :: be_address 2 (content (address m)) ++ replicate (Z.to_nat (dummy_cycles m / 8)) 0)
      with ([instruction_content m] ++ be_address 2 (content (address m)) ++ replicate (Z.to_nat (dummy_cycles m / 8)) 0).
    rewrite !put_app. cbn [app fold_left]. unfold stage_wire at 2 3. cbn [fst snd].
    destruct (Z.eqb_spec (dummy_cycles m) 0) as [->|]; done. }
  rewrite Hs. destruct (Z.eqb_spec (length_ (parent m)) 0) as [E|]; [|done].
  unfold data_words. rewrite E. by destruct (send_buf (parent m)).
Qed.
End wires.

(** ** Running commands *)

(** The two locks are granted whenever they are asked for. *)
Class NandGranted (B : Type) `{NE : NandEnv B} : Prop := {
  bus_granted : forall s, bus_take s = RT_EOK;
  flash_granted : forall s, flash_take s = RT_EOK;
  recv_addr_nonzero : recv_addr <> 0
}.

Section run.
Context {B : Type} `{QS : QspiBusSpec B} `{NG : NandGranted B}.
(** The device on its bus, registered and the owner. *)
Record nready (s : nand B) : Prop := {
  nready_bus : bus_ready nand_config (bus s);
  nready_owner : bus_owner s = true;
  nready_device : qspi_device s = true;
  nready_config : dev_config s = nand_config
}.

(** Everything the commands leave alone. *)
Definition frame (s : nand B) :=
  (bus_lock s, flash_info s, ops s, flash_lock s, spinand_flash_data_layout s, spinand_flash_ecc_layout s,
   mtd_partitions s, u32IsInited s).

(** After [wr] on the wire and [n] more reads of the tick. *)
Record moved (s : nand B) (wr : list wire_ev) (n : nat) (s' : nand B) : Prop := {
  moved_ready : nready s';
  moved_wire : bus_wire (bus s') = wr;
  moved_ticks : tick_reads s' = (n + tick_reads s)%nat;
  moved_frame : frame s' = frame s
}.

Lemma moved_refl s : nready s -> moved s (bus_wire (bus s)) 0 s.
Proof. by split. Qed.

Lemma moved_trans s1 w1 n1 s2 w2 n2 s3 :
  moved s1 w1 n1 s2 -> moved s2 w2 n2 s3 -> moved s1 w2 (n2 + n1) s3.
Proof. intros [R1 W1 T1 F1] [R2 W2 T2 F2]. split; [done|done|lia|congruence]. Qed.

Lemma bus_carries ms b :
  bus_ready nand_config b -> Forall bus_takes ms ->
  exists b', carried ms b (snd (messages_wire ms (bus_wire b))) b' true /\
    bus_ready nand_config b' /\ bus_wire b' = fst (messages_wire ms (bus_wire b)).
Proof.
  intros Hb Hm. revert b Hb. induction Hm as [|m ms Hm _ IH]; intros b Hb; [by exists b; split; [constructor|]|].
  destruct (ops_xfer_wire nand_config b m Hb Hm) as (b1 & E & Hb1 & W1).
  destruct (IH b1 Hb1) as (b2 & C & Hb2 & W2). rewrite W1 in C, W2. exists b2.
  split; [|done]. cbn [messages_wire snd fst]. eapply carried_next; [exact E|lia|exact C].
Qed.

Lemma transfer_returns s ms :
  nready s -> Forall bus_takes ms ->
  exists s', let p := messages_wire ms (bus_wire (bus s)) in
    nu_qspi_transfer_message ms s = Ret ((RT_EOK, snd p), s') /\ moved s (fst p) 0 s'.
Proof.
  intros [Hb Ho Hd Hc] Hm. destruct (bus_carries ms (bus s) Hb Hm) as (b' & C & Hb' & W').
  rewrite transfer_granted, Ho, bind_ret_l by (first [done|apply bus_granted]). change (RT_EOK =? RT_EOK) with true. cbn match.
  cbn [negb]. rewrite (locked_transmit (entered s) _ _ _ _ C). eexists. split; [reflexivity|].
  split; [split; try done|done|done|]. unfold frame. cbn. by rewrite Z.add_simpl_r.
Qed.

Context (Hrx : (4 <= rx_depth)%nat).

Lemma replicate_ok_recv n : (n <= 4)%nat -> lossless n.
Proof. intros Hn. left. lia. Qed.

Lemma send_message_ok c rest :
  is_u8 c -> Forall is_u8 rest -> message_ok (send_message c rest).
Proof.
  intros Hc Hr. split; cbn; try done; try lia; try (by left); try (by right); try (by left; left).
  - right. left. by eexists.
  - intros b [= <-] _. split; [done|]. cbn. lia.
Qed.

Lemma send_returns s c rest :
  nready s -> is_u8 c -> c <> 0 -> Forall is_u8 rest -> (length rest <= 4)%nat ->
  exists s', nu_qspi_send (c :: rest) s = Ret (RT_EOK, s') /\
    moved s (command (c :: rest) (bus_wire (bus s))) 0 s'.
Proof.
  intros Hs Hc H0 Hr Hl. destruct (transfer_returns s [send_message c rest] Hs) as (s' & E & Hm).
  { constructor; [|constructor]. apply takes_short; [by apply send_message_ok|done|cbn; lia]. }
  exists s'. unfold nu_qspi_send. rewrite (bind_Ret _ _ _ _ _ E). split; [done|].
  cbn [messages_wire fst snd] in Hm. revert Hm. unfold message_wire. rewrite cs_take_events, cs_release_events.
  unfold sent_stages, command_stages. cbn [instruction_content send_message].
  destruct (Z.eqb_spec c 0); [done|]. cbn [address no_stage size fold_left app dummy_cycles instruction_lines].
  change (0 =? 0) with true. cbn [app fold_left parent length_ cs_take cs_release fst]. unfold command.
  rewrite (put_app [c] rest). change (stage_wire (select ?w) (1, [c])) with (put [c] (select w)).
  unfold data_words. cbn [send_message send_buf buf_bytes length_ parent]. rewrite Nat2Z.id, take_ge by lia.
  change (data_mode (send_message c rest)) with Single. destruct rest; cbn [length Z.of_nat]; done.
Qed.

Lemma command_message_ok out : Forall is_u8 out -> message_ok (command_message out).
Proof.
  intros Ho. split; cbn; try done; try lia; try (by left); try (by right); try (by left; left).
  - right. left. by eexists.
  - intros b [= <-] _. split; [done|]. cbn. lia.
Qed.

Lemma reply_message_ok a n : (n <= 4)%nat -> message_ok (reply_message a (Z.of_nat n)).
Proof.
  intros Hn. split; cbn; try done; try lia; try (by left); try (by right); try (by left; left).
  - right. right. by eexists.
  - rewrite Nat2Z.id. intros _. left. lia.
Qed.

Lemma send_then_recv_returns s out n :
  nready s -> Forall is_u8 out -> (0 < length out <= 4)%nat -> (0 < n <= 4)%nat ->
  exists s', let p := query out n (bus_wire (bus s)) in
    nu_qspi_send_then_recv out recv_addr (Z.of_nat n) s = Ret ((RT_EOK, snd p), s') /\
    moved s (fst p) 0 s'.
Proof.
  intros Hs Ho Hl Hn. unfold nu_qspi_send_then_recv.
  rewrite bind_assert by (pose proof recv_addr_nonzero; destruct (Z.eqb_spec recv_addr 0); done).
  rewrite bind_assert by (destruct (Z.eqb_spec (Z.of_nat (length out)) 0); [lia|done]).
  destruct (transfer_returns s [command_message out; reply_message recv_addr (Z.of_nat n)] Hs) as (s' & E & Hm).
  { constructor; [|constructor; [|constructor]].
    - apply takes_short; [by apply command_message_ok|done|cbn; lia].
    - apply takes_short; [apply reply_message_ok; lia|done|cbn; lia]. }
  exists s'. rewrite (bind_Ret _ _ _ _ _ E). revert Hm. unfold query. cbv zeta.
  cbn [messages_wire fst snd]. unfold message_wire. rewrite !cs_take_events, !cs_release_events.
  cbn [parent command_message reply_message length_ cs_take cs_release recv_buf].
  destruct (Z.eqb_spec (Z.of_nat (length out)) 0); [lia|]. destruct (Z.eqb_spec (Z.of_nat n) 0); [lia|].
  unfold data_words. cbn [command_message reply_message send_buf buf_bytes length_ parent]. rewrite !Nat2Z.id, take_ge by lia.
  intros Hm. split; [reflexivity|exact Hm].
Qed.
End run.
