(* ===== verification/Spinand.v ===== *)
(** * The SPI-NAND commands

    [libraries/nu_packages/SPINAND/spinand.c]: the supported chips, the commands, the
    wait for the chip, the status registers, and the initialisation.  A command takes
    the device it is given; every caller gives it the one device of
    [g_spinandflash_dev], so the device is part of the state. *)

From Stdlib Require Import ZArith Lia Bool String.
From stdpp Require Import base tactics numbers list option.
From S2P Require Import Prelude BitUtil PdmaRegs Pdma SpiHw Spi Qspi NandBus.

Open Scope Z_scope.

Definition BUSY_CKECKING_TIMEOUT_MS : Z := 3000.
Definition SPINAND_DIE_ID0 : Z := 0.
Definition SPINAND_DIE_ID1 : Z := 1.

(** An initialiser of a layout of 16 bytes: the rest is zero. *)
Definition layout (bs : list Z) : list Z :=
  bs ++ replicate (Z.to_nat SPINAND_SPARE_LAYOUT_SIZE - length bs) 0.

(** Without the UFFS file system. *)
Definition g_spinandflash_list : list nu_spinand_info :=
  [mkInfo 0xEFAA21 2048 64 0x6b 0xff 0xff 0xff 0x1 1024 64 0 "Winbond 128MB: 2048+64@64@1024"
     (layout [0x04; 0x04; 0x14; 0x04; 0x24; 0x04; 0x34; 0x04; 0xFF; 0x00])
     (layout [0x08; 0x08; 0x18; 0x08; 0x28; 0x08; 0x38; 0x08; 0xFF; 0x00]);
   mkInfo 0xEFBF22 2048 64 0x6b 0xff 0xff 0xff 0x1 2048 64 0 "Winbond 256MB: 2048+64@64@2048"
     (layout [0x08; 0x04; 0x18; 0x04; 0x28; 0x04; 0x38; 0x04; 0xFF; 0x00])
     (layout [0x0C; 0x04; 0x1C; 0x04; 0x2C; 0x04; 0x3C; 0x04; 0xFF; 0x00]);
   mkInfo 0xEFBA23 2048 64 0x6b 0x05 0x01 0x02 0x1 4096 64 0 "Winbond 512MB: 2048+128@64@4096"
     (layout [0x04; 0x0C; 0x14; 0x0C; 0x24; 0x0C; 0x34; 0x0C; 0xFF; 0x00])
     (layout [0x40; 0x40; 0xFF; 0x00])].

Definition spinand_supported_flash_size : Z := Z.of_nat (length g_spinandflash_list).
Definition spinand_info_get (idx : Z) : option nu_spinand_info :=
  if idx <? 0 then None else g_spinandflash_list !! Z.to_nat idx.

(** [rt_tick_from_millisecond] of [clock.c]. *)
Definition rt_tick_from_millisecond (ms : Z) : Z :=
  if ms <? 0 then 0xffffffff
  else u32 (u32 (RT_TICK_PER_SECOND * (ms / 1000)) + u32 (RT_TICK_PER_SECOND * (ms mod 1000) + 999) / 1000).

Section spinand.
Context {B : Type} `{QB : QspiBus B} `{NE : NandEnv B}.

Definition rt_tick_get : M (nand B) Z :=
  let! n := gets tick_reads in
  modify (set_tick_reads (S n)) ;;
  ret (tick_at n).

Definition spinand_die_select (select_die : Z) : M (nand B) Z :=
  nu_qspi_send [0xC2; select_die].

(** The bytes received into a variable: it keeps its value if none came. *)
Definition into (old : Z) (got : list Z) : Z := default old (head got).

Fixpoint busy_loop (fuel : nat) (u32CheckingDuration u32Start SR : Z) : M (nand B) Z :=
  match fuel with
  | O => out_of_fuel
  | S fuel =>
      let! '(result, got) := nu_qspi_send_then_recv [0x0F; 0xC0] recv_addr 1 in
      if negb (result =? RT_EOK) then ret 1 else
      let SR := into SR got in
      let! now := rt_tick_get in
      if u32CheckingDuration <=? u32 (now - u32Start) then ret 1 else
      if negb (Z.land SR 0x1 =? 0) then busy_loop fuel u32CheckingDuration u32Start SR else ret 0
  end.

Definition spinand_isbusy : M (nand B) Z :=
  let! u32Start := rt_tick_get in
  busy_loop busy_fuel (rt_tick_from_millisecond BUSY_CKECKING_TIMEOUT_MS) u32Start 0xFF.

(** The messages of [spinand_program_dataload] and [spinand_read_quadoutput]. *)
Definition column_stage (u8AddrH u8AddrL : Z) : stage :=
  mkStage (Z.lor (Z.shiftl u8AddrH 8) u8AddrL) 16 1.
Definition dataload_messages (u8AddrH u8AddrL : Z) (pu8DataBuff : option buf) (u32DataCount : Z)
    (pu8SpareBuff : option buf) (u32SpareCount : Z) : list rt_qspi_message :=
  [mkQMsg (mkMsg pu8DataBuff None u32DataCount true false) 0x32 1 (column_stage u8AddrH u8AddrL) no_stage 0 4;
   mkQMsg (mkMsg pu8SpareBuff None u32SpareCount false true) 0 0 no_stage no_stage 0 4].
Definition quad_message (i : nu_spinand_info) (u8AddrH u8AddrL pu8DataBuff u32DataCount : Z) : rt_qspi_message :=
  mkQMsg (mkMsg None (Some pu8DataBuff) u32DataCount true true) (u8QuadReadCmdId i) 1
    (column_stage u8AddrH u8AddrL) no_stage (u8DummyByte i * 8) 4.

Definition spinand_program_dataload (u8AddrH u8AddrL : Z) (pu8DataBuff : option buf) (u32DataCount : Z)
    (pu8SpareBuff : option buf) (u32SpareCount : Z) : M (nand B) Z :=
  let! result := nu_qspi_send [0x06] in
  if negb (result =? RT_EOK) then ret result else
  let! '(result, _got) := nu_qspi_transfer_message
    (dataload_messages u8AddrH u8AddrL pu8DataBuff u32DataCount pu8SpareBuff u32SpareCount) in
  ret result.

Definition spinand_status_register_read (u8SRSel : Z) : M (nand B) Z :=
  let! au8Cmd := match u8SRSel with
                 | 1 => ret [0x05; 0xA0]
                 | 2 => ret [0x0F; 0xB0]
                 | 3 => ret [0x05; 0xC0]
                 | _ => fail_assert
                 end in
  let! '(result, got) := nu_qspi_send_then_recv au8Cmd recv_addr 1 in
  if negb (result =? RT_EOK) then fail_assert else ret (into 0 got).

Definition spinand_status_register_write (u8SRSel u8Value : Z) : M (nand B) Z :=
  match (match u8SRSel with
         | 1 => Some [0x01; 0xA0]
         | 2 => Some [0x01; 0xB0]
         | 3 => Some [0x01; 0xC0]
         | _ => None
         end) with
  | None => ret RT_EINVAL
  | Some au8Cmd =>
      let! result := nu_qspi_send (au8Cmd ++ [u8Value]) in
      if negb (result =? RT_EOK) then ret result else
      let! busy := spinand_isbusy in
      ret (if negb (busy =? 0) then RT_EIO else result)
  end.

Definition spinand_program_execute (u8Addr2 u8Addr1 u8Addr0 : Z) : M (nand B) Z :=
  let! result := nu_qspi_send [0x10; u8Addr2; u8Addr1; u8Addr0] in
  if negb (result =? RT_EOK) then ret result else
  let! busy := spinand_isbusy in
  if negb (busy =? 0) then ret (- RT_MTD_EIO) else
  let! sr := spinand_status_register_read 3 in
  ret (if Z.shiftr (Z.land sr 0x0C) 2 =? 1 then - RT_MTD_EIO else result).

Definition spinand_normal_read (u8AddrH u8AddrL pu8Buff u32Count : Z) : M (nand B) (Z * list Z) :=
  nu_qspi_send_then_recv [0x03; u8AddrH; u8AddrL; 0x00] pu8Buff u32Count.

Definition spinand_protect_set (u8Protect : Z) : M (nand B) Z :=
  let! u8SR := spinand_status_register_read 1 in
  spinand_status_register_write 1
    (if negb (u8Protect =? 0) then Z.lor u8SR 0x7C else Z.land u8SR 0x83).

Definition spinand_program_erase_isfail : M (nand B) Z :=
  let! u8SR := spinand_status_register_read 3 in ret (Z.shiftr (Z.land u8SR 0x0C) 2).

Definition spinand_hwecc_status_get : M (nand B) Z :=
  let! u8SR := spinand_status_register_read 3 in ret (Z.shiftr (Z.land u8SR 0x30) 4).

Definition spinand_hwecc_set (u8Enable : Z) : M (nand B) Z :=
  let! u8SR := spinand_status_register_read 2 in
  spinand_status_register_write 2
    (if negb (u8Enable =? 0) then Z.lor u8SR 0x10 else Z.land u8SR 0xEF).

Definition spinand_hwecc_get : M (nand B) Z :=
  let! u8SR := spinand_status_register_read 2 in ret (Z.shiftr (Z.land u8SR 0x10) 4).

Definition spinand_read_dataload (u8Addr2 u8Addr1 u8Addr0 : Z) : M (nand B) Z :=
  let! result := nu_qspi_send [0x13; u8Addr2; u8Addr1; u8Addr0] in
  if negb (result =? RT_EOK) then ret result else
  let! busy := spinand_isbusy in
  if negb (busy =? 0) then ret (- RT_EIO) else
  let! u8SR := spinand_hwecc_status_get in
  ret (if negb (u8SR =? 0) && negb (u8SR =? 1) then - RT_MTD_EECC else result).

(** The three bytes of a page address, as the callers split it. *)
Definition addr2 (page : Z) : Z := Z.land (Z.shiftr page 16) 0xFF.
Definition addr1 (page : Z) : Z := Z.land (Z.shiftr page 8) 0xFF.
Definition addr0 (page : Z) : Z := Z.land page 0xFF.

(** The [goto again] loop; a page size times pages per block of 0 is a division by
    zero. *)
Fixpoint isbad_loop (fuel : nat) (u32PageAddr : Z) : M (nand B) Z :=
  match fuel with
  | O => out_of_fuel
  | S fuel =>
      let! result := spinand_read_dataload (addr2 u32PageAddr) (addr1 u32PageAddr) (addr0 u32PageAddr) in
      rt_assert (result =? RT_EOK) ;;
      let! i := gets flash_info in
      let! '(result, got) := spinand_normal_read (addr1 (u16PageSize i)) (addr0 (u16PageSize i)) recv_addr 1 in
      rt_assert (result =? RT_EOK) ;;
      let! read_buf := deref (head got) in
      if negb (read_buf =? 0xFF) then ret 1 else
      let m := u32 (u32PagePerBlock i * u16PageSize i) in
      if m =? 0 then undefined else
      if u32PageAddr mod m =? 0 then isbad_loop fuel (u32 (u32PageAddr + 1)) else ret 0
  end.
Definition spinand_block_isbad (u32PageAddr : Z) : M (nand B) Z := isbad_loop 2 u32PageAddr.

Definition spinand_buffermode_set (u8Enable : Z) : M (nand B) Z :=
  let! u8SR := spinand_status_register_read 2 in
  spinand_status_register_write 2
    (if negb (u8Enable =? 0) then Z.lor u8SR 0x08 else Z.land u8SR 0xF7).

Definition spinand_block_erase (u32PageAddr : Z) : M (nand B) Z :=
  let! result := nu_qspi_send [0x06] in
  if negb (result =? RT_EOK) then ret result else
  let! result := nu_qspi_send [0xD8; addr2 u32PageAddr; addr1 u32PageAddr; addr0 u32PageAddr] in
  if negb (result =? RT_EOK) then ret result else
  let! busy := spinand_isbusy in
  if negb (busy =? 0) then ret (- RT_EIO) else
  let! u8SR := spinand_program_erase_isfail in
  ret (if negb (u8SR =? 0) then - RT_ERROR else result).

Definition spinand_block_markbad (u32PageAddr : Z) : M (nand B) Z :=
  let! result := spinand_block_erase u32PageAddr in
  if negb (result =? RT_EOK) then ret result else
  let! i := gets flash_info in
  let! result := spinand_program_dataload (addr1 (u16PageSize i)) (addr0 (u16PageSize i))
    (Some (mkBuf cmd_addr [0xF0])) 1 None 0 in
  if negb (result =? RT_EOK) then ret result else
  spinand_program_execute (addr2 u32PageAddr) (addr1 u32PageAddr) (addr0 u32PageAddr).

Definition spinand_read_quadoutput (u8AddrH u8AddrL pu8DataBuff u32DataCount : Z) : M (nand B) (Z * list Z) :=
  let! i := gets flash_info in
  let! '(result, got) := nu_qspi_transfer_message [quad_message i u8AddrH u8AddrL pu8DataBuff u32DataCount] in
  ret (result, default [] (got !! 0%nat)).

(** The identifier is written only on success. *)
Definition spinand_jedecid_get : M (nand B) (Z * option Z) :=
  let! '(result, got) := nu_qspi_send_then_recv [0x9F] recv_addr 4 in
  if negb (result =? RT_EOK) then ret (- RT_ERROR, None) else
  let! u32JedecId := deref (nu_get32_le (got ++ drop (length got) (replicate 4 0))) in
  let! real := deref (nu_get32_le (nu_set32_be u32JedecId)) in
  ret (RT_EOK, Some (Z.land real 0x00ffffff)).

Definition spinand_reset : M (nand B) Z :=
  let! result := nu_qspi_send [0xFF] in
  if negb (result =? RT_EOK) then ret result else
  let! busy := spinand_isbusy in
  ret (if negb (busy =? 0) then RT_EIO else result).

(** The [for] loop over the list. *)
Definition find_flash (u32JedecId : Z) : option nu_spinand_info :=
  head (filter (fun i => u32JedecId = u32JEDECID i) g_spinandflash_list).

Definition spinand_info_read : M (nand B) Z :=
  let! '(result, id) := spinand_jedecid_get in
  if negb (result =? RT_EOK) then ret (- RT_ERROR) else
  let u32JedecId := default 0 id in
  match find_flash u32JedecId with
  | None => ret (- RT_ERROR)
  | Some i =>
      modify (fun s => set_flash i (ops s) (au8DataLayout i) (au8EccLayout i) s) ;;
      if Z.land u32JedecId 0xff0000 =? 0xEF0000 then
        modify (fun s => set_flash (flash_info s) true (spinand_flash_data_layout s) (spinand_flash_ecc_layout s) s) ;;
        ret RT_EOK
      else ret (- RT_ERROR)
  end.

Definition spinand_flash_init : M (nand B) Z :=
  let! result := spinand_reset in
  if negb (result =? RT_EOK) then ret (- result) else
  let! result := spinand_info_read in
  if negb (result =? RT_EOK) then ret (- result) else
  let! result := spinand_protect_set 0 in
  if negb (result =? RT_EOK) then ret (- result) else
  let! result := spinand_buffermode_set 1 in
  if negb (result =? RT_EOK) then ret (- result) else
  let! result := spinand_hwecc_set 1 in
  if negb (result =? RT_EOK) then ret (- result) else
  let! on := spinand_hwecc_get in
  if on =? 0 then ret (- result) else
  let! i := gets flash_info in
  if u8IsDieSelect i =? 1 then
    let! result := spinand_die_select SPINAND_DIE_ID1 in
    if negb (result =? RT_EOK) then ret (- result) else
    let! result := spinand_protect_set 0 in
    ret (- result)
  else ret (- result).
End spinand.
