(* ===== verification/SpinandDrv.v ===== *)
(** * The SPI-NAND as a memory technology device

    [libraries/nu_packages/SPINAND/drv_spinand.c]: the operations the MTD layer calls,
    the registration of the device, and the shell commands that erase, mark and list
    blocks; and [rt_spi_configure] of [rt-thread/components/drivers/spi/spi_core.c],
    which the registration uses.  The arguments of the commands come in as the numbers
    [atoi] gives. *)

From Stdlib Require Import ZArith Lia Bool String.
From stdpp Require Import base tactics numbers list option.
From S2P Require Import Prelude BitUtil PdmaRegs Pdma SpiHw Spi Qspi NandBus Spinand.

Open Scope Z_scope.

Definition MTD_SPINAND_PARTITION_NUM : Z := 3.
Definition RT_SPI_MODE_MASK : Z := 0xff.

(** The table of [board/board_dev.c]. *)
Definition board_partitions : list rt_mtd_nand_device :=
  [mkMtd 0 0 0 0 0 (63 - 0 + 1) 0 63 false;
   mkMtd 0 0 0 0 0 (2047 - 64 + 1) 64 2047 false;
   mkMtd 0 0 0 0 0 2048 0 2047 false].

(** The result of registering the [i]-th partition with the kernel, and whether the
    named device exists. *)
Class NandKernel : Type := { mtd_register : nat -> Z; device_found : bool }.

Section driver.
Context {B : Type} `{QB : QspiBus B} `{NE : NandEnv B} `{NK : NandKernel}.

(** [rt_mutex_take] on the flash's lock with its assertion, and [rt_mutex_release]. *)
Definition take_flash : M (nand B) unit :=
  let! s := get in
  rt_assert (flash_take s =? RT_EOK) ;;
  modify (fun s => set_flash_lock (flash_lock s + 1) s).
Definition release_flash : M (nand B) unit := modify (fun s => set_flash_lock (flash_lock s - 1) s).

(** A call through [SPINAND_FLASH_OPS], which is NULL until a chip is found. *)
Definition via_ops {A} (m : M (nand B) A) : M (nand B) A :=
  let! o := gets ops in if o then m else undefined.

Definition spinand_read_id : M (nand B) Z :=
  take_flash ;;
  let! '(_r, id) := via_ops spinand_jedecid_get in
  release_flash ;;
  ret (if negb (default 0 id =? 0) then RT_EOK else - RT_ERROR).

(** [page / device->pages_per_block > device->block_end]; the other operands are unsigned,
    so the page is converted. *)
Definition page_outside (device : rt_mtd_nand_device) (page : Z) : M (nand B) bool :=
  if pages_per_block device =? 0 then undefined
  else ret (block_end device <? u32 page / pages_per_block device).

(** [if (data && data_len)] *)
Definition wanted (data : option Z) (len : Z) : option Z := if len =? 0 then None else data.

(** The result, the data and the spare bytes read. *)
Definition spinand_read_page (device : rt_mtd_nand_device) (page : Z) (data : option Z) (data_len : Z)
    (spare : option Z) (spare_len : Z) : M (nand B) (Z * list Z * list Z) :=
  let! out := page_outside device page in
  if out then ret (- RT_MTD_EIO, [], []) else
  take_flash ;;
  let! r :=
    let! result := via_ops (spinand_read_dataload (addr2 page) (addr1 page) (addr0 page)) in
    if negb (result =? RT_EOK) then ret (result, [], []) else
    let! '(result, d) := match wanted data data_len with
                         | Some a => via_ops (spinand_read_quadoutput 0 0 a data_len)
                         | None => ret (result, [])
                         end in
    if negb (result =? RT_EOK) then ret (result, d, []) else
    let! i := gets flash_info in
    let! '(result, sp) := match wanted spare spare_len with
                          | Some a => via_ops (spinand_read_quadoutput (addr1 (u16PageSize i)) (addr0 (u16PageSize i)) a spare_len)
                          | None => ret (result, [])
                          end in
    ret (result, d, sp) in
  release_flash ;;
  ret r.

Definition spinand_write_page (device : rt_mtd_nand_device) (page : Z) (data : option buf) (data_len : Z)
    (spare : option buf) (spare_len : Z) : M (nand B) Z :=
  let! out := page_outside device page in
  if out then ret (- RT_MTD_EIO) else
  take_flash ;;
  let! r :=
    let! i := gets flash_info in
    let! result := if u8IsDieSelect i =? 1 then via_ops (spinand_die_select SPINAND_DIE_ID0) else ret RT_EOK in
    if negb (result =? RT_EOK) then ret result else
    let! result :=
      match data with
      | Some _ =>
          if data_len =? 0
          then via_ops (spinand_program_dataload (addr1 (u16PageSize i)) (addr0 (u16PageSize i)) None 0 spare spare_len)
          else via_ops (spinand_program_dataload 0 0 data data_len spare spare_len)
      | None => via_ops (spinand_program_dataload (addr1 (u16PageSize i)) (addr0 (u16PageSize i)) None 0 spare spare_len)
      end in
    if negb (result =? RT_EOK) then ret result else
    via_ops (spinand_program_execute (addr2 page) (addr1 page) (addr0 page)) in
  release_flash ;;
  ret r.

Definition spinand_move_page (device : rt_mtd_nand_device) (src_page dst_page : Z) : M (nand B) Z :=
  let! out1 := page_outside device src_page in
  let! out := if out1 then ret true else page_outside device dst_page in
  if out then ret (- RT_MTD_EIO) else
  take_flash ;;
  let! r :=
    let! result := via_ops (spinand_read_dataload (addr2 src_page) (addr1 src_page) (addr0 src_page)) in
    if negb (result =? RT_EOK) then ret result else
    let! result := nu_qspi_send [0x06] in
    if negb (result =? RT_EOK) then ret result else
    via_ops (spinand_program_execute (addr2 dst_page) (addr1 dst_page) (addr0 dst_page)) in
  release_flash ;;
  ret r.

(** [page = block * SPINAND_FLASH_PAGE_PER_BLOCK_NUM] *)
Definition first_page (i : nu_spinand_info) (block : Z) : Z := u32 (block * u32PagePerBlock i).

Definition spinand_erase_block_force (device : rt_mtd_nand_device) (block : Z) : M (nand B) Z :=
  if block_end device <? block then ret (- RT_MTD_EIO) else
  let! i := gets flash_info in
  take_flash ;;
  let! result := via_ops (spinand_block_erase (first_page i block)) in
  release_flash ;;
  ret result.

Definition spinand_erase_block (device : rt_mtd_nand_device) (block : Z) : M (nand B) Z :=
  if block_end device <? block then ret (- RT_MTD_EIO) else
  let! i := gets flash_info in
  take_flash ;;
  let! result :=
    let! bad := via_ops (spinand_block_isbad (first_page i block)) in
    if negb (bad =? 0) then ret (- RT_ERROR) else via_ops (spinand_block_erase (first_page i block)) in
  release_flash ;;
  ret result.

Definition spinand_check_block (device : rt_mtd_nand_device) (block : Z) : M (nand B) Z :=
  if block_end device <? block then ret (- RT_MTD_EIO) else
  let! i := gets flash_info in
  take_flash ;;
  let! isbad := via_ops (spinand_block_isbad (first_page i block)) in
  release_flash ;;
  ret (if isbad =? 0 then RT_EOK else - RT_ERROR).

Definition spinand_mark_badblock (device : rt_mtd_nand_device) (block : Z) : M (nand B) Z :=
  if block_end device <? block then ret (- RT_MTD_EIO) else
  let! i := gets flash_info in
  take_flash ;;
  let! result :=
    let! bad := via_ops (spinand_block_isbad (first_page i block)) in
    if negb (bad =? 0) then ret RT_EOK else via_ops (spinand_block_markbad (first_page i block)) in
  release_flash ;;
  ret result.

(** *** Registration *)

Definition describe_partition (i : nu_spinand_info) (d : rt_mtd_nand_device) : rt_mtd_nand_device :=
  mkMtd (u16PageSize i) (u16OOBSize i) 32 (u8IsDieSelect i) (u32PagePerBlock i) (block_total d)
    (block_start d) (block_end d) true.

Fixpoint register_partitions (n : nat) (l done : list rt_mtd_nand_device) : M (nand B) unit :=
  match l with
  | [] => ret tt
  | d :: l =>
      let! i := gets flash_info in
      let done := done ++ [describe_partition i d] in
      modify (fun s => set_partitions (done ++ l) (u32IsInited s) s) ;;
      rt_assert (mtd_register n =? RT_EOK) ;;
      register_partitions (S n) l done
  end.

Definition rt_hw_mtd_spinand_init : M (nand B) Z :=
  let! inited := gets u32IsInited in
  if inited then ret RT_EOK else
  modify (set_flash_lock 0) ;;
  let! result := spinand_flash_init in
  if negb (result =? RT_EOK) then ret (- RT_ERROR) else
  let! l := gets mtd_partitions in
  register_partitions 0 l [] ;;
  modify (fun s => set_partitions (mtd_partitions s) true s) ;;
  ret RT_EOK.

(** The device hangs on its bus. *)
Definition rt_spi_configure (cfg : rt_spi_configuration) : M (nand B) Z :=
  let! old := gets dev_config in
  let c := mkSpiCfg (Z.land (mode cfg) RT_SPI_MODE_MASK) (data_width cfg) (reserved old) (max_hz cfg) in
  modify (set_qspi_device c) ;;
  let! result := bus_mutex_take in
  if negb (result =? RT_EOK) then ret result else
  let! result := on_bus (ops_configure c) in
  let! result := if result =? RT_EOK then modify (set_bus_owner true) ;; ret RT_EOK else ret (- RT_EIO) in
  bus_mutex_release ;;
  ret result.

Definition rt_hw_mtd_spinand_register : M (nand B) Z :=
  if negb device_found then ret (- RT_ERROR) else
  let! result := rt_spi_configure (mkSpiCfg (Z.lor RT_SPI_MODE_0 RT_SPI_MSB) 8 0 48000000) in
  rt_assert (result =? RT_EOK) ;;
  rt_hw_mtd_spinand_init.

(** *** Shell commands *)

(** [&mtd_partitions[partition]]; the [int] commands let a negative number through. *)
Definition partition_device (partition : Z) : M (nand B) rt_mtd_nand_device :=
  let! l := gets mtd_partitions in
  if partition <? 0 then undefined else deref (l !! Z.to_nat partition).

Definition nmove (argc partition src dst : Z) : M (nand B) Z :=
  if negb (argc =? 4) then ret (-1) else
  if MTD_SPINAND_PARTITION_NUM <=? u32 partition then ret (-1) else
  let! device := partition_device (u32 partition) in
  let! _r := spinand_move_page device
    (u32 (u32 src + block_start device * pages_per_block device))
    (u32 (u32 dst + block_start device * pages_per_block device)) in
  ret 0.

Definition nerase (argc partition block : Z) : M (nand B) Z :=
  if negb (argc =? 3) then ret (-1) else
  if MTD_SPINAND_PARTITION_NUM <=? partition then ret (-1) else
  let! device := partition_device partition in
  let! r := spinand_erase_block device (u32 (block + block_start device)) in
  ret (if negb (r =? RT_EOK) then -1 else 0).

Fixpoint force_loop (n : nat) (block : Z) (device : rt_mtd_nand_device) : M (nand B) Z :=
  match n with
  | O => ret 0
  | S n =>
      let! r := spinand_erase_block_force device (u32 (block + block_start device)) in
      if negb (r =? RT_EOK) then ret (-1) else force_loop n (block + 1) device
  end.

Definition nerase_force (argc partition : Z) : M (nand B) Z :=
  if negb (argc =? 2) then ret (-1) else
  if MTD_SPINAND_PARTITION_NUM <=? partition then ret (-1) else
  let! device := partition_device partition in
  force_loop (Z.to_nat (block_end device + 1)) 0 device.

Definition nmarkbad (argc partition block : Z) : M (nand B) Z :=
  if negb (argc =? 3) then ret (-1) else
  if MTD_SPINAND_PARTITION_NUM <=? partition then ret (-1) else
  let! device := partition_device partition in
  let! r := spinand_mark_badblock device (u32 (block + block_start device)) in
  ret (if negb (r =? RT_EOK) then -1 else 0).

Definition nerase_all (argc partition : Z) : M (nand B) Z :=
  if negb (argc =? 2) then ret (-1) else
  if MTD_SPINAND_PARTITION_NUM <=? u32 partition then ret (-1) else
  let! device := partition_device (u32 partition) in
  for_each (seqZ 0 (block_total device)) (fun index =>
    let! _r := spinand_erase_block device index in ret tt) ;;
  ret 0.

(** With the verdicts printed, block by block. *)
Definition ncheck_all (argc partition : Z) : M (nand B) (Z * list (Z * Z)) :=
  if negb (argc =? 2) then ret (-1, []) else
  if MTD_SPINAND_PARTITION_NUM <=? u32 partition then ret (-1, []) else
  let! device := partition_device (u32 partition) in
  let! verdicts := foldr (fun index rest =>
    let! r := spinand_check_block device index in
    let! l := rest in ret ((index, r) :: l)) (ret []) (seqZ 0 (block_total device)) in
  ret (0, verdicts).

Definition nid : M (nand B) Z := let! _r := spinand_read_id in ret 0.
End driver.
