(* ===== verification/NandOps.v ===== *)
(** * What the SPI-NAND operations do

    The wait for the chip, and the operations of the MTD layer, command by command on
    the wire: which commands go out, what the chip's answers make of them, and which
    result the caller gets.  The chip is the device at the other end of the wire,
    whatever it answers. *)

From Stdlib Require Import ZArith Lia Bool String.
From stdpp Require Import base tactics numbers list option.
From S2P Require Import Prelude BitUtil PdmaRegs Pdma PdmaFacts SpiHw SpiOpen Spi SpiPoll SpiXfer Qspi NandBus NandPort Spinand SpinandDrv.

Open Scope Z_scope.

(** ** Waiting for the chip *)

Definition status_read : list Z := [0x0F; 0xC0].

Section chip.
Context `{SH : SpiHw}.

(** The wire after [n] reads of the status register, and what the next one answers. *)
Fixpoint polls (n : nat) (wr : list wire_ev) : list wire_ev :=
  match n with O => wr | S n => polls n (fst (query status_read 1 wr)) end.
Definition answer_of (out : list Z) (wr : list wire_ev) : Z := default 0 (head (snd (query out 1 wr))).
Definition busy_bit (wr : list wire_ev) : bool := negb (Z.land (answer_of status_read wr) 1 =? 0).

Lemma polls_S n wr : polls (S n) wr = fst (query status_read 1 (polls n wr)).
Proof. revert wr. induction n as [|n IH]; intros wr; [done|]. cbn [polls] in *. by rewrite IH. Qed.

Lemma query_one out wr : snd (query out 1 wr) = [answer_of out wr].
Proof. done. Qed.
End chip.

Section wait.
Context {B : Type} `{QS : QspiBusSpec B} `{NG : NandGranted B}.
(** Milliseconds - the tick is 1 kHz - from the [t]-th read of the tick to the [k]-th
    after it. *)
Definition elapsed (t k : nat) : Z := u32 (tick_at (t + S k) - tick_at t).
Definition late (t k : nat) : bool := 3000 <=? elapsed t k.

(** The [n]-th poll, from [wr] on with the wait begun at tick read [t], is the first
    that ends the wait: the chip is ready, or time is up. *)
Record stops_at (wr : list wire_ev) (t n : nat) : Prop := {
  stops_before : forall k, (k < n)%nat -> late t k = false /\ busy_bit (polls k wr) = true;
  stops_now : late t n = true \/ busy_bit (polls n wr) = false;
  stops_fuel : (n < busy_fuel)%nat
}.

Lemma tick_eq s : rt_tick_get s = Ret (tick_at (tick_reads s), set_tick_reads (S (tick_reads s)) s).
Proof. done. Qed.

Lemma moved_tick s : nready s -> moved s (bus_wire (bus s)) 1 (set_tick_reads (S (tick_reads s)) s).
Proof. intros [Hb Ho Hd Hc]. by split. Qed.

Context (Hrx : (4 <= rx_depth)%nat).

Lemma query_moved s out n :
  nready s -> Forall is_u8 out -> (0 < length out <= 4)%nat -> (0 < n <= 4)%nat ->
  exists s', nu_qspi_send_then_recv out recv_addr (Z.of_nat n) s =
      Ret ((RT_EOK, snd (query out n (bus_wire (bus s)))), s') /\
    moved s (fst (query out n (bus_wire (bus s)))) 0 s'.
Proof. by apply send_then_recv_returns. Qed.

(** From the [j]-th poll on. *)
Lemma busy_loop_returns n : forall fuel s wr t j SR,
  nready s -> bus_wire (bus s) = polls j wr -> tick_reads s = (t + S j)%nat -> (n < fuel)%nat ->
  (forall k, (j <= k < j + n)%nat -> late t k = false /\ busy_bit (polls k wr) = true) ->
  late t (j + n) = true \/ busy_bit (polls (j + n) wr) = false ->
  exists s', busy_loop fuel 3000 (tick_at t) SR s = Ret (if late t (j + n) then 1 else 0, s') /\
    moved s (polls (S (j + n)) wr) (S n) s'.
Proof.
  induction n as [|n IH]; intros fuel s wr t j SR Hs Hw Ht Hf Hb Hn.
  all: destruct fuel as [|fuel]; [lia|]; cbn [busy_loop].
  all: destruct (query_moved s status_read 1 Hs) as (s1 & E1 & M1); [repeat constructor; unfold is_u8; lia|cbn; lia|lia|].
  all: change (Z.of_nat 1) with 1 in E1; rewrite (bind_Ret _ _ _ _ _ E1); change (RT_EOK =? RT_EOK) with true; cbn [negb].
  all: rewrite (bind_Ret _ _ _ _ _ (tick_eq s1)), (moved_ticks _ _ _ _ M1), Ht; rewrite Hw in *.
  all: change (u32 (tick_at (0 + (t + S j)) - tick_at t)) with (elapsed t j); fold (late t j).
  all: pose proof (moved_trans _ _ _ _ _ _ _ M1 (moved_tick s1 (moved_ready _ _ _ _ M1))) as M2.
  all: rewrite (moved_wire _ _ _ _ M1), <-polls_S, (moved_ticks _ _ _ _ M1), Ht in M2.
  all: change (negb (Z.land (into SR (snd (query status_read 1 (polls j wr)))) 1 =? 0)) with (busy_bit (polls j wr)).
  - rewrite Nat.add_0_r in *. destruct (late t j) eqn:El; [by eexists|].
    destruct Hn as [|Hn]; [done|]. rewrite Hn. by eexists.
  - destruct (Hb j) as [El Eb]; [lia|]. rewrite El, Eb.
    destruct (IH fuel _ wr t (S j) (into SR (snd (query status_read 1 (polls j wr)))) (moved_ready _ _ _ _ M2))
      as (s' & E' & M'); [apply M2|cbn; lia|lia|intros k Hk; apply Hb; lia|by replace (S j + n)%nat with (j + S n)%nat by lia|].
    rewrite E'. replace (S j + n)%nat with (j + S n)%nat in * by lia. exists s'. split; [done|].
    pose proof (moved_trans _ _ _ _ _ _ _ M2 M') as M. by replace (S n + (1 + 0))%nat with (S (S n)) in M by lia.
Qed.

Lemma isbusy_returns s n :
  nready s -> stops_at (bus_wire (bus s)) (tick_reads s) n ->
  exists s', spinand_isbusy s = Ret (if late (tick_reads s) n then 1 else 0, s') /\
    moved s (polls (S n) (bus_wire (bus s))) (S (S n)) s'.
Proof.
  intros Hs [Hb Hn Hf]. unfold spinand_isbusy. rewrite (bind_Ret _ _ _ _ _ (tick_eq s)).
  pose proof (moved_tick s Hs) as M0.
  destruct (busy_loop_returns n busy_fuel _ (bus_wire (bus s)) (tick_reads s) 0 0xFF (moved_ready _ _ _ _ M0))
    as (s' & E & M); [done|cbn; lia|done|intros k Hk; apply Hb; lia|done|].
  exists s'. split; [exact E|]. pose proof (moved_trans _ _ _ _ _ _ _ M0 M) as H.
  by replace (S n + 1)%nat with (S (S n)) in H by lia.
Qed.

(** A wait that can end does end. *)
Lemma first_stop wr t N :
  (N < busy_fuel)%nat -> late t N = true \/ busy_bit (polls N wr) = false ->
  exists n, (n <= N)%nat /\ stops_at wr t n.
Proof.
  intros HN Hs. set (stop k := late t k || negb (busy_bit (polls k wr))).
  assert (HsN : stop N = true) by (unfold stop; destruct Hs as [-> | ->]; [done|by rewrite orb_true_r]).
  clear Hs. revert HN HsN. induction (lt_wf N) as [N _ IH]. intros HN HsN.
  destruct (existsb stop (seq 0 N)) eqn:Ex.
  - apply existsb_exists in Ex as (k & Hk & Ek). apply in_seq in Hk.
    destruct (IH k) as (n & Hn & S); [lia|lia|done|]. exists n. split; [lia|done].
  - exists N. split; [lia|]. split; [|apply orb_prop in HsN as [|H%negb_true_iff]; tauto|done].
    intros k Hk. destruct (stop k) eqn:Ek.
    + assert (existsb stop (seq 0 N) = true) as Hex; [|congruence].
      apply existsb_exists. exists k. split; [apply in_seq; lia|done].
    + apply orb_false_iff in Ek as [E1 E2%negb_false_iff]. done.
Qed.

(** C27: the wait for the chip ends, and how.  If by the [N]-th read of the status
    register - within the fuel - the chip is ready or 3000 ticks have passed, then
    [spinand_isbusy] returns at the first read with either.  It returns 1 when the
    time is up at that read, even if that same read says the chip is ready, and 0
    otherwise; it has put exactly the reads up to that one on the wire. *)
Theorem isbusy_spec s N :
  nready s -> (N < busy_fuel)%nat ->
  late (tick_reads s) N = true \/ busy_bit (polls N (bus_wire (bus s))) = false ->
  exists n s', (n <= N)%nat /\ stops_at (bus_wire (bus s)) (tick_reads s) n /\
    spinand_isbusy s = Ret (if late (tick_reads s) n then 1 else 0, s') /\
    moved s (polls (S n) (bus_wire (bus s))) (S (S n)) s'.
Proof.
  intros Hs HN Hstop. destruct (first_stop _ _ N HN Hstop) as (n & Hn & St).
  destruct (isbusy_returns s n Hs St) as (s' & E & M). by exists n, s'.
Qed.
End wait.
