(* ===== verification/NandPage.v ===== *)
(** * Pages and blocks of the SPI-NAND

    The operations of the MTD layer on a ready device: the commands they put on the
    wire, and their results. *)

From Stdlib Require Import ZArith Lia Bool String.
From stdpp Require Import base tactics numbers list option.
From S2P Require Import Prelude BitUtil PdmaRegs Pdma PdmaFacts SpiHw SpiOpen Spi SpiPoll SpiXfer Qspi NandBus NandPort Spinand SpinandDrv NandOps.

Open Scope Z_scope.

Lemma be_column h l : is_u8 h -> is_u8 l -> be_address 2 (Z.lor (Z.shiftl h 8) l) = [h; l].
Proof.
  unfold is_u8. intros Hh Hl. unfold be_address. rewrite nu_set32_le_eq. cbn [take rev app].
  rewrite <-!Z.land_ones, <-!Z.shiftr_div_pow2 by lia.
  rewrite Z.shiftr_lor, Z.shiftr_shiftl_l, Z.shiftl_0_r by lia.
  rewrite (Z.shiftr_div_pow2 l), (Z.div_small l), Z.lor_0_r by lia. rewrite !Z.land_lor_distr_l.
  rewrite (Z.land_ones (Z.shiftl h 8)), Z.shiftl_mul_pow2, Z.mod_mul by lia.
  by rewrite !Z.land_ones, !Z.mod_small by lia.
Qed.

Lemma addr_u8 x : is_u8 (addr2 x) /\ is_u8 (addr1 x) /\ is_u8 (addr0 x).
Proof.
  unfold addr2, addr1, addr0, is_u8. change 0xFF with (Z.ones 8). rewrite !Z.land_ones by lia.
  repeat split; apply Z.mod_pos_bound; lia.
Qed.

(** What the chips of the list have in common. *)
Record common_chip (i : nu_spinand_info) : Prop := {
  chip_page : u16PageSize i = 2048;
  chip_quad : u8QuadReadCmdId i = 0x6b;
  chip_dummy : u8DummyByte i = 1;
  chip_pages : u32PagePerBlock i = 64;
  chip_die : u8IsDieSelect i = 0
}.

Lemma listed_common i : i ∈ g_spinandflash_list -> common_chip i.
Proof.
  unfold g_spinandflash_list. rewrite !elem_of_cons. intros [-> | [-> | [-> | H]]]; [by split..|].
  by apply not_elem_of_nil in H.
Qed.

(** ** The commands *)

Section wires.
Context `{SH : SpiHw}.

Definition page_bytes (page : Z) : list Z := [addr2 page; addr1 page; addr0 page].

Lemma page_bytes_u8 page : Forall is_u8 (page_bytes page).
Proof. destruct (addr_u8 page) as (? & ? & ?). by repeat (apply List.Forall_cons; [done|]). Qed.

(** The page loaded into the chip's cache, and the wait; the status register after it. *)
Definition load_wire (page : Z) (n : nat) (wr : list wire_ev) : list wire_ev :=
  polls (S n) (command (0x13 :: page_bytes page) wr).
Definition feature (wr : list wire_ev) : list wire_ev := fst (query [0x05; 0xC0] 1 wr).
Definition feature_value (wr : list wire_ev) : Z := answer_of [0x05; 0xC0] wr.
Definition ecc_status (wr : list wire_ev) : Z := Z.shiftr (Z.land (feature_value wr) 0x30) 4.
Definition fail_status (wr : list wire_ev) : Z := Z.shiftr (Z.land (feature_value wr) 0x0C) 2.

(** [len] bytes of the cache from a column on, by the quad read; nothing for 0. *)
Definition read_cache (h l : Z) (len : nat) (wr : list wire_ev) : list wire_ev * list Z :=
  if (len =? 0)%nat then (wr, []) else quad_query [0x6b; h; l; 0] len wr.

(** Write enable, and the cache loaded with data at a column and with what follows. *)
Definition dataload_wire (h l : Z) (data spare : list Z) (wr : list wire_ev) : list wire_ev :=
  release (put4 spare (put4 data (put [0x32; h; l] (select (command [0x06] wr))))).
End wires.

Section ops.
Context {B : Type} `{QS : QspiBusSpec B} `{NG : NandGranted B}.
Context (Hrx : (4 <= rx_depth)%nat).
Implicit Types s : nand B.

Ltac sent E := rewrite (bind_Ret _ _ _ _ _ E); change (RT_EOK =? RT_EOK) with true; cbn [negb].

Lemma feature_returns s :
  nready s ->
  exists s', spinand_status_register_read 3 s = Ret (feature_value (bus_wire (bus s)), s') /\
    moved s (feature (bus_wire (bus s))) 0 s'.
Proof.
  intros Hs. destruct (query_moved Hrx s [0x05; 0xC0] 1 Hs) as (s' & E & M);
    [repeat constructor; unfold is_u8; lia|cbn; lia|lia|].
  exists s'. unfold spinand_status_register_read. rewrite bind_ret_l.
  change (Z.of_nat 1) with 1 in E. sent E. by rewrite query_one.
Qed.

(** The command that loads a page, and its result. *)
Lemma dataload_returns s page n :
  nready s -> stops_at (command (0x13 :: page_bytes page) (bus_wire (bus s))) (tick_reads s) n ->
  exists s', let w := load_wire page n (bus_wire (bus s)) in
    spinand_read_dataload (addr2 page) (addr1 page) (addr0 page) s =
      Ret (if late (tick_reads s) n then - RT_EIO
           else if 2 <=? ecc_status w then - RT_MTD_EECC else RT_EOK, s') /\
    moved s (if late (tick_reads s) n then w else feature w) (S (S n)) s'.
Proof.
  intros Hs Hn. unfold spinand_read_dataload.
  destruct (send_returns Hrx s 0x13 (page_bytes page) Hs) as (s1 & E1 & M1);
    [unfold is_u8; lia|lia|apply page_bytes_u8|cbn; lia|].
  change [19; addr2 page; addr1 page; addr0 page] with (0x13 :: page_bytes page). sent E1.
  assert (T1 : tick_reads s1 = tick_reads s) by apply M1.
  destruct (isbusy_returns Hrx s1 n) as (s2 & E2 & M2); [apply M1|by rewrite T1, (moved_wire _ _ _ _ M1)|].
  rewrite T1, (moved_wire _ _ _ _ M1) in *. rewrite (bind_Ret _ _ _ _ _ E2).
  pose proof (moved_trans _ _ _ _ _ _ _ M1 M2) as M. rewrite Nat.add_0_r in M.
  destruct (late (tick_reads s) n); [by exists s2|]. cbn [negb Z.eqb].
  destruct (feature_returns s2 (moved_ready _ _ _ _ M)) as (s3 & E3 & M3).
  unfold spinand_hwecc_status_get. rewrite bind_assoc, (bind_Ret _ _ _ _ _ E3), bind_ret_l.
  pose proof (moved_trans _ _ _ _ _ _ _ M M3) as M'. rewrite (moved_wire _ _ _ _ M) in *. exists s3.
  split; [|exact M']. unfold ret. do 2 f_equal. change (polls (S n) (command (19 :: page_bytes page) (bus_wire (bus s))))
    with (load_wire page n (bus_wire (bus s))) in *. fold (ecc_status (load_wire page n (bus_wire (bus s)))).
  set (x := ecc_status _). assert (0 <= x) by (unfold x, ecc_status; apply Z.shiftr_nonneg, Z.land_nonneg; lia).
  f_equal. destruct (Z.eqb_spec x 0), (Z.eqb_spec x 1), (Z.leb_spec 2 x); cbn [negb andb]; first [done|lia].
Qed.

(** A read of the cache; a buffer of no bytes is not read. *)
Lemma quad_returns s i h l a len :
  nready s -> flash_info s = i -> common_chip i -> is_u8 h -> is_u8 l -> (0 < len)%nat ->
  bus_takes (quad_message i h l a (Z.of_nat len)) ->
  exists s', spinand_read_quadoutput h l a (Z.of_nat len) s =
      Ret ((RT_EOK, snd (read_cache h l len (bus_wire (bus s)))), s') /\
    moved s (fst (read_cache h l len (bus_wire (bus s)))) 0 s'.
Proof.
  intros Hs Hi Hc Hh Hl Hn Ht. unfold spinand_read_quadoutput. rewrite bind_gets, Hi.
  destruct (transfer_returns s [quad_message i h l a (Z.of_nat len)] Hs) as (s' & E & M); [by constructor|].
  rewrite (bind_Ret _ _ _ _ _ E). exists s'. unfold read_cache. destruct (Nat.eqb_spec len 0); [lia|].
  revert M. cbn [messages_wire fst snd]. rewrite message_wire_nand; cbn [quad_message instruction_content
    instruction_lines address dummy_cycles parent cs_take cs_release recv_buf column_stage content];
    rewrite ?(chip_quad _ Hc), ?(chip_dummy _ Hc); [|lia|done|done|lia].
  rewrite be_column by done. change (Z.to_nat (1 * 8 / 8)) with 1%nat. cbv zeta.
  unfold data_words. cbn [send_buf length_ parent quad_message]. rewrite Nat2Z.id.
  intros M. split; [reflexivity|exact M].
Qed.

(** The MTD operations on a registered, idle device with a chip of the list. *)
Record chip_ready s (i : nu_spinand_info) : Prop := {
  chip_nready : nready s;
  chip_info : flash_info s = i;
  chip_ops : ops s = true;
  chip_listed : i ∈ g_spinandflash_list
}.

Lemma moved_chip s i wr n s' : chip_ready s i -> moved s wr n s' -> chip_ready s' i.
Proof.
  intros [Hs Hi Ho Hl] [R _ _ F]. injection F as _ F1 F2 _ _ _ _ _. split; [done|congruence|congruence|done].
Qed.

Lemma via_ops_eq {A} (m : M (nand B) A) s : ops s = true -> via_ops m s = m s.
Proof. intros E. unfold via_ops. by rewrite bind_gets, E. Qed.

(** An operation within the flash's lock. *)
Lemma locked_returns {A} (m : M (nand B) A) s i a wr n :
  chip_ready s i ->
  (forall s0, chip_ready s0 i -> bus s0 = bus s -> tick_reads s0 = tick_reads s ->
     exists s', m s0 = Ret (a, s') /\ moved s0 wr n s') ->
  exists s', (take_flash ;; let! r := m in release_flash ;; ret r) s = Ret (a, s') /\ moved s wr n s'.
Proof.
  intros Hc Hm. unfold take_flash. rewrite bind_assoc, bind_get, flash_granted, bind_assoc, bind_assert, bind_modify by done.
  set (s0 := set_flash_lock (flash_lock s + 1) s).
  destruct (Hm s0) as (s' & E & [R W T F]); [by destruct Hc as [[] ? ? ?]|done|done|].
  rewrite (bind_Ret _ _ _ _ _ E). unfold release_flash. rewrite bind_modify. eexists. split; [reflexivity|].
  injection F as F1 F2 F3 F4 F5 F6 F7 F8. split; [by destruct R|done|done|].
  unfold frame. cbn. rewrite F1, F2, F3, F4, F5, F6, F7, F8. cbn. by rewrite Z.add_simpl_r.
Qed.

Lemma locked_asserts {A} (m : M (nand B) A) s i :
  chip_ready s i ->
  (forall s0, chip_ready s0 i -> bus s0 = bus s -> tick_reads s0 = tick_reads s -> m s0 = AssertFail) ->
  (take_flash ;; let! r := m in release_flash ;; ret r) s = AssertFail.
Proof.
  intros Hc Hm. unfold take_flash. rewrite bind_assoc, bind_get, flash_granted, bind_assoc, bind_assert, bind_modify by done.
  apply bind_AssertFail, Hm; [by destruct Hc as [[] ? ? ?]|done|done].
Qed.

Lemma page_outside_eq d page s :
  0 < pages_per_block d -> page_outside d page s = Ret (block_end d <? u32 page / pages_per_block d, s).
Proof. intros Hp. unfold page_outside. by destruct (Z.eqb_spec (pages_per_block d) 0); [lia|]. Qed.

(** *** Reading a page *)

Definition count (data : option Z) (len : Z) : nat := if wanted data len is Some _ then Z.to_nat len else 0%nat.

(** What the caller gets, and the wire, once the page was asked for: the wait timed
    out, the chip reports more errors than it corrects, or the data and the spare bytes
    are read. *)
Definition read_outcome (timeout : bool) (data spare : nat) (w : list wire_ev) : (Z * list Z * list Z) * list wire_ev :=
  if timeout then ((- RT_EIO, [], []), w)
  else if 2 <=? ecc_status w then ((- RT_MTD_EECC, [], []), feature w)
  else
    let d := read_cache 0 0 data (feature w) in
    let sp := read_cache 8 0 spare (fst d) in
    ((RT_EOK, snd d, snd sp), fst sp).

(** The buffers the bus must be able to fill. *)
Definition fills (i : nu_spinand_info) (h : Z) (b : option Z) (len : Z) : Prop :=
  0 <= len /\ (forall a, wanted b len = Some a -> bus_takes (quad_message i h 0 a len)).

Lemma wanted_returns s i h b len r0 :
  chip_ready s i -> is_u8 h -> fills i h b len ->
  exists s', (match wanted b len with
              | Some a => via_ops (spinand_read_quadoutput h 0 a len)
              | None => ret (r0, [])
              end) s =
    Ret ((match wanted b len with Some _ => RT_EOK | None => r0 end,
          snd (read_cache h 0 (count b len) (bus_wire (bus s)))), s') /\
    moved s (fst (read_cache h 0 (count b len) (bus_wire (bus s)))) 0 s'.
Proof.
  intros Hc Hh [Hl Hf]. unfold count, wanted in *. destruct (Z.eqb_spec len 0) as [->|Hn].
  { exists s. split; [done|]. by apply moved_refl, Hc. }
  destruct b as [a|]; [|exists s; split; [done|by apply moved_refl, Hc]].
  destruct (quad_returns s i h 0 a (Z.to_nat len)) as (s' & E & M);
    [apply Hc|apply Hc|apply listed_common, Hc|done|unfold is_u8; lia|lia|rewrite Z2Nat.id by lia; by apply Hf|].
  rewrite Z2Nat.id in E by lia. rewrite via_ops_eq, E by apply Hc. by exists s'.
Qed.

(** C28: reading a page of a chip of the list.  A page beyond the device's last block,
    its number taken as unsigned, is refused with -RT_MTD_EIO, and nothing is sent.  Otherwise the page is loaded
    into the chip's cache ([0x13] and three address bytes) and the chip waited for;
    when the wait times out the result is -RT_EIO, when the status register then
    shows an ECC status of 2 or 3 it is -RT_MTD_EECC, and no data is read in either
    case; otherwise the data is what quad reads of the cache answer from column 0,
    and the spare bytes from column 2048 - each only if a buffer and a length were
    given - and the result is RT_EOK.  The flash's lock is given back. *)
Theorem read_page_spec s i device page data data_len spare spare_len n :
  chip_ready s i -> 0 < pages_per_block device ->
  stops_at (command (0x13 :: page_bytes page) (bus_wire (bus s))) (tick_reads s) n ->
  fills i 0 data data_len -> fills i 8 spare spare_len ->
  if block_end device <? u32 page / pages_per_block device then
    spinand_read_page device page data data_len spare spare_len s = Ret ((- RT_MTD_EIO, [], []), s)
  else exists s',
    let r := read_outcome (late (tick_reads s) n) (count data data_len) (count spare spare_len)
               (load_wire page n (bus_wire (bus s))) in
    spinand_read_page device page data data_len spare spare_len s = Ret (fst r, s') /\
    moved s (snd r) (S (S n)) s'.
Proof.
  intros Hc Hp Hn Hd Hsp. unfold spinand_read_page. rewrite (bind_Ret _ _ _ _ _ (page_outside_eq _ _ _ Hp)).
  destruct (block_end device <? _); [done|]. apply (locked_returns _ s i); [done|].
  intros s0 Hc0 Eb Et. rewrite <-Eb, <-Et in *. clear Eb Et s Hc.
  destruct (dataload_returns s0 page n) as (s1 & E1 & M1); [apply Hc0|done|].
  cbv zeta in E1, M1. rewrite <-(via_ops_eq _ s0) in E1 by apply Hc0. rewrite (bind_Ret _ _ _ _ _ E1). clear E1.
  unfold read_outcome. destruct (late (tick_reads s0) n); [by exists s1|].
  destruct (2 <=? ecc_status _); [by exists s1|]. change (RT_EOK =? RT_EOK) with true. cbn [negb].
  pose proof (moved_chip _ _ _ _ _ Hc0 M1) as Hc1.
  destruct (wanted_returns s1 i 0 data data_len RT_EOK Hc1) as (s2 & E2 & M2); [unfold is_u8; lia|done|].
  rewrite (bind_Ret _ _ _ _ _ E2). rewrite (moved_wire _ _ _ _ M1) in M2 |- *.
  replace (match wanted data data_len with Some _ => RT_EOK | None => RT_EOK end) with RT_EOK by (by destruct (wanted _ _)).
  change (RT_EOK =? RT_EOK) with true. cbn [negb]. rewrite bind_gets.
  pose proof (moved_chip _ _ _ _ _ Hc1 M2) as Hc2.
  rewrite (chip_info _ _ Hc2), (chip_page i) by apply listed_common, Hc0.
  change (addr1 2048) with 8. change (addr0 2048) with 0.
  destruct (wanted_returns s2 i 8 spare spare_len RT_EOK Hc2) as (s3 & E3 & M3); [unfold is_u8; lia|done|].
  rewrite (bind_Ret _ _ _ _ _ E3). rewrite (moved_wire _ _ _ _ M2) in M3 |- *. exists s3.
  split; [by destruct (wanted spare spare_len)|]. cbv zeta. cbn [snd].
  exact (moved_trans _ _ _ _ _ _ _ M1 (moved_trans _ _ _ _ _ _ _ M2 M3)).
Qed.

(** *** Writing a page *)

(** The bytes a message sends, and the messages the bus must be able to send. *)
Definition given (b : option buf) (len : Z) : list Z :=
  match b with Some b => take (Z.to_nat len) (buf_bytes b) | None => [] end.
Definition sends (h l : Z) (data : option buf) (data_len : Z) (spare : option buf) (spare_len : Z) : Prop :=
  (data = None -> data_len = 0) /\ (spare = None -> spare_len = 0) /\
  Forall bus_takes (dataload_messages h l data data_len spare spare_len).

Lemma message_wire_data b len take_ rel wr :
  (b = None -> len = 0) ->
  fst (message_wire nand_config (mkQMsg (mkMsg b None len take_ rel) 0 0 no_stage no_stage 0 4) wr) =
  (if rel then release (put4 (given b len) (if take_ then select wr else wr))
   else put4 (given b len) (if take_ then select wr else wr)).
Proof.
  intros Hb. unfold message_wire. rewrite cs_take_events, cs_release_events. cbn [parent length_ cs_take cs_release].
  unfold data_words, sent_stages, command_stages. cbn. destruct (Z.eqb_spec len 0) as [->|Hn].
  - unfold put4, given. by destruct b.
  - destruct b as [b|]; [done|]. by destruct (Hn (Hb eq_refl)).
Qed.

Lemma program_load_returns s h l data data_len spare spare_len :
  nready s -> is_u8 h -> is_u8 l -> sends h l data data_len spare spare_len ->
  exists s', spinand_program_dataload h l data data_len spare spare_len s = Ret (RT_EOK, s') /\
    moved s (dataload_wire h l (given data data_len) (given spare spare_len) (bus_wire (bus s))) 0 s'.
Proof.
  intros Hs Hh Hl (Hd & Hsp & Ht). unfold spinand_program_dataload.
  destruct (send_returns Hrx s 0x06 [] Hs) as (s1 & E1 & M1); [unfold is_u8; lia|lia|constructor|cbn; lia|].
  sent E1. destruct (transfer_returns s1 _ (moved_ready _ _ _ _ M1) Ht) as (s2 & E2 & M2).
  rewrite (bind_Ret _ _ _ _ _ E2). exists s2. split; [done|].
  pose proof (moved_trans _ _ _ _ _ _ _ M1 M2) as M. rewrite (moved_wire _ _ _ _ M1) in M.
  revert M. unfold dataload_messages. cbn [messages_wire fst]. rewrite message_wire_data by done.
  rewrite message_wire_nand; cbn [instruction_content instruction_lines address dummy_cycles parent cs_take
    cs_release recv_buf column_stage content length_]; [|lia|done|done|lia].
  rewrite be_column by done. cbv zeta. cbn [fst app replicate]. change (Z.to_nat (0 / 8)) with 0%nat. cbn [replicate].
  unfold dataload_wire, data_words. cbn [parent send_buf length_]. destruct data as [b|]; [done|].
  by rewrite (Hd eq_refl).
Qed.

(** The address sent, the wait, and the fail bits. *)
Definition execute_wire (page : Z) (n : nat) (w : list wire_ev) : list wire_ev :=
  polls (S n) (command (0x10 :: page_bytes page) w).
Definition execute_outcome (timeout : bool) (w : list wire_ev) : Z * list wire_ev :=
  if timeout then (- RT_MTD_EIO, w)
  else (if fail_status w =? 1 then - RT_MTD_EIO else RT_EOK, feature w).

Lemma execute_returns s page n :
  nready s -> stops_at (command (0x10 :: page_bytes page) (bus_wire (bus s))) (tick_reads s) n ->
  exists s', let r := execute_outcome (late (tick_reads s) n) (execute_wire page n (bus_wire (bus s))) in
    spinand_program_execute (addr2 page) (addr1 page) (addr0 page) s = Ret (fst r, s') /\
    moved s (snd r) (S (S n)) s'.
Proof.
  intros Hs Hn. unfold spinand_program_execute.
  destruct (send_returns Hrx s 0x10 (page_bytes page) Hs) as (s1 & E1 & M1);
    [unfold is_u8; lia|lia|apply page_bytes_u8|cbn; lia|].
  change [16; addr2 page; addr1 page; addr0 page] with (0x10 :: page_bytes page). sent E1.
  assert (T1 : tick_reads s1 = tick_reads s) by apply M1.
  destruct (isbusy_returns Hrx s1 n) as (s2 & E2 & M2); [apply M1|by rewrite T1, (moved_wire _ _ _ _ M1)|].
  rewrite T1, (moved_wire _ _ _ _ M1) in *. rewrite (bind_Ret _ _ _ _ _ E2).
  pose proof (moved_trans _ _ _ _ _ _ _ M1 M2) as M. rewrite Nat.add_0_r in M. unfold execute_outcome.
  destruct (late (tick_reads s) n); [by exists s2|]. cbn [negb Z.eqb].
  destruct (feature_returns s2 (moved_ready _ _ _ _ M)) as (s3 & E3 & M3). rewrite (bind_Ret _ _ _ _ _ E3).
  exists s3. split; [by rewrite (moved_wire _ _ _ _ M)|].
  pose proof (moved_trans _ _ _ _ _ _ _ M M3) as M'. by rewrite (moved_wire _ _ _ _ M) in M'.
Qed.

(** Data goes to column 0; without data the spare bytes go to column 2048. *)
Definition column_of (data : option buf) (len : Z) : Z :=
  if data is Some _ then if len =? 0 then 8 else 0 else 8.
Definition data_of (data : option buf) (len : Z) : option buf :=
  if data is Some _ then if len =? 0 then None else data else None.
Definition len_of (data : option buf) (len : Z) : Z := if data is Some _ then if len =? 0 then 0 else len else 0.

(** Writing a page of a chip of the list.  A page beyond the device's last block
    is refused with -RT_MTD_EIO and nothing is sent.  Otherwise the chip gets a write
    enable, the data at column 0 and the spare bytes behind it (or, without data, the
    spare bytes at column 2048) in one command on four lines, and the program command
    with the page's address.  The result is -RT_MTD_EIO if the wait times out or the
    two fail bits of the status register read exactly 1, and RT_EOK otherwise - also
    when they read 2 or 3.  The flash's lock is given back. *)
Theorem write_page_spec s i device page data data_len spare spare_len n :
  let h := column_of data data_len in
  let d := data_of data data_len in
  let dl := len_of data data_len in
  let w := dataload_wire h 0 (given d dl) (given spare spare_len) (bus_wire (bus s)) in
  chip_ready s i -> 0 < pages_per_block device ->
  sends h 0 d dl spare spare_len ->
  stops_at (command (0x10 :: page_bytes page) w) (tick_reads s) n ->
  if block_end device <? u32 page / pages_per_block device then
    spinand_write_page device page data data_len spare spare_len s = Ret (- RT_MTD_EIO, s)
  else exists s',
    let r := execute_outcome (late (tick_reads s) n) (execute_wire page n w) in
    spinand_write_page device page data data_len spare spare_len s = Ret (fst r, s') /\
    moved s (snd r) (S (S n)) s'.
Proof.
  intros h d dl w Hc Hp Hd Hn. unfold spinand_write_page.
  rewrite (bind_Ret _ _ _ _ _ (page_outside_eq _ _ _ Hp)). destruct (block_end device <? _); [done|].
  pose proof (listed_common i (chip_listed _ _ Hc)) as Hi. apply (locked_returns _ s i); [done|].
  intros s0 Hc0 Eb Et. rewrite bind_gets, (chip_info _ _ Hc0), (chip_die _ Hi).
  change (0 =? 1) with false. cbv iota. rewrite bind_ret_l. change (RT_EOK =? RT_EOK) with true. cbn [negb]. rewrite (chip_page _ Hi).
  change (addr1 2048) with 8. change (addr0 2048) with 0.
  destruct (program_load_returns s0 h 0 d dl spare spare_len) as (s1 & E1 & M1);
    [apply Hc0|unfold h, column_of, is_u8; repeat case_match; lia|unfold is_u8; lia|done|].
  rewrite Eb in M1. fold w in M1. rewrite <-(via_ops_eq _ s0) in E1 by apply Hc0.
  match goal with |- context [bind ?m ?k s0] => replace (bind m k s0)
    with (bind (via_ops (spinand_program_dataload h 0 d dl spare spare_len)) k s0)
    by (unfold h, d, dl, column_of, data_of, len_of; destruct data; [destruct (data_len =? 0)|]; done) end.
  sent E1. rewrite via_ops_eq by apply (moved_chip _ _ _ _ _ Hc0 M1).
  destruct (execute_returns s1 page n) as (s2 & E2 & M2);
    [apply M1|by rewrite (moved_wire _ _ _ _ M1), (moved_ticks _ _ _ _ M1), Et|].
  rewrite (moved_wire _ _ _ _ M1), (moved_ticks _ _ _ _ M1), Et in *. exists s2. split; [exact E2|].
  pose proof (moved_trans _ _ _ _ _ _ _ M1 M2) as H. by rewrite Nat.add_0_r in H.
Qed.
End ops.
