(* ===== verification/NandBlock.v ===== *)
(** * Blocks of the SPI-NAND

    The bad-block check, erasing a block, marking it bad, and which blocks the shell
    command that erases a partition touches. *)

From Stdlib Require Import ZArith Lia Bool String.
From stdpp Require Import base tactics numbers list option.
From S2P Require Import Prelude BitUtil PdmaRegs Pdma PdmaFacts SpiHw SpiOpen Spi SpiPoll SpiXfer Qspi NandBus NandPort Spinand SpinandDrv NandOps NandPage.

Open Scope Z_scope.

Section block.
Context {B : Type} `{QS : QspiBusSpec B} `{NG : NandGranted B}.
Implicit Types s : nand B.

(** ** Looking for the marker *)

(** A page read for its marker byte, at column 2048, with the wait begun at tick read
    [t]: the marker and the wire after it, or nothing if the page cannot be loaded. *)
Definition look (page : Z) (n t : nat) (w : list wire_ev) : option (Z * list wire_ev) :=
  let w1 := load_wire page n w in
  if late t n || (2 <=? ecc_status w1) then None
  else Some (answer_of [0x03; 8; 0; 0] (feature w1), fst (query [0x03; 8; 0; 0] 1 (feature w1))).

(** The verdict on the block, the wire and the reads of the tick; the second page is
    looked at only when the first page's number is a multiple of pages per block times
    bytes per page. *)
Definition isbad_outcome (page : Z) (n1 n2 t : nat) (w : list wire_ev) : option (Z * list wire_ev * nat) :=
  match look page n1 t w with
  | None => None
  | Some (m1, w1) =>
      if negb (m1 =? 0xFF) then Some (1, w1, S (S n1))
      else if page mod 131072 =? 0 then
        match look (page + 1) n2 (S (S n1) + t) w1 with
        | None => None
        | Some (m2, w2) => Some (if negb (m2 =? 0xFF) then 1 else 0, w2, (S (S n2) + S (S n1))%nat)
        end
      else Some (0, w1, S (S n1))
  end.

(** The waits of the check: the second when there is a second page to look at. *)
Definition isbad_stops (page : Z) (n1 n2 t : nat) (w : list wire_ev) : Prop :=
  stops_at (command (0x13 :: page_bytes page) w) t n1 /\
  (page mod 131072 = 0 -> forall m w1, look page n1 t w = Some (m, w1) ->
     stops_at (command (0x13 :: page_bytes (page + 1)) w1) (S (S n1) + t) n2).

Context (Hrx : (4 <= rx_depth)%nat).

(** One pass of the loop. *)
Lemma look_returns {A} s i page n (k : nu_spinand_info -> Z -> M (nand B) A) :
  chip_ready s i -> stops_at (command (0x13 :: page_bytes page) (bus_wire (bus s))) (tick_reads s) n ->
  let m := (let! result := spinand_read_dataload (addr2 page) (addr1 page) (addr0 page) in
            rt_assert (result =? RT_EOK) ;;
            let! i := gets flash_info in
            let! '(result, got) := spinand_normal_read (addr1 (u16PageSize i)) (addr0 (u16PageSize i)) recv_addr 1 in
            rt_assert (result =? RT_EOK) ;;
            let! read_buf := deref (head got) in k i read_buf) in
  match look page n (tick_reads s) (bus_wire (bus s)) with
  | None => m s = AssertFail
  | Some (v, w) => exists s', m s = k i v s' /\ moved s w (S (S n)) s'
  end.
Proof.
  intros Hc Hn m. unfold m, look. clear m.
  destruct (dataload_returns Hrx s page n) as (s1 & E1 & M1); [apply Hc|done|]. cbv zeta in E1, M1.
  rewrite (bind_Ret _ _ _ _ _ E1). destruct (late (tick_reads s) n); [done|]. cbn [orb].
  destruct (2 <=? ecc_status _); [done|]. rewrite bind_assert by done. rewrite bind_gets.
  pose proof (moved_chip _ _ _ _ _ Hc M1) as Hc1.
  rewrite (chip_info _ _ Hc1), (chip_page i) by apply listed_common, Hc.
  change (addr1 2048) with 8. change (addr0 2048) with 0. unfold spinand_normal_read.
  destruct (query_moved Hrx s1 [0x03; 8; 0; 0] 1) as (s2 & E2 & M2);
    [apply Hc1|repeat constructor; unfold is_u8; lia|cbn; lia|lia|].
  change (Z.of_nat 1) with 1 in E2. rewrite (bind_Ret _ _ _ _ _ E2), bind_assert by done.
  rewrite query_one, (moved_wire _ _ _ _ M1) in *. cbn [head deref]. rewrite bind_ret_l. exists s2.
  split; [done|]. exact (moved_trans _ _ _ _ _ _ _ M1 M2).
Qed.

(** What the loop makes of a marker. *)
Definition judge (fuel : nat) (page : Z) (i : nu_spinand_info) (read_buf : Z) : M (nand B) Z :=
  if negb (read_buf =? 0xFF) then ret 1 else
  let m := u32 (u32PagePerBlock i * u16PageSize i) in
  if m =? 0 then undefined else
  if page mod m =? 0 then isbad_loop fuel (u32 (page + 1)) else ret 0.

Lemma judge_eq fuel page i v :
  common_chip i ->
  judge fuel page i v = if negb (v =? 0xFF) then ret 1 else
    if page mod 131072 =? 0 then isbad_loop fuel (u32 (page + 1)) else ret 0.
Proof. intros Hi. unfold judge. by rewrite (chip_pages _ Hi), (chip_page _ Hi). Qed.

Lemma isbad_returns s i page n1 n2 :
  chip_ready s i -> 0 <= page < 2 ^ 31 -> isbad_stops page n1 n2 (tick_reads s) (bus_wire (bus s)) ->
  match isbad_outcome page n1 n2 (tick_reads s) (bus_wire (bus s)) with
  | None => spinand_block_isbad page s = AssertFail
  | Some (v, w, n) => exists s', spinand_block_isbad page s = Ret (v, s') /\ moved s w n s'
  end.
Proof.
  intros Hc Hp [Hn1 Hn2]. unfold spinand_block_isbad, isbad_outcome.
  pose proof (listed_common i (chip_listed _ _ Hc)) as Hi.
  pose proof (look_returns s i page n1 (judge 1 page) Hc Hn1) as L1. cbv zeta in L1.
  destruct (look page n1 _ _) as [[v1 w1]|]; [|exact L1]. destruct L1 as (s1 & E1 & M1).
  change (isbad_loop 2 page s = judge 1 page i v1 s1) in E1. rewrite E1, judge_eq by done.
  destruct (negb (v1 =? 0xFF)); [by exists s1|]. destruct (Z.eqb_spec (page mod 131072) 0) as [E|]; [|by exists s1].
  rewrite u32_small by (unfold is_u32; lia). specialize (Hn2 E _ _ eq_refl).
  rewrite <-(moved_wire _ _ _ _ M1), <-(moved_ticks _ _ _ _ M1) in *.
  pose proof (look_returns s1 i (page + 1) n2 (judge 0 (page + 1)) (moved_chip _ _ _ _ _ Hc M1) Hn2) as L2.
  cbv zeta in L2. destruct (look (page + 1) n2 _ _) as [[v2 w2]|]; [|exact L2].
  destruct L2 as (s2 & E2 & M2). change (isbad_loop 1 (page + 1) s1 = judge 0 (page + 1) i v2 s2) in E2.
  rewrite E2, judge_eq by done. exists s2. split; [|exact (moved_trans _ _ _ _ _ _ _ M1 M2)].
  destruct (negb (v2 =? 0xFF)); [done|]. destruct (Z.eqb_spec ((page + 1) mod 131072) 0) as [E'|]; [|done].
  exfalso. clear -E E'. rewrite Z.add_mod, E in E' by lia. discriminate E'.
Qed.

(** ** Erasing *)

Definition erase_wire (page : Z) (n : nat) (w : list wire_ev) : list wire_ev :=
  polls (S n) (command (0xD8 :: page_bytes page) (command [0x06] w)).
Definition erase_outcome (timeout : bool) (w : list wire_ev) : Z * list wire_ev :=
  if timeout then (- RT_EIO, w)
  else (if fail_status w =? 0 then RT_EOK else - RT_ERROR, feature w).

Lemma erase_returns s page n :
  nready s -> stops_at (command (0xD8 :: page_bytes page) (command [0x06] (bus_wire (bus s)))) (tick_reads s) n ->
  exists s', let r := erase_outcome (late (tick_reads s) n) (erase_wire page n (bus_wire (bus s))) in
    spinand_block_erase page s = Ret (fst r, s') /\ moved s (snd r) (S (S n)) s'.
Proof.
  intros Hs Hn. unfold spinand_block_erase.
  destruct (send_returns Hrx s 0x06 [] Hs) as (s0 & E0 & M0); [unfold is_u8; lia|lia|constructor|cbn; lia|].
  rewrite (bind_Ret _ _ _ _ _ E0). change (RT_EOK =? RT_EOK) with true. cbn [negb].
  destruct (send_returns Hrx s0 0xD8 (page_bytes page)) as (s1 & E1 & M1);
    [apply M0|unfold is_u8; lia|lia|apply page_bytes_u8|cbn; lia|].
  change [216; addr2 page; addr1 page; addr0 page] with (0xD8 :: page_bytes page).
  rewrite (bind_Ret _ _ _ _ _ E1). change (RT_EOK =? RT_EOK) with true. cbn [negb].
  pose proof (moved_trans _ _ _ _ _ _ _ M0 M1) as M01. rewrite (moved_wire _ _ _ _ M0) in M01. clear E0 E1 M0 M1 s0.
  assert (T1 : tick_reads s1 = tick_reads s) by apply M01.
  destruct (isbusy_returns Hrx s1 n) as (s2 & E2 & M2); [apply M01|by rewrite T1, (moved_wire _ _ _ _ M01)|].
  rewrite T1, (moved_wire _ _ _ _ M01) in *. rewrite (bind_Ret _ _ _ _ _ E2).
  pose proof (moved_trans _ _ _ _ _ _ _ M01 M2) as M. rewrite !Nat.add_0_r in M. unfold erase_outcome.
  destruct (late (tick_reads s) n); [by exists s2|]. cbn [negb Z.eqb].
  destruct (feature_returns Hrx s2 (moved_ready _ _ _ _ M)) as (s3 & E3 & M3).
  unfold spinand_program_erase_isfail. rewrite bind_assoc, (bind_Ret _ _ _ _ _ E3), bind_ret_l.
  exists s3. rewrite (moved_wire _ _ _ _ M) in *. pose proof (moved_trans _ _ _ _ _ _ _ M M3) as M'.
  split; [|exact M']. unfold ret, fail_status. do 2 f_equal.
  change (polls (S n) (command (216 :: page_bytes page) (command [6] (bus_wire (bus s))))) with (erase_wire page n (bus_wire (bus s))).
  by destruct (_ =? 0).
Qed.

(** Erasing a block of a chip of the list.  A block beyond the device's last is
    refused with -RT_MTD_EIO and nothing is sent.  Otherwise the marker of the block's
    first page is read; only of a block whose number is a multiple of 2048 is the
    second page's read, too.  A page that cannot be loaded - the wait times out, or the
    chip reports an ECC status of 2 or 3 - stops the system at an assertion.  A block
    with a marker other than 0xFF is left alone and -RT_ERROR returned.  Any other
    block gets write enable and the erase command with the number of its first page;
    the result is -RT_EIO if the wait times out, -RT_ERROR if a fail bit is set
    afterwards, RT_EOK otherwise.  The flash's lock is given back. *)
Theorem erase_block_spec s i device block n1 n2 n3 :
  chip_ready s i -> 0 <= block < 2 ^ 25 ->
  isbad_stops (block * 64) n1 n2 (tick_reads s) (bus_wire (bus s)) ->
  (forall w n, isbad_outcome (block * 64) n1 n2 (tick_reads s) (bus_wire (bus s)) = Some (0, w, n) ->
     stops_at (command (0xD8 :: page_bytes (block * 64)) (command [0x06] w)) (n + tick_reads s) n3) ->
  if block_end device <? block then spinand_erase_block device block s = Ret (- RT_MTD_EIO, s)
  else match isbad_outcome (block * 64) n1 n2 (tick_reads s) (bus_wire (bus s)) with
  | None => spinand_erase_block device block s = AssertFail
  | Some (v, w, n) => exists s',
      let r := if v =? 0 then erase_outcome (late (n + tick_reads s) n3) (erase_wire (block * 64) n3 w)
               else (- RT_ERROR, w) in
      spinand_erase_block device block s = Ret (fst r, s') /\
      moved s (snd r) (if v =? 0 then S (S n3) + n else n) s'
  end.
Proof.
  intros Hc Hb Hs1 Hs3. unfold spinand_erase_block. destruct (block_end device <? block); [done|].
  rewrite bind_gets, (chip_info _ _ Hc). unfold first_page.
  rewrite (chip_pages i), u32_small by (first [apply listed_common, Hc|unfold is_u32; lia]).
  pose proof (fun s0 H0 => isbad_returns s0 i (block * 64) n1 n2 H0 ltac:(lia)) as Hbad.
  destruct (isbad_outcome _ _ _ _ _) as [[[v w] n]|] eqn:Eo.
  - apply (locked_returns _ s i); [done|]. intros s0 Hc0 Eb Et. specialize (Hbad s0 Hc0).
    rewrite Eb, Et, Eo in Hbad. destruct (Hbad Hs1) as (s1 & E1 & M1).
    rewrite <-(via_ops_eq _ s0) in E1 by apply Hc0. rewrite (bind_Ret _ _ _ _ _ E1).
    destruct (Z.eqb_spec v 0) as [->|]; [|by exists s1]. cbn [negb].
    rewrite via_ops_eq by apply (moved_chip _ _ _ _ _ Hc0 M1).
    destruct (erase_returns s1 (block * 64) n3) as (s2 & E2 & M2);
      [apply M1|rewrite (moved_wire _ _ _ _ M1), (moved_ticks _ _ _ _ M1), Et; by apply Hs3|].
    rewrite (moved_wire _ _ _ _ M1), (moved_ticks _ _ _ _ M1), Et in *. exists s2. split; [exact E2|].
    exact (moved_trans _ _ _ _ _ _ _ M1 M2).
  - apply (locked_asserts _ s i); [done|]. intros s0 Hc0 Eb Et. specialize (Hbad s0 Hc0).
    rewrite Eb, Et, Eo in Hbad. apply bind_AssertFail. rewrite via_ops_eq by apply Hc0. by apply Hbad.
Qed.
End block.
