(* ===== verification/NandBoard.v ===== *)
(** * A board with a SPI-NAND

    The flash driver on the QSPI driver of [Qspi], with a chip that is never busy and
    a clock of one tick per look; the properties of the flash driver applied to it. *)

From Stdlib Require Import ZArith Lia Bool String.
From stdpp Require Import base tactics numbers list option.
From S2P Require Import Prelude BitUtil PdmaRegs Pdma PdmaFacts SpiHw SpiOpen Spi SpiPoll SpiXfer Qspi NandBus NandPort Spinand SpinandDrv NandOps NandPage NandBlock.

Open Scope Z_scope.

(** The words since the last time the chip was selected, latest first. *)
Fixpoint in_command (l : list wire_ev) : list Z :=
  match l with
  | WWord _ _ w _ :: l => w :: in_command l
  | _ => []
  end.

(** Marker reads answer 0xFF, quad reads count, everything else answers 0. *)
Definition idle_chip (wr : list wire_ev) (_ : bus_mode) (_ : Z) : Z :=
  let ws := in_command (rev wr) in
  match head (rev ws) with
  | Some 0x03 => 0xFF
  | Some 0x6b => Z.of_nat (length ws)
  | _ => 0
  end.

Definition nand_shw : SpiHw := board_spi (fun _ => 1%nat) idle_chip.
#[local] Existing Instance nand_shw.
#[local] Existing Instances board_hw board_heap board_cbs board_spi_env board_spi_dma board_qaddr.
#[local] Instance nand_shw_spec : SpiHwSpec.
Proof. apply board_spi_spec. intros. cbn. lia. Qed.

#[local] Instance nand_env : NandEnv spi_st :=
  Build_NandEnv spi_st (fun n => Z.of_nat n) 16 (fun _ => 0) (fun _ => 0) 0x80006000 0x80006100.
#[local] Instance nand_granted : NandGranted spi_st.
Proof. by split. Qed.

Lemma nand_rx : (4 <= rx_depth)%nat.
Proof. apply Nat.leb_le. reflexivity. Qed.

Lemma nand_fuel : (0 < busy_fuel)%nat.
Proof. by apply Nat.ltb_lt. Qed.

Definition winbond : nu_spinand_info :=
  mkInfo 0xEFAA21 2048 64 0x6b 0xff 0xff 0xff 0x1 1024 64 0 "Winbond 128MB: 2048+64@64@1024"
     (layout [0x04; 0x04; 0x14; 0x04; 0x24; 0x04; 0x34; 0x04; 0xFF; 0x00])
     (layout [0x08; 0x08; 0x18; 0x08; 0x28; 0x08; 0x38; 0x08; 0xFF; 0x00]).

(** The device registered, and its second partition. *)
Definition board_nand : nand spi_st :=
  mkNand board_bus 0 true 0 0 true nand_config winbond true 0 (au8DataLayout winbond) (au8EccLayout winbond)
    board_partitions true.
Definition nand1 : rt_mtd_nand_device := mkMtd 2048 64 32 0 64 1984 64 2047 true.

Lemma board_nand_ready : nready board_nand.
Proof. by split. Qed.

Lemma board_chip_ready : chip_ready board_nand winbond.
Proof. split; [apply board_nand_ready|done|done|left]. Qed.

(** The chip is ready at the first look. *)
Lemma stops_at_once wr t : busy_bit wr = false -> stops_at (NE := nand_env) wr t 0.
Proof. intros E. split; [lia|by right|by apply Nat.ltb_lt]. Qed.

Lemma transfer_message_spec_witness :
  exists s', nu_qspi_transfer_message [quad_read; quad_read] board_nand = Ret ((RT_EOK, [[4; 5; 6]; [4; 5; 6]]), s').
Proof.
  destruct (transfer_message_spec board_nand [quad_read; quad_read]) as (_ & _ & _ & H).
  eexists. eapply (H (bus board_nand) [[4; 5; 6]; [4; 5; 6]] _ true eq_refl eq_refl eq_refl).
  eapply carried_next; [vm_compute; reflexivity|discriminate|].
  eapply carried_next; [vm_compute; reflexivity|discriminate|]. apply carried_all.
Defined.

Lemma isbusy_spec_witness : exists s', spinand_isbusy board_nand = Ret (0, s').
Proof.
  destruct (isbusy_spec nand_rx board_nand 0 board_nand_ready nand_fuel)
    as (n & s' & Hn & _ & E & _); [right; vm_compute; reflexivity|].
  assert (n = 0%nat) as -> by lia. exists s'. rewrite E. reflexivity.
Defined.

Lemma quad_fills h a len : h = 0 \/ h = 8 -> 0 <= len <= 8 -> fills winbond h (Some a) len.
Proof.
  intros Hh Hl. split; [lia|]. intros b _. split; [|done].
  split; cbn; try done; try lia; try (by left); try (by left; left).
  - right. right. left.
  - left. by right.
  - right. right. by eexists.
  - intros _. left. change rx_depth with 8%nat. lia.
Qed.

Lemma read_page_spec_witness :
  exists s', spinand_read_page nand1 4100 (Some 0x80007000) 4 (Some 0x80007100) 2 board_nand
    = Ret ((RT_EOK, [4; 5; 6; 7], [4; 5]), s').
Proof.
  pose proof (read_page_spec nand_rx board_nand winbond nand1 4100
    (Some 0x80007000) 4 (Some 0x80007100) 2 0 board_chip_ready ltac:(cbn; lia)) as H.
  destruct H as (s' & E & _).
  - apply stops_at_once. vm_compute. reflexivity.
  - apply quad_fills; [by left|lia].
  - apply quad_fills; [by right|lia].
  - exists s'. rewrite E. vm_compute. reflexivity.
Defined.

Lemma page_sends : sends 0 0 (Some (mkBuf 0x80007000 [1; 2; 3])) 3 (Some (mkBuf 0x80007100 [9])) 1.
Proof.
  split; [done|]. split; [done|].
  constructor; [|constructor; [|constructor]].
  all: split; [split|done]; cbn; try done; try lia; try (by left); try (by right); try (by left; left); try (by left; right).
  all: try (right; left; by eexists); try (right; right; left).
  all: intros b [= <-] _; cbn; split; [|lia].
  all: apply (bool_decide_unpack _); vm_compute; exact I.
Qed.

Lemma write_page_spec_witness :
  exists s', spinand_write_page nand1 4100 (Some (mkBuf 0x80007000 [1; 2; 3])) 3 (Some (mkBuf 0x80007100 [9])) 1
    board_nand = Ret (RT_EOK, s').
Proof.
  destruct (write_page_spec nand_rx board_nand winbond nand1 4100 (Some (mkBuf 0x80007000 [1; 2; 3])) 3
    (Some (mkBuf 0x80007100 [9])) 1 0 board_chip_ready ltac:(cbn; lia) page_sends) as (s' & E & _).
  - apply stops_at_once. vm_compute. reflexivity.
  - exists s'. rewrite E. vm_compute. reflexivity.
Defined.

Lemma erase_block_spec_witness : exists s', spinand_erase_block nand1 65 board_nand = Ret (RT_EOK, s').
Proof.
  pose proof (erase_block_spec nand_rx board_nand winbond nand1 65 0 0 0 board_chip_ready ltac:(lia)) as H.
  destruct (isbad_outcome (65 * 64) 0 0 (tick_reads board_nand) (bus_wire (bus board_nand)))
    as [[[v w] n]|] eqn:Eo; [|discriminate Eo].
  assert (Ev : v = 0) by (vm_compute in Eo; congruence). subst v. destruct H as (s' & E & _).
  - split; [apply stops_at_once; vm_compute; reflexivity|discriminate].
  - intros w' n' [= <- <-]. apply stops_at_once. vm_compute in Eo. injection Eo as <- _. vm_compute. reflexivity.
  - exists s'. rewrite E. f_equal. vm_compute in Eo. injection Eo as <- <-. vm_compute. reflexivity.
Defined.
