(* ===== verification/CanFdHw.v ===== *)
(** * The CAN FD controller

    Registers and message RAM of one CAN FD controller, as
    [libraries/ma35/Device/Nuvoton/MA35/Include/canfd_reg.h] documents them, and the
    controller's own moves: a frame stored in a receive FIFO, a transmission that
    completes.

    Three kinds of register are not plain storage.  A bit of IR, NDAT1 or NDAT2 is
    cleared by writing 1 to it (RF0L, RF1L and TEFL of the FIFO status registers are
    copies of the bits of IR).  A write to TXBAR requests the transmission of configured
    buffers, a write to an acknowledge register moves the FIFO's get index past the
    index written.  A new value of CCCR.INIT can be read back only after a delay, here a
    number of reads of CCCR that the model does not fix ([canfd_sync]).

    C leaves a product or a left shift of [int]s that does not fit undefined; what a
    compiled program does then is a parameter too ([canfd_overflow]: [strict] for the C
    rule, [wraps] for two's complement wrap-around). *)

From Stdlib Require Import ZArith Lia Bool.
From stdpp Require Import base tactics numbers list option.
From S2P Require Import Prelude.

Open Scope Z_scope.

(** ** Registers *)

Inductive CANFD_T : Type :=
| DBTP | TEST | CCCR | NBTP | ECR | PSR | IR | IE | ILS | ILE | GFC | SIDFC | XIDFC
| NDAT1 | NDAT2 | RXF0C | RXF0S | RXF0A | RXBC | RXF1C | RXF1S | RXF1A | RXESC
| TXBC | TXESC | TXBRP | TXBAR | TXBCR | TXBTO | TXBTIE | TXBCIE | TXEFC | TXEFS | TXEFA.

#[export] Instance CANFD_T_eq_dec : EqDecision CANFD_T.
Proof. solve_decision. Defined.

Definition CANFD_TEST_LBCK_Msk : Z := shl32 1 4.
Definition CANFD_CCCR_INIT_Msk : Z := shl32 1 0.
Definition CANFD_CCCR_CCE_Msk : Z := shl32 1 1.
Definition CANFD_CCCR_ASM_Msk : Z := shl32 1 2.
Definition CANFD_CCCR_MON_Msk : Z := shl32 1 5.
Definition CANFD_CCCR_TEST_Msk : Z := shl32 1 7.
Definition CANFD_CCCR_FDOE_Msk : Z := shl32 1 8.
Definition CANFD_CCCR_BRSE_Msk : Z := shl32 1 9.
Definition CANFD_ECR_TEC_Pos : Z := 0.
Definition CANFD_ECR_TEC_Msk : Z := shl32 0xff 0.
Definition CANFD_ECR_REC_Pos : Z := 8.
Definition CANFD_ECR_REC_Msk : Z := shl32 0x7f 8.
Definition CANFD_PSR_LEC_Pos : Z := 0.
Definition CANFD_PSR_LEC_Msk : Z := shl32 0x7 0.
Definition CANFD_PSR_EP_Msk : Z := shl32 1 5.
Definition CANFD_PSR_EW_Msk : Z := shl32 1 6.
Definition CANFD_PSR_BO_Msk : Z := shl32 1 7.
Definition CANFD_IR_RF0N_Msk : Z := shl32 1 0.
Definition CANFD_IR_RF0L_Msk : Z := shl32 1 3.
Definition CANFD_IR_RF1N_Msk : Z := shl32 1 4.
Definition CANFD_IR_RF1L_Msk : Z := shl32 1 7.
Definition CANFD_IR_TC_Msk : Z := shl32 1 9.
Definition CANFD_IR_TEFF_Msk : Z := shl32 1 14.
Definition CANFD_IR_TEFL_Msk : Z := shl32 1 15.
Definition CANFD_IR_TOO_Msk : Z := shl32 1 18.
Definition CANFD_IR_EW_Msk : Z := shl32 1 24.
Definition CANFD_IR_BO_Msk : Z := shl32 1 25.
Definition CANFD_IR_PED_Msk : Z := shl32 1 28.
Definition CANFD_IE_RF0NE_Msk : Z := shl32 1 0.
Definition CANFD_IE_RF1NE_Msk : Z := shl32 1 4.
Definition CANFD_IE_TCE_Msk : Z := shl32 1 9.
Definition CANFD_IE_TEFNE_Msk : Z := shl32 1 12.
Definition CANFD_IE_TOOE_Msk : Z := shl32 1 18.
Definition CANFD_IE_ELOE_Msk : Z := shl32 1 22.
Definition CANFD_IE_EPE_Msk : Z := shl32 1 23.
Definition CANFD_IE_EWE_Msk : Z := shl32 1 24.
Definition CANFD_IE_BOE_Msk : Z := shl32 1 25.
Definition CANFD_ILE_ENT0_Msk : Z := shl32 1 0.
Definition CANFD_ILE_ENT1_Msk : Z := shl32 1 1.
Definition CANFD_GFC_RRFE_Pos : Z := 0.
Definition CANFD_GFC_RRFE_Msk : Z := shl32 1 0.
Definition CANFD_GFC_RRFS_Pos : Z := 1.
Definition CANFD_GFC_RRFS_Msk : Z := shl32 1 1.
Definition CANFD_GFC_ANFE_Pos : Z := 2.
Definition CANFD_GFC_ANFE_Msk : Z := shl32 0x3 2.
Definition CANFD_GFC_ANFS_Pos : Z := 4.
Definition CANFD_GFC_ANFS_Msk : Z := shl32 0x3 4.
Definition CANFD_SIDFC_FLSSA_Msk : Z := shl32 0x3fff 2.
Definition CANFD_SIDFC_LSS_Pos : Z := 16.
Definition CANFD_XIDFC_FLESA_Msk : Z := shl32 0x3fff 2.
Definition CANFD_XIDFC_LSE_Pos : Z := 16.
Definition CANFD_RXF0C_F0SA_Msk : Z := shl32 0x3fff 2.
Definition CANFD_RXF0C_F0S_Pos : Z := 16.
Definition CANFD_RXF0C_F0WM_Pos : Z := 24.
Definition CANFD_RXF0C_F0WM_Msk : Z := shl32 0x7f 24.
Definition CANFD_RXF0S_F0FL_Msk : Z := shl32 0x7f 0.
Definition CANFD_RXF0S_F0GI_Pos : Z := 8.
Definition CANFD_RXF0S_F0GI_Msk : Z := shl32 0x3f 8.
Definition CANFD_RXF0S_F0PI_Pos : Z := 16.
Definition CANFD_RXF0S_RF0L_Msk : Z := shl32 1 25.
Definition CANFD_RXBC_RBSA_Msk : Z := shl32 0x3fff 2.
Definition CANFD_RXF1C_F1SA_Msk : Z := shl32 0x3fff 2.
Definition CANFD_RXF1C_F1S_Pos : Z := 16.
Definition CANFD_RXF1C_F1WM_Pos : Z := 24.
Definition CANFD_RXF1C_F1WM_Msk : Z := shl32 0x7f 24.
Definition CANFD_RXESC_F0DS_Pos : Z := 0.
Definition CANFD_RXESC_F0DS_Msk : Z := shl32 0x7 0.
Definition CANFD_RXESC_F1DS_Pos : Z := 4.
Definition CANFD_RXESC_F1DS_Msk : Z := shl32 0x7 4.
Definition CANFD_RXESC_RBDS_Pos : Z := 8.
Definition CANFD_RXESC_RBDS_Msk : Z := shl32 0x7 8.
Definition CANFD_TXBC_TBSA_Msk : Z := shl32 0x3fff 2.
Definition CANFD_TXBC_NDTB_Pos : Z := 16.
Definition CANFD_TXBC_TFQS_Pos : Z := 24.
Definition CANFD_TXESC_TBDS_Pos : Z := 0.
Definition CANFD_TXESC_TBDS_Msk : Z := shl32 0x7 0.
Definition CANFD_TXBTIE_TIEn_Msk : Z := shl32 0xffffffff 0.
Definition CANFD_TXBCIE_CFIEn_Msk : Z := shl32 0xffffffff 0.
Definition CANFD_TXEFC_EFSA_Msk : Z := shl32 0x3fff 2.
Definition CANFD_TXEFC_EFS_Pos : Z := 16.
Definition CANFD_TXEFC_EFWM_Pos : Z := 24.
Definition CANFD_TXEFC_EFWM_Msk : Z := shl32 0x3f 24.
Definition CANFD_TXEFS_EFFL_Msk : Z := shl32 0x3f 0.
Definition CANFD_TXEFS_EFGI_Pos : Z := 8.
Definition CANFD_TXEFS_EFGI_Msk : Z := shl32 0x1f 8.
Definition CANFD_TXEFS_TEFL_Msk : Z := shl32 1 25.

(** ** Message RAM

    The bytes from [CANFD_SRAM_BASE_ADDR] on; an access that does not lie inside the
    RAM has no result.  A pointer into the RAM is its offset from there. *)

Definition CANFD_SRAM_SIZE : Z := 0x2000.

(** ** The controller *)

Record canfd_env : Type := mkCanfdEnv {
  canfd_vpll : bool;                   (* the module's clock source is VPLL, else APLL *)
  canfd_VPLL : Z;                      (* CLK_GetPLLClockFreq(VPLL) *)
  canfd_APLL : Z;
  canfd_SystemCoreClock : Z;
  canfd_reset : CANFD_T -> Z;          (* the registers after SYS_ResetModule *)
  canfd_sync : nat;                    (* reads of CCCR before a new INIT shows *)
  canfd_overflow : Z -> option Z       (* an int result that does not fit an int *)
}.

Record canfd_hw : Type := mkCanfd {
  cf_regs : CANFD_T -> Z;
  cf_ram : list Z;
  cf_old : bool;                       (* the former INIT, shown for *)
  cf_lag : nat;                        (* this many reads *)
  cf_clk : bool;                       (* the module clock runs *)
  cf_CLKDIV0 : Z                       (* CLK->CLKDIV0 *)
}.

Definition set_regs (f : CANFD_T -> Z) (h : canfd_hw) : canfd_hw :=
  mkCanfd f (cf_ram h) (cf_old h) (cf_lag h) (cf_clk h) (cf_CLKDIV0 h).
Definition set_ram (r : list Z) (h : canfd_hw) : canfd_hw :=
  mkCanfd (cf_regs h) r (cf_old h) (cf_lag h) (cf_clk h) (cf_CLKDIV0 h).
Definition set_lag (o : bool) (n : nat) (h : canfd_hw) : canfd_hw :=
  mkCanfd (cf_regs h) (cf_ram h) o n (cf_clk h) (cf_CLKDIV0 h).
Definition set_clk (b : bool) (h : canfd_hw) : canfd_hw :=
  mkCanfd (cf_regs h) (cf_ram h) (cf_old h) (cf_lag h) b (cf_CLKDIV0 h).
Definition set_CLKDIV0 (v : Z) (h : canfd_hw) : canfd_hw :=
  mkCanfd (cf_regs h) (cf_ram h) (cf_old h) (cf_lag h) (cf_clk h) v.

Definition reg_upd (f : CANFD_T -> Z) (r : CANFD_T) (v : Z) : CANFD_T -> Z :=
  fun r' => if decide (r = r') then v else f r'.

Lemma reg_upd_eq f r v : reg_upd f r v r = v.
Proof. unfold reg_upd. by rewrite decide_True. Qed.
Lemma reg_upd_ne f r r' v : r <> r' -> reg_upd f r v r' = f r'.
Proof. intros H. unfold reg_upd. by rewrite decide_False. Qed.

(** The bits of a FIFO status register: fill level, get and put index. *)
Definition fifo_fill (s : Z) : Z := field_get s 7 0.
Definition fifo_get (s : Z) : Z := field_get s 6 8.
Definition fifo_put (s : Z) : Z := field_get s 6 16.
Definition fifo_status (fl gi pi : Z) (full lost : bool) : Z :=
  fl + Z.shiftl gi 8 + Z.shiftl pi 16 + (if full then bit 24 else 0) + (if lost then bit 25 else 0).

(** Sizes above the largest are read as the largest. *)
Definition fifo_size (c most : Z) : Z := Z.min (field_get c 7 16) most.

(** A write of the index [ai] to the acknowledge register. *)
Definition fifo_ack (s size ai : Z) : Z :=
  if size =? 0 then s else
  let gone := (ai - fifo_get s) mod size + 1 in
  fifo_status (fifo_fill s - gone) ((ai + 1) mod size) (fifo_put s) false (Z.testbit s 25).

(** Writing 1s to flags. *)
Definition w1c (old v : Z) : Z := Z.land old (not32 v).

Definition lost_copy (s : Z) (cleared : bool) : Z :=
  if cleared then w1c s (bit 25) else s.

Definition configured_tx (c : Z) : Z := Z.ones (Z.min 32 (field_get c 6 16 + field_get c 6 24)).

Definition reg_write (f : CANFD_T -> Z) (r : CANFD_T) (v : Z) : CANFD_T -> Z :=
  match r with
  | IR =>
      reg_upd (reg_upd (reg_upd (reg_upd f IR (w1c (f IR) v))
        RXF0S (lost_copy (f RXF0S) (Z.testbit v 3)))
        RXF1S (lost_copy (f RXF1S) (Z.testbit v 7)))
        TXEFS (lost_copy (f TXEFS) (Z.testbit v 15))
  | NDAT1 => reg_upd f NDAT1 (w1c (f NDAT1) v)
  | NDAT2 => reg_upd f NDAT2 (w1c (f NDAT2) v)
  | TXBAR => reg_upd f TXBRP (Z.lor (f TXBRP) (Z.land v (configured_tx (f TXBC))))
  | RXF0A => reg_upd (reg_upd f RXF0A v) RXF0S
               (fifo_ack (f RXF0S) (fifo_size (f RXF0C) 64) (field_get v 6 0))
  | RXF1A => reg_upd (reg_upd f RXF1A v) RXF1S
               (fifo_ack (f RXF1S) (fifo_size (f RXF1C) 64) (field_get v 6 0))
  | TXEFA => reg_upd (reg_upd f TXEFA v) TXEFS
               (fifo_ack (f TXEFS) (fifo_size (f TXEFC) 32) (field_get v 5 0))
  | _ => reg_upd f r v
  end.

(** ** Accesses *)

Definition CM (A : Type) : Type := M canfd_hw A.

(** The INIT bit a read of CCCR shows. *)
Definition shown_init (h : canfd_hw) : bool :=
  match cf_lag h with O => Z.testbit (cf_regs h CCCR) 0 | S _ => cf_old h end.

Definition shown_CCCR (h : canfd_hw) : Z :=
  match cf_lag h with
  | O => cf_regs h CCCR
  | S _ => field_set (cf_regs h CCCR) 1 (if cf_old h then 1 else 0)
  end.

Definition rd (r : CANFD_T) : CM Z :=
  match r with
  | CCCR => fun h => Ret (shown_CCCR h, set_lag (cf_old h) (Nat.pred (cf_lag h)) h)
  | _ => gets (fun h => cf_regs h r)
  end.

Definition wr (E : canfd_env) (r : CANFD_T) (v : Z) : CM unit :=
  match r with
  | CCCR => modify (fun h =>
      let lag := if eqb (Z.testbit v 0) (shown_init h) then O else canfd_sync E in
      set_regs (reg_upd (cf_regs h) CCCR v) (set_lag (shown_init h) lag h))
  | _ => modify (fun h => set_regs (reg_write (cf_regs h) r v) h)
  end.

(** [r |= v] and [r &= v]. *)
Definition reg_or (E : canfd_env) (r : CANFD_T) (v : Z) : CM unit :=
  let! x := rd r in wr E r (Z.lor x v).
Definition reg_and (E : canfd_env) (r : CANFD_T) (v : Z) : CM unit :=
  let! x := rd r in wr E r (Z.land x v).

Definition ram_read (off n : Z) : CM (list Z) :=
  let! h := get in deref (ram_get (cf_ram h) off n).
Definition ram_write (off : Z) (bs : list Z) : CM unit :=
  let! h := get in
  let! r := deref (ram_put (cf_ram h) off bs) in
  modify (set_ram r).
(** [memset(p, 0, n)] *)
Definition ram_clear (off n : Z) : CM unit := ram_write off (replicate (Z.to_nat n) 0).

(** [int] arithmetic. *)
Definition fits_int (x : Z) : bool := (- 2 ^ 31 <=? x) && (x <? 2 ^ 31).
Definition strict : Z -> option Z := fun _ => None.
Definition wraps (x : Z) : option Z := Some (i32 x).
Definition int_result (E : canfd_env) (x : Z) : option Z :=
  if fits_int x then Some x else canfd_overflow E x.

(** C has no value for the left shift of a negative [int] either. *)
Definition int_shl (E : canfd_env) (x n : Z) : option Z :=
  if (0 <=? x) && (Z.shiftl x n <? 2 ^ 31) then Some (Z.shiftl x n)
  else canfd_overflow E (Z.shiftl x n).

(** [SYS_ResetModule(CANFDn_RST)] *)
Definition reset_canfd (E : canfd_env) : CM unit :=
  modify (fun h => set_regs (canfd_reset E) (set_lag false 0 h)).

(** ** What the controller does on its own *)

(** A frame that the filters direct to receive FIFO 0 or 1, as its element.  Blocking
    mode: at a full FIFO the frame is lost. *)
Definition fifo_regs (n : Z) : CANFD_T * CANFD_T :=
  if n =? 0 then (RXF0C, RXF0S) else (RXF1C, RXF1S).

Definition rx_store (n : Z) (elem : list Z) (h : canfd_hw) : option canfd_hw :=
  let '(rc, rs) := fifo_regs n in
  let f := cf_regs h in
  let size := fifo_size (f rc) 64 in
  let s := f rs in
  let flag b := Z.lor (f IR) (bit (b + 4 * n)) in
  if fifo_fill s <? size then
    r ← ram_put (cf_ram h) (Z.land (f rc) CANFD_RXF0C_F0SA_Msk + fifo_put s * 72) elem;
    Some (set_ram r (set_regs (reg_upd (reg_upd f IR (flag 0)) rs
      (fifo_status (fifo_fill s + 1) (fifo_get s) ((fifo_put s + 1) mod size)
         (fifo_fill s + 1 =? size) (Z.testbit s 25))) h))
  else Some (set_regs (reg_upd (reg_upd f IR (flag 3)) rs (Z.lor s (bit 25))) h).

(** The transmission of buffer [i] completes. *)
Definition tx_done (i : Z) (h : canfd_hw) : canfd_hw :=
  let f := cf_regs h in
  set_regs (reg_upd (reg_upd (reg_upd f TXBRP (w1c (f TXBRP) (bit i)))
    TXBTO (Z.lor (f TXBTO) (bit i))) IR (Z.lor (f IR) CANFD_IR_TC_Msk)) h.
