(* ===== verification/CanFdTiming.v ===== *)
(** * Bit timing of the CAN FD driver

    Models the timing part of [libraries/ma35/StdDriver/src/nu_canfd.c]:
    [CANFD_GetSegments], [CANFD_CalculateTimingValues] and [CANFD_SetTimingConfig].
    [float] is IEEE single precision (SpecFloat with 24 bits and exponents to 128), the
    [int] products of the search have the overflow behaviour the environment gives. *)

From Stdlib Require Import ZArith Lia Bool SpecFloat.
From stdpp Require Import base tactics numbers list option.
From S2P Require Import Prelude CanFdHw.

Open Scope Z_scope.

Definition MIN_TIME_QUANTA : Z := 8.
Definition MAX_TIME_QUANTA : Z := 25.
Definition MAX_NOMINAL_BAUDRATE : Z := 1000000.
Definition CLK_CLKDIV0_CANFD0DIV_Pos : Z := 0.
Definition CLK_CLKDIV0_CANFD0DIV_Msk : Z := shl32 0x7 0.
Definition CLK_CLKDIV0_CANFD1DIV_Pos : Z := 4.
Definition CLK_CLKDIV0_CANFD1DIV_Msk : Z := shl32 0x7 4.
Definition CLK_CLKDIV0_CANFD2DIV_Pos : Z := 8.
Definition CLK_CLKDIV0_CANFD2DIV_Msk : Z := shl32 0x7 8.
Definition CLK_CLKDIV0_CANFD3DIV_Pos : Z := 12.
Definition CLK_CLKDIV0_CANFD3DIV_Msk : Z := shl32 0x7 12.

Definition CLK_CLKDIV0_CANFD0 (x : Z) : Z := shl32 (x - 1) CLK_CLKDIV0_CANFD0DIV_Pos.
Definition CLK_CLKDIV0_CANFD1 (x : Z) : Z := shl32 (x - 1) CLK_CLKDIV0_CANFD1DIV_Pos.
Definition CLK_CLKDIV0_CANFD2 (x : Z) : Z := shl32 (x - 1) CLK_CLKDIV0_CANFD2DIV_Pos.
Definition CLK_CLKDIV0_CANFD3 (x : Z) : Z := shl32 (x - 1) CLK_CLKDIV0_CANFD3DIV_Pos.

Record CANFD_TIMEING_CONFIG_T : Type := mkTiming {
  u8PreDivider : Z;
  u16NominalPrescaler : Z;
  u8NominalRJumpwidth : Z;
  u8NominalPhaseSeg1 : Z;
  u8NominalPhaseSeg2 : Z;
  u8NominalPropSeg : Z;
  u8DataPrescaler : Z;
  u8DataRJumpwidth : Z;
  u8DataPhaseSeg1 : Z;
  u8DataPhaseSeg2 : Z;
  u8DataPropSeg : Z
}.

Definition set_prescaler (p : Z) (c : CANFD_TIMEING_CONFIG_T) : CANFD_TIMEING_CONFIG_T :=
  mkTiming (u8PreDivider c) p (u8NominalRJumpwidth c) (u8NominalPhaseSeg1 c)
    (u8NominalPhaseSeg2 c) (u8NominalPropSeg c) (u8DataPrescaler c) (u8DataRJumpwidth c)
    (u8DataPhaseSeg1 c) (u8DataPhaseSeg2 c) (u8DataPropSeg c).
Definition set_predivider (d : Z) (c : CANFD_TIMEING_CONFIG_T) : CANFD_TIMEING_CONFIG_T :=
  mkTiming d (u16NominalPrescaler c) (u8NominalRJumpwidth c) (u8NominalPhaseSeg1 c)
    (u8NominalPhaseSeg2 c) (u8NominalPropSeg c) (u8DataPrescaler c) (u8DataRJumpwidth c)
    (u8DataPhaseSeg1 c) (u8DataPhaseSeg2 c) (u8DataPropSeg c).
Definition set_data_prescaler (p : Z) (c : CANFD_TIMEING_CONFIG_T) : CANFD_TIMEING_CONFIG_T :=
  mkTiming (u8PreDivider c) (u16NominalPrescaler c) (u8NominalRJumpwidth c) (u8NominalPhaseSeg1 c)
    (u8NominalPhaseSeg2 c) (u8NominalPropSeg c) p (u8DataRJumpwidth c)
    (u8DataPhaseSeg1 c) (u8DataPhaseSeg2 c) (u8DataPropSeg c).

(** ** Segments *)

(** [(float)n], the literals 0.750, 0.800 and 0.875 stored in a [float], and [(int)f]. *)
Definition float_of_uint (n : Z) : spec_float := binary_normalize 24 128 n 0 false.
Definition float_0_750 : spec_float := binary_normalize 24 128 3 (-2) false.
Definition float_0_800 : spec_float := binary_normalize 24 128 7205759403792794 (-53) false.
Definition float_0_875 : spec_float := binary_normalize 24 128 7 (-3) false.

Definition int_of_float (f : spec_float) : option Z :=
  match f with
  | S754_zero _ => Some 0
  | S754_finite s m e =>
      let a := if 0 <=? e then Z.pos m * 2 ^ e else Z.pos m / 2 ^ (- e) in
      let x := if s then - a else a in
      if fits_int x then Some x else None
  | _ => None
  end.

Definition ideal_sp (rate : Z) : spec_float :=
  if 1000000 <=? rate then float_0_750 else if 800000 <=? rate then float_0_800 else float_0_875.

(** The quanta before the sample point, [(int)(u32Ntq * ideal_sp)]. *)
Definition sample_point (tq rate : Z) : option Z :=
  int_of_float (SFmul 24 128 (float_of_uint tq) (ideal_sp rate)).

Definition CANFD_GetSegments (nominal data ntq dtq : Z) (c : CANFD_TIMEING_CONFIG_T)
  : CM CANFD_TIMEING_CONFIG_T :=
  let! p1 := deref (sample_point ntq nominal) in
  if 0 <? dtq then
    let! p2 := deref (sample_point dtq data) in
    ret (mkTiming (u8PreDivider c) (u16NominalPrescaler c)
           (u8 (u32 (ntq + (5 - 1)) / 5)) (u8 (p1 - 1)) (u8 (ntq - p1)) 0
           (u8DataPrescaler c) (u8 (u32 (dtq + (5 - 1)) / 5)) (u8 (p2 - 1)) (u8 (dtq - p2)) 0)
  else
    ret (mkTiming (u8PreDivider c) (u16NominalPrescaler c)
           (u8 (u32 (ntq + (5 - 1)) / 5)) (u8 (p1 - 1)) (u8 (ntq - p1)) 0
           (u8DataPrescaler c) 0 0 0 0).

(** ** The search *)

(** A [for] loop over [l] that [inr] leaves early. *)
Fixpoint search {S A B I} (l : list I) (body : I -> A -> M S (A + B)) (a : A) : M S (A + B) :=
  match l with
  | [] => ret (inl a)
  | x :: l' =>
      let! r := body x a in
      match r with inl a' => search l' body a' | inr b => ret (inr b) end
  end.

(** [MAX_TIME_QUANTA] down to [MIN_TIME_QUANTA]. *)
Definition quanta : list Z :=
  (fun i => MAX_TIME_QUANTA - i) <$> seqZ 0 (MAX_TIME_QUANTA - MIN_TIME_QUANTA + 1).

(** The inner search for the data phase; [inr] is the configuration found. *)
Definition data_search (E : canfd_env) (src nominal data ntq : Z) (c : CANFD_TIMEING_CONFIG_T)
  : CM (CANFD_TIMEING_CONFIG_T + CANFD_TIMEING_CONFIG_T) :=
  search quanta (fun dtq c =>
    let dclk := i32 (u32 (data * dtq)) in
    let! r := search (seqZ 1 0x20) (fun dp c =>
      let c := set_data_prescaler dp c in
      let! dclk2 := deref (int_result E (dclk * dp)) in
      if src =? u32 (u32 dclk2 * u8PreDivider c) then
        let! c := CANFD_GetSegments nominal data ntq dtq c in ret (inr c)
      else ret (inl c)) c in
    match r with inl c => ret (inl (set_data_prescaler 0x21 c)) | inr c => ret (inr c) end) c.

(** One prescaler of the nominal search; the loop state is the configuration and the
    data rate, which the code replaces by the nominal rate when it is 0. *)
Definition try_prescaler (E : canfd_env) (src nominal ntq nclk p : Z)
    (a : CANFD_TIMEING_CONFIG_T * Z)
  : CM ((CANFD_TIMEING_CONFIG_T * Z) + CANFD_TIMEING_CONFIG_T) :=
  let '(c, data) := a in
  let c := set_prescaler p c in
  let! nclk2 := deref (int_result E (nclk * p)) in
  let n2 := u32 nclk2 in
  if n2 =? 0 then undefined
  else if (src / n2 <=? 256) && (src mod n2 =? 0) then
    let c := set_predivider (u8 (src / n2)) c in
    let! cccr := rd CCCR in
    if tst cccr CANFD_CCCR_FDOE_Msk then
      let data := if data =? 0 then nominal else data in
      if (data =? nominal) && (p <=? 0x20) then
        let! c := CANFD_GetSegments nominal data ntq ntq (set_data_prescaler (u8 p) c) in
        ret (inr c)
      else
        let! r := data_search E src nominal data ntq c in
        ret (match r with inl c => inl (c, data) | inr c => inr c end)
    else
      let! c := CANFD_GetSegments nominal 0 ntq 0 (set_data_prescaler 0 c) in
      ret (inr c)
  else ret (inl (c, data)).

Definition CANFD_CalculateTimingValues (E : canfd_env) (nominal data src : Z)
    (c : CANFD_TIMEING_CONFIG_T) : CM (bool * CANFD_TIMEING_CONFIG_T) :=
  let nominal := if MAX_NOMINAL_BAUDRATE <? nominal then MAX_NOMINAL_BAUDRATE else nominal in
  let! r := search quanta (fun ntq a =>
    let nclk := i32 (u32 (nominal * ntq)) in
    let! r := search (seqZ 1 0x400) (try_prescaler E src nominal ntq nclk) a in
    match r with
    | inl (c, data) => ret (inl (set_prescaler 0x401 c, data))
    | inr c => ret (inr c)
    end) (c, data) in
  match r with inl (c, _) => ret (false, c) | inr c => ret (true, c) end.

(** ** Programming the registers *)

(** The divider of controller [n]; [None] for a pointer that is none of the four. *)
Definition set_divider (n d : Z) (v : Z) : option Z :=
  if n =? 0 then Some (field_set v CLK_CLKDIV0_CANFD0DIV_Msk (CLK_CLKDIV0_CANFD0 d))
  else if n =? 1 then Some (field_set v CLK_CLKDIV0_CANFD1DIV_Msk (CLK_CLKDIV0_CANFD1 d))
  else if n =? 2 then Some (field_set v CLK_CLKDIV0_CANFD2DIV_Msk (CLK_CLKDIV0_CANFD2 d))
  else if n =? 3 then Some (field_set v CLK_CLKDIV0_CANFD3DIV_Msk (CLK_CLKDIV0_CANFD3 d))
  else None.

Definition nominal_word (E : canfd_env) (c : CANFD_TIMEING_CONFIG_T) : option Z :=
  a ← int_shl E (Z.land (u8NominalRJumpwidth c) 0x7F - 1) 25;
  b ← int_shl E (Z.land (u16NominalPrescaler c) 0x1FF - 1) 16;
  d ← int_shl E (Z.land (u8NominalPhaseSeg1 c + u8NominalPropSeg c) 0xFF - 1) 8;
  e ← int_shl E (Z.land (u8NominalPhaseSeg2 c) 0x7F - 1) 0;
  r ← int_result E (a + b + d + e);
  Some (u32 r).

Definition data_word (E : canfd_env) (c : CANFD_TIMEING_CONFIG_T) : option Z :=
  b ← int_shl E (Z.land (u8DataPrescaler c) 0x1F - 1) 16;
  d ← int_shl E (Z.land (u8DataPhaseSeg1 c + u8DataPropSeg c) 0x1F - 1) 8;
  e ← int_shl E (Z.land (u8DataPhaseSeg2 c) 0xF - 1) 4;
  f ← int_shl E (Z.land (u8DataRJumpwidth c) 0xF - 1) 0;
  r ← int_result E (b + d + e + f);
  Some (u32 r).

Definition CANFD_SetTimingConfig (E : canfd_env) (psCanfd : Z) (c : CANFD_TIMEING_CONFIG_T)
  : CM unit :=
  let! h := get in
  match set_divider psCanfd (u8PreDivider c) (cf_CLKDIV0 h) with
  | None => ret tt
  | Some v =>
      modify (set_CLKDIV0 v) ;;
      reg_or E CCCR CANFD_CCCR_CCE_Msk ;;
      let! w := deref (nominal_word E c) in
      wr E NBTP w ;;
      let! cccr := rd CCCR in
      if tst cccr CANFD_CCCR_FDOE_Msk then
        let! w := deref (data_word E c) in wr E DBTP w
      else ret tt
  end.
