(* ===== verification/CanFdRate.v ===== *)
(** * The bit timing the CAN FD driver chooses and programs

    The search of [CANFD_CalculateTimingValues] against a reference (the first pair of
    quanta and prescaler, in the order of the loops, that divides the clock), the bit
    rate the registers then stand for, and what the search makes of the clock and the
    rates of this board. *)

From Stdlib Require Import ZArith Lia Bool SpecFloat.
From stdpp Require Import base tactics numbers list option.
From S2P Require Import Prelude CanFdHw CanFdTiming.

Open Scope Z_scope.

(** ** Segments *)

(** The ideal sample point in thousandths of a bit. *)
Definition sp_milli (rate : Z) : Z :=
  if 1000000 <=? rate then 750 else if 800000 <=? rate then 800 else 875.

Definition before_sample (tq rate : Z) : Z := tq * sp_milli rate / 1000.

Lemma forall_quanta (P : Z -> bool) tq :
  forallb P (seqZ 8 18) = true -> 8 <= tq <= 25 -> P tq = true.
Proof.
  intros HP Htq. rewrite forallb_forall in HP. apply HP.
  apply list_elem_of_In, elem_of_seqZ. lia.
Qed.

(** The single precision product, cut to an [int], is the exact quotient. *)
Lemma sample_point_exact tq rate :
  8 <= tq <= 25 -> sample_point tq rate = Some (before_sample tq rate).
Proof.
  intros Htq.
  assert (H : forall f n,
    forallb (fun t => bool_decide (int_of_float (SFmul 24 128 (float_of_uint t) f)
                                   = Some (t * n / 1000))) (seqZ 8 18) = true ->
    int_of_float (SFmul 24 128 (float_of_uint tq) f) = Some (tq * n / 1000)).
  { intros f n Hf. by apply (forall_quanta _ tq), bool_decide_eq_true in Hf. }
  unfold sample_point, ideal_sp, before_sample, sp_milli.
  repeat case_match; apply H; vm_compute; reflexivity.
Qed.

Lemma before_sample_bounds tq rate :
  8 <= tq <= 25 -> 6 <= before_sample tq rate <= 21 /\ 1 <= tq - before_sample tq rate <= 7.
Proof.
  intros Htq. unfold before_sample, sp_milli.
  repeat case_match; Z.div_mod_to_equations; lia.
Qed.

(** The configuration for [ntq] quanta, prescaler [p] and divider [d], FD off. *)
Definition timing_no_fd (nominal ntq p d : Z) : CANFD_TIMEING_CONFIG_T :=
  mkTiming (u8 d) p ((ntq + 4) / 5) (before_sample ntq nominal - 1)
    (ntq - before_sample ntq nominal) 0 0 0 0 0 0.

Lemma get_segments_no_fd nominal ntq c s :
  8 <= ntq <= 25 ->
  CANFD_GetSegments nominal 0 ntq 0 (set_data_prescaler 0 c) s =
  Ret (mkTiming (u8PreDivider c) (u16NominalPrescaler c) ((ntq + 4) / 5)
         (before_sample ntq nominal - 1) (ntq - before_sample ntq nominal) 0 0 0 0 0 0, s).
Proof.
  intros Hn. unfold CANFD_GetSegments. rewrite (bind_deref _ _ _ _ (sample_point_exact _ _ Hn)).
  pose proof (before_sample_bounds ntq nominal Hn).
  rewrite (u32_small (ntq + (5 - 1))) by (unfold is_u32; lia).
  rewrite !u8_small by (unfold is_u8; Z.div_mod_to_equations; lia). done.
Qed.

(** ** The search *)

Inductive trial : Type := Miss | Stuck | Hit (d : Z).

(** One pair of quanta and prescaler. *)
Definition try_pair (E : canfd_env) (src nominal : Z) (np : Z * Z) : trial :=
  match int_result E (nominal * np.1 * np.2) with
  | None => Stuck
  | Some x =>
      let n := u32 x in
      if n =? 0 then Stuck
      else if (src / n <=? 256) && (src mod n =? 0) then Hit (src / n) else Miss
  end.

Definition decides (t : trial) : bool := match t with Miss => false | _ => true end.

Definition first_trial (E : canfd_env) (src nominal : Z) (l : list (Z * Z)) : option (Z * Z) :=
  List.find (fun np => decides (try_pair E src nominal np)) l.

(** Every pair, in the order of the loops. *)
Definition candidates : list (Z * Z) := quanta ≫= fun ntq => pair ntq <$> seqZ 1 0x400.

Definition rate_of (nominal : Z) : Z := Z.min nominal 1000000.

(** The state after a read of CCCR. *)
Definition after_read (h : canfd_hw) : canfd_hw := set_lag (cf_old h) (Nat.pred (cf_lag h)) h.

(** The reference for a search with FD off. *)
Definition timing_reference (E : canfd_env) (src nominal : Z) (c : CANFD_TIMEING_CONFIG_T)
    (h : canfd_hw) (l : list (Z * Z)) : outcome ((bool * CANFD_TIMEING_CONFIG_T) * canfd_hw) :=
  match first_trial E src nominal l with
  | None => Ret ((false, set_prescaler 0x401 c), h)
  | Some np =>
      match try_pair E src nominal np with
      | Hit d => Ret ((true, timing_no_fd nominal np.1 np.2 d), after_read h)
      | _ => Undef
      end
  end.

Lemma find_app {A} (f : A -> bool) l1 l2 :
  List.find f (l1 ++ l2) = match List.find f l1 with Some x => Some x | None => List.find f l2 end.
Proof. induction l1 as [|x l1 IH]; [done|]. cbn. by destruct (f x). Qed.

Lemma first_trial_app E src nominal l1 l2 :
  first_trial E src nominal (l1 ++ l2) =
  match first_trial E src nominal l1 with Some x => Some x | None => first_trial E src nominal l2 end.
Proof. apply find_app. Qed.

Lemma shown_bit h i :
  1 <= i < 32 -> Z.testbit (shown_CCCR h) i = Z.testbit (cf_regs h CCCR) i.
Proof.
  intros Hi. unfold shown_CCCR. destruct (cf_lag h); [done|].
  unfold field_set. rewrite Z.lor_spec, Z.land_spec, testbit_not32 by lia.
  change 1 with (bit 0) at 1. rewrite testbit_bit by lia.
  destruct (Z.ltb_spec i 32); [|lia]. destruct (Z.eqb_spec i 0); [lia|]. rewrite andb_true_r.
  destruct (cf_old h); [change 1 with (bit 0); rewrite testbit_bit by lia|rewrite Z.bits_0];
    [destruct (Z.eqb_spec i 0); [lia|]|]; apply orb_false_r.
Qed.

Lemma shown_fdoe h :
  tst (shown_CCCR h) CANFD_CCCR_FDOE_Msk = Z.testbit (cf_regs h CCCR) 8.
Proof.
  change CANFD_CCCR_FDOE_Msk with (bit 8). rewrite tst_bit by lia. by apply shown_bit.
Qed.

Section search.
Context (E : canfd_env) (src nominal data : Z) (h : canfd_hw).
Context (Hnom : 0 <= nominal <= 1000000) (Hfd : Z.testbit (cf_regs h CCCR) 8 = false).

Definition last_prescaler (l : list Z) (c : CANFD_TIMEING_CONFIG_T) : CANFD_TIMEING_CONFIG_T :=
  fold_left (fun c p => set_prescaler p c) l c.

Lemma last_prescaler_over l c q :
  set_prescaler q (last_prescaler l c) = set_prescaler q c.
Proof. revert c. induction l as [|p l IH]; intros c; [done|]. cbn. by rewrite IH. Qed.

Lemma try_prescaler_step ntq p c :
  8 <= ntq <= 25 ->
  try_prescaler E src nominal ntq (nominal * ntq) p (c, data) h =
  match try_pair E src nominal (ntq, p) with
  | Miss => Ret (inl (set_prescaler p c, data), h)
  | Stuck => Undef
  | Hit d => Ret (inr (timing_no_fd nominal ntq p d), after_read h)
  end.
Proof.
  intros Hn. unfold try_prescaler, try_pair. cbn [fst snd].
  destruct (int_result E (nominal * ntq * p)) as [x|]; [|done].
  rewrite (bind_deref _ x) by done. case_match; [done|]. case_match; [|done].
  unfold rd, bind at 1. rewrite shown_fdoe, Hfd.
  erewrite bind_Ret by (by apply get_segments_no_fd). done.
Qed.

Lemma search_prescalers ntq ps c :
  8 <= ntq <= 25 ->
  search ps (try_prescaler E src nominal ntq (nominal * ntq)) (c, data) h =
  match first_trial E src nominal (pair ntq <$> ps) with
  | None => Ret (inl (last_prescaler ps c, data), h)
  | Some np =>
      match try_pair E src nominal np with
      | Hit d => Ret (inr (timing_no_fd nominal np.1 np.2 d), after_read h)
      | _ => Undef
      end
  end.
Proof.
  intros Hn. revert c. induction ps as [|p ps IH]; intros c; [done|].
  cbn [search fmap list_fmap]. unfold first_trial. cbn [List.find].
  destruct (try_pair E src nominal (ntq, p)) eqn:Et; cbn [decides].
  - erewrite bind_Ret by (rewrite try_prescaler_step, Et; done).
    cbv beta iota. rewrite IH. done.
  - rewrite Et. apply bind_Undef. by rewrite try_prescaler_step, Et.
  - rewrite Et. erewrite bind_Ret by (rewrite try_prescaler_step, Et; done). done.
Qed.

Lemma search_quanta ns c :
  (forall n, n ∈ ns -> 8 <= n <= 25) ->
  search ns (fun ntq a =>
     let nclk := i32 (u32 (nominal * ntq)) in
     let! r := search (seqZ 1 0x400) (try_prescaler E src nominal ntq nclk) a in
     match r with
     | inl (c, data) => ret (inl (set_prescaler 0x401 c, data))
     | inr c => ret (inr c)
     end) (c, data) h =
  match first_trial E src nominal (ns ≫= fun ntq => pair ntq <$> seqZ 1 0x400) with
  | None => Ret (inl (match ns with [] => c | _ => set_prescaler 0x401 c end, data), h)
  | Some np =>
      match try_pair E src nominal np with
      | Hit d => Ret (inr (timing_no_fd nominal np.1 np.2 d), after_read h)
      | _ => Undef
      end
  end.
Proof.
  revert c. induction ns as [|n ns IH]; intros c Hns; [done|].
  assert (Hn : 8 <= n <= 25) by (apply Hns; left).
  assert (Hnclk : i32 (u32 (nominal * n)) = nominal * n).
  { rewrite u32_small by (unfold is_u32; nia). apply i32_small. nia. }
  cbn [search mbind list_bind]. rewrite Hnclk, first_trial_app.
  pose proof (search_prescalers n (seqZ 1 0x400) c Hn) as Hin. revert Hin.
  destruct (first_trial E src nominal (pair n <$> seqZ 1 0x400)) as [np|].
  - destruct (try_pair E src nominal np); intros Hin; unfold bind; by rewrite Hin.
  - intros Hin. unfold bind at 1 2. rewrite Hin. cbn [ret].
    rewrite IH by (intros m Hm; apply Hns; by right). case_match; [done|].
    rewrite last_prescaler_over. by destruct ns.
Qed.
End search.

Lemma calculate_no_fd E nominal data src c h :
  0 <= nominal -> Z.testbit (cf_regs h CCCR) 8 = false ->
  CANFD_CalculateTimingValues E nominal data src c h =
  timing_reference E src (rate_of nominal) c h candidates.
Proof.
  intros Hnom Hfd. unfold CANFD_CalculateTimingValues, MAX_NOMINAL_BAUDRATE.
  replace (if 1000000 <? nominal then 1000000 else nominal) with (rate_of nominal)
    by (unfold rate_of; destruct (Z.ltb_spec 1000000 nominal); lia).
  assert (Hr : 0 <= rate_of nominal <= 1000000) by (unfold rate_of; lia).
  pose proof (search_quanta E src (rate_of nominal) data h Hr Hfd quanta c) as Hs.
  cbv zeta in Hs |- *. unfold bind at 1. rewrite Hs.
  - unfold timing_reference, candidates. case_match; [|done]. by case_match.
  - intros n Hn. unfold quanta in Hn. apply list_elem_of_fmap in Hn as (i & -> & Hi).
    apply elem_of_seqZ in Hi. unfold MAX_TIME_QUANTA, MIN_TIME_QUANTA in *. lia.
Qed.

(** ** The bit rate the registers stand for *)

Definition NBTP_NBRP (w : Z) : Z := field_get w 9 16.
Definition NBTP_NTSEG1 (w : Z) : Z := field_get w 8 8.
Definition NBTP_NTSEG2 (w : Z) : Z := field_get w 7 0.
Definition NBTP_NSJW (w : Z) : Z := field_get w 7 25.

(** The quanta of a bit: the synchronisation segment and the two others. *)
Definition bit_quanta (w : Z) : Z := 1 + (NBTP_NTSEG1 w + 1) + (NBTP_NTSEG2 w + 1).

(** The divider of controller [n] in CLKDIV0. *)
Definition clock_divider (v n : Z) : Z := field_get v 3 (4 * n) + 1.

Lemma field_get_arith x n pos :
  0 <= n -> 0 <= pos -> field_get x n pos = (x / 2 ^ pos) mod 2 ^ n.
Proof.
  intros Hn Hp. unfold field_get. by rewrite Z.land_ones, Z.shiftr_div_pow2.
Qed.

Lemma int_shl_Some E x n : 0 <= x -> 0 <= n -> x * 2 ^ n < 2 ^ 31 -> int_shl E x n = Some (x * 2 ^ n).
Proof.
  intros Hx Hn Hlt. unfold int_shl. rewrite Z.shiftl_mul_pow2 by done.
  destruct (Z.leb_spec 0 x); [|lia]. by destruct (Z.ltb_spec (x * 2 ^ n) (2 ^ 31)); [|lia].
Qed.

(** A hit divides the clock exactly when products do not overflow silently. *)
Lemma try_pair_hit E src nominal np d :
  canfd_overflow E = strict -> 0 < src -> 0 <= nominal * np.1 * np.2 ->
  try_pair E src nominal np = Hit d ->
  src = nominal * np.1 * np.2 * d /\ 1 <= d <= 256.
Proof.
  intros Hs Hsrc Hp. unfold try_pair, int_result. rewrite Hs. unfold strict.
  unfold fits_int. set (x := nominal * np.1 * np.2) in *.
  destruct (Z.leb_spec (- 2 ^ 31) x), (Z.ltb_spec x (2 ^ 31)); cbn [andb]; try done.
  rewrite u32_small by (unfold is_u32; lia).
  destruct (Z.eqb_spec x 0); [done|].
  destruct (Z.leb_spec (src / x) 256), (Z.eqb_spec (src mod x) 0); cbn [andb]; try done.
  intros [= <-]. pose proof (Z.div_mod src x ltac:(lia)). split; [lia|]. split; [|done].
  assert (0 <= src / x) by (apply Z.div_pos; lia). nia.
Qed.

Lemma candidates_range np : np ∈ candidates -> 8 <= np.1 <= 25 /\ 1 <= np.2 <= 1024.
Proof.
  unfold candidates, quanta, MAX_TIME_QUANTA, MIN_TIME_QUANTA.
  intros (n & Hp & Hn)%list_elem_of_bind. apply list_elem_of_fmap in Hn as (i & -> & Hi).
  apply elem_of_seqZ in Hi. apply list_elem_of_fmap in Hp as (p & -> & Hp).
  apply elem_of_seqZ in Hp. cbn. lia.
Qed.

Lemma timing_reference_true E src nominal c h c' h' :
  timing_reference E src nominal c h candidates = Ret ((true, c'), h') ->
  exists np d, (8 <= np.1 <= 25 /\ 1 <= np.2 <= 1024) /\ try_pair E src nominal np = Hit d /\
    c' = timing_no_fd nominal np.1 np.2 d /\ h' = after_read h.
Proof.
  unfold timing_reference. destruct (first_trial E src nominal candidates) as [np|] eqn:Ef; [|done].
  destruct (try_pair E src nominal np) eqn:Et; try done. intros [= <- <-].
  exists np, d. split; [|done]. apply List.find_some in Ef as [Hin _].
  by apply candidates_range, list_elem_of_In.
Qed.

(** The word for NBTP, field by field. *)
Lemma nominal_word_fields E nominal ntq p d :
  8 <= ntq <= 25 -> 1 <= p <= 511 ->
  exists w, nominal_word E (timing_no_fd nominal ntq p d) = Some w /\
    NBTP_NBRP w = p - 1 /\ NBTP_NTSEG1 w = before_sample ntq nominal - 2 /\
    NBTP_NTSEG2 w = ntq - before_sample ntq nominal - 1 /\ NBTP_NSJW w = (ntq + 4) / 5 - 1.
Proof.
  intros Hn Hp. pose proof (before_sample_bounds ntq nominal Hn) as [Hb1 Hb2].
  set (b := before_sample ntq nominal) in *.
  assert (Hj : 2 <= (ntq + 4) / 5 <= 5) by (Z.div_mod_to_equations; lia).
  unfold nominal_word, timing_no_fd. cbn [u8NominalRJumpwidth u16NominalPrescaler
    u8NominalPhaseSeg1 u8NominalPhaseSeg2 u8NominalPropSeg]. fold b.
  change 0x7F with (Z.ones 7). change 0x1FF with (Z.ones 9). change 0xFF with (Z.ones 8).
  rewrite !Z.land_ones by lia. set (j := (ntq + 4) / 5) in *.
  rewrite !Z.mod_small by lia.
  rewrite !int_shl_Some by lia. cbn [mbind option_bind].
  match goal with |- context [int_result E ?x] => set (w := x) end.
  exists w. split.
  - unfold int_result, fits_int. destruct (Z.leb_spec (- 2 ^ 31) w), (Z.ltb_spec w (2 ^ 31)); try lia.
    cbn [andb mbind option_bind]. rewrite u32_small; [done|unfold is_u32; lia].
  - unfold NBTP_NBRP, NBTP_NTSEG1, NBTP_NTSEG2, NBTP_NSJW. rewrite !field_get_arith by lia.
    subst w. clearbody j b. Z.div_mod_to_equations. lia.
Qed.

Lemma set_timing_run E n c h v w :
  set_divider n (u8PreDivider c) (cf_CLKDIV0 h) = Some v -> nominal_word E c = Some w ->
  Z.testbit (cf_regs h CCCR) 8 = false ->
  returns (CANFD_SetTimingConfig E n c) h (fun _ h2 =>
    cf_CLKDIV0 h2 = v /\ cf_regs h2 NBTP = w /\
    (forall r, r <> NBTP -> r <> CCCR -> cf_regs h2 r = cf_regs h r) /\
    cf_regs h2 CCCR = Z.lor (shown_CCCR h) CANFD_CCCR_CCE_Msk /\ cf_ram h2 = cf_ram h).
Proof.
  intros Hv Hw Hfd. unfold CANFD_SetTimingConfig, returns.
  rewrite bind_get, Hv, bind_modify.
  unfold reg_or. rewrite bind_assoc.
  set (h1 := set_CLKDIV0 v h).
  assert (Hs : shown_CCCR h1 = shown_CCCR h) by done.
  unfold rd at 1. rewrite (bind_Ret _ _ _ _ _ eq_refl).
  unfold wr at 1. rewrite bind_modify, (bind_deref _ _ _ _ Hw).
  unfold wr. rewrite bind_modify. unfold rd. rewrite (bind_Ret _ _ _ _ _ eq_refl).
  rewrite shown_fdoe. cbn [cf_regs set_regs set_lag reg_write].
  rewrite (reg_upd_ne _ NBTP CCCR), reg_upd_eq, Z.lor_spec, Hs, shown_bit by (done || lia).
  rewrite Hfd. cbn [orb]. change (Z.testbit CANFD_CCCR_CCE_Msk 8) with false.
  eexists _, _. split; [done|]. cbn [cf_regs cf_ram cf_CLKDIV0 set_regs set_lag reg_write].
  split; [done|]. split; [apply reg_upd_eq|]. split; [|by rewrite reg_upd_ne, reg_upd_eq].
  intros r H1 H2. by rewrite !reg_upd_ne.
Qed.

(** A divider the field holds: the field gets it, and no other bit changes. *)
Lemma set_divider_fits n d v :
  0 <= n <= 3 -> 1 <= d <= 8 -> is_u32 v ->
  exists v', set_divider n d v = Some v' /\ clock_divider v' n = d /\
    forall i, 0 <= i -> i < 4 * n \/ 4 * n + 3 <= i -> Z.testbit v' i = Z.testbit v i.
Proof.
  intros Hn Hd Hv.
  assert (Hset : set_divider n d v
            = Some (field_set v (shl32 (Z.ones 3) (4 * n)) (shl32 (d - 1) (4 * n)))).
  { assert (n = 0 \/ n = 1 \/ n = 2 \/ n = 3) as [-> | [-> | [-> | ->]]] by lia; done. }
  rewrite Hset. eexists. split; [done|]. split.
  - unfold clock_divider. rewrite field_get_set by lia. lia.
  - intros i Hi Ho. apply field_set_other; try done; lia.
Qed.

Lemma try_pair_ext E E' src nominal np :
  canfd_overflow E = canfd_overflow E' -> try_pair E src nominal np = try_pair E' src nominal np.
Proof. intros H. unfold try_pair, int_result. by rewrite H. Qed.

Lemma timing_reference_ext E E' src nominal c h l :
  canfd_overflow E = canfd_overflow E' ->
  timing_reference E src nominal c h l = timing_reference E' src nominal c h l.
Proof.
  intros H. unfold timing_reference, first_trial.
  assert (Hf : forall l, List.find (fun np => decides (try_pair E src nominal np)) l
             = List.find (fun np => decides (try_pair E' src nominal np)) l).
  { intros l'. induction l' as [|x l' IH]; [done|]. cbn. by rewrite (try_pair_ext _ _ _ _ _ H), IH. }
  rewrite Hf. case_match; [|done]. by rewrite (try_pair_ext _ _ _ _ _ H).
Qed.

(** ** Properties *)

(** C31: with FD off, [CANFD_CalculateTimingValues] tries the quanta from 25 down to 8 and
    for each the prescalers from 1 to 1024, and the first pair whose product with the rate
    (at most 1 Mbit/s) divides the clock with a quotient of at most 256 decides the
    configuration: the quotient (as a byte) is the divider, the sample point lies at 75,
    80 or 87.5 percent rounded down to a quantum, the jump width is a fifth of the quanta
    rounded up.  A pair on the way whose product does not fit an [int] leaves the run
    undefined when the overflow is; when no pair fits, the answer is FALSE. *)
Theorem calculate_timing_reference E nominal data src c h :
  0 <= nominal -> Z.testbit (cf_regs h CCCR) 8 = false ->
  CANFD_CalculateTimingValues E nominal data src c h =
  match List.find (fun np => decides (try_pair E src (rate_of nominal) np)) candidates with
  | None => Ret ((false, set_prescaler 0x401 c), h)
  | Some (ntq, p) =>
      match try_pair E src (rate_of nominal) (ntq, p) with
      | Hit d =>
          Ret ((true,
            mkTiming (u8 d) p ((ntq + 4) / 5)
              (before_sample ntq (rate_of nominal) - 1) (ntq - before_sample ntq (rate_of nominal))
              0 0 0 0 0 0), after_read h)
      | _ => Undef
      end
  end.
Proof.
  intros Hn Hfd. rewrite calculate_no_fd by done. unfold timing_reference, first_trial.
  destruct (List.find _ candidates) as [[ntq p]|]; done.
Qed.

(** A controller with the clock [src] and FD off. *)
Definition example_env (ovf : Z -> option Z) : canfd_env :=
  mkCanfdEnv false 0 0 1000 (fun _ => 0) 0 ovf.
Definition example_timing : CANFD_TIMEING_CONFIG_T := mkTiming 0 0 0 0 0 0 0 0 0 0 0.
Definition example_hw : canfd_hw := mkCanfd (fun _ => 0) [] false 0 true 0.

Lemma calculate_timing_reference_witness :
  CANFD_CalculateTimingValues (example_env strict) 1000000 0 200000000 example_timing example_hw
  = Ret ((true, mkTiming 8 1 5 17 7 0 0 0 0 0 0), example_hw).
Proof.
  rewrite (calculate_timing_reference (example_env strict) 1000000 0 200000000) by (lia || done).
  vm_compute. reflexivity.
Defined.

(** C32: when the search succeeds with products that do not overflow, the divider found
    fits its 3-bit field (1 to 8) and the prescaler its 9-bit field (at most 511), the
    registers [CANFD_SetTimingConfig] writes stand for exactly the wanted rate: clock =
    rate * quanta of the bit * prescaler * divider, with the segments in their valid
    ranges; no other bit of CLKDIV0, no other register than CCCR and NBTP, and not the
    message RAM is changed. *)
Theorem bit_rate_programmed E psCanfd nominal data src c h c' h' :
  canfd_overflow E = strict -> Z.testbit (cf_regs h CCCR) 8 = false ->
  0 <= psCanfd <= 3 -> is_u32 (cf_CLKDIV0 h) -> 0 < src -> 0 <= nominal ->
  CANFD_CalculateTimingValues E nominal data src c h = Ret ((true, c'), h') ->
  1 <= u8PreDivider c' <= 8 -> u16NominalPrescaler c' <= 511 ->
  returns (CANFD_SetTimingConfig E psCanfd c') h' (fun _ h2 =>
    let w := cf_regs h2 NBTP in
    src = rate_of nominal * bit_quanta w * (NBTP_NBRP w + 1) * clock_divider (cf_CLKDIV0 h2) psCanfd /\
    8 <= bit_quanta w <= 25 /\ 1 <= NBTP_NTSEG1 w <= 255 /\ 0 <= NBTP_NTSEG2 w <= 127 /\
    (forall i, 0 <= i -> i < 4 * psCanfd \/ 4 * psCanfd + 3 <= i ->
       Z.testbit (cf_CLKDIV0 h2) i = Z.testbit (cf_CLKDIV0 h) i) /\
    (forall r, r <> NBTP -> r <> CCCR -> cf_regs h2 r = cf_regs h r) /\ cf_ram h2 = cf_ram h).
Proof.
  intros Hs Hfd Hn Hu Hsrc Hnom Hcalc Hd Hp.
  rewrite calculate_no_fd in Hcalc by done.
  apply timing_reference_true in Hcalc as ([ntq p] & d & [Hq Hp1] & Hhit & -> & ->).
  cbn [fst snd] in *. cbn [u8PreDivider u16NominalPrescaler timing_no_fd] in Hd, Hp.
  apply try_pair_hit in Hhit as [Hdiv Hd256]; [|done|done|cbn; unfold rate_of; nia].
  cbn [fst snd] in Hdiv.
  assert (Hd8 : u8 d = d).
  { destruct (Z.eq_dec d 256) as [->|]; [by destruct Hd|apply u8_small; unfold is_u8; lia]. }
  destruct (nominal_word_fields E (rate_of nominal) ntq p d Hq ltac:(lia))
    as (w & Hw & Hnbrp & Hs1 & Hs2 & _).
  destruct (set_divider_fits psCanfd (u8 d) (cf_CLKDIV0 h)) as (v & Hv & Hcd & Hbits); [done..|].
  eapply returns_mono; [by apply (set_timing_run E psCanfd _ (after_read h) v w)|].
  cbv beta. intros _ h2 (HC & HN & Hrest & _ & Hram). rewrite HC, HN.
  pose proof (before_sample_bounds ntq (rate_of nominal) Hq).
  unfold bit_quanta. rewrite Hnbrp, Hs1, Hs2, Hcd, Hd8.
  repeat (split; [lia || (rewrite Hdiv at 1; ring) || done|]). done.
Qed.

Lemma bit_rate_programmed_witness :
  exists h2,
    CANFD_SetTimingConfig (example_env strict) 0 (mkTiming 8 1 5 17 7 0 0 0 0 0 0) example_hw
      = Ret (tt, h2) /\ 200000000 = 1000000 * 25 * 1 * 8.
Proof.
  destruct (bit_rate_programmed (example_env strict) 0 1000000 0 200000000 example_timing example_hw
              (mkTiming 8 1 5 17 7 0 0 0 0 0 0) example_hw)
    as (? & h2 & Hr & Hrate & _);
    [done|done|lia|split; done|lia|lia|vm_compute; reflexivity|cbn; lia|cbn; lia|].
  destruct x. exists h2. split; [exact Hr|]. injection Hr as <-. exact Hrate.
Defined.

(** The clock [nu_sys] gives the controllers on this board and the rates
    [RT_CAN_CMD_SET_BAUD] accepts, with the divider the search finds for each. *)
Definition board_APLL : Z := 144000000.
Definition board_dividers : list (Z * Z) :=
  [(1000000, 6); (800000, 9); (500000, 12); (250000, 24); (125000, 48); (100000, 60);
   (50000, 120); (20000, 144); (10000, 192)].

Lemma board_reference_wraps c h :
  Forall (fun rd => exists c', u8PreDivider c' = rd.2 /\
    timing_reference (example_env wraps) board_APLL (rate_of rd.1) c h candidates = Ret ((true, c'), after_read h))
    board_dividers.
Proof.
  assert (H : Forall (fun rd => exists np d, u8 d = rd.2 /\
      first_trial (example_env wraps) board_APLL (rate_of rd.1) candidates = Some np /\
      try_pair (example_env wraps) board_APLL (rate_of rd.1) np = Hit d) board_dividers).
  { unfold board_dividers.
    repeat apply Forall_cons_2; try apply Forall_nil_2;
      (eexists _, _; split_and!; [|vm_compute; reflexivity|vm_compute; reflexivity];
       vm_compute; reflexivity). }
  eapply Forall_impl; [|exact H]. cbn beta. intros [r d] (np & d' & Hd & Hf & Ht).
  eexists. split; [|unfold timing_reference; rewrite Hf, Ht; reflexivity]. done.
Qed.

Lemma board_reference_strict c h :
  Forall (fun rd => if 100000 <=? rd.1
    then timing_reference (example_env strict) board_APLL (rate_of rd.1) c h candidates = Undef
    else exists c', u8PreDivider c' = rd.2 /\
      timing_reference (example_env strict) board_APLL (rate_of rd.1) c h candidates = Ret ((true, c'), after_read h))
    board_dividers.
Proof.
  assert (H : Forall (fun rd => if 100000 <=? rd.1
      then exists np, first_trial (example_env strict) board_APLL (rate_of rd.1) candidates = Some np /\
        try_pair (example_env strict) board_APLL (rate_of rd.1) np = Stuck
      else exists np d, u8 d = rd.2 /\
        first_trial (example_env strict) board_APLL (rate_of rd.1) candidates = Some np /\
        try_pair (example_env strict) board_APLL (rate_of rd.1) np = Hit d) board_dividers).
  { unfold board_dividers. repeat apply Forall_cons_2; try apply Forall_nil_2; cbn beta iota;
      [eexists; split; [vm_compute; reflexivity|vm_compute; reflexivity]..| | |];
      (eexists _, _; split_and!; [|vm_compute; reflexivity|vm_compute; reflexivity];
       vm_compute; reflexivity). }
  eapply Forall_impl; [|exact H]. cbn beta. intros [r d]. cbn [fst snd]. case_match.
  - intros (np & Hf & Ht). unfold timing_reference. by rewrite Hf, Ht.
  - intros (np & d' & Hd & Hf & Ht).
    eexists. split; [|unfold timing_reference; rewrite Hf, Ht; reflexivity]. done.
Qed.

Lemma divider_24 v :
  clock_divider v 1 = 1 -> is_u32 v ->
  clock_divider (field_set v CLK_CLKDIV0_CANFD0DIV_Msk (CLK_CLKDIV0_CANFD0 24)) 0 = 8 /\
  clock_divider (field_set v CLK_CLKDIV0_CANFD0DIV_Msk (CLK_CLKDIV0_CANFD0 24)) 1 = 2.
Proof.
  intros Hv Hu. unfold clock_divider in *. change (4 * 1) with 4 in *.
  change CLK_CLKDIV0_CANFD0DIV_Msk with 7. change (CLK_CLKDIV0_CANFD0 24) with 23.
  assert (Hb : forall k, 0 <= k < 3 -> Z.testbit v (k + 4) = false).
  { intros k Hk. assert (Hf : field_get v 3 4 = 0) by lia.
    apply (f_equal (fun x => Z.testbit x k)) in Hf. unfold field_get in Hf.
    rewrite Z.land_spec, Z.shiftr_spec, testbit_ones, Z.bits_0 in Hf by lia.
    destruct (Z.ltb_spec k 3); [|lia]. by rewrite andb_true_r in Hf. }
  assert (Hg : forall pos x, 0 <= pos -> pos + 2 < 32 ->
            (forall k, 0 <= k < 3 -> Z.testbit x k
               = (Z.testbit v (k + pos) && negb (Z.testbit 7 (k + pos))) || Z.testbit 23 (k + pos)) ->
            0 <= x < 8 -> field_get (field_set v 7 23) 3 pos = x).
  { intros pos x H0 H1 Hx Hr. unfold field_get, field_set. apply Z.bits_inj'. intros k Hk.
    rewrite Z.land_spec, Z.shiftr_spec, Z.lor_spec, Z.land_spec, testbit_ones, testbit_not32 by lia.
    destruct (Z.ltb_spec k 3); [|by rewrite andb_false_r, (testbit_small x 3)].
    destruct (Z.ltb_spec (k + pos) 32); [|lia]. rewrite andb_true_r, Hx by lia. done. }
  rewrite (Hg (4 * 0) 7), (Hg 4 1); try lia; try done.
  - intros k Hk. rewrite (Hb k Hk : Z.testbit v (k + 4) = false).
    assert (k = 0 \/ k = 1 \/ k = 2) as [-> | [-> | ->]] by lia; done.
  - intros k Hk. assert (k = 0 \/ k = 1 \/ k = 2) as [-> | [-> | ->]] by lia;
      rewrite andb_false_r; done.
Qed.

(** The rates of this board.  Its APLL runs at 144 MHz, which 25 quanta divide for
    none of the rates from 100 kbit/s up, so the search multiplies on until an [int]
    overflows: for these six rates, the default 1 Mbit/s among them, the run is undefined
    in C.  When the product wraps around instead, every rate gets a divider, but only the
    one of 1 Mbit/s fits the three bits CLKDIV0 has for it; the 24 of 250 kbit/s for
    controller 0 leaves its own divider at 8 and moves that of controller 1. *)
Theorem board_bit_rates E data c h :
  Z.testbit (cf_regs h CCCR) 8 = false ->
  (canfd_overflow E = strict ->
     Forall (fun rd => 100000 <= rd.1 ->
       CANFD_CalculateTimingValues E rd.1 data board_APLL c h = Undef) board_dividers) /\
  (canfd_overflow E = wraps ->
     Forall (fun rd => exists c',
       CANFD_CalculateTimingValues E rd.1 data board_APLL c h = Ret ((true, c'), after_read h) /\
       u8PreDivider c' = rd.2) board_dividers) /\
  Forall (fun rd => rd.2 <= 8 <-> rd.1 = 1000000) board_dividers /\
  (forall v, clock_divider v 1 = 1 -> is_u32 v ->
     exists v', set_divider 0 24 v = Some v' /\ clock_divider v' 0 = 8 /\ clock_divider v' 1 = 2).
Proof.
  intros Hfd. split_and!.
  - intros Hs. eapply Forall_impl; [|exact (board_reference_strict c h)]. intros [r d].
    cbn [fst snd]. intros H Hr. destruct (Z.leb_spec 100000 r); [|lia].
    rewrite calculate_no_fd by (done || lia).
    by rewrite (timing_reference_ext E (example_env strict)).
  - intros Hw.
    assert (Hp : Forall (fun rd => 0 <= rd.1) board_dividers) by (repeat constructor; done).
    pose proof (board_reference_wraps c h) as Hb.
    pose proof (List.Forall_and Hp Hb) as Hpb.
    eapply Forall_impl; [|exact Hpb]. intros [r d]. cbn [fst snd].
    intros [Hr (c' & Hd & Hc)]. exists c'. split; [|done]. rewrite calculate_no_fd by done.
    by rewrite (timing_reference_ext E (example_env wraps)).
  - repeat constructor; cbn; lia.
  - intros v Hv Hu. eexists. split; [reflexivity|]. by apply divider_24.
Qed.

Lemma board_bit_rates_witness :
  CANFD_CalculateTimingValues (example_env strict) 1000000 0 board_APLL example_timing example_hw
    = Undef.
Proof.
  pose proof (board_bit_rates (example_env strict) 0 example_timing example_hw eq_refl)
    as (H & _).
  specialize (H eq_refl). inversion H as [|x l H1 _]. apply H1. cbn. lia.
Defined.
