(* ===== verification/CanFd.v ===== *)
(** * The CAN FD standard driver

    Models [libraries/ma35/StdDriver/src/nu_canfd.c] and [inc/nu_canfd.h], apart from the
    bit timing of CanFdTiming: the elements of the message RAM, its partition, opening and
    closing a controller, interrupts, status, and [CANFD_Transfer].

    The instance a function is called for is the number of the controller (0 to 3 for
    CANFD0 to CANFD3, anything else for another pointer); a structure passed by pointer is
    an argument and a result. *)

From Stdlib Require Import ZArith Lia Bool.
From stdpp Require Import base tactics numbers list option.
From S2P Require Import Prelude CanFdHw CanFdTiming.

Open Scope Z_scope.

(** ** Constants *)

Definition CANFD_NUM_RX_FIFOS : Z := 2.
Definition CANFD_OP_CAN_MODE : Z := 0.
Definition CANFD_MAX_11_BIT_FTR_ELEMS : Z := 128.
Definition CANFD_MAX_29_BIT_FTR_ELEMS : Z := 64.
Definition CANFD_MAX_RX_FIFO0_ELEMS : Z := 64.
Definition CANFD_MAX_RX_FIFO1_ELEMS : Z := 64.
Definition CANFD_MAX_RX_BUF_ELEMS : Z := 64.
Definition CANFD_MAX_TX_BUF_ELEMS : Z := 32.
Definition CANFD_OK : Z := 0.
Definition CANFD_ERR_TIMEOUT : Z := -2.

Definition CANFD_SET_SID (id : Z) : Z := Z.shiftl (Z.land id 0x7FF) (29 - 11).
Definition CANFD_GET_SID (id : Z) : Z := Z.shiftr id (29 - 11).

Inductive E_CANFD_DATA_FIELD_SIZE : Type :=
| eCANFD_BYTE8 | eCANFD_BYTE12 | eCANFD_BYTE16 | eCANFD_BYTE20
| eCANFD_BYTE24 | eCANFD_BYTE32 | eCANFD_BYTE48 | eCANFD_BYTE64.

Definition data_field_code (s : E_CANFD_DATA_FIELD_SIZE) : Z :=
  match s with
  | eCANFD_BYTE8 => 0 | eCANFD_BYTE12 => 1 | eCANFD_BYTE16 => 2 | eCANFD_BYTE20 => 3
  | eCANFD_BYTE24 => 4 | eCANFD_BYTE32 => 5 | eCANFD_BYTE48 => 6 | eCANFD_BYTE64 => 7
  end.

Inductive E_CANFD_TEST_MODE : Type :=
| eCANFD_NORMAL | eCANFD_RESTRICTED_OPERATION | eCANFD_BUS_MONITOR
| eCANFD_LOOPBACK_EXTERNAL | eCANFD_LOOPBACK_INTERNAL.

Inductive E_CANFD_ACC_NON_MATCH_FRM : Type :=
| eCANFD_ACC_NON_MATCH_FRM_RX_FIFO0 | eCANFD_ACC_NON_MATCH_FRM_RX_FIFO1
| eCANFD_REJ_NON_MATCH_FRM.

Definition non_match_code (e : E_CANFD_ACC_NON_MATCH_FRM) : Z :=
  match e with
  | eCANFD_ACC_NON_MATCH_FRM_RX_FIFO0 => 0
  | eCANFD_ACC_NON_MATCH_FRM_RX_FIFO1 => 1
  | eCANFD_REJ_NON_MATCH_FRM => 3
  end.

Inductive E_CANFD_MSG : Type :=
| eCANFD_MSG_RF0 | eCANFD_MSG_RF1 | eCANFD_MSG_DRB | eCANFD_MSG_DTB
| eCANFD_MSG_TEF | eCANFD_MSG_SID | eCANFD_MSG_XID.

(** ** Elements of the message RAM

    The bit fields of an element lie in little-endian words, the first one lowest. *)

Definition word_bytes (w : Z) : list Z :=
  [w mod 256; w / 256 mod 256; w / 65536 mod 256; w / 16777216 mod 256].

Definition bytes_word (bs : list Z) : Z :=
  match bs with
  | [a; b; c; d] => a + 256 * b + 65536 * c + 16777216 * d
  | _ => 0
  end.

Definition word_at (bs : list Z) (i : nat) : Z := bytes_word (take 4 (drop (4 * i) bs)).

(** The bit field of [n] bits at [pos]. *)
Definition bits_at (w pos n : Z) : Z := w / 2 ^ pos mod 2 ^ n.

Record CANFD_RX_BUF_T : Type := mkRxBuf {
  rx_ID : Z; rx_RTR : Z; rx_XTD : Z; rx_ESI : Z;
  rx_RXTS : Z; rx_DLC : Z; rx_BRS : Z; rx_FDF : Z; rx_FIDX : Z; rx_ANMF : Z;
  rx_DB : list Z
}.

Definition rx_of_bytes (bs : list Z) : CANFD_RX_BUF_T :=
  let r0 := word_at bs 0 in
  let r1 := word_at bs 1 in
  mkRxBuf (bits_at r0 0 29) (bits_at r0 29 1) (bits_at r0 30 1) (bits_at r0 31 1)
    (bits_at r1 0 16) (bits_at r1 16 4) (bits_at r1 20 1) (bits_at r1 21 1)
    (bits_at r1 24 7) (bits_at r1 31 1) (drop 8 bs).

Definition rx_bytes (b : CANFD_RX_BUF_T) : list Z :=
  word_bytes (rx_ID b + rx_RTR b * 2 ^ 29 + rx_XTD b * 2 ^ 30 + rx_ESI b * 2 ^ 31) ++
  word_bytes (rx_RXTS b + rx_DLC b * 2 ^ 16 + rx_BRS b * 2 ^ 20 + rx_FDF b * 2 ^ 21
              + rx_FIDX b * 2 ^ 24 + rx_ANMF b * 2 ^ 31) ++
  rx_DB b.

Record CANFD_TX_BUF_T : Type := mkTxBuf {
  tx_ID : Z; tx_RTR : Z; tx_XTD : Z; tx_ESI : Z;
  tx_MM_H : Z; tx_DLC : Z; tx_BRS : Z; tx_FDF : Z; tx_EFC : Z; tx_MM_L : Z;
  tx_DB : list Z
}.

Definition tx_bytes (b : CANFD_TX_BUF_T) : list Z :=
  word_bytes (tx_ID b + tx_RTR b * 2 ^ 29 + tx_XTD b * 2 ^ 30 + tx_ESI b * 2 ^ 31) ++
  word_bytes (tx_MM_H b * 2 ^ 8 + tx_DLC b * 2 ^ 16 + tx_BRS b * 2 ^ 20 + tx_FDF b * 2 ^ 21
              + tx_EFC b * 2 ^ 23 + tx_MM_L b * 2 ^ 24) ++
  tx_DB b.

Definition tx_of_bytes (bs : list Z) : CANFD_TX_BUF_T :=
  let t0 := word_at bs 0 in
  let t1 := word_at bs 1 in
  mkTxBuf (bits_at t0 0 29) (bits_at t0 29 1) (bits_at t0 30 1) (bits_at t0 31 1)
    (bits_at t1 8 8) (bits_at t1 16 4) (bits_at t1 20 1) (bits_at t1 21 1)
    (bits_at t1 23 1) (bits_at t1 24 8) (drop 8 bs).

Record CANFD_TX_EVENT_T : Type := mkTxEvent {
  ev_ID : Z; ev_RTR : Z; ev_XTD : Z; ev_ESI : Z;
  ev_TXTS : Z; ev_DLC : Z; ev_BRS : Z; ev_FDF : Z; ev_ET : Z; ev_MM : Z
}.

Definition event_of_bytes (bs : list Z) : CANFD_TX_EVENT_T :=
  let e0 := word_at bs 0 in
  let e1 := word_at bs 1 in
  mkTxEvent (bits_at e0 0 29) (bits_at e0 29 1) (bits_at e0 30 1) (bits_at e0 31 1)
    (bits_at e1 0 16) (bits_at e1 16 4) (bits_at e1 20 1) (bits_at e1 21 1)
    (bits_at e1 22 2) (bits_at e1 24 8).

Record CANFD_SID_FILTER_T : Type := mkSidFilter {
  SFID2 : Z; SFID1 : Z; SFEC : Z; SFT : Z
}.
Definition sid_bytes (f : CANFD_SID_FILTER_T) : list Z :=
  word_bytes (SFID2 f + SFID1 f * 2 ^ 16 + SFEC f * 2 ^ 27 + SFT f * 2 ^ 30).

Record CANFD_XID_FILTER_T : Type := mkXidFilter {
  EFID1 : Z; EFEC : Z; EFID2 : Z; EFT : Z
}.
Definition xid_bytes (f : CANFD_XID_FILTER_T) : list Z :=
  word_bytes (EFID1 f + EFEC f * 2 ^ 29) ++ word_bytes (EFID2 f + EFT f * 2 ^ 30).

(** [sizeof] *)
Definition sizeof_SID : Z := 4.
Definition sizeof_XID : Z := 8.
Definition sizeof_RX : Z := 72.
Definition sizeof_TX : Z := 72.
Definition sizeof_EVENT : Z := 8.

(** Element [idx] of the section a register's start address points to. *)
Definition element_addr (reg msk idx size : Z) : Z := Z.land reg msk + u32 (idx * size).
Definition CANFD_GET_SID_ADDR (sidfc idx : Z) : Z := element_addr sidfc CANFD_SIDFC_FLSSA_Msk idx sizeof_SID.
Definition CANFD_GET_XID_ADDR (xidfc idx : Z) : Z := element_addr xidfc CANFD_XIDFC_FLESA_Msk idx sizeof_XID.
Definition CANFD_GET_TXBUF_ADDR (txbc idx : Z) : Z := element_addr txbc CANFD_TXBC_TBSA_Msk idx sizeof_TX.
Definition CANFD_GET_RXBUF_ADDR (rxbc idx : Z) : Z := element_addr rxbc CANFD_RXBC_RBSA_Msk idx sizeof_RX.
Definition CANFD_GET_RF0BUF_ADDR (c idx : Z) : Z := element_addr c CANFD_RXF0C_F0SA_Msk idx sizeof_RX.
Definition CANFD_GET_RF1BUF_ADDR (c idx : Z) : Z := element_addr c CANFD_RXF1C_F1SA_Msk idx sizeof_RX.
Definition CANFD_GET_TXEVENT_ADDR (c idx : Z) : Z := element_addr c CANFD_TXEFC_EFSA_Msk idx sizeof_EVENT.

(** ** Configuration *)

Record CANFD_NBT_CONFIG_T : Type := mkBitRate {
  u32BitRate : Z; u16TDCOffset : Z; u16TDCFltrWin : Z; u8TDC : Z
}.

Record CANFD_FD_BT_CONFIG_T : Type := mkBtConfig {
  sNormBitRate : CANFD_NBT_CONFIG_T;
  sDataBitRate : CANFD_NBT_CONFIG_T;      (* CANFD_DBT_CONFIG_T, the same fields *)
  sConfigBitTing : CANFD_TIMEING_CONFIG_T;
  bFDEn : bool;
  bBitRateSwitch : bool;
  evTestMode : E_CANFD_TEST_MODE
}.

Record CANFD_RAM_PART_T : Type := mkRamPart {
  u32SIDFC_FLSSA : Z; u32XIDFC_FLESA : Z; u32RXF0C_F0SA : Z; u32RXF1C_F1SA : Z;
  u32RXBC_RBSA : Z; u32TXEFC_EFSA : Z; u32TXBC_TBSA : Z
}.

Record CANFD_ELEM_SIZE_T : Type := mkElemSize {
  u32SIDFC : Z; u32XIDFC : Z; u32RxFifo0 : Z; u32RxFifo1 : Z; u32RxBuf : Z;
  u32TxBuf : Z; u32TxFifoQueue : Z; u32TxEventFifo : Z; u32UserDef : Z
}.

Record CANFD_FD_T : Type := mkFd {
  sBtConfig : CANFD_FD_BT_CONFIG_T;
  sMRamStartAddr : CANFD_RAM_PART_T;
  sElemSize : CANFD_ELEM_SIZE_T;
  u32MRamSize : Z
}.

(** The structure after [memset(psConfig, 0, sizeof(CANFD_FD_T))]; [sTxConfig] is used
    nowhere. *)
Definition zero_fd : CANFD_FD_T :=
  let r := mkBitRate 0 0 0 0 in
  mkFd (mkBtConfig r r (mkTiming 0 0 0 0 0 0 0 0 0 0 0) false false eCANFD_NORMAL)
    (mkRamPart 0 0 0 0 0 0 0) (mkElemSize 0 0 0 0 0 0 0 0 0) 0.

Definition set_bit_rate (b : Z) (r : CANFD_NBT_CONFIG_T) : CANFD_NBT_CONFIG_T :=
  mkBitRate b (u16TDCOffset r) (u16TDCFltrWin r) (u8TDC r).
Definition set_rates (n d : Z) (c : CANFD_FD_T) : CANFD_FD_T :=
  let b := sBtConfig c in
  mkFd (mkBtConfig (set_bit_rate n (sNormBitRate b)) (set_bit_rate d (sDataBitRate b))
          (sConfigBitTing b) (bFDEn b) (bBitRateSwitch b) (evTestMode b))
    (sMRamStartAddr c) (sElemSize c) (u32MRamSize c).
Definition set_mode (m : E_CANFD_TEST_MODE) (c : CANFD_FD_T) : CANFD_FD_T :=
  let b := sBtConfig c in
  mkFd (mkBtConfig (sNormBitRate b) (sDataBitRate b) (sConfigBitTing b) (bFDEn b)
          (bBitRateSwitch b) m) (sMRamStartAddr c) (sElemSize c) (u32MRamSize c).
Definition set_fd_flags (fd brs : bool) (c : CANFD_FD_T) : CANFD_FD_T :=
  let b := sBtConfig c in
  mkFd (mkBtConfig (sNormBitRate b) (sDataBitRate b) (sConfigBitTing b) fd brs (evTestMode b))
    (sMRamStartAddr c) (sElemSize c) (u32MRamSize c).
Definition set_timing (t : CANFD_TIMEING_CONFIG_T) (c : CANFD_FD_T) : CANFD_FD_T :=
  let b := sBtConfig c in
  mkFd (mkBtConfig (sNormBitRate b) (sDataBitRate b) t (bFDEn b) (bBitRateSwitch b)
          (evTestMode b)) (sMRamStartAddr c) (sElemSize c) (u32MRamSize c).
Definition set_addrs (a : CANFD_RAM_PART_T) (c : CANFD_FD_T) : CANFD_FD_T :=
  mkFd (sBtConfig c) a (sElemSize c) (u32MRamSize c).
Definition set_elems (e : CANFD_ELEM_SIZE_T) (c : CANFD_FD_T) : CANFD_FD_T :=
  mkFd (sBtConfig c) (sMRamStartAddr c) e (u32MRamSize c).
Definition set_mram_size (n : Z) (c : CANFD_FD_T) : CANFD_FD_T :=
  mkFd (sBtConfig c) (sMRamStartAddr c) (sElemSize c) n.

(** More than 32 transmit buffers are cut back to 16 and 16. *)
Definition limit_tx (e : CANFD_ELEM_SIZE_T) : CANFD_ELEM_SIZE_T :=
  if 32 <? u32 (u32TxBuf e + u32TxFifoQueue e) then
    mkElemSize (u32SIDFC e) (u32XIDFC e) (u32RxFifo0 e) (u32RxFifo1 e) (u32RxBuf e)
      16 16 (u32TxEventFifo e) (u32UserDef e)
  else e.

(** Where a section of [n] elements goes: at the offset so far if it has elements. *)
Definition place (off old n size : Z) : Z * Z :=
  if 0 <? n then (off, u32 (off + n * size)) else (old, off).

Definition CANFD_CalculateRamAddress (a : CANFD_RAM_PART_T) (e : CANFD_ELEM_SIZE_T)
  : Z * CANFD_RAM_PART_T * CANFD_ELEM_SIZE_T :=
  let '(sid, o) := place 0 (u32SIDFC_FLSSA a) (u32SIDFC e) sizeof_SID in
  let '(xid, o) := place o (u32XIDFC_FLESA a) (u32XIDFC e) sizeof_XID in
  let '(rf0, o) := place o (u32RXF0C_F0SA a) (u32RxFifo0 e) sizeof_RX in
  let '(rf1, o) := place o (u32RXF1C_F1SA a) (u32RxFifo1 e) sizeof_RX in
  let '(rxb, o) := place o (u32RXBC_RBSA a) (u32RxBuf e) sizeof_RX in
  let '(tef, o) := place o (u32TXEFC_EFSA a) (u32TxEventFifo e) sizeof_EVENT in
  if 0 <? u32 (u32TxBuf e + u32TxFifoQueue e) then
    let e := limit_tx e in
    let '(txb, o) := place o (u32TXBC_TBSA a) (u32 (u32TxBuf e + u32TxFifoQueue e)) sizeof_TX in
    (o, mkRamPart sid xid rf0 rf1 rxb tef txb, e)
  else (o, mkRamPart sid xid rf0 rf1 rxb tef (u32TXBC_TBSA a), e).

Definition default_elems (user : Z) : CANFD_ELEM_SIZE_T := mkElemSize 16 16 16 16 16 16 16 16 user.

Definition CANFD_GetDefaultConfig (c : CANFD_FD_T) (u8OpMode : Z) : Z * CANFD_FD_T :=
  let c := if u32UserDef (sElemSize c) =? 0 then zero_fd else c in
  let c := if u8OpMode =? CANFD_OP_CAN_MODE
           then set_fd_flags false false (set_rates 500000 0 c)
           else set_fd_flags true true (set_rates 500000 1000000 c) in
  let c := set_mram_size CANFD_SRAM_SIZE (set_mode eCANFD_NORMAL c) in
  let c := if u32UserDef (sElemSize c) =? 0 then set_elems (default_elems 0) c else c in
  let '(n, a, e) := CANFD_CalculateRamAddress (sMRamStartAddr c) (sElemSize c) in
  (n, set_elems e (set_addrs a c)).

(** ** Data length codes *)

Definition CANFD_EncodeDLC (u32NumOfBytes : Z) : Z :=
  if u32NumOfBytes <=? 8 then u32NumOfBytes
  else if u32NumOfBytes <=? 12 then 9
  else if u32NumOfBytes <=? 16 then 10
  else if u32NumOfBytes <=? 20 then 11
  else if u32NumOfBytes <=? 24 then 12
  else if u32NumOfBytes <=? 32 then 13
  else if u32NumOfBytes <=? 48 then 14
  else 15.

Definition CANFD_DecodeDLC (u32Dlc : Z) : Z :=
  if u32Dlc <=? 8 then u32Dlc
  else if u32Dlc =? 9 then 12
  else if u32Dlc =? 10 then 16
  else if u32Dlc =? 11 then 20
  else if u32Dlc =? 12 then 24
  else if u32Dlc =? 13 then 32
  else if u32Dlc =? 14 then 48
  else 64.

(** ** Message RAM sections

    The words of an element with a data field of the given size. *)

Definition element_words (s : E_CANFD_DATA_FIELD_SIZE) : Z :=
  let n := data_field_code s in if n <? 5 then n + 4 else n * 4 - 10.

Section driver.
Context (E : canfd_env).

Definition init_fifo (rc : CANFD_T) (sa n wm dspos dsmsk : Z) (s : E_CANFD_DATA_FIELD_SIZE)
    (addr : Z -> Z) : CM unit :=
  if negb (n =? 0) then
    wr E rc (Z.lor (Z.lor sa (shl32 n CANFD_RXF0C_F0S_Pos)) (shl32 wm CANFD_RXF0C_F0WM_Pos)) ;;
    let! x := rd RXESC in
    wr E RXESC (Z.lor (Z.land x (not32 dsmsk)) (shl32 (data_field_code s) dspos)) ;;
    let! c := rd rc in
    ram_clear (addr c) (u32 (element_words s * 4 * n))
  else wr E rc 0.

Definition CANFD_InitRxFifo (u32RxFifoNum : Z) (a : CANFD_RAM_PART_T) (e : CANFD_ELEM_SIZE_T)
    (u32FifoWM : Z) (s : E_CANFD_DATA_FIELD_SIZE) : CM unit :=
  if CANFD_NUM_RX_FIFOS <? u32RxFifoNum then ret tt
  else if CANFD_MAX_RX_FIFO0_ELEMS <? u32RxFifo0 e then ret tt
  else if CANFD_MAX_RX_FIFO1_ELEMS <? u32RxFifo1 e then ret tt
  else if u32RxFifoNum =? 0 then
    init_fifo RXF0C (u32RXF0C_F0SA a) (u32RxFifo0 e) u32FifoWM CANFD_RXESC_F0DS_Pos
      CANFD_RXESC_F0DS_Msk s (fun c => CANFD_GET_RF0BUF_ADDR c 0)
  else if u32RxFifoNum =? 1 then
    init_fifo RXF1C (u32RXF1C_F1SA a) (u32RxFifo1 e) u32FifoWM CANFD_RXESC_F1DS_Pos
      CANFD_RXESC_F1DS_Msk s (fun c => CANFD_GET_RF1BUF_ADDR c 0)
  else ret tt.

Definition CANFD_InitTxDBuf (a : CANFD_RAM_PART_T) (e : CANFD_ELEM_SIZE_T)
    (s : E_CANFD_DATA_FIELD_SIZE) : CM CANFD_ELEM_SIZE_T :=
  let e := limit_tx e in
  wr E TXBC (Z.lor (Z.lor (shl32 (Z.land (u32TxFifoQueue e) 0x3F) CANFD_TXBC_TFQS_Pos)
                          (shl32 (Z.land (u32TxBuf e) 0x3F) CANFD_TXBC_NDTB_Pos))
                   (Z.land (u32TXBC_TBSA a) CANFD_TXBC_TBSA_Msk)) ;;
  let! x := rd TXESC in
  wr E TXESC (Z.lor (Z.land x (not32 CANFD_TXESC_TBDS_Msk))
                    (shl32 (data_field_code s) CANFD_TXESC_TBDS_Pos)) ;;
  let! c := rd TXBC in
  ram_clear (CANFD_GET_TXBUF_ADDR c 0) (u32 (element_words s * 4 * u32TxBuf e)) ;;
  ret e.

(** The address to clear is taken before the register gets the new start address. *)
Definition CANFD_InitRxDBuf (a : CANFD_RAM_PART_T) (e : CANFD_ELEM_SIZE_T)
    (s : E_CANFD_DATA_FIELD_SIZE) : CM unit :=
  let! c := rd RXBC in
  let head := CANFD_GET_RXBUF_ADDR c 0 in
  wr E RXBC (Z.land (u32RXBC_RBSA a) CANFD_RXBC_RBSA_Msk) ;;
  let! x := rd RXESC in
  wr E RXESC (Z.lor (Z.land x (not32 CANFD_RXESC_RBDS_Msk))
                    (shl32 (data_field_code s) CANFD_RXESC_RBDS_Pos)) ;;
  ram_clear head (u32 (element_words s * 4 * u32RxBuf e)).

Definition CANFD_InitTxEvntFifo (a : CANFD_RAM_PART_T) (e : CANFD_ELEM_SIZE_T) (wl : Z) : CM unit :=
  wr E TXEFC (Z.lor (Z.lor (shl32 wl CANFD_TXEFC_EFWM_Pos)
                           (shl32 (u32TxEventFifo e) CANFD_TXEFC_EFS_Pos))
                    (Z.land (u32TXEFC_EFSA a) CANFD_TXEFC_EFSA_Msk)).

Definition CANFD_ConfigSIDFC (a : CANFD_RAM_PART_T) (e : CANFD_ELEM_SIZE_T) : CM unit :=
  let! c := rd SIDFC in
  let head := CANFD_GET_SID_ADDR c 0 in
  wr E SIDFC (Z.lor (shl32 (Z.land (u32SIDFC e) 0xFF) CANFD_SIDFC_LSS_Pos)
                    (Z.land (u32SIDFC_FLSSA a) CANFD_SIDFC_FLSSA_Msk)) ;;
  ram_clear head (u32 (u32SIDFC e * sizeof_SID)).

Definition CANFD_ConfigXIDFC (a : CANFD_RAM_PART_T) (e : CANFD_ELEM_SIZE_T) : CM unit :=
  let! c := rd XIDFC in
  let head := CANFD_GET_XID_ADDR c 0 in
  wr E XIDFC (Z.lor (shl32 (Z.land (u32XIDFC e) 0xFF) CANFD_XIDFC_LSE_Pos)
                    (Z.land (u32XIDFC_FLESA a) CANFD_XIDFC_FLESA_Msk)) ;;
  ram_clear head (u32 (u32XIDFC e * sizeof_XID)).

(** ** Running and stopping *)

(** [while] the INIT bit is not [want].  A read shows the former bit only [cf_lag] times,
    so that much fuel and one more is enough. *)
Fixpoint wait_init (fuel : nat) (want : bool) (count : Z) : CM Z :=
  match fuel with
  | O => out_of_fuel
  | S fuel' =>
      let! c := rd CCCR in
      if eqb (tst c CANFD_CCCR_INIT_Msk) want then ret CANFD_OK
      else
        let count := u32 (count - 1) in
        if count =? 0 then ret CANFD_ERR_TIMEOUT else wait_init fuel' want count
  end.

Definition CANFD_RunToNormal (u8Enable : bool) : CM Z :=
  if u8Enable then
    reg_and E CCCR (not32 (Z.lor CANFD_CCCR_CCE_Msk CANFD_CCCR_INIT_Msk)) ;;
    let! h := get in wait_init (S (cf_lag h)) false (canfd_SystemCoreClock E)
  else
    reg_or E CCCR (Z.lor CANFD_CCCR_INIT_Msk CANFD_CCCR_CCE_Msk) ;;
    let! h := get in wait_init (S (cf_lag h)) true (canfd_SystemCoreClock E).

Definition CANFD_SetGFC (eNMStdFrm eEMExtFrm : E_CANFD_ACC_NON_MATCH_FRM)
    (u32RejRmtStdFrm u32RejRmtExtFrm : Z) : CM unit :=
  reg_and E GFC (not32 (Z.lor (Z.lor (Z.lor CANFD_GFC_ANFS_Msk CANFD_GFC_ANFE_Msk)
                                     CANFD_GFC_RRFS_Msk) CANFD_GFC_RRFE_Msk)) ;;
  wr E GFC (Z.lor (Z.lor (Z.lor (shl32 (non_match_code eNMStdFrm) CANFD_GFC_ANFS_Pos)
                                (shl32 (non_match_code eEMExtFrm) CANFD_GFC_ANFE_Pos))
                         (shl32 u32RejRmtStdFrm CANFD_GFC_RRFS_Pos))
                  (shl32 u32RejRmtExtFrm CANFD_GFC_RRFE_Pos)).

(** The [switch] over the test mode at the end of [CANFD_Open]. *)
Definition enter_test_mode (m : E_CANFD_TEST_MODE) : CM unit :=
  match m with
  | eCANFD_RESTRICTED_OPERATION => reg_or E CCCR (Z.lor CANFD_CCCR_TEST_Msk CANFD_CCCR_ASM_Msk)
  | eCANFD_BUS_MONITOR => reg_or E CCCR (Z.lor CANFD_CCCR_TEST_Msk CANFD_CCCR_MON_Msk)
  | eCANFD_LOOPBACK_EXTERNAL =>
      reg_or E CCCR CANFD_CCCR_TEST_Msk ;; reg_or E TEST CANFD_TEST_LBCK_Msk
  | eCANFD_LOOPBACK_INTERNAL =>
      reg_or E CCCR (Z.lor CANFD_CCCR_TEST_Msk CANFD_CCCR_MON_Msk) ;;
      reg_or E TEST CANFD_TEST_LBCK_Msk
  | eCANFD_NORMAL =>
      reg_and E CCCR (not32 (Z.lor (Z.lor CANFD_CCCR_MON_Msk CANFD_CCCR_TEST_Msk)
                                   CANFD_CCCR_ASM_Msk)) ;;
      reg_and E TEST (not32 CANFD_TEST_LBCK_Msk)
  end.

(** [if (b) m] *)
Definition when_ (b : bool) (m : CM unit) : CM unit := if b then m else ret tt.

Definition nonzero (x : Z) : bool := negb (x =? 0).

(** The bit timing of [CANFD_Open]; a search that finds nothing leaves the registers. *)
Definition open_timing (psCanfd src : Z) (s : CANFD_FD_T) : CM CANFD_FD_T :=
  let b := sBtConfig s in
  let! ' (found, t) := CANFD_CalculateTimingValues E (u32BitRate (sNormBitRate b))
                         (u32BitRate (sDataBitRate b)) src (sConfigBitTing b) in
  when_ found (CANFD_SetTimingConfig E psCanfd t) ;;
  ret (set_timing t s).

(** The message RAM part of [CANFD_Open]. *)
Definition open_ram (s : CANFD_FD_T) : CM CANFD_FD_T :=
  let a := sMRamStartAddr s in
  let e := sElemSize s in
  when_ (nonzero (u32SIDFC e)) (CANFD_ConfigSIDFC a e) ;;
  when_ (nonzero (u32XIDFC e)) (CANFD_ConfigXIDFC a e) ;;
  let! e := if nonzero (u32TxBuf e) || nonzero (u32TxFifoQueue e)
            then CANFD_InitTxDBuf a e eCANFD_BYTE64 else ret e in
  when_ (nonzero (u32RxBuf e)) (CANFD_InitRxDBuf a e eCANFD_BYTE64) ;;
  when_ (nonzero (u32RxFifo0 e)) (CANFD_InitRxFifo 0 a e 0 eCANFD_BYTE64) ;;
  when_ (nonzero (u32RxFifo1 e)) (CANFD_InitRxFifo 1 a e 0 eCANFD_BYTE64) ;;
  when_ (nonzero (u32TxEventFifo e)) (CANFD_InitTxEvntFifo a e 0) ;;
  ret (set_elems e s).

Definition CANFD_Open (psCanfd : Z) (s : CANFD_FD_T) : CM CANFD_FD_T :=
  if (0 <=? psCanfd) && (psCanfd <=? 3) then
    modify (set_clk true) ;;
    reset_canfd E ;;
    let src := if canfd_vpll E then canfd_VPLL E else canfd_APLL E in
    CANFD_RunToNormal false ;;
    when_ (bBitRateSwitch (sBtConfig s)) (reg_or E CCCR CANFD_CCCR_BRSE_Msk) ;;
    when_ (bFDEn (sBtConfig s)) (reg_or E CCCR CANFD_CCCR_FDOE_Msk) ;;
    wr E RXF0C 0 ;;
    wr E RXF1C 0 ;;
    let! s := open_timing psCanfd src s in
    let! s := open_ram s in
    CANFD_SetGFC eCANFD_REJ_NON_MATCH_FRM eCANFD_REJ_NON_MATCH_FRM 1 1 ;;
    enter_test_mode (evTestMode (sBtConfig s)) ;;
    ret s
  else ret s.

Definition CANFD_Close (psCanfd : Z) : CM unit :=
  if (0 <=? psCanfd) && (psCanfd <=? 3) then modify (set_clk false) else ret tt.

(** ** Interrupts and status *)

Definition CANFD_EnableInt (u32IntLine0 u32IntLine1 u32TXBTIE u32TXBCIE : Z) : CM unit :=
  reg_or E IE (Z.lor u32IntLine0 u32IntLine1) ;;
  when_ (nonzero u32IntLine0)
    (reg_and E ILS (not32 u32IntLine0) ;; reg_or E ILE CANFD_ILE_ENT0_Msk) ;;
  when_ (nonzero u32IntLine1)
    (reg_or E ILS u32IntLine1 ;; reg_or E ILE CANFD_ILE_ENT1_Msk) ;;
  reg_or E TXBTIE u32TXBTIE ;;
  reg_or E TXBCIE u32TXBCIE.

Definition CANFD_DisableInt (u32IntLine0 u32IntLine1 u32TXBTIE u32TXBCIE : Z) : CM unit :=
  reg_and E IE (not32 (Z.lor u32IntLine0 u32IntLine1)) ;;
  when_ (nonzero u32IntLine0) (reg_or E ILS u32IntLine0) ;;
  let! x := rd ILS in
  when_ (x =? not32 0) (reg_and E ILE (not32 CANFD_ILE_ENT0_Msk)) ;;
  when_ (nonzero u32IntLine1) (reg_and E ILS (not32 u32IntLine1)) ;;
  let! x := rd ILS in
  when_ (x =? 0) (reg_and E ILE (not32 CANFD_ILE_ENT1_Msk)) ;;
  reg_and E TXBTIE (not32 u32TXBTIE) ;;
  reg_and E TXBCIE (not32 u32TXBCIE).

Definition CANFD_GetRxFifoWaterLvl (u32RxFifoNum : Z) : CM Z :=
  if u32RxFifoNum =? 0 then
    let! c := rd RXF0C in ret (Z.shiftr (Z.land c CANFD_RXF0C_F0WM_Msk) CANFD_RXF0C_F0WM_Pos)
  else
    let! c := rd RXF1C in ret (Z.shiftr (Z.land c CANFD_RXF1C_F1WM_Msk) CANFD_RXF1C_F1WM_Pos).

(** [0x1ul << i], undefined from 32 on. *)
Definition tx_mask (i : Z) : option Z := if (0 <=? i) && (i <? 32) then Some (bit i) else None.

Definition CANFD_TxBufCancelReq (u32TxBufIdx : Z) : CM unit :=
  let! m := deref (tx_mask u32TxBufIdx) in reg_or E TXBCR m.

Definition CANFD_IsTxBufCancelFin (u32TxBufIdx : Z) : CM Z :=
  let! m := deref (tx_mask u32TxBufIdx) in
  let! x := rd TXBCR in ret (Z.shiftr (Z.land x m) u32TxBufIdx).

Definition CANFD_IsTxBufTransmitOccur (u32TxBufIdx : Z) : CM Z :=
  let! m := deref (tx_mask u32TxBufIdx) in
  let! x := rd TXBTO in ret (Z.shiftr (Z.land x m) u32TxBufIdx).

Definition CANFD_GetTxEvntFifoWaterLvl : CM Z :=
  let! x := rd TXEFC in ret (Z.shiftr (Z.land x CANFD_TXEFC_EFWM_Msk) CANFD_TXEFC_EFWM_Pos).

Definition CANFD_GetStatusFlag (u32IntTypeFlag : Z) : CM Z :=
  let! x := rd IR in ret (Z.land x u32IntTypeFlag).

Definition CANFD_ClearStatusFlag (u32InterruptFlag : Z) : CM unit := wr E IR u32InterruptFlag.

(** The counters stored through the two pointers, [None] for a null pointer. *)
Definition CANFD_GetBusErrCount (tx rx : bool) : CM (option Z * option Z) :=
  let! t := if tx then
              let! x := rd ECR in
              ret (Some (u8 (Z.land (Z.shiftr x CANFD_ECR_TEC_Pos) CANFD_ECR_TEC_Msk)))
            else ret None in
  let! r := if rx then
              let! x := rd ECR in
              ret (Some (u8 (Z.land (Z.shiftr x CANFD_ECR_REC_Pos) CANFD_ECR_REC_Msk)))
            else ret None in
  ret (t, r).

(** ** Transfers

    [user] is the memory behind [psUserData] ([None] for a null pointer); the result is
    the address in the message RAM ([None] for NULL) and what was stored through
    [psUserData]. *)

Definition transfer_rx_fifo (rs rc ra : CANFD_T) (lost : Z) (user : option (list Z))
  : CM (option Z * option (list Z)) :=
  let! s := rd rs in
  if 0 <? Z.land s CANFD_RXF0S_F0FL_Msk then
    let! s := rd rs in
    let gi := u8 (Z.shiftr (Z.land s CANFD_RXF0S_F0GI_Msk) CANFD_RXF0S_F0GI_Pos) in
    let! c := rd rc in
    let p := element_addr c CANFD_RXF0C_F0SA_Msk gi sizeof_RX in
    let! got := match user with
                | Some _ => let! bs := ram_read p sizeof_RX in ret (Some bs)
                | None => ret None
                end in
    wr E ra gi ;;
    let! s := rd rs in
    when_ (tst s CANFD_RXF0S_RF0L_Msk) (wr E IR lost) ;;
    ret (Some p, got)
  else ret (None, None).

Definition transfer_rx_buffer (user : option (list Z)) (u32Idx : Z)
  : CM (option Z * option (list Z)) :=
  if u32Idx <? CANFD_MAX_RX_BUF_ELEMS then
    let reg := if u32Idx <? 32 then NDAT1 else NDAT2 in
    let i := if u32Idx <? 32 then u32Idx else u32Idx - 32 in
    let! x := rd reg in
    if nonzero (Z.land (Z.shiftr x i) 1) then
      let! c := rd RXBC in
      let p := CANFD_GET_RXBUF_ADDR c u32Idx in
      match user with
      | Some _ =>
          let! bs := ram_read p sizeof_RX in
          let! x := rd reg in
          wr E reg (Z.lor x (bit i)) ;;
          ret (Some p, Some bs)
      | None => ret (None, None)
      end
    else ret (None, None)
  else ret (None, None).

Definition transfer_tx_buffer (user : option (list Z)) (u32Idx : Z)
  : CM (option Z * option (list Z)) :=
  if CANFD_MAX_TX_BUF_ELEMS <=? u32Idx then ret (None, None)
  else
    let! x := rd TXBRP in
    if tst x (bit u32Idx) then ret (None, None)
    else
      match user with
      | None => ret (None, None)
      | Some bs =>
          let! c := rd TXBC in
          let p := CANFD_GET_TXBUF_ADDR c u32Idx in
          ram_write p (take 72 bs) ;;
          let! m := deref (int_shl E 1 u32Idx) in
          wr E TXBAR (u32 m) ;;
          ret (Some p, None)
      end.

Definition transfer_tx_event (user : option (list Z)) : CM (option Z * option (list Z)) :=
  let! s := rd TXEFS in
  if 0 <? Z.land s CANFD_TXEFS_EFFL_Msk then
    let! s := rd TXEFS in
    let gi := u8 (Z.shiftr (Z.land s CANFD_TXEFS_EFGI_Msk) CANFD_TXEFS_EFGI_Pos) in
    let! c := rd TXEFC in
    let p := CANFD_GET_TXEVENT_ADDR c gi in
    let! got := match user with
                | Some _ =>
                    let! bs := ram_read p sizeof_EVENT in
                    wr E TXEFA gi ;; ret (Some bs)
                | None => ret None
                end in
    let! s := rd TXEFS in
    when_ (tst s CANFD_TXEFS_TEFL_Msk) (reg_or E IR CANFD_IR_TEFF_Msk) ;;
    ret (Some p, got)
  else ret (None, None).

Definition transfer_filter (most : Z) (reg : CANFD_T) (addr : Z -> Z -> Z) (size : nat)
    (user : option (list Z)) (u32Idx : Z) : CM (option Z * option (list Z)) :=
  if most <=? u32Idx then ret (None, None)
  else
    match user with
    | None => ret (None, None)
    | Some bs =>
        let! c := rd reg in
        let p := addr c u32Idx in
        ram_write p (take size bs) ;;
        ret (Some p, None)
    end.

Definition CANFD_Transfer (eCanfdMsg : E_CANFD_MSG) (user : option (list Z)) (u32Idx : Z)
  : CM (option Z * option (list Z)) :=
  match eCanfdMsg with
  | eCANFD_MSG_RF0 => transfer_rx_fifo RXF0S RXF0C RXF0A CANFD_IR_RF0L_Msk user
  | eCANFD_MSG_RF1 => transfer_rx_fifo RXF1S RXF1C RXF1A CANFD_IR_RF1L_Msk user
  | eCANFD_MSG_DRB => transfer_rx_buffer user u32Idx
  | eCANFD_MSG_DTB => transfer_tx_buffer user u32Idx
  | eCANFD_MSG_TEF => transfer_tx_event user
  | eCANFD_MSG_SID =>
      transfer_filter CANFD_MAX_11_BIT_FTR_ELEMS SIDFC CANFD_GET_SID_ADDR 4 user u32Idx
  | eCANFD_MSG_XID =>
      transfer_filter CANFD_MAX_29_BIT_FTR_ELEMS XIDFC CANFD_GET_XID_ADDR 8 user u32Idx
  end.

End driver.
