(* ===== verification/CanFdDrv.v ===== *)
(** * The CAN device of a CAN FD controller

    Models [libraries/ma35/rtt_port/drv_canfd.c] in the board's configuration: CANFD0 to
    CANFD3, no hardware filters ([RT_CAN_USING_HDR] off) and messages of at most eight
    bytes ([RT_CAN_USING_CANFD] off).  The calls into the CAN framework
    ([rt_hw_can_isr], registration, interrupt installation) are recorded as events in
    order; console output is left out. *)

From Stdlib Require Import ZArith Lia Bool.
From stdpp Require Import base tactics numbers list option.
From S2P Require Import Prelude BitUtil CanFdHw CanFdTiming CanFd.

Open Scope Z_scope.

(** ** Data *)

Definition CAN1MBaud : Z := 1000 * 1000.
Definition CAN800kBaud : Z := 1000 * 800.
Definition CAN500kBaud : Z := 1000 * 500.
Definition CAN250kBaud : Z := 1000 * 250.
Definition CAN125kBaud : Z := 1000 * 125.
Definition CAN100kBaud : Z := 1000 * 100.
Definition CAN50kBaud : Z := 1000 * 50.
Definition CAN20kBaud : Z := 1000 * 20.
Definition CAN10kBaud : Z := 1000 * 10.
Definition RT_CAN_MODE_NORMAL : Z := 0.
Definition RT_CAN_MODE_LISTEN : Z := 1.
Definition RT_CAN_MODE_LOOPBACK : Z := 2.
Definition RT_CAN_MODE_LOOPBACKANLISTEN : Z := 3.
Definition RT_CAN_MODE_PRIV : Z := 1.
Definition RT_CAN_MODE_NOPRIV : Z := 0.
Definition RT_CAN_CMD_SET_BAUD : Z := 0x14.
Definition RT_CAN_CMD_SET_MODE : Z := 0x15.
Definition RT_CAN_CMD_SET_PRIV : Z := 0x16.
Definition RT_CAN_CMD_GET_STATUS : Z := 0x17.
Definition RT_DEVICE_CAN_INT_ERR : Z := 0x1000.
Definition RT_CAN_STDID : Z := 0.
Definition RT_CAN_EXTID : Z := 1.
Definition RT_CAN_DTR : Z := 0.
Definition RT_CAN_RTR : Z := 1.
Definition RT_CAN_EVENT_RX_IND : Z := 1.
Definition RT_CAN_EVENT_TX_DONE : Z := 2.
Definition RT_CAN_EVENT_TX_FAIL : Z := 3.
Definition RT_CAN_EVENT_RXOF_IND : Z := 6.

(** The part of [struct can_configure] the driver reads. *)
Record can_configure : Type := mkCanConfigure {
  baud_rate : Z; can_mode : Z; privmode : Z
}.

(** The part of [struct rt_can_status] the driver writes. *)
Record rt_can_status : Type := mkCanStatus {
  rcverrcnt : Z; snderrcnt : Z; errcode : Z; lasterrtype : Z
}.

Record rt_can_msg : Type := mkCanMsg {
  msg_id : Z; msg_ide : Z; msg_rtr : Z; msg_rsv : Z; msg_len : Z; msg_priv : Z;
  msg_hdr_index : Z; msg_rxfifo : Z; msg_reserved : Z; msg_data : list Z
}.

Inductive can_event : Type :=
| CanIsr (n event : Z)                (* rt_hw_can_isr(dev n, event) *)
| CanRegister (n : Z)                 (* rt_hw_can_register *)
| InstallIsr (n line : Z)             (* rt_hw_interrupt_install of irqn0, irqn1 *)
| UnmaskIrq (n line : Z).

Record nu_canfd : Type := mkNuCanfd {
  can_n : Z;                          (* base: CANFD0 to CANFD3 *)
  can_hw : canfd_hw;
  can_config : can_configure;
  can_status : rt_can_status;
  int_flag : Z;
  sCANFD_Config : CANFD_FD_T;
  can_events : list can_event
}.

Definition set_can_hw (h : canfd_hw) (s : nu_canfd) : nu_canfd :=
  mkNuCanfd (can_n s) h (can_config s) (can_status s) (int_flag s) (sCANFD_Config s) (can_events s).
Definition set_can_config (c : can_configure) (s : nu_canfd) : nu_canfd :=
  mkNuCanfd (can_n s) (can_hw s) c (can_status s) (int_flag s) (sCANFD_Config s) (can_events s).
Definition set_can_status (c : rt_can_status) (s : nu_canfd) : nu_canfd :=
  mkNuCanfd (can_n s) (can_hw s) (can_config s) c (int_flag s) (sCANFD_Config s) (can_events s).
Definition set_int_flag (v : Z) (s : nu_canfd) : nu_canfd :=
  mkNuCanfd (can_n s) (can_hw s) (can_config s) (can_status s) v (sCANFD_Config s) (can_events s).
Definition set_fd_config (c : CANFD_FD_T) (s : nu_canfd) : nu_canfd :=
  mkNuCanfd (can_n s) (can_hw s) (can_config s) (can_status s) (int_flag s) c (can_events s).
Definition emit_can (e : can_event) (s : nu_canfd) : nu_canfd :=
  mkNuCanfd (can_n s) (can_hw s) (can_config s) (can_status s) (int_flag s) (sCANFD_Config s)
    (can_events s ++ [e]).

Definition DM (A : Type) : Type := M nu_canfd A.

(** A driver call on the controller of the device. *)
Definition on_hw {A} (m : CM A) : DM A := fun s =>
  match m (can_hw s) with
  | Ret (a, h) => Ret (a, set_can_hw h s)
  | AssertFail => AssertFail
  | Undef => Undef
  | OutOfFuel => OutOfFuel
  end.

Definition when_d (b : bool) (m : DM unit) : DM unit := if b then m else ret tt.

Section device.
Context (E : canfd_env).

(** ** Interrupts *)

(** The events of the interrupt register as [dump_interrupt_event] goes through them,
    lowest first; 32 turns and the last test are enough. *)
Fixpoint dump_interrupt_event (fuel : nat) (u32Status : Z) : option (list Z) :=
  match fuel with
  | O => None
  | S fuel' =>
      let idx := nu_ctz u32Status in
      if idx <? 32 then
        m ← int_shl E 1 idx;
        l ← dump_interrupt_event fuel' (Z.land u32Status (not32 m));
        Some (idx :: l)
      else Some []
  end.

Definition nu_canfd_isr : DM unit :=
  let! u32Status := on_hw (rd IR) in
  on_hw (CANFD_ClearStatusFlag E u32Status) ;;
  let! _dumped := deref (dump_interrupt_event 33 u32Status) in
  let! s := get in
  when_d (tst u32Status CANFD_IR_TC_Msk && tst (int_flag s) RT_DEVICE_FLAG_INT_TX)
    (modify (emit_can (CanIsr (can_n s) RT_CAN_EVENT_TX_DONE))) ;;
  when_d (tst u32Status (Z.lor CANFD_IR_RF0N_Msk CANFD_IR_RF1N_Msk)
          && tst (int_flag s) RT_DEVICE_FLAG_INT_RX)
    (modify (emit_can (CanIsr (can_n s) RT_CAN_EVENT_RX_IND))) ;;
  when_d (tst u32Status (Z.lor CANFD_IR_RF0L_Msk CANFD_IR_RF1L_Msk))
    (modify (emit_can (CanIsr (can_n s) RT_CAN_EVENT_RXOF_IND))) ;;
  when_d (tst u32Status (Z.lor CANFD_IR_TEFF_Msk CANFD_IR_TOO_Msk))
    (modify (emit_can (CanIsr (can_n s) RT_CAN_EVENT_TX_FAIL))).

Definition nu_canfd_ie : DM unit :=
  let! s := get in
  let f := int_flag s in
  let rx := tst f RT_DEVICE_FLAG_INT_RX in
  let tx := tst f RT_DEVICE_FLAG_INT_TX in
  let ie := CANFD_IE_BOE_Msk in
  let ie := if rx then Z.lor ie (Z.lor CANFD_IE_RF0NE_Msk CANFD_IE_RF1NE_Msk) else ie in
  let ie := if tx then Z.lor ie (Z.lor CANFD_IE_TCE_Msk CANFD_IE_TEFNE_Msk) else ie in
  let ie := if tst f RT_DEVICE_CAN_INT_ERR then
              Z.lor ie (Z.lor (Z.lor (Z.lor (Z.lor CANFD_IE_EPE_Msk CANFD_IE_EWE_Msk)
                                            CANFD_IE_ELOE_Msk) CANFD_IE_TOOE_Msk) CANFD_IR_PED_Msk)
            else ie in
  on_hw (CANFD_EnableInt E ie 0 (if tx then CANFD_TXBTIE_TIEn_Msk else 0)
           (if tx then CANFD_TXBCIE_CFIEn_Msk else 0)).

(** ** Configuration *)

(** [cfg] is null or the configuration; [can] is the device. *)
Definition nu_canfd_configure (cfg : option can_configure) : DM Z :=
  let! cfg := match cfg with Some c => ret c | None => fail_assert end in
  let! s := get in
  let '(used, conf) :=
    CANFD_GetDefaultConfig (set_elems (default_elems 1) (sCANFD_Config s)) CANFD_OP_CAN_MODE in
  modify (set_fd_config conf) ;;
  rt_assert (used <=? u32MRamSize conf) ;;
  let conf := set_rates (baud_rate cfg) 0 conf in
  modify (set_fd_config conf) ;;
  let mode := if can_mode cfg =? RT_CAN_MODE_NORMAL then Some eCANFD_NORMAL
              else if can_mode cfg =? RT_CAN_MODE_LISTEN then Some eCANFD_BUS_MONITOR
              else if can_mode cfg =? RT_CAN_MODE_LOOPBACK then Some eCANFD_LOOPBACK_INTERNAL
              else None in
  match mode with
  | None =>
      on_hw (CANFD_Close (can_n s)) ;;
      ret (- RT_ERROR)
  | Some m =>
      let! conf := on_hw (CANFD_Open E (can_n s) (set_mode m conf)) in
      modify (set_fd_config conf) ;;
      on_hw (CANFD_SetGFC E eCANFD_ACC_NON_MATCH_FRM_RX_FIFO0
               eCANFD_ACC_NON_MATCH_FRM_RX_FIFO0 0 0) ;;
      nu_canfd_ie ;;
      on_hw (CANFD_RunToNormal E true) ;;
      ret RT_EOK
  end.

Definition set_baud_rate (v : Z) (c : can_configure) : can_configure :=
  mkCanConfigure v (can_mode c) (privmode c).
Definition set_can_mode (v : Z) (c : can_configure) : can_configure :=
  mkCanConfigure (baud_rate c) (u8 v) (privmode c).
Definition set_privmode (v : Z) (c : can_configure) : can_configure :=
  mkCanConfigure (baud_rate c) (can_mode c) (u8 v).

Definition supported_bauds : list Z :=
  [CAN1MBaud; CAN800kBaud; CAN500kBaud; CAN250kBaud; CAN125kBaud; CAN100kBaud; CAN50kBaud;
   CAN20kBaud; CAN10kBaud].
Definition supported_modes : list Z :=
  [RT_CAN_MODE_NORMAL; RT_CAN_MODE_LISTEN; RT_CAN_MODE_LOOPBACK; RT_CAN_MODE_LOOPBACKANLISTEN].

(** [nu_canfd_configure(can, &can->config)] *)
Definition reconfigure : DM Z :=
  let! s := get in nu_canfd_configure (Some (can_config s)).

(** The result and, for [RT_CAN_CMD_GET_STATUS], the status copied to [arg]. *)
Definition nu_canfd_control (cmd arg : Z) : DM (Z * option rt_can_status) :=
  let! s := get in
  let plain (m : DM Z) : DM (Z * option rt_can_status) := let! r := m in ret (r, None) in
  if cmd =? RT_DEVICE_CTRL_SET_INT then
    modify (set_int_flag (Z.lor (int_flag s) arg)) ;; plain reconfigure
  else if cmd =? RT_DEVICE_CTRL_CLR_INT then
    modify (set_int_flag (Z.land (int_flag s) (not32 arg))) ;; plain reconfigure
  else if cmd =? RT_CAN_CMD_SET_MODE then
    if bool_decide (arg ∈ supported_modes) then
      if negb (arg =? can_mode (can_config s)) then
        modify (set_can_config (set_can_mode arg (can_config s))) ;; plain reconfigure
      else ret (RT_EOK, None)
    else ret (- RT_ERROR, None)
  else if cmd =? RT_CAN_CMD_SET_BAUD then
    if bool_decide (arg ∈ supported_bauds) then
      if negb (arg =? baud_rate (can_config s)) then
        modify (set_can_config (set_baud_rate arg (can_config s))) ;; plain reconfigure
      else ret (RT_EOK, None)
    else ret (- RT_ERROR, None)
  else if cmd =? RT_CAN_CMD_SET_PRIV then
    if negb (arg =? RT_CAN_MODE_PRIV) && negb (arg =? RT_CAN_MODE_NOPRIV) then
      ret (- RT_ERROR, None)
    else if negb (arg =? privmode (can_config s)) then
      modify (set_can_config (set_privmode arg (can_config s))) ;; plain reconfigure
    else ret (RT_EOK, None)
  else if cmd =? RT_CAN_CMD_GET_STATUS then
    let! u32ErrCounter := on_hw (rd ECR) in
    let! u32ProtocolStatus := on_hw (rd PSR) in
    rt_assert (negb (arg =? 0)) ;;
    let st := mkCanStatus
      (Z.shiftr (Z.land u32ErrCounter CANFD_ECR_REC_Msk) CANFD_ECR_REC_Pos)
      (Z.shiftr (Z.land u32ErrCounter CANFD_ECR_TEC_Msk) CANFD_ECR_TEC_Pos)
      (if tst u32ProtocolStatus CANFD_PSR_EW_Msk then 1
       else if tst u32ProtocolStatus CANFD_PSR_EP_Msk then 2
       else if tst u32ProtocolStatus CANFD_PSR_BO_Msk then 3 else 0)
      (Z.shiftr (Z.land u32ProtocolStatus CANFD_PSR_LEC_Msk) CANFD_PSR_LEC_Pos) in
    modify (set_can_status st) ;;
    ret (RT_EOK, Some st)
  else ret (- RT_EINVAL, None).

(** ** Messages *)

(** The eight bytes of [data]; copying more reads or writes past the array. *)
Definition msg_bytes (len : Z) (data : list Z) : option (list Z) :=
  if len <=? Z.of_nat (length data) then Some (take (Z.to_nat len) data) else None.

Definition tx_of_msg (pmsg : rt_can_msg) : option CANFD_TX_BUF_T :=
  let id := if msg_ide pmsg =? 0 then CANFD_SET_SID (msg_id pmsg) else msg_id pmsg in
  let build dlc db := mkTxBuf id (msg_rtr pmsg) (msg_ide pmsg) 0 0 dlc 0 0 0 0 db in
  if 0 <? msg_len pmsg then
    bs ← msg_bytes (msg_len pmsg) (msg_data pmsg);
    Some (build (CANFD_EncodeDLC (msg_len pmsg)) (bs ++ replicate (64 - length bs) 0))
  else Some (build 0 (replicate 64 0)).

Definition nu_canfd_sendmsg (buf : option rt_can_msg) (boxno : Z) : DM Z :=
  let! pmsg := match buf with Some b => ret b | None => fail_assert end in
  let! b := deref (tx_of_msg pmsg) in
  let! ' (p, _) := on_hw (CANFD_Transfer E eCANFD_MSG_DTB (Some (tx_bytes b)) boxno) in
  ret (match p with None => - RT_ERROR | Some _ => RT_EOK end).

(** The message of a received element, stored over [pmsg]. *)
Definition msg_of_rx (b : CANFD_RX_BUF_T) (pmsg : rt_can_msg) : option rt_can_msg :=
  let ide := if nonzero (rx_XTD b) then RT_CAN_EXTID else RT_CAN_STDID in
  let id := if ide =? RT_CAN_EXTID then rx_ID b else CANFD_GET_SID (rx_ID b) in
  let rtr := if nonzero (rx_RTR b) then RT_CAN_RTR else RT_CAN_DTR in
  let len := CANFD_DecodeDLC (rx_DLC b) in
  bs ← (if len <=? Z.of_nat (length (msg_data pmsg)) then Some (take (Z.to_nat len) (rx_DB b))
        else None);
  Some (mkCanMsg id ide rtr (msg_rsv pmsg) len (msg_priv pmsg) (msg_hdr_index pmsg)
          (msg_rxfifo pmsg) (msg_reserved pmsg) (bs ++ drop (length bs) (msg_data pmsg))).

(** The result and the buffer afterwards. *)
Definition nu_canfd_recvmsg (buf : option rt_can_msg) (boxno : Z) : DM (Z * rt_can_msg) :=
  let! pmsg := match buf with Some b => ret b | None => fail_assert end in
  let! ' (p, got) := on_hw (CANFD_Transfer E eCANFD_MSG_RF0 (Some []) 0) in
  match p, got with
  | Some _, Some bs =>
      let! m := deref (msg_of_rx (rx_of_bytes bs) pmsg) in ret (RT_EOK, m)
  | _, _ => ret (- RT_ERROR, pmsg)
  end.

(** ** Initialisation *)

Definition nu_canfd_default_config : can_configure :=
  mkCanConfigure CAN1MBaud RT_CAN_MODE_NORMAL 0.

End device.

(** The devices in turn; [reg] is what [rt_hw_can_register] answers for each. *)
Fixpoint rt_hw_canfd_init (reg : Z -> Z) (ret_ : Z) (devs : list nu_canfd)
  : outcome (Z * list nu_canfd) :=
  match devs with
  | [] => Ret (ret_, [])
  | d :: devs' =>
      let n := can_n d in
      if reg n =? RT_EOK then
        let d := emit_can (CanRegister n) (set_can_config nu_canfd_default_config d) in
        let d := emit_can (InstallIsr n 1) (emit_can (InstallIsr n 0) d) in
        let d := emit_can (UnmaskIrq n 1) (emit_can (UnmaskIrq n 0) d) in
        match rt_hw_canfd_init reg (reg n) devs' with
        | Ret (r, ds) => Ret (r, d :: ds)
        | AssertFail => AssertFail
        | Undef => Undef
        | OutOfFuel => OutOfFuel
        end
      else AssertFail
  end.

(** [nu_canfd_arr], zero apart from the base addresses. *)
Definition nu_canfd_arr (hw : Z -> canfd_hw) : list nu_canfd :=
  (fun n => mkNuCanfd n (hw n) (mkCanConfigure 0 0 0) (mkCanStatus 0 0 0 0) 0 zero_fd [])
    <$> [0; 1; 2; 3].
