(* ===== verification/CanFdFifo.v ===== *)
(** * The receive FIFOs of the CAN FD controller as queues

    A receive FIFO is a ring of elements in the message RAM that the controller fills and
    [CANFD_Transfer] empties.  The invariant [fifo_ok] says when registers and RAM make
    such a ring, [fifo_queue] what it holds, and a run of arrivals and fetches in any
    order gives what the same run on a bounded queue gives. *)

From Stdlib Require Import ZArith Lia Bool.
From stdpp Require Import base tactics numbers list option.
From S2P Require Import Prelude CanFdHw CanFdTiming CanFd.

Open Scope Z_scope.

(** ** The status register *)

Lemma fifo_status_fields fl gi pi full lost :
  0 <= fl < 128 -> 0 <= gi < 64 -> 0 <= pi < 64 ->
  fifo_fill (fifo_status fl gi pi full lost) = fl /\
  fifo_get (fifo_status fl gi pi full lost) = gi /\
  fifo_put (fifo_status fl gi pi full lost) = pi.
Proof.
  intros Hf Hg Hp. unfold fifo_fill, fifo_get, fifo_put, fifo_status, field_get.
  rewrite !Z.land_ones, !Z.shiftr_div_pow2, !Z.shiftl_mul_pow2 by lia.
  change (bit 24) with (2 ^ 24). change (bit 25) with (2 ^ 25).
  destruct full, lost; Z.div_mod_to_equations; lia.
Qed.

(** Bits above the fields do not matter to them. *)
Lemma field_get_below x y n pos :
  0 <= n -> 0 <= pos -> (forall i, 0 <= i < pos + n -> Z.testbit x i = Z.testbit y i) ->
  field_get x n pos = field_get y n pos.
Proof.
  intros Hn Hp H. unfold field_get. apply Z.bits_inj'. intros i Hi.
  rewrite !Z.land_spec, !Z.shiftr_spec, testbit_ones by lia.
  destruct (Z.ltb_spec i n); [|by rewrite !andb_false_r]. by rewrite H by lia.
Qed.

Lemma fifo_lost_fields s s' :
  (forall i, 0 <= i < 25 -> Z.testbit s' i = Z.testbit s i) ->
  fifo_fill s' = fifo_fill s /\ fifo_get s' = fifo_get s /\ fifo_put s' = fifo_put s.
Proof.
  intros H. unfold fifo_fill, fifo_get, fifo_put.
  split_and!; apply field_get_below; try lia; intros i Hi; apply H; lia.
Qed.

Lemma w1c_below s i : 0 <= i < 25 -> Z.testbit (w1c s (bit 25)) i = Z.testbit s i.
Proof.
  intros Hi. unfold w1c. rewrite Z.land_spec, testbit_not32, testbit_bit by lia.
  destruct (Z.ltb_spec i 32), (Z.eqb_spec i 25); try lia. apply andb_true_r.
Qed.

Lemma set_lost_below s i : 0 <= i < 25 -> Z.testbit (Z.lor s (bit 25)) i = Z.testbit s i.
Proof.
  intros Hi. rewrite Z.lor_spec, testbit_bit by lia.
  destruct (Z.eqb_spec i 25); [lia|]. apply orb_false_r.
Qed.

Lemma fifo_bounds s : 0 <= fifo_fill s < 128 /\ 0 <= fifo_get s < 64 /\ 0 <= fifo_put s < 64.
Proof.
  unfold fifo_fill, fifo_get, fifo_put, field_get. rewrite !Z.land_ones by lia.
  split_and!; apply Z.mod_pos_bound; lia.
Qed.

(** ** The ring *)

Definition rc_of (n : Z) : CANFD_T := if n =? 0 then RXF0C else RXF1C.
Definition rs_of (n : Z) : CANFD_T := if n =? 0 then RXF0S else RXF1S.

(** Status, size and start address of FIFO [n]. *)
Definition st (n : Z) (h : canfd_hw) : Z := cf_regs h (rs_of n).
Definition size (n : Z) (h : canfd_hw) : Z := fifo_size (cf_regs h (rc_of n)) 64.
Definition start (n : Z) (h : canfd_hw) : Z := Z.land (cf_regs h (rc_of n)) CANFD_RXF0C_F0SA_Msk.

Record fifo_ok (n : Z) (h : canfd_hw) : Prop := {
  ok_size : 0 < size n h;
  ok_start : 0 <= start n h;
  ok_get : fifo_get (st n h) < size n h;
  ok_fill : fifo_fill (st n h) <= size n h;
  ok_put : fifo_put (st n h) = (fifo_get (st n h) + fifo_fill (st n h)) mod size n h;
  ok_ram : start n h + size n h * 72 <= Z.of_nat (length (cf_ram h))
}.

(** The slot of the [i]-th element from the head. *)
Definition slot (n : Z) (h : canfd_hw) (i : Z) : Z :=
  start n h + (fifo_get (st n h) + i) mod size n h * 72.

Definition element (n : Z) (h : canfd_hw) (i : Z) : list Z :=
  default [] (ram_get (cf_ram h) (slot n h i) 72).

Definition fifo_queue (n : Z) (h : canfd_hw) : list (list Z) :=
  element n h <$> seqZ 0 (fifo_fill (st n h)).

Lemma size_le n h : size n h <= 64.
Proof. unfold size, fifo_size. lia. Qed.

Lemma length_queue n h : Z.of_nat (length (fifo_queue n h)) = fifo_fill (st n h).
Proof.
  unfold fifo_queue. rewrite length_fmap, length_seqZ.
  pose proof (fifo_bounds (st n h)). lia.
Qed.

Lemma slot_range n h i :
  fifo_ok n h -> start n h <= slot n h i /\ slot n h i + 72 <= Z.of_nat (length (cf_ram h)).
Proof.
  intros [Hs _ _ _ _ Hr]. unfold slot.
  pose proof (Z.mod_pos_bound (fifo_get (st n h) + i) (size n h) Hs). nia.
Qed.

Lemma slot_disjoint n h i j :
  fifo_ok n h -> 0 <= i < j -> j < i + size n h ->
  slot n h i + 72 <= slot n h j \/ slot n h j + 72 <= slot n h i.
Proof.
  intros [Hs _ _ _ _ _] Hij Hlt. unfold slot. set (g := fifo_get (st n h)).
  set (z := size n h) in *.
  pose proof (Z.mod_pos_bound (g + i) z Hs). pose proof (Z.mod_pos_bound (g + j) z Hs).
  assert ((g + i) mod z <> (g + j) mod z); [|nia].
  intros He. assert (Hm : (j - i) mod z = 0).
  { replace (j - i) with ((g + j) - (g + i)) by lia. rewrite Zminus_mod, He, Z.sub_diag.
    apply Z.mod_0_l. lia. }
  rewrite Z.mod_small in Hm by lia. lia.
Qed.

Lemma element_Some n h i :
  fifo_ok n h -> ram_get (cf_ram h) (slot n h i) 72 = Some (element n h i).
Proof.
  intros Hok. pose proof (slot_range n h i Hok). pose proof (ok_start _ _ Hok).
  unfold element. rewrite ram_get_Some by lia. done.
Qed.

(** ** The head is taken, a tail is added *)

Lemma slot_shift n h h' i :
  fifo_ok n h -> cf_regs h' (rc_of n) = cf_regs h (rc_of n) ->
  fifo_get (st n h') = (fifo_get (st n h) + 1) mod size n h ->
  slot n h' i = slot n h (i + 1).
Proof.
  intros [Hs _ _ _ _ _] Hc Hg. unfold slot, start, size in *. rewrite Hc, Hg.
  f_equal. f_equal. rewrite Zplus_mod_idemp_l. f_equal. lia.
Qed.

Lemma queue_tail n h h' :
  fifo_ok n h -> 0 < fifo_fill (st n h) ->
  cf_regs h' (rc_of n) = cf_regs h (rc_of n) -> cf_ram h' = cf_ram h ->
  fifo_fill (st n h') = fifo_fill (st n h) - 1 ->
  fifo_get (st n h') = (fifo_get (st n h) + 1) mod size n h ->
  fifo_put (st n h') = fifo_put (st n h) ->
  fifo_ok n h' /\ fifo_queue n h = element n h 0 :: fifo_queue n h'.
Proof.
  intros Hok Hpos Hc Hram Hf Hg Hp. pose proof Hok as [Hs Hst Hget Hfill Hput Hr].
  assert (Hsz : size n h' = size n h) by (unfold size; by rewrite Hc).
  assert (Hss : start n h' = start n h) by (unfold start; by rewrite Hc).
  split.
  - constructor; rewrite ?Hsz, ?Hss, ?Hf, ?Hg, ?Hp, ?Hram; try lia.
    + apply Z.mod_pos_bound. lia.
    + rewrite Hput, Zplus_mod_idemp_l. f_equal. lia.
  - unfold fifo_queue. rewrite Hf.
    rewrite (seqZ_cons 0 (fifo_fill (st n h))) by lia. cbn [fmap list_fmap]. f_equal.
    replace (Z.succ 0) with (1 + 0) by lia.
    replace (Z.pred (fifo_fill (st n h))) with (fifo_fill (st n h) - 1) by lia.
    rewrite <-(fmap_add_seqZ 1 0), <-list_fmap_compose. apply list_fmap_ext.
    intros k x Hx. unfold compose, element. rewrite (slot_shift n h h') by done.
    rewrite Hram. do 3 f_equal. lia.
Qed.

Lemma queue_snoc n h h' elem :
  fifo_ok n h -> fifo_fill (st n h) < size n h -> length elem = 72%nat ->
  cf_regs h' (rc_of n) = cf_regs h (rc_of n) ->
  ram_put (cf_ram h) (start n h + fifo_put (st n h) * 72) elem = Some (cf_ram h') ->
  fifo_fill (st n h') = fifo_fill (st n h) + 1 ->
  fifo_get (st n h') = fifo_get (st n h) ->
  fifo_put (st n h') = (fifo_put (st n h) + 1) mod size n h ->
  fifo_ok n h' /\ fifo_queue n h' = fifo_queue n h ++ [elem].
Proof.
  intros Hok Hlt Hlen Hc Hram Hf Hg Hp. pose proof Hok as [Hs Hst Hget Hfill Hput Hr].
  pose proof (fifo_bounds (st n h)) as [Hb _].
  assert (Hsz : size n h' = size n h) by (unfold size; by rewrite Hc).
  assert (Hss : start n h' = start n h) by (unfold start; by rewrite Hc).
  assert (Hslot : forall i, slot n h' i = slot n h i).
  { intros i. unfold slot. by rewrite Hsz, Hss, Hg. }
  assert (Hput' : start n h + fifo_put (st n h) * 72 = slot n h (fifo_fill (st n h))).
  { unfold slot. by rewrite Hput. }
  rewrite Hput' in Hram. split.
  - constructor; rewrite ?Hsz, ?Hss, ?Hf, ?Hg, ?Hp; try lia.
    + rewrite Hput, Zplus_mod_idemp_l. f_equal. lia.
    + rewrite (ram_put_length _ _ _ _ Hram). lia.
  - unfold fifo_queue. rewrite Hf, seqZ_app by lia. rewrite fmap_app. f_equal.
    + apply list_fmap_ext. intros k i Hi%list_elem_of_lookup_2%elem_of_seqZ.
      unfold element. rewrite Hslot, (ram_get_put_ne _ _ _ _ _ _ Hram); [done|].
      rewrite Hlen. apply slot_disjoint; (done || lia).
    + rewrite Z.add_0_l. cbn [seqZ]. change (seqZ (fifo_fill (st n h)) 1) with [0 + fifo_fill (st n h)].
      cbn [fmap list_fmap]. unfold element. rewrite Hslot, Z.add_0_l.
      by rewrite (ram_get_put_eq _ _ _ _ _ Hram) by lia.
Qed.

(** ** A frame arrives *)

Lemma rx_store_run n elem h :
  fifo_ok n h -> n = 0 \/ n = 1 -> length elem = 72%nat ->
  exists h', rx_store n elem h = Some h' /\ fifo_ok n h' /\ size n h' = size n h /\
    fifo_queue n h' = if fifo_fill (st n h) <? size n h then fifo_queue n h ++ [elem]
                      else fifo_queue n h.
Proof.
  intros Hok Hn Hlen. pose proof Hok as [Hs Hst Hget Hfill Hput Hr].
  pose proof (size_le n h). pose proof (fifo_bounds (st n h)) as (Hb1 & Hb2 & Hb3).
  unfold rx_store. assert (Hregs : fifo_regs n = (rc_of n, rs_of n)).
  { by destruct Hn as [-> | ->]. }
  rewrite Hregs. fold (size n h) (st n h) (start n h).
  assert (Hne : rc_of n <> IR /\ rs_of n <> rc_of n).
  { unfold rc_of, rs_of. by destruct (n =? 0). }
  destruct Hne as [Hne1 Hne2].
  destruct (Z.ltb_spec (fifo_fill (st n h)) (size n h)) as [Hlt|Hge].
  - set (s' := fifo_status _ _ _ _ _).
    assert (Hpb : 0 <= fifo_put (st n h) < size n h).
    { rewrite Hput. by apply Z.mod_pos_bound. }
    rewrite ram_put_Some by (rewrite ?Hlen; nia). cbn [mbind option_bind].
    eexists. split; [reflexivity|].
    match goal with |- fifo_ok n ?h2 /\ _ => set (h' := h2) end.
    destruct (fifo_status_fields (fifo_fill (st n h) + 1) (fifo_get (st n h))
                ((fifo_put (st n h) + 1) mod size n h)
                (fifo_fill (st n h) + 1 =? size n h) (Z.testbit (st n h) 25))
      as (F1 & F2 & F3); [lia|lia|pose proof (Z.mod_pos_bound (fifo_put (st n h) + 1) (size n h) Hs); lia|].
    assert (Hst' : st n h' = s') by (unfold st, h'; cbn; apply reg_upd_eq).
    assert (Hc' : cf_regs h' (rc_of n) = cf_regs h (rc_of n)).
    { unfold h'. cbn. by rewrite !reg_upd_ne by congruence. }
    destruct (queue_snoc n h h' elem) as [Hok' Hq];
      [done|lia|done|done| |by rewrite Hst'..|].
    { rewrite ram_put_Some by (rewrite ?Hlen; nia). reflexivity. }
    split; [done|]. split; [unfold size; by rewrite Hc'|done].
  - eexists. split; [reflexivity|].
    match goal with |- fifo_ok n ?h2 /\ _ => set (h' := h2) end.
    assert (Hst' : st n h' = Z.lor (st n h) (bit 25)) by (unfold st, h'; cbn; apply reg_upd_eq).
    assert (Hc' : cf_regs h' (rc_of n) = cf_regs h (rc_of n)).
    { unfold h'. cbn. by rewrite !reg_upd_ne by congruence. }
    destruct (fifo_lost_fields (st n h) (st n h')) as (F1 & F2 & F3).
    { rewrite Hst'. intros i. apply set_lost_below. }
    assert (Hsz : size n h' = size n h) by (unfold size; by rewrite Hc').
    assert (Hss : start n h' = start n h) by (unfold start; by rewrite Hc').
    split; [constructor; rewrite ?F1, ?F2, ?F3, ?Hsz, ?Hss; done|]. split; [done|].
    unfold fifo_queue. rewrite F1. apply list_fmap_ext. intros k i _.
    unfold element, slot. by rewrite Hss, Hsz, F2.
Qed.

(** ** A message is fetched *)

Definition ra_of (n : Z) : CANFD_T := if n =? 0 then RXF0A else RXF1A.
Definition lost_of (n : Z) : Z := if n =? 0 then CANFD_IR_RF0L_Msk else CANFD_IR_RF1L_Msk.

(** The message type of FIFO [n]. *)
Definition msg_of (n : Z) : E_CANFD_MSG := if n =? 0 then eCANFD_MSG_RF0 else eCANFD_MSG_RF1.

Lemma read_status n h : n = 0 \/ n = 1 -> rd (rs_of n) h = Ret (st n h, h).
Proof. by intros [-> | ->]. Qed.
Lemma read_config n h : n = 0 \/ n = 1 -> rd (rc_of n) h = Ret (cf_regs h (rc_of n), h).
Proof. by intros [-> | ->]. Qed.

Lemma fill_field s : Z.land s CANFD_RXF0S_F0FL_Msk = fifo_fill s.
Proof. unfold fifo_fill, field_get. by rewrite Z.shiftr_0_r. Qed.

Lemma get_field s : u8 (Z.shiftr (Z.land s CANFD_RXF0S_F0GI_Msk) CANFD_RXF0S_F0GI_Pos) = fifo_get s.
Proof.
  assert (H : Z.shiftr (Z.land s CANFD_RXF0S_F0GI_Msk) CANFD_RXF0S_F0GI_Pos = fifo_get s).
  { unfold fifo_get, field_get. rewrite Z.shiftr_land. done. }
  rewrite H. apply u8_small. unfold is_u8. pose proof (fifo_bounds s). lia.
Qed.

(** The state after the acknowledge register got the index of the head. *)
Lemma ack_run E n h :
  fifo_ok n h -> 0 < fifo_fill (st n h) -> n = 0 \/ n = 1 ->
  exists h1, wr E (ra_of n) (fifo_get (st n h)) h = Ret (tt, h1) /\
    cf_ram h1 = cf_ram h /\ cf_regs h1 (rc_of n) = cf_regs h (rc_of n) /\
    fifo_fill (st n h1) = fifo_fill (st n h) - 1 /\
    fifo_get (st n h1) = (fifo_get (st n h) + 1) mod size n h /\
    fifo_put (st n h1) = fifo_put (st n h).
Proof.
  intros [Hs _ Hget Hfill _ _] Hpos Hn. pose proof (fifo_bounds (st n h)) as (Hb1 & Hb2 & Hb3).
  pose proof (size_le n h).
  set (f := cf_regs h). set (g := fifo_get (st n h)) in *.
  assert (Hwr : exists h1, wr E (ra_of n) g h = Ret (tt, h1) /\ cf_ram h1 = cf_ram h /\
            cf_regs h1 (rc_of n) = f (rc_of n) /\ st n h1 = fifo_ack (st n h) (size n h) (field_get g 6 0)).
  { destruct Hn as [-> | ->]; eexists; split; reflexivity || (split; [reflexivity|]; split; reflexivity). }
  destruct Hwr as (h1 & Hw & Hram & Hc & Hst). exists h1. split; [done|]. split; [done|].
  split; [done|].
  assert (Hg6 : field_get g 6 0 = g).
  { unfold field_get. rewrite Z.shiftr_0_r, Z.land_ones by lia. by apply Z.mod_small. }
  rewrite Hst, Hg6. unfold fifo_ack. destruct (Z.eqb_spec (size n h) 0); [lia|].
  fold g. rewrite Z.sub_diag, Z.mod_0_l, Z.add_0_l by lia.
  pose proof (Z.mod_pos_bound (g + 1) (size n h) Hs).
  apply fifo_status_fields; lia.
Qed.

(** Clearing the lost flag in IR. *)
Lemma clear_lost_run E n h :
  n = 0 \/ n = 1 ->
  exists h1, when_ (tst (st n h) CANFD_RXF0S_RF0L_Msk) (wr E IR (lost_of n)) h = Ret (tt, h1) /\
    cf_ram h1 = cf_ram h /\ cf_regs h1 (rc_of n) = cf_regs h (rc_of n) /\
    fifo_fill (st n h1) = fifo_fill (st n h) /\ fifo_get (st n h1) = fifo_get (st n h) /\
    fifo_put (st n h1) = fifo_put (st n h).
Proof.
  intros Hn. unfold when_. destruct (tst (st n h) CANFD_RXF0S_RF0L_Msk); [|by exists h].
  assert (Hwr : exists h1, wr E IR (lost_of n) h = Ret (tt, h1) /\ cf_ram h1 = cf_ram h /\
            cf_regs h1 (rc_of n) = cf_regs h (rc_of n) /\ st n h1 = w1c (st n h) (bit 25)).
  { destruct Hn as [-> | ->]; eexists; split; reflexivity || (split; [reflexivity|]; split; reflexivity). }
  destruct Hwr as (h1 & Hw & Hram & Hc & Hst). exists h1. split; [done|]. split; [done|].
  split; [done|]. apply fifo_lost_fields. rewrite Hst. apply w1c_below.
Qed.

Lemma fetch_run E n u idx h :
  fifo_ok n h -> n = 0 \/ n = 1 ->
  if fifo_fill (st n h) =? 0
  then CANFD_Transfer E (msg_of n) (Some u) idx h = Ret ((None, None), h)
  else exists h', CANFD_Transfer E (msg_of n) (Some u) idx h
         = Ret ((Some (slot n h 0), Some (element n h 0)), h') /\
       fifo_ok n h' /\ size n h' = size n h /\ fifo_queue n h = element n h 0 :: fifo_queue n h'.
Proof.
  intros Hok Hn. pose proof (fifo_bounds (st n h)) as (Hb1 & Hb2 & Hb3).
  assert (Hm : CANFD_Transfer E (msg_of n) (Some u) idx
             = transfer_rx_fifo E (rs_of n) (rc_of n) (ra_of n) (lost_of n) (Some u)).
  { by destruct Hn as [-> | ->]. }
  rewrite Hm. unfold transfer_rx_fifo.
  rewrite (bind_Ret _ _ _ _ _ (read_status n h Hn)). cbv beta. rewrite fill_field.
  destruct (Z.eqb_spec (fifo_fill (st n h)) 0) as [Hz|Hz].
  { rewrite Hz. done. }
  destruct (Z.ltb_spec 0 (fifo_fill (st n h))) as [Hpos|]; [|lia].
  rewrite (bind_Ret _ _ _ _ _ (read_status n h Hn)). cbv beta zeta. rewrite get_field.
  rewrite (bind_Ret _ _ _ _ _ (read_config n h Hn)).
  assert (Haddr : element_addr (cf_regs h (rc_of n)) CANFD_RXF0C_F0SA_Msk (fifo_get (st n h)) sizeof_RX
                  = slot n h 0).
  { unfold element_addr, slot, start, sizeof_RX. pose proof (ok_get _ _ Hok).
    rewrite u32_small by (unfold is_u32; lia). by rewrite Z.add_0_r, Z.mod_small by lia. }
  cbv beta zeta. rewrite Haddr. unfold sizeof_RX.
  rewrite (bind_Ret _ _ _ (Some (element n h 0)) h) by
    (unfold ram_read; rewrite bind_assoc, bind_get, (bind_deref _ _ _ _ (element_Some n h 0 Hok)); done).
  destruct (ack_run E n h Hok Hpos Hn) as (h1 & Hw & Hr1 & Hc1 & Hf1 & Hg1 & Hp1).
  rewrite (bind_Ret _ _ _ _ _ Hw), (bind_Ret _ _ _ _ _ (read_status n h1 Hn)).
  destruct (clear_lost_run E n h1 Hn) as (h2 & Hw2 & Hr2 & Hc2 & Hf2 & Hg2 & Hp2).
  rewrite (bind_Ret _ _ _ _ _ Hw2). exists h2. split; [done|].
  destruct (queue_tail n h h2) as [Hok2 Hq]; try done; try congruence.
  split; [done|]. split; [|done]. unfold size. congruence.
Qed.

(** ** Arrivals and fetches in any order *)

Inductive fifo_op : Type := Arrive (elem : list Z) | Fetch.

(** On a queue of at most [z] elements: what a fetch gives, and the queue. *)
Definition queue_step (z : Z) (q : list (list Z)) (op : fifo_op)
  : option (list Z) * list (list Z) :=
  match op with
  | Arrive elem => (None, if Z.of_nat (length q) <? z then q ++ [elem] else q)
  | Fetch => match q with [] => (None, []) | x :: q' => (Some x, q') end
  end.

Fixpoint queue_run (z : Z) (q : list (list Z)) (ops : list fifo_op) : list (option (list Z)) :=
  match ops with
  | [] => []
  | op :: ops' => let '(o, q') := queue_step z q op in o :: queue_run z q' ops'
  end.

(** On the controller: an arrival is the controller's, a fetch the driver's. *)
Definition fifo_step (E : canfd_env) (n : Z) (op : fifo_op) : CM (option (list Z)) :=
  match op with
  | Arrive elem => fun h => match rx_store n elem h with Some h' => Ret (None, h') | None => Undef end
  | Fetch => let! r := CANFD_Transfer E (msg_of n) (Some []) 0 in ret r.2
  end.

Fixpoint fifo_run (E : canfd_env) (n : Z) (ops : list fifo_op) : CM (list (option (list Z))) :=
  match ops with
  | [] => ret []
  | op :: ops' =>
      let! o := fifo_step E n op in
      let! os := fifo_run E n ops' in
      ret (o :: os)
  end.

Definition op_ok (op : fifo_op) : Prop :=
  match op with Arrive elem => length elem = 72%nat | Fetch => True end.

Lemma fifo_step_refines E n op h :
  fifo_ok n h -> n = 0 \/ n = 1 -> op_ok op ->
  exists h', fifo_step E n op h = Ret ((queue_step (size n h) (fifo_queue n h) op).1, h') /\
    fifo_ok n h' /\ size n h' = size n h /\
    fifo_queue n h' = (queue_step (size n h) (fifo_queue n h) op).2.
Proof.
  intros Hok Hn Hop. destruct op as [elem|].
  - destruct (rx_store_run n elem h Hok Hn Hop) as (h' & Hr & Hok' & Hs & Hq).
    exists h'. cbn [fifo_step queue_step fst snd]. by rewrite Hr, length_queue.
  - pose proof (fetch_run E n [] 0 h Hok Hn) as Hf. cbn [fifo_step].
    destruct (Z.eqb_spec (fifo_fill (st n h)) 0) as [Hz|Hz].
    + exists h. assert (Hq : fifo_queue n h = []).
      { apply length_zero_iff_nil. pose proof (length_queue n h). lia. }
      rewrite (bind_Ret _ _ _ _ _ Hf), Hq. done.
    + destruct Hf as (h' & Hf & Hok' & Hs & Hq). exists h'.
      rewrite (bind_Ret _ _ _ _ _ Hf), Hq. done.
Qed.

(** C34: the receive FIFOs are bounded queues.  From a state where the FIFO is in order,
    any sequence of frames the controller stores and messages [CANFD_Transfer] fetches
    runs through, and the fetches give exactly what they give on a queue of the
    configured size: the frames in the order of arrival, none twice, the ones that came
    while the queue was full dropped, NULL when there is nothing.  The FIFO is in order
    again afterwards. *)
Theorem rx_fifo_refines_queue E n ops h :
  fifo_ok n h -> n = 0 \/ n = 1 -> Forall op_ok ops ->
  exists h', fifo_run E n ops h = Ret (queue_run (size n h) (fifo_queue n h) ops, h') /\
    fifo_ok n h'.
Proof.
  intros Hok Hn Hops. revert h Hok. induction Hops as [|op ops Hop _ IH]; intros h Hok.
  { by exists h. }
  destruct (fifo_step_refines E n op h Hok Hn Hop) as (h1 & Hr & Hok1 & Hs1 & Hq1).
  destruct (IH h1 Hok1) as (h2 & Hr2 & Hok2). exists h2. split; [|done].
  cbn [fifo_run queue_run]. rewrite (bind_Ret _ _ _ _ _ Hr), (bind_Ret _ _ _ _ _ Hr2).
  rewrite Hs1, Hq1. by destruct (queue_step (size n h) (fifo_queue n h) op).
Qed.

(** A FIFO of two elements at the start of the RAM. *)
Definition example_fifo : canfd_hw :=
  mkCanfd (reg_upd (fun _ => 0) RXF0C (Z.shiftl 2 16)) (replicate 200 0) false 0 true 0.

Lemma rx_fifo_refines_queue_witness :
  let e k := replicate 72 k in
  queue_run 2 [] [Arrive (e 1); Arrive (e 2); Arrive (e 3); Fetch; Arrive (e 4); Fetch; Fetch; Fetch]
    = [None; None; None; Some (e 1); None; Some (e 2); Some (e 4); None] /\
  exists h', fifo_run (mkCanfdEnv false 0 0 0 (fun _ => 0) 0 strict) 0
    [Arrive (e 1); Arrive (e 2); Arrive (e 3); Fetch; Arrive (e 4); Fetch; Fetch; Fetch] example_fifo
    = Ret (queue_run (size 0 example_fifo) (fifo_queue 0 example_fifo)
        [Arrive (e 1); Arrive (e 2); Arrive (e 3); Fetch; Arrive (e 4); Fetch; Fetch; Fetch], h').
Proof.
  split; [vm_compute; reflexivity|].
  destruct (rx_fifo_refines_queue (mkCanfdEnv false 0 0 0 (fun _ => 0) 0 strict) 0
    [Arrive (replicate 72 1); Arrive (replicate 72 2); Arrive (replicate 72 3); Fetch;
     Arrive (replicate 72 4); Fetch; Fetch; Fetch] example_fifo) as (h' & Hr & _).
  - constructor; vm_compute; (reflexivity || discriminate).
  - by left.
  - repeat constructor.
  - exists h'. exact Hr.
Defined.
