(* ===== verification/CanFdMsg.v ===== *)
(** * Messages through a CAN FD controller

    What [nu_canfd_sendmsg] puts into a transmit buffer, what [nu_canfd_recvmsg] makes of a
    received element, and the round trip of a message from one to the other. *)

From Stdlib Require Import ZArith Lia Bool.
From stdpp Require Import base tactics numbers list option.
From S2P Require Import Prelude BitUtil CanFdHw CanFdTiming CanFd CanFdFifo CanFdDrv.

Open Scope Z_scope.

(** ** Words and bit fields *)

Lemma bytes_word_bytes w : is_u32 w -> bytes_word (word_bytes w) = w.
Proof.
  unfold is_u32. intros Hw. cbn [bytes_word word_bytes].
  Z.div_mod_to_equations. lia.
Qed.

Lemma word_at_0 a bs : is_u32 a -> word_at (word_bytes a ++ bs) 0 = a.
Proof.
  intros Ha. transitivity (bytes_word (word_bytes a)); [done|]. by apply bytes_word_bytes.
Qed.

Lemma word_at_1 a b bs : is_u32 b -> word_at (word_bytes a ++ word_bytes b ++ bs) 1 = b.
Proof.
  intros Hb. transitivity (bytes_word (word_bytes b)); [done|]. by apply bytes_word_bytes.
Qed.

Lemma drop_words a b bs : drop 8 (word_bytes a ++ word_bytes b ++ bs) = bs.
Proof. done. Qed.

(** Field ranges. *)
Definition in_bits (x n : Z) : Prop := 0 <= x < 2 ^ n.

Record rx_wf (b : CANFD_RX_BUF_T) : Prop := {
  wf_ID : in_bits (rx_ID b) 29; wf_RTR : in_bits (rx_RTR b) 1; wf_XTD : in_bits (rx_XTD b) 1;
  wf_ESI : in_bits (rx_ESI b) 1; wf_RXTS : in_bits (rx_RXTS b) 16; wf_DLC : in_bits (rx_DLC b) 4;
  wf_BRS : in_bits (rx_BRS b) 1; wf_FDF : in_bits (rx_FDF b) 1; wf_FIDX : in_bits (rx_FIDX b) 7;
  wf_ANMF : in_bits (rx_ANMF b) 1; wf_DB : length (rx_DB b) = 64%nat
}.

Record tx_wf (b : CANFD_TX_BUF_T) : Prop := {
  tf_ID : in_bits (tx_ID b) 29; tf_RTR : in_bits (tx_RTR b) 1; tf_XTD : in_bits (tx_XTD b) 1;
  tf_ESI : in_bits (tx_ESI b) 1; tf_MM_H : in_bits (tx_MM_H b) 8; tf_DLC : in_bits (tx_DLC b) 4;
  tf_BRS : in_bits (tx_BRS b) 1; tf_FDF : in_bits (tx_FDF b) 1; tf_EFC : in_bits (tx_EFC b) 1;
  tf_MM_L : in_bits (tx_MM_L b) 8; tf_DB : length (tx_DB b) = 64%nat
}.

Ltac bits_at_solve := unfold bits_at; Z.div_mod_to_equations; lia.

Lemma rx_round_trip b : rx_wf b -> rx_of_bytes (rx_bytes b) = b.
Proof.
  destruct b as [id rtr xtd esi ts dlc brs fdf fidx anmf db].
  intros [H1 H2 H3 H4 H5 H6 H7 H8 H9 H10 _]. cbn in H1, H2, H3, H4, H5, H6, H7, H8, H9, H10.
  unfold in_bits in *.
  unfold rx_of_bytes, rx_bytes. cbn [rx_ID rx_RTR rx_XTD rx_ESI rx_RXTS rx_DLC rx_BRS rx_FDF rx_FIDX rx_ANMF rx_DB].
  rewrite word_at_0, word_at_1, drop_words by (unfold is_u32; lia).
  f_equal; bits_at_solve.
Qed.

Lemma tx_round_trip b : tx_wf b -> tx_of_bytes (tx_bytes b) = b.
Proof.
  destruct b as [id rtr xtd esi mh dlc brs fdf efc ml db].
  intros [H1 H2 H3 H4 H5 H6 H7 H8 H9 H10 _]. cbn in H1, H2, H3, H4, H5, H6, H7, H8, H9, H10.
  unfold in_bits in *.
  unfold tx_of_bytes, tx_bytes. cbn [tx_ID tx_RTR tx_XTD tx_ESI tx_MM_H tx_DLC tx_BRS tx_FDF tx_EFC tx_MM_L tx_DB].
  rewrite word_at_0, word_at_1, drop_words by (unfold is_u32; lia).
  f_equal; bits_at_solve.
Qed.

Lemma length_tx_bytes b : tx_wf b -> length (tx_bytes b) = 72%nat.
Proof. intros H. unfold tx_bytes. rewrite !length_app, (tf_DB _ H). done. Qed.
Lemma length_rx_bytes b : rx_wf b -> length (rx_bytes b) = 72%nat.
Proof. intros H. unfold rx_bytes. rewrite !length_app, (wf_DB _ H). done. Qed.

Lemma rx_of_bytes_wf bs : length bs = 72%nat -> rx_wf (rx_of_bytes bs).
Proof.
  intros Hl. constructor; cbn [rx_of_bytes rx_ID rx_RTR rx_XTD rx_ESI rx_RXTS rx_DLC rx_BRS rx_FDF
    rx_FIDX rx_ANMF rx_DB]; try (apply Z.mod_pos_bound; lia).
  rewrite length_drop. lia.
Qed.

(** ** Data length codes *)

Lemma encode_dlc_bounds n : 0 <= n -> 0 <= CANFD_EncodeDLC n <= 15.
Proof. intros Hn. unfold CANFD_EncodeDLC. repeat case_match; lia. Qed.

Lemma encode_dlc_small n : n <= 8 -> CANFD_EncodeDLC n = n /\ CANFD_DecodeDLC n = n.
Proof.
  intros Hn. unfold CANFD_EncodeDLC, CANFD_DecodeDLC. destruct (Z.leb_spec n 8); [done|lia].
Qed.

Lemma decode_dlc_large d : 8 < d -> 12 <= CANFD_DecodeDLC d.
Proof. intros Hd. unfold CANFD_DecodeDLC. repeat case_match; lia. Qed.

(** ** Sending *)

(** A classical CAN message. *)
Record msg_wf (m : rt_can_msg) : Prop := {
  mw_ide : msg_ide m = 0 \/ msg_ide m = 1;
  mw_rtr : msg_rtr m = 0 \/ msg_rtr m = 1;
  mw_id : 0 <= msg_id m < if msg_ide m =? 0 then 2 ^ 11 else 2 ^ 29;
  mw_len : 0 <= msg_len m <= 8;
  mw_data : length (msg_data m) = 8%nat
}.

(** The identifier as the elements hold it. *)
Definition wire_id (m : rt_can_msg) : Z :=
  if msg_ide m =? 0 then msg_id m * 2 ^ 18 else msg_id m.

Definition element_of (m : rt_can_msg) : CANFD_TX_BUF_T :=
  mkTxBuf (wire_id m) (msg_rtr m) (msg_ide m) 0 0 (msg_len m) 0 0 0 0
    (take (Z.to_nat (msg_len m)) (msg_data m) ++ replicate (64 - Z.to_nat (msg_len m)) 0).

Lemma set_sid id : 0 <= id < 2 ^ 11 -> CANFD_SET_SID id = id * 2 ^ 18.
Proof.
  intros H. unfold CANFD_SET_SID. change 0x7FF with (Z.ones 11).
  by rewrite Z.land_ones, Z.mod_small, Z.shiftl_mul_pow2 by lia.
Qed.

Lemma get_sid id : CANFD_GET_SID (id * 2 ^ 18) = id.
Proof.
  unfold CANFD_GET_SID. rewrite Z.shiftr_div_pow2 by lia. apply Z.div_mul. lia.
Qed.

Lemma tx_of_msg_wf m : msg_wf m -> tx_of_msg m = Some (element_of m).
Proof.
  intros [Hide Hrtr Hid Hlen Hd]. unfold tx_of_msg, element_of, wire_id.
  assert (Hw : (if msg_ide m =? 0 then CANFD_SET_SID (msg_id m) else msg_id m)
               = if msg_ide m =? 0 then msg_id m * 2 ^ 18 else msg_id m).
  { case_match; [by apply set_sid|done]. }
  rewrite Hw. destruct (Z.ltb_spec 0 (msg_len m)).
  - unfold msg_bytes. destruct (Z.leb_spec (msg_len m) (Z.of_nat (length (msg_data m)))); [|lia].
    cbn [mbind option_bind]. destruct (encode_dlc_small (msg_len m)) as [-> _]; [lia|].
    rewrite length_take. do 4 f_equal. lia.
  - by replace (msg_len m) with 0 by lia.
Qed.

Lemma element_of_wf m : msg_wf m -> tx_wf (element_of m).
Proof.
  intros [Hide Hrtr Hid Hlen Hd]. unfold element_of, wire_id.
  constructor; cbn [tx_ID tx_RTR tx_XTD tx_ESI tx_MM_H tx_DLC tx_BRS tx_FDF tx_EFC tx_MM_L tx_DB];
    unfold in_bits; try lia.
  - revert Hid. case_match; lia.
  - rewrite length_app, length_take, length_replicate. lia.
Qed.

(** Transmit buffer [boxno] is free and lies in the RAM. *)
Record tx_ready (h : canfd_hw) (boxno : Z) : Prop := {
  tr_box : 0 <= boxno < 31;
  tr_free : Z.testbit (cf_regs h TXBRP) boxno = false;
  tr_ram : CANFD_GET_TXBUF_ADDR (cf_regs h TXBC) boxno + 72 <= Z.of_nat (length (cf_ram h))
}.

(** A transfer into a ready buffer: the bytes, then the request. *)
Lemma transfer_tx_run E h boxno bs :
  tx_ready h boxno -> length bs = 72%nat ->
  exists h', CANFD_Transfer E eCANFD_MSG_DTB (Some bs) boxno h
      = Ret ((Some (CANFD_GET_TXBUF_ADDR (cf_regs h TXBC) boxno), None), h') /\
    ram_get (cf_ram h') (CANFD_GET_TXBUF_ADDR (cf_regs h TXBC) boxno) 72 = Some bs /\
    cf_regs h' TXBRP = Z.lor (cf_regs h TXBRP) (Z.land (bit boxno) (configured_tx (cf_regs h TXBC))).
Proof.
  intros [Hb Hf Hr] Hl. set (p := CANFD_GET_TXBUF_ADDR (cf_regs h TXBC) boxno) in *.
  assert (Hp : 0 <= p).
  { unfold p, CANFD_GET_TXBUF_ADDR, element_addr. pose proof (u32_range (boxno * sizeof_TX)) as [? _].
    assert (0 <= Z.land (cf_regs h TXBC) CANFD_TXBC_TBSA_Msk) by (apply Z.land_nonneg; by right). lia. }
  cbn [CANFD_Transfer]. unfold transfer_tx_buffer.
  destruct (Z.leb_spec CANFD_MAX_TX_BUF_ELEMS boxno) as [Hbad|_];
    [unfold CANFD_MAX_TX_BUF_ELEMS in Hbad; lia|].
  unfold rd at 1. rewrite bind_gets, tst_bit, Hf by lia.
  unfold rd at 1. rewrite bind_gets. cbv zeta. fold p.
  rewrite take_ge by lia.
  destruct (ram_put (cf_ram h) p bs) as [r|] eqn:Hput;
    [|rewrite ram_put_Some in Hput by lia; done].
  unfold ram_write. rewrite !bind_assoc, bind_get, bind_assoc.
  rewrite (bind_deref _ _ _ _ Hput), bind_modify.
  assert (Hshl : int_shl E 1 boxno = Some (bit boxno)).
  { unfold int_shl. cbn [Z.leb]. assert (Hlt : bit boxno < 2 ^ 31).
    { unfold bit. rewrite Z.shiftl_1_l. apply Z.pow_lt_mono_r; lia. }
    unfold bit in *. by destruct (Z.ltb_spec (Z.shiftl 1 boxno) (2 ^ 31)); [|lia]. }
  rewrite (bind_deref _ _ _ _ Hshl). unfold wr. rewrite bind_modify.
  eexists. split; [reflexivity|]. split.
  - cbn [cf_ram set_regs set_ram]. apply (ram_get_put_eq _ _ _ _ _ Hput). lia.
  - cbn [cf_regs set_regs set_ram reg_write]. rewrite reg_upd_eq, u32_small; [done|].
    apply bit_u32. lia.
Qed.

Lemma sendmsg_run E s boxno m :
  msg_wf m -> tx_ready (can_hw s) boxno ->
  exists s', nu_canfd_sendmsg E (Some m) boxno s = Ret (RT_EOK, s') /\
    ram_get (cf_ram (can_hw s')) (CANFD_GET_TXBUF_ADDR (cf_regs (can_hw s) TXBC) boxno) 72
      = Some (tx_bytes (element_of m)) /\
    cf_regs (can_hw s') TXBRP = Z.lor (cf_regs (can_hw s) TXBRP)
      (Z.land (bit boxno) (configured_tx (cf_regs (can_hw s) TXBC))).
Proof.
  intros Hm Ht. unfold nu_canfd_sendmsg. rewrite bind_ret_l.
  rewrite (bind_deref _ _ _ _ (tx_of_msg_wf m Hm)).
  destruct (transfer_tx_run E (can_hw s) boxno (tx_bytes (element_of m)) Ht) as (h' & Hr & Hg & Hp).
  { apply length_tx_bytes, element_of_wf, Hm. }
  exists (set_can_hw h' s). split; [|done].
  erewrite bind_Ret by (unfold on_hw; by rewrite Hr). done.
Qed.

(** ** Receiving *)

(** The message of an element, over the fields [pmsg] keeps. *)
Definition msg_received (b : CANFD_RX_BUF_T) (pmsg : rt_can_msg) : rt_can_msg :=
  let len := rx_DLC b in
  mkCanMsg (if rx_XTD b =? 1 then rx_ID b else CANFD_GET_SID (rx_ID b)) (rx_XTD b) (rx_RTR b)
    (msg_rsv pmsg) len (msg_priv pmsg) (msg_hdr_index pmsg) (msg_rxfifo pmsg) (msg_reserved pmsg)
    (take (Z.to_nat len) (rx_DB b) ++ drop (Z.to_nat len) (msg_data pmsg)).

Lemma msg_of_rx_run b pmsg :
  rx_wf b -> length (msg_data pmsg) = 8%nat ->
  msg_of_rx b pmsg = if rx_DLC b <=? 8 then Some (msg_received b pmsg) else None.
Proof.
  intros Hb Hd. unfold msg_of_rx, msg_received. rewrite Hd.
  pose proof (wf_XTD _ Hb) as Hx. pose proof (wf_RTR _ Hb) as Hr. pose proof (wf_DLC _ Hb) as Hdlc.
  pose proof (wf_DB _ Hb) as Hdb. unfold in_bits in *.
  assert (Hide : (if nonzero (rx_XTD b) then RT_CAN_EXTID else RT_CAN_STDID) = rx_XTD b).
  { assert (rx_XTD b = 0 \/ rx_XTD b = 1) as [-> | ->] by lia; done. }
  assert (Hrtr : (if nonzero (rx_RTR b) then RT_CAN_RTR else RT_CAN_DTR) = rx_RTR b).
  { assert (rx_RTR b = 0 \/ rx_RTR b = 1) as [-> | ->] by lia; done. }
  rewrite Hide, Hrtr. unfold RT_CAN_EXTID. destruct (Z.leb_spec (rx_DLC b) 8) as [Hle|Hgt].
  - destruct (encode_dlc_small (rx_DLC b) Hle) as [_ ->].
    destruct (Z.leb_spec (rx_DLC b) (Z.of_nat 8)); [|lia]. cbn [mbind option_bind].
    by replace (length (take (Z.to_nat (rx_DLC b)) (rx_DB b))) with (Z.to_nat (rx_DLC b))
      by (rewrite length_take; lia).
  - pose proof (decode_dlc_large _ Hgt).
    by destruct (Z.leb_spec (CANFD_DecodeDLC (rx_DLC b)) (Z.of_nat 8)); [lia|].
Qed.

Lemma element_length n h i : fifo_ok n h -> length (element n h i) = 72%nat.
Proof.
  intros Hok. pose proof (element_Some n h i Hok) as H. pose proof (slot_range n h i Hok).
  pose proof (ok_start _ _ Hok). rewrite ram_get_Some in H by lia. injection H as <-.
  rewrite length_take, length_drop. lia.
Qed.

Lemma recvmsg_run E s pmsg boxno :
  fifo_ok 0 (can_hw s) -> length (msg_data pmsg) = 8%nat ->
  match fifo_queue 0 (can_hw s) with
  | [] => nu_canfd_recvmsg E (Some pmsg) boxno s = Ret ((- RT_ERROR, pmsg), s)
  | e :: q =>
      if rx_DLC (rx_of_bytes e) <=? 8 then
        exists h', nu_canfd_recvmsg E (Some pmsg) boxno s
            = Ret ((RT_EOK, msg_received (rx_of_bytes e) pmsg), set_can_hw h' s) /\
          fifo_ok 0 h' /\ fifo_queue 0 h' = q
      else nu_canfd_recvmsg E (Some pmsg) boxno s = Undef
  end.
Proof.
  intros Hok Hd. unfold nu_canfd_recvmsg. rewrite bind_ret_l.
  pose proof (fetch_run E 0 [] 0 (can_hw s) Hok (or_introl eq_refl)) as Hf.
  change (msg_of 0) with eCANFD_MSG_RF0 in Hf.
  destruct (Z.eqb_spec (fifo_fill (st 0 (can_hw s))) 0) as [Hz|Hz].
  - assert (Hq : fifo_queue 0 (can_hw s) = []).
    { apply length_zero_iff_nil. pose proof (length_queue 0 (can_hw s)). lia. }
    rewrite Hq. erewrite bind_Ret by (unfold on_hw; by rewrite Hf). cbv beta iota.
    by destruct s.
  - destruct Hf as (h' & Hr & Hok' & _ & Hq). rewrite Hq.
    pose proof (msg_of_rx_run (rx_of_bytes (element 0 (can_hw s) 0)) pmsg
                  (rx_of_bytes_wf _ (element_length _ _ _ Hok)) Hd) as Hm.
    destruct (rx_DLC _ <=? 8).
    + exists h'. split; [|done].
      erewrite bind_Ret by (unfold on_hw; by rewrite Hr). cbv beta iota.
      by rewrite (bind_deref _ _ _ _ Hm).
    + erewrite bind_Ret by (unfold on_hw; by rewrite Hr). cbv beta iota. by rewrite Hm.
Qed.

(** ** Properties *)

(** C35: [nu_canfd_recvmsg] takes the oldest frame of receive FIFO 0.  On an empty FIFO it
    returns -RT_ERROR and leaves the buffer alone; a frame whose length code is at most 8
    becomes a message with the identifier (the high eleven bits for a standard frame),
    the flags, the length and the bytes of the element, and the frame is gone from the
    FIFO.  A frame with a length code of 9 or more, which the controller also stores for
    a classical frame of eight bytes, is decoded as up to 64 bytes, and the copy runs
    over the eight-byte array of the message: undefined. *)
Theorem recvmsg_spec E s pmsg boxno :
  fifo_ok 0 (can_hw s) -> length (msg_data pmsg) = 8%nat ->
  match fifo_queue 0 (can_hw s) with
  | [] => nu_canfd_recvmsg E (Some pmsg) boxno s = Ret ((- RT_ERROR, pmsg), s)
  | e :: q =>
      let b := rx_of_bytes e in
      if rx_DLC b <=? 8 then
        exists m h', nu_canfd_recvmsg E (Some pmsg) boxno s = Ret ((RT_EOK, m), set_can_hw h' s) /\
          fifo_ok 0 h' /\ fifo_queue 0 h' = q /\
          msg_id m = (if rx_XTD b =? 1 then rx_ID b else Z.shiftr (rx_ID b) 18) /\
          msg_ide m = rx_XTD b /\ msg_rtr m = rx_RTR b /\ msg_len m = rx_DLC b /\
          take (Z.to_nat (rx_DLC b)) (msg_data m) = take (Z.to_nat (rx_DLC b)) (rx_DB b) /\
          drop (Z.to_nat (rx_DLC b)) (msg_data m) = drop (Z.to_nat (rx_DLC b)) (msg_data pmsg)
      else nu_canfd_recvmsg E (Some pmsg) boxno s = Undef
  end.
Proof.
  intros Hok Hd. pose proof (recvmsg_run E s pmsg boxno Hok Hd) as H.
  destruct (fifo_queue 0 (can_hw s)) as [|e q] eqn:Hq; [done|].
  assert (He : length e = 72%nat).
  { destruct (Z.eq_dec (fifo_fill (st 0 (can_hw s))) 0) as [Hz|Hz].
    - pose proof (length_queue 0 (can_hw s)). rewrite Hq in *. cbn in *. lia.
    - pose proof (fetch_run E 0 [] 0 (can_hw s) Hok (or_introl eq_refl)) as Hf.
      destruct (Z.eqb_spec (fifo_fill (st 0 (can_hw s))) 0); [done|].
      destruct Hf as (? & _ & _ & _ & Hf). rewrite Hq in Hf. injection Hf as -> _.
      by apply element_length. }
  pose proof (wf_DB _ (rx_of_bytes_wf e He)) as Hdb. cbv zeta.
  pose proof (wf_DLC _ (rx_of_bytes_wf e He)) as Hdlc. unfold in_bits in Hdlc.
  destruct (Z.leb_spec (rx_DLC (rx_of_bytes e)) 8); [|done].
  destruct H as (h' & Hr & Hok' & Hq'). eexists _, h'. split; [exact Hr|].
  do 6 (split; [done|]). cbn [msg_received msg_data].
  split; [rewrite take_app_length' by (rewrite length_take; lia); done|].
  by rewrite drop_app_length' by (rewrite length_take; lia).
Qed.

(** The frame of transmit element [b] as a receiver stores it: identifier, flags, length
    code and as many data bytes; the rest of the element is whatever was there. *)
Definition received (b : CANFD_TX_BUF_T) (ts fidx : Z) (rest : list Z) : CANFD_RX_BUF_T :=
  mkRxBuf (tx_ID b) (tx_RTR b) (tx_XTD b) 0 ts (tx_DLC b) 0 0 fidx 0
    (take (Z.to_nat (tx_DLC b)) (tx_DB b) ++ drop (Z.to_nat (tx_DLC b)) rest).

(** C36: a message goes through.  [nu_canfd_sendmsg] of a message of at most eight bytes
    into a free buffer returns RT_EOK, requests the transmission and leaves an element in
    the message RAM; when the controller of a receiver with an empty FIFO stores the frame
    that element describes, [nu_canfd_recvmsg] there gives a message with the same
    identifier, type, remote flag, length and bytes. *)
Theorem message_round_trip E E' s boxno m r pmsg ts fidx rest :
  msg_wf m -> tx_ready (can_hw s) boxno ->
  fifo_ok 0 (can_hw r) -> fifo_queue 0 (can_hw r) = [] -> length (msg_data pmsg) = 8%nat ->
  in_bits ts 16 -> in_bits fidx 7 -> length rest = 64%nat ->
  exists s' bs h' r' m',
    nu_canfd_sendmsg E (Some m) boxno s = Ret (RT_EOK, s') /\
    Z.land (bit boxno) (configured_tx (cf_regs (can_hw s) TXBC))
      = Z.land (cf_regs (can_hw s') TXBRP) (Z.land (bit boxno) (configured_tx (cf_regs (can_hw s) TXBC))) /\
    ram_get (cf_ram (can_hw s')) (CANFD_GET_TXBUF_ADDR (cf_regs (can_hw s) TXBC) boxno) 72 = Some bs /\
    rx_store 0 (rx_bytes (received (tx_of_bytes bs) ts fidx rest)) (can_hw r) = Some h' /\
    nu_canfd_recvmsg E' (Some pmsg) 0 (set_can_hw h' r) = Ret ((RT_EOK, m'), r') /\
    msg_id m' = msg_id m /\ msg_ide m' = msg_ide m /\ msg_rtr m' = msg_rtr m /\
    msg_len m' = msg_len m /\
    take (Z.to_nat (msg_len m)) (msg_data m') = take (Z.to_nat (msg_len m)) (msg_data m).
Proof.
  intros Hm Ht Hok Hq0 Hd Hts Hfi Hrest.
  destruct (sendmsg_run E s boxno m Hm Ht) as (s' & Hs & Hg & Hp).
  pose proof (element_of_wf m Hm) as Hwf. pose proof (tx_round_trip _ Hwf) as Htx.
  set (b := received (element_of m) ts fidx rest).
  pose proof Hm as [Hide Hrtr Hid Hlen Hdat].
  assert (Hb : rx_wf b).
  { destruct Hwf. constructor; cbn [b received rx_ID rx_RTR rx_XTD rx_ESI rx_RXTS rx_DLC rx_BRS rx_FDF
      rx_FIDX rx_ANMF rx_DB]; try done; try (unfold in_bits; lia).
    cbn [element_of tx_DLC] in *. rewrite length_app, length_take, length_drop. lia. }
  destruct (rx_store_run 0 (rx_bytes b) (can_hw r) Hok (or_introl eq_refl) (length_rx_bytes _ Hb))
    as (h' & Hst & Hok' & _ & Hq').
  assert (Hfill : fifo_fill (st 0 (can_hw r)) = 0).
  { pose proof (length_queue 0 (can_hw r)). rewrite Hq0 in *. cbn in *. lia. }
  rewrite Hfill, Hq0 in Hq'. destruct (Z.ltb_spec 0 (size 0 (can_hw r)));
    [|pose proof (ok_size _ _ Hok); lia]. cbn [app] in Hq'.
  pose proof (recvmsg_run E' (set_can_hw h' r) pmsg 0 Hok' Hd) as Hrecv.
  cbn [can_hw set_can_hw] in Hrecv. rewrite Hq', (rx_round_trip b Hb) in Hrecv.
  change (rx_DLC b) with (msg_len m) in Hrecv.
  destruct (Z.leb_spec (msg_len m) 8); [|lia]. destruct Hrecv as (h2 & Hr & _ & _).
  eexists s', (tx_bytes (element_of m)), h', _, _. split; [exact Hs|]. split.
  { rewrite Hp. apply Z.bits_inj'. intros i Hi. rewrite !Z.land_spec, Z.lor_spec, !Z.land_spec.
    by destruct (Z.testbit (bit boxno) i), (Z.testbit (configured_tx _) i), (Z.testbit _ i). }
  split; [exact Hg|]. rewrite Htx. split; [exact Hst|]. split; [exact Hr|].
  cbn [msg_received msg_id msg_ide msg_rtr msg_len msg_data b received element_of tx_DLC tx_DB tx_ID
    tx_RTR tx_XTD rx_DLC rx_DB rx_ID rx_RTR rx_XTD].
  split.
  { unfold wire_id. destruct Hide as [-> | ->]; cbn [Z.eqb]; [apply get_sid|done]. }
  do 3 (split; [done|]).
  rewrite take_app_length' by (rewrite !length_take, length_app, !length_take, length_drop; lia).
  rewrite take_app_length' by (rewrite length_take, length_app, length_take, length_replicate; lia).
  by rewrite take_app_length' by (rewrite length_take; lia).
Qed.

(** ** Examples *)

Definition example_can_env : canfd_env := mkCanfdEnv false 0 0 0 (fun _ => 0) 0 strict.

Definition example_device (h : canfd_hw) : nu_canfd :=
  mkNuCanfd 0 h (mkCanConfigure 0 0 0) (mkCanStatus 0 0 0 0) 0 zero_fd [].

Definition example_msg : rt_can_msg :=
  mkCanMsg 0x123 0 0 0 3 0 0 0 0 [10; 20; 30; 0; 0; 0; 0; 0].
Definition blank_msg : rt_can_msg := mkCanMsg 0 0 0 0 0 0 0 0 0 (replicate 8 0).

(** A FIFO that holds a classical frame with length code 9. *)
Definition example_long : canfd_hw :=
  default example_fifo
    (rx_store 0 (rx_bytes (mkRxBuf (Z.shiftl 0x123 18) 0 0 0 0 9 0 0 0 0 (replicate 64 7))) example_fifo).

Lemma recvmsg_spec_witness :
  nu_canfd_recvmsg example_can_env (Some blank_msg) 0 (example_device example_long) = Undef.
Proof.
  pose proof (recvmsg_spec example_can_env (example_device example_long) blank_msg 0) as H.
  assert (Hok : fifo_ok 0 (can_hw (example_device example_long))).
  { constructor; vm_compute; (reflexivity || discriminate). }
  specialize (H Hok eq_refl). vm_compute in H |- *. exact H.
Defined.

(** Two transmit buffers after the FIFO's two elements. *)
Definition example_sender : canfd_hw :=
  mkCanfd (reg_upd (fun _ => 0) TXBC (Z.shiftl 2 16)) (replicate 200 0) false 0 true 0.

Lemma message_round_trip_witness :
  exists s' bs h' r' m',
    nu_canfd_sendmsg example_can_env (Some example_msg) 1 (example_device example_sender) = Ret (RT_EOK, s') /\
    rx_store 0 (rx_bytes (received (tx_of_bytes bs) 77 3 (replicate 64 255))) example_fifo = Some h' /\
    nu_canfd_recvmsg example_can_env (Some blank_msg) 0 (example_device h') = Ret ((RT_EOK, m'), r') /\
    msg_id m' = 0x123 /\ take 3 (msg_data m') = [10; 20; 30].
Proof.
  destruct (message_round_trip example_can_env example_can_env (example_device example_sender) 1
              example_msg (example_device example_fifo) blank_msg 77 3 (replicate 64 255))
    as (s' & bs & h' & r' & m' & H1 & _ & _ & H2 & H3 & H4 & _ & _ & _ & H5);
    [constructor; cbn; try lia; auto
    |constructor; vm_compute; (reflexivity || (split; (reflexivity || discriminate)) || discriminate)
    |constructor; vm_compute; (reflexivity || discriminate)
    |reflexivity|reflexivity|unfold in_bits; lia|unfold in_bits; lia|reflexivity|].
  exists s', bs, h', r', m'. split; [exact H1|]. split; [exact H2|]. split; [exact H3|].
  split; [exact H4|exact H5].
Defined.
