(* ===== verification/CanFdRam.v ===== *)
(** * The partition of the CAN FD message RAM

    [CANFD_CalculateRamAddress] lays the sections of the message RAM out one after the
    other; here, that they tile the part of the RAM it reports as used. *)

From Stdlib Require Import ZArith Lia Bool.
From stdpp Require Import base tactics numbers list option.
From S2P Require Import Prelude CanFdHw CanFdTiming CanFd.

Open Scope Z_scope.

(** Start and length in bytes of the sections that have elements, in the order of the RAM. *)
Definition sections (a : CANFD_RAM_PART_T) (e : CANFD_ELEM_SIZE_T) : list (Z * Z) :=
  List.filter (fun s => 0 <? s.2)
    [(u32SIDFC_FLSSA a, u32SIDFC e * sizeof_SID); (u32XIDFC_FLESA a, u32XIDFC e * sizeof_XID);
     (u32RXF0C_F0SA a, u32RxFifo0 e * sizeof_RX); (u32RXF1C_F1SA a, u32RxFifo1 e * sizeof_RX);
     (u32RXBC_RBSA a, u32RxBuf e * sizeof_RX); (u32TXEFC_EFSA a, u32TxEventFifo e * sizeof_EVENT);
     (u32TXBC_TBSA a, (u32TxBuf e + u32TxFifoQueue e) * sizeof_TX)].

(** The sections fill [off, stop) without gap or overlap. *)
Fixpoint tiles (off : Z) (l : list (Z * Z)) (stop : Z) : Prop :=
  match l with
  | [] => off = stop
  | (s, n) :: l' => s = off /\ 0 < n /\ tiles (off + n) l' stop
  end.

(** No more elements than the constants of [nu_canfd.h] allow. *)
Record elems_ok (e : CANFD_ELEM_SIZE_T) : Prop := {
  el_SIDFC : 0 <= u32SIDFC e <= CANFD_MAX_11_BIT_FTR_ELEMS;
  el_XIDFC : 0 <= u32XIDFC e <= CANFD_MAX_29_BIT_FTR_ELEMS;
  el_RxFifo0 : 0 <= u32RxFifo0 e <= CANFD_MAX_RX_FIFO0_ELEMS;
  el_RxFifo1 : 0 <= u32RxFifo1 e <= CANFD_MAX_RX_FIFO1_ELEMS;
  el_RxBuf : 0 <= u32RxBuf e <= CANFD_MAX_RX_BUF_ELEMS;
  el_TxBuf : 0 <= u32TxBuf e < 2 ^ 31;
  el_TxFifoQueue : 0 <= u32TxFifoQueue e < 2 ^ 31;
  el_TxEventFifo : 0 <= u32TxEventFifo e <= 32
}.

(** One section: the offset it gets when it has elements, and the offset after it. *)
Lemma place_spec off old n size o o' :
  0 <= off <= 2 ^ 16 -> 0 <= n <= 128 -> 0 < size <= 72 -> place off old n size = (o, o') ->
  o' = off + n * size /\ (0 < n -> o = off) /\ (n = 0 -> o = old).
Proof.
  intros Hoff Hn Hs. unfold place. destruct (Z.ltb_spec 0 n); intros [= <- <-].
  - rewrite u32_small by (unfold is_u32; nia). repeat split; lia.
  - replace n with 0 by lia. repeat split; lia.
Qed.

Lemma tiles_filter_cons off s n l stop :
  0 <= n -> (0 < n -> s = off) ->
  tiles (off + n) (List.filter (fun s => 0 <? s.2) l) stop ->
  tiles off (List.filter (fun s => 0 <? s.2) ((s, n) :: l)) stop.
Proof.
  intros Hn Hs Ht. cbn [List.filter snd]. destruct (Z.ltb_spec 0 n).
  - cbn [tiles]. auto.
  - by replace (off + n) with off in Ht by lia.
Qed.

Lemma limit_tx_spec e :
  0 <= u32TxBuf e < 2 ^ 31 -> 0 <= u32TxFifoQueue e < 2 ^ 31 ->
  let e' := limit_tx e in
  0 <= u32TxBuf e' /\ 0 <= u32TxFifoQueue e' /\ u32TxBuf e' + u32TxFifoQueue e' <= 32 /\
  (0 < u32TxBuf e + u32TxFifoQueue e -> 0 < u32TxBuf e' + u32TxFifoQueue e') /\
  (u32TxBuf e + u32TxFifoQueue e <= 32 -> e' = e).
Proof.
  intros H1 H2. unfold limit_tx. rewrite u32_small by (unfold is_u32; lia).
  destruct (Z.ltb_spec 32 (u32TxBuf e + u32TxFifoQueue e)); cbn [u32TxBuf u32TxFifoQueue];
    repeat split; lia || done.
Qed.

(** The elements after the sections are placed. *)
Lemma placed_elems a e n a' e' :
  elems_ok e -> CANFD_CalculateRamAddress a e = (n, a', e') -> e' = limit_tx e.
Proof.
  intros He. unfold CANFD_CalculateRamAddress. repeat case_match; intros [= <- <- <-]; [done|].
  destruct He. rewrite u32_small in * by (unfold is_u32; lia).
  match goal with H : (0 <? _) = false |- _ => apply Z.ltb_ge in H end.
  destruct (limit_tx_spec e) as (_ & _ & _ & _ & Hl); [lia|lia|]. rewrite Hl; [done|lia].
Qed.

(** C37: [CANFD_CalculateRamAddress] partitions the message RAM.  For element counts
    within the limits of the header, the sections that have elements lie one behind the
    other from offset 0, without overlap or gap, up to the number of bytes it returns, a
    multiple of 4 no larger than 17408; transmit buffers are cut back to at most 32, and
    nothing else of the counts changes.  The counts of [nu_canfd_configure] (16 of each)
    take 6080 bytes, which fit the 8 KB of RAM. *)
Theorem ram_partition a e n a' e' :
  elems_ok e -> CANFD_CalculateRamAddress a e = (n, a', e') ->
  tiles 0 (sections a' e') n /\ n mod 4 = 0 /\ 0 <= n <= 17408 /\
  u32TxBuf e' + u32TxFifoQueue e' <= 32 /\
  (u32TxBuf e + u32TxFifoQueue e <= 32 -> e' = e) /\
  (e = default_elems 1 -> n = 6080 /\ n <= CANFD_SRAM_SIZE).
Proof.
  intros He Hc. pose proof (placed_elems _ _ _ _ _ He Hc) as ->.
  pose proof He as [H1 H2 H3 H4 H5 H6 H7 H8].
  destruct (limit_tx_spec e H6 H7) as (L1 & L2 & L3 & L4 & L5).
  assert (Hdef : e = default_elems 1 -> n = 6080 /\ n <= CANFD_SRAM_SIZE).
  { intros ->. vm_compute in Hc. injection Hc as <- _. split; [done|]. unfold CANFD_SRAM_SIZE. lia. }
  revert Hc. unfold CANFD_CalculateRamAddress.
  unfold CANFD_MAX_11_BIT_FTR_ELEMS, CANFD_MAX_29_BIT_FTR_ELEMS, CANFD_MAX_RX_FIFO0_ELEMS,
    CANFD_MAX_RX_FIFO1_ELEMS, CANFD_MAX_RX_BUF_ELEMS in *.
  unfold sections, sizeof_SID, sizeof_XID, sizeof_RX, sizeof_TX, sizeof_EVENT in *.
  destruct (place 0 _ _ _) as [sid o1] eqn:P1. apply place_spec in P1 as (E1 & S1 & _); [|lia..].
  destruct (place o1 _ _ _) as [xid o2] eqn:P2. apply place_spec in P2 as (E2 & S2 & _); [|lia..].
  destruct (place o2 _ _ _) as [rf0 o3] eqn:P3. apply place_spec in P3 as (E3 & S3 & _); [|lia..].
  destruct (place o3 _ _ _) as [rf1 o4] eqn:P4. apply place_spec in P4 as (E4 & S4 & _); [|lia..].
  destruct (place o4 _ _ _) as [rxb o5] eqn:P5. apply place_spec in P5 as (E5 & S5 & _); [|lia..].
  destruct (place o5 _ _ _) as [tef o6] eqn:P6. apply place_spec in P6 as (E6 & S6 & _); [|lia..].
  assert (Hsame : u32SIDFC (limit_tx e) = u32SIDFC e /\ u32XIDFC (limit_tx e) = u32XIDFC e /\
    u32RxFifo0 (limit_tx e) = u32RxFifo0 e /\ u32RxFifo1 (limit_tx e) = u32RxFifo1 e /\
    u32RxBuf (limit_tx e) = u32RxBuf e /\ u32TxEventFifo (limit_tx e) = u32TxEventFifo e).
  { unfold limit_tx. by case_match. }
  destruct Hsame as (-> & -> & -> & -> & -> & ->).
  assert (Htx : exists txb, (0 < u32TxBuf (limit_tx e) + u32TxFifoQueue (limit_tx e) -> txb = o6) /\
    forall n a', (if 0 <? u32 (u32TxBuf e + u32TxFifoQueue e)
     then let e0 := limit_tx e in
          let '(txb, o) := place o6 (u32TXBC_TBSA a) (u32 (u32TxBuf e0 + u32TxFifoQueue e0)) 72 in
          (o, mkRamPart sid xid rf0 rf1 rxb tef txb, e0)
     else (o6, mkRamPart sid xid rf0 rf1 rxb tef (u32TXBC_TBSA a), e)) = (n, a', limit_tx e) ->
    n = o6 + (u32TxBuf (limit_tx e) + u32TxFifoQueue (limit_tx e)) * 72 /\
    a' = mkRamPart sid xid rf0 rf1 rxb tef txb).
  { rewrite u32_small by (unfold is_u32; lia).
    destruct (Z.ltb_spec 0 (u32TxBuf e + u32TxFifoQueue e)); cbv zeta.
    - rewrite u32_small by (unfold is_u32; lia).
      destruct (place o6 _ _ _) as [txb o7] eqn:P7. apply place_spec in P7 as (E7 & S7 & _); [|lia..].
      exists txb. split; [done|]. intros ? ? [= <- <-]. auto.
    - exists (u32TXBC_TBSA a). rewrite (L5 ltac:(lia)). split; [lia|]. intros ? ? [= <- <-].
      split; [lia|done]. }
  destruct Htx as (txb & S7 & Htx). intros Hc. apply Htx in Hc as [-> ->].
  cbn [u32SIDFC_FLSSA u32XIDFC_FLESA u32RXF0C_F0SA u32RXF1C_F1SA u32RXBC_RBSA u32TXEFC_EFSA u32TXBC_TBSA].
  split; [|split_and!; [Z.div_mod_to_equations; lia|lia|lia|lia|exact L5|exact Hdef]].
  repeat (apply tiles_filter_cons; [lia|intros; first [lia | etransitivity; [eauto with lia|lia]]|]).
  cbn. lia.
Qed.

Lemma ram_partition_witness :
  let a := mkRamPart 0 64 192 1344 2496 3648 3776 in
  CANFD_CalculateRamAddress (mkRamPart 0 0 0 0 0 0 0) (default_elems 1) = (6080, a, default_elems 1) /\
  tiles 0 (sections a (default_elems 1)) 6080.
Proof.
  split; [vm_compute; reflexivity|].
  apply (ram_partition (mkRamPart 0 0 0 0 0 0 0) (default_elems 1) 6080 _ (default_elems 1));
    [constructor; vm_compute; split; (reflexivity || discriminate)|vm_compute; reflexivity].
Defined.
