(* ===== verification/Device.v ===== *)
(** * Devices

    Models the device framework [rt-thread/src/device.c] with the part of the object
    list ([rt-thread/src/object.c]) and the string functions ([rt-thread/src/kservice.c])
    it uses.  A device is known by a number that stands for its address; the functions a
    driver installs are of a type [F] of function pointers.  What a driver promises the
    framework is the class [Devices]: where the devices are kept and what a call through
    each pointer does. *)

From Stdlib Require Import ZArith Lia Bool.
From stdpp Require Import base tactics numbers list option.
From S2P Require Import Prelude.

Open Scope Z_scope.

(** ** Constants *)

Definition RT_ENOSYS : Z := 6.
Definition RT_NAME_MAX : nat := 8.
Definition RT_Object_Class_Device : Z := 0x09.
Definition RT_Object_Class_Static : Z := 0x80.
Definition RT_DEVICE_FLAG_STANDALONE : Z := 0x008.
Definition RT_DEVICE_OFLAG_CLOSE : Z := 0x000.
Definition RT_DEVICE_OFLAG_OPEN : Z := 0x008.
Definition RT_DEVICE_OFLAG_MASK : Z := 0xf0f.

(** ** Names

    The characters of a C string, without the final NUL. *)

Definition i8 (x : Z) : Z := (x + 128) mod 256 - 128.

Fixpoint rt_strncmp (cs ct : list Z) (count : nat) : Z :=
  match count with
  | O => 0
  | S count' =>
      let __res := i8 (hd 0 cs - hd 0 ct) in
      if negb (__res =? 0) || (hd 0 cs =? 0) then __res
      else rt_strncmp (tl cs) (tl ct) count'
  end.

(** The [n] characters written. *)
Fixpoint rt_strncpy (src : list Z) (n : nat) : list Z :=
  match n with
  | O => []
  | S n' => match src with
            | [] => 0 :: rt_strncpy [] n'
            | c :: src' => c :: rt_strncpy src' n'
            end
  end.

Lemma i8_sub a b : 0 <= a < 256 -> 0 <= b < 256 -> i8 (a - b) = 0 <-> a = b.
Proof. intros Ha Hb. unfold i8. Z.div_mod_to_equations. lia. Qed.

Lemma rt_strncpy_length src n : length (rt_strncpy src n) = n.
Proof. revert src. induction n as [|n IH]; intros [|c src]; simpl; auto. Qed.

(** A name compared with its own copy. *)
Lemma rt_strncmp_copy s n : rt_strncmp (rt_strncpy s n) s n = 0.
Proof.
  revert s. induction n as [|n IH]; intros [|c s]; cbn [rt_strncmp rt_strncpy hd tl]; [done..|].
  rewrite Z.sub_diag. change (i8 0) with 0. cbn [Z.eqb negb orb].
  destruct (c =? 0); [done|apply IH].
Qed.

(** ** The device structure *)

Record rt_device (F : Type) : Type := mkDevice {
  obj_type : Z;            (** [parent.type] *)
  obj_name : list Z;       (** [parent.name] *)
  dev_type : Z;
  flag : Z;
  open_flag : Z;
  ref_count : Z;           (** [rt_uint8_t] *)
  init : option F; open : option F; close : option F;
  read : option F; write : option F; control : option F
}.

Arguments mkDevice {F}.
Arguments obj_type {F} _.
Arguments obj_name {F} _.
Arguments dev_type {F} _.
Arguments flag {F} _.
Arguments open_flag {F} _.
Arguments ref_count {F} _.
Arguments init {F} _.
Arguments open {F} _.
Arguments close {F} _.
Arguments read {F} _.
Arguments write {F} _.
Arguments control {F} _.

Section setters.
Context {F : Type}.
Implicit Types d : rt_device F.

Definition set_object (t : Z) (n : list Z) d :=
  mkDevice t n (dev_type d) (flag d) (open_flag d) (ref_count d)
    (init d) (open d) (close d) (read d) (write d) (control d).
Definition set_flag (v : Z) d :=
  mkDevice (obj_type d) (obj_name d) (dev_type d) v (open_flag d) (ref_count d)
    (init d) (open d) (close d) (read d) (write d) (control d).
Definition set_open_flag (v : Z) d :=
  mkDevice (obj_type d) (obj_name d) (dev_type d) (flag d) v (ref_count d)
    (init d) (open d) (close d) (read d) (write d) (control d).
Definition set_ref_count (v : Z) d :=
  mkDevice (obj_type d) (obj_name d) (dev_type d) (flag d) (open_flag d) v
    (init d) (open d) (close d) (read d) (write d) (control d).
End setters.

(** What the framework needs of the state [W] the drivers run on: the list of device
    objects, the devices, the thread's error number, and the calls.  A call of [control]
    gets the object its argument points to and returns it as the call leaves it. *)
Class Devices (F A W : Type) : Type := {
  objects : W -> list nat;
  set_objects : list nat -> W -> W;
  device : W -> nat -> rt_device F;
  set_device : nat -> rt_device F -> W -> W;
  set_errno : Z -> W -> W;
  call_init : F -> nat -> M W Z;
  call_open : F -> nat -> Z -> M W Z;
  call_close : F -> nat -> M W Z;
  call_read : F -> nat -> Z -> Z -> M W (list Z * Z);
  call_write : F -> nat -> Z -> list Z -> Z -> M W Z;
  call_control : F -> nat -> Z -> option A -> M W (Z * option A)
}.

Class DevicesLaws (F A W : Type) `{!Devices F A W} : Prop := {
  device_set_eq i d (w : W) : device (set_device i d w) i = d;
  device_set_ne i j d (w : W) : i <> j -> device (set_device i d w) j = device w j;
  objects_set_device i d (w : W) : objects (set_device i d w) = objects w;
  set_device_twice i d d' (w : W) : set_device i d' (set_device i d w) = set_device i d' w
}.

Section device.
Context {F A W : Type} `{!Devices F A W}.
Implicit Types (dev : nat) (w : W).

Definition rt_object_get_type dev : M W Z :=
  gets (fun w => Z.land (obj_type (device w dev)) (not32 RT_Object_Class_Static)).

Definition rt_object_is_systemobject dev : M W bool :=
  gets (fun w => tst (obj_type (device w dev)) RT_Object_Class_Static).

Definition rt_object_find (name : list Z) : M W (option nat) :=
  gets (fun w => find (fun i => rt_strncmp (obj_name (device w i)) name RT_NAME_MAX =? 0) (objects w)).

(** [RT_DEBUG] is defined: an object already in the list stops the system. *)
Definition rt_object_init dev (name : list Z) : M W unit :=
  let! l := gets objects in
  rt_assert (negb (existsb (Nat.eqb dev) l)) ;;
  modify (fun w => set_device dev (set_object (Z.lor RT_Object_Class_Device RT_Object_Class_Static)
                                   (rt_strncpy name RT_NAME_MAX) (device w dev)) w) ;;
  modify (fun w => set_objects (dev :: objects w) w).

Definition rt_object_detach dev : M W unit :=
  modify (fun w => set_device dev (set_object 0 (obj_name (device w dev)) (device w dev)) w) ;;
  modify (fun w => set_objects (filter (fun i => i <> dev) (objects w)) w).

Definition upd_dev dev (f : rt_device F -> rt_device F) : M W unit :=
  modify (fun w => set_device dev (f (device w dev)) w).

Definition rt_device_find (name : list Z) : M W (option nat) := rt_object_find name.

Definition rt_device_register (dev : option nat) (name : list Z) (flags : Z) : M W Z :=
  match dev with
  | None => ret (- RT_ERROR)
  | Some dev =>
      let! f := rt_device_find name in
      match f with
      | Some _ => ret (- RT_ERROR)
      | None =>
          rt_object_init dev name ;;
          upd_dev dev (set_flag (u16 flags)) ;;
          upd_dev dev (set_ref_count 0) ;;
          upd_dev dev (set_open_flag 0) ;;
          ret RT_EOK
      end
  end.

(** [RT_ASSERT(dev != RT_NULL); RT_ASSERT(rt_object_get_type(&dev->parent) == ...)] *)
Definition device_assert dev : M W unit :=
  let! t := rt_object_get_type dev in rt_assert (t =? RT_Object_Class_Device).

Definition rt_device_unregister dev : M W Z :=
  device_assert dev ;;
  let! s := rt_object_is_systemobject dev in
  rt_assert s ;;
  rt_object_detach dev ;;
  ret RT_EOK.

Definition rt_device_init dev : M W Z :=
  let! d := gets (fun w => device w dev) in
  match init d with
  | Some f =>
      if tst (flag d) RT_DEVICE_FLAG_ACTIVATED then ret RT_EOK
      else
        let! result := call_init f dev in
        if result =? RT_EOK then
          upd_dev dev (fun d => set_flag (Z.lor (flag d) RT_DEVICE_FLAG_ACTIVATED) d) ;; ret result
        else ret result
  | None => ret RT_EOK
  end.

(** The first part of [rt_device_open]: the device initialised, or the error. *)
Definition activate dev : M W Z :=
  let! d := gets (fun w => device w dev) in
  if tst (flag d) RT_DEVICE_FLAG_ACTIVATED then ret RT_EOK
  else
    let! result := (match init d with Some f => call_init f dev | None => ret RT_EOK end) in
    if result =? RT_EOK then
      upd_dev dev (fun d => set_flag (Z.lor (flag d) RT_DEVICE_FLAG_ACTIVATED) d) ;; ret RT_EOK
    else ret result.

Definition rt_device_open dev (oflag : Z) : M W Z :=
  device_assert dev ;;
  let! result := activate dev in
  if negb (result =? RT_EOK) then ret result
  else
    let! d := gets (fun w => device w dev) in
    if tst (flag d) RT_DEVICE_FLAG_STANDALONE && tst (open_flag d) RT_DEVICE_OFLAG_OPEN
    then ret (- RT_EBUSY)
    else
      let! result := (match open d with
                      | Some f => call_open f dev oflag
                      | None => upd_dev dev (set_open_flag (Z.land oflag RT_DEVICE_OFLAG_MASK)) ;;
                                ret RT_EOK
                      end) in
      if (result =? RT_EOK) || (result =? - RT_ENOSYS) then
        upd_dev dev (fun d => set_open_flag (Z.lor (open_flag d) RT_DEVICE_OFLAG_OPEN) d) ;;
        upd_dev dev (fun d => set_ref_count (u8 (ref_count d + 1)) d) ;;
        let! c := gets (fun w => ref_count (device w dev)) in
        rt_assert (negb (c =? 0)) ;;
        ret result
      else ret result.

Definition rt_device_close dev : M W Z :=
  device_assert dev ;;
  let! c := gets (fun w => ref_count (device w dev)) in
  if c =? 0 then ret (- RT_ERROR)
  else
    upd_dev dev (fun d => set_ref_count (u8 (ref_count d - 1)) d) ;;
    let! d := gets (fun w => device w dev) in
    if negb (ref_count d =? 0) then ret RT_EOK
    else
      let! result := (match close d with Some f => call_close f dev | None => ret RT_EOK end) in
      if (result =? RT_EOK) || (result =? - RT_ENOSYS) then
        upd_dev dev (set_open_flag RT_DEVICE_OFLAG_CLOSE) ;; ret result
      else ret result.

Definition rt_device_read dev (pos size : Z) : M W (list Z * Z) :=
  device_assert dev ;;
  let! d := gets (fun w => device w dev) in
  if ref_count d =? 0 then modify (set_errno (- RT_ERROR)) ;; ret ([], 0)
  else match read d with
       | Some f => call_read f dev pos size
       | None => modify (set_errno (- RT_ENOSYS)) ;; ret ([], 0)
       end.

Definition rt_device_write dev (pos : Z) (buffer : list Z) (size : Z) : M W Z :=
  device_assert dev ;;
  let! d := gets (fun w => device w dev) in
  if ref_count d =? 0 then modify (set_errno (- RT_ERROR)) ;; ret 0
  else match write d with
       | Some f => call_write f dev pos buffer size
       | None => modify (set_errno (- RT_ENOSYS)) ;; ret 0
       end.

Definition rt_device_control dev (cmd : Z) (arg : option A) : M W (Z * option A) :=
  device_assert dev ;;
  let! d := gets (fun w => device w dev) in
  match control d with
  | Some f => call_control f dev cmd arg
  | None => ret (- RT_ENOSYS, arg)
  end.
End device.

(** ** A device without init, open and close functions

    This is how the drivers of the board that need no per-user state register. *)

Definition plain {F} (d : rt_device F) : Prop :=
  Z.land (obj_type d) (not32 RT_Object_Class_Static) = RT_Object_Class_Device /\
  init d = None /\ open d = None /\ close d = None /\
  tst (flag d) RT_DEVICE_FLAG_STANDALONE = false /\ 0 <= ref_count d < 255.

Definition activated {F} (d : rt_device F) : rt_device F :=
  if tst (flag d) RT_DEVICE_FLAG_ACTIVATED then d
  else set_flag (Z.lor (flag d) RT_DEVICE_FLAG_ACTIVATED) d.

Definition opened {F} (oflag : Z) (d : rt_device F) : rt_device F :=
  let d := activated d in
  set_ref_count (ref_count d + 1)
    (set_open_flag (Z.lor (Z.land oflag RT_DEVICE_OFLAG_MASK) RT_DEVICE_OFLAG_OPEN) d).

Definition closed {F} (d : rt_device F) : rt_device F :=
  let d := set_ref_count (ref_count d - 1) d in
  if ref_count d =? 0 then set_open_flag RT_DEVICE_OFLAG_CLOSE d else d.

Section plain_device.
Context {F A W : Type} `{!Devices F A W} `{!DevicesLaws F A W}.
Implicit Types (dev : nat) (w : W).

Lemma device_assert_ok dev w {B} (k : unit -> M W B) :
  Z.land (obj_type (device w dev)) (not32 RT_Object_Class_Static) = RT_Object_Class_Device ->
  bind (device_assert dev) k w = k tt w.
Proof.
  intros H. unfold device_assert, rt_object_get_type. rewrite bind_assoc, bind_gets, H. done.
Qed.

Lemma activated_standalone (d : rt_device F) :
  tst (flag (activated d)) RT_DEVICE_FLAG_STANDALONE = tst (flag d) RT_DEVICE_FLAG_STANDALONE.
Proof.
  unfold activated. case_match; [done|]. cbn [flag set_flag].
  change RT_DEVICE_FLAG_STANDALONE with (bit 3). rewrite !tst_bit by lia.
  rewrite Z.lor_spec. by rewrite orb_false_r.
Qed.

Lemma activate_plain dev w :
  init (device w dev) = None ->
  returns (activate dev) w (fun r w' => r = RT_EOK /\ (w' = set_device dev (activated (device w dev)) w
                                        \/ w' = w /\ activated (device w dev) = device w dev)).
Proof.
  intros Hi. unfold activate, activated, returns. rewrite bind_gets, Hi.
  destruct (tst (flag (device w dev)) RT_DEVICE_FLAG_ACTIVATED).
  - exists RT_EOK, w. split; [done|]. split; [done|]. by right.
  - eexists RT_EOK, _. split; [reflexivity|]. split; [done|]. by left.
Qed.

Lemma open_tail dev oflag w :
  tst (flag (device w dev)) RT_DEVICE_FLAG_STANDALONE = false ->
  open (device w dev) = None -> 0 <= ref_count (device w dev) < 255 ->
  (let! d := gets (fun w => device w dev) in
   if tst (flag d) RT_DEVICE_FLAG_STANDALONE && tst (open_flag d) RT_DEVICE_OFLAG_OPEN
   then ret (- RT_EBUSY)
   else
      let! result := (match open d with
                      | Some f => call_open f dev oflag
                      | None => upd_dev dev (set_open_flag (Z.land oflag RT_DEVICE_OFLAG_MASK)) ;;
                                ret RT_EOK
                      end) in
      if (result =? RT_EOK) || (result =? - RT_ENOSYS) then
        upd_dev dev (fun d => set_open_flag (Z.lor (open_flag d) RT_DEVICE_OFLAG_OPEN) d) ;;
        upd_dev dev (fun d => set_ref_count (u8 (ref_count d + 1)) d) ;;
        let! c := gets (fun w => ref_count (device w dev)) in
        rt_assert (negb (c =? 0)) ;;
        ret result
      else ret result) w
  = Ret (RT_EOK, set_device dev (set_ref_count (ref_count (device w dev) + 1)
      (set_open_flag (Z.lor (Z.land oflag RT_DEVICE_OFLAG_MASK) RT_DEVICE_OFLAG_OPEN) (device w dev))) w).
Proof.
  intros Hs Ho Hr. rewrite bind_gets, Hs, Ho. cbn [andb]. unfold upd_dev.
  rewrite bind_assoc, bind_modify, bind_ret_l. cbn [Z.eqb RT_EOK orb].
  rewrite !bind_modify, !device_set_eq, !set_device_twice, bind_gets, device_set_eq.
  cbn [ref_count set_ref_count set_open_flag open_flag].
  rewrite u8_small by (unfold is_u8; lia).
  destruct (Z.eqb_spec (ref_count (device w dev) + 1) 0); [lia|done].
Qed.

Lemma rt_device_open_plain dev oflag w :
  plain (device w dev) ->
  rt_device_open dev oflag w = Ret (RT_EOK, set_device dev (opened oflag (device w dev)) w).
Proof.
  intros (Ht & Hi & Ho & _ & Hs & Hr). unfold rt_device_open. rewrite device_assert_ok by done.
  destruct (activate_plain dev w Hi) as (r & w' & E & -> & Hw). rewrite (bind_Ret _ _ _ _ _ E).
  cbn [Z.eqb RT_EOK negb].
  assert (Hd : device w' dev = activated (device w dev)).
  { destruct Hw as [->|[-> Ha]]; [by rewrite device_set_eq|done]. }
  assert (Hp : open (activated (device w dev)) = None /\
               ref_count (activated (device w dev)) = ref_count (device w dev))
    by (unfold activated; case_match; done).
  destruct Hp as [Hpo Hpr]. rewrite open_tail; rewrite Hd, ?activated_standalone, ?Hpr; try done.
  destruct Hw as [->|[-> Ha]]; [by rewrite set_device_twice, <-Hpr|by rewrite <-Hpr].
Qed.

Lemma rt_device_close_plain dev w :
  Z.land (obj_type (device w dev)) (not32 RT_Object_Class_Static) = RT_Object_Class_Device ->
  close (device w dev) = None -> 0 < ref_count (device w dev) < 256 ->
  rt_device_close dev w = Ret (RT_EOK, set_device dev (closed (device w dev)) w).
Proof.
  intros Ht Hc Hr. unfold rt_device_close, closed. rewrite device_assert_ok, bind_gets by done.
  destruct (Z.eqb_spec (ref_count (device w dev)) 0); [lia|]. unfold upd_dev.
  rewrite bind_modify, bind_gets, device_set_eq. cbn [ref_count set_ref_count close].
  rewrite u8_small by (unfold is_u8; lia).
  destruct (Z.eqb_spec (ref_count (device w dev) - 1) 0) as [E|E]; cbn [negb]; [|done].
  rewrite Hc, bind_ret_l. cbn [Z.eqb RT_EOK orb]. by rewrite bind_modify, device_set_eq, set_device_twice.
Qed.

Lemma rt_device_control_call dev cmd arg f w :
  Z.land (obj_type (device w dev)) (not32 RT_Object_Class_Static) = RT_Object_Class_Device ->
  control (device w dev) = Some f ->
  rt_device_control dev cmd arg w = call_control f dev cmd arg w.
Proof.
  intros Ht Hc. unfold rt_device_control. by rewrite device_assert_ok, bind_gets, Hc.
Qed.

(** A device opened, used and closed is as before, but activated. *)
Lemma closed_opened oflag (d : rt_device F) :
  plain d -> plain (closed (opened oflag d)) /\ control (closed (opened oflag d)) = control d /\
  obj_name (closed (opened oflag d)) = obj_name d /\
  (ref_count (closed (opened oflag d)) = ref_count d).
Proof.
  intros (Ht & Hi & Ho & Hc & Hs & Hr). unfold plain. rewrite <-activated_standalone in Hs.
  unfold closed, opened, activated in *.
  destruct (tst (flag d) RT_DEVICE_FLAG_ACTIVATED); cbn in *;
    replace (ref_count d + 1 - 1) with (ref_count d) by lia;
    destruct (Z.eqb_spec (ref_count d) 0); cbn; split_and!; auto; lia.
Qed.
End plain_device.
