(* ===== verification/CTime.v ===== *)
(** * Calendar time of the C library

    Models the calendar part of [rt-thread/components/libc/compilers/common/ctime.c]:
    [__isleap], [gmtime_r], [localtime_r], [timegm], [mktime], [asctime_r] and [ctime_r].
    [time_t] and the [int] fields of [struct tm] are integers; the divisions are those of
    C, towards zero.  A null pointer is not modelled ([gmtime_r] reads through the pointer
    before it tests it). *)

From Stdlib Require Import ZArith Lia Bool.
From stdpp Require Import base tactics numbers list option.
From S2P Require Import Prelude.

Open Scope Z_scope.

(** Seconds per day. *)
Definition SPD : Z := 24 * 60 * 60.

(** Days before each month, and in the year; no leap year. *)
Definition __spm : list Z :=
  [0; 31; 31 + 28; 31 + 28 + 31; 31 + 28 + 31 + 30; 31 + 28 + 31 + 30 + 31;
   31 + 28 + 31 + 30 + 31 + 30; 31 + 28 + 31 + 30 + 31 + 30 + 31;
   31 + 28 + 31 + 30 + 31 + 30 + 31 + 31; 31 + 28 + 31 + 30 + 31 + 30 + 31 + 31 + 30;
   31 + 28 + 31 + 30 + 31 + 30 + 31 + 31 + 30 + 31;
   31 + 28 + 31 + 30 + 31 + 30 + 31 + 31 + 30 + 31 + 30;
   31 + 28 + 31 + 30 + 31 + 30 + 31 + 31 + 30 + 31 + 30 + 31].

Record tm : Type := mkTm {
  tm_sec : Z; tm_min : Z; tm_hour : Z; tm_mday : Z; tm_mon : Z; tm_year : Z;
  tm_wday : Z; tm_yday : Z; tm_isdst : Z
}.

Definition __isleap (year : Z) : bool :=
  (Z.rem year 4 =? 0) && (negb (Z.rem year 100 =? 0) || (Z.rem year 400 =? 0)).

(** [for (i = 1970;; ++i)]: the year and the days left.  A year takes at least 365 days,
    so [work / 365] turns and one more are enough. *)
Fixpoint find_year (fuel : nat) (i work : Z) : option (Z * Z) :=
  match fuel with
  | O => None
  | S fuel' =>
      let k := if __isleap i then 366 else 365 in
      if k <=? work then find_year fuel' (i + 1) (work - k) else Some (i, work)
  end.

(** [for (i = 11; i && (__spm[i] > work); --i)] *)
Fixpoint find_month (i : nat) (work : Z) : option Z :=
  match i with
  | O => Some 0
  | S i' =>
      d ← znth __spm (Z.of_nat i);
      if work <? d then find_month i' work else Some (Z.of_nat i)
  end.

Definition gmtime_r (timep : Z) : option tm :=
  let work := Z.rem timep SPD in
  let sec := Z.rem work 60 in
  let work := Z.quot work 60 in
  let min := Z.rem work 60 in
  let hour := Z.quot work 60 in
  let work := Z.quot timep SPD in
  let wday := Z.rem (4 + work) 7 in
  '(i, work) ← find_year (Z.to_nat (work / 365 + 1)) 1970 work;
  let '(mday, work') :=
    if __isleap i && (58 <? work) then ((if work =? 59 then 2 else 1), work - 1) else (1, work) in
  m ← find_month 11 work';
  d ← znth __spm m;
  Some (mkTm sec min hour (mday + (work' - d)) m (i - 1900) wday work 0).

Definition localtime_r (tz t : Z) : option tm := gmtime_r (t + tz * 3600).

(** [while (t->tm_mday > __spm[1 + t->tm_mon])]: the day, month and year it ends with. *)
Fixpoint carry_days (fuel : nat) (mday mon year : Z) : option (Z * Z * Z) :=
  match fuel with
  | O => None
  | S fuel' =>
      d ← znth __spm (1 + mon);
      if d <? mday then
        let mday := if (mon =? 1) && __isleap (year + 1900) then mday - 1 else mday in
        d ← znth __spm mon;
        let mday := mday - d in
        let mon := mon + 1 in
        if 11 <? mon then carry_days fuel' mday 0 (year + 1) else carry_days fuel' mday mon year
      else Some (mday, mon, year)
  end.

(** Leap days of the years from 1970 on that the division by four counts too many. *)
Definition century_days (years : Z) : Z :=
  if 131 <=? years then
    let y := Z.quot (years - 131) 100 in
    let q := Z.land y 3 in
    Z.shiftr y 2 * 3 + 1 + (if q =? 3 then q - 1 else q)
  else 0.

Definition EFAULT : Z := 14.
Definition EINVAL : Z := 22.

(** The result, the structure as [timegm] leaves it and the error number it sets, if any;
    [None] when a month is out of the table. *)
Definition timegm (fuel : nat) (t : tm) : option (Z * tm * option Z) :=
  let years := tm_year t - 70 in
  let '(min, sec) := if 60 <? tm_sec t
                     then (tm_min t + Z.quot (tm_sec t) 60, Z.rem (tm_sec t) 60)
                     else (tm_min t, tm_sec t) in
  let '(hour, min) := if 60 <=? min then (tm_hour t + Z.quot min 60, Z.rem min 60)
                      else (tm_hour t, min) in
  let '(mday, hour) := if 24 <=? hour then (tm_mday t + Z.quot hour 24, Z.rem hour 24)
                       else (tm_mday t, hour) in
  let '(year, mon) := if 12 <=? tm_mon t then (tm_year t + Z.quot (tm_mon t) 12, Z.rem (tm_mon t) 12)
                      else (tm_year t, tm_mon t) in
  '(mday, mon, year) ← carry_days fuel mday mon year;
  if year <? 70 then Some (-1, mkTm sec min hour mday mon year (tm_wday t) (tm_yday t) (tm_isdst t), Some EINVAL)
  else
    let day := years * 365 + Z.quot (years + 1) 4 - century_days years in
    d ← znth __spm mon;
    let yday := d + mday - 1 + (if __isleap (year + 1900) && (1 <? mon) then 1 else 0) in
    let day := day + yday in
    Some (((day * 24 + hour) * 60 + min) * 60 + sec,
          mkTm sec min hour mday mon year (Z.rem (day + 4) 7) yday (tm_isdst t), None).

Definition mktime (tz : Z) (fuel : nat) (t : tm) : option (Z * tm * option Z) :=
  '(r, t, e) ← timegm fuel t; Some (r - 3600 * tz, t, e).

(** ** Text *)

(** "Sun Mon Tue Wed Thu Fri Sat " and "Jan Feb ... Dec ", four characters each. *)
Definition days : list Z :=
  [83; 117; 110; 32; 77; 111; 110; 32; 84; 117; 101; 32; 87; 101; 100; 32; 84; 104; 117; 32;
   70; 114; 105; 32; 83; 97; 116; 32].
Definition months : list Z :=
  [74; 97; 110; 32; 70; 101; 98; 32; 77; 97; 114; 32; 65; 112; 114; 32; 77; 97; 121; 32;
   74; 117; 110; 32; 74; 117; 108; 32; 65; 117; 103; 32; 83; 101; 112; 32; 79; 99; 116; 32;
   78; 111; 118; 32; 68; 101; 99; 32].

Definition num2str (i : Z) : list Z := [u8 (Z.quot i 10 + 48); u8 (Z.rem i 10 + 48)].

(** [rt_memcpy(buf, &s[4 * i], sizeof(int))] *)
Definition word4 (s : list Z) (i : Z) : option (list Z) :=
  if i <? 0 then None else Some (take 4 (drop (Z.to_nat (4 * i)) s)).

(** A leading zero of the day is a blank. *)
Definition blank_zero (l : list Z) : list Z :=
  match l with c :: l' => (if c =? 48 then 32 else c) :: l' | [] => [] end.

(** The 26 characters, the final NUL included; out of the tables, Sunday, January and the
    year 2000 are written. *)
Definition asctime_r (t : tm) : option (list Z) :=
  let bad := (28 <=? 4 * tm_wday t) || (48 <=? 4 * tm_mon t) in
  d ← word4 days (if bad then 0 else tm_wday t);
  m ← word4 months (if bad then 0 else tm_mon t);
  let year := if bad then 2000 else tm_year t + 1900 in
  Some (d ++ m ++ blank_zero (num2str (tm_mday t)) ++ [32] ++ num2str (tm_hour t) ++ [58] ++
        num2str (tm_min t) ++ [58] ++ num2str (tm_sec t) ++ [32] ++
        num2str (Z.quot year 100) ++ num2str (Z.rem year 100) ++ [10; 0]).

Definition ctime_r (tz tim : Z) : option (list Z) :=
  t ← localtime_r tz tim; asctime_r t.

(** "Wed Jun 30 21:49:08 1993", the example of the source. *)
Lemma ctime_example :
  ctime_r 0 741476948 =
    Some [87; 101; 100; 32; 74; 117; 110; 32; 51; 48; 32; 50; 49; 58; 52; 57; 58; 48; 56; 32;
          49; 57; 57; 51; 10; 0].
Proof. vm_compute. reflexivity. Qed.

(** ** Years *)

Definition year_days (y : Z) : Z := if __isleap y then 366 else 365.

(** The day number of the first of January of 1970 + [k]. *)
Fixpoint start (k : nat) : Z :=
  match k with
  | O => 0
  | S k' => start k' + year_days (1970 + Z.of_nat k')
  end.

Lemma year_days_bounds y : 365 <= year_days y <= 366.
Proof. unfold year_days. case_match; lia. Qed.

Lemma start_bounds k : 365 * Z.of_nat k <= start k.
Proof.
  induction k as [|k IH]; [done|]. cbn [start].
  pose proof (year_days_bounds (1970 + Z.of_nat k)). lia.
Qed.

Lemma start_mono j k : (j <= k)%nat -> start j <= start k.
Proof.
  induction 1 as [|k _ IH]; [lia|]. cbn [start].
  pose proof (year_days_bounds (1970 + Z.of_nat k)). lia.
Qed.

(** Every day lies in a year. *)
Lemma year_of_day n d : 0 <= d < start n -> exists k, (k < n)%nat /\ start k <= d < start (S k).
Proof.
  induction n as [|n IH]; intros [H0 H1]; [cbn in H1; lia|].
  destruct (Z.lt_ge_cases d (start n)) as [Hlt|Hge].
  - destruct (IH (conj H0 Hlt)) as (k & Hk & Hd). exists k. split; [lia|done].
  - exists n. split; [lia|done].
Qed.

Lemma find_year_from n k fuel d :
  (forall j, (j < n)%nat -> start (S (k + j)) <= d) ->
  find_year (n + fuel) (1970 + Z.of_nat k) (d - start k)
  = find_year fuel (1970 + Z.of_nat (k + n)) (d - start (k + n)).
Proof.
  revert k. induction n as [|n IH]; intros k Hk.
  - by rewrite Nat.add_0_r.
  - cbn [Nat.add find_year]. fold (year_days (1970 + Z.of_nat k)).
    specialize (Hk 0%nat ltac:(lia)) as H0. rewrite Nat.add_0_r in H0. cbn [start] in H0.
    destruct (Z.leb_spec (year_days (1970 + Z.of_nat k)) (d - start k)); [|lia].
    replace (1970 + Z.of_nat k + 1) with (1970 + Z.of_nat (S k)) by lia.
    replace (d - start k - year_days (1970 + Z.of_nat k)) with (d - start (S k)) by (cbn [start]; lia).
    rewrite IH.
    + by replace (S k + n)%nat with (k + S n)%nat by lia.
    + intros j Hj. specialize (Hk (S j) ltac:(lia)).
      by replace (S (S k + j)) with (S (k + S j)) by lia.
Qed.

Lemma find_year_run k d :
  start k <= d < start (S k) ->
  find_year (Z.to_nat (d / 365 + 1)) 1970 d = Some (1970 + Z.of_nat k, d - start k).
Proof.
  intros [H0 H1]. pose proof (start_bounds k).
  assert (Hf : exists f, Z.to_nat (d / 365 + 1) = (k + S f)%nat).
  { exists (Z.to_nat (d / 365 + 1) - k - 1)%nat.
    assert (Z.of_nat k <= d / 365) by (apply Z.div_le_lower_bound; lia). lia. }
  destruct Hf as [f ->]. pose proof (find_year_from k 0 (S f) d) as Hrun.
  cbn [start Z.of_nat Nat.add] in Hrun. rewrite Z.add_0_r, Z.sub_0_r in Hrun. rewrite Hrun.
  - cbn [find_year]. fold (year_days (1970 + Z.of_nat k)). cbn [start] in H1.
    by destruct (Z.leb_spec (year_days (1970 + Z.of_nat k)) (d - start k)); [lia|].
  - intros j Hj. pose proof (start_mono (S j) k ltac:(lia)). cbn in *. lia.
Qed.

(** The day number [timegm] computes, up to the year 2099. *)
Lemma start_closed k :
  (k < 130)%nat ->
  start k = Z.of_nat k * 365 + Z.quot (Z.of_nat k + 1) 4 - century_days (Z.of_nat k).
Proof.
  intros Hk.
  assert (H : forallb (fun k => start k =? Z.of_nat k * 365 + Z.quot (Z.of_nat k + 1) 4
                                  - century_days (Z.of_nat k)) (seq 0 130) = true)
    by (vm_compute; reflexivity).
  rewrite forallb_forall in H. apply Z.eqb_eq, H, in_seq. lia.
Qed.

(** ** Days of a year *)

(** Month and day of the month, as [gmtime_r] finds them. *)
Definition month_day (leap : bool) (work : Z) : option (Z * Z) :=
  let '(mday, work') :=
    if leap && (58 <? work) then ((if work =? 59 then 2 else 1), work - 1) else (1, work) in
  m ← find_month 11 work';
  d ← znth __spm m;
  Some (m, mday + (work' - d)).

Definition month_day_ok (leap : bool) (r : Z) : bool :=
  match month_day leap r with
  | Some (m, mday) =>
      match znth __spm m, znth __spm (1 + m) with
      | Some d, Some d' =>
          (0 <=? m) && (m <=? 11) && (1 <=? mday) && (mday <=? 31) && (mday <=? d') &&
          (d + mday - 1 + (if leap && (1 <? m) then 1 else 0) =? r)
      | _, _ => false
      end
  | None => false
  end.

Lemma month_day_run (leap : bool) r :
  0 <= r < (if leap then 366 else 365) -> month_day_ok leap r = true.
Proof.
  intros Hr.
  assert (H : forall b, forallb (month_day_ok b) (seqZ 0 (if b then 366 else 365)) = true)
    by (intros []; vm_compute; reflexivity).
  specialize (H leap). rewrite forallb_forall in H. apply H, list_elem_of_In, elem_of_seqZ. lia.
Qed.

Lemma gmtime_day t k :
  0 <= t -> start k <= t / SPD < start (S k) ->
  gmtime_r t =
    '(m, mday) ← month_day (__isleap (1970 + Z.of_nat k)) (t / SPD - start k);
    Some (mkTm (t mod SPD mod 60) (t mod SPD / 60 mod 60) (t mod SPD / 3600) mday m
            (1970 + Z.of_nat k - 1900) ((4 + t / SPD) mod 7) (t / SPD - start k) 0).
Proof.
  intros Ht Hk. unfold gmtime_r, month_day.
  assert (Hs : 0 < SPD) by done. pose proof (Z.mod_pos_bound t SPD Hs).
  assert (0 <= t / SPD) by (apply Z.div_pos; lia).
  rewrite (Z.rem_mod_nonneg t SPD), (Z.quot_div_nonneg t SPD) by lia.
  rewrite (Z.rem_mod_nonneg (t mod SPD)), (Z.quot_div_nonneg (t mod SPD)) by lia.
  assert (0 <= t mod SPD / 60) by (apply Z.div_pos; lia).
  rewrite (Z.rem_mod_nonneg (t mod SPD / 60)), (Z.quot_div_nonneg (t mod SPD / 60)) by lia.
  rewrite Z.div_div by lia. change (60 * 60) with 3600.
  rewrite (Z.rem_mod_nonneg (4 + _)) by lia.
  rewrite (find_year_run k) by done. cbn [mbind option_bind]. cbv beta iota.
  match goal with |- context [if ?b then ((if _ =? 59 then 2 else 1), ?x) else ?y] =>
    generalize (if b then ((if t / SPD - start k =? 59 then 2 else 1), x) else y) end.
  intros [mday work'].
  destruct (find_month 11 work') as [m|]; [|done]. cbn [mbind option_bind].
  by destruct (znth __spm m).
Qed.

(** [timegm] inverts [gmtime_r] for the years 1970 to 2099. *)
Lemma gmtime_timegm t :
  0 <= t < start 130 * SPD ->
  exists r, gmtime_r t = Some r /\
    (forall f wday yday dst, timegm (S f) (mkTm (tm_sec r) (tm_min r) (tm_hour r) (tm_mday r) (tm_mon r)
                           (tm_year r) wday yday dst) = Some (t, mkTm (tm_sec r) (tm_min r) (tm_hour r)
                           (tm_mday r) (tm_mon r) (tm_year r) (Z.rem (t / SPD + 4) 7)
                           (tm_yday r) dst, None)) /\
    0 <= tm_sec r < 60 /\ 0 <= tm_min r < 60 /\ 0 <= tm_hour r < 24 /\
    1 <= tm_mday r <= 31 /\ 0 <= tm_mon r <= 11 /\
    exists k, tm_year r = 70 + Z.of_nat k /\ start k <= t / SPD < start (S k).
Proof.
  intros Ht. assert (Hs : SPD = 86400) by done.
  assert (Hd : 0 <= t / SPD < start 130).
  { split; [apply Z.div_pos; lia|apply Z.div_lt_upper_bound; lia]. }
  destruct (year_of_day 130 (t / SPD) Hd) as (k & Hk & Hkd).
  rewrite (gmtime_day t k) by (lia || done). set (y := 1970 + Z.of_nat k) in *.
  assert (Hr : 0 <= t / SPD - start k < if __isleap y then 366 else 365).
  { cbn [start] in Hkd. fold y in Hkd. unfold year_days in Hkd. destruct (__isleap y); lia. }
  apply month_day_run in Hr. unfold month_day_ok in Hr.
  destruct (month_day (__isleap y) (t / SPD - start k)) as [[m mday]|]; [|done].
  destruct (znth __spm m) as [d|] eqn:Ed; [|done].
  destruct (znth __spm (1 + m)) as [d'|] eqn:Ed'; [|done].
  rewrite !andb_true_iff in Hr. destruct Hr as (((((H1 & H2) & H3) & H4) & H5) & H6).
  apply Z.leb_le in H1, H2, H3, H4, H5. apply Z.eqb_eq in H6.
  cbn [mbind option_bind]. eexists. split; [reflexivity|].
  cbn [tm_sec tm_min tm_hour tm_mday tm_mon tm_year tm_yday].
  pose proof (Z.mod_pos_bound (t mod SPD) 60 ltac:(lia)) as Hsec.
  pose proof (Z.mod_pos_bound (t mod SPD / 60) 60 ltac:(lia)) as Hmin.
  pose proof (Z.mod_pos_bound t SPD ltac:(lia)) as Htod.
  assert (Hhour : 0 <= t mod SPD / 3600 < 24).
  { split; [apply Z.div_pos; lia|apply Z.div_lt_upper_bound; lia]. }
  split; [|split_and!; try lia; exists k; split; [unfold y; lia|done]].
  intros f wday yday dst. unfold timegm. cbn [tm_sec tm_min tm_hour tm_mday tm_mon tm_year tm_isdst tm_wday tm_yday].
  destruct (Z.ltb_spec 60 (t mod SPD mod 60)); [lia|].
  destruct (Z.leb_spec 60 (t mod SPD / 60 mod 60)); [lia|].
  destruct (Z.leb_spec 24 (t mod SPD / 3600)); [lia|].
  destruct (Z.leb_spec 12 m); [lia|].
  cbn [carry_days]. rewrite Ed'. cbn [mbind option_bind].
  destruct (Z.ltb_spec d' mday); [lia|]. cbn [mbind option_bind].
  destruct (Z.ltb_spec (y - 1900) 70); [unfold y in *; lia|]. rewrite Ed. cbn [mbind option_bind].
  replace (y - 1900 + 1900) with y by lia. rewrite H6.
  replace (y - 1900 - 70) with (Z.of_nat k) by (unfold y; lia).
  rewrite <-start_closed by lia.
  replace (start k + (t / SPD - start k)) with (t / SPD) by lia.
  do 3 f_equal. rewrite Hs in *. Z.div_mod_to_equations. lia.
Qed.
