(* ===== verification/Rtc.v ===== *)
(** * Real-time clock: register layer

    Models [libraries/ma35/StdDriver/src/nu_rtc.c] and the clock gate it uses
    ([CLK_EnableModuleClock] and [CLK_DisableModuleClock] of
    [libraries/ma35/StdDriver/src/nu_clk.c]), in the configuration of the board
    ([USE_MA35_RTP] is not defined).

    The controller has three moves of its own.  After the key has been written to INIT
    the block leaves reset when its 32 kHz clock runs: [wake] is the number of reads of
    INIT until ACTIVE is seen, [None] when there is no clock.  A bit of INTSTS is cleared
    by writing 1 to it.  The calendar goes on by itself: [moves] gives, for the reads of
    CAL and TIME that follow, the values the two registers have moved to just before the
    read; when it is used up the clock stands still. *)

From Stdlib Require Import ZArith Lia Bool.
From stdpp Require Import base tactics numbers list option.
From S2P Require Import Prelude.

Open Scope Z_scope.

(** ** Registers *)

Inductive RTC_T : Type :=
| INIT | TIME | CAL | CLKFMT | WEEKDAY | TALM | CALM | INTEN | INTSTS | TICK | TAMSK | CAMSK.

#[export] Instance RTC_T_eq_dec : EqDecision RTC_T.
Proof. solve_decision. Defined.

Definition RTC_INIT_KEY : Z := 0xA5EB1357.
Definition RTC_CLOCK_12 : Z := 0.
Definition RTC_CLOCK_24 : Z := 1.
Definition RTC_AM : Z := 1.
Definition RTC_PM : Z := 2.
Definition RTC_YEAR2000 : Z := 2000.

Definition RTC_INIT_ACTIVE_Msk : Z := shl32 0x1 0.
Definition RTC_TIME_SEC_Pos : Z := 0.
Definition RTC_TIME_SEC_Msk : Z := shl32 0xf 0.
Definition RTC_TIME_TENSEC_Pos : Z := 4.
Definition RTC_TIME_TENSEC_Msk : Z := shl32 0x7 4.
Definition RTC_TIME_MIN_Pos : Z := 8.
Definition RTC_TIME_MIN_Msk : Z := shl32 0xf 8.
Definition RTC_TIME_TENMIN_Pos : Z := 12.
Definition RTC_TIME_TENMIN_Msk : Z := shl32 0x7 12.
Definition RTC_TIME_HR_Pos : Z := 16.
Definition RTC_TIME_HR_Msk : Z := shl32 0xf 16.
Definition RTC_TIME_TENHR_Pos : Z := 20.
Definition RTC_TIME_TENHR_Msk : Z := shl32 0x3 20.
Definition RTC_CAL_DAY_Pos : Z := 0.
Definition RTC_CAL_DAY_Msk : Z := shl32 0xf 0.
Definition RTC_CAL_TENDAY_Pos : Z := 4.
Definition RTC_CAL_TENDAY_Msk : Z := shl32 0x3 4.
Definition RTC_CAL_MON_Pos : Z := 8.
Definition RTC_CAL_MON_Msk : Z := shl32 0xf 8.
Definition RTC_CAL_TENMON_Pos : Z := 12.
Definition RTC_CAL_TENMON_Msk : Z := shl32 0x1 12.
Definition RTC_CAL_YEAR_Pos : Z := 16.
Definition RTC_CAL_YEAR_Msk : Z := shl32 0xf 16.
Definition RTC_CAL_TENYEAR_Pos : Z := 20.
Definition RTC_CAL_TENYEAR_Msk : Z := shl32 0xf 20.
Definition RTC_CLKFMT_24HEN_Msk : Z := shl32 0x1 0.
Definition RTC_WEEKDAY_WEEKDAY_Msk : Z := shl32 0x7 0.
Definition RTC_INTEN_ALMIEN_Msk : Z := shl32 0x1 0.
Definition RTC_INTEN_TICKIEN_Msk : Z := shl32 0x1 1.
Definition RTC_INTEN_TAMP0IEN_Msk : Z := shl32 0x1 8.
Definition RTC_INTEN_TAMP1IEN_Msk : Z := shl32 0x1 9.
Definition RTC_TICK_TICK_Msk : Z := shl32 0x7 0.
Definition RTC_TAMSK_MSEC_Pos : Z := 0.
Definition RTC_TAMSK_MTENSEC_Pos : Z := 1.
Definition RTC_TAMSK_MMIN_Pos : Z := 2.
Definition RTC_TAMSK_MTENMIN_Pos : Z := 3.
Definition RTC_TAMSK_MHR_Pos : Z := 4.
Definition RTC_TAMSK_MTENHR_Pos : Z := 5.
Definition RTC_CAMSK_MDAY_Pos : Z := 0.
Definition RTC_CAMSK_MTENDAY_Pos : Z := 1.
Definition RTC_CAMSK_MMON_Pos : Z := 2.
Definition RTC_CAMSK_MTENMON_Pos : Z := 3.
Definition RTC_CAMSK_MYEAR_Pos : Z := 4.
Definition RTC_CAMSK_MTENYEAR_Pos : Z := 5.

(** The module index of the RTC: its clock gate is bit 29 of the third word from
    [CLK->SYSCLK0] on, APBCLK0. *)
Definition RTC_MODULE : Z := Z.lor (shl32 2 29) (shl32 29 0).
Definition CLK_APBCLK0 : Z := 2.
Definition CLK_APBCLK0_RTCCKEN_Msk : Z := shl32 0x1 29.

Definition MODULE_APBCLK (x : Z) : Z := Z.land (Z.shiftr x 29) 0x7.
Definition MODULE_IP_EN_Pos (x : Z) : Z := Z.land (Z.shiftr x 0) 0x1f.

(** ** The hardware *)

Record RTC_Hw : Type := mkRtc {
  reg : RTC_T -> Z;
  keyed : bool;                       (** the key has been written to INIT *)
  wake : option nat;
  moves : list (option (Z * Z));
  CLK : list Z                        (** the words from SYSCLK0 on *)
}.

Definition reg_set (r : RTC_T) (v : Z) (f : RTC_T -> Z) : RTC_T -> Z :=
  fun r' => if decide (r' = r) then v else f r'.

Definition set_reg (r : RTC_T) (v : Z) (h : RTC_Hw) : RTC_Hw :=
  mkRtc (reg_set r v (reg h)) (keyed h) (wake h) (moves h) (CLK h).

(** What the clock does before a read of CAL or TIME. *)
Definition clock_moves (h : RTC_Hw) : RTC_Hw :=
  match moves h with
  | [] => h
  | m :: ms =>
      let f := match m with
               | Some (c, t) => reg_set CAL c (reg_set TIME t (reg h))
               | None => reg h
               end in
      mkRtc f (keyed h) (wake h) ms (CLK h)
  end.

Definition read_init (h : RTC_Hw) : Z * RTC_Hw :=
  if keyed h then
    match wake h with
    | Some O => (RTC_INIT_ACTIVE_Msk, h)
    | Some (S n) => (0, mkRtc (reg h) true (Some n) (moves h) (CLK h))
    | None => (0, h)
    end
  else (0, h).

Definition rd (r : RTC_T) : M RTC_Hw Z := fun h =>
  match r with
  | INIT => Ret (read_init h)
  | CAL | TIME => let h' := clock_moves h in Ret (reg h' r, h')
  | _ => Ret (reg h r, h)
  end.

Definition wr (r : RTC_T) (v : Z) : M RTC_Hw unit := fun h =>
  match r with
  | INIT => Ret (tt, mkRtc (reg h) (keyed h || (v =? RTC_INIT_KEY)) (wake h) (moves h) (CLK h))
  | INTSTS => Ret (tt, set_reg INTSTS (Z.land (reg h INTSTS) (not32 v)) h)
  | _ => Ret (tt, set_reg r v h)
  end.

(** [*(vu32 * )((uint32_t)&CLK->SYSCLK0 + 4 * i) = f( * )] *)
Definition clk_update (i : Z) (f : Z -> Z) : M RTC_Hw unit :=
  let! v := bind get (fun h => deref (znth (CLK h) i)) in
  modify (fun h => mkRtc (reg h) (keyed h) (wake h) (moves h) (zupd (CLK h) i (f v))).

Definition CLK_EnableModuleClock (u32ModuleIdx : Z) : M RTC_Hw unit :=
  clk_update (MODULE_APBCLK u32ModuleIdx)
    (fun v => Z.lor v (shl32 1 (MODULE_IP_EN_Pos u32ModuleIdx))).

Definition CLK_DisableModuleClock (u32ModuleIdx : Z) : M RTC_Hw unit :=
  clk_update (MODULE_APBCLK u32ModuleIdx)
    (fun v => Z.land v (not32 (shl32 1 (MODULE_IP_EN_Pos u32ModuleIdx)))).

(** ** Date and time *)

Record S_RTC_TIME_DATA_T : Type := mkTime {
  u32Year : Z; u32Month : Z; u32Day : Z; u32DayOfWeek : Z; u32Hour : Z; u32Minute : Z;
  u32Second : Z; u32TimeScale : Z; u32AmPm : Z
}.

Definition set_hour (v : Z) (t : S_RTC_TIME_DATA_T) : S_RTC_TIME_DATA_T :=
  mkTime (u32Year t) (u32Month t) (u32Day t) (u32DayOfWeek t) v (u32Minute t) (u32Second t)
    (u32TimeScale t) (u32AmPm t).

(** The calendar and the time word: two decimal digits for each part. *)
Definition cal_word (year month day : Z) : Z :=
  let y := u32 (year - RTC_YEAR2000) in
  Z.lor (Z.lor (Z.lor (Z.lor (Z.lor (shl32 (y / 10) 20) (shl32 (y mod 10) 16))
    (shl32 (month / 10) 12)) (shl32 (month mod 10) 8)) (shl32 (day / 10) 4)) (day mod 10).

Definition time_word (hour minute second : Z) : Z :=
  Z.lor (Z.lor (Z.lor (Z.lor (Z.lor (shl32 (hour / 10) 20) (shl32 (hour mod 10) 16))
    (shl32 (minute / 10) 12)) (shl32 (minute mod 10) 8)) (shl32 (second / 10) 4)) (second mod 10).

(** [RTC->CLKFMT] set for the time scale; the hour of the afternoon counts from 20. *)
Definition write_scale (scale : Z) : M RTC_Hw unit :=
  let! v := rd CLKFMT in
  if scale =? RTC_CLOCK_12 then wr CLKFMT (Z.land v (not32 RTC_CLKFMT_24HEN_Msk))
  else wr CLKFMT (Z.lor v RTC_CLKFMT_24HEN_Msk).

Definition hour_12 (scale ampm hour : Z) : Z :=
  if (scale =? RTC_CLOCK_12) && (ampm =? RTC_PM) then u32 (hour + 20) else hour.

(** The structure the caller keeps has the hour of the afternoon raised by 20. *)
Definition RTC_SetDateAndTime (sPt : option S_RTC_TIME_DATA_T) : M RTC_Hw (option S_RTC_TIME_DATA_T) :=
  match sPt with
  | None => ret None
  | Some t =>
      write_scale (u32TimeScale t) ;;
      let t := set_hour (hour_12 (u32TimeScale t) (u32AmPm t) (u32Hour t)) t in
      wr WEEKDAY (u32DayOfWeek t) ;;
      wr CAL (cal_word (u32Year t) (u32Month t) (u32Day t)) ;;
      wr TIME (time_word (u32Hour t) (u32Minute t) (u32Second t)) ;;
      ret (Some t)
  end.

Definition RTC_SetAlarmDateAndTime (sPt : option S_RTC_TIME_DATA_T)
  : M RTC_Hw (option S_RTC_TIME_DATA_T) :=
  match sPt with
  | None => ret None
  | Some t =>
      write_scale (u32TimeScale t) ;;
      let t := set_hour (hour_12 (u32TimeScale t) (u32AmPm t) (u32Hour t)) t in
      wr CALM (cal_word (u32Year t) (u32Month t) (u32Day t)) ;;
      wr TALM (time_word (u32Hour t) (u32Minute t) (u32Second t)) ;;
      ret (Some t)
  end.

(** [while ((u32Timeout > 0) && !ACTIVE) u32Timeout--]: whether it ended before the count. *)
Fixpoint wait_active (u32Timeout : nat) : M RTC_Hw bool :=
  match u32Timeout with
  | O => ret false
  | S n =>
      let! v := rd INIT in
      if tst v RTC_INIT_ACTIVE_Msk then ret true else wait_active n
  end.

Definition RTC_Open (sPt : option S_RTC_TIME_DATA_T) : M RTC_Hw Z :=
  wr INIT RTC_INIT_KEY ;;
  let! v := rd INIT in
  let! ok := (if tst v RTC_INIT_ACTIVE_Msk then ret true
              else wr INIT RTC_INIT_KEY ;; wait_active (Z.to_nat 10000000)) in
  if negb ok then ret (-1)
  else RTC_SetDateAndTime sPt ;; ret 0.

Definition RTC_Close : M RTC_Hw unit :=
  clk_update CLK_APBCLK0 (fun v => Z.land v (not32 CLK_APBCLK0_RTCCKEN_Msk)).

(** [(RTC->r & Msk) >> Pos] *)
Definition rd_field (r : RTC_T) (msk pos : Z) : M RTC_Hw Z :=
  let! v := rd r in ret (Z.shiftr (Z.land v msk) pos).

(** The common part of the two functions that read a date and a time: twelve reads of the
    two registers, one for each digit, then the numbers.  The fields of the alarm
    registers are those of the calendar's. *)
Definition get_date_time (rcal rtime : RTC_T) : M RTC_Hw S_RTC_TIME_DATA_T :=
  let! fmt := rd CLKFMT in
  let! wk := rd WEEKDAY in
  let scale := Z.land fmt RTC_CLKFMT_24HEN_Msk in
  let! hiYear := rd_field rcal RTC_CAL_TENYEAR_Msk RTC_CAL_TENYEAR_Pos in
  let! loYear := rd_field rcal RTC_CAL_YEAR_Msk RTC_CAL_YEAR_Pos in
  let! hiMonth := rd_field rcal RTC_CAL_TENMON_Msk RTC_CAL_TENMON_Pos in
  let! loMonth := rd_field rcal RTC_CAL_MON_Msk RTC_CAL_MON_Pos in
  let! hiDay := rd_field rcal RTC_CAL_TENDAY_Msk RTC_CAL_TENDAY_Pos in
  let! loDay := rd_field rcal RTC_CAL_DAY_Msk RTC_CAL_DAY_Pos in
  let! hiHour := rd_field rtime RTC_TIME_TENHR_Msk RTC_TIME_TENHR_Pos in
  let! loHour := rd_field rtime RTC_TIME_HR_Msk RTC_TIME_HR_Pos in
  let! hiMin := rd_field rtime RTC_TIME_TENMIN_Msk RTC_TIME_TENMIN_Pos in
  let! loMin := rd_field rtime RTC_TIME_MIN_Msk RTC_TIME_MIN_Pos in
  let! hiSec := rd_field rtime RTC_TIME_TENSEC_Msk RTC_TIME_TENSEC_Pos in
  let! loSec := rd_field rtime RTC_TIME_SEC_Msk RTC_TIME_SEC_Pos in
  let hour := hiHour * 10 + loHour in
  let pm := 21 <=? hour in
  ret (mkTime (hiYear * 10 + loYear + RTC_YEAR2000) (hiMonth * 10 + loMonth) (hiDay * 10 + loDay)
         (Z.land wk RTC_WEEKDAY_WEEKDAY_Msk)
         (if (scale =? RTC_CLOCK_12) && pm then hour - 20 else hour)
         (hiMin * 10 + loMin) (hiSec * 10 + loSec) scale
         (if scale =? RTC_CLOCK_12 then (if pm then RTC_PM else RTC_AM) else 0)).

(** On the 24-hour scale [u32AmPm] keeps what the caller had there. *)
Definition keep_ampm (old : S_RTC_TIME_DATA_T) (t : S_RTC_TIME_DATA_T) : S_RTC_TIME_DATA_T :=
  if u32TimeScale t =? RTC_CLOCK_12 then t
  else mkTime (u32Year t) (u32Month t) (u32Day t) (u32DayOfWeek t) (u32Hour t) (u32Minute t)
         (u32Second t) (u32TimeScale t) (u32AmPm old).

Definition RTC_GetDateAndTime (sPt : S_RTC_TIME_DATA_T) : M RTC_Hw S_RTC_TIME_DATA_T :=
  let! t := get_date_time CAL TIME in ret (keep_ampm sPt t).

Definition RTC_GetAlarmDateAndTime (sPt : S_RTC_TIME_DATA_T) : M RTC_Hw S_RTC_TIME_DATA_T :=
  let! t := get_date_time CALM TALM in ret (keep_ampm sPt t).

Definition RTC_SetDate (year month day dow : Z) : M RTC_Hw unit :=
  wr WEEKDAY (Z.land dow RTC_WEEKDAY_WEEKDAY_Msk) ;;
  wr CAL (cal_word year month day).

Definition RTC_SetTime (hour minute second mode ampm : Z) : M RTC_Hw unit :=
  write_scale mode ;;
  wr TIME (time_word (hour_12 mode ampm hour) minute second).

Definition RTC_SetAlarmDate (year month day : Z) : M RTC_Hw unit :=
  wr CALM (cal_word year month day).

Definition RTC_SetAlarmTime (hour minute second mode ampm : Z) : M RTC_Hw unit :=
  write_scale mode ;;
  wr TALM (time_word (hour_12 mode ampm hour) minute second).

Definition RTC_SetAlarmDateMask (tenY y tenM m tenD d : Z) : M RTC_Hw unit :=
  wr CAMSK (Z.lor (Z.lor (Z.lor (Z.lor (Z.lor (shl32 tenY RTC_CAMSK_MTENYEAR_Pos)
    (shl32 y RTC_CAMSK_MYEAR_Pos)) (shl32 tenM RTC_CAMSK_MTENMON_Pos)) (shl32 m RTC_CAMSK_MMON_Pos))
    (shl32 tenD RTC_CAMSK_MTENDAY_Pos)) (shl32 d RTC_CAMSK_MDAY_Pos)).

Definition RTC_SetAlarmTimeMask (tenH h tenM m tenS s : Z) : M RTC_Hw unit :=
  wr TAMSK (Z.lor (Z.lor (Z.lor (Z.lor (Z.lor (shl32 tenH RTC_TAMSK_MTENHR_Pos)
    (shl32 h RTC_TAMSK_MHR_Pos)) (shl32 tenM RTC_TAMSK_MTENMIN_Pos)) (shl32 m RTC_TAMSK_MMIN_Pos))
    (shl32 tenS RTC_TAMSK_MTENSEC_Pos)) (shl32 s RTC_TAMSK_MSEC_Pos)).

Definition RTC_GetDayOfWeek : M RTC_Hw Z :=
  let! v := rd WEEKDAY in ret (Z.land v RTC_WEEKDAY_WEEKDAY_Msk).

Definition RTC_SetTickPeriod (u32TickSelection : Z) : M RTC_Hw unit :=
  let! v := rd TICK in
  wr TICK (Z.lor (Z.land v (not32 RTC_TICK_TICK_Msk)) u32TickSelection).

Definition RTC_EnableInt (u32IntFlagMask : Z) : M RTC_Hw unit :=
  let! v := rd INTEN in wr INTEN (Z.lor v u32IntFlagMask).

Definition RTC_DisableInt (u32IntFlagMask : Z) : M RTC_Hw unit :=
  let! v := rd INTEN in
  wr INTEN (Z.land v (not32 u32IntFlagMask)) ;;
  wr INTSTS u32IntFlagMask.
