(* ===== verification/RtcDrv.v ===== *)
(** * Real-time clock: driver and time of day

    Models the driver [libraries/ma35/rtt_port/drv_rtc.c] in the configuration of the
    board (no [RT_USING_ALARM], no [NU_RTC_SUPPORT_IO_RW], no [NU_RTC_SUPPORT_MSH_CMD]),
    as an instance of the device framework, and the functions of the C library that keep
    the time of day on it: [get_timeval], [set_timeval], [time], [stime], [gettimeofday]
    and [settimeofday] of [rt-thread/components/libc/compilers/common/ctime.c].

    The static [initialised], [t_upper] and [t_lower] of [nu_rtc_is_date_valid] only save
    a computation whose result is always the same; they are not part of the state. *)

From Stdlib Require Import ZArith Lia Bool.
From stdpp Require Import base tactics numbers list option gmap.
From S2P Require Import Prelude Device CTime Rtc.

Open Scope Z_scope.

Definition RT_Device_Class_RTC : Z := 5.
Definition RT_DEVICE_CTRL_RTC_GET_TIME : Z := RT_Device_Class_RTC * 0x100 + 0x01.
Definition RT_DEVICE_CTRL_RTC_SET_TIME : Z := RT_Device_Class_RTC * 0x100 + 0x02.
Definition RT_DEVICE_CTRL_RTC_GET_TIMEVAL : Z := RT_Device_Class_RTC * 0x100 + 0x03.
Definition RT_DEVICE_CTRL_RTC_SET_TIMEVAL : Z := RT_Device_Class_RTC * 0x100 + 0x04.
Definition DST_NONE : Z := 0.

(** ** State *)

(** The functions the driver installs: only [control]. *)
Inductive rtc_fn : Type := NU_RTC_CONTROL.

Record time_world : Type := mkTW {
  tw_objects : list nat;
  tw_devices : gmap nat (rt_device rtc_fn);
  tw_errno : Z;
  tw_hw : RTC_Hw;
  get_cache : option nat;     (** the static [device] of [get_timeval] *)
  set_cache : option nat      (** the static [device] of [set_timeval] *)
}.

(** A structure before anything is stored in it. *)
Definition blank_device : rt_device rtc_fn := mkDevice 0 [] 0 0 0 0 None None None None None None.

Definition tw_device (w : time_world) (i : nat) : rt_device rtc_fn :=
  default blank_device (tw_devices w !! i).

(** The address of [device_rtc]. *)
Definition device_rtc : nat := 0.

Definition set_tw_hw (h : RTC_Hw) (w : time_world) : time_world :=
  mkTW (tw_objects w) (tw_devices w) (tw_errno w) h (get_cache w) (set_cache w).
Definition set_get_cache (d : option nat) (w : time_world) : time_world :=
  mkTW (tw_objects w) (tw_devices w) (tw_errno w) (tw_hw w) d (set_cache w).
Definition set_set_cache (d : option nat) (w : time_world) : time_world :=
  mkTW (tw_objects w) (tw_devices w) (tw_errno w) (tw_hw w) (get_cache w) d.
Definition set_tw_errno (e : Z) (w : time_world) : time_world :=
  mkTW (tw_objects w) (tw_devices w) e (tw_hw w) (get_cache w) (set_cache w).

Definition on_rtc {A} (m : M RTC_Hw A) : M time_world A := fun w =>
  match m (tw_hw w) with
  | Ret (a, h) => Ret (a, set_tw_hw h w)
  | AssertFail => AssertFail
  | Undef => Undef
  | OutOfFuel => OutOfFuel
  end.

(** ** The driver *)

Definition CONV_TO_TM_YEAR (year : Z) : Z := year - 1900.
Definition CONV_TO_TM_MON (mon : Z) : Z := mon - 1.
Definition CONV_FROM_TM_YEAR (tm_year : Z) : Z := tm_year + 1900.
Definition CONV_FROM_TM_MON (tm_mon : Z) : Z := tm_mon + 1.

Definition RTC_TM_UPPER_BOUND : tm :=
  mkTm 07 14 3 19 (CONV_TO_TM_MON 1) (CONV_TO_TM_YEAR 2038) 0 0 0.
Definition RTC_TM_LOWER_BOUND : tm :=
  mkTm 0 0 0 1 (CONV_TO_TM_MON 1) (CONV_TO_TM_YEAR 2000) 0 0 0.

(** More turns than the loop of [timegm] takes for a date from the registers. *)
Definition day_fuel : nat := 3.

Definition nu_rtc_init : M time_world Z :=
  on_rtc (CLK_EnableModuleClock RTC_MODULE) ;;
  let! r := on_rtc (RTC_Open None) in
  if r <? 0 then ret (- RT_ERROR)
  else
    on_rtc (RTC_DisableInt (Z.lor (Z.lor (Z.lor RTC_INTEN_ALMIEN_Msk RTC_INTEN_TICKIEN_Msk)
                                     RTC_INTEN_TAMP0IEN_Msk) RTC_INTEN_TAMP1IEN_Msk)) ;;
    ret RT_EOK.

(** A call of [timegm] with a structure of the caller's; the result. *)
Definition seconds_of (t : tm) : M time_world Z :=
  let! '(r, _, e) := deref (timegm day_fuel t) in
  (match e with Some e => modify (set_tw_errno e) | None => ret tt end) ;;
  ret r.

Definition nu_rtc_is_date_valid (t : Z) : M time_world Z :=
  let! ru := seconds_of RTC_TM_UPPER_BOUND in
  let! rl := seconds_of RTC_TM_LOWER_BOUND in
  ret (if (ru <? t) || (t <? rl) then - RT_EINVAL else RT_EOK).

(** [hw] and [in_tm] are what the uninitialised [hw_time] and [tm_out] hold. *)
Definition nu_rtc_control (hw : S_RTC_TIME_DATA_T) (in_tm : tm) (dev : option nat) (cmd : Z)
  (args : option Z) : M time_world (Z * option Z) :=
  match dev, args with
  | None, _ | _, None => ret (- RT_EINVAL, args)
  | Some _, Some time =>
      if cmd =? RT_DEVICE_CTRL_RTC_GET_TIME then
        let! t := on_rtc (RTC_GetDateAndTime hw) in
        let! r := seconds_of
          (mkTm (i32 (u32Second t)) (i32 (u32Minute t)) (i32 (u32Hour t)) (i32 (u32Day t))
             (i32 (CONV_TO_TM_MON (u32Month t))) (i32 (CONV_TO_TM_YEAR (u32Year t)))
             (tm_wday in_tm) (tm_yday in_tm) (tm_isdst in_tm)) in
        ret (RT_EOK, Some r)
      else if cmd =? RT_DEVICE_CTRL_RTC_SET_TIME then
        let! v := nu_rtc_is_date_valid time in
        if negb (v =? RT_EOK) then ret (- RT_ERROR, args)
        else
          let! r := deref (gmtime_r time) in
          on_rtc (RTC_SetDateAndTime (Some
            (mkTime (u32 (CONV_FROM_TM_YEAR (tm_year r))) (u32 (CONV_FROM_TM_MON (tm_mon r)))
               (u32 (tm_mday r)) (u32DayOfWeek hw) (u32 (tm_hour r)) (u32 (tm_min r))
               (u32 (tm_sec r)) RTC_CLOCK_24 0))) ;;
          ret (RT_EOK, args)
      else ret (RT_EOK, args)
  end.

(** The driver as the framework sees it. *)
#[export] Instance rtc_devices (hw : S_RTC_TIME_DATA_T) (in_tm : tm) : Devices rtc_fn Z time_world := {|
  objects := tw_objects;
  set_objects l w := mkTW l (tw_devices w) (tw_errno w) (tw_hw w) (get_cache w) (set_cache w);
  device := tw_device;
  set_device i d w := mkTW (tw_objects w) (<[i := d]> (tw_devices w))
                        (tw_errno w) (tw_hw w) (get_cache w) (set_cache w);
  set_errno := set_tw_errno;
  call_init _ _ := undefined;
  call_open _ _ _ := undefined;
  call_close _ _ := undefined;
  call_read _ _ _ _ := undefined;
  call_write _ _ _ _ _ := undefined;
  call_control f dev cmd args :=
    match f with NU_RTC_CONTROL => nu_rtc_control hw in_tm (Some dev) cmd args end
|}.

#[export] Instance rtc_devices_laws (hw : S_RTC_TIME_DATA_T) (in_tm : tm) :
  @DevicesLaws rtc_fn Z time_world (rtc_devices hw in_tm).
Proof.
  split; intros; cbn; unfold tw_device; cbn.
  - by rewrite lookup_insert_eq.
  - by rewrite lookup_insert_ne by done.
  - done.
  - by rewrite insert_insert_eq.
Qed.

(** ** Time of day *)

Definition name_rtc : list Z := [114; 116; 99].

Section time.
Context (hw : S_RTC_TIME_DATA_T) (in_tm : tm).

(** The assignments to [device_rtc] in [rt_hw_rtc_init]. *)
Definition fill_device (d : rt_device rtc_fn) : rt_device rtc_fn :=
  mkDevice (obj_type d) (obj_name d) RT_Device_Class_RTC (flag d) (open_flag d) (ref_count d)
    None None None None None (Some NU_RTC_CONTROL).

Definition rt_hw_rtc_init : M time_world Z :=
  let! ret_ := nu_rtc_init in
  if negb (ret_ =? RT_EOK) then ret (-1)
  else
    upd_dev (Devices0 := rtc_devices hw in_tm) device_rtc fill_device ;;
    rt_device_register (Devices0 := rtc_devices hw in_tm) (Some device_rtc) name_rtc
      RT_DEVICE_FLAG_RDWR.

(** [if (device == RT_NULL) device = rt_device_find("rtc")] *)
Definition cached_find (cache : time_world -> option nat)
  (set : option nat -> time_world -> time_world) : M time_world (option nat) :=
  let! c := gets cache in
  match c with
  | Some d => ret (Some d)
  | None =>
      let! f := rt_device_find (Devices0 := rtc_devices hw in_tm) name_rtc in
      modify (set f) ;; ret f
  end.

(** The open, two controls and close that both functions make; [cmd2] fills in or takes
    the whole structure, of which the driver knows nothing. *)
Definition with_rtc (dev : nat) (cmd1 cmd2 : Z) (sec : Z) : M time_world (Z * option Z) :=
  let! r := rt_device_open (Devices0 := rtc_devices hw in_tm) dev 0 in
  if r =? RT_EOK then
    let! '(rst, s) := rt_device_control (Devices0 := rtc_devices hw in_tm) dev cmd1 (Some sec) in
    let! '(_, s) := rt_device_control (Devices0 := rtc_devices hw in_tm) dev cmd2 s in
    rt_device_close (Devices0 := rtc_devices hw in_tm) dev ;;
    ret (rst, s)
  else ret (- RT_ERROR, Some sec).

Definition timeval : Type := Z * Z.

Definition get_timeval (tv : option timeval) : M time_world (Z * option timeval) :=
  match tv with
  | None => ret (- RT_EINVAL, None)
  | Some _ =>
      let! device := cached_find get_cache set_get_cache in
      match device with
      | Some dev =>
          let! '(rst, s) := with_rtc dev RT_DEVICE_CTRL_RTC_GET_TIME RT_DEVICE_CTRL_RTC_GET_TIMEVAL 0 in
          ret (rst, (fun s => (s, 0)) <$> s)
      | None => ret (- RT_ENOSYS, Some (0, 0))
      end
  end.

Definition set_timeval (tv : option timeval) : M time_world Z :=
  match tv with
  | None => ret (- RT_EINVAL)
  | Some (sec, _) =>
      let! device := cached_find set_cache set_set_cache in
      match device with
      | Some dev =>
          let! '(rst, _) := with_rtc dev RT_DEVICE_CTRL_RTC_SET_TIME RT_DEVICE_CTRL_RTC_SET_TIMEVAL sec in
          ret rst
      | None => ret (- RT_ENOSYS)
      end
  end.

(** The result and, where the pointer is not NULL, what it points to. *)
Definition time (t : option Z) : M time_world (Z * option Z) :=
  let! '(r, now) := get_timeval (Some (0, 0)) in
  if r =? RT_EOK then
    let! now := deref now in
    ret (fst now, (fun _ => fst now) <$> t)
  else modify (set_tw_errno EFAULT) ;; ret (-1, t).

Definition stime (t : option Z) : M time_world Z :=
  match t with
  | None => modify (set_tw_errno EFAULT) ;; ret (-1)
  | Some t =>
      let! r := set_timeval (Some (t, 0)) in
      if r =? RT_EOK then ret 0 else modify (set_tw_errno EFAULT) ;; ret (-1)
  end.

(** [zone] is the current time zone; a structure for the zone gets its minutes and
    [DST_NONE]. *)
Definition gettimeofday (zone : Z) (tv : option timeval) (tz : option (Z * Z))
  : M time_world (Z * option timeval * option (Z * Z)) :=
  let tz := (fun _ => (- (zone * 60), DST_NONE)) <$> tz in
  let! '(r, tv') := (match tv with
                     | None => ret (- RT_EINVAL, None)
                     | Some _ => get_timeval tv
                     end) in
  if r =? RT_EOK then ret (0, tv', tz) else modify (set_tw_errno EINVAL) ;; ret (-1, tv', tz).

Definition settimeofday (tv : option timeval) : M time_world Z :=
  let! r := (match tv with
             | Some (_, usec) => if 0 <=? usec then set_timeval tv else ret (- RT_EINVAL)
             | None => ret (- RT_EINVAL)
             end) in
  if r =? RT_EOK then ret 0 else modify (set_tw_errno EINVAL) ;; ret (-1).
End time.
