(* ===== verification/RtcTime.v ===== *)
(** * Real-time clock: what is set is read back

    The digits of the two words, the time through the registers, and [stime] followed by
    [time]. *)

From Stdlib Require Import ZArith Lia Bool.
From stdpp Require Import base tactics numbers list option gmap.
From S2P Require Import Prelude Device CTime Rtc RtcDrv.

Open Scope Z_scope.

(** ** Digits *)

Lemma lor_mul_add k n b : 0 <= n -> 0 <= b < 2 ^ n -> Z.lor (k * 2 ^ n) b = k * 2 ^ n + b.
Proof.
  intros Hn Hb. rewrite <-Z.shiftl_mul_pow2 by done.
  assert (H : Z.land (Z.shiftl k n) b = 0).
  { apply Z.bits_inj'. intros i Hi. rewrite Z.land_spec, Z.shiftl_spec, Z.bits_0 by lia.
    destruct (Z.lt_ge_cases i n); [by rewrite (Z.testbit_neg_r k) by lia|].
    rewrite (testbit_small b n) by lia. apply andb_false_r. }
  rewrite (Z.add_nocarry_lxor _ _ H). symmetry. by apply Z.lxor_lor.
Qed.

Definition bcd (d5 d4 d3 d2 d1 d0 : Z) : Z :=
  d5 * 2 ^ 20 + d4 * 2 ^ 16 + d3 * 2 ^ 12 + d2 * 2 ^ 8 + d1 * 2 ^ 4 + d0.

Lemma bcd_lor d5 d4 d3 d2 d1 d0 :
  0 <= d5 < 16 -> 0 <= d4 < 16 -> 0 <= d3 < 16 -> 0 <= d2 < 16 -> 0 <= d1 < 16 -> 0 <= d0 < 16 ->
  Z.lor (Z.lor (Z.lor (Z.lor (Z.lor (shl32 d5 20) (shl32 d4 16)) (shl32 d3 12)) (shl32 d2 8))
    (shl32 d1 4)) d0 = bcd d5 d4 d3 d2 d1 d0.
Proof.
  intros. unfold bcd, shl32. rewrite !Z.shiftl_mul_pow2 by lia.
  rewrite !u32_small by (unfold is_u32; lia).
  rewrite (lor_mul_add d5 20) by lia.
  replace (d5 * 2 ^ 20 + d4 * 2 ^ 16) with ((d5 * 2 ^ 4 + d4) * 2 ^ 16) by lia.
  rewrite (lor_mul_add _ 16) by lia.
  replace ((d5 * 2 ^ 4 + d4) * 2 ^ 16 + d3 * 2 ^ 12)
    with ((d5 * 2 ^ 8 + d4 * 2 ^ 4 + d3) * 2 ^ 12) by lia.
  rewrite (lor_mul_add _ 12) by lia.
  replace ((d5 * 2 ^ 8 + d4 * 2 ^ 4 + d3) * 2 ^ 12 + d2 * 2 ^ 8)
    with ((d5 * 2 ^ 12 + d4 * 2 ^ 8 + d3 * 2 ^ 4 + d2) * 2 ^ 8) by lia.
  rewrite (lor_mul_add _ 8) by lia.
  replace ((d5 * 2 ^ 12 + d4 * 2 ^ 8 + d3 * 2 ^ 4 + d2) * 2 ^ 8 + d1 * 2 ^ 4)
    with ((d5 * 2 ^ 16 + d4 * 2 ^ 12 + d3 * 2 ^ 8 + d2 * 2 ^ 4 + d1) * 2 ^ 4) by lia.
  rewrite (lor_mul_add _ 4) by lia. lia.
Qed.

(** A field of a word, as [rd_field] takes it. *)
Lemma field_div w n p :
  0 <= n -> 0 <= p -> p + n <= 32 -> 0 <= w ->
  Z.shiftr (Z.land w (shl32 (Z.ones n) p)) p = w / 2 ^ p mod 2 ^ n.
Proof.
  intros Hn Hp Hle Hw. rewrite <-Z.shiftr_div_pow2 by done. rewrite <-Z.land_ones by done.
  apply Z.bits_inj'. intros i Hi. autorewrite with bits.
  destruct (Z.ltb_spec (i + p) 32); replace (i + p - p) with i by lia; [done|].
  destruct (Z.ltb_spec i n); [lia|done].
Qed.

Lemma bcd_digits d5 d4 d3 d2 d1 d0 n5 n3 n1 (w := bcd d5 d4 d3 d2 d1 d0) :
  0 <= d5 < 2 ^ n5 -> 0 <= d4 < 16 -> 0 <= d3 < 2 ^ n3 -> 0 <= d2 < 16 -> 0 <= d1 < 2 ^ n1 ->
  0 <= d0 < 16 -> 0 <= n5 <= 4 -> 0 <= n3 <= 4 -> 0 <= n1 <= 4 ->
  Z.shiftr (Z.land w (shl32 (Z.ones n5) 20)) 20 = d5 /\
  Z.shiftr (Z.land w (shl32 (Z.ones 4) 16)) 16 = d4 /\
  Z.shiftr (Z.land w (shl32 (Z.ones n3) 12)) 12 = d3 /\
  Z.shiftr (Z.land w (shl32 (Z.ones 4) 8)) 8 = d2 /\
  Z.shiftr (Z.land w (shl32 (Z.ones n1) 4)) 4 = d1 /\
  Z.shiftr (Z.land w (shl32 (Z.ones 4) 0)) 0 = d0.
Proof.
  intros H5 H4 H3 H2 H1 H0 Hn5 Hn3 Hn1.
  assert (P5 : 2 ^ n5 <= 2 ^ 4) by (apply Z.pow_le_mono_r; lia).
  assert (P3 : 2 ^ n3 <= 2 ^ 4) by (apply Z.pow_le_mono_r; lia).
  assert (P1 : 2 ^ n1 <= 2 ^ 4) by (apply Z.pow_le_mono_r; lia).
  assert (Hw : 0 <= w) by (unfold w, bcd; lia).
  rewrite !field_div by lia. unfold w, bcd. change (2 ^ 4) with 16 in *.
  assert (E : forall a b c k n, 0 <= c < 2 ^ k -> 0 <= b < 2 ^ n -> 0 <= k -> 0 <= n ->
            (a * 2 ^ n * 2 ^ k + b * 2 ^ k + c) / 2 ^ k mod 2 ^ n = b).
  { intros a b c k n Hc Hb Hk Hn.
    replace (a * 2 ^ n * 2 ^ k + b * 2 ^ k + c) with (c + (a * 2 ^ n + b) * 2 ^ k) by ring.
    rewrite Z.div_add by lia. rewrite (Z.div_small c), Z.add_0_l by done.
    rewrite Z.add_comm, Z.mod_add by lia. by apply Z.mod_small. }
  split_and!.
  - rewrite <-(E 0 d5 (d4 * 2 ^ 16 + d3 * 2 ^ 12 + d2 * 2 ^ 8 + d1 * 2 ^ 4 + d0) 20 n5) at 2 by lia.
    f_equal. f_equal. lia.
  - rewrite <-(E d5 d4 (d3 * 2 ^ 12 + d2 * 2 ^ 8 + d1 * 2 ^ 4 + d0) 16 4) at 2 by lia.
    f_equal. f_equal. lia.
  - replace (_ + d3 * 2 ^ 12 + _ + _ + _) with
      ((d5 * 2 ^ 8 + d4 * 2 ^ 4) * 2 ^ 12 + d3 * 2 ^ 12 + (d2 * 2 ^ 8 + d1 * 2 ^ 4 + d0)) by lia.
    rewrite <-(E ((d5 * 2 ^ 4 + d4) * 2 ^ (4 - n3)) d3 (d2 * 2 ^ 8 + d1 * 2 ^ 4 + d0) 12 n3) at 2 by lia.
    rewrite <-(Z.mul_assoc _ (2 ^ (4 - n3))), <-Z.pow_add_r by lia.
    replace (4 - n3 + n3) with 4 by lia. f_equal. f_equal. lia.
  - rewrite <-(E (d5 * 2 ^ 8 + d4 * 2 ^ 4 + d3) d2 (d1 * 2 ^ 4 + d0) 8 4) at 2 by lia.
    f_equal. f_equal. lia.
  - rewrite <-(E ((d5 * 2 ^ 12 + d4 * 2 ^ 8 + d3 * 2 ^ 4 + d2) * 2 ^ (4 - n1)) d1 d0 4 n1) at 2 by lia.
    rewrite <-(Z.mul_assoc _ (2 ^ (4 - n1))), <-Z.pow_add_r by lia.
    replace (4 - n1 + n1) with 4 by lia. f_equal. f_equal. lia.
  - rewrite <-(E (d5 * 2 ^ 16 + d4 * 2 ^ 12 + d3 * 2 ^ 8 + d2 * 2 ^ 4 + d1) d0 0 0 4) at 2 by lia.
    f_equal. f_equal. lia.
Qed.

(** ** The registers *)

(** The clock stands still at a date and a time, on the 24-hour scale. *)
Definition clock_at (h : RTC_Hw) (y mo d hr mi s : Z) : Prop :=
  moves h = [] /\ reg h CAL = cal_word y mo d /\ reg h TIME = time_word hr mi s /\
  Z.land (reg h CLKFMT) RTC_CLKFMT_24HEN_Msk = RTC_CLOCK_24.

Definition date_range (y mo d hr mi s : Z) : Prop :=
  2000 <= y <= 2099 /\ 1 <= mo <= 12 /\ 1 <= d <= 31 /\ 0 <= hr < 24 /\ 0 <= mi < 60 /\ 0 <= s < 60.

Lemma digits x : 0 <= x -> 0 <= x / 10 /\ 0 <= x mod 10 < 10 /\ x / 10 * 10 + x mod 10 = x.
Proof. intros. Z.div_mod_to_equations. lia. Qed.

Lemma digits_lt x n : 0 <= x < n * 10 -> 0 <= x / 10 < n.
Proof. intros. Z.div_mod_to_equations. lia. Qed.

Lemma cal_digits y mo d :
  2000 <= y <= 2099 -> 1 <= mo <= 12 -> 1 <= d <= 31 ->
  cal_word y mo d = bcd ((y - 2000) / 10) ((y - 2000) mod 10) (mo / 10) (mo mod 10) (d / 10) (d mod 10).
Proof.
  intros. unfold cal_word, RTC_YEAR2000. rewrite u32_small by (unfold is_u32; lia).
  pose proof (digits (y - 2000)). pose proof (digits mo). pose proof (digits d).
  apply bcd_lor; lia.
Qed.

Lemma time_digits hr mi s :
  0 <= hr < 24 -> 0 <= mi < 60 -> 0 <= s < 60 ->
  time_word hr mi s = bcd (hr / 10) (hr mod 10) (mi / 10) (mi mod 10) (s / 10) (s mod 10).
Proof.
  intros. unfold time_word. pose proof (digits hr). pose proof (digits mi). pose proof (digits s).
  apply bcd_lor; lia.
Qed.

Lemma still_rd r h : moves h = [] -> r <> INIT -> rd r h = Ret (reg h r, h).
Proof. intros Hm Hr. unfold rd, clock_moves. rewrite Hm. by destruct r. Qed.

Lemma still_field r msk pos h :
  moves h = [] -> r <> INIT -> rd_field r msk pos h = Ret (Z.shiftr (Z.land (reg h r) msk) pos, h).
Proof. intros Hm Hr. unfold rd_field. by rewrite (bind_Ret _ _ _ _ _ (still_rd r h Hm Hr)). Qed.

Lemma get_still h y mo d hr mi s old :
  clock_at h y mo d hr mi s -> date_range y mo d hr mi s ->
  RTC_GetDateAndTime old h =
    Ret (mkTime y mo d (Z.land (reg h WEEKDAY) RTC_WEEKDAY_WEEKDAY_Msk) hr mi s RTC_CLOCK_24
           (u32AmPm old), h).
Proof.
  intros (Hm & Hc & Ht & Hf) (Hy & Hmo & Hd & Hhr & Hmi & Hs).
  unfold RTC_GetDateAndTime, get_date_time. autorewrite with monad.
  rewrite (bind_Ret _ _ _ _ _ (still_rd CLKFMT h Hm ltac:(done))), bind_assoc.
  rewrite (bind_Ret _ _ _ _ _ (still_rd WEEKDAY h Hm ltac:(done))), Hf.
  do 6 (rewrite bind_assoc, (bind_Ret _ _ _ _ _ (still_field CAL _ _ h Hm ltac:(done)))).
  do 6 (rewrite bind_assoc, (bind_Ret _ _ _ _ _ (still_field TIME _ _ h Hm ltac:(done)))).
  rewrite Hc, Ht, (cal_digits y mo d), (time_digits hr mi s) by done.
  pose proof (digits (y - 2000)). pose proof (digits mo). pose proof (digits d).
  pose proof (digits hr). pose proof (digits mi). pose proof (digits s).
  edestruct (bcd_digits ((y - 2000) / 10) ((y - 2000) mod 10) (mo / 10) (mo mod 10) (d / 10) (d mod 10) 4 1 2)
    as (E1 & E2 & E3 & E4 & E5 & E6); [lia..|].
  edestruct (bcd_digits (hr / 10) (hr mod 10) (mi / 10) (mi mod 10) (s / 10) (s mod 10) 2 3 3)
    as (F1 & F2 & F3 & F4 & F5 & F6); [lia..|].
  change (Z.ones 4) with 0xf in *. change (Z.ones 3) with 0x7 in *.
  change (Z.ones 2) with 0x3 in *. change (Z.ones 1) with 0x1 in *.
  rewrite bind_ret_l. unfold ret, keep_ampm, RTC_YEAR2000,
    RTC_CAL_TENYEAR_Msk, RTC_CAL_TENYEAR_Pos, RTC_CAL_YEAR_Msk, RTC_CAL_YEAR_Pos,
    RTC_CAL_TENMON_Msk, RTC_CAL_TENMON_Pos, RTC_CAL_MON_Msk, RTC_CAL_MON_Pos,
    RTC_CAL_TENDAY_Msk, RTC_CAL_TENDAY_Pos, RTC_CAL_DAY_Msk, RTC_CAL_DAY_Pos,
    RTC_TIME_TENHR_Msk, RTC_TIME_TENHR_Pos, RTC_TIME_HR_Msk, RTC_TIME_HR_Pos,
    RTC_TIME_TENMIN_Msk, RTC_TIME_TENMIN_Pos, RTC_TIME_MIN_Msk, RTC_TIME_MIN_Pos,
    RTC_TIME_TENSEC_Msk, RTC_TIME_TENSEC_Pos, RTC_TIME_SEC_Msk, RTC_TIME_SEC_Pos.
  rewrite E1, E2, E3, E4, E5, E6, F1, F2, F3, F4, F5, F6.
  cbn [u32TimeScale Z.eqb RTC_CLOCK_24 RTC_CLOCK_12 u32Year u32Month u32Day u32DayOfWeek u32Hour
       u32Minute u32Second u32AmPm andb]. do 3 f_equal; lia.
Qed.

Lemma set_still h y mo d dow hr mi s ampm :
  moves h = [] ->
  exists h', RTC_SetDateAndTime (Some (mkTime y mo d dow hr mi s RTC_CLOCK_24 ampm)) h =
      Ret (Some (mkTime y mo d dow hr mi s RTC_CLOCK_24 ampm), h') /\ clock_at h' y mo d hr mi s.
Proof.
  intros Hm. unfold RTC_SetDateAndTime, write_scale. cbn [u32TimeScale u32AmPm u32Hour].
  rewrite bind_assoc, (bind_Ret _ _ _ _ _ (still_rd CLKFMT h Hm ltac:(done))).
  cbn [RTC_CLOCK_24 RTC_CLOCK_12 Z.eqb]. unfold bind, wr, ret, hour_12, set_hour.
  cbn [RTC_CLOCK_24 RTC_CLOCK_12 Z.eqb u32TimeScale u32Hour andb u32Year u32Month u32Day u32DayOfWeek
       u32Minute u32Second u32AmPm].
  eexists. split; [reflexivity|]. split_and!; [done..|].
  change (Z.land (Z.lor (reg h CLKFMT) RTC_CLKFMT_24HEN_Msk) RTC_CLKFMT_24HEN_Msk = RTC_CLOCK_24).
  apply Z.bits_inj'. intros i Hi. unfold RTC_CLKFMT_24HEN_Msk, RTC_CLOCK_24.
  rewrite Z.land_spec, Z.lor_spec, testbit_shl32 by lia. replace (i - 0) with i by lia.
  destruct (Z.ltb_spec i 32).
  - cbn [andb]. by destruct (Z.testbit 1 i); rewrite ?orb_true_r, ?andb_false_r.
  - rewrite andb_false_l, andb_false_r. symmetry. by rewrite (testbit_small 1 1) by lia.
Qed.

(** ** The driver *)

Definition t_lower : Z := 946684800.
Definition t_upper : Z := 2147483647.

Lemma seconds_ok t r x w : timegm day_fuel t = Some (r, x, None) -> seconds_of t w = Ret (r, w).
Proof. intros E. unfold seconds_of. by rewrite (bind_deref _ _ _ _ E). Qed.

(** 1 January 2000, 0:00:00 and 19 January 2038, 3:14:07. *)
Lemma is_date_valid_spec t w :
  nu_rtc_is_date_valid t w =
    Ret (if (t_lower <=? t) && (t <=? t_upper) then RT_EOK else - RT_EINVAL, w).
Proof.
  unfold nu_rtc_is_date_valid.
  assert (Eu : seconds_of RTC_TM_UPPER_BOUND w = Ret (t_upper, w)) by reflexivity.
  assert (El : seconds_of RTC_TM_LOWER_BOUND w = Ret (t_lower, w)) by reflexivity.
  rewrite (bind_Ret _ _ _ _ _ Eu), (bind_Ret _ _ _ _ _ El). unfold ret. do 2 f_equal.
  destruct (Z.ltb_spec t_upper t), (Z.ltb_spec t t_lower), (Z.leb_spec t_lower t), (Z.leb_spec t t_upper);
    cbn; done || lia.
Qed.

Lemma set_tw_hw_id w : set_tw_hw (tw_hw w) w = w.
Proof. by destruct w. Qed.

Lemma on_rtc_Ret {A} (m : M RTC_Hw A) a h w :
  m (tw_hw w) = Ret (a, h) -> on_rtc m w = Ret (a, set_tw_hw h w).
Proof. unfold on_rtc. by intros ->. Qed.

(** The calendar at a number of seconds since 1970. *)
Definition clock_reads (h : RTC_Hw) (t : Z) : Prop :=
  exists r, gmtime_r t = Some r /\
    clock_at h (tm_year r + 1900) (tm_mon r + 1) (tm_mday r) (tm_hour r) (tm_min r) (tm_sec r).

Lemma valid_calendar t :
  t_lower <= t <= t_upper ->
  exists r, gmtime_r t = Some r /\
    (forall f wday yday dst, exists x, timegm (S f) (mkTm (tm_sec r) (tm_min r) (tm_hour r) (tm_mday r)
       (tm_mon r) (tm_year r) wday yday dst) = Some (t, x, None)) /\
    date_range (tm_year r + 1900) (tm_mon r + 1) (tm_mday r) (tm_hour r) (tm_min r) (tm_sec r).
Proof.
  unfold t_lower, t_upper. intros Ht.
  assert (Hs : start 130 = 47482) by (vm_compute; reflexivity).
  assert (Hp : SPD = 86400) by done.
  destruct (gmtime_timegm t) as (r & Hr & Hi & H1 & H2 & H3 & H4 & H5 & k & Hk & Hd).
  { rewrite Hs, Hp. lia. }
  exists r. split; [done|]. split; [intros; eexists; apply Hi|].
  assert (30 <= Z.of_nat k <= 100).
  { assert (H30 : start 30 = 10957) by (vm_compute; reflexivity).
    assert (H100 : start 100 = 36525) by (vm_compute; reflexivity).
    rewrite Hp in Hd.
    assert (t / 86400 < start 100) by (rewrite H100; apply Z.div_lt_upper_bound; lia).
    assert (start 30 <= t / 86400) by (rewrite H30; apply Z.div_le_lower_bound; lia).
    split.
    - destruct (Z.lt_ge_cases (Z.of_nat k) 30); [|lia].
      pose proof (start_mono (S k) 30 ltac:(lia)). lia.
    - destruct (Z.lt_ge_cases 100 (Z.of_nat k)); [|lia].
      pose proof (start_mono 100 k ltac:(lia)). lia. }
  unfold date_range. lia.
Qed.

Section driver.
Context (hw : S_RTC_TIME_DATA_T) (in_tm : tm).

Lemma control_other dev cmd s w :
  cmd <> RT_DEVICE_CTRL_RTC_GET_TIME -> cmd <> RT_DEVICE_CTRL_RTC_SET_TIME ->
  nu_rtc_control hw in_tm (Some dev) cmd (Some s) w = Ret ((RT_EOK, Some s), w).
Proof.
  intros Hg Hs. unfold nu_rtc_control.
  destruct (Z.eqb_spec cmd RT_DEVICE_CTRL_RTC_GET_TIME); [done|].
  by destruct (Z.eqb_spec cmd RT_DEVICE_CTRL_RTC_SET_TIME).
Qed.

Lemma control_get dev t s w :
  t_lower <= t <= t_upper -> clock_reads (tw_hw w) t ->
  nu_rtc_control hw in_tm (Some dev) RT_DEVICE_CTRL_RTC_GET_TIME (Some s) w = Ret ((RT_EOK, Some t), w).
Proof.
  intros Ht (r & Hr & Hc). destruct (valid_calendar t Ht) as (r' & Hr' & Hi & Hd).
  rewrite Hr in Hr'. injection Hr' as <-. unfold nu_rtc_control. rewrite Z.eqb_refl.
  rewrite (bind_Ret _ _ _ _ _ (on_rtc_Ret _ _ _ _ (get_still _ _ _ _ _ _ _ hw Hc Hd))), set_tw_hw_id.
  cbn [u32Year u32Month u32Day u32Hour u32Minute u32Second].
  destruct Hd as (H1 & H2 & H3 & H4 & H5 & H6). unfold CONV_TO_TM_MON, CONV_TO_TM_YEAR.
  rewrite !i32_small by lia.
  replace (tm_mon r + 1 - 1) with (tm_mon r) by lia.
  replace (tm_year r + 1900 - 1900) with (tm_year r) by lia.
  destruct (Hi 2%nat (tm_wday in_tm) (tm_yday in_tm) (tm_isdst in_tm)) as [x Hx].
  by rewrite (bind_Ret _ _ _ _ _ (seconds_ok _ _ _ _ Hx)).
Qed.

(** The hardware after SET_TIME. *)
Definition after_set (t : Z) (h : RTC_Hw) : RTC_Hw :=
  match gmtime_r t with
  | None => h
  | Some r =>
      match RTC_SetDateAndTime (Some
              (mkTime (tm_year r + 1900) (tm_mon r + 1) (tm_mday r) (u32DayOfWeek hw) (tm_hour r)
                 (tm_min r) (tm_sec r) RTC_CLOCK_24 0)) h with
      | Ret (_, h') => h'
      | _ => h
      end
  end.

Lemma after_set_reads t h :
  t_lower <= t <= t_upper -> moves h = [] -> clock_reads (after_set t h) t.
Proof.
  intros Ht Hm. destruct (valid_calendar t Ht) as (r & Hr & _). unfold after_set. rewrite Hr.
  destruct (set_still h (tm_year r + 1900) (tm_mon r + 1) (tm_mday r) (u32DayOfWeek hw)
    (tm_hour r) (tm_min r) (tm_sec r) 0 Hm) as (h' & -> & Hc). by exists r.
Qed.

Lemma control_set dev t w :
  t_lower <= t <= t_upper -> moves (tw_hw w) = [] ->
  nu_rtc_control hw in_tm (Some dev) RT_DEVICE_CTRL_RTC_SET_TIME (Some t) w =
    Ret ((RT_EOK, Some t), set_tw_hw (after_set t (tw_hw w)) w).
Proof.
  intros Ht Hm. destruct (valid_calendar t Ht) as (r & Hr & _ & Hd).
  unfold nu_rtc_control. change (RT_DEVICE_CTRL_RTC_SET_TIME =? RT_DEVICE_CTRL_RTC_GET_TIME) with false.
  rewrite Z.eqb_refl, (bind_Ret _ _ _ _ _ (is_date_valid_spec t w)).
  destruct (Z.leb_spec t_lower t), (Z.leb_spec t t_upper); try lia. cbn [andb Z.eqb RT_EOK negb].
  rewrite (bind_deref _ _ _ _ Hr). destruct Hd as (H1 & H2 & H3 & H4 & H5 & H6).
  unfold CONV_FROM_TM_YEAR, CONV_FROM_TM_MON, after_set.
  rewrite Hr, !u32_small by (unfold is_u32; lia).
  destruct (set_still (tw_hw w) (tm_year r + 1900) (tm_mon r + 1) (tm_mday r) (u32DayOfWeek hw)
    (tm_hour r) (tm_min r) (tm_sec r) 0 Hm) as (h & Hh & Hc).
  rewrite Hh. by rewrite (bind_Ret _ _ _ _ _ (on_rtc_Ret _ _ _ _ Hh)).
Qed.

Lemma control_refuse dev t w :
  ~ t_lower <= t <= t_upper ->
  nu_rtc_control hw in_tm (Some dev) RT_DEVICE_CTRL_RTC_SET_TIME (Some t) w = Ret ((- RT_ERROR, Some t), w).
Proof.
  intros Ht. unfold nu_rtc_control.
  change (RT_DEVICE_CTRL_RTC_SET_TIME =? RT_DEVICE_CTRL_RTC_GET_TIME) with false.
  rewrite Z.eqb_refl, (bind_Ret _ _ _ _ _ (is_date_valid_spec t w)).
  by destruct (Z.leb_spec t_lower t), (Z.leb_spec t t_upper); try lia.
Qed.
End driver.

(** ** Time of day *)

Section time_of_day.
Context (hw : S_RTC_TIME_DATA_T) (in_tm : tm).

Definition named_rtc (w : time_world) (i : nat) : bool :=
  rt_strncmp (obj_name (tw_device w i)) name_rtc RT_NAME_MAX =? 0.

(** The device named "rtc" is the one the driver registered, and the static variable, when
    it is set, points to it. *)
Definition finds (cache : option nat) (w : time_world) : Prop :=
  cache = Some device_rtc \/
  cache = None /\ find (named_rtc w) (tw_objects w) = Some device_rtc.

(** The driver is registered, and the clock stands still. *)
Definition rtc_ready (w : time_world) : Prop :=
  plain (tw_device w device_rtc) /\ control (tw_device w device_rtc) = Some NU_RTC_CONTROL /\
  finds (get_cache w) w /\ finds (set_cache w) w /\ moves (tw_hw w) = [].

Lemma find_ext {X} (f g : X -> bool) l : (forall x, f x = g x) -> find f l = find g l.
Proof. intros H. induction l as [|x l IH]; [done|]. cbn [find]. by rewrite H, IH. Qed.

Lemma finds_same cache w w' :
  tw_objects w' = tw_objects w -> (forall i, obj_name (tw_device w' i) = obj_name (tw_device w i)) ->
  finds cache w -> finds cache w'.
Proof.
  intros Ho Hn [->|[-> Hf]]; [by left|right]. split; [done|]. rewrite <-Hf, Ho.
  apply find_ext. intros i. unfold named_rtc. by rewrite Hn.
Qed.

Lemma cached_find_run cache set w :
  finds (cache w) w ->
  exists w', cached_find hw in_tm cache set w = Ret (Some device_rtc, w') /\
             (w' = w \/ w' = set (Some device_rtc) w).
Proof.
  intros Hf. unfold cached_find. rewrite bind_gets. destruct Hf as [->|[-> Hf]]; [eauto|].
  unfold rt_device_find, rt_object_find. rewrite bind_gets.
  match goal with |- context [find ?f ?l] => change (find f l) with (find (named_rtc w) (tw_objects w)) end.
  rewrite Hf. eauto.
Qed.

Lemma opened_facts (d : rt_device rtc_fn) :
  plain d ->
  Z.land (obj_type (opened 0 d)) (not32 RT_Object_Class_Static) = RT_Object_Class_Device /\
  control (opened 0 d) = control d /\ close (opened 0 d) = None /\ 0 < ref_count (opened 0 d) < 256.
Proof.
  intros (Ht & Hi & Ho & Hc & Hs & Hr). unfold opened, activated. case_match; cbn; split_and!; auto; lia.
Qed.

Definition released (w : time_world) : time_world :=
  set_device (Devices := rtc_devices hw in_tm) device_rtc (closed (opened 0 (tw_device w device_rtc))) w.

(** Opening, the driver's control function, a command it does not know, closing. *)
Lemma with_rtc_run c1 c2 sec r s (h : RTC_Hw -> RTC_Hw) w :
  plain (tw_device w device_rtc) -> control (tw_device w device_rtc) = Some NU_RTC_CONTROL ->
  c2 <> RT_DEVICE_CTRL_RTC_GET_TIME -> c2 <> RT_DEVICE_CTRL_RTC_SET_TIME ->
  (forall w', tw_hw w' = tw_hw w ->
     nu_rtc_control hw in_tm (Some device_rtc) c1 (Some sec) w' = Ret ((r, Some s), set_tw_hw (h (tw_hw w)) w')) ->
  with_rtc hw in_tm device_rtc c1 c2 sec w = Ret ((r, Some s), set_tw_hw (h (tw_hw w)) (released w)).
Proof.
  intros Hp Hc Hg Hs Hcall. unfold with_rtc.
  destruct (opened_facts _ Hp) as (Ht & Hoc & Hcl & Hr).
  rewrite (bind_Ret _ _ _ _ _ (rt_device_open_plain (Devices0 := rtc_devices hw in_tm) device_rtc 0 w Hp)).
  set (w1 := set_device device_rtc (opened 0 (device w device_rtc)) w).
  assert (Hd1 : device (Devices := rtc_devices hw in_tm) w1 device_rtc = opened 0 (tw_device w device_rtc))
    by (apply (device_set_eq (Devices0 := rtc_devices hw in_tm))).
  assert (Hw1 : tw_hw w1 = tw_hw w) by done. cbn [Z.eqb RT_EOK].
  rewrite (bind_Ret _ _ _ (r, Some s) (set_tw_hw (h (tw_hw w)) w1)); cycle 1.
  { rewrite (rt_device_control_call _ _ _ NU_RTC_CONTROL);
      [by apply Hcall|by rewrite Hd1|rewrite Hd1; congruence]. }
  cbn beta iota. set (w2 := set_tw_hw (h (tw_hw w)) w1).
  assert (Hd2 : device (Devices := rtc_devices hw in_tm) w2 device_rtc = opened 0 (tw_device w device_rtc)) by done.
  rewrite (bind_Ret _ _ _ (RT_EOK, Some s) w2); cycle 1.
  { rewrite (rt_device_control_call _ _ _ NU_RTC_CONTROL);
      [by apply (control_other hw in_tm)|by rewrite Hd2|rewrite Hd2; congruence]. }
  cbn beta iota.
  erewrite bind_Ret; cycle 1.
  { apply rt_device_close_plain; rewrite Hd2; done. }
  rewrite Hd2. unfold ret. do 2 f_equal. unfold w2, w1, released.
  cbn. by rewrite insert_insert_eq.
Qed.

Lemma ready_released h w :
  rtc_ready w -> moves h = [] -> rtc_ready (set_tw_hw h (released w)).
Proof.
  intros (Hp & Hc & Hg & Hs & _) Hm.
  destruct (closed_opened 0 _ Hp) as (Hp' & Hc' & Hn & _).
  assert (Hd : tw_device (set_tw_hw h (released w)) device_rtc = closed (opened 0 (tw_device w device_rtc)))
    by (unfold tw_device; cbn; by rewrite lookup_insert_eq).
  assert (Hnames : forall i, obj_name (tw_device (set_tw_hw h (released w)) i) = obj_name (tw_device w i)).
  { intros i. destruct (decide (i = device_rtc)) as [->|Hi]; [by rewrite Hd|].
    unfold tw_device. cbn. by rewrite lookup_insert_ne by done. }
  split_and!; [by rewrite Hd|by rewrite Hd, Hc'| | |done].
  - by apply (finds_same _ w).
  - by apply (finds_same _ w).
Qed.

Lemma ready_get_cache w : rtc_ready w -> rtc_ready (set_get_cache (Some device_rtc) w).
Proof.
  intros (Hp & Hc & Hg & Hs & Hm). split_and!; [done|done|by left| |done]. by apply (finds_same _ w).
Qed.

Lemma ready_set_cache w : rtc_ready w -> rtc_ready (set_set_cache (Some device_rtc) w).
Proof.
  intros (Hp & Hc & Hg & Hs & Hm). split_and!; [done|done| |by left|done]. by apply (finds_same _ w).
Qed.

Lemma ready_errno e w : rtc_ready w -> rtc_ready (set_tw_errno e w).
Proof. by destruct w. Qed.

Lemma get_timeval_run t tv w :
  rtc_ready w -> t_lower <= t <= t_upper -> clock_reads (tw_hw w) t ->
  exists w', get_timeval hw in_tm (Some tv) w = Ret ((RT_EOK, Some (t, 0)), w') /\
             tw_hw w' = tw_hw w /\ rtc_ready w'.
Proof.
  intros Hr Ht Hc. unfold get_timeval.
  destruct (cached_find_run get_cache set_get_cache w) as (w1 & E & Hw1); [apply Hr|].
  assert (H1 : rtc_ready w1 /\ tw_hw w1 = tw_hw w)
    by (destruct Hw1 as [->| ->]; [done|by split; [apply ready_get_cache|]]).
  destruct H1 as [Hr1 Eh]. rewrite (bind_Ret _ _ _ _ _ E).
  rewrite (bind_Ret _ _ _ _ _ (with_rtc_run RT_DEVICE_CTRL_RTC_GET_TIME
    RT_DEVICE_CTRL_RTC_GET_TIMEVAL 0 RT_EOK t (fun h => h) w1
    (proj1 Hr1) (proj1 (proj2 Hr1)) ltac:(done) ltac:(done)
    ltac:(intros w' Ew; rewrite <-Ew, set_tw_hw_id; apply control_get; [done|]; by rewrite Ew, Eh))).
  eexists. split; [reflexivity|]. split; [done|]. apply ready_released; [done|apply Hr1].
Qed.

Lemma set_timeval_run t usec w :
  rtc_ready w -> t_lower <= t <= t_upper ->
  exists w', set_timeval hw in_tm (Some (t, usec)) w = Ret (RT_EOK, w') /\
             clock_reads (tw_hw w') t /\ rtc_ready w'.
Proof.
  intros Hr Ht. unfold set_timeval.
  destruct (cached_find_run set_cache set_set_cache w) as (w1 & E & Hw1); [apply Hr|].
  assert (Hr1 : rtc_ready w1) by (destruct Hw1 as [->| ->]; [done|by apply ready_set_cache]).
  assert (Hm : moves (tw_hw w1) = []) by apply Hr1.
  pose proof (after_set_reads hw t (tw_hw w1) Ht Hm) as Hc.
  rewrite (bind_Ret _ _ _ _ _ E).
  rewrite (bind_Ret _ _ _ _ _ (with_rtc_run RT_DEVICE_CTRL_RTC_SET_TIME
    RT_DEVICE_CTRL_RTC_SET_TIMEVAL t RT_EOK t (after_set hw t) w1
    (proj1 Hr1) (proj1 (proj2 Hr1)) ltac:(done) ltac:(done)
    ltac:(intros w' Ew; rewrite <-Ew; apply control_set; [done|]; by rewrite Ew))).
  eexists. split; [reflexivity|]. split; [done|]. apply ready_released; [done|].
  by destruct Hc as (r & _ & Hmv & _).
Qed.

Lemma set_timeval_refused t usec w :
  rtc_ready w -> ~ t_lower <= t <= t_upper ->
  exists w', set_timeval hw in_tm (Some (t, usec)) w = Ret (- RT_ERROR, w') /\
             tw_hw w' = tw_hw w /\ rtc_ready w'.
Proof.
  intros Hr Ht. unfold set_timeval.
  destruct (cached_find_run set_cache set_set_cache w) as (w1 & E & Hw1); [apply Hr|].
  assert (H1 : rtc_ready w1 /\ tw_hw w1 = tw_hw w)
    by (destruct Hw1 as [->| ->]; [done|by split; [apply ready_set_cache|]]).
  destruct H1 as [Hr1 Eh]. rewrite (bind_Ret _ _ _ _ _ E).
  rewrite (bind_Ret _ _ _ _ _ (with_rtc_run RT_DEVICE_CTRL_RTC_SET_TIME
    RT_DEVICE_CTRL_RTC_SET_TIMEVAL t (- RT_ERROR) t (fun h => h) w1
    (proj1 Hr1) (proj1 (proj2 Hr1)) ltac:(done) ltac:(done)
    ltac:(intros w' Ew; rewrite <-Ew, set_tw_hw_id; by apply control_refuse))).
  eexists. split; [reflexivity|]. split; [done|]. apply ready_released; [done|apply Hr1].
Qed.
End time_of_day.

(** C38: the time of day that [stime] stores is the one [time] reads.  With the RTC driver
    registered and the clock standing still, [stime(t)] for a [t] from 1 January 2000 to
    19 January 2038, 3:14:07 returns 0, and every later [time] returns exactly [t], however
    often it is called; for any other [t] it returns -1 with EFAULT and no register of the
    RTC has changed.  What the uninitialised structures of the driver hold does not matter. *)
Theorem time_of_stime hw in_tm w t :
  rtc_ready w ->
  (t_lower <= t <= t_upper ->
   exists w', stime hw in_tm (Some t) w = Ret (0, w') /\ rtc_ready w' /\
     forall n p, exists w2, 
       Nat.iter n (fun m => time hw in_tm None ;; m) (time hw in_tm p) w' = Ret ((t, (fun _ => t) <$> p), w2)
       /\ tw_hw w2 = tw_hw w') /\
  (~ t_lower <= t <= t_upper ->
   exists w', stime hw in_tm (Some t) w = Ret (-1, w') /\ rtc_ready w' /\
     tw_errno w' = EFAULT /\ tw_hw w' = tw_hw w).
Proof.
  intros Hr. unfold stime. split; intros Ht.
  - destruct (set_timeval_run hw in_tm t 0 w Hr Ht) as (w' & E & Hc & Hr').
    rewrite (bind_Ret _ _ _ _ _ E). exists w'. split; [done|]. split; [done|].
    intros n p. clear E Hr w. revert w' Hc Hr'.
    assert (Htime : forall q w, clock_reads (tw_hw w) t -> rtc_ready w -> exists w2,
      time hw in_tm q w = Ret ((t, (fun _ => t) <$> q), w2) /\ tw_hw w2 = tw_hw w /\ rtc_ready w2).
    { intros q w Hc Hr. destruct (get_timeval_run hw in_tm t (0, 0) w Hr Ht Hc) as (w2 & E & Eh & Hr2).
      exists w2. unfold time. by rewrite (bind_Ret _ _ _ _ _ E). }
    induction n as [|n IH]; intros w Hc Hr.
    + destruct (Htime p w Hc Hr) as (w2 & E & Eh & _). by exists w2.
    + destruct (Htime None w Hc Hr) as (w2 & E & Eh & Hr2). cbn [Nat.iter nat_rect].
      rewrite (bind_Ret _ _ _ _ _ E). rewrite <-Eh in *. by apply IH.
  - destruct (set_timeval_refused hw in_tm t 0 w Hr Ht) as (w' & E & Eh & Hr').
    rewrite (bind_Ret _ _ _ _ _ E). eexists. split; [reflexivity|]. by split_and!.
Qed.

(** The reads are not guarded against a move of the clock: when midnight passes between the
    reads of CAL and those of TIME, the result is a whole day behind. *)
Definition midnight_hw : RTC_Hw :=
  mkRtc (fun r => match r with CAL => cal_word 2024 2 28 | TIME => time_word 23 59 59 | CLKFMT => 1 | _ => 0 end)
    true (Some O)
    (replicate 6 None ++ [Some (cal_word 2024 2 29, time_word 0 0 0)]) [0; 0; 0; 0; 0].

Lemma torn_read :
  exists h t, RTC_GetDateAndTime (mkTime 0 0 0 0 0 0 0 0 0) midnight_hw = Ret (t, h) /\
    clock_at h 2024 2 29 0 0 0 /\
    (u32Month t, u32Day t, u32Hour t, u32Minute t, u32Second t) = (2, 28, 0, 0, 0).
Proof. eexists _, _. split; [vm_compute; reflexivity|]. split; [by split_and!|reflexivity]. Qed.

(** A registered driver, and 29 February 2024, 12:34:56. *)
Definition ready_device : rt_device rtc_fn :=
  mkDevice (Z.lor RT_Object_Class_Device RT_Object_Class_Static) (rt_strncpy name_rtc RT_NAME_MAX)
    RT_Device_Class_RTC RT_DEVICE_FLAG_RDWR 0 0 None None None None None (Some NU_RTC_CONTROL).

Definition ready_world : time_world :=
  mkTW [device_rtc] {[ device_rtc := ready_device ]} 0
    (mkRtc (fun _ => 0) true (Some O) [] [0; 0; Z.shiftl 1 29; 0; 0]) None None.

Lemma time_of_stime_witness :
  (exists w', stime (mkTime 7 7 7 12345 7 7 7 7 7) (mkTm 9 9 9 9 9 9 9 9 9) (Some 1709210096) ready_world
               = Ret (0, w') /\ clock_at (tw_hw w') 2024 2 29 12 34 56) /\
  exists w', stime (mkTime 7 7 7 12345 7 7 7 7 7) (mkTm 9 9 9 9 9 9 9 9 9) (Some 4102444800) ready_world
               = Ret (-1, w') /\ tw_errno w' = EFAULT.
Proof.
  assert (Hr : rtc_ready ready_world).
  { split_and!; [by vm_compute|done| | |done]; by right. }
  split.
  - destruct (time_of_stime (mkTime 7 7 7 12345 7 7 7 7 7) (mkTm 9 9 9 9 9 9 9 9 9) ready_world 1709210096 Hr)
      as [H _].
    destruct H as (w' & E & _); [unfold t_lower, t_upper; lia|]. exists w'. split; [exact E|].
    vm_compute in E. injection E as <-. by vm_compute.
  - destruct (time_of_stime (mkTime 7 7 7 12345 7 7 7 7 7) (mkTm 9 9 9 9 9 9 9 9 9) ready_world 4102444800 Hr)
      as [_ H].
    destruct H as (w' & E & _ & He & _); [unfold t_lower, t_upper; lia|]. by exists w'.
Defined.
