(* ===== verification/RtcBoot.v ===== *)
(** * Real-time clock: bringing it up

    The wait for the 32 kHz clock in [RTC_Open], and [rt_hw_rtc_init]. *)

From Stdlib Require Import ZArith Lia Bool.
From stdpp Require Import base tactics numbers list option gmap.
From S2P Require Import Prelude Device CTime Rtc RtcDrv RtcTime.

Open Scope Z_scope.

Definition set_wake (k : bool) (v : option nat) (h : RTC_Hw) : RTC_Hw :=
  mkRtc (reg h) k v (moves h) (CLK h).

(** The reads of INIT the code makes before it gives up: one, and ten million more. *)
Definition open_reads : nat := S (Z.to_nat 10000000).

(** [wake] after some reads of INIT. *)
Definition wake_after (reads : nat) (v : option nat) : option nat :=
  match v with Some n => Some (n - reads)%nat | None => None end.

Definition wakes_within (reads : nat) (v : option nat) : bool :=
  match v with Some n => (n <? reads)%nat | None => false end.

Lemma read_init_run v h :
  keyed h = true -> wake h = v ->
  rd INIT h = Ret (if wakes_within 1 v then RTC_INIT_ACTIVE_Msk else 0, set_wake true (wake_after 1 v) h).
Proof.
  destruct h as [f k w mv c]. cbn. intros -> ->. unfold read_init, set_wake. cbn.
  destruct v as [[|n]|]; cbn; [done|by rewrite Nat.sub_0_r|done].
Qed.

Lemma wake_after_S k v : wake_after k (wake_after 1 v) = wake_after (S k) v.
Proof. destruct v as [n|]; [|done]. cbn. f_equal. lia. Qed.

Lemma wakes_within_S k v :
  wakes_within 1 v = false -> wakes_within k (wake_after 1 v) = wakes_within (S k) v.
Proof.
  destruct v as [n|]; [|done]. unfold wakes_within, wake_after. intros H%Nat.ltb_ge.
  destruct (Nat.ltb_spec (n - 1) k), (Nat.ltb_spec n (S k)); done || lia.
Qed.

Lemma wakes_within_le j k v : (j <= k)%nat -> wakes_within j v = true -> wakes_within k v = true.
Proof. destruct v as [n|]; [|done]. unfold wakes_within. intros H E%Nat.ltb_lt. apply Nat.ltb_lt. lia. Qed.

(** The wait ends with success exactly when the block wakes within its reads. *)
Lemma wait_active_run k v h :
  keyed h = true -> wake h = v ->
  wait_active k h = Ret (wakes_within k v, set_wake true (wake_after k v) h).
Proof.
  revert v h. induction k as [|k IH]; intros v h Hk Hw.
  - cbn. unfold ret. destruct h as [f k w mv c], v as [n|]; cbn in *; subst; [|done].
    by rewrite Nat.sub_0_r.
  - cbn [wait_active]. rewrite (bind_Ret _ _ _ _ _ (read_init_run v h Hk Hw)).
    destruct (wakes_within 1 v) eqn:E.
    + change (tst RTC_INIT_ACTIVE_Msk RTC_INIT_ACTIVE_Msk) with true. cbn [negb]. unfold ret.
      rewrite (wakes_within_le 1 (S k) v) by (lia || done).
      destruct v as [[|n]|]; [done|cbn in E; done|done].
    + change (tst 0 RTC_INIT_ACTIVE_Msk) with false. cbn beta iota.
      rewrite (IH (wake_after 1 v)) by done. rewrite wake_after_S, wakes_within_S by done. done.
Qed.

(** [RTC_Open] without a date: 0 when the block wakes within the reads, otherwise -1. *)
Lemma rtc_open_run h :
  RTC_Open None h =
    if wakes_within open_reads (wake h)
    then Ret (0, set_wake true (wake_after open_reads (wake h)) h)
    else Ret (-1, set_wake true (wake_after open_reads (wake h)) h).
Proof.
  unfold RTC_Open. set (h1 := set_wake true (wake h) h).
  rewrite (bind_Ret _ _ h tt h1) by (unfold wr, h1, set_wake; by rewrite Z.eqb_refl, orb_true_r).
  rewrite (bind_Ret _ _ _ _ _ (read_init_run (wake h) h1 eq_refl eq_refl)).
  unfold open_reads. generalize (Z.to_nat 10000000). intros k.
  destruct (wakes_within 1 (wake h)) eqn:E.
  - change (tst RTC_INIT_ACTIVE_Msk RTC_INIT_ACTIVE_Msk) with true. cbv beta iota.
    rewrite bind_ret_l. cbn [negb].
    rewrite (wakes_within_le 1 (S k)) by (lia || done).
    unfold RTC_SetDateAndTime. rewrite bind_ret_l. unfold ret, set_wake. cbn.
    destruct (wake h) as [[|n]|]; [done|cbn in E; done|done].
  - change (tst 0 RTC_INIT_ACTIVE_Msk) with false. cbv beta iota. rewrite bind_assoc.
    set (h2 := set_wake true (wake_after 1 (wake h)) h1).
    rewrite (bind_Ret _ _ h2 tt h2) by done.
    rewrite (bind_Ret _ _ _ _ _ (wait_active_run k (wake_after 1 (wake h)) h2 eq_refl eq_refl)).
    rewrite wake_after_S, wakes_within_S by done.
    destruct (wakes_within (S k) (wake h)); done.
Qed.

Lemma enable_rtc_clock h v :
  znth (CLK h) CLK_APBCLK0 = Some v ->
  CLK_EnableModuleClock RTC_MODULE h =
    Ret (tt, mkRtc (reg h) (keyed h) (wake h) (moves h)
               (zupd (CLK h) CLK_APBCLK0 (Z.lor v CLK_APBCLK0_RTCCKEN_Msk))).
Proof.
  intros Hv. unfold CLK_EnableModuleClock, clk_update. change (MODULE_APBCLK RTC_MODULE) with CLK_APBCLK0.
  change (shl32 1 (MODULE_IP_EN_Pos RTC_MODULE)) with CLK_APBCLK0_RTCCKEN_Msk.
  rewrite bind_assoc, bind_get, (bind_deref _ _ _ _ Hv). done.
Qed.

Definition rtc_int_mask : Z :=
  Z.lor (Z.lor (Z.lor RTC_INTEN_ALMIEN_Msk RTC_INTEN_TICKIEN_Msk) RTC_INTEN_TAMP0IEN_Msk)
    RTC_INTEN_TAMP1IEN_Msk.

Lemma disable_int_run h mask :
  exists h', RTC_DisableInt mask h = Ret (tt, h') /\ moves h' = moves h /\ CLK h' = CLK h /\
    reg h' INTEN = Z.land (reg h INTEN) (not32 mask) /\
    reg h' INTSTS = Z.land (reg h INTSTS) (not32 mask).
Proof. eexists. split; [reflexivity|]. done. Qed.

Lemma land_not_mask x m : is_u32 m -> Z.land (Z.land x (not32 m)) m = 0.
Proof.
  intros Hm. apply Z.bits_inj'. intros i Hi. autorewrite with bits.
  destruct (Z.ltb_spec i 32); [|by rewrite (u32_high m), !andb_false_r].
  by destruct (Z.testbit x i), (Z.testbit m i).
Qed.

(** The board before the driver: the table of clock gates, no device called "rtc". *)
Definition unregistered (w : time_world) : Prop :=
  3 <= Z.of_nat (length (CLK (tw_hw w))) /\
  existsb (Nat.eqb device_rtc) (tw_objects w) = false /\
  find (named_rtc w) (tw_objects w) = None /\
  get_cache w = None /\ set_cache w = None /\ moves (tw_hw w) = [].

(** The clock gate of the RTC is open. *)
Definition rtc_clocked (w : time_world) : Prop :=
  exists v, znth (CLK (tw_hw w)) CLK_APBCLK0 = Some v /\ Z.testbit v 29 = true.

Section boot.
Context (hw : S_RTC_TIME_DATA_T) (in_tm : tm).

Lemma nu_rtc_init_run w :
  unregistered w ->
  exists h, nu_rtc_init w =
      Ret (if wakes_within open_reads (wake (tw_hw w)) then RT_EOK else - RT_ERROR, set_tw_hw h w) /\
    moves h = [] /\ rtc_clocked (set_tw_hw h w) /\
    (wakes_within open_reads (wake (tw_hw w)) = true ->
     Z.land (reg h INTEN) rtc_int_mask = 0 /\ Z.land (reg h INTSTS) rtc_int_mask = 0).
Proof.
  intros (Hl & _ & _ & _ & _ & Hm).
  destruct (znth_in_range (CLK (tw_hw w)) CLK_APBCLK0) as [v Hv]; [unfold CLK_APBCLK0; lia|].
  unfold nu_rtc_init.
  rewrite (bind_Ret _ _ _ _ _ (on_rtc_Ret _ _ _ _ (enable_rtc_clock _ _ Hv))).
  set (h1 := mkRtc _ _ _ _ _).
  assert (Hclk : exists v, znth (CLK h1) CLK_APBCLK0 = Some v /\ Z.testbit v 29 = true).
  { exists (Z.lor v CLK_APBCLK0_RTCCKEN_Msk). split.
    - apply znth_zupd_eq. unfold CLK_APBCLK0. lia.
    - rewrite Z.lor_spec. by rewrite orb_true_r. }
  pose proof (rtc_open_run h1) as Eo. change (wake h1) with (wake (tw_hw w)) in Eo.
  destruct (wakes_within open_reads (wake (tw_hw w))).
  - rewrite (bind_Ret _ _ _ _ _ (on_rtc_Ret _ _ _ (set_tw_hw h1 w) Eo)). cbn [Z.ltb Z.compare].
    edestruct disable_int_run as (h3 & E & Hm3 & Hc3 & Hi3 & Hs3).
    rewrite (bind_Ret _ _ _ _ _ (on_rtc_Ret _ _ _ (set_tw_hw _ (set_tw_hw h1 w)) E)).
    exists h3. split; [done|]. split; [by rewrite Hm3|].
    split; [unfold rtc_clocked; cbn; by rewrite Hc3|]. intros _.
    rewrite Hi3, Hs3. by split; apply land_not_mask.
  - rewrite (bind_Ret _ _ _ _ _ (on_rtc_Ret _ _ _ (set_tw_hw h1 w) Eo)). cbn [Z.ltb Z.compare].
    eexists. split; [done|]. split; [done|]. split; [done|]. done.
Qed.

(** The two assignments of [rt_hw_rtc_init] after a good start: the structure, then the
    registration. *)
Lemma register_run w :
  unregistered w ->
  exists w', (upd_dev (Devices0 := rtc_devices hw in_tm) device_rtc fill_device ;;
              rt_device_register (Devices0 := rtc_devices hw in_tm) (Some device_rtc) name_rtc
                RT_DEVICE_FLAG_RDWR) w = Ret (RT_EOK, w') /\
    rtc_ready w' /\ tw_hw w' = tw_hw w.
Proof.
  intros (_ & Hl & Hf & Hg & Hs & Hm). set (I := rtc_devices hw in_tm). unfold upd_dev at 1.
  rewrite bind_modify. set (w1 := set_device device_rtc _ w).
  assert (Hf1 : find (named_rtc w1) (tw_objects w1) = None).
  { rewrite <-Hf. apply find_ext. intros i. unfold named_rtc. do 2 f_equal.
    unfold w1, I, tw_device. cbn. destruct (decide (i = device_rtc)) as [->|Hi];
      [by rewrite lookup_insert_eq|by rewrite lookup_insert_ne by done]. }
  unfold rt_device_register, rt_device_find, rt_object_find. rewrite bind_gets.
  match goal with |- context [find ?f ?l] => change (find f l) with (find (named_rtc w1) (tw_objects w1)) end.
  rewrite Hf1. unfold rt_object_init, upd_dev. rewrite !bind_assoc, bind_gets, bind_assoc.
  change (objects w1) with (tw_objects w). rewrite Hl, bind_assert by done.
  rewrite !bind_assoc, !bind_modify. unfold ret. eexists. split; [reflexivity|].
  cbn [objects device set_device set_objects rtc_devices I tw_objects tw_devices tw_hw get_cache
       set_cache tw_errno set_tw_hw].
  unfold rtc_ready, finds, named_rtc, tw_device. cbn. rewrite !lookup_insert_eq. cbn.
  split; [|done]. split_and!; [by vm_compute|done| | |done]; right; split; try done.
Qed.
End boot.

(** C39: the start of the real-time clock always ends, and is decided by the 32 kHz clock.
    [rt_hw_rtc_init] returns RT_EOK exactly when the block reports that it runs within the
    10000001 reads of INIT the code makes; the device "rtc" is then registered and ready for
    [stime] and [time], and the alarm, tick and tamper interrupts are disabled with their
    flags cleared.  Otherwise, a block without clock included, it returns -1 and no device
    is registered or changed.  The clock gate of the RTC is open in both cases. *)
Theorem rtc_init_live hw in_tm w :
  unregistered w ->
  exists w', rtc_clocked w' /\
    if wakes_within open_reads (wake (tw_hw w)) then
      rt_hw_rtc_init hw in_tm w = Ret (RT_EOK, w') /\ rtc_ready w' /\
      Z.land (reg (tw_hw w') INTEN) rtc_int_mask = 0 /\ Z.land (reg (tw_hw w') INTSTS) rtc_int_mask = 0
    else
      rt_hw_rtc_init hw in_tm w = Ret (-1, w') /\
      tw_objects w' = tw_objects w /\ tw_devices w' = tw_devices w.
Proof.
  intros Hu. destruct (nu_rtc_init_run w Hu) as (h & E & Hm & Hc & Hint).
  unfold rt_hw_rtc_init. rewrite (bind_Ret _ _ _ _ _ E).
  destruct (wakes_within open_reads (wake (tw_hw w))) eqn:Ew; cbn [Z.eqb RT_EOK RT_ERROR Z.opp negb].
  - destruct Hc as (v & Hv & Hb).
    destruct (register_run hw in_tm (set_tw_hw h w)) as (w' & Er & Hr & Eh).
    { destruct Hu as (_ & Hl & Hf & Hg & Hs & _). split_and!; try done.
      apply znth_Some in Hv. unfold CLK_APBCLK0 in Hv. cbn in *. lia. }
    exists w'. unfold rtc_clocked. rewrite Eh. destruct (Hint eq_refl). split; [by exists v|]. by split_and!.
  - exists (set_tw_hw h w). by split_and!.
Qed.

(** ** Witnesses *)

(** A board just started: the calendar at some time, its clock running after 500 reads. *)
Definition hw0 : RTC_Hw :=
  mkRtc (fun r => match r with INTEN => 0x303 | CAL => 0x200101 | TIME => 0x125959 | _ => 0 end)
    false (Some 500%nat) [] [0; 0; 0; 0; 0].

Definition world0 : time_world := mkTW [] ∅ 0 hw0 None None.

Definition any_time : S_RTC_TIME_DATA_T := mkTime 7 7 7 12345 7 7 7 7 7.
Definition any_tm : tm := mkTm 9 9 9 9 9 9 9 9 9.

Lemma world0_unregistered : unregistered world0.
Proof. by split_and!. Defined.

Lemma rtc_init_live_witness :
  exists w', rt_hw_rtc_init any_time any_tm world0 = Ret (RT_EOK, w') /\ rtc_ready w'.
Proof.
  destruct (rtc_init_live any_time any_tm world0) as (w' & _ & H).
  - exact world0_unregistered.
  - assert (Hk : wakes_within open_reads (wake (tw_hw world0)) = true).
    { apply Nat.ltb_lt. unfold open_reads. lia. }
    rewrite Hk in H. exists w'. split; [apply H|apply H].
Defined.
