(* ===== verification/RingBuf.v ===== *)
(** * Ring buffers

    Models [rt-thread/components/drivers/ipc/ringbuffer.c] and
    [components/drivers/include/ipc/ringbuffer.h], apart from the two functions that
    allocate: the byte queue between interrupt handlers and threads of the serial, USB and
    audio drivers.  The two mirror bits are booleans, the two indices are fields of 15
    bits, and the pool is the list of its bytes. *)

From Stdlib Require Import ZArith Lia Bool.
From stdpp Require Import base tactics numbers list option.
From S2P Require Import Prelude.

Open Scope Z_scope.

Record rt_ringbuffer : Type := mkRb {
  buffer_ptr : list Z;
  read_mirror : bool;
  read_index : Z;
  write_mirror : bool;
  write_index : Z;
  buffer_size : Z
}.

(** The value of a field of 15 bits. *)
Definition u15 (x : Z) : Z := x mod 2 ^ 15.

Definition set_pool (b : list Z) (rb : rt_ringbuffer) : rt_ringbuffer :=
  mkRb b (read_mirror rb) (read_index rb) (write_mirror rb) (write_index rb) (buffer_size rb).
Definition set_read (m : bool) (i : Z) (rb : rt_ringbuffer) : rt_ringbuffer :=
  mkRb (buffer_ptr rb) m (u15 i) (write_mirror rb) (write_index rb) (buffer_size rb).
Definition set_write (m : bool) (i : Z) (rb : rt_ringbuffer) : rt_ringbuffer :=
  mkRb (buffer_ptr rb) (read_mirror rb) (read_index rb) m (u15 i) (buffer_size rb).

Inductive rt_ringbuffer_state : Type :=
| RT_RINGBUFFER_EMPTY
| RT_RINGBUFFER_FULL
| RT_RINGBUFFER_HALFFULL.

Definition rt_ringbuffer_status (rb : rt_ringbuffer) : rt_ringbuffer_state :=
  if read_index rb =? write_index rb then
    if eqb (read_mirror rb) (write_mirror rb) then RT_RINGBUFFER_EMPTY else RT_RINGBUFFER_FULL
  else RT_RINGBUFFER_HALFFULL.

Definition rt_ringbuffer_data_len (rb : rt_ringbuffer) : Z :=
  match rt_ringbuffer_status rb with
  | RT_RINGBUFFER_EMPTY => 0
  | RT_RINGBUFFER_FULL => u32 (buffer_size rb)
  | RT_RINGBUFFER_HALFFULL =>
      let wi := write_index rb in
      let ri := read_index rb in
      if ri <? wi then wi - ri else u32 (buffer_size rb - (ri - wi))
  end.

Definition i16 (x : Z) : Z := (x + 2 ^ 15) mod 2 ^ 16 - 2 ^ 15.

Definition rt_ringbuffer_space_len (rb : rt_ringbuffer) : Z :=
  buffer_size rb - i16 (rt_ringbuffer_data_len rb).

Definition rt_ringbuffer_get_size (rb : rt_ringbuffer) : Z := u16 (buffer_size rb).

Definition RB (A : Type) : Type := M rt_ringbuffer A.

(** [size] is the argument, an [rt_int16_t]; the pool is what the pointer points to. *)
Definition rt_ringbuffer_init (pool : list Z) (size : Z) : RB unit :=
  rt_assert (0 <? size) ;;
  modify (fun _ => mkRb pool false 0 false 0 (i16 (RT_ALIGN_DOWN size RT_ALIGN_SIZE))).

Definition rt_ringbuffer_reset : RB unit :=
  modify (fun rb => mkRb (buffer_ptr rb) false 0 false 0 (buffer_size rb)).

(** [rt_memcpy(&rb->buffer_ptr[d], &ptr[s], n)] *)
Definition copy_in (d : Z) (ptr : list Z) (s n : Z) : RB unit :=
  let! rb := get in
  let! bs := deref (ram_get ptr s n) in
  let! b := deref (ram_put (buffer_ptr rb) d bs) in
  modify (set_pool b).

(** The bytes of [rt_memcpy( , &rb->buffer_ptr[s], n)]. *)
Definition copy_out (s n : Z) : RB (list Z) :=
  let! rb := get in deref (ram_get (buffer_ptr rb) s n).

Definition rt_ringbuffer_put (ptr : list Z) (length : Z) : RB Z :=
  let! rb := get in
  let size := u16 (rt_ringbuffer_space_len rb) in
  if size =? 0 then ret 0
  else
    let length := if size <? length then size else length in
    let W := write_index rb in
    let room := buffer_size rb - W in
    if length <? room then
      copy_in W ptr 0 length ;;
      modify (set_write (write_mirror rb) (W + length)) ;;
      ret length
    else
      copy_in W ptr 0 room ;;
      copy_in 0 ptr room (length - room) ;;
      modify (set_write (negb (write_mirror rb)) (length - room)) ;;
      ret length.

Definition rt_ringbuffer_put_force (ptr : list Z) (length : Z) : RB Z :=
  let! rb := get in
  let space_length := u16 (rt_ringbuffer_space_len rb) in
  let W := write_index rb in
  let n := buffer_size rb in
  let '(ptr, length) := if n <? length then (drop (Z.to_nat (length - n)) ptr, n) else (ptr, length) in
  let room := n - W in
  if length <? room then
    copy_in W ptr 0 length ;;
    modify (set_write (write_mirror rb) (W + length)) ;;
    (if space_length <? length then modify (set_read (read_mirror rb) (W + length)) else ret tt) ;;
    ret length
  else
    copy_in W ptr 0 room ;;
    copy_in 0 ptr room (length - room) ;;
    modify (set_write (negb (write_mirror rb)) (length - room)) ;;
    let! rb' := get in
    (if space_length <? length then
       modify (set_read (if write_index rb' <=? read_index rb' then negb (read_mirror rb')
                         else read_mirror rb') (write_index rb'))
     else ret tt) ;;
    ret length.

(** The number of bytes read, and the bytes. *)
Definition rt_ringbuffer_get (length : Z) : RB (Z * list Z) :=
  let! rb := get in
  let size := rt_ringbuffer_data_len rb in
  if size =? 0 then ret (0, [])
  else
    let length := if size <? length then u16 size else length in
    let R := read_index rb in
    let room := buffer_size rb - R in
    if length <? room then
      let! bs := copy_out R length in
      modify (set_read (read_mirror rb) (R + length)) ;;
      ret (length, bs)
    else
      let! b1 := copy_out R room in
      let! b2 := copy_out 0 (length - room) in
      modify (set_read (negb (read_mirror rb)) (length - room)) ;;
      ret (length, b1 ++ b2).

(** The size and the position in the pool that [*ptr] points to, [None] for NULL. *)
Definition rt_ringbuffer_peek : RB (Z * option Z) :=
  let! rb := get in
  let size := rt_ringbuffer_data_len rb in
  if size =? 0 then ret (0, None)
  else
    let R := read_index rb in
    if size <? u32 (buffer_size rb - R) then
      modify (set_read (read_mirror rb) (R + u16 size)) ;; ret (size, Some R)
    else
      modify (set_read (negb (read_mirror rb)) 0) ;; ret (u32 (buffer_size rb - R), Some R).

Definition rt_ringbuffer_putchar (ch : Z) : RB Z :=
  let! rb := get in
  if rt_ringbuffer_space_len rb =? 0 then ret 0
  else
    copy_in (write_index rb) [ch] 0 1 ;;
    (if write_index rb =? buffer_size rb - 1
     then modify (set_write (negb (write_mirror rb)) 0)
     else modify (set_write (write_mirror rb) (write_index rb + 1))) ;;
    ret 1.

Definition rt_ringbuffer_putchar_force (ch : Z) : RB Z :=
  let! rb := get in
  let full := match rt_ringbuffer_status rb with RT_RINGBUFFER_FULL => true | _ => false end in
  copy_in (write_index rb) [ch] 0 1 ;;
  (if write_index rb =? buffer_size rb - 1 then
     modify (set_write (negb (write_mirror rb)) 0) ;;
     if full then modify (fun rb => set_read (negb (read_mirror rb)) (write_index rb) rb) else ret tt
   else
     modify (set_write (write_mirror rb) (write_index rb + 1)) ;;
     if full then modify (fun rb => set_read (read_mirror rb) (write_index rb) rb) else ret tt) ;;
  ret 1.

Definition rt_ringbuffer_getchar : RB (Z * option Z) :=
  let! rb := get in
  if rt_ringbuffer_data_len rb =? 0 then ret (0, None)
  else
    let! ch := copy_out (read_index rb) 1 in
    (if read_index rb =? buffer_size rb - 1
     then modify (set_read (negb (read_mirror rb)) 0)
     else modify (set_read (read_mirror rb) (read_index rb + 1))) ;;
    ret (1, head ch).
