(* ===== verification/RingQueue.v ===== *)
(** * Ring buffers as queues

    A ring buffer holds a queue of bytes; every operation on it does to the queue what its
    name says, whatever the position of the two indices. *)

From Stdlib Require Import ZArith Lia Bool.
From stdpp Require Import base tactics numbers list option.
From S2P Require Import Prelude RingBuf.

Open Scope Z_scope.

(** ** Bytes of a list *)

Definition len (b : list Z) : Z := Z.of_nat (length b).
Definition byte (b : list Z) (k : Z) : Z := nth (Z.to_nat k) b 0.

Lemma byte_lookup b k : 0 <= k < len b -> b !! Z.to_nat k = Some (byte b k).
Proof.
  intros H. unfold byte, len in *. destruct (nth_lookup_or_length b (Z.to_nat k) 0); [done|lia].
Qed.

Lemma list_eq_byte b1 b2 :
  len b1 = len b2 -> (forall k, 0 <= k < len b1 -> byte b1 k = byte b2 k) -> b1 = b2.
Proof.
  intros Hl H. unfold len in *. apply list_eq. intros i.
  destruct (Nat.lt_ge_cases i (length b1)).
  - rewrite <-(Nat2Z.id i), !byte_lookup by (unfold len; lia). by rewrite H by lia.
  - by rewrite !lookup_ge_None_2 by lia.
Qed.

Lemma byte_of_lookup b k x : b !! Z.to_nat k = Some x -> byte b k = x.
Proof. apply nth_lookup_Some. Qed.

Lemma len_app b1 b2 : len (b1 ++ b2) = len b1 + len b2.
Proof. unfold len. rewrite length_app. lia. Qed.
Lemma len_take n b : 0 <= n -> len (take (Z.to_nat n) b) = Z.min n (len b).
Proof. intros. unfold len. rewrite length_take. lia. Qed.
Lemma len_drop n b : 0 <= n -> len (drop (Z.to_nat n) b) = Z.max 0 (len b - n).
Proof. intros. unfold len. rewrite length_drop. lia. Qed.

Lemma byte_app b1 b2 k :
  0 <= k -> byte (b1 ++ b2) k = if k <? len b1 then byte b1 k else byte b2 (k - len b1).
Proof.
  intros Hk. unfold byte, len. destruct (Z.ltb_spec k (Z.of_nat (length b1))).
  - by rewrite app_nth1 by lia.
  - rewrite app_nth2 by lia. f_equal. lia.
Qed.

Lemma byte_drop n b k : 0 <= n -> 0 <= k -> byte (drop (Z.to_nat n) b) k = byte b (n + k).
Proof.
  intros. unfold byte. rewrite !nth_lookup, lookup_drop. do 2 f_equal. lia.
Qed.

Lemma byte_take n b k : 0 <= k < n -> byte (take (Z.to_nat n) b) k = byte b k.
Proof. intros. unfold byte. rewrite !nth_lookup. by rewrite lookup_take_lt by lia. Qed.

(** ** Loads and stores *)

Lemma put_Some b off bs :
  0 <= off -> off + len bs <= len b -> exists b', ram_put b off bs = Some b' /\ len b' = len b.
Proof.
  intros. unfold len in *. eexists. split; [by apply ram_put_Some|].
  rewrite !length_app, length_take, length_drop. lia.
Qed.

Lemma byte_put b off bs b' k :
  ram_put b off bs = Some b' -> 0 <= k ->
  byte b' k = if (off <=? k) && (k <? off + len bs) then byte bs (k - off) else byte b k.
Proof.
  intros H Hk. pose proof (ram_put_inv _ _ _ _ H) as [H0 H1]. unfold byte, len.
  rewrite !nth_lookup, (ram_put_lookup _ _ _ _ _ H).
  destruct (Z.leb_spec off k), (Z.ltb_spec k (off + Z.of_nat (length bs))); cbn [andb];
    case_decide; try lia; do 2 f_equal; lia.
Qed.

Lemma get_Some b off n :
  0 <= off -> 0 <= n -> off + n <= len b ->
  exists l, ram_get b off n = Some l /\ len l = n /\ forall k, 0 <= k < n -> byte l k = byte b (off + k).
Proof.
  intros. unfold len in *. eexists. split; [by apply ram_get_Some|]. split.
  - rewrite length_take, length_drop. lia.
  - intros k Hk. by rewrite byte_take, byte_drop by lia.
Qed.

(** ** The queue of a ring buffer *)

(** A position up to twice round the ring. *)
Definition pos (n x : Z) : Z := if x <? n then x else x - n.

Definition used (rb : rt_ringbuffer) : Z :=
  if eqb (read_mirror rb) (write_mirror rb) then write_index rb - read_index rb
  else buffer_size rb - (read_index rb - write_index rb).

Definition queue (rb : rt_ringbuffer) : list Z :=
  (fun i => byte (buffer_ptr rb) (pos (buffer_size rb) (read_index rb + i))) <$> seqZ 0 (used rb).

(** The indices lie in the ring, and the read index is not ahead of the write index. *)
Definition rb_ok (rb : rt_ringbuffer) : Prop :=
  0 < buffer_size rb < 2 ^ 15 /\ buffer_size rb <= len (buffer_ptr rb) /\
  0 <= read_index rb < buffer_size rb /\ 0 <= write_index rb < buffer_size rb /\
  0 <= used rb <= buffer_size rb.

Lemma len_queue rb : rb_ok rb -> len (queue rb) = used rb.
Proof. intros H. unfold len, queue. rewrite length_fmap, length_seqZ. destruct H; lia. Qed.

Lemma byte_queue rb k :
  0 <= k < used rb -> byte (queue rb) k = byte (buffer_ptr rb) (pos (buffer_size rb) (read_index rb + k)).
Proof.
  intros Hk. apply byte_of_lookup. unfold queue.
  rewrite list_lookup_fmap, lookup_seqZ_lt by lia. cbn. do 3 f_equal. lia.
Qed.

(** The write index is where the queue ends. *)
Lemma write_pos rb : rb_ok rb -> write_index rb = pos (buffer_size rb) (read_index rb + used rb).
Proof.
  intros (Hn & Hl & Hr & Hw & Hu). unfold used, pos in *.
  destruct (eqb (read_mirror rb) (write_mirror rb)); case_match; lia.
Qed.

(** Cases on the comparisons of the goal and the hypotheses, then arithmetic. *)
Ltac ring_cases :=
  unfold pos in *;
  repeat match goal with
         | |- context [if ?a <? ?b then _ else _] => destruct (Z.ltb_spec a b)
         | |- context [if ?a <=? ?b then _ else _] => destruct (Z.leb_spec a b)
         | H : context [if ?a <? ?b then _ else _] |- _ => destruct (Z.ltb_spec a b)
         | H : context [if ?a <=? ?b then _ else _] |- _ => destruct (Z.leb_spec a b)
         end; try lia.

(** *** Storing round the ring *)

(** [l] lies in the ring from [W] on; the other bytes are those of [b]. *)
Definition stored (n W : Z) (l b b' : list Z) : Prop :=
  len b' = len b /\
  forall k, 0 <= k < n ->
    byte b' k = let o := if W <=? k then k - W else k - W + n in
                if o <? len l then byte l o else byte b k.

Lemma stored_one n W l b b' :
  0 <= W -> W + len l <= n -> n <= len b -> ram_put b W l = Some b' -> stored n W l b b'.
Proof.
  intros HW Hl Hn H. pose proof (ram_put_length _ _ _ _ H) as Hlen. split; [unfold len; lia|].
  intros k Hk. rewrite (byte_put _ _ _ _ _ H) by lia. cbv zeta.
  destruct (Z.leb_spec W k), (Z.ltb_spec k (W + len l)); cbn [andb];
    match goal with |- context [?x <? len l] => destruct (Z.ltb_spec x (len l)) end; lia || done.
Qed.

Lemma stored_two n W l b b1 b2 (room := n - W) :
  0 <= W < n -> n <= len b -> room <= len l <= n ->
  ram_put b W (take (Z.to_nat room) l) = Some b1 ->
  ram_put b1 0 (drop (Z.to_nat room) l) = Some b2 -> stored n W l b b2.
Proof.
  intros HW Hn Hl H1 H2. unfold room in *.
  pose proof (ram_put_length _ _ _ _ H1) as L1. pose proof (ram_put_length _ _ _ _ H2) as L2.
  split; [unfold len; lia|]. intros k Hk.
  rewrite (byte_put _ _ _ _ _ H2), (byte_put _ _ _ _ _ H1), len_take, len_drop by lia. cbv zeta.
  destruct (Z.leb_spec 0 k); [|lia].
  destruct (Z.ltb_spec k (0 + Z.max 0 (len l - (n - W)))); cbn [andb].
  - destruct (Z.leb_spec W k); [lia|]. rewrite byte_drop by lia.
    destruct (Z.ltb_spec (k - W + n) (len l)); [f_equal; lia|lia].
  - destruct (Z.leb_spec W k).
    + destruct (Z.ltb_spec k (W + Z.min (n - W) (len l))); [|lia]. cbn [andb].
      destruct (Z.ltb_spec (k - W) (len l)); [|lia]. by rewrite byte_take by lia.
    + cbn [andb]. destruct (Z.ltb_spec (k - W + n) (len l)); [lia|done].
Qed.

(** The queue after bytes have been stored behind it and the read index has moved on by [d]. *)
Lemma queue_after rb rb' l d :
  rb_ok rb -> rb_ok rb' -> buffer_size rb' = buffer_size rb ->
  stored (buffer_size rb) (write_index rb) l (buffer_ptr rb) (buffer_ptr rb') ->
  0 <= d <= used rb -> used rb' = used rb + len l - d ->
  read_index rb' = pos (buffer_size rb) (read_index rb + d) ->
  queue rb' = drop (Z.to_nat d) (queue rb ++ l).
Proof.
  intros Hok Hok' Hn [_ Hst] Hd Hu Hr.
  pose proof (len_queue rb Hok) as Hq. pose proof (write_pos rb Hok) as Hw.
  assert (Hll : 0 <= len l) by (unfold len; lia).
  apply list_eq_byte; [rewrite len_drop, len_app, !len_queue by (lia || done); lia|].
  rewrite len_queue by done. intros k Hk.
  rewrite byte_drop, byte_app, byte_queue, Hq by lia. rewrite Hn, Hr.
  destruct Hok as (Hs & Hl & HR & HW & Hu0). destruct Hok' as (_ & _ & _ & _ & Hu0').
  rewrite Hn in Hu0'. set (n := buffer_size rb) in *.
  rewrite Hst by (clear Hst Hw; ring_cases). cbv zeta. rewrite Hw.
  destruct (Z.ltb_spec (d + k) (used rb)).
  - rewrite byte_queue by lia. fold n.
    match goal with |- (if ?x <? len l then _ else byte ?b ?i) = byte ?b ?j =>
      assert (Hx : len l <= x /\ i = j);
        [|destruct Hx as [Hx Hij]; destruct (Z.ltb_spec x (len l)); [lia|by rewrite Hij]] end.
    clear Hst Hw. ring_cases.
  - match goal with |- (if ?x <? len l then byte l ?x else _) = byte l ?j =>
      assert (Hx : x = j); [|rewrite Hx; destruct (Z.ltb_spec j (len l)); [done|lia]] end.
    clear Hst Hw. ring_cases.
Qed.

(** ** The operations *)

Lemma data_len_used rb : rb_ok rb -> rt_ringbuffer_data_len rb = used rb.
Proof.
  intros (Hn & _ & Hr & Hw & Hu). unfold rt_ringbuffer_data_len, rt_ringbuffer_status, used in *.
  assert (H32 : forall x, 0 <= x <= buffer_size rb -> u32 x = x)
    by (intros; apply u32_small; unfold is_u32; lia).
  destruct (Z.eqb_spec (read_index rb) (write_index rb)).
  - destruct (eqb (read_mirror rb) (write_mirror rb)); [lia|]. rewrite H32; lia.
  - destruct (Z.ltb_spec (read_index rb) (write_index rb)), (eqb (read_mirror rb) (write_mirror rb));
      rewrite ?H32; lia.
Qed.

Lemma space_len_free rb : rb_ok rb -> rt_ringbuffer_space_len rb = buffer_size rb - used rb.
Proof.
  intros H. unfold rt_ringbuffer_space_len. rewrite data_len_used by done.
  unfold i16. destruct H as (Hn & _ & _ & _ & Hu). rewrite Z.mod_small; lia.
Qed.

Lemma copy_in_run {B} d ptr s n bs b (k : unit -> RB B) rb :
  ram_get ptr s n = Some bs -> ram_put (buffer_ptr rb) d bs = Some b ->
  bind (copy_in d ptr s n) k rb = k tt (set_pool b rb).
Proof.
  intros Hg Hp. unfold copy_in. rewrite bind_assoc, bind_get, bind_assoc, (bind_deref _ _ _ _ Hg).
  by rewrite bind_assoc, (bind_deref _ _ _ _ Hp), bind_modify.
Qed.

Lemma store_short ptr L rb :
  rb_ok rb -> 0 <= L <= len ptr -> L < buffer_size rb - write_index rb ->
  exists b, (forall B (k : unit -> RB B), bind (copy_in (write_index rb) ptr 0 L) k rb = k tt (set_pool b rb)) /\
    stored (buffer_size rb) (write_index rb) (take (Z.to_nat L) ptr) (buffer_ptr rb) b.
Proof.
  intros (Hn & Hl & _ & Hw & _) HL Hr. unfold len in *.
  assert (Hg : ram_get ptr 0 L = Some (take (Z.to_nat L) ptr)) by (apply ram_get_Some; lia).
  assert (Ht : len (take (Z.to_nat L) ptr) = L) by (rewrite len_take by lia; unfold len; lia).
  destruct (put_Some (buffer_ptr rb) (write_index rb) (take (Z.to_nat L) ptr)) as (b & Hb & _);
    [lia|unfold len in *; lia|].
  exists b. split; [intros; by apply (copy_in_run _ _ _ _ _ _ _ _ Hg)|].
  apply stored_one; unfold len in *; lia || done.
Qed.

Lemma store_long ptr L rb (room := buffer_size rb - write_index rb) :
  rb_ok rb -> L <= len ptr -> room <= L <= buffer_size rb ->
  exists b, (forall B (k : unit -> RB B),
      bind (copy_in (write_index rb) ptr 0 room) (fun _ => bind (copy_in 0 ptr room (L - room)) k) rb
      = k tt (set_pool b rb)) /\
    stored (buffer_size rb) (write_index rb) (take (Z.to_nat L) ptr) (buffer_ptr rb) b.
Proof.
  intros (Hn & Hl & _ & Hw & _) HL Hr. set (l := take (Z.to_nat L) ptr).
  assert (Hlen : len l = L) by (unfold l; rewrite len_take by lia; lia).
  assert (Hg1 : ram_get ptr 0 room = Some (take (Z.to_nat room) l)).
  { rewrite ram_get_Some by (unfold len in *; lia). unfold l. rewrite take_take. do 2 f_equal. lia. }
  assert (Hg2 : ram_get ptr room (L - room) = Some (drop (Z.to_nat room) l)).
  { rewrite ram_get_Some by (unfold len in *; lia). unfold l. rewrite <-take_drop_commute || rewrite skipn_firstn_comm.
    do 2 f_equal. lia. }
  destruct (put_Some (buffer_ptr rb) (write_index rb) (take (Z.to_nat room) l)) as (b1 & Hb1 & L1);
    [lia|rewrite len_take by lia; lia|].
  destruct (put_Some b1 0 (drop (Z.to_nat room) l)) as (b2 & Hb2 & L2);
    [lia|rewrite len_drop by lia; lia|].
  exists b2. split; [|by apply (stored_two _ _ _ _ b1); lia || done].
  intros B k. rewrite (copy_in_run _ _ _ _ _ _ _ _ Hg1 Hb1).
  by rewrite (copy_in_run _ _ _ _ _ _ _ (set_pool b1 rb) Hg2 Hb2).
Qed.

(** The outcome of an operation: its result, the invariant, the same size, the new queue. *)
Definition gives {A} (m : RB A) (rb : rt_ringbuffer) (a : A) (q : list Z) : Prop :=
  exists rb', m rb = Ret (a, rb') /\ rb_ok rb' /\ buffer_size rb' = buffer_size rb /\ queue rb' = q.

Lemma u15_small x : 0 <= x < 2 ^ 15 -> u15 x = x.
Proof. apply Z.mod_small. Qed.

(** A ring buffer that differs in the pool and the indices, with the new queue. *)
Lemma gives_after {A} (m : RB A) rb rb' a l d :
  m rb = Ret (a, rb') -> rb_ok rb -> buffer_size rb' = buffer_size rb ->
  stored (buffer_size rb) (write_index rb) l (buffer_ptr rb) (buffer_ptr rb') ->
  0 <= d <= used rb -> used rb + len l - d <= buffer_size rb ->
  read_index rb' = pos (buffer_size rb) (read_index rb + d) ->
  write_index rb' = pos (buffer_size rb) (write_index rb + len l) ->
  eqb (read_mirror rb') (read_mirror rb) = (read_index rb + d <? buffer_size rb) ->
  eqb (write_mirror rb') (write_mirror rb) = (write_index rb + len l <? buffer_size rb) ->
  len l <= buffer_size rb ->
  gives m rb a (drop (Z.to_nat d) (queue rb ++ l)).
Proof.
  intros Hm Hok Hn Hst Hd Hle Hr Hw Hrm Hwm Hll. exists rb'. split; [done|].
  assert (Hl0 : 0 <= len l) by (unfold len; lia).
  assert (Hu : used rb' = used rb + len l - d).
  { pose proof Hok as (Hs & _ & HR & HW & Hu0). clear Hst Hm. unfold used in *. rewrite Hr, Hw, Hn.
    destruct (read_mirror rb), (read_mirror rb'), (write_mirror rb), (write_mirror rb'); cbn in *;
      symmetry in Hrm, Hwm; rewrite ?Z.ltb_lt, ?Z.ltb_ge in *; ring_cases. }
  assert (Hok' : rb_ok rb').
  { pose proof Hok as (Hs & Hp & HR & HW & Hu0). destruct Hst as [Hlb _].
    unfold rb_ok. rewrite Hn, Hlb, Hu, Hr, Hw. clear Hm Hrm Hwm. split_and!; ring_cases. }
  split; [done|]. split; [done|]. by apply queue_after.
Qed.

Lemma u15_u15 x : u15 (u15 x) = u15 x.
Proof. apply Z.mod_mod. lia. Qed.

Lemma eqb_negb_l b : eqb (negb b) b = false.
Proof. by destruct b. Qed.

Lemma gives_same {A} (m : RB A) rb a : m rb = Ret (a, rb) -> rb_ok rb -> gives m rb a (queue rb).
Proof. intros E H. by exists rb. Qed.

(** The side conditions of [gives_after], with the state written out. *)
Ltac ring_side :=
  cbn [read_mirror read_index write_mirror write_index buffer_size buffer_ptr set_read set_write set_pool];
  rewrite ?u15_u15, ?u15_small, ?eqb_reflx, ?eqb_negb_l by lia;
  try match goal with |- _ = (?a <? ?b) => destruct (Z.ltb_spec a b) end;
  ring_cases; rewrite ?eqb_reflx, ?eqb_negb_l; try done.

Lemma put_gives rb ptr L (k := Z.min L (buffer_size rb - used rb)) :
  rb_ok rb -> 0 <= L < 2 ^ 16 -> L <= len ptr ->
  gives (rt_ringbuffer_put ptr L) rb k (queue rb ++ take (Z.to_nat k) ptr).
Proof.
  intros Hok HL Hp. pose proof Hok as (Hn & Hl & HR & HW & Hu).
  assert (Hrun : rt_ringbuffer_put ptr L rb =
    (if buffer_size rb - used rb =? 0 then ret 0
     else if k <? buffer_size rb - write_index rb then
       copy_in (write_index rb) ptr 0 k ;; modify (set_write (write_mirror rb) (write_index rb + k)) ;; ret k
     else
       copy_in (write_index rb) ptr 0 (buffer_size rb - write_index rb) ;;
       copy_in 0 ptr (buffer_size rb - write_index rb) (k - (buffer_size rb - write_index rb)) ;;
       modify (set_write (negb (write_mirror rb)) (k - (buffer_size rb - write_index rb))) ;; ret k) rb).
  { unfold rt_ringbuffer_put. rewrite bind_get, space_len_free by done.
    unfold u16. rewrite Z.mod_small by lia.
    replace (if buffer_size rb - used rb <? L then buffer_size rb - used rb else L) with k; [done|].
    unfold k. destruct (Z.ltb_spec (buffer_size rb - used rb) L); lia. }
  destruct (Z.eqb_spec (buffer_size rb - used rb) 0) as [E|E].
  - replace k with 0 by lia. rewrite app_nil_r. by apply gives_same.
  - assert (Hk : 0 <= k <= L /\ used rb + k <= buffer_size rb) by lia.
    assert (Hlk : len (take (Z.to_nat k) ptr) = k) by (rewrite len_take; lia). clearbody k.
    destruct (Z.ltb_spec k (buffer_size rb - write_index rb)) as [Hr|Hr].
    + destruct (store_short ptr k rb Hok) as (b & Hrun' & Hst); [lia..|].
      rewrite Hrun', bind_modify in Hrun. rewrite <-(drop_0 (queue rb ++ _)).
      eapply (gives_after _ _ _ _ _ 0 Hrun); rewrite ?Hlk; try done; ring_side.
    + destruct (store_long ptr k rb Hok) as (b & Hrun' & Hst); [lia..|].
      rewrite Hrun', bind_modify in Hrun. rewrite <-(drop_0 (queue rb ++ _)).
      eapply (gives_after _ _ _ _ _ 0 Hrun); rewrite ?Hlk; try done; ring_side.
Qed.

(** The last [n] bytes. *)
Definition last_bytes (n : Z) (l : list Z) : list Z := drop (Z.to_nat (len l - n)) l.

(** After the cut to the size of the pool. *)
Lemma put_force_cut rb ptr L (d := Z.max 0 (used rb + L - buffer_size rb)) :
  rb_ok rb -> 0 <= L <= buffer_size rb -> len ptr = L ->
  gives (rt_ringbuffer_put_force ptr L) rb L (drop (Z.to_nat d) (queue rb ++ ptr)).
Proof.
  intros Hok HL Hp. pose proof Hok as (Hn & Hl & HR & HW & Hu).
  assert (Ht : take (Z.to_nat L) ptr = ptr) by (apply take_ge; unfold len in Hp; lia).
  assert (Hrun : rt_ringbuffer_put_force ptr L rb =
    (if L <? buffer_size rb - write_index rb then
       copy_in (write_index rb) ptr 0 L ;; modify (set_write (write_mirror rb) (write_index rb + L)) ;;
       (if buffer_size rb - used rb <? L then modify (set_read (read_mirror rb) (write_index rb + L)) else ret tt) ;;
       ret L
     else
       copy_in (write_index rb) ptr 0 (buffer_size rb - write_index rb) ;;
       copy_in 0 ptr (buffer_size rb - write_index rb) (L - (buffer_size rb - write_index rb)) ;;
       modify (set_write (negb (write_mirror rb)) (L - (buffer_size rb - write_index rb))) ;;
       let! rb' := get in
       (if buffer_size rb - used rb <? L then
          modify (set_read (if write_index rb' <=? read_index rb' then negb (read_mirror rb')
                            else read_mirror rb') (write_index rb'))
        else ret tt) ;;
       ret L) rb).
  { unfold rt_ringbuffer_put_force. rewrite bind_get, space_len_free by done.
    unfold u16. rewrite Z.mod_small by lia. destruct (Z.ltb_spec (buffer_size rb) L); [lia|done]. }
  destruct (Z.ltb_spec L (buffer_size rb - write_index rb)) as [Hr|Hr].
  - destruct (store_short ptr L rb Hok) as (b & Hrun' & Hst); [lia..|]. rewrite Ht in Hst.
    rewrite Hrun', bind_modify in Hrun.
    destruct (Z.ltb_spec (buffer_size rb - used rb) L) as [Hs|Hs].
    + rewrite bind_modify in Hrun. unfold used in Hs, Hu.
      destruct (eqb (read_mirror rb) (write_mirror rb)) eqn:Em; [lia|].
      eapply (gives_after _ _ _ _ _ d Hrun); rewrite ?Hp; unfold d, used; rewrite ?Em; try done; ring_side.
    + rewrite bind_ret_l in Hrun.
      eapply (gives_after _ _ _ _ _ d Hrun); rewrite ?Hp; unfold d; try done; ring_side.
  - destruct (store_long ptr L rb Hok) as (b & Hrun' & Hst); [lia..|]. rewrite Ht in Hst.
    rewrite Hrun', bind_modify, bind_get in Hrun.
    destruct (Z.ltb_spec (buffer_size rb - used rb) L) as [Hs|Hs].
    + rewrite bind_modify in Hrun. unfold used in Hs, Hu.
      cbn [read_mirror read_index write_mirror write_index set_write set_pool] in Hrun.
      rewrite u15_small in Hrun by lia.
      eapply (gives_after _ _ _ _ _ d Hrun); rewrite ?Hp; unfold d, used;
        destruct (eqb (read_mirror rb) (write_mirror rb)) eqn:Em; try done; ring_side.
    + rewrite bind_ret_l in Hrun.
      eapply (gives_after _ _ _ _ _ d Hrun); rewrite ?Hp; unfold d; try done; ring_side.
Qed.

Lemma put_force_gives rb l :
  rb_ok rb -> len l < 2 ^ 16 ->
  gives (rt_ringbuffer_put_force l (len l)) rb (Z.min (len l) (buffer_size rb))
    (last_bytes (buffer_size rb) (queue rb ++ l)).
Proof.
  intros Hok Hl. pose proof Hok as (Hn & _ & _ & _ & Hu).
  assert (H0 : 0 <= len l) by (unfold len; lia). unfold last_bytes. rewrite len_app, len_queue by done.
  destruct (Z.lt_ge_cases (buffer_size rb) (len l)) as [Hlt|Hge].
  - set (l' := drop (Z.to_nat (len l - buffer_size rb)) l).
    assert (Hl' : len l' = buffer_size rb) by (unfold l'; rewrite len_drop; lia).
    destruct (put_force_cut rb l' (buffer_size rb) Hok) as (rb' & E & Hok' & Hn' & Hq); [lia|done|].
    exists rb'. split; [|split; [done|split; [done|]]].
    + rewrite Z.min_r by lia. rewrite <-E. unfold rt_ringbuffer_put_force. rewrite !bind_get.
      destruct (Z.ltb_spec (buffer_size rb) (len l)); [|lia].
      by destruct (Z.ltb_spec (buffer_size rb) (buffer_size rb)); [lia|].
    + rewrite Hq. pose proof (len_queue rb Hok) as Hlq. unfold len in Hlq.
      rewrite !drop_app_ge by (unfold len in *; lia). unfold l'. rewrite drop_drop. f_equal.
      unfold len in *; lia.
  - rewrite Z.min_l by lia. replace (Z.to_nat (used rb + len l - buffer_size rb))
      with (Z.to_nat (Z.max 0 (used rb + len l - buffer_size rb))) by lia.
    by apply put_force_cut.
Qed.

Lemma stored_nil n W b : 0 <= W <= n -> stored n W [] b b.
Proof.
  intros H. split; [done|]. intros k Hk. cbv zeta. change (len []) with 0.
  destruct (Z.leb_spec W k);
    match goal with |- context [?x <? 0] => destruct (Z.ltb_spec x 0); [lia|done] end.
Qed.

(** The bytes at the head of the queue, read without going round. *)
Lemma copy_out_run {B} s n l (k : list Z -> RB B) rb :
  ram_get (buffer_ptr rb) s n = Some l -> bind (copy_out s n) k rb = k l rb.
Proof. intros H. unfold copy_out. by rewrite bind_assoc, bind_get, (bind_deref _ _ _ _ H). Qed.

Lemma head_bytes rb n :
  rb_ok rb -> 0 <= n <= used rb -> read_index rb + n <= buffer_size rb ->
  ram_get (buffer_ptr rb) (read_index rb) n = Some (take (Z.to_nat n) (queue rb)).
Proof.
  intros Hok Hn Hr. pose proof Hok as (Hs & Hl & HR & HW & Hu).
  destruct (get_Some (buffer_ptr rb) (read_index rb) n) as (l & Hg & Hlen & Hb); [lia..|].
  rewrite Hg. f_equal. apply list_eq_byte; [rewrite len_take, len_queue by (lia || done); lia|].
  intros k Hk. rewrite Hb, byte_take, byte_queue by lia. f_equal. ring_cases.
Qed.

Lemma tail_bytes rb n (room := buffer_size rb - read_index rb) :
  rb_ok rb -> room <= n <= used rb ->
  ram_get (buffer_ptr rb) 0 (n - room) = Some (take (Z.to_nat (n - room)) (drop (Z.to_nat room) (queue rb))).
Proof.
  intros Hok Hn. pose proof Hok as (Hs & Hl & HR & HW & Hu).
  destruct (get_Some (buffer_ptr rb) 0 (n - room)) as (l & Hg & Hlen & Hb); [lia..|].
  rewrite Hg. f_equal. apply list_eq_byte.
  { rewrite len_take, len_drop, len_queue by (lia || done). lia. }
  intros k Hk. rewrite Hb, byte_take, byte_drop, byte_queue by lia. f_equal. unfold room in *. ring_cases.
Qed.

Lemma get_gives rb L (k := Z.min L (used rb)) :
  rb_ok rb -> 0 <= L < 2 ^ 16 ->
  gives (rt_ringbuffer_get L) rb (k, take (Z.to_nat k) (queue rb)) (drop (Z.to_nat k) (queue rb)).
Proof.
  intros Hok HL. pose proof Hok as (Hn & Hl & HR & HW & Hu).
  unfold rt_ringbuffer_get. set (m := bind _ _).
  assert (Hrun : m rb =
    (if used rb =? 0 then ret (0, [])
     else if k <? buffer_size rb - read_index rb then
       let! bs := copy_out (read_index rb) k in
       modify (set_read (read_mirror rb) (read_index rb + k)) ;; ret (k, bs)
     else
       let! b1 := copy_out (read_index rb) (buffer_size rb - read_index rb) in
       let! b2 := copy_out 0 (k - (buffer_size rb - read_index rb)) in
       modify (set_read (negb (read_mirror rb)) (k - (buffer_size rb - read_index rb))) ;;
       ret (k, b1 ++ b2)) rb).
  { unfold m. rewrite bind_get, data_len_used by done.
    replace (if used rb <? L then u16 (used rb) else L) with k; [done|].
    unfold k, u16. destruct (Z.ltb_spec (used rb) L); [rewrite Z.mod_small|]; lia. }
  clearbody m. destruct (Z.eqb_spec (used rb) 0) as [E|E].
  - replace k with 0 by lia. by apply gives_same.
  - assert (Hk : 0 <= k <= used rb) by lia. clearbody k.
    rewrite <-(app_nil_r (queue rb)) at 2.
    pose proof (stored_nil (buffer_size rb) (write_index rb) (buffer_ptr rb) ltac:(lia)) as Hst.
    destruct (Z.ltb_spec k (buffer_size rb - read_index rb)) as [Hr|Hr].
    + rewrite (copy_out_run _ _ _ _ _ (head_bytes rb k Hok Hk ltac:(lia))), bind_modify in Hrun.
      eapply (gives_after _ _ _ _ _ k Hrun); change (len []) with 0; try done; ring_side.
    + rewrite (copy_out_run _ _ _ _ _ (head_bytes rb (buffer_size rb - read_index rb) Hok
        ltac:(lia) ltac:(lia))) in Hrun.
      rewrite (copy_out_run _ _ _ _ _ (tail_bytes rb k Hok ltac:(lia))), bind_modify in Hrun.
      replace (take (Z.to_nat (buffer_size rb - read_index rb)) (queue rb) ++ _)
        with (take (Z.to_nat k) (queue rb)) in Hrun.
      * eapply (gives_after _ _ _ _ _ k Hrun); change (len []) with 0; try done; ring_side.
      * rewrite <-(take_drop (Z.to_nat (buffer_size rb - read_index rb)) (take (Z.to_nat k) (queue rb))).
        rewrite take_take, skipn_firstn_comm. do 2 f_equal; lia.
Qed.

Lemma peek_gives rb (k := Z.min (used rb) (buffer_size rb - read_index rb)) :
  rb_ok rb ->
  gives rt_ringbuffer_peek rb (k, if used rb =? 0 then None else Some (read_index rb))
    (drop (Z.to_nat k) (queue rb)) /\
  ram_get (buffer_ptr rb) (read_index rb) k = Some (take (Z.to_nat k) (queue rb)).
Proof.
  intros Hok. pose proof Hok as (Hn & Hl & HR & HW & Hu). split; [|apply head_bytes; lia || done].
  unfold rt_ringbuffer_peek. set (m := bind _ _).
  assert (Hrun : m rb =
    (if used rb =? 0 then ret (0, None)
     else if used rb <? buffer_size rb - read_index rb then
       modify (set_read (read_mirror rb) (read_index rb + used rb)) ;; ret (used rb, Some (read_index rb))
     else modify (set_read (negb (read_mirror rb)) 0) ;;
          ret (buffer_size rb - read_index rb, Some (read_index rb))) rb).
  { unfold m. rewrite bind_get, data_len_used by done. rewrite u32_small by (unfold is_u32; lia).
    unfold u16. by rewrite Z.mod_small by lia. }
  clearbody m. destruct (Z.eqb_spec (used rb) 0) as [E|E].
  - replace k with 0 by lia. by apply gives_same.
  - rewrite <-(app_nil_r (queue rb)).
    pose proof (stored_nil (buffer_size rb) (write_index rb) (buffer_ptr rb) ltac:(lia)) as Hst.
    destruct (Z.ltb_spec (used rb) (buffer_size rb - read_index rb)) as [Hr|Hr].
    + replace k with (used rb) by lia. rewrite bind_modify in Hrun.
      eapply (gives_after _ _ _ _ _ (used rb) Hrun); change (len []) with 0; try done; ring_side.
    + replace k with (buffer_size rb - read_index rb) by lia. rewrite bind_modify in Hrun.
      eapply (gives_after _ _ _ _ _ (buffer_size rb - read_index rb) Hrun); change (len []) with 0;
        try done; ring_side.
Qed.

(** A byte stored at the write index. *)
Lemma store_char c rb :
  rb_ok rb ->
  exists b, (forall B (k : unit -> RB B), bind (copy_in (write_index rb) [c] 0 1) k rb = k tt (set_pool b rb)) /\
    stored (buffer_size rb) (write_index rb) [c] (buffer_ptr rb) b.
Proof.
  intros (Hn & Hl & HR & HW & Hu).
  destruct (put_Some (buffer_ptr rb) (write_index rb) [c]) as (b & Hb & _); [lia|change (len [c]) with 1; lia|].
  exists b. split; [intros; by apply (copy_in_run _ _ _ _ [c])|].
  apply stored_one; change (len [c]) with 1; lia || done.
Qed.

Lemma putchar_gives rb c :
  rb_ok rb ->
  gives (rt_ringbuffer_putchar c) rb (if used rb =? buffer_size rb then 0 else 1)
    (if used rb =? buffer_size rb then queue rb else queue rb ++ [c]).
Proof.
  intros Hok. pose proof Hok as (Hn & Hl & HR & HW & Hu).
  unfold rt_ringbuffer_putchar. set (m := bind _ _).
  assert (Hrun : m rb = (if used rb =? buffer_size rb then ret 0 else
    copy_in (write_index rb) [c] 0 1 ;;
    (if write_index rb =? buffer_size rb - 1
     then modify (set_write (negb (write_mirror rb)) 0)
     else modify (set_write (write_mirror rb) (write_index rb + 1))) ;; ret 1) rb).
  { unfold m. rewrite bind_get, space_len_free by done.
    by destruct (Z.eqb_spec (buffer_size rb - used rb) 0), (Z.eqb_spec (used rb) (buffer_size rb)); try lia. }
  clearbody m. destruct (Z.eqb_spec (used rb) (buffer_size rb)) as [E|E]; [by apply gives_same|].
  destruct (store_char c rb Hok) as (b & Hrun' & Hst). rewrite Hrun' in Hrun.
  rewrite <-(drop_0 (queue rb ++ [c])). change (drop 0) with (drop (A := Z) (Z.to_nat 0)).
  destruct (Z.eqb_spec (write_index rb) (buffer_size rb - 1)) as [Ew|Ew]; rewrite bind_modify in Hrun;
    eapply (gives_after _ _ _ _ _ 0 Hrun); change (len [c]) with 1; try done; ring_side.
Qed.

Lemma putchar_force_gives rb c :
  rb_ok rb ->
  gives (rt_ringbuffer_putchar_force c) rb 1 (last_bytes (buffer_size rb) (queue rb ++ [c])).
Proof.
  intros Hok. pose proof Hok as (Hn & Hl & HR & HW & Hu).
  unfold last_bytes. rewrite len_app, len_queue by done. change (len [c]) with 1.
  set (full := used rb =? buffer_size rb).
  replace (Z.to_nat (used rb + 1 - buffer_size rb)) with (Z.to_nat (if full then 1 else 0))
    by (unfold full; destruct (Z.eqb_spec (used rb) (buffer_size rb)); lia).
  unfold rt_ringbuffer_putchar_force. set (m := bind _ _). destruct (store_char c rb Hok) as (b & Hrun' & Hst).
  assert (Hrun : m rb = ((if write_index rb =? buffer_size rb - 1 then
     modify (set_write (negb (write_mirror rb)) 0) ;;
     if full then modify (fun rb => set_read (negb (read_mirror rb)) (write_index rb) rb) else ret tt
   else
     modify (set_write (write_mirror rb) (write_index rb + 1)) ;;
     if full then modify (fun rb => set_read (read_mirror rb) (write_index rb) rb) else ret tt) ;; ret 1)
   (set_pool b rb)).
  { unfold m. rewrite bind_get, Hrun'. unfold full, rt_ringbuffer_status, used.
    destruct (Z.eqb_spec (read_index rb) (write_index rb)) as [E|E].
    - destruct (eqb (read_mirror rb) (write_mirror rb)).
      + destruct (Z.eqb_spec (write_index rb - read_index rb) (buffer_size rb)); [lia|done].
      + destruct (Z.eqb_spec (buffer_size rb - (read_index rb - write_index rb)) (buffer_size rb)); [done|lia].
    - unfold used in Hu. destruct (eqb (read_mirror rb) (write_mirror rb)).
      + destruct (Z.eqb_spec (write_index rb - read_index rb) (buffer_size rb)); [lia|done].
      + destruct (Z.eqb_spec (buffer_size rb - (read_index rb - write_index rb)) (buffer_size rb)); [lia|done]. }
  clearbody m. unfold full in *. pose proof (write_pos rb Hok) as Hw.
  destruct (Z.eqb_spec (used rb) (buffer_size rb)) as [E|E];
    destruct (Z.eqb_spec (write_index rb) (buffer_size rb - 1)) as [Ew|Ew];
    rewrite ?bind_assoc, ?bind_modify, ?bind_ret_l in Hrun;
    cbn [read_mirror read_index write_mirror write_index set_write set_pool] in Hrun;
    eapply (gives_after _ _ _ _ _ _ Hrun); change (len [c]) with 1; try done; ring_side.
Qed.

Lemma getchar_gives rb :
  rb_ok rb ->
  gives rt_ringbuffer_getchar rb
    (match queue rb with [] => (0, None) | c :: _ => (1, Some c) end) (tail (queue rb)).
Proof.
  intros Hok. pose proof Hok as (Hn & Hl & HR & HW & Hu). pose proof (len_queue rb Hok) as Hq.
  unfold rt_ringbuffer_getchar. set (m := bind _ _).
  assert (Hrun : m rb = (if used rb =? 0 then ret (0, None) else
    let! ch := copy_out (read_index rb) 1 in
    (if read_index rb =? buffer_size rb - 1
     then modify (set_read (negb (read_mirror rb)) 0)
     else modify (set_read (read_mirror rb) (read_index rb + 1))) ;; ret (1, head ch)) rb).
  { unfold m. by rewrite bind_get, data_len_used. }
  clearbody m. destruct (Z.eqb_spec (used rb) 0) as [E|E].
  - assert (Hq0 : queue rb = []) by (destruct (queue rb); [done|]; cbn in Hq; unfold len in Hq; cbn in Hq; lia).
    rewrite Hq0. cbn [tail]. rewrite <-Hq0. by apply gives_same.
  - rewrite (copy_out_run _ _ _ _ _ (head_bytes rb 1 Hok ltac:(lia) ltac:(lia))) in Hrun.
    pose proof (stored_nil (buffer_size rb) (write_index rb) (buffer_ptr rb) ltac:(lia)) as Hst.
    destruct (queue rb) as [|c q] eqn:Eq; [unfold len in Hq; cbn in Hq; lia|].
    change (tail (c :: q)) with (drop (Z.to_nat 1) (c :: q)). rewrite <-(app_nil_r (c :: q)), <-Eq.
    destruct (Z.eqb_spec (read_index rb) (buffer_size rb - 1)) as [Ew|Ew]; rewrite bind_modify in Hrun;
      eapply (gives_after _ _ _ _ _ 1 Hrun); change (len []) with 0; try done; ring_side.
Qed.

Lemma reset_gives rb : rb_ok rb -> gives rt_ringbuffer_reset rb tt [].
Proof.
  intros (Hn & Hl & HR & HW & Hu). eexists. split; [reflexivity|].
  split; [|done]. unfold rb_ok, used. cbn. lia.
Qed.

(** ** Refinement of a bounded queue *)

Inductive rb_op : Type :=
| OpPut (l : list Z)
| OpPutForce (l : list Z)
| OpGet (n : Z)
| OpPeek
| OpPutchar (c : Z)
| OpPutcharForce (c : Z)
| OpGetchar
| OpDataLen
| OpReset.

(** The number returned and the bytes handed to the caller; after [peek] the caller reads
    as many bytes through the pointer as the result says. *)
Definition run_op (op : rb_op) : RB (Z * list Z) :=
  match op with
  | OpPut l => let! r := rt_ringbuffer_put l (len l) in ret (r, [])
  | OpPutForce l => let! r := rt_ringbuffer_put_force l (len l) in ret (r, [])
  | OpGet n => rt_ringbuffer_get n
  | OpPeek =>
      let! '(k, p) := rt_ringbuffer_peek in
      match p with
      | None => ret (k, [])
      | Some off => let! bs := copy_out off k in ret (k, bs)
      end
  | OpPutchar c => let! r := rt_ringbuffer_putchar c in ret (r, [])
  | OpPutcharForce c => let! r := rt_ringbuffer_putchar_force c in ret (r, [])
  | OpGetchar =>
      let! '(r, c) := rt_ringbuffer_getchar in
      ret (r, match c with Some c => [c] | None => [] end)
  | OpDataLen => gets (fun rb => (rt_ringbuffer_data_len rb, []))
  | OpReset => rt_ringbuffer_reset ;; ret (0, [])
  end.

Fixpoint run_ops (ops : list rb_op) : RB (list (Z * list Z)) :=
  match ops with
  | [] => ret []
  | op :: ops' => let! r := run_op op in let! rs := run_ops ops' in ret (r :: rs)
  end.

(** Lengths are [rt_uint16_t]. *)
Definition op_ok (op : rb_op) : Prop :=
  match op with
  | OpPut l | OpPutForce l => len l < 2 ^ 16
  | OpGet n => 0 <= n < 2 ^ 16
  | _ => True
  end.

(** The queue of at most [n] bytes: what an operation returns and leaves.  [peek] takes a
    part of the queue from its head; how long it is depends on where the bytes lie. *)
Inductive queue_step (n : Z) : rb_op -> list Z -> Z * list Z -> list Z -> Prop :=
| q_put l q k : k = Z.min (len l) (n - len q) ->
    queue_step n (OpPut l) q (k, []) (q ++ take (Z.to_nat k) l)
| q_put_force l q :
    queue_step n (OpPutForce l) q (Z.min (len l) n, []) (last_bytes n (q ++ l))
| q_get m q k : k = Z.min m (len q) ->
    queue_step n (OpGet m) q (k, take (Z.to_nat k) q) (drop (Z.to_nat k) q)
| q_peek q k : 0 <= k <= len q -> (q <> [] -> 0 < k) ->
    queue_step n OpPeek q (k, take (Z.to_nat k) q) (drop (Z.to_nat k) q)
| q_putchar c q : len q < n -> queue_step n (OpPutchar c) q (1, []) (q ++ [c])
| q_putchar_full c q : len q = n -> queue_step n (OpPutchar c) q (0, []) q
| q_putchar_force c q :
    queue_step n (OpPutcharForce c) q (1, []) (last_bytes n (q ++ [c]))
| q_getchar_empty : queue_step n OpGetchar [] (0, []) []
| q_getchar c q : queue_step n OpGetchar (c :: q) (1, [c]) q
| q_data_len q : queue_step n OpDataLen q (len q, []) q
| q_reset q : queue_step n OpReset q (0, []) [].

Inductive queue_run (n : Z) : list rb_op -> list Z -> list (Z * list Z) -> list Z -> Prop :=
| q_done q : queue_run n [] q [] q
| q_next op ops q r q1 rs q2 :
    queue_step n op q r q1 -> queue_run n ops q1 rs q2 -> queue_run n (op :: ops) q (r :: rs) q2.

Lemma gives_bind {A B} (m : RB A) (f : A -> B) rb a q :
  gives m rb a q -> gives (let! x := m in ret (f x)) rb (f a) q.
Proof. intros (rb' & E & H). exists rb'. split; [by rewrite (bind_Ret _ _ _ _ _ E)|done]. Qed.

Lemma peek_op rb (k := Z.min (used rb) (buffer_size rb - read_index rb)) :
  rb_ok rb -> gives (run_op OpPeek) rb (k, take (Z.to_nat k) (queue rb)) (drop (Z.to_nat k) (queue rb)).
Proof.
  intros Hok. pose proof Hok as (Hn & Hl & HR & HW & Hu).
  destruct (peek_gives rb Hok) as [(rb' & E & Hok' & Hn' & Hq) Hg].
  fold k in E, Hq, Hg.
  exists rb'. cbn [run_op]. rewrite (bind_Ret _ _ _ _ _ E). destruct (Z.eqb_spec (used rb) 0) as [E0|E0].
  - split; [|done]. by replace k with 0 by lia.
  - split; [|done]. rewrite (copy_out_run _ _ (take (Z.to_nat k) (queue rb))); [done|].
    rewrite <-Hg. f_equal. clear -E. unfold rt_ringbuffer_peek in E.
    rewrite bind_get in E. repeat case_match; cbn in E; inversion E; subst; done.
Qed.

Lemma op_refines rb op :
  rb_ok rb -> op_ok op ->
  exists r q, gives (run_op op) rb r q /\ queue_step (buffer_size rb) op (queue rb) r q.
Proof.
  intros Hok Hop. pose proof (len_queue rb Hok) as Hq. pose proof Hok as (Hn & Hl & HR & HW & Hu).
  assert (Hlen : forall l, 0 <= len l) by (intros; unfold len; lia).
  destruct op as [l|l|m| |c|c| | |]; cbn [op_ok] in Hop.
  - eexists _, _. split; [apply (gives_bind _ (fun r => (r, []))), put_gives; done || lia|].
    apply q_put. by rewrite Hq.
  - eexists _, _. split; [by apply (gives_bind _ (fun r => (r, []))), put_force_gives|]. apply q_put_force.
  - eexists _, _. split; [by apply get_gives|]. apply q_get. by rewrite Hq.
  - eexists _, _. split; [by apply peek_op|]. apply q_peek; [lia|].
    intros Hne. destruct (queue rb); [done|]. unfold len in Hq. cbn in Hq. lia.
  - eexists _, _. split; [by apply (gives_bind _ (fun r => (r, []))), putchar_gives|].
    destruct (Z.eqb_spec (used rb) (buffer_size rb)); [apply q_putchar_full|apply q_putchar]; lia.
  - eexists _, _. split; [by apply (gives_bind _ (fun r => (r, []))), putchar_force_gives|].
    apply q_putchar_force.
  - destruct (getchar_gives rb Hok) as (rb' & E & H). cbn [run_op].
    destruct (queue rb) as [|c q].
    + exists (0, []), []. split; [|apply q_getchar_empty].
      exists rb'. rewrite (bind_Ret _ _ rb (0, None) rb') by done. by split.
    + exists (1, [c]), q. split; [|apply q_getchar].
      exists rb'. rewrite (bind_Ret _ _ rb (1, Some c) rb') by done. by split.
  - eexists (used rb, []), _. split; [|rewrite <-Hq; apply q_data_len].
    apply gives_same; [|done]. cbn [run_op]. unfold gets. by rewrite data_len_used.
  - eexists _, _. split; [apply (gives_bind _ (fun _ : unit => (0, [])) _ tt); by apply reset_gives|]. apply q_reset.
Qed.

(** C40: a ring buffer is a bounded queue of bytes.  A buffer initialised with 64 to 32767
    bytes holds [size] rounded down to a multiple of 64, and after that any sequence of
    [put], [put_force], [get], [peek], [putchar], [putchar_force], [getchar], [data_len] and
    [reset] returns and delivers exactly what the same sequence on a queue of that capacity
    does: bytes come out in the order they went in, none twice; a plain [put] keeps what fits
    and reports it, a forced one keeps the last bytes; nothing touches memory outside the
    pool and the invariant of the two indices holds again. *)
Theorem ring_refines_queue pool size ops rb0 :
  64 <= size < 2 ^ 15 -> size <= len pool -> Forall op_ok ops ->
  exists rs rb, (rt_ringbuffer_init pool size ;; run_ops ops) rb0 = Ret (rs, rb) /\
    rb_ok rb /\ buffer_size rb = size - size mod 64 /\
    queue_run (size - size mod 64) ops [] rs (queue rb).
Proof.
  intros Hs Hp Hops. unfold rt_ringbuffer_init. rewrite bind_assoc, bind_assert, bind_modify by (apply Z.ltb_lt; lia).
  set (rb1 := mkRb pool false 0 false 0 _).
  assert (Hn : buffer_size rb1 = size - size mod 64).
  { cbn. unfold RT_ALIGN_DOWN, RT_ALIGN_SIZE. change (Z.lnot (64 - 1)) with (Z.lnot (Z.ones 6)).
    rewrite <-Z.ldiff_land, Z.ldiff_ones_r, Z.shiftr_div_pow2, Z.shiftl_mul_pow2 by lia.
    change (2 ^ 6) with 64. unfold i16. rewrite Z.mod_small; Z.div_mod_to_equations; lia. }
  assert (Hok : rb_ok rb1).
  { unfold rb_ok. rewrite Hn. unfold used, rb1. cbn [buffer_ptr read_index write_index read_mirror write_mirror eqb].
    Z.div_mod_to_equations. lia. }
  assert (Hq : queue rb1 = []) by done. rewrite <-Hq, <-Hn.
  clearbody rb1. clear Hq Hn Hs Hp. revert rb1 Hok.
  induction Hops as [|op ops Hop _ IH]; intros rb1 Hok; cbn [run_ops].
  - exists [], rb1. split; [done|]. split; [done|]. split; [done|]. apply q_done.
  - destruct (op_refines rb1 op Hok Hop) as (r & q & (rb2 & E & Hok2 & Hn2 & Hq2) & Hstep).
    rewrite (bind_Ret _ _ _ _ _ E). destruct (IH rb2 Hok2) as (rs & rb3 & E3 & Hok3 & Hn3 & Hrun).
    rewrite (bind_Ret _ _ _ _ _ E3). exists (r :: rs), rb3. split; [done|]. split; [done|].
    split; [congruence|]. rewrite Hn2, Hq2 in Hrun. by eapply q_next.
Qed.

(** A pool of 100 bytes, of which 64 are used, and operations that go round it. *)
Lemma ring_refines_queue_witness :
  exists rs rb,
    (rt_ringbuffer_init (replicate 100 7) 100 ;;
     run_ops [OpPut (seqZ 1 50); OpGet 45; OpPut (seqZ 51 70); OpPeek; OpPutcharForce 9; OpGetchar; OpDataLen])
      (mkRb [] true 3 false 4 0) = Ret (rs, rb) /\
    queue_run 64 [OpPut (seqZ 1 50); OpGet 45; OpPut (seqZ 51 70); OpPeek; OpPutcharForce 9; OpGetchar;
                  OpDataLen] [] rs (queue rb) /\
    rs = [(50, []); (45, seqZ 1 45); (59, []); (19, seqZ 46 19); (1, []); (1, [65]); (45, [])].
Proof.
  destruct (ring_refines_queue (replicate 100 7) 100
    [OpPut (seqZ 1 50); OpGet 45; OpPut (seqZ 51 70); OpPeek; OpPutcharForce 9; OpGetchar; OpDataLen]
    (mkRb [] true 3 false 4 0)) as (rs & rb & E & _ & _ & Hrun).
  - lia.
  - by vm_compute.
  - repeat constructor; by vm_compute.
  - exists rs, rb. split; [exact E|]. split; [exact Hrun|]. vm_compute in E. by injection E as <- _.
Defined.

(** The sizes 1 to 63 pass the assertion and leave no room at all: every [put] stores
    nothing, while [putchar_force] writes in front of an empty ring. *)
Lemma small_ring pool size rb0 :
  0 < size < 64 ->
  rt_ringbuffer_init pool size rb0 = Ret (tt, mkRb pool false 0 false 0 0).
Proof.
  intros H. unfold rt_ringbuffer_init. rewrite bind_assert by (apply Z.ltb_lt; lia).
  unfold modify. do 3 f_equal. unfold RT_ALIGN_DOWN, RT_ALIGN_SIZE.
  change (Z.lnot (64 - 1)) with (Z.lnot (Z.ones 6)).
  rewrite <-Z.ldiff_land, Z.ldiff_ones_r, Z.shiftr_div_pow2, Z.shiftl_mul_pow2 by lia.
  change (2 ^ 6) with 64. rewrite Z.div_small by lia. done.
Qed.
