(* ===== verification/I2c.v ===== *)
(** * I2C: controller, driver and bus functions

    Models [libraries/ma35/rtt_port/drv_i2c.c] with the parts of
    [libraries/ma35/StdDriver/src/nu_i2c.c] and [inc/nu_i2c.h] it uses, and the bus
    functions [rt_i2c_transfer], [rt_i2c_control], [rt_i2c_master_send] and
    [rt_i2c_master_recv] of [rt-thread/components/drivers/i2c/i2c_core.c].

    Writing 1 to SI in CTL0 clears the flag and starts the next bus action, which STO, STA,
    AA and the state of the bus select ([command]); the slave's part in it - how many looks
    at CTL0 it takes ([None]: it never ends), the status code, the byte received - is the
    class [I2cPeer], a function of everything that happened on the wire before. *)

From Stdlib Require Import ZArith Lia Bool.
From stdpp Require Import base tactics numbers list option.
From S2P Require Import Prelude.

Open Scope Z_scope.

(** ** Constants *)

Definition I2C_CTL_STA_SI : Z := 0x28.
Definition I2C_CTL_SI : Z := 0x08.
Definition I2C_CTL_SI_AA : Z := 0x0C.
Definition I2C_CTL_STA : Z := 0x20.
Definition I2C_CTL_STO : Z := 0x10.
Definition I2C_CTL_AA : Z := 0x04.
Definition I2C_CTL0_SI_Msk : Z := shl32 0x1 3.
Definition I2C_CTL0_STO_Msk : Z := shl32 0x1 4.
Definition I2C_CTL0_STA_Msk : Z := shl32 0x1 5.
Definition I2C_CTL0_I2CEN_Msk : Z := shl32 0x1 6.
Definition I2C_CTL0_INTEN_Msk : Z := shl32 0x1 7.
Definition I2C_CTL1_ADDR10EN_Msk : Z := shl32 0x1 9.

Definition NU_I2C_MASTER_STATUS_START : Z := 0x08.
Definition NU_I2C_MASTER_STATUS_REPEAT_START : Z := 0x10.
Definition NU_I2C_MASTER_STATUS_TRANSMIT_ADDRESS_ACK : Z := 0x18.
Definition NU_I2C_MASTER_STATUS_TRANSMIT_DATA_ACK : Z := 0x28.
Definition NU_I2C_MASTER_STATUS_TRANSMIT_DATA_NACK : Z := 0x30.
Definition NU_I2C_MASTER_STATUS_RECEIVE_ADDRESS_ACK : Z := 0x40.
Definition NU_I2C_MASTER_STATUS_RECEIVE_DATA_ACK : Z := 0x50.
Definition NU_I2C_MASTER_STATUS_RECEIVE_DATA_NACK : Z := 0x58.
Definition NU_I2C_MASTER_STATUS_BUS_RELEASED : Z := 0xF8.

Definition RT_I2C_RD : Z := shl32 1 0.
Definition RT_I2C_ADDR_10BIT : Z := shl32 1 2.
Definition RT_I2C_NO_START : Z := shl32 1 4.
Definition RT_I2C_IGNORE_NACK : Z := shl32 1 5.
Definition RT_Device_Class_I2CBUS : Z := 8.
Definition RT_I2C_DEV_CTRL_CLK : Z := RT_Device_Class_I2CBUS * 0x100 + 0x05.

(** ** The controller *)

Inductive command : Type :=
| CStart                       (** START or repeated START *)
| CSend (b : Z)
| CRecv (ack : bool)
| CStop (sta : bool).          (** STOP, with a START asked for behind it or not *)

(** How an action ends. *)
Record reply : Type := mkReply {
  r_wait : option nat;         (** looks at CTL0 before it has ended *)
  r_status : Z;
  r_data : Z                   (** the byte of [CRecv] *)
}.

(** The latest command is the head of the wire. *)
Class I2cPeer : Type := {
  replies : list command -> command -> reply;
  tick_at : nat -> Z
}.

Record i2c_hw : Type := mkI2c {
  CTL0 : Z;                    (** without SI *)
  i2c_SI : bool;
  CTL1 : Z;
  STATUS0 : Z;
  DAT : Z;
  CLKDIV : Z;
  pending : option (command * option nat * Z * Z);
  wire : list command
}.

Record rt_i2c_msg : Type := mkMsg { addr : Z; flags : Z; msg_len : Z; buf : list Z }.

(** One bus: the controller, [parent.timeout], the caller's messages with their buffers,
    whether [msg] points to them (else it is NULL), the bus lock, the error number of the
    thread, and how often the tick was read. *)
Record nu_i2c_bus : Type := mkBus {
  I2C : i2c_hw;
  timeout : Z;
  msgs : list rt_i2c_msg;
  msg : bool;
  bus_lock : Z;
  i2c_errno : Z;
  looks : nat
}.

Definition set_I2C (h : i2c_hw) (s : nu_i2c_bus) : nu_i2c_bus :=
  mkBus h (timeout s) (msgs s) (msg s) (bus_lock s) (i2c_errno s) (looks s).
Definition set_msgs (m : list rt_i2c_msg) (s : nu_i2c_bus) : nu_i2c_bus :=
  mkBus (I2C s) (timeout s) m (msg s) (bus_lock s) (i2c_errno s) (looks s).
Definition set_msg (p : bool) (s : nu_i2c_bus) : nu_i2c_bus :=
  mkBus (I2C s) (timeout s) (msgs s) p (bus_lock s) (i2c_errno s) (looks s).
Definition set_lock (l : Z) (s : nu_i2c_bus) : nu_i2c_bus :=
  mkBus (I2C s) (timeout s) (msgs s) (msg s) l (i2c_errno s) (looks s).
Definition set_i2c_errno (e : Z) (s : nu_i2c_bus) : nu_i2c_bus :=
  mkBus (I2C s) (timeout s) (msgs s) (msg s) (bus_lock s) e (looks s).
Definition set_looks (n : nat) (s : nu_i2c_bus) : nu_i2c_bus :=
  mkBus (I2C s) (timeout s) (msgs s) (msg s) (bus_lock s) (i2c_errno s) n.

Definition IM (A : Type) : Type := M nu_i2c_bus A.

(** The action that a control word starts: after the address of a read has been
    acknowledged, and after every byte received and acknowledged, a byte is received. *)
Definition command_of (v status dat : Z) : command :=
  if tst v I2C_CTL0_STO_Msk then CStop (tst v I2C_CTL0_STA_Msk)
  else if tst v I2C_CTL0_STA_Msk then CStart
  else if (status =? NU_I2C_MASTER_STATUS_RECEIVE_ADDRESS_ACK) ||
          (status =? NU_I2C_MASTER_STATUS_RECEIVE_DATA_ACK)
       then CRecv (tst v I2C_CTL_AA)
       else CSend (u8 dat).

Section driver.
Context `{P : I2cPeer}.

Definition hw_write_CTL0 (v : Z) (h : i2c_hw) : i2c_hw :=
  let v' := Z.land v (not32 I2C_CTL0_SI_Msk) in
  if tst v I2C_CTL0_SI_Msk then
    let c := command_of v (STATUS0 h) (DAT h) in
    let r := replies (wire h) c in
    mkI2c v' false (CTL1 h) (STATUS0 h) (DAT h) (CLKDIV h)
      (Some (c, r_wait r, r_status r, r_data r)) (c :: wire h)
  else mkI2c v' (i2c_SI h) (CTL1 h) (STATUS0 h) (DAT h) (CLKDIV h) (pending h) (wire h).

(** A look at CTL0: the action under way ends when its time has come.  STOP clears STO and
    does not set SI. *)
Definition hw_look (h : i2c_hw) : i2c_hw :=
  match pending h with
  | Some (c, Some O, st, d) =>
      match c with
      | CStop _ => mkI2c (Z.land (CTL0 h) (not32 I2C_CTL0_STO_Msk)) false (CTL1 h) st (DAT h) (CLKDIV h)
                     None (wire h)
      | CRecv _ => mkI2c (CTL0 h) true (CTL1 h) st (u8 d) (CLKDIV h) None (wire h)
      | _ => mkI2c (CTL0 h) true (CTL1 h) st (DAT h) (CLKDIV h) None (wire h)
      end
  | Some (c, Some (S n), st, d) =>
      mkI2c (CTL0 h) (i2c_SI h) (CTL1 h) (STATUS0 h) (DAT h) (CLKDIV h) (Some (c, Some n, st, d)) (wire h)
  | _ => h
  end.

Definition read_CTL0 : IM Z := fun s =>
  let h := hw_look (I2C s) in
  Ret (Z.lor (CTL0 h) (if i2c_SI h then I2C_CTL0_SI_Msk else 0), set_I2C h s).

Definition write_CTL0 (v : Z) : IM unit := modify (fun s => set_I2C (hw_write_CTL0 v (I2C s)) s).

Definition I2C_GET_STATUS : IM Z := gets (fun s => STATUS0 (I2C s)).

Definition I2C_SET_DATA (d : Z) : IM unit :=
  modify (fun s => let h := I2C s in
    set_I2C (mkI2c (CTL0 h) (i2c_SI h) (CTL1 h) (STATUS0 h) (u32 d) (CLKDIV h) (pending h) (wire h)) s).

Definition set_CTL1 (f : Z -> Z) : IM unit :=
  modify (fun s => let h := I2C s in
    set_I2C (mkI2c (CTL0 h) (i2c_SI h) (f (CTL1 h)) (STATUS0 h) (DAT h) (CLKDIV h) (pending h) (wire h)) s).

(** [CTL0 = (CTL0 & ~0x3c) | u8Ctrl] *)
Definition I2C_SET_CONTROL_REG (u8Ctrl : Z) : IM unit :=
  let! v := read_CTL0 in write_CTL0 (Z.lor (Z.land v (not32 0x3c)) u8Ctrl).

(** [while (CTL0 & STO)] *)
Fixpoint stop_loop (fuel : nat) : IM unit :=
  match fuel with
  | O => out_of_fuel
  | S fuel' =>
      let! v := read_CTL0 in
      if tst v I2C_CTL0_STO_Msk then stop_loop fuel' else ret tt
  end.

Definition I2C_STOP (fuel : nat) : IM unit :=
  let! v := read_CTL0 in
  write_CTL0 (Z.lor v (Z.lor I2C_CTL0_SI_Msk I2C_CTL0_STO_Msk)) ;;
  stop_loop fuel.

Definition rt_tick_get : IM Z :=
  let! n := gets looks in modify (set_looks (S n)) ;; ret (u32 (tick_at n)).

(** *** Clock *)

Definition bus_divider (pclk u32BusClock : Z) : Z :=
  u32 (u32 (u32 (pclk * 10) / u32 (u32BusClock * 4) + 5) / 10 - 1).

Definition actual_clock (pclk div : Z) : Z := pclk / u32 (Z.shiftl (u32 (div + 1)) 2).

Definition set_CLKDIV (v : Z) : IM unit :=
  modify (fun s => let h := I2C s in
    set_I2C (mkI2c (CTL0 h) (i2c_SI h) (CTL1 h) (STATUS0 h) (DAT h) v (pending h) (wire h)) s).

(** The divisions are undefined for a clock whose multiple by 4 is 0. *)
Definition I2C_SetBusClockFreq (pclk u32BusClock : Z) : IM Z :=
  if u32 (u32BusClock * 4) =? 0 then undefined
  else
    let div := bus_divider pclk u32BusClock in
    set_CLKDIV div ;;
    if u32 (Z.shiftl (u32 (div + 1)) 2) =? 0 then undefined else ret (actual_clock pclk div).

Definition I2C_GetBusClockFreq (pclk : Z) : IM Z :=
  let! div := gets (fun s => CLKDIV (I2C s)) in
  if u32 (Z.shiftl (u32 (div + 1)) 2) =? 0 then undefined else ret (actual_clock pclk div).

Definition I2C_Open (pclk u32BusClock : Z) : IM Z :=
  if u32 (u32BusClock * 4) =? 0 then undefined
  else
    let div := bus_divider pclk u32BusClock in
    set_CLKDIV div ;;
    let! v := read_CTL0 in
    write_CTL0 (Z.lor v I2C_CTL0_I2CEN_Msk) ;;
    if u32 (Z.shiftl (u32 (div + 1)) 2) =? 0 then undefined else ret (actual_clock pclk div).

Definition nu_i2c_bus_control (pclk u32Cmd u32Value : Z) : IM Z :=
  if u32Cmd =? RT_I2C_DEV_CTRL_CLK then I2C_SetBusClockFreq pclk u32Value ;; ret RT_EOK
  else ret (- RT_EIO).

(** *** Waiting and sending *)

(** One look and one tick in every turn. *)
Fixpoint wait_loop (fuel : nat) (start : Z) : IM Z :=
  match fuel with
  | O => out_of_fuel
  | S fuel' =>
      let! v := read_CTL0 in
      if tst v I2C_CTL0_SI_Msk then ret RT_EOK
      else
        let! now := rt_tick_get in
        let! t := gets timeout in
        if t <? u32 (now - start) then ret (- RT_ETIMEOUT) else wait_loop fuel' start
  end.

Definition nu_i2c_wait_ready_with_timeout (fuel : nat) : IM Z :=
  let! start := rt_tick_get in wait_loop fuel start.

Definition nu_i2c_send_data (fuel : nat) (data : Z) : IM Z :=
  I2C_SET_DATA data ;;
  I2C_SET_CONTROL_REG I2C_CTL_SI ;;
  nu_i2c_wait_ready_with_timeout fuel.

Definition has (flags f : Z) : bool := tst flags f.

(** A byte sent, and the status it must end with unless refusals are ignored. *)
Definition send_expect (fuel : nat) (data status : Z) (ignore_nack : bool) : IM Z :=
  let! r := nu_i2c_send_data fuel data in
  if negb (r =? RT_EOK) then ret (- RT_EIO)
  else
    let! st := I2C_GET_STATUS in
    if negb (st =? status) && negb ignore_nack then ret (- RT_EIO) else ret RT_EOK.

Definition then_ok (m k : IM Z) : IM Z :=
  let! r := m in if r =? RT_EOK then k else ret r.

Definition nu_i2c_send_address (fuel : nat) (m : rt_i2c_msg) : IM Z :=
  let ignore_nack := has (flags m) RT_I2C_IGNORE_NACK in
  if has (flags m) RT_I2C_ADDR_10BIT then
    set_CTL1 (fun v => Z.lor v I2C_CTL1_ADDR10EN_Msk) ;;
    let addr1 := u8 (Z.lor 0xf0 (Z.land (Z.shiftr (addr m) 7) 0x06)) in
    let addr2 := u8 (Z.land (addr m) 0xff) in
    then_ok (send_expect fuel addr1 NU_I2C_MASTER_STATUS_TRANSMIT_ADDRESS_ACK ignore_nack)
      (then_ok (send_expect fuel addr2 NU_I2C_MASTER_STATUS_TRANSMIT_ADDRESS_ACK ignore_nack)
        (if has (flags m) RT_I2C_RD then
           I2C_SET_CONTROL_REG I2C_CTL_STA_SI ;;
           let! r := nu_i2c_wait_ready_with_timeout fuel in
           if negb (r =? RT_EOK) then ret (- RT_EIO)
           else
             let! st := I2C_GET_STATUS in
             if negb (st =? NU_I2C_MASTER_STATUS_REPEAT_START) && negb ignore_nack then ret (- RT_EIO)
             else send_expect fuel (Z.lor addr1 0x01) NU_I2C_MASTER_STATUS_RECEIVE_ADDRESS_ACK ignore_nack
         else ret RT_EOK))
  else
    let addr1 := u8 (Z.shiftl (addr m) 1) in
    let addr1 := if has (flags m) RT_I2C_RD then Z.lor addr1 1 else addr1 in
    send_expect fuel addr1
      (if has (flags m) RT_I2C_RD then NU_I2C_MASTER_STATUS_RECEIVE_ADDRESS_ACK
       else NU_I2C_MASTER_STATUS_TRANSMIT_ADDRESS_ACK) ignore_nack.

(** *** A transfer *)

(** [nu_i2c->msg[i]] *)
Definition cur_msg (i : Z) : IM rt_i2c_msg :=
  let! p := gets msg in
  let! ms := gets msgs in
  if p then deref (znth ms i) else undefined.

(** [nu_i2c->msg[i].buf[cnt] = data] *)
Definition store_byte (i : Z) (cnt : Z) (data : Z) : IM unit :=
  let! m := cur_msg i in
  let! _ := deref (znth (buf m) cnt) in
  modify (fun s => set_msgs (zupd (msgs s) i (mkMsg (addr m) (flags m) (msg_len m) (zupd (buf m) cnt data))) s).

(** The two loops over the bytes of message [i] give [i] back, or 0 after a status that was
    not the expected one; [todo] bytes are left. *)
Fixpoint recv_loop (fuel : nat) (todo : nat) (i cnt len do_rd_nack : Z) : IM Z :=
  match todo with
  | O => ret i
  | S todo' =>
      let do_rd_nack := do_rd_nack + (if cnt =? len - 1 then 1 else 0) in
      I2C_SET_CONTROL_REG (if do_rd_nack =? 2 then I2C_CTL_SI else I2C_CTL_SI_AA) ;;
      let! r := nu_i2c_wait_ready_with_timeout fuel in
      if negb (r =? RT_EOK) then ret i
      else
        let! v := read_CTL0 in
        let! st := I2C_GET_STATUS in
        if negb (st =? (if tst v I2C_CTL_AA then NU_I2C_MASTER_STATUS_RECEIVE_DATA_ACK
                        else NU_I2C_MASTER_STATUS_RECEIVE_DATA_NACK))
        then ret 0
        else
          let! d := gets (fun s => DAT (I2C s)) in
          store_byte i cnt (u8 d) ;;
          recv_loop fuel todo' i (cnt + 1) len do_rd_nack
  end.

Fixpoint send_loop (fuel : nat) (todo : nat) (i cnt : Z) (ignore_nack : bool) : IM Z :=
  match todo with
  | O => ret i
  | S todo' =>
      let! m := cur_msg i in
      let! b := deref (znth (buf m) cnt) in
      let! r := nu_i2c_send_data fuel (u8 b) in
      if negb (r =? RT_EOK) then ret i
      else
        let! st := I2C_GET_STATUS in
        if negb (st =? NU_I2C_MASTER_STATUS_TRANSMIT_DATA_ACK) && negb ignore_nack then ret 0
        else send_loop fuel todo' i (cnt + 1) ignore_nack
  end.

(** The (repeated) START and the address of message [i]: [Some j] leaves the loop with [j]. *)
Definition address_phase (fuel : nat) (m : rt_i2c_msg) (i : Z) : IM (option Z) :=
  if has (flags m) RT_I2C_NO_START then ret None
  else
    let! early := (if i =? 0 then ret None
                   else
                     I2C_SET_CONTROL_REG I2C_CTL_STA_SI ;;
                     let! r := nu_i2c_wait_ready_with_timeout fuel in
                     if negb (r =? RT_EOK) then ret (Some i)
                     else
                       let! st := I2C_GET_STATUS in
                       ret (if negb (st =? NU_I2C_MASTER_STATUS_REPEAT_START) then Some 0 else None)) in
    match early with
    | Some j => ret (Some j)
    | None =>
        let! r := nu_i2c_send_address fuel m in
        ret (if negb (r =? RT_EOK) && negb (has (flags m) RT_I2C_IGNORE_NACK) then Some 0 else None)
    end.

Definition data_phase (fuel : nat) (m : rt_i2c_msg) (i num : Z) : IM Z :=
  if has (flags m) RT_I2C_RD
  then recv_loop fuel (Z.to_nat (msg_len m)) i 0 (msg_len m) (if i =? u32 (num - 1) then 1 else 0)
  else send_loop fuel (Z.to_nat (msg_len m)) i 0 (has (flags m) RT_I2C_IGNORE_NACK).

(** [for (i = 0; i < num; i++)], whose counter the body may set back; [turns] bounds the
    turns, [fuel] each wait. *)
Fixpoint msg_loop (turns fuel : nat) (i num : Z) : IM Z :=
  match turns with
  | O => out_of_fuel
  | S turns' =>
      if i <? num then
        let! m := cur_msg i in
        let! early := address_phase fuel m i in
        match early with
        | Some j => ret j
        | None =>
            let! i' := data_phase fuel m i num in
            msg_loop turns' fuel (u32 (i' + 1)) num
        end
      else ret i
  end.

Definition nu_i2c_mst_xfer (turns fuel : nat) (ms : list rt_i2c_msg) (num : Z) : IM Z :=
  modify (fun s => set_msg true (set_msgs ms s)) ;;
  let! v := read_CTL0 in
  write_CTL0 (Z.lor v (Z.lor I2C_CTL0_STA_Msk I2C_CTL0_SI_Msk)) ;;
  let! r := nu_i2c_wait_ready_with_timeout fuel in
  if negb (r =? RT_EOK) then modify (set_i2c_errno (- RT_ETIMEOUT)) ;; ret 0
  else
    let! st := I2C_GET_STATUS in
    if negb (st =? NU_I2C_MASTER_STATUS_START) then ret 0
    else
      let! i := msg_loop turns fuel 0 num in
      I2C_STOP fuel ;;
      let! st := I2C_GET_STATUS in
      rt_assert (st =? NU_I2C_MASTER_STATUS_BUS_RELEASED) ;;
      let! st := I2C_GET_STATUS in
      let i := if negb (st =? NU_I2C_MASTER_STATUS_BUS_RELEASED) then 0 else i in
      modify (set_msg false) ;;
      set_CTL1 (fun _ => 0) ;;
      ret i.

(** ** The bus functions

    [master_xfer] of the bus is [nu_i2c_mst_xfer]. *)

Definition rt_i2c_transfer (turns fuel : nat) (ms : list rt_i2c_msg) (num : Z) : IM Z :=
  modify (fun s => set_lock (bus_lock s + 1) s) ;;
  let! r := nu_i2c_mst_xfer turns fuel ms num in
  modify (fun s => set_lock (bus_lock s - 1) s) ;;
  ret r.

Definition rt_i2c_control (pclk cmd arg : Z) : IM Z := nu_i2c_bus_control pclk cmd arg.

Definition rt_i2c_master_send (turns fuel : nat) (addr flags : Z) (buf : list Z) (count : Z) : IM Z :=
  let! r := rt_i2c_transfer turns fuel [mkMsg (u16 addr) (u16 flags) (u16 count) buf] 1 in
  ret (if 0 <? r then count else r).

Definition rt_i2c_master_recv (turns fuel : nat) (addr flags : Z) (buf : list Z) (count : Z) : IM Z :=
  let! r := rt_i2c_transfer turns fuel [mkMsg (u16 addr) (u16 (Z.lor flags RT_I2C_RD)) (u16 count) buf] 1 in
  ret (if 0 <? r then count else r).

(** ** Bringing the bus up *)

Definition I2C0_BASE : Z := 0x40800000.
Definition I2C1_BASE : Z := 0x40810000.
Definition I2C2_BASE : Z := 0x40820000.
Definition I2C3_BASE : Z := 0x40830000.
Definition I2C4_BASE : Z := 0x40840000.
Definition I2C5_BASE : Z := 0x40850000.
Definition SYS_IPRST1_I2C0RST_Msk : Z := shl32 0x1 8.
Definition SYS_IPRST1_I2C1RST_Msk : Z := shl32 0x1 9.
Definition SYS_IPRST1_I2C2RST_Msk : Z := shl32 0x1 10.
Definition SYS_IPRST1_I2C3RST_Msk : Z := shl32 0x1 11.
Definition SYS_IPRST3_I2C4RST_Pos : Z := 18.
Definition SYS_IPRST3_I2C5RST_Pos : Z := 19.

(** The bits of IPRST1 that [I2C_Close] sets and clears again: for I2C4 and I2C5 the bit
    numbers themselves are taken as masks. *)
Definition close_mask (base : Z) : Z :=
  if base =? I2C0_BASE then SYS_IPRST1_I2C0RST_Msk
  else if base =? I2C1_BASE then SYS_IPRST1_I2C1RST_Msk
  else if base =? I2C2_BASE then SYS_IPRST1_I2C2RST_Msk
  else if base =? I2C3_BASE then SYS_IPRST1_I2C3RST_Msk
  else if base =? I2C4_BASE then SYS_IPRST3_I2C4RST_Pos
  else if base =? I2C5_BASE then SYS_IPRST3_I2C5RST_Pos
  else 0.

(** The bit of IPRST1 that resets the controller at [base], if it has one there. *)
Definition reset_bit (base : Z) : Z :=
  if base =? I2C0_BASE then 8 else if base =? I2C1_BASE then 9
  else if base =? I2C2_BASE then 10 else if base =? I2C3_BASE then 11 else -1.

(** The controller after a reset: the lines are released. *)
Definition reset_hw (w : list command) : i2c_hw :=
  mkI2c 0 false 0 NU_I2C_MASTER_STATUS_BUS_RELEASED 0 0 None w.

Definition I2C_Close (base : Z) : IM unit :=
  modify (fun s => if Z.testbit (close_mask base) (reset_bit base) then set_I2C (reset_hw (wire (I2C s))) s else s) ;;
  let! v := read_CTL0 in write_CTL0 (Z.land v (not32 I2C_CTL0_I2CEN_Msk)).

(** The registration of the bus: the mutex free, the time-out one second unless it is set;
    [registered] is what the device layer answers. *)
Definition rt_i2c_bus_device_register (registered : Z) : IM Z :=
  modify (set_lock 0) ;;
  modify (fun s => if timeout s =? 0
                   then mkBus (I2C s) 1000 (msgs s) (msg s) (bus_lock s) (i2c_errno s) (looks s) else s) ;;
  ret registered.

(** The board has the one bus "i2c0". *)
Definition rt_hw_i2c_init (pclk registered : Z) : IM Z :=
  I2C_Close I2C0_BASE ;;
  I2C_Open pclk 100000 ;;
  let! r := rt_i2c_bus_device_register registered in
  rt_assert (r =? RT_EOK) ;;
  ret 0.
End driver.
