(* ===== verification/I2cXfer.v ===== *)
(** * Transfers on the I2C bus

    What a sequence of messages puts on the wire when the slave plays along, what reaches
    the caller's buffers, and what the driver makes of a slave that refuses a byte. *)

From Stdlib Require Import ZArith Lia Bool.
From stdpp Require Import base tactics numbers list option.
From S2P Require Import Prelude I2c.

Open Scope Z_scope.

Section transfer.
Context `{P : I2cPeer}.
Implicit Types (s : nu_i2c_bus) (w : list command).

Definition starts (c : command) : bool := match c with CStart => true | _ => false end.

(** No action under way; the wire so far and the status shown. *)
Definition quiet s w (st : Z) : Prop :=
  pending (I2C s) = None /\ wire (I2C s) = w /\ STATUS0 (I2C s) = st.

(** As a command other than STOP leaves the controller: STO is clear, and STA as the
    latest command had it. *)
Definition ready s w (st : Z) : Prop :=
  quiet s w st /\ Z.testbit (CTL0 (I2C s)) 4 = false /\
  Z.testbit (CTL0 (I2C s)) 5 = match w with c :: _ => starts c | [] => false end.

(** What the bus actions leave alone; CTL1 is written for ten-bit addresses. *)
Definition rest s : Z * list rt_i2c_msg * bool * Z * Z * Z :=
  (timeout s, msgs s, msg s, bus_lock s, i2c_errno s, CLKDIV (I2C s)).

(** In any [k] looks the clock moves by at most the time-out. *)
Definition calm (tmo : Z) (k : nat) : Prop :=
  forall a b, (a <= b <= a + k)%nat -> u32 (u32 (tick_at b) - u32 (tick_at a)) <= tmo.

(** The command ends within [k] looks with the status. *)
Definition ends (k : nat) w (c : command) (st : Z) : Prop :=
  exists n, r_wait (replies w c) = Some n /\ (n < k)%nat /\ r_status (replies w c) = st.

(** *** One command *)

Lemma set_I2C_id s : set_I2C (I2C s) s = s.
Proof. by destruct s. Qed.

Lemma quiet_read s w st :
  quiet s w st -> read_CTL0 s = Ret (Z.lor (CTL0 (I2C s)) (if i2c_SI (I2C s) then I2C_CTL0_SI_Msk else 0), s).
Proof. intros (Hp & _). unfold read_CTL0, hw_look. by rewrite Hp, set_I2C_id. Qed.

Definition under_way (h : i2c_hw) c n st d : Prop :=
  pending h = Some (c, Some n, st, d) /\ i2c_SI h = false /\ Z.testbit (CTL0 h) 3 = false.

Definition finished (h : i2c_hw) c st d : i2c_hw :=
  mkI2c (CTL0 h) true (CTL1 h) st (match c with CRecv _ => u8 d | _ => DAT h end) (CLKDIV h) None (wire h).

Lemma tst_SI v : tst v I2C_CTL0_SI_Msk = Z.testbit v 3.
Proof. change I2C_CTL0_SI_Msk with (bit 3). apply tst_bit. lia. Qed.

Lemma wait_loop_run fuel start n c st d s :
  under_way (I2C s) c n st d -> (forall b, c <> CStop b) -> (n < fuel)%nat ->
  (forall j, (j < n)%nat -> u32 (u32 (tick_at (looks s + j)) - start) <= timeout s) ->
  wait_loop fuel start s =
    Ret (RT_EOK, set_looks (looks s + n) (set_I2C (finished (I2C s) c st d) s)).
Proof.
  revert n s. induction fuel as [|fuel IH]; intros n s (Hp & Hsi & Hb) Hc Hn Ht; [lia|].
  cbn [wait_loop]. destruct n as [|n].
  - unfold bind at 1. unfold read_CTL0, hw_look. rewrite Hp.
    assert (E : forall h, Z.testbit (Z.lor (CTL0 h) I2C_CTL0_SI_Msk) 3 = true)
      by (intros; rewrite Z.lor_spec; apply orb_true_r).
    rewrite Nat.add_0_r.
    destruct c as [|b|a|b]; [..|by destruct (Hc b)]; cbn [CTL0 i2c_SI]; rewrite tst_SI, E; by destruct s.
  - unfold bind at 1. unfold read_CTL0, hw_look. rewrite Hp. cbn [CTL0 i2c_SI].
    rewrite Hsi, Z.lor_0_r, tst_SI, Hb. unfold rt_tick_get. rewrite bind_assoc, bind_gets, bind_assoc, bind_modify.
    rewrite bind_ret_l, bind_gets. cbn [timeout set_looks set_I2C looks].
    destruct (Z.ltb_spec (timeout s) (u32 (u32 (tick_at (looks s)) - start))) as [Hlt|_].
    { specialize (Ht 0%nat ltac:(lia)). rewrite Nat.add_0_r in Ht. lia. }
    rewrite (IH n); [|by split_and!|done|lia|].
    + cbn. unfold set_looks, set_I2C, finished. cbn. do 3 f_equal. lia.
    + cbn. intros j Hj. specialize (Ht (S j) ltac:(lia)).
      by replace (S (looks s + j)) with (looks s + S j)%nat by lia.
Qed.

Lemma wait_run fuel n c st d s :
  under_way (I2C s) c n st d -> (forall b, c <> CStop b) -> (n < fuel)%nat -> calm (timeout s) fuel ->
  nu_i2c_wait_ready_with_timeout fuel s =
    Ret (RT_EOK, set_looks (looks s + S n) (set_I2C (finished (I2C s) c st d) s)).
Proof.
  intros Hu Hc Hn Ht. unfold nu_i2c_wait_ready_with_timeout, rt_tick_get.
  rewrite bind_assoc, bind_gets, bind_assoc, bind_modify, bind_ret_l.
  rewrite (wait_loop_run _ _ n c st d); [|done..|].
  - cbn. unfold set_looks, set_I2C. cbn. do 3 f_equal. lia.
  - cbn [looks set_looks timeout]. intros j Hj. apply Ht. lia.
Qed.

(** The control word [(CTL0 & ~0x3c) | ctrl]. *)
Definition control_word (v ctrl : Z) : Z := Z.lor (Z.land v (not32 0x3c)) ctrl.

Lemma control_word_bit v ctrl i :
  2 <= i <= 5 -> Z.testbit (control_word v ctrl) i = Z.testbit ctrl i.
Proof.
  intros Hi. unfold control_word. rewrite Z.lor_spec, Z.land_spec, testbit_not32 by lia.
  assert (i = 2 \/ i = 3 \/ i = 4 \/ i = 5) as [->|[->|[->| ->]]] by lia; cbn; by rewrite andb_false_r.
Qed.

Lemma command_of_word v ctrl st d : command_of (control_word v ctrl) st d = command_of ctrl st d.
Proof.
  unfold command_of. change I2C_CTL0_STO_Msk with (bit 4). change I2C_CTL0_STA_Msk with (bit 5).
  change I2C_CTL_AA with (bit 2). by rewrite !tst_bit, !control_word_bit by lia.
Qed.

Lemma command_of_bits ctrl st d c :
  command_of ctrl st d = c -> (forall b, c <> CStop b) ->
  Z.testbit ctrl 4 = false /\ Z.testbit ctrl 5 = starts c.
Proof.
  unfold command_of. change I2C_CTL0_STO_Msk with (bit 4). change I2C_CTL0_STA_Msk with (bit 5).
  rewrite !tst_bit by lia. intros <- Hn. destruct (Z.testbit ctrl 4); [by destruct (Hn (Z.testbit ctrl 5))|].
  split; [done|]. destruct (Z.testbit ctrl 5); [done|]. by destruct (_ || _).
Qed.

(** The controller after a control word that starts a command. *)
Definition ordered (v : Z) (c : command) (n : nat) (st : Z) (h : i2c_hw) : i2c_hw :=
  mkI2c (Z.land v (not32 I2C_CTL0_SI_Msk)) false (CTL1 h) (STATUS0 h) (DAT h) (CLKDIV h)
    (Some (c, Some n, st, r_data (replies (wire h) c))) (c :: wire h).

Lemma write_orders v c st n st' w s :
  quiet s w st -> Z.testbit v 3 = true -> command_of v st (DAT (I2C s)) = c ->
  r_wait (replies w c) = Some n -> r_status (replies w c) = st' ->
  hw_write_CTL0 v (I2C s) = ordered v c n st' (I2C s).
Proof.
  intros (Hp & Hw & Hs) H3 Hc Hn Hst. unfold hw_write_CTL0, ordered.
  rewrite tst_SI, H3, Hw, Hs, Hc, Hn, Hst. done.
Qed.

Lemma ordered_bit v c n st h i :
  0 <= i < 32 -> Z.testbit (CTL0 (ordered v c n st h)) i = Z.testbit v i && negb (i =? 3).
Proof.
  intros Hi. cbn [CTL0 ordered]. rewrite Z.land_spec, testbit_not32 by lia.
  change I2C_CTL0_SI_Msk with (bit 3). rewrite testbit_bit by lia.
  destruct (Z.ltb_spec i 32); [|lia]. done.
Qed.

(** A command other than STOP, ordered and waited for. *)
Lemma order_run {B} fuel v c w st st' s (k : Z -> IM B) :
  quiet s w st -> Z.testbit v 3 = true -> command_of v st (DAT (I2C s)) = c -> (forall b, c <> CStop b) ->
  ends fuel w c st' -> calm (timeout s) fuel ->
  exists s', bind (write_CTL0 v) (fun _ => bind (nu_i2c_wait_ready_with_timeout fuel) k) s = k RT_EOK s' /\
    ready s' (c :: w) st' /\ rest s' = rest s /\
    (forall a, c = CRecv a -> DAT (I2C s') = u8 (r_data (replies w c)) /\ Z.testbit (CTL0 (I2C s')) 2 = Z.testbit v 2).
Proof.
  intros Hq H3 Hc Hns (n & Hn & Hlt & Hst) Hcalm. pose proof Hq as (Hp & Hw & Hs).
  unfold write_CTL0. rewrite bind_modify, (write_orders v c st n st' w s) by done.
  destruct (command_of_bits _ _ _ _ Hc Hns) as [H4 H5].
  assert (Hu : under_way (I2C (set_I2C (ordered v c n st' (I2C s)) s)) c n st' (r_data (replies (wire (I2C s)) c))).
  { split; [done|]. split; [done|]. cbn [I2C set_I2C]. rewrite ordered_bit by lia. apply andb_false_r. }
  rewrite (bind_Ret _ _ _ _ _ (wait_run fuel n c st' _ _ Hu Hns Hlt Hcalm)).
  eexists. split; [reflexivity|]. split; [|split].
  - split; [split_and!; [done|by cbn; rewrite Hw|done]|]. cbn [I2C set_looks set_I2C finished CTL0 ordered wire].
    pose proof (fun i => ordered_bit v c n st' (I2C s) i) as HB. cbn [CTL0 ordered] in HB.
    rewrite (HB 4), (HB 5), H4, H5 by lia. split; [done|apply andb_true_r].
  - done.
  - intros a ->. cbn [I2C set_looks set_I2C finished CTL0 DAT ordered]. rewrite Hw. split; [done|].
    pose proof (ordered_bit v (CRecv a) n st' (I2C s) 2) as HB. cbn [CTL0 ordered] in HB.
    rewrite HB by lia. apply andb_true_r.
Qed.

Lemma control_run {B} fuel ctrl c w st st' s (k : Z -> IM B) :
  quiet s w st -> command_of ctrl st (DAT (I2C s)) = c -> (forall b, c <> CStop b) ->
  Z.testbit ctrl 3 = true -> ends fuel w c st' -> calm (timeout s) fuel ->
  exists s', bind (I2C_SET_CONTROL_REG ctrl) (fun _ => bind (nu_i2c_wait_ready_with_timeout fuel) k) s = k RT_EOK s' /\
    ready s' (c :: w) st' /\ rest s' = rest s /\
    (forall a, c = CRecv a -> DAT (I2C s') = u8 (r_data (replies w c)) /\ Z.testbit (CTL0 (I2C s')) 2 = Z.testbit ctrl 2).
Proof.
  intros Hq Hcmd Hns H3 He Hcalm.
  unfold I2C_SET_CONTROL_REG. rewrite bind_assoc, (bind_Ret _ _ _ _ _ (quiet_read s w st Hq)).
  set (v := Z.lor (CTL0 (I2C s)) _). change (Z.lor (Z.land v (not32 60)) ctrl) with (control_word v ctrl).
  rewrite <-(control_word_bit v ctrl 2), <-(control_word_bit v ctrl 3) in * by lia.
  rewrite <-(command_of_word v) in Hcmd. by apply (order_run fuel _ c w st).
Qed.

(** The status after which a control word without STA asks for a byte. *)
Definition receiving (st : Z) : bool :=
  (st =? NU_I2C_MASTER_STATUS_RECEIVE_ADDRESS_ACK) || (st =? NU_I2C_MASTER_STATUS_RECEIVE_DATA_ACK).

(** A byte sent. *)
Lemma send_data_run {B} fuel d w st st' s (k : Z -> IM B) :
  quiet s w st -> 0 <= d < 256 -> receiving st = false -> ends fuel w (CSend d) st' -> calm (timeout s) fuel ->
  exists s', bind (nu_i2c_send_data fuel d) k s = k RT_EOK s' /\ ready s' (CSend d :: w) st' /\ rest s' = rest s.
Proof.
  intros Hq Hd Hn He Hc. unfold nu_i2c_send_data. rewrite bind_assoc.
  unfold I2C_SET_DATA. rewrite bind_modify. set (s1 := set_I2C _ s).
  assert (Hq1 : quiet s1 w st) by done.
  assert (Hcmd : command_of I2C_CTL_SI st (DAT (I2C s1)) = CSend d).
  { unfold s1. cbn [I2C set_I2C DAT]. unfold command_of, receiving in *. cbn [tst]. rewrite Hn.
    cbn. rewrite u32_small, u8_small by (unfold is_u32, is_u8; lia). done. }
  destruct (control_run fuel I2C_CTL_SI (CSend d) w st st' s1 k Hq1 Hcmd) as (s' & E & Hq' & Hr & _);
    [done|done|done|done|].
  exists s'. rewrite bind_assoc. split; [exact E|]. split; [done|]. by rewrite Hr.
Qed.

(** *** Plans

    The commands of a transfer with the status each must end with. *)

Definition step : Type := command * Z.

Fixpoint answers (k : nat) w (plan : list step) : Prop :=
  match plan with
  | [] => True
  | (c, st) :: plan' => ends k w c st /\ answers k (c :: w) plan'
  end.

Definition on_wire w (plan : list step) : list command := rev (map fst plan) ++ w.

(** The bytes a slave sends in the course of a plan. *)
Fixpoint received w (plan : list step) : list Z :=
  match plan with
  | [] => []
  | (CRecv a, _) :: plan' => u8 (r_data (replies w (CRecv a))) :: received (CRecv a :: w) plan'
  | (c, _) :: plan' => received (c :: w) plan'
  end.

Lemma on_wire_cons w c st plan : on_wire w ((c, st) :: plan) = on_wire (c :: w) plan.
Proof. unfold on_wire. cbn. by rewrite <-app_assoc. Qed.

Lemma on_wire_app w p1 p2 : on_wire w (p1 ++ p2) = on_wire (on_wire w p1) p2.
Proof. unfold on_wire. by rewrite map_app, rev_app_distr, app_assoc. Qed.

Lemma answers_app k w p1 p2 : answers k w (p1 ++ p2) <-> answers k w p1 /\ answers k (on_wire w p1) p2.
Proof.
  revert w. induction p1 as [|[c st] p1 IH]; intros w; [by cbn; tauto|].
  cbn [app answers]. rewrite IH, on_wire_cons. tauto.
Qed.

Definition send_plan (bytes : list Z) : list step :=
  map (fun b => (CSend b, NU_I2C_MASTER_STATUS_TRANSMIT_DATA_ACK)) bytes.

(** Every byte is acknowledged, but the last one of the last message. *)
Fixpoint recv_plan (todo : nat) (last : bool) : list step :=
  match todo with
  | O => []
  | S todo' =>
      if last && (todo' =? 0)%nat then [(CRecv false, NU_I2C_MASTER_STATUS_RECEIVE_DATA_NACK)]
      else (CRecv true, NU_I2C_MASTER_STATUS_RECEIVE_DATA_ACK) :: recv_plan todo' last
  end.

Lemma cur_msg_run {B} i m s (k : rt_i2c_msg -> IM B) :
  msg s = true -> znth (msgs s) i = Some m -> bind (cur_msg i) k s = k m s.
Proof.
  intros Hp Hm. unfold cur_msg. rewrite bind_assoc, bind_gets, bind_assoc, bind_gets, Hp.
  by rewrite (bind_deref _ _ _ _ Hm).
Qed.

Lemma rest_msg s s' : rest s' = rest s -> msg s' = msg s /\ msgs s' = msgs s /\ timeout s' = timeout s.
Proof. unfold rest. intros [= ]. done. Qed.

Definition last_status (st : Z) (plan : list step) : Z := fold_left (fun _ x => snd x) plan st.

Lemma last_status_app st p1 p2 : last_status st (p1 ++ p2) = last_status (last_status st p1) p2.
Proof. apply fold_left_app. Qed.

(** The first [todo] bytes of the sending loop are acknowledged. *)
Lemma send_loop_first fuel todo more i cnt ign m w st s :
  ready s w st -> receiving st = false ->
  msg s = true -> znth (msgs s) i = Some m -> 0 <= cnt -> (Z.to_nat cnt + todo <= length (buf m))%nat ->
  Forall (fun b => 0 <= b < 256) (buf m) ->
  answers fuel w (send_plan (take todo (drop (Z.to_nat cnt) (buf m)))) -> calm (timeout s) fuel ->
  let plan := send_plan (take todo (drop (Z.to_nat cnt) (buf m))) in
  exists s', send_loop fuel (todo + more) i cnt ign s = send_loop fuel more i (cnt + Z.of_nat todo) ign s' /\
    ready s' (on_wire w plan) (last_status st plan) /\ rest s' = rest s.
Proof.
  revert cnt w st s. induction todo as [|todo IH]; intros cnt w st s Hq Hst Hp Hm Hc Hl Hb Ha Hcalm plan;
    unfold plan; clear plan.
  - exists s. by rewrite take_0, Z.add_0_r.
  - destruct (lookup_lt_is_Some_Z (buf m) (Z.to_nat cnt) ltac:(lia)) as [b Eb].
    rewrite (drop_S _ _ _ Eb) in Ha |- *. cbn [take send_plan map answers] in Ha |- *. destruct Ha as [He Ha].
    assert (Hbb : 0 <= b < 256) by (rewrite Forall_lookup in Hb; by eapply Hb).
    cbn [Nat.add send_loop]. rewrite (cur_msg_run i m) by done.
    assert (Ez : znth (buf m) cnt = Some b) by (unfold znth; destruct (Z.ltb_spec cnt 0); [lia|done]).
    rewrite (bind_deref _ _ _ _ Ez), u8_small by done.
    match goal with |- context [bind (nu_i2c_send_data _ _) ?k s] =>
      destruct (send_data_run fuel b w st NU_I2C_MASTER_STATUS_TRANSMIT_DATA_ACK s k (proj1 Hq) Hbb)
        as (s1 & E1 & Hq1 & Hr1) end; [done|exact He|done|].
    rewrite E1. cbn [Z.eqb RT_EOK negb]. unfold I2C_GET_STATUS. rewrite bind_gets.
    pose proof Hq1 as ((Hp1 & Hw1 & Hs1) & _). rewrite Hs1.
    cbn [Z.eqb Pos.eqb NU_I2C_MASTER_STATUS_TRANSMIT_DATA_ACK negb andb].
    destruct (rest_msg _ _ Hr1) as (Hm1 & Hms1 & Ht1).
    replace (S (Z.to_nat cnt)) with (Z.to_nat (cnt + 1)) in Ha |- * by lia.
    destruct (IH (cnt + 1) (CSend b :: w) _ s1 Hq1) as (s2 & E & Hq2 & Hr2);
      [done|by rewrite Hm1|by rewrite Hms1|lia|lia|done|done|by rewrite Ht1|].
    exists s2. split; [rewrite E; f_equal; lia|]. rewrite on_wire_cons. split; [done|]. congruence.
Qed.
Lemma send_loop_run fuel todo i cnt ign m w st s :
  ready s w st -> receiving st = false ->
  msg s = true -> znth (msgs s) i = Some m -> 0 <= cnt -> (Z.to_nat cnt + todo <= length (buf m))%nat ->
  Forall (fun b => 0 <= b < 256) (buf m) ->
  answers fuel w (send_plan (take todo (drop (Z.to_nat cnt) (buf m)))) -> calm (timeout s) fuel ->
  let plan := send_plan (take todo (drop (Z.to_nat cnt) (buf m))) in
  exists s', send_loop fuel todo i cnt ign s = Ret (i, s') /\
    ready s' (on_wire w plan) (last_status st plan) /\ rest s' = rest s.
Proof.
  intros Hq Hr Hp Hm Hc Hl Hb Ha Hcalm plan.
  destruct (send_loop_first fuel todo 0 i cnt ign m w st s) as (s' & E & Hs); [done..|].
  rewrite Nat.add_0_r in E. by exists s'.
Qed.

Fixpoint store_bytes (l : list Z) (cnt : Z) (bytes : list Z) : list Z :=
  match bytes with
  | [] => l
  | b :: bytes' => store_bytes (zupd l cnt b) (cnt + 1) bytes'
  end.

Definition with_buf (m : rt_i2c_msg) (l : list Z) : rt_i2c_msg := mkMsg (addr m) (flags m) (msg_len m) l.

Lemma with_buf_id m : with_buf m (buf m) = m.
Proof. by destruct m. Qed.

Lemma store_byte_run {B} i cnt d m s (k : unit -> IM B) :
  msg s = true -> znth (msgs s) i = Some m -> 0 <= cnt < Z.of_nat (length (buf m)) ->
  bind (store_byte i cnt d) k s = k tt (set_msgs (zupd (msgs s) i (with_buf m (zupd (buf m) cnt d))) s).
Proof.
  intros Hp Hm Hc. unfold store_byte. rewrite bind_assoc, (cur_msg_run i m) by done.
  destruct (znth_in_range _ _ Hc) as [x Hx]. by rewrite bind_assoc, (bind_deref _ _ _ _ Hx), bind_modify.
Qed.

(** One turn of the receiving loop. *)
Lemma recv_turn {B} fuel ack w st s (k : Z -> IM B) :
  ready s w st -> receiving st = true -> calm (timeout s) fuel ->
  ends fuel w (CRecv ack) (if ack then NU_I2C_MASTER_STATUS_RECEIVE_DATA_ACK else NU_I2C_MASTER_STATUS_RECEIVE_DATA_NACK) ->
  exists s', bind (I2C_SET_CONTROL_REG (if negb ack then I2C_CTL_SI else I2C_CTL_SI_AA))
      (fun _ => bind (nu_i2c_wait_ready_with_timeout fuel) k) s = k RT_EOK s' /\
    ready s' (CRecv ack :: w)
      (if ack then NU_I2C_MASTER_STATUS_RECEIVE_DATA_ACK else NU_I2C_MASTER_STATUS_RECEIVE_DATA_NACK) /\
    rest s' = rest s /\ DAT (I2C s') = u8 (r_data (replies w (CRecv ack))) /\
    Z.testbit (CTL0 (I2C s')) 2 = ack.
Proof.
  intros Hq Hr Hc He.
  set (st' := if ack then _ else _) in *.
  destruct (control_run (B := B) fuel (if negb ack then I2C_CTL_SI else I2C_CTL_SI_AA) (CRecv ack) w st st' s k)
    as (s' & E & Hq' & Hrest & Hd); [apply Hq| | | |exact He|done|].
  - unfold command_of, receiving in *. rewrite Hr. by destruct ack.
  - done.
  - by destruct ack.
  - destruct (Hd ack) as [Hd1 Hd2]; [done|].
    exists s'. split; [exact E|]. split_and!; [done|done|done|]. rewrite Hd2. by destruct ack.
Qed.

Lemma rest_set_msgs s s' l : rest s' = rest s -> rest (set_msgs l s') = rest (set_msgs l s).
Proof. unfold rest. cbn. intros [= ]. congruence. Qed.

Lemma recv_loop_run fuel todo i cnt last m w st s :
  ready s w st -> receiving st = true -> msg s = true -> znth (msgs s) i = Some m ->
  0 <= cnt -> cnt + Z.of_nat todo <= Z.of_nat (length (buf m)) ->
  answers fuel w (recv_plan todo last) -> calm (timeout s) fuel ->
  let plan := recv_plan todo last in
  exists s', recv_loop fuel todo i cnt (cnt + Z.of_nat todo) (if last then 1 else 0) s = Ret (i, s') /\
    ready s' (on_wire w plan) (last_status st plan) /\
    rest s' = rest (set_msgs (zupd (msgs s) i (with_buf m (store_bytes (buf m) cnt (received w plan)))) s).
Proof.
  revert cnt m w st s. induction todo as [|todo IH]; intros cnt m w st s Hq Hst Hp Hm Hc Hl Ha Hcalm plan;
    unfold plan; clear plan.
  - exists s. cbn. rewrite with_buf_id, (zupd_same _ _ _ Hm). by destruct s.
  - cbn [recv_loop]. set (ack := negb (last && (todo =? 0)%nat)).
    assert (Hctl : (if (if last then 1 else 0) + (if cnt =? cnt + Z.of_nat (S todo) - 1 then 1 else 0) =? 2
                    then I2C_CTL_SI else I2C_CTL_SI_AA) = if negb ack then I2C_CTL_SI else I2C_CTL_SI_AA).
    { unfold ack. destruct todo; [replace (cnt + Z.of_nat 1 - 1) with cnt by lia; rewrite Z.eqb_refl; by destruct last|].
      destruct (Z.eqb_spec cnt (cnt + Z.of_nat (S (S todo)) - 1)); [lia|]. by destruct last. }
    assert (Hplan : exists plan', recv_plan (S todo) last = (CRecv ack, if ack then NU_I2C_MASTER_STATUS_RECEIVE_DATA_ACK
        else NU_I2C_MASTER_STATUS_RECEIVE_DATA_NACK) :: plan' /\ plan' = recv_plan todo last).
    { unfold ack. cbn [recv_plan]. destruct last; [|by eexists]. destruct todo; by eexists. }
    destruct Hplan as (plan' & Epl & ->). rewrite Epl in Ha |- *. clear Epl. cbn [answers received] in Ha |- *.
    destruct Ha as [He Ha].
    rewrite Hctl.
    match goal with |- context [bind (I2C_SET_CONTROL_REG _) (fun _ => bind (nu_i2c_wait_ready_with_timeout _) ?k)] =>
      destruct (recv_turn fuel ack w st s k) as (s1 & E1 & Hq1 & Hr1 & Hd1 & Hb1); [done|done|done|exact He|] end.
    rewrite E1. cbn [Z.eqb RT_EOK negb]. pose proof Hq1 as (Hq1' & _). pose proof Hq1' as (Hp1 & Hw1 & Hs1).
    destruct (rest_msg _ _ Hr1) as (Hm1 & Hms1 & Ht1).
    rewrite (bind_Ret _ _ _ _ _ (quiet_read _ _ _ Hq1')). unfold I2C_GET_STATUS. rewrite bind_gets, Hs1.
    assert (Haa : tst (Z.lor (CTL0 (I2C s1)) (if i2c_SI (I2C s1) then I2C_CTL0_SI_Msk else 0)) I2C_CTL_AA = ack).
    { change I2C_CTL_AA with (bit 2). rewrite tst_bit, Z.lor_spec, Hb1 by lia.
      destruct (i2c_SI _); by rewrite orb_false_r. }
    rewrite Haa, Z.eqb_refl. cbn [negb]. rewrite bind_gets, Hd1.
    rewrite (store_byte_run i cnt _ m) by (try lia; congruence).
    set (d := u8 (r_data _)). rewrite (u8_small d) by apply u8_range.
    set (m' := with_buf m (zupd (buf m) cnt d)). set (s2 := set_msgs _ s1).
    assert (Hz : znth (msgs s2) i = Some m').
    { unfold s2. cbn [msgs set_msgs]. rewrite Hms1. apply znth_zupd_eq. by eapply znth_Some. }
    destruct todo as [|todo].
    { exists s2. split; [done|]. split; [done|]. cbn [recv_plan received store_bytes].
      unfold s2. rewrite <-Hms1. by apply rest_set_msgs. }
    assert (Hack : ack = true) by (unfold ack; by destruct last). rewrite Hack in *.
    destruct (Z.eqb_spec cnt (cnt + Z.of_nat (S (S todo)) - 1)) as [|_]; [lia|]. rewrite Z.add_0_r.
    replace (cnt + Z.of_nat (S (S todo))) with (cnt + 1 + Z.of_nat (S todo)) by lia.
    destruct (IH (cnt + 1) m' (CRecv true :: w) _ s2 Hq1) as (s3 & E3 & Hq3 & Hr3);
      [done|by rewrite <-Hp, <-Hm1|done|lia|unfold m'; cbn [buf with_buf]; rewrite length_zupd; lia|done|
       unfold s2; cbn [timeout set_msgs]; by rewrite Ht1|].
    exists s3. split; [exact E3|]. rewrite on_wire_cons. split; [done|].
    rewrite Hr3. unfold s2. cbn [msgs set_msgs]. rewrite zupd_zupd, Hms1.
    unfold m', d. rewrite Hack. etransitivity; [|apply (rest_set_msgs _ _ _ Hr1)]. done.
Qed.
End transfer.
