(* ===== verification/I2cSeq.v ===== *)
(** * Sequences of I2C messages

    The commands a sequence of messages asks for ([msgs_plan]) and what the messages hold
    afterwards ([filled]); with a slave that plays along [nu_i2c_mst_xfer] puts exactly that
    on the wire. *)

From Stdlib Require Import ZArith Lia Bool.
From stdpp Require Import base tactics numbers list option.
From S2P Require Import Prelude I2c I2cXfer.

Open Scope Z_scope.

(** ** Plans of messages *)

Definition reads (m : rt_i2c_msg) : bool := has (flags m) RT_I2C_RD.
Definition no_start (m : rt_i2c_msg) : bool := has (flags m) RT_I2C_NO_START.

Definition addr_ack (read : bool) : Z :=
  if read then NU_I2C_MASTER_STATUS_RECEIVE_ADDRESS_ACK else NU_I2C_MASTER_STATUS_TRANSMIT_ADDRESS_ACK.

Definition addr10 (a : Z) : Z := u8 (Z.lor 0xf0 (Z.land (Z.shiftr a 7) 0x06)).

(** Seven address bits and the direction; or the ten-bit prefix with two address bits, the
    low eight bits and, for a read, a repeated START and the prefix with the direction. *)
Definition addr_plan (m : rt_i2c_msg) : list step :=
  if has (flags m) RT_I2C_ADDR_10BIT then
    [(CSend (addr10 (addr m)), addr_ack false); (CSend (u8 (Z.land (addr m) 0xff)), addr_ack false)] ++
    (if reads m then [(CStart, NU_I2C_MASTER_STATUS_REPEAT_START);
                      (CSend (Z.lor (addr10 (addr m)) 1), addr_ack true)] else [])
  else [(CSend (Z.lor (u8 (Z.shiftl (addr m) 1)) (Z.b2z (reads m))), addr_ack (reads m))].

Definition data_plan (last : bool) (m : rt_i2c_msg) : list step :=
  if reads m then recv_plan (Z.to_nat (msg_len m)) last else send_plan (take (Z.to_nat (msg_len m)) (buf m)).

Definition head_plan (i : Z) (m : rt_i2c_msg) : list step :=
  if no_start m then []
  else (if i =? 0 then [] else [(CStart, NU_I2C_MASTER_STATUS_REPEAT_START)]) ++ addr_plan m.

Definition msg_plan (i num : Z) (m : rt_i2c_msg) : list step :=
  head_plan i m ++ data_plan (i =? u32 (num - 1)) m.

Fixpoint msgs_plan (i num : Z) (ms : list rt_i2c_msg) : list step :=
  match ms with
  | [] => []
  | m :: ms' => msg_plan i num m ++ msgs_plan (i + 1) num ms'
  end.

(** A message without START goes on in the direction the bus is in. *)
Fixpoint goes_on (st i num : Z) (ms : list rt_i2c_msg) : Prop :=
  match ms with
  | [] => True
  | m :: ms' =>
      (no_start m = true -> receiving st = reads m) /\
      goes_on (last_status st (msg_plan i num m)) (i + 1) num ms'
  end.

Definition msg_ok (m : rt_i2c_msg) : Prop :=
  0 <= addr m < 2 ^ 16 /\ 0 <= msg_len m <= Z.of_nat (length (buf m)) /\ Forall (fun b => 0 <= b < 256) (buf m).

(** ** The run of a sequence *)

Section sequence.
Context `{P : I2cPeer}.
Implicit Types (s : nu_i2c_bus) (w : list command).

Definition filled_msg w (plan : list step) (m : rt_i2c_msg) : rt_i2c_msg :=
  if reads m then with_buf m (store_bytes (buf m) 0 (received w plan)) else m.

Fixpoint filled w (i num : Z) (ms : list rt_i2c_msg) : list rt_i2c_msg :=
  match ms with
  | [] => []
  | m :: ms' => let plan := msg_plan i num m in
      filled_msg w plan m :: filled (on_wire w plan) (i + 1) num ms'
  end.

Lemma send_expect_run {B} fuel d st' ign w st s (k : Z -> IM B) :
  ready s w st -> 0 <= d < 256 -> receiving st = false -> ends fuel w (CSend d) st' -> calm (timeout s) fuel ->
  exists s', bind (send_expect fuel d st' ign) k s = k RT_EOK s' /\ ready s' (CSend d :: w) st' /\ rest s' = rest s.
Proof.
  intros (Hq & _) Hd Hr He Hc. unfold send_expect. rewrite bind_assoc.
  match goal with |- context [bind (nu_i2c_send_data _ _) ?k s] =>
    destruct (send_data_run fuel d w st st' s k Hq Hd Hr He Hc) as (s1 & -> & Hq1 & Hr1) end.
  exists s1. split; [|done]. cbn [Z.eqb RT_EOK negb]. unfold I2C_GET_STATUS. rewrite bind_assoc, bind_gets.
  destruct Hq1 as ((_ & _ & ->) & _). by rewrite Z.eqb_refl.
Qed.

Lemma bind_then_ok {B} (m n : IM Z) (k : Z -> IM B) s :
  bind (then_ok m n) k s = bind m (fun r => if r =? RT_EOK then bind n k else k r) s.
Proof.
  unfold then_ok. rewrite bind_assoc. apply bind_ext. intros r s'. by destruct (r =? RT_EOK).
Qed.

(** A START ordered with the control word. *)
Lemma start_run {B} fuel st' w st s (k : Z -> IM B) :
  ready s w st -> ends fuel w CStart st' -> calm (timeout s) fuel ->
  exists s', bind (I2C_SET_CONTROL_REG I2C_CTL_STA_SI) (fun _ => bind (nu_i2c_wait_ready_with_timeout fuel) k) s
      = k RT_EOK s' /\ ready s' (CStart :: w) st' /\ rest s' = rest s.
Proof.
  intros (Hq & _) He Hc.
  destruct (control_run fuel I2C_CTL_STA_SI CStart w st st' s k) as (s' & E & Hs & Hr & _); try done.
  by exists s'.
Qed.
Lemma u8_byte x : 0 <= u8 x < 256.
Proof. apply u8_range. Qed.

Lemma byte_lor1 x : 0 <= x < 256 -> 0 <= Z.lor x 1 < 256.
Proof.
  intros Hx. assert (H : is_u8 (Z.lor x 1)); [|exact H].
  rewrite <-(u8_small x) by done. replace (Z.lor (u8 x) 1) with (u8 (Z.lor x 1)); [apply u8_range|].
  apply Z.bits_inj'. intros i Hi. rewrite testbit_u8, !Z.lor_spec, testbit_u8 by done.
  destruct (Z.ltb_spec i 8); [done|]. replace 1 with (bit 0) by done. rewrite testbit_bit by lia.
  by destruct (Z.eqb_spec i 0); [lia|].
Qed.

Lemma bind_assoc_under {A A' D B} (m : IM A) (n : IM A') (f : A' -> IM D) (k : D -> IM B) s :
  bind m (fun _ => bind (bind n f) k) s = bind m (fun _ => bind n (fun r => bind (f r) k)) s.
Proof. apply bind_ext. intros a s'. apply bind_assoc. Qed.

(** The first byte of every address is sent in one of the three ways of [addr_plan]. *)
Lemma send_address_run {B} fuel m w st s (k : Z -> IM B) :
  ready s w st -> receiving st = false -> answers fuel w (addr_plan m) -> calm (timeout s) fuel ->
  exists s', bind (nu_i2c_send_address fuel m) k s = k RT_EOK s' /\
    ready s' (on_wire w (addr_plan m)) (last_status st (addr_plan m)) /\ rest s' = rest s.
Proof.
  intros Hq Hr Ha Hc. unfold nu_i2c_send_address, addr_plan in *. destruct (has _ RT_I2C_ADDR_10BIT).
  - destruct Ha as (He1 & He2 & Ha). unfold set_CTL1. rewrite bind_assoc, bind_modify, bind_then_ok.
    set (s0 := set_I2C _ s). assert (Hq0 : ready s0 w st) by done. assert (Hr0 : rest s0 = rest s) by done.
    edestruct (send_expect_run (B := B) fuel (addr10 (addr m))) as (s1 & E1 & Hq1 & Hr1);
      [exact Hq0|apply u8_byte|done|exact He1|done|]. rewrite E1. clear E1. cbn [Z.eqb RT_EOK].
    rewrite bind_then_ok. destruct (rest_msg _ _ Hr1) as (_ & _ & Ht1).
    edestruct (send_expect_run (B := B) fuel (u8 (Z.land (addr m) 255))) as (s2 & E2 & Hq2 & Hr2);
      [exact Hq1|apply u8_byte|done|exact He2|by rewrite Ht1|]. rewrite E2. clear E2. cbn [Z.eqb RT_EOK].
    destruct (rest_msg _ _ Hr2) as (_ & _ & Ht2). unfold reads in *. destruct (has _ RT_I2C_RD).
    + destruct Ha as (He3 & He4 & _). rewrite bind_assoc, bind_assoc_under.
      edestruct (start_run (B := B) fuel) as (s3 & E3 & Hq3 & Hr3); [exact Hq2|exact He3|by rewrite Ht2, Ht1|].
      rewrite E3. clear E3. destruct (rest_msg _ _ Hr3) as (_ & _ & Ht3).
      cbn [Z.eqb RT_EOK negb]. unfold I2C_GET_STATUS. rewrite bind_assoc, bind_gets.
      pose proof Hq3 as ((_ & _ & ->) & _). cbn [Z.eqb Pos.eqb NU_I2C_MASTER_STATUS_REPEAT_START negb andb].
      fold (addr10 (addr m)).
      edestruct (send_expect_run (B := B) fuel (Z.lor (addr10 (addr m)) 1)) as (s4 & E4 & Hq4 & Hr4);
        [exact Hq3|apply byte_lor1, u8_byte|done|exact He4|by rewrite Ht3, Ht2, Ht1|]. rewrite E4.
      exists s4. split; [done|]. split; [done|]. congruence.
    + exists s2. split; [done|]. split; [done|]. congruence.
  - destruct Ha as [He _]. unfold reads in *.
    assert (Hb : 0 <= u8 (addr m ≪ 1) < 256) by apply u8_byte.
    destruct (has _ RT_I2C_RD); cbn [Z.b2z] in *; [|rewrite Z.lor_0_r in *];
      (edestruct (send_expect_run (B := B) fuel) as (s1 & E1 & Hq1 & Hr1);
       [exact Hq| |done|exact He|done|rewrite E1; by exists s1]); [by apply byte_lor1|done].
Qed.
Lemma address_phase_run {B} fuel i m w st s (k : option Z -> IM B) :
  ready s w st -> (no_start m = false -> i = 0 -> receiving st = false) ->
  answers fuel w (head_plan i m) -> calm (timeout s) fuel ->
  exists s', bind (address_phase fuel m i) k s = k None s' /\
    ready s' (on_wire w (head_plan i m)) (last_status st (head_plan i m)) /\ rest s' = rest s.
Proof.
  intros Hq Hr Ha Hc. unfold address_phase, head_plan, no_start in *.
  destruct (has _ RT_I2C_NO_START); [by exists s|]. rewrite !bind_assoc.
  destruct (i =? 0) eqn:Hi.
  - rewrite bind_ret_l, bind_assoc. apply Z.eqb_eq in Hi.
    edestruct (send_address_run (B := B) fuel m) as (s1 & E1 & Hq1 & Hr1); [exact Hq|by apply Hr|exact Ha|done|].
    rewrite E1. by exists s1.
  - rewrite bind_assoc, bind_assoc_under. destruct Ha as [He Ha].
    edestruct (start_run (B := B) fuel) as (s1 & E1 & Hq1 & Hr1); [exact Hq|exact He|done|].
    rewrite E1. clear E1. cbn [Z.eqb RT_EOK negb]. unfold I2C_GET_STATUS. rewrite bind_assoc, bind_gets.
    pose proof Hq1 as ((_ & _ & ->) & _). cbn [Z.eqb Pos.eqb NU_I2C_MASTER_STATUS_REPEAT_START negb].
    rewrite bind_ret_l, bind_assoc. destruct (rest_msg _ _ Hr1) as (_ & _ & Ht1).
    edestruct (send_address_run (B := B) fuel m) as (s2 & E2 & Hq2 & Hr2);
      [exact Hq1|done|exact Ha|by rewrite Ht1|].
    rewrite E2. exists s2. cbn [app]. rewrite on_wire_cons. split; [done|]. split; [done|]. congruence.
Qed.

(** No byte is received while a message is headed. *)
Lemma received_app w p1 p2 : received w (p1 ++ p2) = received w p1 ++ received (on_wire w p1) p2.
Proof.
  revert w. induction p1 as [|[c st] p1 IH]; intros w; [done|].
  rewrite on_wire_cons. destruct c; cbn [app received]; by rewrite IH.
Qed.

Lemma received_head w i m : received w (head_plan i m) = [].
Proof.
  unfold head_plan, addr_plan. destruct (no_start m); [done|].
  by destruct (i =? 0), (has _ _), (reads m).
Qed.

(** Where the head leaves the bus: going in the direction of the message. *)
Lemma head_direction i st m :
  (no_start m = true -> receiving st = reads m) -> receiving (last_status st (head_plan i m)) = reads m.
Proof.
  intros H. unfold head_plan, addr_plan. destruct (no_start m); [by apply H|]. clear H.
  by destruct (i =? 0), (has _ _), (reads m).
Qed.

Lemma data_phase_run fuel i num m w st s :
  ready s w st -> receiving st = reads m -> msg s = true -> znth (msgs s) i = Some m -> msg_ok m ->
  answers fuel w (data_plan (i =? u32 (num - 1)) m) -> calm (timeout s) fuel ->
  let plan := data_plan (i =? u32 (num - 1)) m in
  exists s', data_phase fuel m i num s = Ret (i, s') /\
    ready s' (on_wire w plan) (last_status st plan) /\
    rest s' = rest (set_msgs (zupd (msgs s) i (filled_msg w plan m)) s).
Proof.
  intros Hq Hr Hp Hm (_ & Hl & Hb) Ha Hc plan. unfold plan, data_phase, data_plan, filled_msg in *. clear plan.
  change (has (flags m) RT_I2C_RD) with (reads m). destruct (reads m).
  - destruct (recv_loop_run fuel (Z.to_nat (msg_len m)) i 0 (i =? u32 (num - 1)) m w st s Hq Hr Hp Hm)
      as (s' & E & Hs); [lia|lia|done|done|].
    rewrite Z.add_0_l, Z2Nat.id in E by lia. by exists s'.
  - destruct (send_loop_run fuel (Z.to_nat (msg_len m)) i 0 (has (flags m) RT_I2C_IGNORE_NACK) m w st s Hq Hr Hp Hm)
      as (s' & E & Hs & Hrest); [lia|lia|done|done|done|].
    exists s'. split; [done|]. split; [done|]. rewrite (zupd_same _ _ _ Hm). by destruct s.
Qed.
(** One message of the loop. *)
Lemma message_run fuel i num m w st s (k : Z -> IM Z) :
  ready s w st -> (i = 0 -> receiving st = false) -> (no_start m = true -> receiving st = reads m) ->
  msg s = true -> znth (msgs s) i = Some m -> msg_ok m ->
  answers fuel w (msg_plan i num m) -> calm (timeout s) fuel ->
  exists s', bind (address_phase fuel m i) (fun early =>
      match early with Some j => ret j | None => bind (data_phase fuel m i num) k end) s = k i s' /\
    ready s' (on_wire w (msg_plan i num m)) (last_status st (msg_plan i num m)) /\
    rest s' = rest (set_msgs (zupd (msgs s) i (filled_msg w (msg_plan i num m) m)) s).
Proof.
  intros Hq Hi Hn Hp Hm Hok Ha Hc. unfold msg_plan in *. apply answers_app in Ha as [Ha1 Ha2].
  edestruct (address_phase_run (B := Z) fuel i m) as (s1 & E1 & Hq1 & Hr1); [exact Hq|intros _; exact Hi|exact Ha1|done|].
  rewrite E1. clear E1. destruct (rest_msg _ _ Hr1) as (Hp1 & Hm1 & Ht1).
  destruct (data_phase_run fuel i num m _ _ s1 Hq1) as (s2 & E2 & Hq2 & Hr2);
    [by apply head_direction|by rewrite Hp1|by rewrite Hm1|done|done|by rewrite Ht1|].
  rewrite (bind_Ret _ _ _ _ _ E2). exists s2. split; [done|].
  rewrite on_wire_app, last_status_app. split; [done|].
  rewrite Hr2, Hm1. unfold filled_msg. rewrite received_app, received_head. cbn [app].
  by apply rest_set_msgs.
Qed.

Lemma rest_trans_msgs s1 s l l' : rest s1 = rest (set_msgs l s) -> rest (set_msgs l' s1) = rest (set_msgs l' s).
Proof. unfold rest. cbn. intros [= ]. congruence. Qed.

Lemma msg_loop_run turns fuel num pre suf w st s :
  ready s w st -> (pre = [] -> receiving st = false) ->
  msg s = true -> msgs s = pre ++ suf -> num = Z.of_nat (length (pre ++ suf)) -> num < 2 ^ 32 ->
  let i := Z.of_nat (length pre) in
  goes_on st i num suf -> Forall msg_ok suf -> answers fuel w (msgs_plan i num suf) -> calm (timeout s) fuel ->
  (length suf < turns)%nat ->
  exists s', msg_loop turns fuel i num s = Ret (num, s') /\
    ready s' (on_wire w (msgs_plan i num suf)) (last_status st (msgs_plan i num suf)) /\
    rest s' = rest (set_msgs (pre ++ filled w i num suf) s).
Proof.
  revert turns pre w st s. induction suf as [|m suf IH]; intros turns pre w st s Hq Hz Hp Hm Hnum Hn i Hg Hok Ha Hc Ht;
    (destruct turns as [|turns]; [cbn in Ht; lia|]); cbn [msg_loop]; rewrite length_app in Hnum; cbn [length] in *.
  - destruct (Z.ltb_spec i num); [unfold i in *; lia|]. exists s.
    split; [replace i with num by (unfold i; lia); done|]. split; [done|]. cbn [filled]. rewrite <-Hm. by destruct s.
  - destruct (Z.ltb_spec i num); [|unfold i in *; lia].
    cbn [msgs_plan goes_on] in *. apply answers_app in Ha as [Ha1 Ha2]. destruct Hg as [Hg1 Hg2].
    apply Forall_cons_1 in Hok as [Hok1 Hok2].
    assert (Hl : znth (msgs s) i = Some m).
    { rewrite Hm. unfold znth, i. destruct (Z.ltb_spec (Z.of_nat (length pre)) 0); [lia|].
      by rewrite Nat2Z.id, lookup_app_r, Nat.sub_diag by lia. }
    rewrite (cur_msg_run i m) by done.
    edestruct (message_run fuel i num m) as (s1 & E1 & Hq1 & Hr1);
      [exact Hq|intros Hi; apply Hz; apply nil_length_inv; unfold i in Hi; lia|done|done|done|done|exact Ha1|done|].
    rewrite E1. clear E1. destruct (rest_msg _ _ Hr1) as (Hp1 & Hm1 & Ht1).
    set (m' := filled_msg w (msg_plan i num m) m) in *.
    assert (Hms : zupd (msgs s) i m' = (pre ++ [m']) ++ suf).
    { rewrite Hm. unfold zupd, i. rewrite Nat2Z.id, insert_app_r_alt, Nat.sub_diag by lia. cbn. by rewrite <-app_assoc. }
    cbn [msgs set_msgs] in Hm1. rewrite Hms in Hm1.
    replace (u32 (i + 1)) with (Z.of_nat (length (pre ++ [m'])))
      by (rewrite length_app, u32_small; cbn [length]; unfold is_u32, i in *; lia).
    assert (Hi' : Z.of_nat (length (pre ++ [m'])) = i + 1) by (rewrite length_app; cbn [length]; unfold i; lia).
    destruct (IH turns (pre ++ [m']) _ _ s1 Hq1) as (s2 & E2 & Hq2 & Hr2);
      [by destruct pre|by rewrite Hp1|done|rewrite !length_app; cbn [length]; lia|done|by rewrite Hi'|done
      |by rewrite Hi'|by rewrite Ht1|lia|].
    rewrite Hi' in *. exists s2. split; [done|]. rewrite on_wire_app, last_status_app. split; [done|].
    rewrite Hr2. cbn [filled]. fold m'. rewrite <-app_assoc. by eapply rest_trans_msgs.
Qed.
(** ** STOP *)

Lemma stop_loop_run fuel n c b st d s :
  pending (I2C s) = Some (c, Some n, st, d) -> c = CStop b -> Z.testbit (CTL0 (I2C s)) 4 = true ->
  i2c_SI (I2C s) = false -> (n < fuel)%nat ->
  exists s', stop_loop fuel s = Ret (tt, s') /\ quiet s' (wire (I2C s)) st /\
    Z.testbit (CTL0 (I2C s')) 4 = false /\ rest s' = rest s.
Proof.
  intros Hp -> H4 Hsi. revert n s Hp H4 Hsi. induction fuel as [|fuel IH]; intros n s Hp H4 Hsi Hn; [lia|].
  cbn [stop_loop]. unfold bind at 1, read_CTL0, hw_look. rewrite Hp.
  change I2C_CTL0_STO_Msk with (bit 4). destruct n as [|n]; cbn [CTL0 i2c_SI].
  - assert (E : Z.testbit (Z.land (CTL0 (I2C s)) (not32 (bit 4))) 4 = false)
      by (rewrite Z.land_spec, testbit_not32, testbit_bit by lia; apply andb_false_r).
    rewrite tst_bit, Z.lor_0_r, E by lia. eexists. split; [reflexivity|]. by split_and!.
  - rewrite tst_bit, Hsi, Z.lor_0_r, H4 by lia. set (s1 := set_I2C _ s).
    destruct (IH n s1) as (s2 & E2 & Hs2); [done..|lia|]. by exists s2.
Qed.

(** STOP; STA is not taken back, so that a START may be asked for with it. *)
Lemma stop_run {B} fuel st' w st s (k : unit -> IM B) :
  let c := CStop match w with c :: _ => starts c | [] => false end in
  ready s w st -> ends fuel w c st' ->
  exists s', bind (I2C_STOP fuel) k s = k tt s' /\ quiet s' (c :: w) st' /\
    Z.testbit (CTL0 (I2C s')) 4 = false /\ rest s' = rest s.
Proof.
  intros c (Hq & H4 & H5) (n & Hn & Hlt & Hst). pose proof Hq as (Hp & Hw & Hs).
  unfold I2C_STOP. rewrite bind_assoc, (bind_Ret _ _ _ _ _ (quiet_read s w st Hq)).
  set (v := Z.lor _ (Z.lor I2C_CTL0_SI_Msk I2C_CTL0_STO_Msk)).
  assert (Hb : forall i, 0 <= i -> Z.testbit v i = (i =? 3) || (i =? 4) || Z.testbit (CTL0 (I2C s)) i).
  { intros i Hi. unfold v. change I2C_CTL0_SI_Msk with (bit 3). change I2C_CTL0_STO_Msk with (bit 4).
    rewrite !Z.lor_spec, !testbit_bit by lia. destruct (i2c_SI _); rewrite ?testbit_bit, ?Z.testbit_0_l by lia;
    destruct (i =? 3), (i =? 4), (Z.testbit _ i); done. }
  assert (Hc : command_of v st (DAT (I2C s)) = c).
  { unfold command_of, c. change I2C_CTL0_STO_Msk with (bit 4). change I2C_CTL0_STA_Msk with (bit 5).
    rewrite !tst_bit, !Hb, H5 by lia. done. }
  unfold write_CTL0. rewrite bind_assoc, bind_modify, (write_orders v c st n st' w s) by (done || by rewrite Hb by lia).
  set (s1 := set_I2C _ s).
  destruct (stop_loop_run fuel n c (match w with c :: _ => starts c | [] => false end) st' (r_data (replies w c)) s1)
    as (s2 & E2 & Hs2 & H4' & Hr2); [by unfold s1; cbn; rewrite Hw|done| |done|done|].
  { unfold s1. cbn [I2C set_I2C]. rewrite ordered_bit, Hb by lia. done. }
  rewrite (bind_Ret _ _ _ _ _ E2). exists s2. split; [done|]. split; [|done].
  unfold s1 in Hs2. cbn [I2C set_I2C ordered wire] in Hs2. by rewrite Hw in Hs2.
Qed.

(** ** The transfer *)

Definition xfer_body (ms : list rt_i2c_msg) : list step :=
  (CStart, NU_I2C_MASTER_STATUS_START) :: msgs_plan 0 (Z.of_nat (length ms)) ms.

Definition latest_starts w : bool := match w with c :: _ => starts c | [] => false end.

(** START, the messages, STOP. *)
Definition xfer_plan (ms : list rt_i2c_msg) : list step :=
  xfer_body ms ++ [(CStop (latest_starts (on_wire [] (xfer_body ms))), NU_I2C_MASTER_STATUS_BUS_RELEASED)].

Lemma latest_on_wire w ms : latest_starts (on_wire w (xfer_body ms)) = latest_starts (on_wire [] (xfer_body ms)).
Proof.
  unfold on_wire, xfer_body. destruct (rev _) as [|c l] eqn:E; [|done].
  apply (f_equal (@length _)) in E. by rewrite length_rev in E.
Qed.

(** Between transfers: no action under way and STO clear. *)
Definition idle s : Prop := pending (I2C s) = None /\ Z.testbit (CTL0 (I2C s)) 4 = false.

(** The control word of the first START. *)
Lemma first_start c0 (si : bool) st d :
  Z.testbit c0 4 = false ->
  let v := Z.lor (Z.lor c0 (if si then I2C_CTL0_SI_Msk else 0)) (Z.lor I2C_CTL0_STA_Msk I2C_CTL0_SI_Msk) in
  Z.testbit v 3 = true /\ command_of v st d = CStart.
Proof.
  intros H4 v.
  assert (Hb : forall i, 0 <= i -> Z.testbit v i = Z.testbit c0 i || (i =? 3) || (i =? 5)).
  { intros i Hi. unfold v. change I2C_CTL0_SI_Msk with (bit 3). change I2C_CTL0_STA_Msk with (bit 5).
    rewrite !Z.lor_spec, !testbit_bit by lia. destruct si; rewrite ?testbit_bit, ?Z.testbit_0_l by lia;
    destruct (i =? 3), (i =? 5), (Z.testbit _ i); done. }
  split; [rewrite Hb by lia; by rewrite orb_true_r|]. unfold command_of.
  change I2C_CTL0_STO_Msk with (bit 4). change I2C_CTL0_STA_Msk with (bit 5).
  rewrite !tst_bit, !Hb, H4 by lia. by rewrite orb_true_r.
Qed.

(** What follows the loop over the messages. *)
Definition xfer_tail (fuel : nat) (i : Z) : IM Z :=
  I2C_STOP fuel ;;
  let! st := I2C_GET_STATUS in
  rt_assert (st =? NU_I2C_MASTER_STATUS_BUS_RELEASED) ;;
  let! st := I2C_GET_STATUS in
  let i := if negb (st =? NU_I2C_MASTER_STATUS_BUS_RELEASED) then 0 else i in
  modify (set_msg false) ;;
  set_CTL1 (fun _ => 0) ;;
  ret i.

(** The first START, whatever it ends with. *)
Lemma xfer_first_start turns fuel ms num st s :
  idle s -> ends fuel (wire (I2C s)) CStart st -> calm (timeout s) fuel ->
  exists s1, nu_i2c_mst_xfer turns fuel ms num s =
      (if st =? NU_I2C_MASTER_STATUS_START then bind (msg_loop turns fuel 0 num) (xfer_tail fuel) s1 else Ret (0, s1)) /\
    ready s1 (CStart :: wire (I2C s)) st /\ rest s1 = rest (set_msg true (set_msgs ms s)).
Proof.
  intros [Hp H4] He Hc. set (w := wire (I2C s)) in *.
  unfold nu_i2c_mst_xfer. rewrite bind_modify. set (s0 := set_msg _ _).
  assert (Hq0 : quiet s0 w (STATUS0 (I2C s))) by done.
  rewrite (bind_Ret _ _ _ _ _ (quiet_read _ _ _ Hq0)). set (v := Z.lor _ (Z.lor I2C_CTL0_STA_Msk I2C_CTL0_SI_Msk)).
  destruct (first_start (CTL0 (I2C s0)) (i2c_SI (I2C s0)) (STATUS0 (I2C s)) (DAT (I2C s0)) H4) as [H3 Hcmd].
  edestruct (order_run (B := Z) fuel v CStart w) as (s1 & E1 & Hq1 & Hr1 & _);
    [exact Hq0|exact H3|exact Hcmd|done|exact He|done|].
  rewrite E1. clear E1. cbn [Z.eqb RT_EOK negb]. unfold I2C_GET_STATUS at 1. rewrite bind_gets.
  pose proof Hq1 as ((_ & _ & ->) & _). exists s1. split; [|done]. by destruct (st =? NU_I2C_MASTER_STATUS_START).
Qed.

Lemma xfer_tail_run fuel i w st s :
  ready s w st -> ends fuel w (CStop (latest_starts w)) NU_I2C_MASTER_STATUS_BUS_RELEASED ->
  exists s', xfer_tail fuel i s = Ret (i, s') /\ idle s' /\ wire (I2C s') = CStop (latest_starts w) :: w /\
    CTL1 (I2C s') = 0 /\ rest s' = rest (set_msg false s).
Proof.
  intros Hq He. unfold xfer_tail.
  edestruct (stop_run (B := Z) fuel) as (s3 & E3 & Hq3 & H43 & Hr3); [exact Hq|exact He|].
  rewrite E3. clear E3. unfold I2C_GET_STATUS. rewrite bind_gets.
  destruct Hq3 as (Hp3 & Hw3 & Hs3). rewrite Hs3. cbn [Z.eqb Pos.eqb NU_I2C_MASTER_STATUS_BUS_RELEASED].
  rewrite bind_assert by done. rewrite bind_gets, Hs3, bind_modify. unfold set_CTL1. rewrite bind_modify.
  eexists. split; [reflexivity|]. split; [done|]. split; [done|]. split; [done|].
  revert Hr3. unfold rest. cbn. intros [= ]. congruence.
Qed.

Lemma mst_xfer_run turns fuel ms num s :
  idle s -> num = Z.of_nat (length ms) -> num < 2 ^ 32 -> Forall msg_ok ms ->
  goes_on NU_I2C_MASTER_STATUS_START 0 num ms ->
  answers fuel (wire (I2C s)) (xfer_plan ms) -> calm (timeout s) fuel -> (length ms < turns)%nat ->
  exists s', nu_i2c_mst_xfer turns fuel ms num s = Ret (num, s') /\ idle s' /\
    wire (I2C s') = on_wire (wire (I2C s)) (xfer_plan ms) /\ CTL1 (I2C s') = 0 /\
    rest s' = rest (set_msg false (set_msgs (filled (CStart :: wire (I2C s)) 0 num ms) s)).
Proof.
  intros Hi Hnum Hn Hok Hg Ha Hc Ht. unfold xfer_plan in *. set (w := wire (I2C s)) in *.
  apply answers_app in Ha as [Ha [Hstop _]]. rewrite <-(latest_on_wire w) in *. destruct Ha as [He Ha].
  destruct (xfer_first_start turns fuel ms num _ s Hi He Hc) as (s1 & -> & Hq1 & Hr1). fold w in Hq1.
  rewrite Z.eqb_refl. destruct (rest_msg _ _ Hr1) as (Hp1 & Hm1 & Ht1). rewrite <-Hnum in *.
  destruct (msg_loop_run turns fuel num [] ms _ _ s1 Hq1) as (s2 & E2 & Hq2 & Hr2); [done..|by rewrite Ht1|done|].
  change (Z.of_nat (length (@nil rt_i2c_msg))) with 0 in E2, Hq2, Hr2. cbn [app] in Hr2.
  rewrite (bind_Ret _ _ _ _ _ E2). clear E2.
  assert (Hw2 : on_wire (CStart :: w) (msgs_plan 0 num ms) = on_wire w (xfer_body ms))
    by (unfold xfer_body; by rewrite on_wire_cons, Hnum).
  rewrite Hw2 in Hq2.
  destruct (xfer_tail_run fuel num _ _ s2 Hq2 Hstop) as (s3 & -> & Hi3 & Hw3 & Hc3 & Hr3).
  exists s3. split; [done|]. split; [done|]. split; [by rewrite Hw3, on_wire_app|]. split; [done|].
  rewrite Hr3. revert Hr1 Hr2. unfold rest. cbn. intros [= ] [= ]. congruence.
Qed.
End sequence.
