(* ===== verification/I2cBus.v ===== *)
(** * The I2C bus

    What [rt_i2c_transfer], [rt_i2c_master_send] and [rt_i2c_master_recv] give their
    callers, with a slave that plays along and with one that refuses a byte. *)

From Stdlib Require Import ZArith Lia Bool List.
From stdpp Require Import base tactics numbers list option.
From S2P Require Import Prelude I2c I2cXfer I2cSeq.

Open Scope Z_scope.

Section bus.
Context `{P : I2cPeer}.
Implicit Types (s : nu_i2c_bus) (w : list command).

(** What a transfer keeps: the time-out, the lock, the error number and the divider. *)
Definition settings s : Z * Z * Z * Z := (timeout s, bus_lock s, i2c_errno s, CLKDIV (I2C s)).

(** C2: a transfer with a slave that plays along.  Between transfers, with any messages -
    sent or received, to seven-bit or ten-bit addresses, with their own START or going on
    without one - whose buffers hold their lengths, and a slave that answers each command of
    the plan of these messages with the status for it within the time-out,
    [rt_i2c_transfer] returns the number of messages; the wire has carried exactly the plan
    (START, addresses, bytes in order, every received byte acknowledged but the last of the
    last message, STOP); each receive buffer holds the bytes the slave sent, in order, and
    everything else of the messages is as it was; lock, time-out, error number and divider
    are unchanged and the bus is idle again. *)
Theorem i2c_transfer_wire turns fuel ms num s :
  idle s -> num = Z.of_nat (length ms) -> num < 2 ^ 32 -> Forall msg_ok ms ->
  goes_on NU_I2C_MASTER_STATUS_START 0 num ms ->
  answers fuel (wire (I2C s)) (xfer_plan ms) -> calm (timeout s) fuel -> (length ms < turns)%nat ->
  exists s', rt_i2c_transfer turns fuel ms num s = Ret (num, s') /\
    wire (I2C s') = on_wire (wire (I2C s)) (xfer_plan ms) /\
    msgs s' = filled (CStart :: wire (I2C s)) 0 num ms /\
    idle s' /\ msg s' = false /\ CTL1 (I2C s') = 0 /\ settings s' = settings s.
Proof.
  intros Hi Hnum Hn Hok Hg Ha Hc Ht. unfold rt_i2c_transfer. rewrite bind_modify. set (s0 := set_lock _ s).
  destruct (mst_xfer_run turns fuel ms num s0) as (s1 & E1 & Hi1 & Hw1 & Hc1 & Hr1); [done..|].
  rewrite (bind_Ret _ _ _ _ _ E1), bind_modify. eexists. split; [reflexivity|].
  revert Hr1. unfold rest, settings. cbn. intros [= ]. split_and!; try done; try congruence.
  f_equal; [|congruence]. f_equal; [|congruence]. f_equal; [congruence|]. lia.
Qed.

(** *** A slave that refuses *)

(** A send without the flags that change its course. *)
Definition plain_flags (f : Z) : Prop :=
  has (u16 f) RT_I2C_RD = false /\ has (u16 f) RT_I2C_ADDR_10BIT = false /\
  has (u16 f) RT_I2C_NO_START = false /\ has (u16 f) RT_I2C_IGNORE_NACK = false.

Lemma send_loop_refused fuel j todo i m b st w st0 s :
  ready s w st0 -> receiving st0 = false -> msg s = true -> znth (msgs s) i = Some m ->
  buf m !! j = Some b -> (j < todo)%nat -> Forall (fun b => 0 <= b < 256) (buf m) ->
  answers fuel w (send_plan (take j (buf m)) ++ [(CSend b, st)]) -> st <> NU_I2C_MASTER_STATUS_TRANSMIT_DATA_ACK ->
  calm (timeout s) fuel ->
  exists s', send_loop fuel todo i 0 false s = Ret (0, s') /\
    ready s' (on_wire w (send_plan (take j (buf m)) ++ [(CSend b, st)])) st /\ rest s' = rest s.
Proof.
  intros Hq Hr Hp Hm Hb Hj Hok Ha Hst Hc. apply answers_app in Ha as [Ha [He _]].
  assert (Hlen : (j < length (buf m))%nat) by by eapply lookup_lt_Some.
  destruct (send_loop_first fuel j (S (todo - S j)) i 0 false m w st0 s) as (s1 & E1 & Hq1 & Hr1);
    [done..|lia|lia|done|done|done|].
  replace (j + S (todo - S j))%nat with todo in E1 by lia. rewrite E1. clear E1.
  change (Z.to_nat 0) with 0%nat in *. rewrite drop_0 in *. destruct (rest_msg _ _ Hr1) as (Hp1 & Hm1 & Ht1).
  cbn [send_loop]. rewrite (cur_msg_run i m) by congruence.
  assert (Ez : znth (buf m) (0 + Z.of_nat j) = Some b)
    by (unfold znth; destruct (Z.ltb_spec (0 + Z.of_nat j) 0); [lia|]; by rewrite Z.add_0_l, Nat2Z.id).
  assert (Hbb : 0 <= b < 256) by (rewrite Forall_lookup in Hok; by eapply Hok).
  rewrite (bind_deref _ _ _ _ Ez), u8_small by done.
  edestruct (send_data_run (B := Z) fuel b) as (s2 & E2 & Hq2 & Hr2); [exact (proj1 Hq1)|done| |exact He|by rewrite Ht1|].
  { unfold last_status, send_plan. clear -Hr. revert st0 Hr. induction (take j (buf m)); intros st0 Hr; [done|]. by apply IHl. }
  rewrite E2. cbn [Z.eqb RT_EOK negb]. unfold I2C_GET_STATUS. rewrite bind_gets.
  pose proof Hq2 as ((_ & _ & ->) & _). destruct (Z.eqb_spec st NU_I2C_MASTER_STATUS_TRANSMIT_DATA_ACK); [done|].
  exists s2. split; [done|]. rewrite on_wire_app. split; [done|]. congruence.
Qed.
(** The first message of a send: its address byte, answered with [st]. *)
Definition write_address (a : Z) : Z := u8 (Z.shiftl (u16 a) 1).

Lemma send_address_refused {B} fuel m st w st0 s (k : option Z -> IM B) i :
  reads m = false -> has (flags m) RT_I2C_ADDR_10BIT = false -> no_start m = false ->
  has (flags m) RT_I2C_IGNORE_NACK = false -> i = 0 ->
  ready s w st0 -> receiving st0 = false -> ends fuel w (CSend (u8 (Z.shiftl (addr m) 1))) st ->
  st <> NU_I2C_MASTER_STATUS_TRANSMIT_ADDRESS_ACK -> calm (timeout s) fuel ->
  exists s', bind (address_phase fuel m i) k s = k (Some 0) s' /\
    ready s' (CSend (u8 (Z.shiftl (addr m) 1)) :: w) st /\ rest s' = rest s.
Proof.
  unfold reads, no_start. intros Hrd H10 Hns Hig -> Hq Hr He Hst Hc. unfold address_phase. rewrite Hns.
  change (0 =? 0) with true. cbv iota. rewrite bind_assoc, bind_ret_l, bind_assoc.
  unfold nu_i2c_send_address. rewrite H10, Hrd, Hig. unfold send_expect. rewrite bind_assoc.
  edestruct (send_data_run (B := B) fuel) as (s1 & E1 & Hq1 & Hr1);
    [exact (proj1 Hq)|apply u8_byte|done|exact He|done|].
  rewrite E1. exists s1. split; [|done]. cbn [Z.eqb RT_EOK negb]. unfold I2C_GET_STATUS.
  rewrite bind_assoc, bind_gets. destruct Hq1 as ((_ & _ & ->) & _).
  by destruct (Z.eqb_spec st NU_I2C_MASTER_STATUS_TRANSMIT_ADDRESS_ACK).
Qed.

(** The slave's answers up to a refused address, and up to a refused byte [j]. *)
Definition address_refused (a st : Z) : list step :=
  [(CStart, NU_I2C_MASTER_STATUS_START); (CSend (write_address a), st);
   (CStop false, NU_I2C_MASTER_STATUS_BUS_RELEASED)].

Definition byte_refused (a : Z) (acked : list Z) (b st : Z) : list step :=
  [(CStart, NU_I2C_MASTER_STATUS_START);
   (CSend (write_address a), NU_I2C_MASTER_STATUS_TRANSMIT_ADDRESS_ACK)] ++
  send_plan acked ++ [(CSend b, st); (CStop false, NU_I2C_MASTER_STATUS_BUS_RELEASED)].

Lemma byte_refused_alt a acked b st :
  byte_refused a acked b st =
  (CStart, NU_I2C_MASTER_STATUS_START) ::
  ((CSend (write_address a), NU_I2C_MASTER_STATUS_TRANSMIT_ADDRESS_ACK) :: send_plan acked ++ [(CSend b, st)]) ++
  [(CStop false, NU_I2C_MASTER_STATUS_BUS_RELEASED)].
Proof. unfold byte_refused. cbn [app]. by rewrite <-app_assoc. Qed.

(** A send up to the loop over its only message. *)
Lemma master_send_start turns fuel a fl l count st s :
  idle s -> ends fuel (wire (I2C s)) CStart st -> calm (timeout s) fuel ->
  let m := mkMsg (u16 a) (u16 fl) (u16 count) l in
  exists s1, rt_i2c_master_send turns fuel a fl l count s =
      bind (if st =? NU_I2C_MASTER_STATUS_START then bind (msg_loop turns fuel 0 1) (xfer_tail fuel) else ret 0)
        (fun r => bind (modify (fun s => set_lock (bus_lock s - 1) s)) (fun _ => ret (if 0 <? r then count else r))) s1 /\
    ready s1 (CStart :: wire (I2C s)) st /\ msg s1 = true /\ msgs s1 = [m] /\ timeout s1 = timeout s.
Proof.
  intros Hi He Hc m. unfold rt_i2c_master_send, rt_i2c_transfer.
  rewrite bind_assoc, bind_modify, bind_assoc. fold m. set (s0 := set_lock _ s).
  destruct (xfer_first_start turns fuel [m] 1 st s0 Hi He Hc) as (s1 & E1 & Hq1 & Hr1).
  exists s1. split; [|split; [done|by apply rest_msg in Hr1]].
  unfold bind at 1. rewrite E1.
  destruct (st =? NU_I2C_MASTER_STATUS_START); [|reflexivity].
  unfold bind at 4. by destruct (bind (msg_loop _ _ _ _) _ _) as [[? ?]| | |].
Qed.
(** After the loop the bus is stopped and the lock given back. *)
Lemma master_send_end turns fuel count i w st s s2 :
  msg_loop turns fuel 0 1 s = Ret (i, s2) -> ready s2 w st -> latest_starts w = false ->
  ends fuel w (CStop false) NU_I2C_MASTER_STATUS_BUS_RELEASED ->
  exists s', bind (bind (msg_loop turns fuel 0 1) (xfer_tail fuel))
        (fun r => bind (modify (fun s => set_lock (bus_lock s - 1) s)) (fun _ => ret (if 0 <? r then count else r))) s
      = Ret (if 0 <? i then count else i, s') /\ wire (I2C s') = CStop false :: w /\ idle s' /\ msg s' = false.
Proof.
  intros E Hq Hl He. rewrite bind_assoc, (bind_Ret _ _ _ _ _ E). rewrite <-Hl in He |- *.
  destruct (xfer_tail_run fuel i w st s2 Hq He) as (s3 & E3 & Hi3 & Hw3 & _ & Hr3).
  rewrite (bind_Ret _ _ _ _ _ E3), bind_modify. eexists. split; [reflexivity|]. split; [done|]. split; [done|].
  rewrite Hl. by apply rest_msg in Hr3 as (Hm3 & _).
Qed.

Lemma msg_loop_address_refused turns fuel a fl l count st w s :
  plain_flags fl -> ready s w NU_I2C_MASTER_STATUS_START -> msg s = true ->
  msgs s = [mkMsg (u16 a) (u16 fl) (u16 count) l] -> (0 < turns)%nat ->
  ends fuel w (CSend (write_address a)) st -> st <> NU_I2C_MASTER_STATUS_TRANSMIT_ADDRESS_ACK ->
  calm (timeout s) fuel ->
  exists s', msg_loop turns fuel 0 1 s = Ret (0, s') /\ ready s' (CSend (write_address a) :: w) st.
Proof.
  intros (H1 & H2 & H3 & H4) Hq Hp Hm Ht He Hst Hc. destruct turns as [|turns]; [lia|].
  cbn [msg_loop]. change (0 <? 1) with true. cbv iota.
  set (m := mkMsg _ _ _ _) in Hm. rewrite (cur_msg_run 0 m) by (done || by rewrite Hm).
  edestruct (send_address_refused (B := Z) fuel m st w) as (s1 & E1 & Hq1 & _);
    [done|done|done|done|reflexivity|exact Hq|done|exact He|done|done|].
  rewrite E1. by exists s1.
Qed.

Lemma msg_loop_byte_refused turns fuel a fl l count j b st w s :
  plain_flags fl -> ready s w NU_I2C_MASTER_STATUS_START -> msg s = true ->
  msgs s = [mkMsg (u16 a) (u16 fl) (u16 count) l] -> (1 < turns)%nat ->
  l !! j = Some b -> Z.of_nat j < u16 count -> Forall (fun b => 0 <= b < 256) l ->
  answers fuel w ((CSend (write_address a), NU_I2C_MASTER_STATUS_TRANSMIT_ADDRESS_ACK) ::
                  send_plan (take j l) ++ [(CSend b, st)]) ->
  st <> NU_I2C_MASTER_STATUS_TRANSMIT_DATA_ACK -> calm (timeout s) fuel ->
  exists s', msg_loop turns fuel 0 1 s = Ret (1, s') /\
    ready s' (on_wire (CSend (write_address a) :: w) (send_plan (take j l) ++ [(CSend b, st)])) st.
Proof.
  intros (H1 & H2 & H3 & H4) Hq Hp Hm Ht Hb Hj Hok [He Ha] Hst Hc. destruct turns as [|[|turns]]; [lia|lia|].
  cbn [msg_loop]. change (0 <? 1) with true. cbv iota.
  set (m := mkMsg _ _ _ _) in Hm. rewrite (cur_msg_run 0 m) by (done || by rewrite Hm).
  assert (Hplan : head_plan 0 m = [(CSend (write_address a), NU_I2C_MASTER_STATUS_TRANSMIT_ADDRESS_ACK)]).
  { unfold head_plan, no_start, addr_plan, reads, m. cbn [flags addr]. rewrite H1, H2, H3. cbn. by rewrite Z.lor_0_r. }
  edestruct (address_phase_run (B := Z) fuel 0 m) as (s1 & E1 & Hq1 & Hr1);
    [exact Hq|done|by rewrite Hplan|done|]. rewrite E1. clear E1. rewrite Hplan in Hq1.
  destruct (rest_msg _ _ Hr1) as (Hp1 & Hm1 & Ht1). rewrite Hm in Hm1.
  destruct (send_loop_refused fuel j (Z.to_nat (msg_len m)) 0 m b st _ _ s1 Hq1) as (s2 & E2 & Hq2 & Hr2);
    [done|by rewrite Hp1|by rewrite Hm1|done|cbn; lia|done|exact Ha|done|by rewrite Ht1|].
  assert (Ed : data_phase fuel m 0 1 s1 = Ret (0, s2)).
  { unfold data_phase. change (flags m) with (u16 fl). rewrite H1, H4. exact E2. }
  rewrite (bind_Ret _ _ _ _ _ Ed). by exists s2.
Qed.

(** C13: what [rt_i2c_master_send] makes of a slave that refuses.  A START that ends with
    another status: 0 is returned without a STOP and the message pointer stays set.  A
    refused address: STOP, and 0 is returned.  A refused data byte [j]: the rest is not
    sent, STOP, and yet [count] is returned, the value of success: the loop over the bytes
    resets the index to 0 and the loop over the messages steps it to 1. *)
Theorem send_errors turns fuel a fl l count s :
  idle s -> plain_flags fl -> calm (timeout s) fuel -> (1 < turns)%nat ->
  Forall (fun b => 0 <= b < 256) l ->
  (forall st, st <> NU_I2C_MASTER_STATUS_START -> ends fuel (wire (I2C s)) CStart st ->
    exists s', rt_i2c_master_send turns fuel a fl l count s = Ret (0, s') /\
      wire (I2C s') = CStart :: wire (I2C s) /\ msg s' = true) /\
  (forall st, st <> NU_I2C_MASTER_STATUS_TRANSMIT_ADDRESS_ACK -> answers fuel (wire (I2C s)) (address_refused a st) ->
    exists s', rt_i2c_master_send turns fuel a fl l count s = Ret (0, s') /\
      wire (I2C s') = on_wire (wire (I2C s)) (address_refused a st) /\ idle s' /\ msg s' = false) /\
  (forall j b st, st <> NU_I2C_MASTER_STATUS_TRANSMIT_DATA_ACK -> l !! j = Some b -> Z.of_nat j < u16 count ->
    answers fuel (wire (I2C s)) (byte_refused a (take j l) b st) ->
    exists s', rt_i2c_master_send turns fuel a fl l count s = Ret (count, s') /\
      wire (I2C s') = on_wire (wire (I2C s)) (byte_refused a (take j l) b st) /\ idle s' /\ msg s' = false).
Proof.
  intros Hi Hf Hc Ht Hok. split; [|split].
  - intros st Hst He. destruct (master_send_start turns fuel a fl l count st s Hi He Hc) as (s1 & -> & Hq1 & Hp1 & _).
    destruct (Z.eqb_spec st NU_I2C_MASTER_STATUS_START); [done|]. rewrite bind_ret_l, bind_modify.
    eexists. split; [reflexivity|]. by destruct Hq1 as ((_ & ? & _) & _).
  - intros st Hst (He & Ha & Hstop & _).
    destruct (master_send_start turns fuel a fl l count _ s Hi He Hc) as (s1 & -> & Hq1 & Hp1 & Hm1 & Ht1).
    rewrite Z.eqb_refl.
    destruct (msg_loop_address_refused turns fuel a fl l count st _ s1 Hf Hq1) as (s2 & E2 & Hq2);
      [done|done|lia|done|done|by rewrite Ht1|].
    by destruct (master_send_end turns fuel count 0 _ st s1 s2 E2 Hq2) as (s3 & -> & Hs3); [|exact Hstop|exists s3].
  - intros j b st Hst Hb Hj Ha. rewrite byte_refused_alt, on_wire_cons, on_wire_app in *. destruct Ha as (He & Ha).
    apply answers_app in Ha as [Ha [Hstop _]]. rewrite on_wire_cons in *.
    destruct (master_send_start turns fuel a fl l count _ s Hi He Hc) as (s1 & -> & Hq1 & Hp1 & Hm1 & Ht1).
    rewrite Z.eqb_refl.
    destruct (msg_loop_byte_refused turns fuel a fl l count j b st _ s1 Hf Hq1) as (s2 & E2 & Hq2);
      [done|done|done|done|done|done|done|done|by rewrite Ht1|].
    destruct (master_send_end turns fuel count 1 _ st s1 s2 E2 Hq2) as (s3 & -> & Hs3); [|exact Hstop|].
    2: { exists s3. by rewrite !on_wire_cons. }
    unfold on_wire. by rewrite map_app, rev_app_distr.
Qed.
(** The commands of the second of two messages up to its first byte, which is refused. *)
Definition second_refused (m : rt_i2c_msg) (b st : Z) : list step := head_plan 1 m ++ [(CSend b, st)].

Definition goes_on_bus (c : command) : Prop := match c with CStop _ => False | _ => True end.

Lemma second_goes_on m b st : reads m = false -> Forall goes_on_bus (rev (map fst (second_refused m b st))).
Proof.
  intros Hrd. unfold second_refused, head_plan, addr_plan. rewrite Hrd.
  destruct (no_start m), (has (flags m) RT_I2C_ADDR_10BIT); repeat constructor.
Qed.

Lemma on_wire_prefix l w p : on_wire (l ++ w) p = (rev (map fst p) ++ l) ++ w.
Proof. unfold on_wire. by rewrite app_assoc. Qed.

Lemma second_refused_again turns fuel m0 m1 b st w1 l st0 s :
  reads m1 = false -> no_start m1 = false -> has (flags m1) RT_I2C_IGNORE_NACK = false -> msg_ok m1 ->
  buf m1 !! 0%nat = Some b -> 0 < msg_len m1 -> st <> NU_I2C_MASTER_STATUS_TRANSMIT_DATA_ACK ->
  (forall l, Forall goes_on_bus l -> answers fuel (l ++ w1) (second_refused m1 b st)) -> Forall goes_on_bus l ->
  ready s (l ++ w1) st0 -> msg s = true -> msgs s = [m0; m1] -> calm (timeout s) fuel ->
  msg_loop turns fuel 1 2 s = OutOfFuel.
Proof.
  intros Hrd Hns Hig Hok Hb Hlen Hst Ha. revert l st0 s.
  induction turns as [|turns IH]; intros l st0 s Hl Hq Hp Hm Hc; [done|].
  cbn [msg_loop]. change (1 <? 2) with true. cbv iota. rewrite (cur_msg_run 1 m1) by (done || by rewrite Hm).
  specialize (Ha l Hl) as Hal. apply answers_app in Hal as [Ha1 Ha2].
  edestruct (address_phase_run (B := Z) fuel 1 m1) as (s1 & E1 & Hq1 & Hr1); [exact Hq|done|exact Ha1|done|].
  rewrite E1. clear E1. destruct (rest_msg _ _ Hr1) as (Hp1 & Hm1 & Ht1).
  destruct (send_loop_refused fuel 0 (Z.to_nat (msg_len m1)) 1 m1 b st _ _ s1 Hq1) as (s2 & E2 & Hq2 & Hr2);
    [rewrite (head_direction 1 st0 m1); by rewrite ?Hns|by rewrite Hp1|by rewrite Hm1, Hm|done|lia|apply Hok|done|done|by rewrite Ht1|].
  assert (Ed : data_phase fuel m1 1 2 s1 = Ret (0, s2)).
  { unfold data_phase. change (has (flags m1) RT_I2C_RD) with (reads m1). by rewrite Hrd, Hig. }
  rewrite (bind_Ret _ _ _ _ _ Ed). change (u32 (0 + 1)) with 1.
  destruct (rest_msg _ _ Hr2) as (Hp2 & Hm2 & Ht2). 
  rewrite <-on_wire_app, on_wire_prefix in Hq2.
  apply (IH _ st s2) with (2 := Hq2); [|by rewrite Hp2, Hp1|by rewrite Hm2, Hm1|by rewrite Ht2, Ht1].
  apply Forall_app. split; [by apply second_goes_on|done].
Qed.

(** C23: when the first byte of the second of two messages is refused, the index is reset
    to 0 and stepped to 1, so the second message is sent again, behind a repeated START:
    with a slave that keeps refusing, the transfer does not end, however many turns of the
    loop are allowed. *)
Theorem endless_retry turns fuel m0 m1 b st s :
  idle s -> calm (timeout s) fuel -> msg_ok m0 -> msg_ok m1 -> no_start m0 = false ->
  reads m1 = false -> no_start m1 = false -> has (flags m1) RT_I2C_IGNORE_NACK = false ->
  buf m1 !! 0%nat = Some b -> 0 < msg_len m1 -> st <> NU_I2C_MASTER_STATUS_TRANSMIT_DATA_ACK ->
  let first := (CStart, NU_I2C_MASTER_STATUS_START) :: msg_plan 0 2 m0 in
  answers fuel (wire (I2C s)) first ->
  (forall l, Forall goes_on_bus l ->
    answers fuel (l ++ on_wire (wire (I2C s)) first) (second_refused m1 b st)) ->
  rt_i2c_transfer turns fuel [m0; m1] 2 s = OutOfFuel.
Proof.
  intros Hi Hc Hok0 Hok1 Hns0 Hrd Hns Hig Hb Hlen Hst first Ha Hrep. unfold first in *. clear first.
  rewrite on_wire_cons in Hrep. destruct Ha as [He Ha].
  unfold rt_i2c_transfer. rewrite bind_modify. set (s0 := set_lock _ s).
  destruct (xfer_first_start turns fuel [m0; m1] 2 _ s0 Hi He Hc) as (s1 & E1 & Hq1 & Hr1).
  rewrite Z.eqb_refl in E1. destruct (rest_msg _ _ Hr1) as (Hp1 & Hm1 & Ht1).
  enough (E : msg_loop turns fuel 0 2 s1 = OutOfFuel).
  { unfold bind at 1. rewrite E1. unfold bind at 1. by rewrite E. }
  destruct turns as [|turns]; [done|]. cbn [msg_loop]. change (0 <? 2) with true. cbv iota.
  rewrite (cur_msg_run 0 m0) by (done || by rewrite Hm1).
  edestruct (message_run fuel 0 2 m0) as (s2 & E2 & Hq2 & Hr2);
    [exact Hq1|done|by rewrite Hns0|done|by rewrite Hm1|done|exact Ha|by rewrite Ht1|].
  rewrite E2. change (u32 (0 + 1)) with 1. destruct (rest_msg _ _ Hr2) as (Hp2 & Hm2 & Ht2).
  eapply (second_refused_again turns fuel _ m1 b st _ []); try done.
  - by rewrite Hp2.
  - rewrite Hm2. cbn [msgs set_msgs]. by rewrite Hm1.
  - by rewrite Ht2; cbn; rewrite Ht1.
Qed.
End bus.

(** ** Witnesses

    A memory of 128 bytes at address 0x50 that sends the count of commands so far and
    refuses bytes from 128 on. *)

Definition memory_status (w : list command) (c : command) : Z :=
  match c with
  | CStart => match w with [] | CStop _ :: _ => NU_I2C_MASTER_STATUS_START | _ => NU_I2C_MASTER_STATUS_REPEAT_START end
  | CSend b =>
      match w with
      | CStart :: _ => if negb (b / 2 =? 0x50) then 0x20 else if Z.odd b then 0x40 else 0x18
      | _ => if b <? 128 then NU_I2C_MASTER_STATUS_TRANSMIT_DATA_ACK else NU_I2C_MASTER_STATUS_TRANSMIT_DATA_NACK
      end
  | CRecv ack => if ack then NU_I2C_MASTER_STATUS_RECEIVE_DATA_ACK else NU_I2C_MASTER_STATUS_RECEIVE_DATA_NACK
  | CStop _ => NU_I2C_MASTER_STATUS_BUS_RELEASED
  end.

#[local] Instance memory_chip : I2cPeer := {|
  replies w c := mkReply (Some 1%nat) (memory_status w c) (Z.of_nat (length w));
  tick_at _ := 0
|}.

Definition bus0 : nu_i2c_bus := mkBus (reset_hw []) 1000 [] false 0 0 0.

Fixpoint plays (w : list command) (plan : list step) : bool :=
  match plan with
  | [] => true
  | (c, st) :: plan' => (memory_status w c =? st) && plays (c :: w) plan'
  end.

Lemma plays_answers k w plan : (1 < k)%nat -> plays w plan = true -> answers k w plan.
Proof.
  intros Hk. revert w. induction plan as [|[c st] plan IH]; intros w H; [done|].
  cbn in H. apply andb_prop in H as [H1 H2]. apply Z.eqb_eq in H1. split; [by exists 1%nat|by apply IH].
Qed.

Lemma memory_calm tmo k : 0 <= tmo -> calm tmo k.
Proof. intros H a b _. exact H. Qed.

Definition read_three : list rt_i2c_msg := [mkMsg 0x50 0 1 [0x10]; mkMsg 0x50 1 3 [0; 0; 0]].

Lemma msg_ok_small a f n l :
  0 <= a < 2 ^ 16 -> 0 <= n <= Z.of_nat (length l) -> forallb (fun b => (0 <=? b) && (b <? 256)) l = true ->
  msg_ok (mkMsg a f n l).
Proof.
  intros Ha Hn Hl. split; [done|]. split; [done|]. apply List.Forall_forall. intros b Hb. cbn in Hb.
  rewrite forallb_forall in Hl. specialize (Hl b Hb). lia.
Qed.

Lemma i2c_transfer_wire_witness :
  exists s', rt_i2c_transfer 3 2 read_three 2 bus0 = Ret (2, s') /\
    wire (I2C s') = [CStop false; CRecv false; CRecv true; CRecv true; CSend 0xA1; CStart; CSend 0x10; CSend 0xA0; CStart] /\
    msgs s' = [mkMsg 0x50 0 1 [0x10]; mkMsg 0x50 1 3 [5; 6; 7]].
Proof.
  destruct (i2c_transfer_wire 3 2 read_three 2 bus0) as (s' & E & Hw & Hm & _).
  - split; reflexivity.
  - reflexivity.
  - lia.
  - (constructor; [|constructor; [|constructor]]); apply msg_ok_small; (reflexivity || (cbn; lia)).
  - split; [intros [=]|split; [intros [=]|exact I]].
  - apply plays_answers; [lia|reflexivity].
  - apply memory_calm. cbn. lia.
  - cbn. lia.
  - exists s'. split; [exact E|]. split; [rewrite Hw; reflexivity|rewrite Hm; reflexivity].
Defined.

Lemma send_errors_witness :
  (exists s', rt_i2c_master_send 2 2 0x51 0 [1; 2] 2 bus0 = Ret (0, s')) /\
  (exists s', rt_i2c_master_send 2 2 0x50 0 [1; 200; 3] 3 bus0 = Ret (3, s') /\
    wire (I2C s') = [CStop false; CSend 200; CSend 1; CSend 0xA0; CStart]).
Proof.
  split.
  - destruct (send_errors 2 2 0x51 0 [1; 2] 2 bus0) as (_ & H & _);
      [split; reflexivity|repeat split|apply memory_calm; cbn; lia|lia|repeat constructor; lia|].
    destruct (H 0x20) as (s' & E & _); [done|apply plays_answers; [lia|reflexivity]|]. exists s'. exact E.
  - destruct (send_errors 2 2 0x50 0 [1; 200; 3] 3 bus0) as (_ & _ & H);
      [split; reflexivity|repeat split|apply memory_calm; cbn; lia|lia|repeat constructor; lia|].
    destruct (H 1%nat 200 NU_I2C_MASTER_STATUS_TRANSMIT_DATA_NACK) as (s' & E & Hw & _);
      [done|done|done|apply plays_answers; [lia|reflexivity]|].
    exists s'. split; [exact E|rewrite Hw; reflexivity].
Defined.

(** A word address, then, after a repeated START, a byte that is refused. *)
Lemma endless_retry_witness :
  rt_i2c_transfer 1000 2 [mkMsg 0x50 0 1 [0x10]; mkMsg 0x50 0 1 [200]] 2 bus0 = OutOfFuel.
Proof.
  apply (endless_retry 1000 2 _ _ 200 NU_I2C_MASTER_STATUS_TRANSMIT_DATA_NACK);
    [split; reflexivity|apply memory_calm; cbn; lia|apply msg_ok_small; (reflexivity || (cbn; lia))
    |apply msg_ok_small; (reflexivity || (cbn; lia))|reflexivity|reflexivity|reflexivity|reflexivity|reflexivity
    |cbn; lia|done|..].
  - apply plays_answers; [lia|reflexivity].
  - intros l H. apply plays_answers; [lia|]. destruct l as [|c l]; [reflexivity|]. by inversion_clear H; destruct c.
Defined.
