(* ===== verification/I2cType.v ===== *)
(** * The I2C driver keeps its types

    Whatever the slave answers and however long it takes: the registers keep their widths,
    the caller's messages their shape, and no access leaves a buffer. *)

From Stdlib Require Import ZArith Lia Bool List.
From stdpp Require Import base tactics numbers list option.
From S2P Require Import Prelude I2c I2cXfer I2cSeq I2cBus.

Open Scope Z_scope.

(** The registers keep to their widths. *)
Definition hw_ok (h : i2c_hw) : Prop :=
  is_u32 (CTL0 h) /\ is_u32 (CTL1 h) /\ is_u32 (CLKDIV h) /\ is_u8 (DAT h).

(** A message keeps its header and the size of its buffer, one that is sent all of it. *)
Definition same_message (m m' : rt_i2c_msg) : Prop :=
  addr m' = addr m /\ flags m' = flags m /\ msg_len m' = msg_len m /\ length (buf m') = length (buf m) /\
  (reads m = false -> buf m' = buf m).

Create HintDb i2c_type discriminated.

Section typing.
Context `{P : I2cPeer}.
Variable ms : list rt_i2c_msg.
Implicit Types s : nu_i2c_bus.

(** The state of a transfer of [ms]. *)
Definition xfer_ok s : Prop :=
  hw_ok (I2C s) /\ msg s = true /\ Forall2 same_message ms (msgs s) /\ Forall msg_ok (msgs s).

(** A run that may not end or be stopped by an assertion, but has a meaning. *)
Definition safe_run {A} (m : IM A) s (Q : A -> nu_i2c_bus -> Prop) : Prop :=
  match m s with Ret (a, s') => Q a s' | Undef => False | _ => True end.

Definition keeps {A} (m : IM A) (Q : A -> Prop) : Prop :=
  forall s, xfer_ok s -> safe_run m s (fun a s' => xfer_ok s' /\ Q a).

Lemma safe_bind {A B} (m : IM A) (k : A -> IM B) s Q R :
  safe_run m s Q -> (forall a s', Q a s' -> safe_run (k a) s' R) -> safe_run (bind m k) s R.
Proof. unfold safe_run, bind. destruct (m s) as [[a s']| | |]; [intros Hm Hk; by apply Hk|done..]. Qed.

Lemma keeps_bind {A B} (m : IM A) (k : A -> IM B) Q R :
  keeps m Q -> (forall a, Q a -> keeps (k a) R) -> keeps (bind m k) R.
Proof. intros Hm Hk s Hs. eapply safe_bind; [by apply Hm|]. intros a s' [Hs' Ha]. by apply Hk. Qed.

Lemma keeps_mono {A} (m : IM A) (Q R : A -> Prop) : keeps m Q -> (forall a, Q a -> R a) -> keeps m R.
Proof.
  intros H HQ s Hs. specialize (H s Hs). unfold safe_run in *. destruct (m s) as [[a s']| | |]; [|done..].
  destruct H. auto.
Qed.

Lemma keeps_ret {A} (a : A) (Q : A -> Prop) : Q a -> keeps (ret a) Q.
Proof. intros Ha s Hs. by split. Qed.

Lemma keeps_gets {A} (f : nu_i2c_bus -> A) (Q : A -> Prop) :
  (forall s, xfer_ok s -> Q (f s)) -> keeps (gets f) Q.
Proof. intros H s Hs. split; [done|]. by apply H. Qed.

Lemma keeps_modify (f : nu_i2c_bus -> nu_i2c_bus) :
  (forall s, xfer_ok s -> xfer_ok (f s)) -> keeps (modify f) (fun _ => True).
Proof. intros H s Hs. split; [|done]. by apply H. Qed.

Lemma keeps_if {A} (b : bool) (m n : IM A) Q : keeps m Q -> keeps n Q -> keeps (if b then m else n) Q.
Proof. by destruct b. Qed.

Lemma keeps_fuel {A} (Q : A -> Prop) : keeps out_of_fuel Q.
Proof. by intros s Hs. Qed.

(** Walks through a body: the operations by their lemmas, the branches one by one. *)
Ltac keep :=
  repeat match goal with
  | |- keeps (if _ then _ else _) _ => apply keeps_if
  | |- keeps (ret _) _ => apply keeps_ret
  | |- keeps _ out_of_fuel _ => apply keeps_fuel
  | |- keeps (bind _ _) _ => eapply keeps_bind; [solve [auto with i2c_type]|intros ? ?]
  end; try done.

Lemma xfer_ok_hw s h : xfer_ok s -> hw_ok h -> xfer_ok (set_I2C h s).
Proof. intros (_ & H) Hh. by split. Qed.

(** *** Registers *)

Lemma hw_look_ok h : hw_ok h -> hw_ok (hw_look h).
Proof.
  intros (H1 & H2 & H3 & H4). unfold hw_look. destruct (pending h) as [[[[c [[|n]|]] st] d]|]; [|done..].
  destruct c; split_and!; try done; cbn; [apply u8_range|].
  apply land_u32_l; [done|]. apply not32_u32.
Qed.

Lemma read_ok : keeps read_CTL0 is_u32.
Proof.
  intros s Hs. unfold safe_run, read_CTL0. pose proof (hw_look_ok _ (proj1 Hs)) as Hh.
  split; [by apply xfer_ok_hw|]. apply lor_u32; [apply Hh|]. by destruct (i2c_SI _).
Qed.

Lemma write_ok v : is_u32 v -> keeps (write_CTL0 v) (fun _ => True).
Proof.
  intros Hv. apply keeps_modify. intros s Hs. apply xfer_ok_hw; [done|]. destruct Hs as ((H1 & H2 & H3 & H4) & _).
  assert (Hv' : is_u32 (Z.land v (not32 I2C_CTL0_SI_Msk))) by (apply land_u32_l; [done|apply not32_u32]).
  unfold hw_write_CTL0. by destruct (tst _ _).
Qed.

Lemma status_ok : keeps I2C_GET_STATUS (fun _ => True).
Proof. by apply keeps_gets. Qed.

Lemma set_data_ok d : is_u8 d -> keeps (I2C_SET_DATA d) (fun _ => True).
Proof.
  intros Hd. apply keeps_modify. intros s Hs. apply xfer_ok_hw; [done|]. destruct Hs as ((H1 & H2 & H3 & H4) & _).
  split_and!; try done. cbn. rewrite u32_small; [done|]. unfold is_u8, is_u32 in *. lia.
Qed.

Lemma set_CTL1_ok f : (forall v, is_u32 v -> is_u32 (f v)) -> keeps (set_CTL1 f) (fun _ => True).
Proof.
  intros Hf. apply keeps_modify. intros s Hs. apply xfer_ok_hw; [done|]. destruct Hs as ((H1 & H2 & H3 & H4) & _).
  split_and!; try done. by apply Hf.
Qed.

Lemma tick_ok : keeps rt_tick_get (fun _ => True).
Proof.
  eapply keeps_bind; [by apply keeps_gets with (Q := fun _ => True)|]. intros n _.
  eapply keeps_bind; [by apply keeps_modify|]. intros _ _. by apply keeps_ret.
Qed.

Lemma control_ok ctrl : is_u32 ctrl -> keeps (I2C_SET_CONTROL_REG ctrl) (fun _ => True).
Proof.
  intros Hc. eapply keeps_bind; [apply read_ok|]. intros v Hv. apply write_ok.
  apply lor_u32; [|done]. apply land_u32_l; [done|]. apply not32_u32.
Qed.
#[local] Hint Resolve read_ok write_ok status_ok set_data_ok set_CTL1_ok tick_ok control_ok : i2c_type.

Lemma timeout_ok : keeps (gets timeout) (fun _ => True).
Proof. by apply keeps_gets. Qed.

#[local] Hint Resolve timeout_ok : i2c_type.

(** *** Waiting, sending, STOP *)

Lemma ctl_words_ok : is_u32 I2C_CTL_SI /\ is_u32 I2C_CTL_SI_AA /\ is_u32 I2C_CTL_STA_SI.
Proof. by split_and!. Qed.

Lemma ctl_SI_ok : is_u32 I2C_CTL_SI.
Proof. apply ctl_words_ok. Qed.

Lemma ctl_SI_AA_ok (b : bool) : is_u32 (if b then I2C_CTL_SI else I2C_CTL_SI_AA).
Proof. destruct b; apply ctl_words_ok. Qed.

Lemma ctl_STA_SI_ok : is_u32 I2C_CTL_STA_SI.
Proof. apply ctl_words_ok. Qed.

#[local] Hint Resolve ctl_SI_ok ctl_SI_AA_ok ctl_STA_SI_ok : i2c_type.

Lemma wait_loop_ok fuel start : keeps (wait_loop fuel start) (fun _ => True).
Proof. induction fuel; cbn [wait_loop]; keep. Qed.

#[local] Hint Resolve wait_loop_ok : i2c_type.

Lemma wait_ok fuel : keeps (nu_i2c_wait_ready_with_timeout fuel) (fun _ => True).
Proof. unfold nu_i2c_wait_ready_with_timeout. keep. apply wait_loop_ok. Qed.

#[local] Hint Resolve wait_ok : i2c_type.

Lemma stop_loop_ok fuel : keeps (stop_loop fuel) (fun _ => True).
Proof. induction fuel; cbn [stop_loop]; keep. Qed.

Lemma stop_ok fuel : keeps (I2C_STOP fuel) (fun _ => True).
Proof.
  unfold I2C_STOP. eapply keeps_bind; [apply read_ok|]. intros v Hv.
  eapply keeps_bind; [apply write_ok, lor_u32; [done|by apply lor_u32]|]. intros _ _. apply stop_loop_ok.
Qed.

Lemma send_data_ok fuel d : is_u8 d -> keeps (nu_i2c_send_data fuel d) (fun _ => True).
Proof. intros Hd. unfold nu_i2c_send_data. keep. apply wait_ok. Qed.

#[local] Hint Resolve send_data_ok : i2c_type.

Lemma send_expect_ok fuel d st ign : is_u8 d -> keeps (send_expect fuel d st ign) (fun _ => True).
Proof. intros Hd. unfold send_expect. keep. Qed.

Lemma then_ok_ok (m n : IM Z) :
  keeps m (fun _ => True) -> keeps n (fun _ => True) -> keeps (then_ok m n) (fun _ => True).
Proof. intros Hm Hn. eapply keeps_bind; [exact Hm|]. intros r _. keep. Qed.

Lemma send_address_ok fuel m : keeps (nu_i2c_send_address fuel m) (fun _ => True).
Proof.
  unfold nu_i2c_send_address. apply keeps_if.
  - eapply keeps_bind; [apply set_CTL1_ok; intros v Hv; by apply lor_u32|]. intros _ _.
    apply then_ok_ok; [apply send_expect_ok, u8_range|]. apply then_ok_ok; [apply send_expect_ok, u8_range|].
    keep. by apply send_expect_ok, byte_lor1, u8_byte.
  - apply send_expect_ok. destruct (has _ _); [apply byte_lor1|]; apply u8_byte.
Qed.

#[local] Hint Resolve send_address_ok : i2c_type.

(** *** The caller's messages *)

Lemma cur_msg_ok i :
  0 <= i < Z.of_nat (length ms) ->
  keeps (cur_msg i) (fun m => exists m0, znth ms i = Some m0 /\ same_message m0 m /\ msg_ok m).
Proof.
  intros Hi s (Hh & Hp & Hs & Hok). destruct (znth_in_range ms i Hi) as [m0 E0].
  assert (Hl : 0 <= i < Z.of_nat (length (msgs s))) by (by rewrite <-(Forall2_length Hs)).
  destruct (znth_in_range _ _ Hl) as [m E].
  unfold safe_run, cur_msg, bind, gets. rewrite Hp. unfold deref. rewrite E.
  split; [done|]. exists m0. split; [done|]. split; [|by eapply Forall_znth].
  unfold znth in E0, E. destruct (i <? 0); [done|]. by eapply Forall2_lookup_lr.
Qed.
Lemma deref_ok {A} (o : option A) (Q : A -> Prop) : (exists a, o = Some a /\ Q a) -> keeps (deref o) Q.
Proof. intros (a & -> & Ha) s Hs. by split. Qed.

Lemma store_byte_ok i cnt d m0 :
  znth ms i = Some m0 -> reads m0 = true -> 0 <= cnt < Z.of_nat (length (buf m0)) -> 0 <= d < 256 ->
  keeps (store_byte i cnt d) (fun _ => True).
Proof.
  intros E0 Hrd Hc Hd. pose proof (znth_Some _ _ _ E0) as Hi.
  eapply keeps_bind; [by apply cur_msg_ok|]. intros m (m0' & E0' & Hm & Hok). simplify_eq.
  pose proof Hm as (_ & _ & _ & Hl & _). eapply keeps_bind.
  { apply deref_ok with (Q := fun _ => True). destruct (znth_in_range (buf m) cnt) as [x Hx]; [by rewrite Hl|].
    by exists x. }
  intros _ _. apply keeps_modify. intros s (Hh & Hp & Hs & Ha). split; [done|]. split; [done|].
  destruct Hm as (Ha1 & Hf1 & Hl1 & Hl2 & _). split.
  - rewrite <-(zupd_same _ _ _ E0). apply Forall2_insert; [done|].
    split_and!; try done; cbn; [by rewrite length_zupd|by rewrite Hrd].
  - apply Forall_zupd; [done|]. destruct Hok as (H1 & H2 & H3). split; [done|].
    split; [by cbn; rewrite length_zupd|]. by apply Forall_zupd.
Qed.

Lemma DAT_ok : keeps (gets (fun s => DAT (I2C s))) (fun _ => True).
Proof. by apply keeps_gets. Qed.

#[local] Hint Resolve DAT_ok : i2c_type.

(** The loops over the bytes give [i] or 0. *)
Definition i_or_0 (i r : Z) : Prop := r = i \/ r = 0.

Lemma recv_loop_ok fuel todo i cnt len nack m0 :
  znth ms i = Some m0 -> reads m0 = true -> 0 <= cnt -> cnt + Z.of_nat todo <= Z.of_nat (length (buf m0)) ->
  keeps (recv_loop fuel todo i cnt len nack) (i_or_0 i).
Proof.
  intros E0 Hrd. revert cnt nack. induction todo as [|todo IH]; intros cnt nack Hc Hl; [by apply keeps_ret; left|].
  cbn [recv_loop]. keep; [by left|by right|].
  eapply keeps_bind; [eapply store_byte_ok; [done|done|lia|apply u8_byte]|]. intros _ _. apply IH; lia.
Qed.

Lemma send_loop_ok fuel todo i cnt ign m0 :
  znth ms i = Some m0 -> 0 <= cnt -> cnt + Z.of_nat todo <= Z.of_nat (length (buf m0)) ->
  keeps (send_loop fuel todo i cnt ign) (i_or_0 i).
Proof.
  intros E0. revert cnt. induction todo as [|todo IH]; intros cnt Hc Hl; [by apply keeps_ret; left|].
  cbn [send_loop]. eapply keeps_bind; [apply cur_msg_ok; by eapply znth_Some|].
  intros m (m0' & E0' & Hm & Hok). simplify_eq. destruct Hm as (_ & _ & _ & Hlen & _).
  eapply keeps_bind.
  { apply deref_ok with (Q := fun _ => True). destruct (znth_in_range (buf m) cnt) as [x Hx]; [rewrite Hlen; lia|].
    by exists x. }
  intros b _. eapply keeps_bind; [apply send_data_ok, u8_range|]. intros r _.
  keep; [by left|by right|]. apply IH; lia.
Qed.

Lemma data_phase_ok fuel i num m m0 :
  znth ms i = Some m0 -> same_message m0 m -> msg_ok m -> keeps (data_phase fuel m i num) (i_or_0 i).
Proof.
  intros E0 (Ha & Hf & Hl & Hb & _) (_ & Hlen & _). unfold data_phase. rewrite Hb in Hlen.
  destruct (has (flags m) RT_I2C_RD) eqn:Hrd.
  - eapply recv_loop_ok; [done|by unfold reads; rewrite <-Hf|lia|lia].
  - eapply send_loop_ok; [done|lia|lia].
Qed.

Lemma address_phase_ok fuel m i :
  keeps (address_phase fuel m i) (fun e => match e with Some j => i_or_0 i j | None => True end).
Proof.
  unfold address_phase. apply keeps_if; [by apply keeps_ret|].
  eapply keeps_bind with (Q := fun e => match e with Some j => i_or_0 i j | None => True end).
  - keep; [by left|]. destruct (negb _); [by right|done].
  - intros [j|] Hj; [by apply keeps_ret|]. keep. destruct (_ && _); [by right|done].
Qed.

(** The loop over the messages gives an index of one of them, or their number. *)
Lemma msg_loop_ok turns fuel i num :
  0 <= i <= num -> num <= Z.of_nat (length ms) -> num < 2 ^ 32 ->
  keeps (msg_loop turns fuel i num) (fun r => 0 <= r <= num).
Proof.
  intros Hi Hn Hn'. revert i Hi. induction turns as [|turns IH]; intros i Hi; [apply keeps_fuel|].
  cbn [msg_loop]. destruct (Z.ltb_spec i num); [|by apply keeps_ret].
  eapply keeps_bind; [apply cur_msg_ok; lia|]. intros m (m0 & E0 & Hm & Hok).
  eapply keeps_bind; [apply address_phase_ok|]. intros [j|] Hj.
  - apply keeps_ret. destruct Hj as [->| ->]; lia.
  - eapply keeps_bind; [by eapply data_phase_ok|]. intros i' Hi'. apply IH.
    rewrite u32_small; unfold is_u32; destruct Hi' as [->| ->]; lia.
Qed.
(** What a finished transfer leaves: the pointer to the messages may be NULL again. *)
Definition xfer_left s : Prop :=
  hw_ok (I2C s) /\ Forall2 same_message ms (msgs s) /\ Forall msg_ok (msgs s).

Lemma xfer_ok_left s : xfer_ok s -> xfer_left s.
Proof. intros (H1 & _ & H2 & H3). by split_and!. Qed.

(** After the loop. *)
Lemma xfer_tail_ok fuel i num s :
  0 <= i <= num -> xfer_ok s -> safe_run (xfer_tail fuel i) s (fun r s' => 0 <= r <= num /\ xfer_left s').
Proof.
  intros Hi Hs. unfold xfer_tail. eapply safe_bind; [by apply stop_ok|]. intros _ s1 [H1 _].
  eapply safe_bind; [by apply status_ok|]. intros st s2 [H2 _].
  eapply (safe_bind _ _ _ (fun _ => xfer_ok)); [by unfold rt_assert; destruct (_ =? _)|]. intros _ s3 H3.
  eapply safe_bind; [by apply status_ok|]. intros st' s4 [H4 _].
  assert (Hr : 0 <= (if negb (st' =? NU_I2C_MASTER_STATUS_BUS_RELEASED) then 0 else i) <= num)
    by (destruct (negb _); lia).
  split; [done|]. apply xfer_ok_left in H4 as ((? & ? & ? & ?) & ? & ?). by split_and!.
Qed.

Lemma mst_xfer_ok turns fuel num s :
  hw_ok (I2C s) -> Forall msg_ok ms -> 0 <= num <= Z.of_nat (length ms) -> num < 2 ^ 32 ->
  safe_run (nu_i2c_mst_xfer turns fuel ms num) s (fun r s' => 0 <= r <= num /\ xfer_left s').
Proof.
  intros Hh Hok Hn Hn'. unfold nu_i2c_mst_xfer.
  eapply (safe_bind _ _ _ (fun _ => xfer_ok)).
  { split; [done|]. split; [done|]. split; [|done]. apply Forall_Forall2_diag, List.Forall_forall. by intros m. }
  intros _ s1 H1. eapply safe_bind; [by apply read_ok|]. intros v s2 [H2 Hv].
  eapply safe_bind; [apply write_ok; [apply lor_u32; [done|by apply lor_u32]|done]|]. intros _ s3 [H3 _].
  eapply safe_bind; [by apply wait_ok|]. intros r s4 [H4 _]. destruct (negb _).
  { split; [lia|]. by apply (xfer_ok_left s4). }
  eapply safe_bind; [by apply status_ok|]. intros st s5 [H5 _]. destruct (negb _).
  { split; [lia|]. by apply xfer_ok_left. }
  eapply safe_bind; [apply msg_loop_ok; (done || lia)|]. intros i s6 [H6 Hi].
  by apply xfer_tail_ok.
Qed.

(** C18: the types of the driver are kept whatever the slave answers, and however late.
    With registers in their widths and messages whose buffers hold their lengths a transfer
    has no undefined behaviour; if it returns, the result is at most the number of messages,
    the registers are in their widths, and each message has its header and a buffer of the
    same size, with bytes in it - the same bytes if it was to be sent. *)
Theorem transfer_typed turns fuel num s :
  hw_ok (I2C s) -> Forall msg_ok ms -> 0 <= num <= Z.of_nat (length ms) -> num < 2 ^ 32 ->
  match rt_i2c_transfer turns fuel ms num s with
  | Ret (r, s') => 0 <= r <= num /\ hw_ok (I2C s') /\ Forall2 same_message ms (msgs s') /\ Forall msg_ok (msgs s')
  | Undef => False
  | AssertFail | OutOfFuel => True
  end.
Proof.
  intros Hh Hok Hn Hn'. unfold rt_i2c_transfer.
  change (safe_run (bind (modify (fun s => set_lock (bus_lock s + 1) s)) (fun _ =>
    bind (nu_i2c_mst_xfer turns fuel ms num) (fun r => bind (modify (fun s => set_lock (bus_lock s - 1) s)) (fun _ => ret r)))) s
    (fun r s' => 0 <= r <= num /\ xfer_left s')).
  eapply (safe_bind _ _ _ (fun _ s' => hw_ok (I2C s'))); [done|]. intros _ s1 H1.
  eapply safe_bind; [by apply mst_xfer_ok|]. intros r s2 [Hr Hs2]. by split.
Qed.
End typing.

Lemma transfer_typed_witness :
  match rt_i2c_transfer (P := memory_chip) 5 3 read_three 2 bus0 with
  | Ret (r, s') => 0 <= r <= 2 /\ hw_ok (I2C s') /\ Forall2 same_message read_three (msgs s') /\ Forall msg_ok (msgs s')
  | Undef => False
  | AssertFail | OutOfFuel => True
  end.
Proof.
  apply (transfer_typed (P := memory_chip)).
  - by repeat split.
  - (constructor; [|constructor; [|constructor]]); apply msg_ok_small; (reflexivity || (cbn; lia)).
  - cbn. lia.
  - lia.
Defined.
