(* ===== verification/Smem.v ===== *)
(** * The kernel heap

    Models [rt-thread/src/mem.c] (small memory, the heap of this board) and the functions
    of [rt-thread/src/kservice.c] on it: [rt_malloc], [rt_realloc], [rt_calloc], [rt_free],
    [rt_malloc_align], [rt_free_align], [rt_memory_info].

    The heap is a stretch of words; the item in front of each block is three of them.  An
    access outside the stretch, or at an address that is no multiple of four, is undefined.
    The object that describes the heap lies in front of the stretch ([self]) and is a
    record here.  Pointers are addresses, NULL is 0. *)

From Stdlib Require Import ZArith Lia Bool.
From stdpp Require Import base tactics numbers list option.
From S2P Require Import Prelude.

Open Scope Z_scope.

Definition RT_Object_Class_Memory : Z := 0x0c.
Definition RT_Object_Class_Static : Z := 0x80.

(** [struct rt_small_mem] with its parent [struct rt_memory]; the name of the object, the
    name of the algorithm and [address], which nothing reads, are left out. *)
Record rt_small_mem : Type := mkSmem {
  obj_type : Z;
  total : Z;
  mem_used : Z;
  mem_max : Z;
  heap_ptr : Z;
  heap_end : Z;
  lfree : Z;
  mem_size_aligned : Z
}.

Record heap : Type := mkHeap {
  self : Z;                    (** the address of the object *)
  small_mem : rt_small_mem;
  words : Z -> Z;              (** the word at an address *)
  heap_lock : Z                (** how often the lock of the heap is held *)
}.

Definition HM (A : Type) : Type := M heap A.

Definition set_smem (f : rt_small_mem -> rt_small_mem) : HM unit :=
  modify (fun h => mkHeap (self h) (f (small_mem h)) (words h) (heap_lock h)).
Definition set_used (f : Z -> Z) : HM unit := set_smem (fun s =>
  mkSmem (obj_type s) (total s) (f (mem_used s)) (mem_max s) (heap_ptr s) (heap_end s) (lfree s) (mem_size_aligned s)).
Definition set_max (v : Z) : HM unit := set_smem (fun s =>
  mkSmem (obj_type s) (total s) (mem_used s) v (heap_ptr s) (heap_end s) (lfree s) (mem_size_aligned s)).
Definition set_lfree (v : Z) : HM unit := set_smem (fun s =>
  mkSmem (obj_type s) (total s) (mem_used s) (mem_max s) (heap_ptr s) (heap_end s) v (mem_size_aligned s)).

(** ** Words and items *)

Definition SIZEOF_STRUCT_MEM : Z := RT_ALIGN 12 RT_ALIGN_SIZE.
Definition MIN_SIZE : Z := 12.
Definition MIN_SIZE_ALIGNED : Z := RT_ALIGN MIN_SIZE RT_ALIGN_SIZE.

Definition in_heap (h : heap) (a : Z) : bool :=
  (heap_ptr (small_mem h) <=? a) && (a + 4 <=? heap_end (small_mem h) + SIZEOF_STRUCT_MEM) && (a mod 4 =? 0).

Definition load (a : Z) : HM Z := fun h =>
  if in_heap h a then Ret (words h a, h) else Undef.

Definition put_word (a v : Z) (w : Z -> Z) : Z -> Z := fun b => if b =? a then v else w b.

Definition store (a v : Z) : HM unit := fun h =>
  if in_heap h a then Ret (tt, mkHeap (self h) (small_mem h) (put_word a v (words h)) (heap_lock h)) else Undef.

Definition item_pool_ptr (mem : Z) : HM Z := load mem.
Definition item_next (mem : Z) : HM Z := load (mem + 4).
Definition item_prev (mem : Z) : HM Z := load (mem + 8).
Definition set_pool_ptr (mem v : Z) : HM unit := store mem v.
Definition set_next (mem v : Z) : HM unit := store (mem + 4) v.
Definition set_prev (mem v : Z) : HM unit := store (mem + 8) v.

Definition MEM_MASK : Z := 0xfffffffe.
Definition MEM_USED : HM Z := gets (fun h => Z.lor (Z.land (self h) MEM_MASK) 0x1).
Definition MEM_FREED : HM Z := gets (fun h => Z.lor (Z.land (self h) MEM_MASK) 0x0).
Definition MEM_ISUSED (mem : Z) : HM bool :=
  let! p := item_pool_ptr mem in ret (negb (Z.land p (not32 MEM_MASK) =? 0)).
Definition MEM_POOL (mem : Z) : HM Z := let! p := item_pool_ptr mem in ret (Z.land p MEM_MASK).

(** [&small_mem->heap_ptr[off]] and the offset of a pointer. *)
Definition at_offset (off : Z) : HM Z := gets (fun h => u32 (heap_ptr (small_mem h) + off)).
Definition offset_of (p : Z) : HM Z := gets (fun h => u32 (p - heap_ptr (small_mem h))).

Definition sget (f : rt_small_mem -> Z) : HM Z := gets (fun h => f (small_mem h)).

Definition rt_object_get_type : HM Z := let! t := sget obj_type in ret (Z.land t (not32 RT_Object_Class_Static)).
Definition rt_object_is_systemobject : HM bool := let! t := sget obj_type in ret (tst t RT_Object_Class_Static).

(** The two assertions on the object in front of every operation. *)
Definition memory_object : HM unit :=
  let! t := rt_object_get_type in
  rt_assert (t =? RT_Object_Class_Memory) ;;
  let! s := rt_object_is_systemobject in
  rt_assert s.

(** ** [mem.c] *)

(** The two halves of [plug_holes]: joining the free block behind, joining the free block
    in front. *)
Definition plug_forward (mem : Z) : HM unit :=
  let! he := sget heap_end in
  let! n := item_next mem in
  let! nmem := at_offset n in
  let! nu := (if mem =? nmem then ret true else MEM_ISUSED nmem) in
  if negb (mem =? nmem) && negb nu && negb (nmem =? he) then
    let! l := sget lfree in
    (if l =? nmem then set_lfree mem else ret tt) ;;
    set_pool_ptr nmem 0 ;;
    let! nn := item_next nmem in
    set_next mem nn ;;
    let! nn := item_next nmem in
    let! nnmem := at_offset nn in
    let! off := offset_of mem in
    set_prev nnmem off
  else ret tt.

Definition plug_backward (mem : Z) : HM unit :=
  let! p := item_prev mem in
  let! pmem := at_offset p in
  let! pu := (if pmem =? mem then ret true else MEM_ISUSED pmem) in
  if negb (pmem =? mem) && negb pu then
    let! l := sget lfree in
    (if l =? mem then set_lfree pmem else ret tt) ;;
    set_pool_ptr mem 0 ;;
    let! n := item_next mem in
    set_next pmem n ;;
    let! n := item_next mem in
    let! nmem := at_offset n in
    let! off := offset_of pmem in
    set_prev nmem off
  else ret tt.

Definition plug_holes (mem : Z) : HM unit :=
  let! hp := sget heap_ptr in
  let! he := sget heap_end in
  rt_assert (hp <=? mem) ;;
  rt_assert (mem <? he) ;;
  plug_forward mem ;;
  plug_backward mem.

(** [parent.used += n], and the high-water mark *)
Definition account (n : Z) : HM unit :=
  set_used (fun u => u32 (u + n)) ;;
  let! m := sget mem_max in
  let! u := sget mem_used in
  if m <? u then set_max u else ret tt.

(** [while (MEM_ISUSED(lfree) && lfree != heap_end)] *)
Fixpoint lfree_loop (fuel : nat) : HM unit :=
  match fuel with
  | O => out_of_fuel
  | S fuel' =>
      let! l := sget lfree in
      let! he := sget heap_end in
      let! u := MEM_ISUSED l in
      if u && negb (l =? he) then
        let! n := item_next l in
        let! l' := at_offset n in
        set_lfree l' ;;
        lfree_loop fuel'
      else ret tt
  end.

(** More items than the heap has room for. *)
Definition items_bound : HM nat := gets (fun h => S (S (Z.to_nat (mem_size_aligned (small_mem h) / SIZEOF_STRUCT_MEM)))).

(** A free item at offset [ptr2] inside the block of [mem], at offset [ptr]. *)
Definition split_item (mem ptr ptr2 : Z) : HM Z :=
  let! msz := sget mem_size_aligned in
  let! mem2 := at_offset ptr2 in
  let! f := MEM_FREED in
  set_pool_ptr mem2 f ;;
  let! next := item_next mem in
  set_next mem2 next ;;
  set_prev mem2 ptr ;;
  set_next mem ptr2 ;;
  let! next2 := item_next mem2 in
  (if negb (next2 =? u32 (msz + SIZEOF_STRUCT_MEM)) then
     let! next2 := item_next mem2 in
     let! nmem := at_offset next2 in
     set_prev nmem ptr2
   else ret tt) ;;
  ret mem2.

(** The body of the search once [mem] at offset [ptr] fits. *)
Definition take_block (mem ptr size : Z) : HM Z :=
  let! next := item_next mem in
  (if u32 (size + SIZEOF_STRUCT_MEM + MIN_SIZE_ALIGNED) <=? u32 (next - u32 (ptr + SIZEOF_STRUCT_MEM)) then
     let ptr2 := u32 (ptr + SIZEOF_STRUCT_MEM + size) in
     split_item mem ptr ptr2 ;;
     account (u32 (size + SIZEOF_STRUCT_MEM))
   else
     let! off := offset_of mem in
     account (u32 (next - off))) ;;
  let! u := MEM_USED in
  set_pool_ptr mem u ;;
  let! l := sget lfree in
  let! he := sget heap_end in
  (if mem =? l then
     let! n := items_bound in
     lfree_loop n ;;
     let! l := sget lfree in
     let! used := MEM_ISUSED l in
     rt_assert ((l =? he) || negb used)
   else ret tt) ;;
  rt_assert (u32 (mem + SIZEOF_STRUCT_MEM + size) <=? he) ;;
  rt_assert (u32 (mem + SIZEOF_STRUCT_MEM) mod RT_ALIGN_SIZE =? 0) ;;
  rt_assert (Z.land mem (RT_ALIGN_SIZE - 1) =? 0) ;;
  ret (u32 (mem + SIZEOF_STRUCT_MEM)).

Fixpoint search_loop (fuel : nat) (ptr size : Z) : HM Z :=
  match fuel with
  | O => out_of_fuel
  | S fuel' =>
      let! msz := sget mem_size_aligned in
      if ptr <=? u32 (msz - size) then
        let! mem := at_offset ptr in
        let! u := MEM_ISUSED mem in
        let! next := item_next mem in
        if negb u && (size <=? u32 (next - u32 (ptr + SIZEOF_STRUCT_MEM)))
        then take_block mem ptr size
        else search_loop fuel' next size
      else ret 0
  end.

(** The size of a block for a request. *)
Definition block_size (size : Z) : Z :=
  let size := RT_ALIGN size RT_ALIGN_SIZE in
  if size <? MIN_SIZE_ALIGNED then MIN_SIZE_ALIGNED else size.

Definition rt_smem_alloc (size : Z) : HM Z :=
  if size =? 0 then ret 0
  else
    memory_object ;;
    let size := block_size size in
    let! msz := sget mem_size_aligned in
    if msz <? size then ret 0
    else
      let! l := sget lfree in
      let! ptr := offset_of l in
      let! n := items_bound in
      search_loop n ptr size.

(** The item's pool pointer leads to the object; one that leads elsewhere is undefined. *)
Definition rt_smem_free (rmem : Z) : HM unit :=
  if rmem =? 0 then ret tt
  else
    rt_assert (Z.land rmem (RT_ALIGN_SIZE - 1) =? 0) ;;
    let mem := u32 (rmem - SIZEOF_STRUCT_MEM) in
    let! pool := MEM_POOL mem in
    rt_assert (negb (pool =? 0)) ;;
    let! u := MEM_ISUSED mem in
    rt_assert u ;;
    let! s := gets self in
    if negb (pool =? s) then undefined
    else
      memory_object ;;
      let! hp := sget heap_ptr in
      let! he := sget heap_end in
      rt_assert ((hp <=? rmem) && (rmem <? he)) ;;
      let! n := item_next mem in
      let! nmem := at_offset n in
      let! npool := MEM_POOL nmem in
      rt_assert (npool =? s) ;;
      let! f := MEM_FREED in
      set_pool_ptr mem f ;;
      let! l := sget lfree in
      (if mem <? l then set_lfree mem else ret tt) ;;
      let! n := item_next mem in
      let! off := offset_of mem in
      set_used (fun u => u32 (u - u32 (n - off))) ;;
      plug_holes mem.

(** [rt_memcpy] of [n] words *)
Fixpoint rt_memcpy (n : nat) (dst src : Z) : HM unit :=
  match n with
  | O => ret tt
  | S n' => let! v := load src in store dst v ;; rt_memcpy n' (dst + 4) (src + 4)
  end.

Definition rt_smem_realloc (rmem newsize : Z) : HM Z :=
  memory_object ;;
  let newsize := RT_ALIGN newsize RT_ALIGN_SIZE in
  let! msz := sget mem_size_aligned in
  if msz <? newsize then ret 0
  else if newsize =? 0 then rt_smem_free rmem ;; ret 0
  else if rmem =? 0 then rt_smem_alloc newsize
  else
    let! hp := sget heap_ptr in
    let! he := sget heap_end in
    rt_assert (Z.land rmem (RT_ALIGN_SIZE - 1) =? 0) ;;
    rt_assert (hp <=? rmem) ;;
    rt_assert (rmem <? he) ;;
    let mem := u32 (rmem - SIZEOF_STRUCT_MEM) in
    let! ptr := offset_of mem in
    let! next := item_next mem in
    let size := u32 (next - ptr - SIZEOF_STRUCT_MEM) in
    if size =? newsize then ret rmem
    else if u32 (newsize + SIZEOF_STRUCT_MEM + MIN_SIZE) <? size then
      set_used (fun u => u32 (u - u32 (size - newsize))) ;;
      let ptr2 := u32 (ptr + SIZEOF_STRUCT_MEM + newsize) in
      let! mem2 := split_item mem ptr ptr2 in
      let! l := sget lfree in
      (if mem2 <? l then set_lfree mem2 else ret tt) ;;
      plug_holes mem2 ;;
      ret rmem
    else
      let! nmem := rt_smem_alloc newsize in
      if nmem =? 0 then ret 0
      else
        rt_memcpy (Z.to_nat ((if size <? newsize then size else newsize) / 4)) nmem rmem ;;
        rt_smem_free rmem ;;
        ret nmem.

(** The object comes from [begin_addr], aligned; [None] when the stretch is too small. *)
Definition sizeof_small_mem : Z := 60.

Definition rt_smem_init (begin_addr size : Z) (w : Z -> Z) : option heap :=
  let small := RT_ALIGN begin_addr RT_ALIGN_SIZE in
  let start_addr := u32 (small + sizeof_small_mem) in
  let begin_align := RT_ALIGN start_addr RT_ALIGN_SIZE in
  let end_align := RT_ALIGN_DOWN (u32 (begin_addr + size)) RT_ALIGN_SIZE in
  if (2 * SIZEOF_STRUCT_MEM <? end_align) && (start_addr <=? end_align - 2 * SIZEOF_STRUCT_MEM) then
    let mem_size := u32 (end_align - begin_align - 2 * SIZEOF_STRUCT_MEM) in
    let next := u32 (mem_size + SIZEOF_STRUCT_MEM) in
    let heap_end := u32 (begin_align + next) in
    let freed := Z.lor (Z.land small MEM_MASK) 0x0 in
    let used := Z.lor (Z.land small MEM_MASK) 0x1 in
    let w := put_word (begin_align + 8) 0 (put_word (begin_align + 4) next (put_word begin_align freed w)) in
    let w := put_word (heap_end + 8) next (put_word (heap_end + 4) next (put_word heap_end used w)) in
    Some (mkHeap small
            (mkSmem (Z.lor RT_Object_Class_Memory RT_Object_Class_Static) mem_size 0 0 begin_align heap_end
               begin_align mem_size) w 0)
  else None.

(** ** [kservice.c]

    The lock of the heap is taken around each call of [mem.c]; taking it succeeds. *)

Definition heap_lock_take : HM unit :=
  modify (fun h => mkHeap (self h) (small_mem h) (words h) (heap_lock h + 1)).
Definition heap_lock_release : HM unit :=
  modify (fun h => mkHeap (self h) (small_mem h) (words h) (heap_lock h - 1)).

Definition locked {A} (m : HM A) : HM A :=
  heap_lock_take ;; let! a := m in heap_lock_release ;; ret a.

Definition rt_malloc (size : Z) : HM Z := locked (rt_smem_alloc size).
Definition rt_realloc (rmem newsize : Z) : HM Z := locked (rt_smem_realloc rmem newsize).
Definition rt_free (rmem : Z) : HM unit := if rmem =? 0 then ret tt else locked (rt_smem_free rmem).
Definition rt_memory_info : HM (Z * Z * Z) :=
  locked (let! t := sget total in let! u := sget mem_used in let! m := sget mem_max in ret (t, u, m)).

(** [rt_memset(p, 0, n)], the last bytes in the low end of their word. *)
Fixpoint zero_words (n : nat) (p : Z) : HM unit :=
  match n with
  | O => ret tt
  | S n' => store p 0 ;; zero_words n' (p + 4)
  end.

Definition zero_bytes (p n : Z) : HM unit :=
  zero_words (Z.to_nat (n / 4)) p ;;
  if n mod 4 =? 0 then ret tt
  else
    let q := p + 4 * (n / 4) in
    let! v := load q in store q (Z.land v (Z.lnot (Z.ones (8 * (n mod 4))))).

(** The product wraps. *)
Definition rt_calloc (count size : Z) : HM Z :=
  let! p := rt_malloc (u32 (count * size)) in
  (if negb (p =? 0) then zero_bytes p (u32 (count * size)) else ret tt) ;;
  ret p.

Definition align4 (x : Z) : Z := Z.land (u32 (x + 3)) (not32 3).

Definition rt_malloc_align (size align : Z) : HM Z :=
  let align := align4 align in
  let align_size := u32 (align4 size + align) in
  let! ptr := rt_malloc align_size in
  if ptr =? 0 then ret 0
  else
    let align_ptr :=
      if Z.land ptr (u32 (align - 1)) =? 0 then u32 (ptr + align)
      else Z.land (u32 (ptr + u32 (align - 1))) (not32 (u32 (align - 1))) in
    store (u32 (align_ptr - 4)) ptr ;;
    ret align_ptr.

Definition rt_free_align (ptr : Z) : HM unit :=
  if ptr =? 0 then ret tt
  else let! real_ptr := load (u32 (ptr - 4)) in rt_free real_ptr.

(** The heap between two addresses, as the board's start-up gives it; [RT_ASSERT] on their
    order. *)
Definition rt_system_heap_init (begin_addr end_addr : Z) (w : Z -> Z) : outcome (option heap) :=
  let begin_align := RT_ALIGN begin_addr RT_ALIGN_SIZE in
  let end_align := RT_ALIGN_DOWN end_addr RT_ALIGN_SIZE in
  if begin_align <? end_align then Ret (rt_smem_init begin_addr (u32 (end_align - begin_align)) w) else AssertFail.
