(* ===== verification/SmemChain.v ===== *)
(** * The chain of items of the heap

    What the words of a well-formed heap look like: the items tile the heap, each with the
    offsets of its neighbours, and no two free blocks lie side by side.  Blocks are pairs of
    their size, item included, and whether they are in use. *)

From Stdlib Require Import ZArith Lia Bool.
From stdpp Require Import base tactics numbers list option.
From S2P Require Import Prelude Smem.

Open Scope Z_scope.

Abbreviation block := (Z * bool)%type.

Fixpoint extent (bs : list block) : Z :=
  match bs with [] => 0 | (n, _) :: bs' => n + extent bs' end.

(** Blocks are large enough for an item and its data. *)
Definition block_ok (b : block) : Prop := 128 <= fst b /\ fst b mod 64 = 0.

(** No two free blocks side by side. *)
Definition head_used (bs : list block) : Prop :=
  match bs with (_, false) :: _ => False | _ => True end.

Fixpoint sep (bs : list block) : Prop :=
  match bs with
  | [] => True
  | (_, u) :: bs' => (u = false -> head_used bs') /\ sep bs'
  end.

Definition last_used (bs : list block) : Prop :=
  forall b0 n u, bs = b0 ++ [(n, u)] -> u = true.

(** The offset of the first free block, or of the end. *)
Fixpoint lowest (bs : list block) : Z :=
  match bs with
  | [] => 0
  | (n, u) :: bs' => if u then n + lowest bs' else 0
  end.

Fixpoint used_sum (bs : list block) : Z :=
  match bs with [] => 0 | (n, u) :: bs' => (if u then n else 0) + used_sum bs' end.

(** A block in use at an offset. *)
Definition used_at (bs : list block) (off n : Z) : Prop :=
  exists b1 b2, bs = b1 ++ (n, true) :: b2 /\ off = extent b1.

Lemma sep_app b1 b2 : sep (b1 ++ b2) <-> sep b1 /\ sep b2 /\ (last_used b1 \/ head_used b2).
Proof.
  induction b1 as [|[n u] b1 IH]; cbn [app sep].
  - split; [intros H; split_and!; [done|done|]; left; by intros [|? ?] ? ? ?|tauto].
  - rewrite IH. destruct b1 as [|[m v] b1].
    + cbn. split.
      * intros (H & _ & H2 & _). split_and!; try done. destruct u; [left|right; by apply H].
        intros [|? [|? ?]] ? ? [= ]; by subst.
      * intros ([_ _] & H2 & [H|H]); split_and!; try done; try (by left; intros [|? ?] ? ? ?).
        intros ->. by discriminate (H [] n false eq_refl).
    + assert (E : last_used ((n, u) :: (m, v) :: b1) <-> last_used ((m, v) :: b1)).
      { split; intros H b0 k t Hb; [apply (H ((n, u) :: b0) k t); cbn; by rewrite Hb|].
        destruct b0 as [|x b0]; [done|]. injection Hb as <- Hb. by apply (H b0 k). }
      rewrite E. cbn. tauto.
Qed.

Lemma last_used_nil : last_used [].
Proof. by intros [|? ?] ? ? ?. Qed.

Lemma last_used_snoc b n : last_used (b ++ [(n, true)]).
Proof. intros b0 m u H. by apply app_inj_tail in H as [_ [= _ <-]]. Qed.

(** The last block is in use, or it is free. *)
Lemma last_cases bs : last_used bs \/ exists b0 n, bs = b0 ++ [(n, false)].
Proof.
  destruct bs as [|[n u] bs _] using rev_ind; [left; apply last_used_nil|].
  destruct u; [left; apply last_used_snoc|right; by exists bs, n].
Qed.

Lemma extent_app b1 b2 : extent (b1 ++ b2) = extent b1 + extent b2.
Proof. induction b1 as [|[n u] b1 IH]; cbn; [done|]. rewrite IH. lia. Qed.

Lemma used_sum_app b1 b2 : used_sum (b1 ++ b2) = used_sum b1 + used_sum b2.
Proof. induction b1 as [|[n u] b1 IH]; cbn; [done|]. rewrite IH. lia. Qed.

Lemma extent_ok bs : Forall block_ok bs -> 128 * Z.of_nat (length bs) <= extent bs /\ extent bs mod 64 = 0.
Proof.
  induction 1 as [|[n u] bs [Hn Hm] _ [IH1 IH2]]; cbn; [done|]. cbn in Hn, Hm. split; [lia|].
  rewrite Z.add_mod, Hm, IH2 by lia. done.
Qed.

Lemma used_sum_le bs : Forall block_ok bs -> 0 <= used_sum bs <= extent bs.
Proof. induction 1 as [|[n u] bs [Hn _] _ IH]; cbn; [lia|]. cbn in Hn. destruct u; lia. Qed.

Lemma lowest_le bs : Forall block_ok bs -> 0 <= lowest bs <= extent bs.
Proof. induction 1 as [|[n u] bs [Hn _] Hbs IH]; cbn; [lia|]. cbn in Hn. destruct u; [lia|]. pose proof (extent_ok bs Hbs). lia. Qed.

Lemma used_at_cons n u bs off m :
  used_at ((n, u) :: bs) off m <-> (u = true /\ off = 0 /\ m = n) \/ exists o, used_at bs o m /\ off = n + o.
Proof.
  split.
  - intros ([|[k v] b1] & b2 & E & ->); simplify_eq/=; [by left|]. right. exists (extent b1). split; [by exists b1, b2|done].
  - intros [(-> & -> & ->)|(o & (b1 & b2 & -> & ->) & ->)]; [by exists [], bs|by exists ((n, u) :: b1), b2].
Qed.

Lemma used_at_app b1 b2 off m :
  used_at (b1 ++ b2) off m <-> used_at b1 off m \/ exists o, used_at b2 o m /\ off = extent b1 + o.
Proof.
  revert off. induction b1 as [|[n u] b1 IH]; intros off; cbn [app extent].
  - split; [intros H; right; exists off; split; [done|lia]|]. intros [([|? ?] & ? & [=] & _)|(o & H & ->)]. by rewrite Z.add_0_l.
  - rewrite !used_at_cons. setoid_rewrite IH. split.
    + intros [H|(o & [H|(o2 & H & ->)] & ->)]; [by left; left|left; right; by exists o|right; exists o2; split; [done|lia]].
    + intros [[H|(o & H & ->)]|(o & H & ->)]; [by left|right; exists o; auto|right; exists (extent b1 + o); split; [eauto|lia]].
Qed.

(** The other blocks in use stay when one block is replaced. *)
Lemma used_replace p n u c q off m :
  extent c = n -> used_at (p ++ (n, u) :: q) off m -> off <> extent p \/ u = false -> used_at (p ++ c ++ q) off m.
Proof.
  intros Hc H Hne. apply used_at_app in H as [H|(o & H & ->)]; apply used_at_app; [by left|right].
  apply used_at_cons in H as [(-> & -> & _)|(o2 & H & ->)]; [destruct Hne; [lia|done]|].
  exists (n + o2). split; [|done]. apply used_at_app. right. exists o2. by rewrite Hc.
Qed.

Lemma used_replace_inv p n u c q off m :
  extent c = n -> used_at (p ++ c ++ q) off m ->
  used_at (p ++ (n, u) :: q) off m \/ exists o, used_at c o m /\ off = extent p + o.
Proof.
  intros Hc H. apply used_at_app in H as [H|(o & H & ->)]; [left; apply used_at_app; by left|].
  apply used_at_app in H as [H|(o2 & H & ->)]; [right; by exists o|left]. rewrite Hc. apply used_at_app. right.
  exists (n + o2). split; [|done]. apply used_at_cons. right. by exists o2.
Qed.

(** Where a block in use lies. *)
Lemma used_at_ok bs off m :
  Forall block_ok bs -> used_at bs off m -> 128 <= m /\ m mod 64 = 0 /\ 0 <= off /\ off mod 64 = 0 /\ off + m <= extent bs.
Proof.
  intros Hok (b1 & b2 & -> & ->). apply Forall_app in Hok as [H1 H2]. apply Forall_cons_1 in H2 as [[Hn Hm] H2].
  pose proof (extent_ok _ H1). pose proof (extent_ok _ H2). cbn in Hn, Hm. rewrite extent_app. cbn [extent].
  split_and!; (done || lia).
Qed.

(** The first free block splits the heap. *)
Lemma lowest_split bs :
  exists b1 b2, bs = b1 ++ b2 /\ Forall (fun b => snd b = true) b1 /\ lowest bs = extent b1 /\
    (b2 = [] \/ exists n b3, b2 = (n, false) :: b3).
Proof.
  induction bs as [|[n [|]] bs IH]; cbn.
  - exists [], []. by repeat split; auto.
  - destruct IH as (b1 & b2 & -> & Hu & -> & H). exists ((n, true) :: b1), b2. by repeat split; auto.
  - exists [], ((n, false) :: bs). repeat split; eauto.
Qed.

Lemma lowest_app_used b1 b2 : Forall (fun b => snd b = true) b1 -> lowest (b1 ++ b2) = extent b1 + lowest b2.
Proof. induction 1 as [|[n u] b1 Hu _ IH]; cbn in *; [done|]. subst u. rewrite IH. lia. Qed.

Definition all_used (bs : list block) : bool := forallb snd bs.

Lemma lowest_app b1 b2 : lowest (b1 ++ b2) = if all_used b1 then extent b1 + lowest b2 else lowest b1.
Proof.
  induction b1 as [|[n u] b1 IH]; [done|]. cbn. destruct u; cbn; [|done]. rewrite IH. unfold all_used. destruct (forallb snd b1); lia.
Qed.

Lemma lowest_lt bs : Forall block_ok bs -> all_used bs = false -> lowest bs < extent bs.
Proof.
  induction 1 as [|[n u] bs [Hn _] Hok IH]; [done|]. cbn in *. destruct u; cbn; [intros H; specialize (IH H); lia|].
  pose proof (extent_ok bs Hok). lia.
Qed.

(** ** Words of a heap of given place and size *)

Section chain.
Variables self0 base msz : Z.

(** The object is in front of the heap, and the end of the heap before the end of memory. *)
Definition geometry : Prop :=
  0 < self0 /\ self0 mod 64 = 0 /\ self0 < base /\ base mod 64 = 0 /\ 64 <= msz /\ msz mod 64 = 0 /\
  base + msz + 128 < 2 ^ 32.

Hypothesis G : geometry.

(** The offset of the end. *)
#[local] Abbreviation hend := (msz + 64).

Definition tag (u : bool) : Z := self0 + Z.b2z u.

Definition item (w : Z -> Z) (off : Z) (u : bool) (next prev : Z) : Prop :=
  w (base + off) = tag u /\ w (base + off + 4) = next /\ w (base + off + 8) = prev.

(** Items of [bs] from [off] on, the first with [prev] before it; behind them is [off'],
    with [prev'] before it. *)
Fixpoint seg (w : Z -> Z) (off prev : Z) (bs : list block) (off' prev' : Z) : Prop :=
  match bs with
  | [] => off = off' /\ prev = prev'
  | (n, u) :: bs' => item w off u (off + n) prev /\ seg w (off + n) off bs' off' prev'
  end.

(** The item at the end looks used; nothing reads what lies before it. *)
Definition last_item (w : Z -> Z) : Prop :=
  w (base + hend) = tag true /\ w (base + hend + 4) = hend.

Definition chain (w : Z -> Z) (bs : list block) : Prop :=
  Forall block_ok bs /\ last_item w /\ exists p, seg w 0 0 bs hend p.

Lemma seg_end w off prev bs off' prev' : seg w off prev bs off' prev' -> off' = off + extent bs.
Proof.
  revert off prev. induction bs as [|[n u] bs IH]; intros off prev; cbn; [lia|].
  intros [_ H]. rewrite (IH _ _ H). lia.
Qed.

Lemma seg_app w off prev b1 b2 off' prev' :
  seg w off prev (b1 ++ b2) off' prev' <->
  exists p, seg w off prev b1 (off + extent b1) p /\ seg w (off + extent b1) p b2 off' prev'.
Proof.
  revert off prev. induction b1 as [|[n u] b1 IH]; intros off prev; cbn.
  - rewrite Z.add_0_r. split; [by exists prev|]. by intros (p & [_ <-] & H).
  - rewrite IH, <-Z.add_assoc. split; [intros (H & p & H1 & H2); by exists p|].
    intros (p & [H H1] & H2). split; [done|]. by exists p.
Qed.

(** A segment looks at the words between its ends only. *)
Lemma seg_frame w w' off prev bs off' prev' :
  Forall block_ok bs -> seg w off prev bs off' prev' ->
  (forall a, base + off <= a < base + off' -> w' a = w a) -> seg w' off prev bs off' prev'.
Proof.
  intros Hok. revert off prev. induction Hok as [|[n u] bs [Hn Hm] Hok IH]; intros off prev; cbn; [done|].
  cbn in Hn. intros [(H1 & H2 & H3) H] Hw. pose proof (seg_end _ _ _ _ _ _ H) as Hend.
  pose proof (extent_ok _ Hok) as [? _].
  split; [unfold item; rewrite !Hw by lia; done|]. apply IH; [done|]. intros a Ha. apply Hw. lia.
Qed.

(** Where a block's item lies. *)
Lemma seg_offset w bs p : Forall block_ok bs -> seg w 0 0 bs hend p -> extent bs = hend.
Proof. intros _ H. apply seg_end in H. lia. Qed.
End chain.

(** ** Runs of the operations on the words

    One lemma per access, for a heap given by its parts, and the words after stores. *)

(** ** Words after stores *)

Lemma put_word_eq a v w : put_word a v w a = v.
Proof. unfold put_word. by rewrite Z.eqb_refl. Qed.

Lemma put_word_ne a b v w : b <> a -> put_word a v w b = w b.
Proof. intros H. unfold put_word. by destruct (Z.eqb_spec b a). Qed.

(** Reads a word behind stores whose addresses [lia] tells apart. *)
Ltac words := repeat (rewrite put_word_eq || rewrite put_word_ne by lia).

(** ** Accesses *)

Section run.
Variables self0 base msz : Z.
Hypothesis G : geometry self0 base msz.
#[local] Abbreviation hend := (msz + 64).
#[local] Abbreviation tag := (tag self0).

(** The heap with the words [w], the lowest free item [l], [u] bytes in use, at most [m]
    so far, and the lock held [k] times. *)
Definition st (w : Z -> Z) (l u m k : Z) : heap :=
  mkHeap self0 (mkSmem 0x8c msz u m base (base + hend) l msz) w k.

Definition is_off (off : Z) : Prop := 0 <= off <= hend /\ off mod 64 = 0.

Lemma mod_64_4 x : x mod 64 = 0 -> x mod 4 = 0.
Proof. intros H. apply Z.mod_divide in H as [k ->]; [|lia]. apply Z.mod_divide; [lia|]. exists (16 * k). lia. Qed.

(** An address of the heap. *)
Definition is_word (a : Z) : Prop := base <= a /\ a + 4 <= base + hend + 64 /\ a mod 4 = 0.

Lemma is_word_item off i : is_off off -> i = 0 \/ i = 4 \/ i = 8 -> is_word (base + off + i).
Proof.
  destruct G as (_ & _ & _ & Hb & _). intros [H1 H2] Hi. split_and!; [lia|lia|].
  apply mod_64_4 in Hb, H2. destruct Hi as [->|[->| ->]]; (Z.div_mod_to_equations; lia).
Qed.

Lemma is_word_in w l u m k a : is_word a -> in_heap (st w l u m k) a = true.
Proof.
  intros (H1 & H2 & H3). unfold in_heap. cbn [small_mem st heap_ptr heap_end].
  change SIZEOF_STRUCT_MEM with 64. rewrite H3.
  destruct (Z.leb_spec base a), (Z.leb_spec (a + 4) (base + hend + 64)); (done || lia).
Qed.

Lemma load_run {B} a w l u m k (f : Z -> HM B) :
  is_word a -> bind (load a) f (st w l u m k) = f (w a) (st w l u m k).
Proof. intros H. unfold bind, load. by rewrite is_word_in. Qed.

Lemma store_run {B} a v w l u m k (f : unit -> HM B) :
  is_word a -> bind (store a v) f (st w l u m k) = f tt (st (put_word a v w) l u m k).
Proof. intros H. unfold bind, store. by rewrite is_word_in. Qed.

Lemma pool_ptr_run {B} off w l u m k (f : Z -> HM B) :
  is_off off -> bind (item_pool_ptr (base + off)) f (st w l u m k) = f (w (base + off)) (st w l u m k).
Proof. intros H. apply load_run. rewrite <-(Z.add_0_r (base + off)). apply is_word_item; auto. Qed.

Lemma next_run {B} off w l u m k (f : Z -> HM B) :
  is_off off -> bind (item_next (base + off)) f (st w l u m k) = f (w (base + off + 4)) (st w l u m k).
Proof. intros H. apply load_run, is_word_item; auto. Qed.

Lemma prev_run {B} off w l u m k (f : Z -> HM B) :
  is_off off -> bind (item_prev (base + off)) f (st w l u m k) = f (w (base + off + 8)) (st w l u m k).
Proof. intros H. apply load_run, is_word_item; auto. Qed.

Lemma set_pool_ptr_run {B} off v w l u m k (f : unit -> HM B) :
  is_off off -> bind (set_pool_ptr (base + off) v) f (st w l u m k) = f tt (st (put_word (base + off) v w) l u m k).
Proof. intros H. apply store_run. rewrite <-(Z.add_0_r (base + off)). apply is_word_item; auto. Qed.

Lemma set_next_run {B} off v w l u m k (f : unit -> HM B) :
  is_off off -> bind (set_next (base + off) v) f (st w l u m k) = f tt (st (put_word (base + off + 4) v w) l u m k).
Proof. intros H. apply store_run, is_word_item; auto. Qed.

Lemma set_prev_run {B} off v w l u m k (f : unit -> HM B) :
  is_off off -> bind (set_prev (base + off) v) f (st w l u m k) = f tt (st (put_word (base + off + 8) v w) l u m k).
Proof. intros H. apply store_run, is_word_item; auto. Qed.

Lemma at_offset_run {B} off w l u m k (f : Z -> HM B) :
  is_off off -> bind (at_offset off) f (st w l u m k) = f (base + off) (st w l u m k).
Proof.
  destruct G as (? & _ & ? & _ & ? & _ & ?). intros [Hoff _]. unfold at_offset. rewrite bind_gets. cbn.
  by rewrite u32_small by (unfold is_u32; lia).
Qed.

Lemma offset_of_run {B} off w l u m k (f : Z -> HM B) :
  is_off off -> bind (offset_of (base + off)) f (st w l u m k) = f off (st w l u m k).
Proof.
  destruct G as (? & _ & ? & _ & ? & _ & ?). intros [Hoff _]. unfold offset_of. rewrite bind_gets. cbn.
  replace (base + off - base) with off by lia. by rewrite u32_small by (unfold is_u32; lia).
Qed.

Lemma sget_run {B} f w l u m k (g : Z -> HM B) :
  bind (sget f) g (st w l u m k) = g (f (small_mem (st w l u m k))) (st w l u m k).
Proof. done. Qed.

Lemma set_lfree_run {B} v w l u m k (f : unit -> HM B) :
  bind (set_lfree v) f (st w l u m k) = f tt (st w v u m k).
Proof. done. Qed.

Lemma set_used_run {B} g w l u m k (f : unit -> HM B) :
  bind (set_used g) f (st w l u m k) = f tt (st w l (g u) m k).
Proof. done. Qed.

Lemma memory_object_run {B} w l u m k (f : unit -> HM B) :
  bind memory_object f (st w l u m k) = f tt (st w l u m k).
Proof. done. Qed.

(** *** Tags *)

Lemma self_even : self0 mod 2 = 0 /\ 0 < self0 < 2 ^ 32.
Proof.
  destruct G as (? & H & ? & _ & ? & _ & ?). split; [|lia].
  apply Z.mod_divide in H as [j ->]; [|lia]. apply Z.mod_divide; [lia|]. exists (32 * j). lia.
Qed.

Lemma mask_even x : x mod 2 = 0 -> 0 <= x < 2 ^ 32 -> forall b : bool, Z.land (x + Z.b2z b) MEM_MASK = x.
Proof.
  intros Hx Hr b. change MEM_MASK with (Z.land (Z.lnot (Z.ones 1)) (Z.ones 32)).
  rewrite Z.land_assoc, <-Z.ldiff_land, Z.ldiff_ones_r, Z.land_ones by lia.
  rewrite Z.shiftr_div_pow2, Z.shiftl_mul_pow2 by lia.
  apply Z.mod_divide in Hx as [j ->]; [|lia].
  rewrite Z.mod_small; destruct b; cbn [Z.b2z]; Z.div_mod_to_equations; lia.
Qed.

Lemma tag_mask b : Z.land (tag b) MEM_MASK = self0.
Proof. unfold SmemChain.tag. destruct self_even. apply mask_even; lia. Qed.

Lemma tag_bit b : Z.land (tag b) (not32 MEM_MASK) = Z.b2z b.
Proof.
  change (not32 MEM_MASK) with (Z.ones 1). rewrite Z.land_ones by lia. unfold SmemChain.tag. change (2 ^ 1) with 2.
  destruct self_even as [H _]. rewrite Z.add_mod, H by lia. by destruct b.
Qed.

Lemma mem_tag b : Z.lor (Z.land self0 MEM_MASK) (Z.b2z b) = tag b.
Proof.
  destruct self_even as [H ?]. rewrite <-(Z.add_0_r self0) at 1. change 0 with (Z.b2z false) at 1.
  rewrite mask_even by lia. unfold SmemChain.tag. destruct b; [|by rewrite Z.lor_0_r, Z.add_0_r].
  apply Z.mod_divide in H as [j ->]; [|lia]. cbn [Z.b2z].
  rewrite Z.add_nocarry_lxor; [rewrite Z.lxor_lor; [done|]|];
    apply Z.bits_inj'; intros i Hi; rewrite Z.land_spec, Z.bits_0; change 1 with (bit 0);
    rewrite testbit_bit by lia; (destruct (Z.eqb_spec i 0) as [->|]; [|apply andb_false_r]);
    by rewrite Z.mul_comm, Z.testbit_even_0.
Qed.

Lemma MEM_USED_run {B} w l u m k (f : Z -> HM B) : bind MEM_USED f (st w l u m k) = f (tag true) (st w l u m k).
Proof. unfold MEM_USED. rewrite bind_gets. cbn [self st]. by rewrite <-(mem_tag true). Qed.

Lemma MEM_FREED_run {B} w l u m k (f : Z -> HM B) : bind MEM_FREED f (st w l u m k) = f (tag false) (st w l u m k).
Proof. unfold MEM_FREED. rewrite bind_gets. cbn [self st]. by rewrite <-(mem_tag false). Qed.

Lemma isused_run {B} off b w l u m k (f : bool -> HM B) :
  is_off off -> w (base + off) = tag b -> bind (MEM_ISUSED (base + off)) f (st w l u m k) = f b (st w l u m k).
Proof.
  intros H E. unfold MEM_ISUSED. rewrite bind_assoc, pool_ptr_run, E, tag_bit by done. by destruct b.
Qed.

Lemma pool_run {B} off b w l u m k (f : Z -> HM B) :
  is_off off -> w (base + off) = tag b -> bind (MEM_POOL (base + off)) f (st w l u m k) = f self0 (st w l u m k).
Proof. intros H E. unfold MEM_POOL. rewrite bind_assoc, pool_ptr_run, E, tag_mask by done. done. Qed.
End run.
