(* ===== verification/SmemAlloc.v ===== *)
(** * Allocation on the heap

    [rt_smem_alloc] takes the first free block that is large enough and splits it when the
    rest can hold a block. *)

From Stdlib Require Import ZArith Lia Bool.
From stdpp Require Import base tactics numbers list option.
From S2P Require Import Prelude Smem SmemChain.

Open Scope Z_scope.

(** ** On blocks *)

(** What lies before the first free block with [size] bytes of room, its size, and what
    lies behind it. *)
Fixpoint first_fit (size : Z) (bs : list block) : option (list block * Z * list block) :=
  match bs with
  | [] => None
  | (n, u) :: bs' =>
      if negb u && (size <=? n - 64) then Some ([], n, bs')
      else match first_fit size bs' with
           | Some (p, m, q) => Some ((n, u) :: p, m, q)
           | None => None
           end
  end.

Definition carve (size n : Z) : list block :=
  if size + 128 <=? n - 64 then [(size + 64, true); (n - size - 64, false)] else [(n, true)].

(** The offset of the block taken and the blocks afterwards. *)
Definition alloc_blocks (size : Z) (bs : list block) : option (Z * list block) :=
  match first_fit size bs with
  | Some (p, n, q) => Some (extent p, p ++ carve size n ++ q)
  | None => None
  end.

Lemma first_fit_Some size bs p n q :
  first_fit size bs = Some (p, n, q) -> bs = p ++ (n, false) :: q /\ size <= n - 64.
Proof.
  revert p. induction bs as [|[m u] bs IH]; intros p; cbn; [done|].
  destruct u; cbn [negb andb]; [|destruct (Z.leb_spec size (m - 64)); [intros [= <- <- <-]; split; [done|lia]|]];
    (destruct (first_fit size bs) as [[[p' k] r]|]; [|done]); intros [= <- <- <-];
    (destruct (IH p' eq_refl) as [-> ?]; done).
Qed.

Lemma first_fit_small size bs : Forall block_ok bs -> extent bs - 64 < size -> first_fit size bs = None.
Proof.
  induction 1 as [|[n u] bs [Hn Hm] Hok IH]; cbn; [done|]. cbn in Hn. pose proof (extent_ok bs Hok) as [He _]. intros H.
  pose proof (Z.mod_pos_bound n 64). destruct (Z.leb_spec size (n - 64)); [lia|]. rewrite andb_false_r, IH by lia. done.
Qed.

Lemma first_fit_used size b1 b2 :
  Forall (fun b => snd b = true) b1 ->
  first_fit size (b1 ++ b2) =
  match first_fit size b2 with Some (p, n, q) => Some (b1 ++ p, n, q) | None => None end.
Proof.
  induction 1 as [|[n u] b1 Hu _ IH]; cbn in *; [by destruct (first_fit size b2) as [[[? ?] ?]|]|].
  subst u. cbn. rewrite IH. by destruct (first_fit size b2) as [[[? ?] ?]|].
Qed.

(** Blocks at different places do not overlap. *)
Lemma used_apart p n u q off m :
  Forall block_ok (p ++ (n, u) :: q) -> used_at (p ++ (n, u) :: q) off m ->
  off + m <= extent p \/ extent p + n <= off \/ (off = extent p /\ m = n /\ u = true).
Proof.
  revert off. induction p as [|[k v] p IH]; intros off; cbn [app].
  - intros Hok (b1 & b2 & E & ->). destruct b1 as [|[j t] b1]; simplify_eq/=; [by auto|].
    apply Forall_cons_1 in Hok as [_ Hok]. apply Forall_app in Hok as [Hok _].
    pose proof (extent_ok b1 Hok). lia.
  - intros Hok (b1 & b2 & E & ->). apply Forall_cons_1 in Hok as [[Hk _] Hok]. cbn in Hk.
    destruct b1 as [|[j t] b1]; simplify_eq/=.
    + left. apply Forall_app in Hok as [Hok _]. pose proof (extent_ok p Hok). lia.
    + destruct (IH (extent b1) Hok) as [H|[H|(H1 & H2)]]; [by exists b1, b2|..]; [lia|lia|].
      right; right. split; [lia|done].
Qed.

Lemma carve_ok size n :
  64 <= size -> size mod 64 = 0 -> size <= n - 64 -> n mod 64 = 0 ->
  Forall block_ok (carve size n) /\ extent (carve size n) = n /\
  exists c rest, carve size n = (c, true) :: rest /\ size + 64 <= c <= n /\ Forall (fun b => snd b = false) rest.
Proof.
  intros Hs Hm Hfit Hn. unfold carve. destruct (Z.leb_spec (size + 128) (n - 64)).
  - split; [|split; [cbn; lia|exists (size + 64), [(n - size - 64, false)]; split_and!; (done || lia || by repeat constructor)]].
    repeat constructor; cbn; try lia; [by rewrite Z.add_mod, Hm by lia|].
    replace (n - size - 64) with (n - (size + 64)) by lia. by rewrite Zminus_mod, Hn, (Z.add_mod size), Hm by lia.
  - split; [|split; [cbn; lia|exists n, []; split_and!; (done || lia)]]. repeat constructor; cbn; [lia|done].
Qed.

Lemma carve_sep size n p q : sep (p ++ (n, false) :: q) -> sep (p ++ carve size n ++ q).
Proof.
  intros H. apply sep_app in H as (Hp & [Hq Hq2] & _). specialize (Hq eq_refl). apply sep_app.
  unfold carve. destruct (_ <=? _); cbn; split_and!; (done || by right).
Qed.

Lemma used_free_only bs off m : Forall (fun b => snd b = false) bs -> ~ used_at bs off m.
Proof.
  intros H (b1 & b2 & -> & _). apply Forall_app in H as [_ H]. by apply Forall_cons_1 in H as [[=] _].
Qed.

(** What a successful allocation does to the blocks. *)
Lemma alloc_blocks_spec size bs off bs' :
  Forall block_ok bs -> sep bs -> 64 <= size -> size mod 64 = 0 -> alloc_blocks size bs = Some (off, bs') ->
  sep bs' /\ Forall block_ok bs' /\ exists c, size + 64 <= c /\ used_at bs' off c /\
    (forall o j, used_at bs' o j <-> (o = off /\ j = c) \/ used_at bs o j) /\
    (forall o j, used_at bs o j -> o + j <= off \/ off + c <= o).
Proof.
  intros Hok Hsep Hs Hm. unfold alloc_blocks. destruct (first_fit size bs) as [[[p n] q]|] eqn:E; [|done].
  intros [= <- <-]. apply first_fit_Some in E as [-> Hfit]. split; [by apply carve_sep|].
  pose proof Hok as Hok2. apply Forall_app in Hok2 as [_ Hok2]. apply Forall_cons_1 in Hok2 as [[_ Hmn] _]. cbn in Hmn.
  destruct (carve_ok size n Hs Hm Hfit Hmn) as (Hcok & Hext & c & rest & E & Hc & Hr). split.
  { apply Forall_app in Hok as [? Hok]. apply Forall_cons_1 in Hok as [_ Hok]. by rewrite !Forall_app. }
  exists c. split; [lia|].
  assert (Hu : used_at (p ++ carve size n ++ q) (extent p) c).
  { rewrite E. by exists p, (rest ++ q). }
  split; [done|split].
  - intros o j. split.
    + intros H. apply (used_replace_inv p n false) in H as [H|(o2 & H & ->)]; [by right|left|done].
      rewrite E in H. apply used_at_cons in H as [(_ & -> & ->)|(o3 & H & _)]; [split; [lia|done]|].
      by apply used_free_only in H.
    + intros [[-> ->]|H]; [done|]. by apply (used_replace p n false); [|done|right].
  - intros o j H. destruct (used_apart p n false q o j Hok H) as [?|[?|(_ & _ & [=])]]; lia.
Qed.

(** ** The loops *)

Section alloc.
Variables self0 base msz : Z.
Hypothesis G : geometry self0 base msz.
#[local] Abbreviation hend := (msz + 64).
#[local] Abbreviation tag := (tag self0).
#[local] Abbreviation item := (item self0 base).
#[local] Abbreviation seg := (seg self0 base).
#[local] Abbreviation chain := (chain self0 base msz).
#[local] Abbreviation st := (st self0 base msz).
#[local] Abbreviation is_off := (is_off msz).

Lemma off_fits bs : Forall block_ok bs -> extent bs <= hend -> is_off (extent bs).
Proof. intros Hok H. pose proof (extent_ok bs Hok) as [? ?]. split; [lia|done]. Qed.

Lemma geo : 0 < base /\ 64 <= msz /\ base + msz + 128 < 2 ^ 32.
Proof. destruct G as (? & _ & ? & _ & ? & _ & ?). lia. Qed.

(** The block behind [b1]. *)
Lemma chain_at w b1 n u b2 :
  chain w (b1 ++ (n, u) :: b2) ->
  (exists p, item w (extent b1) u (extent b1 + n) p) /\ is_off (extent b1) /\ is_off (extent b1 + n) /\
  128 <= n /\ n mod 64 = 0 /\ extent b1 + n + extent b2 = hend.
Proof.
  intros (Hok & _ & p & H). pose proof (seg_end _ _ _ _ _ _ _ _ H) as Hend.
  rewrite extent_app in Hend. cbn in Hend. apply seg_app in H as (q & _ & [Hi _]).
  pose proof Hok as Hok'. apply Forall_app in Hok as [Ho1 Ho2]. apply Forall_cons_1 in Ho2 as [[Hn Hm] Ho2].
  cbn in Hn, Hm. pose proof (extent_ok b2 Ho2) as [He2 _]. pose proof (extent_ok b1 Ho1) as [He1 Hm1].
  split; [exists q; by rewrite Z.add_0_l in Hi|]. split; [by apply off_fits; [|lia]|]. split; [|split; [done|split; [done|lia]]].
  split; [lia|]. rewrite Z.add_mod by lia. by rewrite Hm, Hm1.
Qed.

Lemma chain_extent w bs : chain w bs -> extent bs = hend.
Proof. intros (_ & _ & p & H). apply seg_end in H. lia. Qed.

Lemma chain_end w bs : chain w bs -> is_off hend /\ w (base + hend) = tag true /\ w (base + hend + 4) = hend.
Proof.
  intros (_ & [H1 H2] & _). split; [|done]. destruct G as (_ & _ & _ & _ & ? & Hm & _). split; [lia|].
  rewrite Z.add_mod, Hm by lia. done.
Qed.

Lemma search_loop_run fuel off b1 b2 size w l u m k :
  chain w (b1 ++ b2) -> off = extent b1 -> 64 <= size <= msz -> (length b2 < fuel)%nat ->
  search_loop fuel off size (st w l u m k) =
  match first_fit size b2 with
  | Some (p, _, _) => take_block (base + extent (b1 ++ p)) (extent (b1 ++ p)) size (st w l u m k)
  | None => Ret (0, st w l u m k)
  end.
Proof.
  intros Hw -> Hsz. pose proof G as (? & _ & ? & _ & ? & _ & ?). revert b1 Hw fuel.
  induction b2 as [|[n v] b2 IH]; intros b1 Hw fuel Hf; (destruct fuel as [|fuel]; [cbn in Hf; lia|]);
    cbn [search_loop]; rewrite sget_run; cbn [small_mem mem_size_aligned SmemChain.st];
    rewrite (u32_small (msz - size)) by (unfold is_u32; lia).
  - apply chain_extent in Hw. rewrite app_nil_r in Hw. rewrite Hw.
    destruct (Z.leb_spec hend (msz - size)); [lia|done].
  - destruct (chain_at w b1 n v b2 Hw) as ((p & Hi1 & Hi2 & _) & Ho & Ho2 & Hn & Hm & Hend).
    pose proof Hw as (Hok & _). apply Forall_app in Hok as [_ Hok]. pose proof Hok as Hok'.
    apply Forall_cons_1 in Hok' as [_ Hok']. pose proof (extent_ok b2 Hok') as [? _].
    destruct (Z.leb_spec (extent b1) (msz - size)) as [Hle|Hgt].
    + rewrite (at_offset_run _ _ _ G) by done. rewrite (isused_run _ _ _ G _ v) by done.
      rewrite (next_run _ _ _ G) by done. rewrite Hi2. change SIZEOF_STRUCT_MEM with 64.
      destruct Ho as [Ho _], Ho2 as [Ho2 _].
      rewrite (u32_small (extent b1 + 64)) by (unfold is_u32; lia).
      rewrite u32_small by (unfold is_u32; lia).
      replace (extent b1 + n - (extent b1 + 64)) with (n - 64) by lia. cbn [first_fit].
      destruct (negb v && (size <=? n - 64)); [by rewrite app_nil_r|].
      specialize (IH (b1 ++ [(n, v)])). rewrite <-app_assoc in IH. cbn [app] in IH.
      rewrite extent_app in IH. cbn [extent] in IH. rewrite Z.add_0_r in IH.
      rewrite IH by (done || cbn in Hf; lia).
      destruct (first_fit size b2) as [[[p' ?] ?]|]; [|done]. by rewrite <-app_assoc.
    + rewrite first_fit_small; [done|done|]. cbn. lia.
Qed.

Lemma lfree_loop_run fuel b1 b2 w u m k :
  chain w (b1 ++ b2) -> (length b2 < fuel)%nat ->
  lfree_loop fuel (st w (base + extent b1) u m k) = Ret (tt, st w (base + extent b1 + lowest b2) u m k).
Proof.
  intros Hw. revert b1 Hw fuel. induction b2 as [|[n v] b2 IH]; intros b1 Hw fuel Hf;
    (destruct fuel as [|fuel]; [cbn in Hf; lia|]); cbn [lfree_loop]; rewrite !sget_run;
    cbn [small_mem lfree heap_end SmemChain.st lowest].
  - destruct (chain_end _ _ Hw) as (He & Hu & _). apply chain_extent in Hw. rewrite app_nil_r in Hw. rewrite Hw.
    rewrite (isused_run _ _ _ G _ true), Z.eqb_refl by done. cbn. by rewrite Z.add_0_r.
  - destruct (chain_at w b1 n v b2 Hw) as ((p & Hi1 & Hi2 & _) & Ho & Ho2 & Hn & Hm & Hend).
    rewrite (isused_run _ _ _ G _ v) by done. destruct v; cbn [andb negb]; [|by rewrite Z.add_0_r].
    pose proof Hw as (Hok & _). apply Forall_app in Hok as [_ Hok]. apply Forall_cons_1 in Hok as [_ Hok].
    pose proof (extent_ok b2 Hok) as [? _].
    destruct (Z.eqb_spec (base + extent b1) (base + hend)); [lia|]. cbn [negb].
    rewrite (next_run _ _ _ G), Hi2, (at_offset_run _ _ _ G), set_lfree_run by done.
    specialize (IH (b1 ++ [(n, true)])). rewrite <-app_assoc in IH. cbn [app] in IH.
    rewrite extent_app in IH. cbn [extent] in IH. rewrite Z.add_0_r in IH.
    rewrite IH by (done || cbn in Hf; lia). do 3 f_equal. lia.
Qed.
(** ** Changes of the chain *)

(** The first item of a segment with another item before it; nothing reads what lies
    before the end. *)
Lemma seg_relink w w' off prv prv' bs p :
  Forall block_ok bs -> seg w off prv bs hend p ->
  (forall a, base + off <= a < base + hend -> a <> base + off + 8 -> w' a = w a) ->
  (bs <> [] -> w' (base + off + 8) = prv') ->
  exists p', seg w' off prv' bs hend p'.
Proof.
  destruct bs as [|[n u] bs]; cbn; [intros _ [-> _]; by exists prv'|].
  intros Hok [(H1 & H2 & H3) H] Hw H8. exists p. apply Forall_cons_1 in Hok as [[Hn _] Hok]. cbn in Hn.
  pose proof (seg_end _ _ _ _ _ _ _ _ H). pose proof (extent_ok _ Hok) as [? _].
  split; [unfold SmemChain.item; rewrite !Hw by lia; split_and!; [done|done|by apply H8]|].
  eapply seg_frame; [done|exact H|]. intros a Ha. apply Hw; lia.
Qed.

(** The words are the same but between two offsets and, of the item behind them, the offset
    of its predecessor. *)
Definition same_outside (w w' : Z -> Z) (lo hi : Z) : Prop :=
  forall a, ~ (base + lo <= a < base + hi) -> a <> base + hi + 8 -> w' a = w a.

(** Blocks in the middle replaced by others of the same extent; the item behind them is told
    what lies before it now. *)
Lemma chain_replace w w' b1 n u c1 c2 b2 prv :
  let off := extent b1 in let e := off + (n + extent c1) in
  chain w (b1 ++ ((n, u) :: c1) ++ b2) -> Forall block_ok c2 -> extent c2 = n + extent c1 ->
  same_outside w w' off e ->
  seg w' off (w (base + off + 8)) c2 e prv ->
  (b2 <> [] -> w' (base + e + 8) = prv) ->
  chain w' (b1 ++ c2 ++ b2).
Proof.
  intros off e (Hok & [HE1 HE2] & p & H) Hc2 Hext Hout Hseg H8. subst off e.
  apply Forall_app in Hok as [Hb1 Hok]. apply Forall_app in Hok as [Hc1 Hb2].
  pose proof (extent_ok _ Hb1) as [? _]. pose proof (extent_ok _ Hb2) as [? _]. pose proof (extent_ok _ Hc1) as [? _].
  pose proof (seg_end _ _ _ _ _ _ _ _ H) as Hend. rewrite !extent_app in Hend. cbn [extent] in *.
  apply seg_app in H as (p1 & Hs1 & H). apply seg_app in H as (p2 & Hs2 & Hs3).
  rewrite Z.add_0_l in *. destruct Hs2 as [(_ & _ & Hp1) _].
  cbn [extent] in Hs3. set (e := extent b1 + (n + extent c1)) in *.
  split; [by rewrite !Forall_app|]. split.
  - assert (e = hend \/ e + 128 <= hend) by (destruct b2; cbn [extent length] in *; lia).
    unfold last_item. rewrite !Hout by lia. done.
  - destruct (seg_relink w w' e p2 prv b2 p Hb2 Hs3) as (p' & Hs3'); [intros a Ha Hne; apply Hout; lia|done|].
    exists p'. apply seg_app. exists p1. rewrite Z.add_0_l. split.
    + eapply seg_frame; [done|exact Hs1|]. intros a Ha. apply Hout; lia.
    + apply seg_app. exists prv. rewrite Hext. fold e. by rewrite <-Hp1.
Qed.

Lemma split_run p n v q s w l u m k :
  let off := extent p in
  chain w (p ++ (n, v) :: q) -> 128 <= s -> 128 <= n - s -> s mod 64 = 0 ->
  exists w', split_item (base + off) off (off + s) (st w l u m k) = Ret (base + off + s, st w' l u m k) /\
    chain w' (p ++ [(s, v); (n - s, false)] ++ q) /\ same_outside w w' off (off + n) /\
    (forall a, base + off + 8 <= a < base + off + s -> w' a = w a).
Proof.
  intros off Hw Hs Hns Hm. destruct (chain_at w p n v q Hw) as ((r & Hi1 & Hi2 & Hi3) & Ho & Ho2 & Hn & Hmn & Hend).
  fold off in Hi1, Hi2, Hi3, Ho, Ho2, Hend. pose proof Hw as (Hok & _). apply Forall_app in Hok as [_ Hok].
  apply Forall_cons_1 in Hok as [_ Hok]. pose proof (extent_ok q Hok) as [Hq _].
  assert (Hos : is_off (off + s)).
  { destruct Ho as [? Hmo]. split; [lia|]. rewrite Z.add_mod, Hmo, Hm by lia. done. }
  pose proof geo as (Gb & Gm & Ge). unfold split_item.
  rewrite sget_run. cbn [small_mem mem_size_aligned SmemChain.st].
  rewrite (at_offset_run _ _ _ G), (MEM_FREED_run _ _ _ G) by done.
  rewrite (set_pool_ptr_run _ _ _ G), (next_run _ _ _ G) by done.
  replace (put_word (base + (off + s)) (tag false) w (base + off + 4)) with (off + n) by (words; done).
  rewrite (set_next_run _ _ _ G), (set_prev_run _ _ _ G), (set_next_run _ _ _ G), (next_run _ _ _ G) by done.
  set (w1 := put_word (base + off + 4) _ _).
  assert (H1 : w1 (base + (off + s) + 4) = off + n) by (unfold w1; words; done). rewrite H1.
  change SIZEOF_STRUCT_MEM with 64. rewrite u32_small by (unfold is_u32; lia).
  assert (Hgoal : forall w', (forall a, a <> base + (off + n) + 8 -> w' a = w1 a) ->
    (q <> [] -> w' (base + (off + n) + 8) = off + s) ->
    chain w' (p ++ [(s, v); (n - s, false)] ++ q) /\ same_outside w w' off (off + n) /\
    (forall a, base + off + 8 <= a < base + off + s -> w' a = w a)).
  { intros w' Hw' H8. assert (Hsame : same_outside w w' off (off + n)).
    { intros a Ha Ha8. rewrite Hw' by lia. unfold w1. words. done. }
    split; [|split; [done|]]; [|intros a Ha; rewrite Hw' by lia; unfold w1; by words].
    apply (chain_replace w w' p n v [] _ q (off + s)); cbn [extent]; rewrite ?Z.add_0_r; fold off; try done.
    - repeat constructor; cbn; try lia. by rewrite Zminus_mod, Hmn, Hm.
    - lia.
    - split; [|split; [|split]]; unfold SmemChain.item; rewrite ?Hw' by lia; unfold w1; words; try done.
      + split_and!; (done || lia).
      + lia. }
  destruct (Z.eqb_spec (off + n) (msz + 64)) as [E|E]; cbn [negb].
  - assert (Hq0 : q = []) by (destruct q; [done|cbn [length] in Hq; lia]).
    rewrite bind_ret_l. exists w1. split; [by rewrite Z.add_assoc|]. by apply Hgoal.
  - rewrite bind_assoc, (next_run _ _ _ G), H1 by done. rewrite bind_assoc, (at_offset_run _ _ _ G) by done.
    unfold set_prev. rewrite (store_run _ _ _) by (apply (is_word_item self0); auto).
    eexists. split; [by rewrite Z.add_assoc|]. apply Hgoal; [|intros _; apply put_word_eq].
    intros a Ha. by apply put_word_ne.
Qed.

Lemma retag w p n v v' q :
  chain w (p ++ (n, v) :: q) ->
  let w' := put_word (base + extent p) (tag v') w in
  chain w' (p ++ (n, v') :: q) /\ same_outside w w' (extent p) (extent p + n).
Proof.
  intros Hw w'. destruct (chain_at w p n v q Hw) as ((r & Hi1 & Hi2 & Hi3) & Ho & Ho2 & Hn & Hmn & Hend).
  assert (Hsame : same_outside w w' (extent p) (extent p + n)) by (intros a Ha Ha8; unfold w'; words; done).
  split; [|done]. apply (chain_replace w w' p n v [] [(n, v')] q (extent p)); cbn [extent]; rewrite ?Z.add_0_r; try done.
  - by repeat constructor.
  - split; [|done]. unfold SmemChain.item, w'. words. done.
  - intros Hq. unfold w'. words. destruct q as [|[m t] q]; [done|].
    destruct Hw as (_ & _ & e & H). apply seg_app in H as (e1 & _ & [_ [(_ & _ & H8) _]]).
    rewrite Z.add_0_l in H8. done.
Qed.

Lemma same_outside_trans w1 w2 w3 lo hi :
  same_outside w1 w2 lo hi -> same_outside w2 w3 lo hi -> same_outside w1 w3 lo hi.
Proof. intros H1 H2 a Ha Ha8. rewrite H2, H1 by done. done. Qed.

Lemma same_outside_mono w w' lo hi m : same_outside w w' lo m -> lo <= m -> m + 64 <= hi -> same_outside w w' lo hi.
Proof. intros H Hl Hm a Ha Ha8. apply H; lia. Qed.

Definition hwm (m u : Z) : Z := if m <? u then u else m.

Lemma account_run n w l u m k :
  account n (st w l u m k) = Ret (tt, st w l (u32 (u + n)) (hwm m (u32 (u + n))) k).
Proof.
  unfold account, hwm. rewrite set_used_run, !sget_run.
  cbn [small_mem mem_used mem_max SmemChain.st]. by destruct (m <? u32 (u + n)).
Qed.

Lemma items_fuel b1 b2 w l u m k :
  chain w (b1 ++ b2) -> (length b2 < S (S (Z.to_nat (mem_size_aligned (small_mem (st w l u m k)) / SIZEOF_STRUCT_MEM))))%nat.
Proof.
  intros Hw. pose proof (chain_extent _ _ Hw) as He. destruct Hw as (Hok & _).
  pose proof (extent_ok _ Hok) as [H _]. rewrite length_app in H. pose proof geo as (_ & Gm & _).
  cbn [small_mem mem_size_aligned SmemChain.st]. change SIZEOF_STRUCT_MEM with 64.
  assert (Z.of_nat (length b2) <= msz / 64 + 1); [|lia].
  Z.div_mod_to_equations. lia.
Qed.

Lemma base_aligned off : is_off off -> (base + off) mod 64 = 0.
Proof.
  destruct G as (_ & _ & _ & Hb & _). intros [_ Ho]. rewrite Z.add_mod, Hb, Ho by lia. done.
Qed.

Lemma land_63 x : x mod 64 = 0 -> Z.land x (RT_ALIGN_SIZE - 1) = 0.
Proof. intros H. change (RT_ALIGN_SIZE - 1) with (Z.ones 6). rewrite Z.land_ones by lia. exact H. Qed.

(** The accounting and the split, as one step. *)
Lemma carve_run p n q size w l m k :
  let bs := p ++ (n, false) :: q in let bs' := p ++ carve size n ++ q in
  chain w bs -> 64 <= size -> size mod 64 = 0 -> size <= n - 64 ->
  exists w' c rest, carve size n = (c, true) :: rest /\
    (if u32 (size + 64 + 64) <=? u32 (extent p + n - u32 (extent p + 64))
          then split_item (base + extent p) (extent p) (u32 (extent p + 64 + size)) ;; account (u32 (size + 64))
          else let! off := offset_of (base + extent p) in account (u32 (extent p + n - off)))
      (st w l (used_sum bs) m k) = Ret (tt, st w' l (used_sum bs') (hwm m (used_sum bs')) k) /\
    chain w' (p ++ (c, false) :: rest ++ q) /\ same_outside w w' (extent p) (extent p + n) /\ size + 64 <= c <= n.
Proof.
  intros bs bs' Hw Hs Hsm Hfit. pose proof geo as (Gb & Gm & Ge).
  destruct (chain_at w p n false q Hw) as (_ & Ho & Ho2 & Hn & Hmn & Hend).
  pose proof Hw as (Hok & _). pose proof (used_sum_le _ Hok) as Hus. rewrite (chain_extent _ _ Hw) in Hus.
  pose proof Ho as [Hor _]. pose proof Hok as Hok'. apply Forall_app in Hok' as [_ Hok'].
  apply Forall_cons_1 in Hok' as [_ Hok']. pose proof (extent_ok _ Hok') as [? _].
  rewrite (u32_small (extent p + 64)), !u32_small by (unfold is_u32; lia).
  replace (extent p + n - (extent p + 64)) with (n - 64) by lia.
  assert (Hpq : 0 <= used_sum p <= extent p /\ 0 <= used_sum q <= extent q).
  { apply Forall_app in Hok as [Hp _]. by split; apply used_sum_le. }
  replace (size + 64 + 64) with (size + 128) by lia.
  subst bs bs'. rewrite !used_sum_app in *. unfold carve. cbn [used_sum] in *.
  destruct (Z.leb_spec (size + 128) (n - 64)).
  - replace (extent p + 64 + size) with (extent p + (size + 64)) by lia.
    destruct (split_run p n false q (size + 64) w l (used_sum p + (0 + used_sum q)) m k Hw) as (w' & Hrun & Hc & Hsame & _); [lia|lia|by rewrite Z.add_mod, Hsm by lia|].
    exists w', (size + 64), [(n - size - 64, false)]. split; [done|]. split.
    + rewrite (bind_Ret _ _ _ _ _ Hrun), account_run. cbn [used_sum app]. rewrite u32_small by (unfold is_u32; lia).
      by replace (used_sum p + (0 + used_sum q) + (size + 64)) with (used_sum p + (size + 64 + (0 + 0) + used_sum q)) by lia.
    + replace (n - (size + 64)) with (n - size - 64) in Hc by lia. split_and!; (done || lia).
  - exists w, n, []. split; [done|]. split.
    + rewrite (offset_of_run _ _ _ G), account_run by done. cbn [used_sum app].
      replace (extent p + n - extent p) with n by lia. rewrite (u32_small n), u32_small by (unfold is_u32; lia).
      by replace (used_sum p + (0 + used_sum q) + n) with (used_sum p + (n + 0 + used_sum q)) by lia.
    + split_and!; (done || lia).
Qed.

(** What lies at the lowest free item. *)
Lemma lowest_at w bs :
  chain w bs -> is_off (lowest bs) /\ w (base + lowest bs) = tag (lowest bs =? hend).
Proof.
  intros Hw. destruct (chain_end _ _ Hw) as (He & Hu & _). pose proof (chain_extent _ _ Hw) as Hext.
  destruct (lowest_split bs) as (b1 & b2 & -> & _ & -> & [-> |(n & b3 & ->)]).
  - rewrite app_nil_r in Hext. by rewrite Hext, Z.eqb_refl.
  - destruct (chain_at w b1 n false b3 Hw) as ((r & Hi & _) & Ho & _ & Hn & _ & He').
    destruct Hw as (Hok & _). apply Forall_app in Hok as [_ Hok]. apply Forall_cons_1 in Hok as [_ Hok].
    pose proof (extent_ok _ Hok) as [? _]. split; [done|]. by destruct (Z.eqb_spec (extent b1) hend); [lia|].
Qed.

(** The lowest free item after a block has been taken. *)
Lemma lfree_run p n c rest q w u m k :
  let bs' := p ++ (c, true) :: rest ++ q in
  chain w bs' ->
  (if base + extent p =? base + lowest (p ++ (n, false) :: q) then
     let! n := items_bound in
     lfree_loop n ;;
     let! l := sget lfree in
     let! used := MEM_ISUSED l in
     rt_assert ((l =? base + hend) || negb used)
   else ret tt) (st w (base + lowest (p ++ (n, false) :: q)) u m k) =
  Ret (tt, st w (base + lowest bs') u m k).
Proof.
  intros bs' Hw. pose proof (lowest_at _ _ Hw) as [Ho Hl]. pose proof Hw as (Hok & _).
  apply Forall_app in Hok as [Hok _]. subst bs'. rewrite lowest_app in Ho, Hl |- *. rewrite lowest_app.
  cbn [lowest] in *. destruct (all_used p) eqn:Hp.
  - rewrite Z.add_0_r, Z.eqb_refl. unfold items_bound. rewrite bind_gets.
    erewrite bind_Ret by (apply (lfree_loop_run _ p ((c, true) :: rest ++ q)); [done|by eapply items_fuel]).
    rewrite sget_run. cbn [small_mem lfree heap_end SmemChain.st lowest]. rewrite <-(Z.add_assoc base).
    rewrite (isused_run _ _ _ G _ _ _ _ _ _ _ _ Ho Hl). unfold rt_assert.
    destruct (Z.eqb_spec (extent p + (c + lowest (rest ++ q))) hend) as [->|]; [by rewrite Z.eqb_refl|].
    by rewrite orb_true_r.
  - by destruct (Z.eqb_spec (base + extent p) (base + lowest p)); [pose proof (lowest_lt _ Hok Hp); lia|].
Qed.

Lemma take_block_run p n q size w m k :
  let bs := p ++ (n, false) :: q in let bs' := p ++ carve size n ++ q in
  chain w bs -> 64 <= size -> size mod 64 = 0 -> size <= n - 64 ->
  exists w', take_block (base + extent p) (extent p) size (st w (base + lowest bs) (used_sum bs) m k) =
      Ret (base + extent p + 64, st w' (base + lowest bs') (used_sum bs') (hwm m (used_sum bs')) k) /\
    chain w' bs' /\ same_outside w w' (extent p) (extent p + n).
Proof.
  intros bs bs' Hw Hs Hsm Hfit. pose proof geo as (Gb & Gm & Ge).
  destruct (chain_at w p n false q Hw) as ((r & Hi1 & Hi2 & _) & Ho & Ho2 & Hn & Hmn & Hend).
  pose proof Hw as (Hok & _). apply Forall_app in Hok as [_ Hok]. apply Forall_cons_1 in Hok as [_ Hok].
  pose proof (extent_ok _ Hok) as [? _]. pose proof Ho as [Hor _].
  unfold take_block. rewrite (next_run _ _ _ G), Hi2 by done. change SIZEOF_STRUCT_MEM with 64. change MIN_SIZE_ALIGNED with 64.
  destruct (carve_run p n q size w (base + lowest bs) m k Hw Hs Hsm Hfit) as (w1 & c & rest & Hc & Hrun & Hw1 & Hsame & Hcn).
  cbv zeta. rewrite (bind_Ret _ _ _ _ _ Hrun). clear Hrun.
  rewrite (MEM_USED_run _ _ _ G), (set_pool_ptr_run _ _ _ G), !sget_run by done.
  destruct (retag _ _ _ _ true _ Hw1) as [Hw2 Hsame2]. subst bs bs'. rewrite Hc in *. cbn [app] in *.
  cbn [small_mem lfree heap_end SmemChain.st].
  rewrite (bind_Ret _ _ _ _ _ (lfree_run p n c rest q _ _ _ _ Hw2)).
  rewrite (u32_small (base + extent p + 64)), u32_small by (unfold is_u32; lia).
  rewrite !bind_assert; [|by apply Z.eqb_eq, land_63, base_aligned|apply Z.eqb_eq|apply Z.leb_le; lia].
  - eexists. split; [done|]. split; [done|]. eapply same_outside_trans; [exact Hsame|].
    intros a Ha Ha8. apply put_word_ne. lia.
  - change RT_ALIGN_SIZE with 64. rewrite Z.add_mod by lia. by rewrite base_aligned.
Qed.

(** The size of a block is a multiple of 64. *)
Lemma block_size_spec size :
  0 < size <= 2 ^ 32 - 64 -> 64 <= block_size size <= 2 ^ 32 - 64 /\ block_size size mod 64 = 0 /\ size <= block_size size.
Proof.
  intros H. unfold block_size. rewrite align_up_64 by (unfold is_u32; lia). change MIN_SIZE_ALIGNED with 64.
  rewrite u32_small by (unfold is_u32; lia).
  assert (Hd : size <= 64 * ((size + 63) / 64) <= 2 ^ 32 - 64) by (Z.div_mod_to_equations; lia).
  rewrite (Z.mul_comm 64 _) in *. destruct (Z.ltb_spec ((size + 63) / 64 * 64) 64); [split_and!; (done || lia)|].
  split_and!; [lia|lia|apply Z.mod_mul; lia|lia].
Qed.

Lemma block_size_id size : 64 <= size <= 2 ^ 32 - 64 -> size mod 64 = 0 -> block_size size = size.
Proof.
  intros H Hm. unfold block_size. rewrite align_up_64, u32_small by (unfold is_u32; lia). change MIN_SIZE_ALIGNED with 64.
  replace (64 * ((size + 63) / 64)) with size by (Z.div_mod_to_equations; lia). destruct (Z.ltb_spec size 64); lia.
Qed.

(** [rt_smem_alloc] takes the first block that fits, or returns NULL. *)
Lemma alloc_run bs size w m k :
  chain w bs -> 0 < size <= 2 ^ 32 - 64 ->
  let h := st w (base + lowest bs) (used_sum bs) m k in
  match first_fit (block_size size) bs with
  | None => rt_smem_alloc size h = Ret (0, h)
  | Some (p, n, q) =>
      let bs' := p ++ carve (block_size size) n ++ q in
      exists w', rt_smem_alloc size h =
          Ret (base + extent p + 64, st w' (base + lowest bs') (used_sum bs') (hwm m (used_sum bs')) k) /\
        chain w' bs' /\ same_outside w w' (extent p) (extent p + n)
  end.
Proof.
  intros Hw Hsz h. destruct (block_size_spec size Hsz) as (Hb & Hbm & _). subst h.
  unfold rt_smem_alloc. destruct (Z.eqb_spec size 0); [lia|].
  rewrite memory_object_run, sget_run. cbv zeta. cbn [small_mem mem_size_aligned SmemChain.st].
  destruct (Z.ltb_spec msz (block_size size)) as [Hbig|Hfits].
  - destruct (first_fit _ bs) as [[[p0 n0] q0]|] eqn:E; [|done].
    rewrite first_fit_small in E; [done| |rewrite (chain_extent _ _ Hw); lia]. by destruct Hw.
  - destruct (lowest_split bs) as (b1 & b2 & -> & Hu & Hl & _). rewrite sget_run.
    cbn [small_mem lfree SmemChain.st]. rewrite (offset_of_run _ _ _ G) by (by eapply lowest_at).
    rewrite first_fit_used by done.
    destruct (first_fit (block_size size) b2) as [[[p0 n0] q0]|] eqn:E; unfold items_bound at 1;
      rewrite bind_gets, (search_loop_run _ _ b1 b2) by (done || lia || by eapply items_fuel); rewrite E; [|done].
    apply first_fit_Some in E as [-> Hfit]. rewrite (app_assoc b1 p0 ((n0, false) :: q0)) in Hw |- *. apply take_block_run; [done|lia|done|done].
Qed.
End alloc.
