(* ===== verification/SmemFree.v ===== *)
(** * Release on the heap

    [rt_smem_free] gives a block back and [plug_holes] joins it with the free blocks beside
    it, so that no two free blocks lie side by side. *)

From Stdlib Require Import ZArith Lia Bool.
From stdpp Require Import base tactics numbers list option.
From S2P Require Import Prelude Smem SmemChain SmemAlloc.

Open Scope Z_scope.

(** ** On blocks *)

(** A free block in front of others joins a free one. *)
Definition cons_free (n : Z) (bs : list block) : list block :=
  match bs with (m, false) :: bs' => (n + m, false) :: bs' | _ => (n, false) :: bs end.

Definition cons_block (b : block) (bs : list block) : list block :=
  if snd b then b :: bs else cons_free (fst b) bs.

(** The blocks once the one in use at an offset is free. *)
Fixpoint free_at (off : Z) (bs : list block) : option (list block) :=
  match bs with
  | [] => None
  | (n, u) :: bs' =>
      if off =? 0 then (if u then Some (cons_free n bs') else None)
      else match free_at (off - n) bs' with Some r => Some (cons_block (n, u) r) | None => None end
  end.

(** The blocks once the free one between [p] and [q] has been joined. *)
Definition joined (p : list block) (n : Z) (q : list block) : list block := foldr cons_block (cons_free n q) p.

Lemma cons_free_extent n q : extent (cons_free n q) = n + extent q.
Proof. destruct q as [|[m []] q]; cbn; lia. Qed.

Lemma cons_block_extent n u q : extent (cons_block (n, u) q) = n + extent q.
Proof. destruct u; cbn; [done|apply cons_free_extent]. Qed.

Lemma cons_free_used n q : used_sum (cons_free n q) = used_sum q.
Proof. by destruct q as [|[m []] q]. Qed.

Lemma cons_free_lowest n q : lowest (cons_free n q) = 0.
Proof. by destruct q as [|[m []] q]. Qed.

Lemma cons_free_sep n q : sep q -> sep (cons_free n q).
Proof. destruct q as [|[m []] q]; cbn; [done|by intros [_ ?]|]. by intros [H ?]. Qed.

Lemma cons_block_sep b q : sep q -> sep (cons_block b q).
Proof. destruct b as [n []]; [by split|apply cons_free_sep]. Qed.

Lemma cons_free_used_at n q off m : used_at ((n, false) :: q) off m <-> used_at (cons_free n q) off m.
Proof.
  destruct q as [|[k [|]] q]; cbn [cons_free]; [done|done|]. rewrite !used_at_cons. split.
  - intros [(? & _)|(o & H & ->)]; [done|]. apply used_at_cons in H as [(? & _)|(o2 & H & ->)]; [done|].
    right. exists o2. split; [done|lia].
  - intros [(? & _)|(o & H & ->)]; [done|]. right. exists (k + o). split; [|lia]. apply used_at_cons. right. by exists o.
Qed.

Lemma joined_sep p n q : sep q -> sep (joined p n q).
Proof. intros H. induction p as [|b p IH]; cbn; [by apply cons_free_sep|by apply cons_block_sep]. Qed.

Lemma free_at_joined p n q :
  Forall block_ok p -> free_at (extent p) (p ++ (n, true) :: q) = Some (joined p n q).
Proof.
  induction 1 as [|[m u] p [Hm _] Hp IH]; cbn [app free_at extent]; [done|]. cbn in Hm.
  pose proof (extent_ok p Hp) as [? _]. destruct (Z.eqb_spec (m + extent p) 0); [lia|].
  replace (m + extent p - m) with (extent p) by lia. by rewrite IH.
Qed.

(** Free blocks lie apart, so only the neighbours are joined. *)
Lemma joined_used p n q : sep p -> last_used p -> joined p n q = p ++ cons_free n q.
Proof.
  induction p as [|[m u] p IH]; [done|]. intros Hsep Hl. cbn [joined foldr] in *. cbn in Hsep. destruct Hsep as [Hu Hsep].
  assert (Hp : joined p n q = p ++ cons_free n q).
  { apply IH; [done|]. intros b0 k v ->. by apply (Hl ((m, u) :: b0) k v). }
  unfold joined in Hp. rewrite Hp. destruct u; [done|]. destruct p as [|[k v] p]; [by specialize (Hl [] m false eq_refl)|].
  specialize (Hu eq_refl). cbn in Hu. by destruct v.
Qed.

Lemma joined_free p j n q : sep (p ++ [(j, false)]) -> joined (p ++ [(j, false)]) n q = p ++ cons_free j (cons_free n q).
Proof.
  intros H. apply sep_app in H as (Hp & _ & Hl). assert (Hl' : last_used p) by (destruct Hl; [done|done]).
  unfold joined. rewrite foldr_app. exact (joined_used p j (cons_free n q) Hp Hl').
Qed.

Lemma cons_block_used_at n u q off m : used_at ((n, u) :: q) off m <-> used_at (cons_block (n, u) q) off m.
Proof. destruct u; [done|apply cons_free_used_at]. Qed.

Lemma joined_used_at p n q off m : used_at (p ++ (n, false) :: q) off m <-> used_at (joined p n q) off m.
Proof.
  revert off. induction p as [|[k v] p IH]; intros off; cbn [app joined foldr]; [apply cons_free_used_at|].
  rewrite <-cons_block_used_at, !used_at_cons. by setoid_rewrite IH.
Qed.

(** What changes between two offsets with no block in use between them. *)
Lemma used_outside p c q off m :
  Forall block_ok (p ++ c ++ q) -> Forall (fun b => snd b = false) c -> used_at (p ++ c ++ q) off m ->
  off + m <= extent p \/ extent p + extent c <= off.
Proof.
  intros Hok Hc (b1 & b2 & E & ->). rewrite E in Hok. apply app_eq_inv in E as [(k & -> & E)|(k & -> & E)].
  - destruct k as [|[j v] k]; simplify_eq/=; [right|left].
    + rewrite app_nil_r. destruct c as [|[j v] c]; [cbn; lia|]. simplify_eq/=.
      by apply Forall_cons_1 in Hc as [[=] _].
    + apply Forall_app in Hok as [_ Hok]. apply Forall_cons_1 in Hok as [_ Hok]. apply Forall_app in Hok as [Hok _].
      pose proof (extent_ok _ Hok). rewrite extent_app. cbn. lia.
  - right. apply Forall_app in Hok as [Hok _]. apply Forall_app in Hok as [_ Hok].
    apply app_eq_inv in E as [(k2 & -> & E)|(k2 & -> & E)].
    + destruct k2 as [|[j v] k2]; [rewrite app_nil_r, extent_app; lia|]. simplify_eq/=.
      apply Forall_app in Hc as [_ Hc]. by apply Forall_cons_1 in Hc as [[=] _].
    + apply Forall_app in Hok as [_ Hok]. pose proof (extent_ok _ Hok). rewrite !extent_app. lia.
Qed.

(** What a release does to the blocks. *)
Lemma free_at_spec bs off n :
  Forall block_ok bs -> sep bs -> used_at bs off n ->
  exists bs', free_at off bs = Some bs' /\ sep bs' /\ (forall o j, used_at bs' o j <-> used_at bs o j /\ o <> off).
Proof.
  intros Hok Hsep (p & q & -> & ->). pose proof Hok as Hok2. apply Forall_app in Hok2 as [Hp Hq].
  exists (joined p n q). split; [by apply free_at_joined|]. apply sep_app in Hsep as (_ & [_ Hq2] & _).
  split; [by apply joined_sep|]. intros o j. rewrite <-joined_used_at. split.
  - intros H. split; [by apply (used_replace p n false [(n, true)]); [cbn; lia|done|right]|].
    intros ->. assert (Hok3 : Forall block_ok (p ++ (n, false) :: q)).
    { apply Forall_app. split; [done|]. apply Forall_cons_1 in Hq as [? ?]. by constructor. }
    apply Forall_cons_1 in Hq as [[Hn _] _]. cbn in Hn.
    pose proof (used_at_ok _ _ _ Hok3 H) as [? _]. destruct (used_apart _ _ _ _ _ _ Hok3 H) as [?|[?|(_ & _ & [=])]]; lia.
  - intros [H Hne]. by apply (used_replace p n true [(n, false)]); [cbn; lia|done|left].
Qed.

(** ** On the heap *)

Section release.
Variables self0 base msz : Z.
Hypothesis G : geometry self0 base msz.
#[local] Abbreviation hend := (msz + 64).
#[local] Abbreviation tag := (tag self0).
#[local] Abbreviation item := (item self0 base).
#[local] Abbreviation seg := (seg self0 base).
#[local] Abbreviation chain := (chain self0 base msz).
#[local] Abbreviation st := (st self0 base msz).
#[local] Abbreviation is_off := (is_off msz).
#[local] Abbreviation same_outside := (same_outside base).

(** What an item says of its predecessor. *)
Lemma chain_prev w p j v n u q :
  chain w (p ++ (j, v) :: (n, u) :: q) -> w (base + extent (p ++ [(j, v)]) + 8) = extent p.
Proof.
  intros (_ & _ & e & H). apply seg_app in H as (r & _ & (_ & (_ & _ & H8) & _)).
  rewrite extent_app. cbn [extent]. by rewrite Z.add_0_r, Z.add_0_l, <-Z.add_assoc in *.
Qed.

Lemma chain_first w n u q : chain w ((n, u) :: q) -> w (base + 8) = 0.
Proof. intros (_ & _ & e & (_ & _ & H8) & _). by rewrite Z.add_0_r in H8. Qed.

(** The item at [off2] is taken out of the chain. *)
Lemma merge_run p j n q w l u m k :
  let off := extent p in let off2 := extent p + j in
  chain w (p ++ (j, false) :: (n, false) :: q) ->
  exists w', (set_pool_ptr (base + off2) 0 ;;
     let! n := item_next (base + off2) in
     set_next (base + off) n ;;
     let! n := item_next (base + off2) in
     let! nmem := at_offset n in
     let! o := offset_of (base + off) in
     set_prev nmem o) (st w l u m k) = Ret (tt, st w' l u m k) /\
    chain w' (p ++ (j + n, false) :: q) /\ same_outside w w' off (off + (j + n)) /\ w' (base + off2) = 0.
Proof.
  intros off off2 Hw. destruct (chain_at _ _ _ _ _ _ _ _ Hw) as ((r & Hi1 & Hi2 & Hi3) & Ho & Ho2 & Hj & Hmj & _).
  pose proof Hw as Hw2. replace (p ++ (j, false) :: (n, false) :: q) with ((p ++ [(j, false)]) ++ (n, false) :: q) in Hw2
    by (by rewrite <-app_assoc).
  destruct (chain_at _ _ _ _ _ _ _ _ Hw2) as ((r2 & Hk1 & Hk2 & _) & _ & Ho3 & Hn & Hmn & Hend).
  rewrite extent_app in Hk1, Hk2, Ho3, Hend. cbn [extent] in Hk1, Hk2, Ho3, Hend. rewrite Z.add_0_r in *.
  fold off2 in Hk1, Hk2, Ho2, Ho3, Hend. fold off in Hi1, Hi2, Hi3, Ho. pose proof (geo _ _ _ G) as (Gb & Gm & Ge).
  rewrite (set_pool_ptr_run _ _ _ G), (next_run _ _ _ G) by done. words. rewrite Hk2.
  rewrite (set_next_run _ _ _ G), (next_run _ _ _ G) by done. words. rewrite Hk2.
  rewrite (at_offset_run _ _ _ G), (offset_of_run _ _ _ G) by done. unfold set_prev.
  rewrite <-(bind_ret_r (store _ _)), (store_run _ _ _) by (apply (is_word_item self0); auto).
  eexists. split; [done|]. assert (off2 + n = off + (j + n)) as E by (unfold off, off2; lia). rewrite E in *.
  assert (Hsame : same_outside w (put_word (base + (off + (j + n)) + 8) off
      (put_word (base + off + 4) (off + (j + n)) (put_word (base + off2) 0 w))) off (off + (j + n)))
    by (intros a Ha Ha8; unfold off2; words; done).
  split; [|split; [done|unfold off2; words; done]].
  apply (chain_replace self0 base msz w _ p j false [(n, false)] [(j + n, false)] q off); cbn [extent]; rewrite ?Z.add_0_r; try done.
  - repeat constructor; cbn; [lia|]. by rewrite Z.add_mod, Hmj, Hmn by lia.
  - split; [|done]. unfold SmemChain.item. fold off. unfold off2. words. done.
  - intros _. fold off. words. done.
Qed.

(** The data of the blocks in use is the same. *)
Definition used_same (w w' : Z -> Z) (bs : list block) : Prop :=
  forall off n a, used_at bs off n -> base + off + 64 <= a < base + off + n -> w' a = w a.

Lemma same_used w w' p c q :
  Forall block_ok (p ++ c ++ q) -> Forall (fun b => snd b = false) c ->
  same_outside w w' (extent p) (extent p + extent c) -> used_same w w' (p ++ c ++ q).
Proof.
  intros Hok Hc H off j a Ha Hr. pose proof Hok as Hok2. apply Forall_app in Hok2 as [_ Hok2].
  apply Forall_app in Hok2 as [Hok2 _]. pose proof (extent_ok _ Hok2) as [? _].
  destruct (used_outside _ _ _ _ _ Hok Hc Ha) as [?|?]; apply H; lia.
Qed.

Lemma plug_forward_run p n q w u m k :
  let bs := p ++ (n, false) :: q in let bs' := p ++ cons_free n q in
  chain w bs ->
  exists w', plug_forward (base + extent p) (st w (base + lowest bs) u m k) =
      Ret (tt, st w' (base + lowest bs') u m k) /\ chain w' bs' /\ used_same w w' bs.
Proof.
  intros bs bs' Hw. destruct (chain_at _ _ _ _ _ _ _ _ Hw) as ((r & Hi1 & Hi2 & Hi3) & Ho & Ho2 & Hn & Hmn & Hend).
  pose proof Hw as (Hok & _). unfold plug_forward. rewrite sget_run, (next_run _ _ _ G), Hi2, (at_offset_run _ _ _ G) by done.
  cbn [small_mem heap_end SmemChain.st]. destruct (Z.eqb_spec (base + extent p) (base + (extent p + n))); [lia|].
  assert (Hsame : used_same w w bs) by done. assert (Hll : lowest bs' = lowest bs).
  { subst bs bs'. rewrite !lowest_app. cbn. by rewrite cons_free_lowest. }
  assert (Hlow : lowest bs <= extent p).
  { subst bs. rewrite lowest_app. apply Forall_app in Hok as [Hp _]. pose proof (lowest_le _ Hp).
    destruct (all_used p); cbn; lia. }
  destruct q as [|[j v] q].
  - destruct (chain_end _ _ _ G _ _ Hw) as (He & Hu & _). cbn in Hend. replace (extent p + n) with hend by lia.
    rewrite (isused_run _ _ _ G _ true) by done. cbn [negb andb]. exists w. by rewrite Hll.
  - pose proof Hw as Hw2. subst bs. replace (p ++ (n, false) :: (j, v) :: q) with ((p ++ [(n, false)]) ++ (j, v) :: q) in Hw2
      by (by rewrite <-app_assoc).
    destruct (chain_at _ _ _ _ _ _ _ _ Hw2) as ((r2 & Hk1 & _) & _ & Ho3 & Hj & _ & Hend2).
    rewrite extent_app in Hk1, Ho3, Hend2. cbn [extent] in Hk1, Ho3, Hend2. rewrite Z.add_0_r in *.
    rewrite (isused_run _ _ _ G _ v) by done. destruct v; cbn [negb andb]; [exists w; by rewrite Hll|].
    pose proof Hok as Hok2. apply Forall_app in Hok2 as [_ Hok2]. apply Forall_cons_1 in Hok2 as [_ Hok2].
    apply Forall_cons_1 in Hok2 as [_ Hok2]. pose proof (extent_ok _ Hok2) as [? _].
    destruct (Z.eqb_spec (base + (extent p + n)) (base + hend)); [lia|]. cbn [negb].
    rewrite sget_run. cbn [small_mem lfree SmemChain.st].
    destruct (Z.eqb_spec (base + lowest (p ++ (n, false) :: (j, false) :: q)) (base + (extent p + n))); [lia|].
    rewrite bind_ret_l. destruct (merge_run p n j q w (base + lowest (p ++ (n, false) :: (j, false) :: q)) u m k Hw)
      as (w' & -> & Hw' & Hs & _). rewrite <-Hll. exists w'. split_and!; [done|done|].
    apply (same_used w w' p [(n, false); (j, false)] q); [done|by repeat constructor|]. cbn [extent].
    by rewrite Z.add_0_r.
Qed.

(** The block a word is the item of is free, or the item is no longer in the chain. *)
Definition gone (w : Z -> Z) (off : Z) : Prop := w (base + off) = tag false \/ w (base + off) = 0.

Lemma plug_backward_run p n q w u m k :
  let bs := p ++ (n, false) :: q in
  chain w bs ->
  exists w' bs', plug_backward (base + extent p) (st w (base + lowest bs) u m k) = Ret (tt, st w' (base + lowest bs') u m k) /\
    chain w' bs' /\ used_same w w' bs /\ gone w' (extent p) /\
    (last_used p /\ bs' = bs \/ exists p0 j, p = p0 ++ [(j, false)] /\ bs' = p0 ++ (j + n, false) :: q).
Proof.
  intros bs Hw. destruct (chain_at _ _ _ _ _ _ _ _ Hw) as ((r & Hi1 & Hi2 & Hi3) & Ho & Ho2 & Hn & Hmn & Hend).
  unfold plug_backward. rewrite (prev_run _ _ _ G) by done.
  destruct p as [|[j v] p _] using rev_ind.
  - rewrite Z.add_0_r, (chain_first _ _ _ _ Hw), (at_offset_run _ _ _ G) by (pose proof (geo _ _ _ G); split; [lia|done]).
    rewrite Z.add_0_r, Z.eqb_refl. exists w, bs. split_and!; try done; [by left|left; split; [apply last_used_nil|done]].
  - subst bs. rewrite <-app_assoc in Hw |- *. cbn [app] in *. rewrite (chain_prev _ _ _ _ _ _ _ Hw).
    destruct (chain_at _ _ _ _ _ _ _ _ Hw) as ((r2 & Hk1 & Hk2 & _) & Ho3 & _ & Hj & _ & _).
    rewrite extent_app in *. cbn [extent] in *. rewrite Z.add_0_r in *.
    rewrite (at_offset_run _ _ _ G) by done.
    destruct (Z.eqb_spec (base + extent p) (base + (extent p + j))); [lia|].
    rewrite (isused_run _ _ _ G _ v) by done. destruct v; cbn [negb andb].
    + exists w, (p ++ (j, true) :: (n, false) :: q). split_and!; try done; [by left|]. left. split; [apply last_used_snoc|done].
    + rewrite sget_run. cbn [small_mem lfree SmemChain.st]. pose proof Hw as (Hok & _). pose proof Hok as Hok2.
      apply Forall_app in Hok2 as [Hp _]. pose proof (lowest_le _ Hp).
      destruct (Z.eqb_spec (base + lowest (p ++ (j, false) :: (n, false) :: q)) (base + (extent p + j))) as [E|_].
      { rewrite lowest_app in E. destruct (all_used p); cbn in E; lia. }
      rewrite bind_ret_l. destruct (merge_run p j n q w (base + lowest (p ++ (j, false) :: (n, false) :: q)) u m k Hw)
        as (w' & -> & Hw' & Hs & Hz). exists w', (p ++ (j + n, false) :: q).
      split; [by rewrite !lowest_app|]. split_and!; [done| |by right|right; by exists p, j].
      apply (same_used w w' p [(j, false); (n, false)] q); [done|by repeat constructor|]. cbn [extent]. by rewrite Z.add_0_r.
Qed.

Lemma used_same_trans w1 w2 w3 bs bs' :
  used_same w1 w2 bs -> used_same w2 w3 bs' -> (forall off n, used_at bs off n -> used_at bs' off n) -> used_same w1 w3 bs.
Proof. intros H1 H2 H off n a Ha Hr. rewrite (H2 off n), (H1 off n); [done|done|done|by apply H|done]. Qed.

Lemma plug_run p n q w u m k :
  let bs := p ++ (n, false) :: q in let bs' := joined p n q in
  chain w bs -> sep p ->
  exists w', plug_holes (base + extent p) (st w (base + lowest bs) u m k) = Ret (tt, st w' (base + lowest bs') u m k) /\
    chain w' bs' /\ used_same w w' bs /\ gone w' (extent p).
Proof.
  intros bs bs' Hw Hsep. destruct (chain_at _ _ _ _ _ _ _ _ Hw) as (_ & Ho & Ho2 & Hn & _ & _).
  destruct Ho as [Ho _]. destruct Ho2 as [Ho2 _].
  unfold plug_holes. rewrite !sget_run. cbn [small_mem heap_ptr heap_end SmemChain.st].
  rewrite !bind_assert by (apply Z.leb_le || apply Z.ltb_lt; lia).
  destruct (plug_forward_run p n q w u m k Hw) as (w1 & Hrun & Hw1 & Hs1). rewrite (bind_Ret _ _ _ _ _ Hrun). clear Hrun.
  assert (Hcf : exists n' q', cons_free n q = (n', false) :: q') by (destruct q as [|[j []] q]; cbn; eauto).
  destruct Hcf as (n' & q' & E). rewrite E in *.
  destruct (plug_backward_run p n' q' w1 u m k Hw1) as (w2 & bs2 & -> & Hw2 & Hs2 & Hg & Hb).
  assert (bs2 = bs') as ->.
  { subst bs'. destruct Hb as [[Hl ->]|(p0 & j & -> & ->)]; [by rewrite joined_used, E|].
    by rewrite joined_free, E. }
  exists w2. split_and!; [done|done| |done]. eapply used_same_trans; [exact Hs1|exact Hs2|].
  intros off x Hu. rewrite <-E. apply used_at_app in Hu as [Hu|(o & Hu & ->)]; apply used_at_app; [by left|].
  right. exists o. by rewrite <-cons_free_used_at.
Qed.

Lemma joined_used_sum p n q : used_sum (joined p n q) = used_sum p + used_sum q.
Proof.
  induction p as [|[m u] p IH]; cbn [joined foldr used_sum]; [by rewrite cons_free_used|].
  fold (joined p n q). destruct u; cbn [cons_block snd fst used_sum]; [lia|]. rewrite cons_free_used. lia.
Qed.

Lemma lowest_freed p n q :
  Forall block_ok p -> 0 < n -> 0 <= lowest q ->
  lowest (p ++ (n, false) :: q) = Z.min (extent p) (lowest (p ++ (n, true) :: q)).
Proof.
  intros Hp Hn Hq. rewrite !lowest_app. pose proof (lowest_lt p Hp). destruct (all_used p); cbn; [lia|].
  specialize (H eq_refl). lia.
Qed.

(** The lowest free item once a block has become free. *)
Lemma lower_lfree_run p n q w u m k :
  let l := base + lowest (p ++ (n, true) :: q) in
  Forall block_ok (p ++ (n, true) :: q) ->
  (if base + extent p <? l then set_lfree (base + extent p) else ret tt) (st w l u m k) =
  Ret (tt, st w (base + lowest (p ++ (n, false) :: q)) u m k).
Proof.
  intros l Hok. apply Forall_app in Hok as [Hp Hq]. apply Forall_cons_1 in Hq as [[Hn _] Hq]. cbn in Hn.
  pose proof (lowest_le _ Hq). rewrite (lowest_freed p n q) by (done || lia). fold l.
  destruct (Z.ltb_spec (base + extent p) l); unfold l in *; [rewrite Z.min_l by lia|rewrite Z.min_r by lia]; done.
Qed.

(** The item behind a block belongs to the heap. *)
Lemma chain_behind p n u q w : chain w (p ++ (n, u) :: q) -> exists b, w (base + (extent p + n)) = tag b.
Proof.
  intros Hw. destruct q as [|[j v] q].
  - destruct (chain_end _ _ _ G _ _ Hw) as (_ & Hu & _). apply chain_extent in Hw. rewrite extent_app in Hw. cbn in Hw.
    exists true. by replace (extent p + n) with hend by lia.
  - replace (p ++ (n, u) :: (j, v) :: q) with ((p ++ [(n, u)]) ++ (j, v) :: q) in Hw by (by rewrite <-app_assoc).
    destruct (chain_at _ _ _ _ _ _ _ _ Hw) as ((r & Hi & _) & _). exists v. rewrite extent_app in Hi. cbn in Hi.
    by rewrite Z.add_0_r in Hi.
Qed.

(** [rt_smem_free] of a block in use. *)
Lemma free_run p n q w m k :
  let bs := p ++ (n, true) :: q in let bs' := joined p n q in
  chain w bs -> sep bs ->
  exists w', rt_smem_free (base + extent p + 64) (st w (base + lowest bs) (used_sum bs) m k) =
      Ret (tt, st w' (base + lowest bs') (used_sum bs') m k) /\
    chain w' bs' /\ used_same w w' (p ++ (n, false) :: q) /\ gone w' (extent p).
Proof.
  intros bs bs' Hw Hsep. pose proof (geo _ _ _ G) as (Gb & Gm & Ge).
  destruct (chain_at _ _ _ _ _ _ _ _ Hw) as ((r & Hi1 & Hi2 & _) & Ho & Ho2 & Hn & Hmn & Hend).
  pose proof Ho as [Hor _]. pose proof Ho2 as [Ho2r _]. pose proof Hw as (Hok & _).
  pose proof Hok as Hok2. apply Forall_app in Hok2 as [Hp Hq]. apply Forall_cons_1 in Hq as [_ Hq].
  pose proof (used_sum_le _ Hp). pose proof (used_sum_le _ Hq). pose proof (lowest_le _ Hq). pose proof (extent_ok _ Hp).
  pose proof (base_aligned _ _ _ G _ Ho) as Hal.
  unfold rt_smem_free. destruct (Z.eqb_spec (base + extent p + 64) 0); [lia|]. change SIZEOF_STRUCT_MEM with 64.
  rewrite bind_assert by (apply Z.eqb_eq, land_63; by rewrite Z.add_mod, Hal by lia).
  replace (base + extent p + 64 - 64) with (base + extent p) by lia. rewrite (u32_small (base + extent p)) by (unfold is_u32; lia).
  rewrite (pool_run _ _ _ G _ true) by done. destruct (self_even _ _ _ G) as [_ Hself].
  rewrite bind_assert by (by destruct (Z.eqb_spec self0 0); [lia|]).
  rewrite (isused_run _ _ _ G _ true), bind_assert, bind_gets by done. cbn [self SmemChain.st]. rewrite Z.eqb_refl. cbn [negb].
  rewrite memory_object_run, !sget_run. cbn [small_mem heap_ptr heap_end SmemChain.st].
  rewrite bind_assert by (apply andb_true_iff; split; [apply Z.leb_le; lia|apply Z.ltb_lt; lia]).
  rewrite (next_run _ _ _ G), Hi2, (at_offset_run _ _ _ G) by done.
  destruct (chain_behind p n true q w Hw) as (b & Hb).
  rewrite (pool_run _ _ _ G _ b) by done. rewrite Z.eqb_refl, bind_assert by done.
  rewrite (MEM_FREED_run _ _ _ G), (set_pool_ptr_run _ _ _ G), sget_run by done.
  destruct (retag _ _ _ _ _ _ _ false _ Hw) as [Hw1 Hs1]. set (w1 := put_word (base + extent p) (tag false) w) in *.
  cbn [small_mem lfree SmemChain.st]. rewrite (bind_Ret _ _ _ _ _ (lower_lfree_run p n q w1 _ _ _ Hok)).
  rewrite (next_run _ _ _ G), (offset_of_run _ _ _ G), set_used_run by done.
  assert (Hn1 : w1 (base + extent p + 4) = extent p + n) by (unfold w1; words; done). rewrite Hn1.
  destruct (plug_run p n q w1 (used_sum bs') m k Hw1) as (w2 & Hrun & Hw2 & Hs2 & Hg); [by apply (sep_app p ((n, true) :: q)) in Hsep as [? _]|].
  exists w2. split_and!; [|done| |done].
  - replace (extent p + n - extent p) with n by lia.
    replace (u32 (used_sum bs - u32 n)) with (used_sum bs'); [done|].
    unfold bs, bs'. rewrite joined_used_sum, used_sum_app. cbn [used_sum].
    rewrite (u32_small n), u32_small by (unfold is_u32; lia). lia.
  - eapply used_same_trans; [|exact Hs2|done]. destruct Hw1 as (Hok1 & _).
    apply (same_used w w1 p [(n, false)] q); [done|by repeat constructor|]. cbn [extent]. by rewrite Z.add_0_r.
Qed.
End release.
