(* ===== verification/SmemRep.v ===== *)
(** * The heap and its blocks

    The relation between a heap and a list of blocks that the operations keep: the words
    form the chain of the blocks, no two free blocks lie side by side, and the counters of
    the object agree.  The runs of [rt_smem_alloc], [rt_smem_free] and [rt_memcpy] under it. *)

From Stdlib Require Import ZArith Lia Bool.
From stdpp Require Import base tactics numbers list option.
From S2P Require Import Prelude Smem SmemChain SmemAlloc SmemFree.

Open Scope Z_scope.

Section rep.
Variables self0 base msz : Z.
Hypothesis G : geometry self0 base msz.
#[local] Abbreviation hend := (msz + 64).
#[local] Abbreviation tag := (tag self0).
#[local] Abbreviation chain := (chain self0 base msz).
#[local] Abbreviation st := (st self0 base msz).
#[local] Abbreviation is_off := (is_off msz).
#[local] Abbreviation is_word := (is_word base msz).
#[local] Abbreviation same_outside := (same_outside base).
#[local] Abbreviation used_same := (used_same base).

Definition rep (h : heap) (bs : list block) : Prop :=
  exists w m, h = st w (base + lowest bs) (used_sum bs) m (heap_lock h) /\ chain w bs /\ sep bs.

(** The data of the blocks in use but the one at [off0] is the same. *)
Definition others_same (w w' : Z -> Z) (bs : list block) (off0 : Z) : Prop :=
  forall off n a, used_at bs off n -> off <> off0 -> base + off + 64 <= a < base + off + n -> w' a = w a.

Lemma rep_chain h bs : rep h bs -> chain (words h) bs /\ sep bs.
Proof. by intros (w & m & -> & Hw & Hs). Qed.

Lemma rep_ok h bs : rep h bs -> Forall block_ok bs.
Proof. intros H. apply rep_chain in H as [(Hok & _) _]. done. Qed.

(** What the object of the heap says. *)
Lemma rep_object h bs :
  rep h bs -> self h = self0 /\ heap_ptr (small_mem h) = base /\ heap_end (small_mem h) = base + hend /\
  mem_size_aligned (small_mem h) = msz /\ (forall B (f : unit -> HM B), bind memory_object f h = f tt h).
Proof. by intros (w & m & -> & _). Qed.

(** The first block that fits, or NULL. *)
Lemma alloc_rep h bs size :
  rep h bs -> 0 < size <= 2 ^ 32 - 64 ->
  match alloc_blocks (block_size size) bs with
  | None => rt_smem_alloc size h = Ret (0, h)
  | Some (off, bs') => exists h', rt_smem_alloc size h = Ret (base + off + 64, h') /\ rep h' bs' /\
      used_same (words h) (words h') bs /\ heap_lock h' = heap_lock h
  end.
Proof.
  intros (w & m & E & Hw & Hsep) Hs. pose proof (alloc_run _ _ _ G bs size w m (heap_lock h) Hw Hs) as H.
  cbv zeta in H. rewrite <-E in H. unfold alloc_blocks.
  destruct (first_fit (block_size size) bs) as [[[p n] q]|] eqn:Ef; [|done].
  destruct H as (w' & Hrun & Hw' & Hsame). apply first_fit_Some in Ef as [-> _]. eexists. split; [exact Hrun|].
  split; [exists w'; eexists; split; [done|]; split; [done|by apply carve_sep]|]. split; [|done].
  assert (words h = w) as -> by (by rewrite E). destruct Hw as (Hok & _).
  apply (same_used base w w' p [(n, false)] q Hok); [by repeat constructor|]. cbn. by rewrite Z.add_0_r.
Qed.

(** The block in use at [off] becomes free. *)
Lemma free_rep h bs off n :
  rep h bs -> used_at bs off n ->
  exists h' bs', free_at off bs = Some bs' /\ rt_smem_free (base + off + 64) h = Ret (tt, h') /\ rep h' bs' /\
    others_same (words h) (words h') bs off /\ gone self0 base (words h') off /\ heap_lock h' = heap_lock h.
Proof.
  intros Hrep Hu. pose proof (rep_ok _ _ Hrep) as Hok. destruct Hrep as (w & m & E & Hw & Hsep).
  destruct (free_at_spec _ _ _ Hok Hsep Hu) as (bs' & Hf & Hsep' & _). destruct Hu as (p & q & -> & ->).
  destruct (free_run _ _ _ G p n q w m (heap_lock h) Hw Hsep) as (w' & Hrun & Hw' & Hs & Hg). rewrite <-E in Hrun.
  eexists _, bs'. split; [done|]. split; [exact Hrun|].
  rewrite free_at_joined in Hf by (by apply Forall_app in Hok as [? _]). injection Hf as <-.
  split; [by eexists w', _|]. split; [|done]. assert (words h = w) as -> by (by rewrite E).
  intros o j a Ha Hne Hr. apply (Hs o j); [|done]. by apply (used_replace p n true [(n, false)]); [cbn; lia|done|left].
Qed.

(** The data of a block is no part of the chain. *)
Lemma chain_data w w' p n q :
  chain w (p ++ (n, true) :: q) ->
  (forall a, ~ (base + extent p + 64 <= a < base + extent p + n) -> w' a = w a) -> chain w' (p ++ (n, true) :: q).
Proof.
  intros Hw H. destruct (chain_at _ _ _ _ _ _ _ _ Hw) as ((r & Hi1 & Hi2 & Hi3) & Ho & Ho2 & Hn & Hmn & Hend).
  apply (chain_replace self0 base msz w w' p n true [] [(n, true)] q (extent p)); cbn [extent]; rewrite ?Z.add_0_r; try done.
  - by repeat constructor.
  - intros a Ha Ha8. apply H. lia.
  - split; [|done]. unfold item. by rewrite !H by lia.
  - intros Hq. rewrite H by lia. destruct q as [|[j v] q]; [done|]. rewrite <-(chain_prev _ _ _ w p n true j v q Hw) at 2.
    rewrite extent_app. cbn [extent]. by rewrite Z.add_0_r.
Qed.

(** The words of a block's data can be read and written. *)
Lemma data_word w p n q i :
  chain w (p ++ (n, true) :: q) -> 0 <= i -> 64 + 4 * i + 4 <= n -> is_word (base + extent p + 64 + 4 * i).
Proof.
  intros Hw Hi Hn. destruct (chain_at _ _ _ _ _ _ _ _ Hw) as (_ & Ho & [Ho2 _] & _).
  pose proof (mod_64_4 _ (base_aligned _ _ _ G _ Ho)) as H4. destruct Ho as [Ho _]. split_and!; [lia|lia|].
  replace (base + extent p + 64 + 4 * i) with (base + extent p + (16 + i) * 4) by lia. by rewrite Z.mod_add.
Qed.

Lemma copy_run c dst src w l u m k :
  (forall i, 0 <= i < Z.of_nat c -> is_word (dst + 4 * i) /\ is_word (src + 4 * i)) ->
  dst + 4 * Z.of_nat c <= src \/ src + 4 * Z.of_nat c <= dst ->
  exists w', rt_memcpy c dst src (st w l u m k) = Ret (tt, st w' l u m k) /\
    (forall i, 0 <= i < Z.of_nat c -> w' (dst + 4 * i) = w (src + 4 * i)) /\
    (forall a, ~ (dst <= a < dst + 4 * Z.of_nat c) -> w' a = w a).
Proof.
  revert dst src w. induction c as [|c IH]; intros dst src w Hwd Hap; cbn [rt_memcpy].
  - exists w. split; [done|]. split; [intros i Hi; lia|done].
  - destruct (Hwd 0) as [Hd Hs]; [lia|]. rewrite !Z.add_0_r in Hd, Hs.
    rewrite (load_run _ _ _), (store_run _ _ _) by done.
    destruct (IH (dst + 4) (src + 4) (put_word dst (w src) w)) as (w' & Hrun & Hc & Ho); [|lia|].
    { intros i Hi. replace (dst + 4 + 4 * i) with (dst + 4 * (i + 1)) by lia.
      replace (src + 4 + 4 * i) with (src + 4 * (i + 1)) by lia. apply Hwd. lia. }
    exists w'. split; [done|]. split.
    + intros i Hi. destruct (Z.eq_dec i 0) as [->|Hne].
      * rewrite Ho by lia. rewrite !Z.add_0_r. apply put_word_eq.
      * replace (dst + 4 * i) with (dst + 4 + 4 * (i - 1)) by lia. rewrite Hc by lia. words. f_equal. lia.
    + intros a Ha. rewrite Ho by lia. words. done.
Qed.


(** *** Data *)

(** New words in the data of a block in use. *)
Lemma data_rep w w' m k bs off n :
  let h w := st w (base + lowest bs) (used_sum bs) m k in
  rep (h w) bs -> used_at bs off n ->
  (forall a, ~ (base + off + 64 <= a < base + off + n) -> w' a = w a) -> rep (h w') bs.
Proof.
  intros h Hrep (p & q & E & ->) Hout. pose proof (rep_chain _ _ Hrep) as [Hw Hsep]. cbn [words SmemChain.st h] in Hw.
  exists w', m. split; [done|]. split; [|done]. subst bs. by apply (chain_data w).
Qed.

Lemma used_disjoint bs off n off' n' :
  Forall block_ok bs -> used_at bs off n -> used_at bs off' n' -> off <> off' -> off' + n' <= off \/ off + n <= off'.
Proof.
  intros Hok (p & q & -> & ->) H' Hne. destruct (used_apart _ _ _ _ _ _ Hok H') as [?|[?|(? & _)]]; [lia..|done].
Qed.

Lemma used_word h bs off n i :
  rep h bs -> used_at bs off n -> 0 <= i -> 64 + 4 * i + 4 <= n -> is_word (base + off + 64 + 4 * i).
Proof. intros Hrep (p & q & -> & ->). apply rep_chain in Hrep as [Hw _]. by eapply data_word. Qed.

(** A client's read and write. *)
Lemma read_rep h bs off n i :
  rep h bs -> used_at bs off n -> 0 <= i -> 64 + 4 * i + 4 <= n ->
  load (base + off + 64 + 4 * i) h = Ret (words h (base + off + 64 + 4 * i), h).
Proof.
  intros Hrep Hu Hi Hn. pose proof (used_word _ _ _ _ _ Hrep Hu Hi Hn) as Hwd. destruct Hrep as (w & m & E & _).
  rewrite E at 1 3. rewrite <-(bind_ret_r (load _)), (load_run _ _ _) by done. by rewrite E.
Qed.

Lemma write_rep h bs off n i v :
  rep h bs -> used_at bs off n -> 0 <= i -> 64 + 4 * i + 4 <= n ->
  exists h', store (base + off + 64 + 4 * i) v h = Ret (tt, h') /\ rep h' bs /\
    words h' = put_word (base + off + 64 + 4 * i) v (words h) /\ heap_lock h' = heap_lock h.
Proof.
  intros Hrep Hu Hi Hn. pose proof (used_word _ _ _ _ _ Hrep Hu Hi Hn) as Hwd. pose proof Hrep as (w & m & E & _).
  rewrite E in Hrep |- *. rewrite <-(bind_ret_r (store _ _)), (store_run _ _ _) by done.
  eexists. split; [done|]. split; [|done]. eapply data_rep; [exact Hrep|exact Hu|]. intros a Ha. words. done.
Qed.

Lemma copy_rep h bs off n off' n' c :
  rep h bs -> used_at bs off n -> used_at bs off' n' -> off <> off' ->
  64 + 4 * Z.of_nat c <= n -> 64 + 4 * Z.of_nat c <= n' ->
  exists h', rt_memcpy c (base + off' + 64) (base + off + 64) h = Ret (tt, h') /\ rep h' bs /\
    (forall i, 0 <= i < Z.of_nat c -> words h' (base + off' + 64 + 4 * i) = words h (base + off + 64 + 4 * i)) /\
    others_same (words h) (words h') bs off' /\ heap_lock h' = heap_lock h.
Proof.
  intros Hrep Hu Hu' Hne Hn Hn'. pose proof (rep_ok _ _ Hrep) as Hok. pose proof Hrep as (w & m & E & _).
  pose proof (used_disjoint _ _ _ _ _ Hok Hu Hu' Hne) as Hd.
  pose proof (used_at_ok _ _ _ Hok Hu). pose proof (used_at_ok _ _ _ Hok Hu').
  destruct (copy_run c (base + off' + 64) (base + off + 64) w (base + lowest bs) (used_sum bs) m (heap_lock h))
    as (w' & Hrun & Hc & Ho); [|lia|].
  { intros i Hi. split; eapply used_word; try exact Hrep; eauto; lia. }
  rewrite <-E in Hrun. eexists. split; [exact Hrun|]. assert (Ew : words h = w) by (by rewrite E). rewrite Ew. split_and!.
  - rewrite E in Hrep. eapply data_rep; [exact Hrep|exact Hu'|]. intros a Ha. apply Ho. lia.
  - exact Hc.
  - intros o j a Hj Hno Ha. apply Ho. pose proof (used_disjoint _ _ _ _ _ Hok Hj Hu' Hno). lia.
  - done.
Qed.
End rep.

(** ** The start of the heap

    [rt_smem_init] and [rt_system_heap_init] leave one free block between the ends. *)

(** Where the object, the items and the end lie. *)
Definition heap_self (begin_addr : Z) : Z := RT_ALIGN begin_addr RT_ALIGN_SIZE.
Definition heap_base (begin_addr : Z) : Z := RT_ALIGN (u32 (heap_self begin_addr + sizeof_small_mem)) RT_ALIGN_SIZE.
Definition heap_room (begin_addr size : Z) : Z :=
  RT_ALIGN_DOWN (u32 (begin_addr + size)) RT_ALIGN_SIZE - heap_base begin_addr - 128.

Lemma align_up_bounds x :
  0 <= x <= 2 ^ 32 - 64 -> x <= RT_ALIGN x RT_ALIGN_SIZE < x + 64 /\ RT_ALIGN x RT_ALIGN_SIZE mod 64 = 0.
Proof.
  intros H. rewrite align_up_64, u32_small by (unfold is_u32; lia). rewrite Z.mul_comm, Z.mod_mul by lia.
  Z.div_mod_to_equations. lia.
Qed.

Lemma align_down_bounds x : x - 64 < RT_ALIGN_DOWN x RT_ALIGN_SIZE <= x /\ RT_ALIGN_DOWN x RT_ALIGN_SIZE mod 64 = 0.
Proof. rewrite align_down_64, Z.mul_comm, Z.mod_mul by lia. Z.div_mod_to_equations. lia. Qed.

Section init.
Variables begin_addr size : Z.
Hypothesis Hbegin : 0 < begin_addr.
Hypothesis Hsize : 512 <= size.
Hypothesis Hend : begin_addr + size < 2 ^ 32.
#[local] Abbreviation self0 := (heap_self begin_addr).
#[local] Abbreviation base := (heap_base begin_addr).
#[local] Abbreviation msz := (heap_room begin_addr size).

Lemma init_places :
  (begin_addr <= self0 < begin_addr + 64 /\ self0 + 60 <= base < self0 + 124 /\
   begin_addr + size - 64 < base + msz + 128 <= begin_addr + size) /\
  self0 mod 64 = 0 /\ base mod 64 = 0 /\ msz mod 64 = 0.
Proof.
  pose proof (align_down_bounds (u32 (begin_addr + size))) as [He Hem]. unfold heap_room.
  rewrite u32_small in * by (unfold is_u32; lia).
  destruct (align_up_bounds begin_addr ltac:(lia)) as [Hs Hsm]. fold self0 in Hs, Hsm.
  assert (Hb : base = RT_ALIGN (self0 + 60) RT_ALIGN_SIZE).
  { unfold heap_base. change sizeof_small_mem with 60. by rewrite u32_small by (unfold is_u32; lia). }
  destruct (align_up_bounds (self0 + 60) ltac:(lia)) as [Hbb Hbm]. rewrite <-Hb in Hbb, Hbm.
  split; [lia|]. split; [done|]. split; [done|].
  by rewrite Zminus_mod, (Zminus_mod (RT_ALIGN_DOWN _ _)), Hem, Hbm.
Qed.

Lemma init_geometry : geometry self0 base msz.
Proof. pose proof init_places as [? (? & ? & ?)]. unfold geometry. split_and!; (done || lia). Qed.

(** One free block is all there is. *)
Lemma init_run w :
  exists h, rt_smem_init begin_addr size w = Some h /\ rep self0 base msz h [(msz + 64, false)] /\ heap_lock h = 0.
Proof.
  pose proof init_places as [? (? & ? & Hm)]. pose proof init_geometry as G. unfold rt_smem_init.
  fold (heap_self begin_addr) (heap_base begin_addr). change sizeof_small_mem with 60. change SIZEOF_STRUCT_MEM with 64.
  set (e := RT_ALIGN_DOWN _ _). assert (He : e = base + msz + 128) by (unfold heap_room, e; lia). rewrite He.
  rewrite (u32_small (self0 + 60)) by (unfold is_u32; lia).
  destruct (Z.ltb_spec (2 * 64) (base + msz + 128)), (Z.leb_spec (self0 + 60) (base + msz + 128 - 2 * 64)); try lia. cbn [andb].
  replace (base + msz + 128 - base - 2 * 64) with msz by lia.
  rewrite (u32_small msz), (u32_small (msz + 64)), u32_small by (unfold is_u32; lia).
  change (Z.lor (Z.land self0 MEM_MASK) 0) with (Z.lor (Z.land self0 MEM_MASK) (Z.b2z false)).
  change (Z.lor (Z.land self0 MEM_MASK) 1) with (Z.lor (Z.land self0 MEM_MASK) (Z.b2z true)). rewrite !(mem_tag _ _ _ G).
  eexists. split; [done|]. split; [|done]. eexists _, 0. cbn [lowest used_sum heap_lock]. rewrite Z.add_0_r.
  split; [reflexivity|]. split; [|done].
  split; [|split].
  - repeat constructor; cbn; [lia|]. by rewrite Z.add_mod, Hm by lia.
  - split; words; done.
  - exists 0. cbn [seg]. rewrite !Z.add_0_l. split_and!; try done. unfold item. rewrite !Z.add_0_r. split_and!; words; done.
Qed.
End init.
