(* ===== verification/SmemRealloc.v ===== *)
(** * Resizing on the heap

    [rt_smem_realloc] keeps a block, cuts its end off, or moves its data to a new one. *)

From Stdlib Require Import ZArith Lia Bool.
From stdpp Require Import base tactics numbers list option.
From S2P Require Import Prelude Smem SmemChain SmemAlloc SmemFree SmemRep.

Open Scope Z_scope.

(** ** On blocks

    The offset of the block that holds the data afterwards, [None] for NULL, and the blocks.
    [size] is the size asked for, rounded up. *)
Definition resize (msz size off n : Z) (p q : list block) : option Z * list block :=
  let bs := p ++ (n, true) :: q in
  if msz <? size then (None, bs)
  else if size =? 0 then (None, joined p n q)
  else if n - 64 =? size then (Some off, bs)
  else if size + 76 <? n - 64 then (Some off, p ++ (size + 64, true) :: cons_free (n - size - 64) q)
  else match alloc_blocks size bs with
       | None => (None, bs)
       | Some (off', bs') => (Some off', default bs' (free_at off bs'))
       end.

Lemma used_at_same bs off n m : Forall block_ok bs -> used_at bs off n -> used_at bs off m -> m = n.
Proof.
  intros Hok (p & q & -> & ->) Hm. pose proof (used_at_ok _ _ _ Hok Hm) as [? _].
  pose proof Hok as Hok2. apply Forall_app in Hok2 as [_ Hok2]. apply Forall_cons_1 in Hok2 as [[Hn _] _]. cbn in Hn.
  destruct (used_apart _ _ _ _ _ _ Hok Hm) as [?|[?|(_ & -> & _)]]; (lia || done).
Qed.

Lemma shrink_used p n q size o j :
  let bs := p ++ (n, true) :: q in
  Forall block_ok bs -> 64 <= size -> size mod 64 = 0 -> size + 128 <= n - 64 ->
  used_at (p ++ (size + 64, true) :: cons_free (n - size - 64) q) o j <->
  (o = extent p /\ j = size + 64) \/ (used_at bs o j /\ o <> extent p).
Proof.
  intros bs Hok Hs Hm Hfit. set (c := [(size + 64, true); (n - size - 64, false)]).
  assert (Hc : used_at (p ++ (size + 64, true) :: cons_free (n - size - 64) q) o j <-> used_at (p ++ c ++ q) o j).
  { cbn [app c]. rewrite !used_at_app. setoid_rewrite used_at_cons. by setoid_rewrite <-cons_free_used_at. }
  rewrite Hc. assert (Hext : extent c = n) by (cbn; lia).
  assert (Hok' : Forall block_ok (p ++ c ++ q)).
  { apply Forall_app in Hok as [? Hok]. apply Forall_cons_1 in Hok as [[_ Hmn] Hq]. cbn in Hmn. rewrite !Forall_app. split; [done|].
    split; [|done]. repeat constructor; cbn; try lia; [by rewrite Z.add_mod, Hm by lia|].
    replace (n - size - 64) with (n - (size + 64)) by lia. by rewrite Zminus_mod, Hmn, (Z.add_mod size), Hm by lia. }
  assert (Hu : used_at (p ++ c ++ q) (extent p) (size + 64)) by (by exists p, ((n - size - 64, false) :: q)).
  split.
  - intros H. destruct (Z.eq_dec o (extent p)) as [->|Hne]; [left; split; [done|by eapply used_at_same]|right].
    split; [|done]. apply (used_replace_inv p n true) in H as [H|(o2 & H & ->)]; [done| |done].
    apply used_at_cons in H as [(_ & -> & _)|(o3 & H & _)]; [lia|]. apply used_free_only in H; [done|by repeat constructor].
  - intros [[-> ->]|[H Hne]]; [done|]. apply (used_replace p n true); [done|done|by left].
Qed.

(** The blocks in use after a change of size. *)
Lemma resize_spec msz size p q n :
  let off := extent p in let bs := p ++ (n, true) :: q in
  Forall block_ok bs -> sep bs -> 0 <= msz -> 0 <= size -> size mod 64 = 0 ->
  match resize msz size off n p q with
  | (None, bs') => if size =? 0 then forall o j, used_at bs' o j <-> used_at bs o j /\ o <> off else bs' = bs
  | (Some off', bs') => exists c, size + 64 <= c /\
      (forall o j, used_at bs' o j <-> (o = off' /\ j = c) \/ (used_at bs o j /\ o <> off)) /\
      (forall o j, used_at bs o j -> o <> off -> o <> off')
  end.
Proof.
  intros off bs Hok Hsep Hmsz Hs Hm. assert (Hu : used_at bs off n) by (by exists p, q). unfold resize. fold bs.
  assert (Hsame : forall o j, used_at bs o j <-> o = off /\ j = n \/ used_at bs o j /\ o <> off).
  { intros o j. split; [|by intros [[-> ->]|[? _]]]. intros H. destruct (Z.eq_dec o off) as [->|]; [left|by right].
    split; [done|]. by eapply used_at_same. }
  destruct (Z.ltb_spec msz size); [destruct (Z.eqb_spec size 0); [lia|done]|].
  destruct (Z.eqb_spec size 0) as [->|Hz].
  - intros o j. destruct (free_at_spec _ _ _ Hok Hsep Hu) as (bs' & Hf & _ & Hiff). unfold off, bs in Hf.
    rewrite free_at_joined in Hf by (by apply Forall_app in Hok as [? _]). by injection Hf as <-.
  - destruct (Z.eqb_spec (n - 64) size); [exists n; split; [lia|split; [exact Hsame|done]]|].
    destruct (Z.ltb_spec (size + 76) (n - 64)).
    + exists (size + 64). split; [lia|]. split; [|done]. intros o j. apply used_at_ok in Hu as (_ & Hmn & _); [|done].
      apply shrink_used; [done|apply Z.mod_divide in Hm as [a ->]; lia|done|].
      apply Z.mod_divide in Hm as [a ->], Hmn as [b ->]; lia.
    + destruct (alloc_blocks size bs) as [[off' bs1]|] eqn:E; [|done].
      assert (64 <= size) by (apply Z.mod_divide in Hm as [a ->]; lia).
      destruct (alloc_blocks_spec _ _ _ _ Hok Hsep ltac:(done) Hm E) as (Hsep1 & Hok1 & c & Hc & Hu' & Hiff & Hd).
      destruct (free_at_spec bs1 off n Hok1 Hsep1) as (bs2 & -> & _ & Hiff2); [apply Hiff; by right|].
      exists c. split; [done|]. cbn [default]. split; [|intros o j Ho Hne ->; specialize (Hd _ _ Ho); apply used_at_ok in Ho; [lia|done]].
      intros o j. rewrite Hiff2, Hiff.
      pose proof (used_at_ok _ _ _ Hok Hu). split; [intros [[?|?] ?]; auto|].
      intros [[-> ->]|?]; [|tauto]. split; [by left|]. intros ->. specialize (Hd _ _ Hu). lia.
Qed.

Section realloc.
Variables self0 base msz : Z.
Hypothesis G : geometry self0 base msz.
#[local] Abbreviation hend := (msz + 64).
#[local] Abbreviation tag := (tag self0).
#[local] Abbreviation chain := (chain self0 base msz).
#[local] Abbreviation st := (st self0 base msz).
#[local] Abbreviation is_off := (is_off msz).
#[local] Abbreviation is_word := (is_word base msz).
#[local] Abbreviation same_outside := (same_outside base).
#[local] Abbreviation others_same := (others_same base).
#[local] Abbreviation rep := (rep self0 base msz).
#[local] Abbreviation used_same := (used_same base).

Lemma same_others w w' p n u q :
  Forall block_ok (p ++ (n, u) :: q) -> same_outside w w' (extent p) (extent p + n) ->
  others_same w w' (p ++ (n, u) :: q) (extent p).
Proof.
  intros Hok H off j a Ha Hne Hr. pose proof Hok as Hok2. apply Forall_app in Hok2 as [_ Hok2].
  apply Forall_cons_1 in Hok2 as [[Hn _] _]. cbn in Hn.
  destruct (used_apart _ _ _ _ _ _ Hok Ha) as [?|[?|(? & _)]]; [apply H; lia..|done].
Qed.

Lemma lowest_cut p n s q : lowest ((p ++ [(s, true)]) ++ (n - s, true) :: q) = lowest (p ++ (n, true) :: q).
Proof. rewrite <-app_assoc, !lowest_app. cbn. destruct (all_used p); [lia|done]. Qed.

Lemma cut_lfree_run p n s q w u m k :
  let l := base + lowest (p ++ (n, true) :: q) in let p' := p ++ [(s, true)] in
  Forall block_ok (p' ++ (n - s, false) :: q) ->
  (if base + extent p' <? l then set_lfree (base + extent p') else ret tt) (st w l u m k) =
  Ret (tt, st w (base + lowest (p' ++ (n - s, false) :: q)) u m k).
Proof.
  intros l p' Hok. unfold l. rewrite <-(lowest_cut p n s q). apply lower_lfree_run.
  apply Forall_app in Hok as [? Hok]. apply Forall_app. split; [done|]. apply Forall_cons_1 in Hok as [? ?]. by constructor.
Qed.

(** The end of a block is cut off. *)
Lemma shrink_run p n q size rmem w m k :
  let off := extent p in let bs := p ++ (n, true) :: q in let bs' := p ++ (size + 64, true) :: cons_free (n - size - 64) q in
  chain w bs -> sep bs -> 64 <= size -> size mod 64 = 0 -> size + 128 <= n - 64 ->
  exists w', (set_used (fun u => u32 (u - u32 (n - 64 - size))) ;;
      let! mem2 := split_item (base + off) off (off + (size + 64)) in
      let! l := sget lfree in
      (if mem2 <? l then set_lfree mem2 else ret tt) ;;
      plug_holes mem2 ;;
      (ret rmem : HM Z)) (st w (base + lowest bs) (used_sum bs) m k) = Ret (rmem, st w' (base + lowest bs') (used_sum bs') m k) /\
    chain w' bs' /\ others_same w w' bs off /\
    (forall a, base + off + 64 <= a < base + off + 64 + size -> w' a = w a).
Proof.
  intros off bs bs' Hw Hsep Hs Hsm Hfit. pose proof (geo _ _ _ G) as (Gb & Gm & Ge). pose proof Hw as (Hok & _).
  destruct (chain_at _ _ _ _ _ _ _ _ Hw) as (_ & [Hor Hom] & _ & Hn & Hmn & Hend). fold off in Hor, Hend.
  apply (sep_app p ((n, true) :: q)) in Hsep as (Hsp & _ & _).
  pose proof Hok as Hok2. apply Forall_app in Hok2 as [Hp Hq]. apply Forall_cons_1 in Hq as [_ Hq].
  pose proof (used_sum_le _ Hp). pose proof (used_sum_le _ Hq).
  rewrite set_used_run.
  destruct (split_run _ _ _ G p n true q (size + 64) w (base + lowest bs) (u32 (used_sum bs - u32 (n - 64 - size))) m k Hw)
    as (w1 & Hrun & Hw1 & Hs1 & Hd1); [lia|lia|by rewrite Z.add_mod, Hsm by lia|].
  fold off in Hrun, Hs1, Hd1. rewrite (bind_Ret _ _ _ _ _ Hrun), sget_run. clear Hrun. cbn [small_mem lfree SmemChain.st].
  pose proof Hw1 as Hw1'. change [(size + 64, true); (n - (size + 64), false)] with ([(size + 64, true)] ++ [(n - (size + 64), false)]) in Hw1'.
  rewrite <-app_assoc, app_assoc in Hw1'. cbn [app] in Hw1'. set (p' := p ++ [(size + 64, true)]) in *.
  assert (Hp' : extent p' = off + (size + 64)) by (unfold p'; rewrite extent_app; cbn; lia).
  replace (base + off + (size + 64)) with (base + extent p') by lia.
  rewrite (bind_Ret _ _ _ _ _ (cut_lfree_run p n (size + 64) q w1 _ _ _ ltac:(by destruct Hw1'))).
destruct (plug_run _ _ _ G p' (n - (size + 64)) q w1 (u32 (used_sum bs - u32 (n - 64 - size))) m k Hw1')
    as (w2 & Hrun & Hw2 & Hs2 & _).
  { apply sep_app. split_and!; [done|done|by right]. }
  fold p'. rewrite (bind_Ret _ _ _ _ _ Hrun). assert (Hj : joined p' (n - (size + 64)) q = bs').
  { unfold p'. rewrite joined_used; [|apply sep_app; split_and!; [done|done|by right]|apply last_used_snoc].
    rewrite <-app_assoc. cbn [app]. by replace (n - (size + 64)) with (n - size - 64) by lia. }
  rewrite Hj in *. exists w2. split_and!.
  - assert (Hus : u32 (used_sum bs - u32 (n - 64 - size)) = used_sum bs').
    { unfold bs, bs'. rewrite !used_sum_app. cbn [used_sum]. rewrite cons_free_used, (u32_small (n - 64 - size)), u32_small by (unfold is_u32; lia). lia. }
    by rewrite Hus.
  - done.
  - intros o j a Ha Hne Hr. rewrite (Hs2 o j); [by apply (same_others w w1 p n true q Hok Hs1 o j)| |done].
    unfold p'. rewrite <-app_assoc. eapply (used_replace p n true [(size + 64, true); (n - (size + 64), false)]);
      [cbn; lia|exact Ha|by left].
  - intros a Ha. rewrite (Hs2 off (size + 64)); [apply Hd1; lia| |lia].
    apply used_at_app. left. unfold p'. apply used_at_app. right. exists 0. split; [|lia]. apply used_at_cons. by left.
Qed.

(** What a move of the data promises. *)
Definition moved (h h' : heap) (off off' n size : Z) : Prop :=
  forall i, 0 <= i -> 4 * i + 4 <= Z.min (n - 64) size -> words h' (base + off' + 64 + 4 * i) = words h (base + off + 64 + 4 * i).

(** The data moves to a new block. *)
Lemma move_rep h bs off n size :
  rep h bs -> used_at bs off n -> 64 <= size <= 2 ^ 32 - 64 -> size mod 64 = 0 ->
  let m := (let! nmem := rt_smem_alloc size in
      if nmem =? 0 then ret 0
      else
        rt_memcpy (Z.to_nat ((if n - 64 <? size then n - 64 else size) / 4)) nmem (base + off + 64) ;;
        rt_smem_free (base + off + 64) ;;
        ret nmem) in
  match alloc_blocks size bs with
  | None => m h = Ret (0, h)
  | Some (off', bs1) => exists h' bs2, free_at off bs1 = Some bs2 /\ m h = Ret (base + off' + 64, h') /\ rep h' bs2 /\
      others_same (words h) (words h') bs off /\ moved h h' off off' n size /\ heap_lock h' = heap_lock h
  end.
Proof.
  intros Hrep Hu Hs Hm m. pose proof (rep_ok _ _ _ _ _ Hrep) as Hok. pose proof (rep_chain _ _ _ _ _ Hrep) as [_ Hsep].
  pose proof (alloc_rep _ _ _ G h bs size Hrep ltac:(lia)) as Ha. rewrite block_size_id in Ha by done. subst m.
  destruct (alloc_blocks size bs) as [[off' bs1]|] eqn:Eb; [|by rewrite (bind_Ret _ _ _ _ _ Ha)].
  destruct Ha as (h1 & Hrun & Hrep1 & Hs1 & Hk1). rewrite (bind_Ret _ _ _ _ _ Hrun). clear Hrun.
  destruct (alloc_blocks_spec size bs off' bs1 Hok Hsep ltac:(lia) Hm Eb) as (_ & _ & c & Hc & Hu' & Hiff & Hd).
  pose proof (used_at_ok _ _ _ Hok Hu) as (Hn & Hmn & Ho & _). pose proof (rep_ok _ _ _ _ _ Hrep1) as Hok1.
  pose proof (used_at_ok _ _ _ Hok1 Hu') as (_ & _ & Ho' & _).
  assert (Hu1 : used_at bs1 off n) by (apply Hiff; by right). assert (Hne : off <> off') by (specialize (Hd _ _ Hu); lia).
  pose proof (geo _ _ _ G) as (Gb & _). destruct (Z.eqb_spec (base + off' + 64) 0); [lia|].
  set (b := if n - 64 <? size then n - 64 else size). assert (Hb : b = Z.min (n - 64) size) by (unfold b; destruct (Z.ltb_spec (n - 64) size); lia).
  assert (Hb4 : 4 * Z.of_nat (Z.to_nat (b / 4)) = b).
  { rewrite Z2Nat.id by (apply Z.div_pos; lia). symmetry. apply Z_div_exact_2; [lia|]. apply mod_64_4.
    rewrite Hb. destruct (Z.min_spec (n - 64) size) as [[_ ->]|[_ ->]]; [|done]. by rewrite Zminus_mod, Hmn. }
  destruct (copy_rep _ _ _ G h1 bs1 off n off' c (Z.to_nat (b / 4)) Hrep1 Hu1 Hu' Hne) as (h2 & Hrun & Hrep2 & Hcp & Hs2 & Hk2); [lia|lia|].
  rewrite (bind_Ret _ _ _ _ _ Hrun). clear Hrun.
  destruct (free_rep _ _ _ G h2 bs1 off n Hrep2 Hu1) as (h3 & bs2 & Hf & Hrun & Hrep3 & Hs3 & _ & Hk3).
  rewrite (bind_Ret _ _ _ _ _ Hrun). exists h3, bs2. split; [done|]. split; [done|]. split; [done|]. split; [|split].
  - intros o j a Hj Hno Hr. pose proof (Hd _ _ Hj). assert (Hj1 : used_at bs1 o j) by (apply Hiff; by right).
    pose proof (used_at_ok _ _ _ Hok Hj).
    rewrite (Hs3 o j), (Hs2 o j), (Hs1 o j) by (done || lia). done.
  - intros i Hi Hle. rewrite (Hs3 off' c) by (done || lia). rewrite Hcp by lia. apply (Hs1 off n); [done|lia].
  - congruence.
Qed.

Lemma align_size size :
  0 <= size <= 2 ^ 32 - 64 ->
  0 <= RT_ALIGN size RT_ALIGN_SIZE <= 2 ^ 32 - 64 /\ RT_ALIGN size RT_ALIGN_SIZE mod 64 = 0 /\ size <= RT_ALIGN size RT_ALIGN_SIZE < size + 64.
Proof.
  intros H. rewrite align_up_64, u32_small by (unfold is_u32; lia). rewrite Z.mul_comm, Z.mod_mul by lia.
  Z.div_mod_to_equations. lia.
Qed.

Lemma shrink_rep h p q n size rmem :
  let bs := p ++ (n, true) :: q in let off := extent p in let bs' := p ++ (size + 64, true) :: cons_free (n - size - 64) q in
  rep h bs -> 64 <= size -> size mod 64 = 0 -> size + 128 <= n - 64 ->
  exists h', (set_used (fun u => u32 (u - u32 (n - 64 - size))) ;;
      let! mem2 := split_item (base + off) off (off + (size + 64)) in
      let! l := sget lfree in
      (if mem2 <? l then set_lfree mem2 else ret tt) ;;
      plug_holes mem2 ;;
      (ret rmem : HM Z)) h = Ret (rmem, h') /\
    rep h' bs' /\ others_same (words h) (words h') bs off /\ moved h h' off off n size /\ heap_lock h' = heap_lock h.
Proof.
  intros bs off bs' (w & m & E & Hw & Hsep) Hs Hm Hfit.
  destruct (shrink_run p n q size rmem w m (heap_lock h) Hw Hsep Hs Hm Hfit) as (w' & Hrun & Hw' & Ho & Hd).
  fold bs in Hrun. rewrite <-E in Hrun. eexists. split; [exact Hrun|]. assert (Ew : words h = w) by (by rewrite E).
  unfold moved. rewrite Ew. split_and!; [|done| |done].
  - exists w', m. split; [done|]. split; [done|]. apply sep_app in Hsep as (Hp & [_ Hq] & _).
    apply sep_app. split; [done|]. split; [|by right]. split; [done|by apply cons_free_sep].
  - intros i Hi Hle. apply Hd. fold off. lia.
Qed.

(** [rt_smem_realloc] of a block in use. *)
Lemma realloc_rep h p q n newsize :
  let bs := p ++ (n, true) :: q in let off := extent p in let size := RT_ALIGN newsize RT_ALIGN_SIZE in
  let r := resize msz size off n p q in
  rep h bs -> 0 <= newsize <= 2 ^ 32 - 64 ->
  exists h', rt_smem_realloc (base + off + 64) newsize h =
      Ret (match fst r with Some off' => base + off' + 64 | None => 0 end, h') /\
    rep h' (snd r) /\ others_same (words h) (words h') bs off /\ heap_lock h' = heap_lock h /\
    match fst r with Some off' => moved h h' off off' n size | None => size <> 0 -> h' = h end.
Proof.
  intros bs off size r Hrep Hs. destruct (align_size newsize Hs) as (Hsz & Hsm & _). fold size in Hsz, Hsm.
  pose proof (geo _ _ _ G) as (Gb & Gm & Ge). pose proof Hrep as (w & m & E & Hw & Hsep).
  assert (Hu : used_at bs off n) by (by exists p, q). pose proof (rep_ok _ _ _ _ _ Hrep) as Hok.
  destruct (used_at_ok _ _ _ Hok Hu) as (Hn & Hmn & Ho & Hmo & Hend). fold bs in Hw. rewrite (chain_extent _ _ _ _ _ Hw) in Hend.
  destruct (chain_at _ _ _ _ _ _ _ _ Hw) as ((t & _ & Hi2 & _) & Hoff & Hoff2 & _). fold off in Hi2, Hoff, Hoff2.
  destruct (rep_object _ _ _ _ _ Hrep) as (_ & Ehp & Ehe & Emsz & Hobj).
  assert (Hget : forall B g (f : Z -> HM B), bind (sget g) f h = f (g (small_mem h)) h) by done.
  unfold rt_smem_realloc. rewrite Hobj, Hget, Emsz. cbv zeta. fold size.
  subst r. unfold resize. fold bs. destruct (Z.ltb_spec msz size); [by exists h|].
  destruct (Z.eqb_spec size 0) as [Hz|Hz].
  { destruct (free_rep _ _ _ G h bs off n Hrep Hu) as (h' & bs' & Hf & Hrun & Hrep' & Ho' & _ & Hk).
    unfold off, bs in Hf. rewrite free_at_joined in Hf by (by apply Forall_app in Hok as [? _]). injection Hf as <-.
    rewrite (bind_Ret _ _ _ _ _ Hrun). exists h'. split_and!; try done. intros Hnz. by destruct Hnz. }
  destruct (Z.eqb_spec (base + off + 64) 0); [lia|]. rewrite !Hget, Ehp, Ehe.
  rewrite bind_assert by (apply Z.eqb_eq, land_63; by rewrite Z.add_mod, (base_aligned _ _ _ G _ Hoff) by lia).
  rewrite bind_assert by (apply Z.leb_le; lia). rewrite bind_assert by (apply Z.ltb_lt; lia).
  change SIZEOF_STRUCT_MEM with 64. change MIN_SIZE with 12.
  replace (base + off + 64 - 64) with (base + off) by lia. rewrite (u32_small (base + off)) by (unfold is_u32; lia).
  assert (Hoo : forall B (f : Z -> HM B), bind (offset_of (base + off)) f h = f off h)
    by (intros; rewrite E; by apply (offset_of_run _ _ _ G)).
  assert (Hnx : forall B (f : Z -> HM B), bind (item_next (base + off)) f h = f (off + n) h)
    by (intros; rewrite E, (next_run _ _ _ G), Hi2 by done; done).
  rewrite Hoo, Hnx. clear Hoo Hnx. replace (off + n - off - 64) with (n - 64) by lia.
  rewrite (u32_small (n - 64)) by (unfold is_u32; lia).
  destruct (Z.eqb_spec (n - 64) size) as [Hsame|Hdiff]; [by exists h|].
  replace (size + 64 + 12) with (size + 76) by lia. destruct (Z.le_gt_cases size msz); [|lia].
  rewrite (u32_small (size + 76)) by (unfold is_u32; lia). destruct (Z.ltb_spec (size + 76) (n - 64)) as [Hcut|Hmove].
  - assert (Hfit : size + 128 <= n - 64).
    { apply Z.mod_divide in Hsm as [a ->], Hmn as [b ->]; lia. }
    assert (64 <= size) by (apply Z.mod_divide in Hsm as [a ->]; lia).
    destruct (shrink_rep h p q n size (base + off + 64) Hrep) as (h' & Hrun & Hrep' & Hoth & Hmv & Hk); [done|done|done|].
    fold off in Hrun. rewrite (u32_small (off + 64 + size)) by (unfold is_u32; lia).
    replace (off + 64 + size) with (off + (size + 64)) by lia. by exists h'.
  - assert (64 <= size <= 2 ^ 32 - 64) by (split; [apply Z.mod_divide in Hsm as [a ->]; lia|lia]).
    pose proof (move_rep h bs off n size Hrep Hu ltac:(done) Hsm) as Hm. cbv zeta in Hm.
    destruct (alloc_blocks size bs) as [[off' bs1]|]; [|by exists h].
    destruct Hm as (h' & bs2 & Hf & Hrun & Hrep' & Ho' & Hmv & Hk). exists h'. rewrite Hf. done.
Qed.
End realloc.
