(* ===== verification/SmemClient.v ===== *)
(** * The heap as its clients see it

    An abstract memory: which pointers are live, how many bytes were asked for, and what the
    client has written.  Every legal call of [rt_malloc], [rt_free] and [rt_realloc] and
    every write returns, and does to the heap what the abstract call does to the memory. *)

From Stdlib Require Import ZArith Lia Bool.
From stdpp Require Import base tactics numbers list option gmap.
From S2P Require Import Prelude Smem SmemChain SmemAlloc SmemFree SmemRep SmemRealloc.

Open Scope Z_scope.

(** ** Abstract memory *)

Record amem : Type := mkAmem {
  live : gmap Z Z;             (** live pointers and the sizes asked for *)
  contents : Z -> option Z     (** the words the client has written *)
}.

Inductive call : Type :=
  | Malloc (n : Z)
  | Free (p : Z)
  | Realloc (p n : Z)
  | Write (a v : Z).

Definition call_run (c : call) : HM Z :=
  match c with
  | Malloc n => rt_malloc n
  | Free p => rt_free p ;; ret 0
  | Realloc p n => rt_realloc p n
  | Write a v => store a v ;; ret 0
  end.

(** A word of a live block. *)
Definition live_word (m : amem) (a : Z) : Prop :=
  exists p k i, live m !! p = Some k /\ a = p + 4 * i /\ 0 <= i /\ 4 * i + 4 <= k.

(** Calls a client may make. *)
Definition legal (m : amem) (c : call) : Prop :=
  match c with
  | Malloc n => 0 <= n <= 2 ^ 32 - 64
  | Free p => p = 0 \/ is_Some (live m !! p)
  | Realloc p n => (p = 0 \/ is_Some (live m !! p)) /\ 0 <= n <= 2 ^ 32 - 64
  | Write a v => live_word m a
  end.

Definition release (p k : Z) (m : amem) : amem :=
  mkAmem (delete p (live m)) (fun a => if (p <=? a) && (a <? p + k) then None else contents m a).

(** An aligned stretch between [lo] and [hi] apart from all live ones. *)
Definition fresh (lo hi : Z) (m : amem) (p n : Z) : Prop :=
  p mod 64 = 0 /\ lo <= p /\ p + n <= hi /\ forall q k, live m !! q = Some k -> p + n <= q \/ q + k <= p.

Inductive astep (lo hi : Z) : amem -> call -> Z -> amem -> Prop :=
  | a_malloc_null m n : astep lo hi m (Malloc n) 0 m
  | a_malloc m n p : 0 < n -> fresh lo hi m p n ->
      astep lo hi m (Malloc n) p (mkAmem (<[p := n]> (live m)) (contents m))
  | a_free_null m : astep lo hi m (Free 0) 0 m
  | a_free m p k : live m !! p = Some k -> astep lo hi m (Free p) 0 (release p k m)
  | a_realloc_new m n r m' : astep lo hi m (Malloc n) r m' -> astep lo hi m (Realloc 0 n) r m'
  | a_realloc_free m p k : live m !! p = Some k -> astep lo hi m (Realloc p 0) 0 (release p k m)
  | a_realloc_null m p n : n <> 0 -> astep lo hi m (Realloc p n) 0 m
  | a_realloc m p k n q : live m !! p = Some k -> 0 < n -> fresh lo hi (release p k m) q n ->
      astep lo hi m (Realloc p n) q
        (mkAmem (<[q := n]> (delete p (live m)))
           (fun a => if (q <=? a) && (a + 4 <=? q + Z.min k n) then contents m (p + (a - q)) else contents (release p k m) a))
  | a_write m a v : live_word m a ->
      astep lo hi m (Write a v) 0 (mkAmem (live m) (fun b => if b =? a then Some v else contents m b)).

(** The result of a call decides what it does. *)
Lemma malloc_det lo hi m n r m1 m2 :
  0 < lo -> astep lo hi m (Malloc n) r m1 -> astep lo hi m (Malloc n) r m2 -> m1 = m2.
Proof.
  intros Hlo H1 H2. inversion H1; subst; inversion H2; subst; try done;
    match goal with H : fresh _ _ _ 0 _ |- _ => destruct H as (_ & ? & _); lia end.
Qed.

Lemma astep_det lo hi m c r m1 m2 :
  0 < lo -> live m !! 0 = None -> astep lo hi m c r m1 -> astep lo hi m c r m2 -> m1 = m2.
Proof.
  intros Hlo H0 H1 H2. destruct c as [n|p|p n|a v]; [by eapply malloc_det| | |].
  - inversion H1; subst; inversion H2; subst; congruence.
  - assert (Hz : forall m' n q, fresh lo hi m' q n -> q <> 0) by (intros ? ? ? (_ & ? & _); lia).
    inversion H1; subst; inversion H2; subst; try congruence; try lia; try (by exfalso; eapply Hz; [eassumption|done]);
      try (by eapply malloc_det); repeat match goal with H : astep _ _ _ (Malloc _) _ _ |- _ => inversion H; subst; clear H end;
      try congruence; try done; try (by exfalso; eapply Hz; [eassumption|done]); by simplify_eq.
  - by inversion H1; subst; inversion H2; subst.
Qed.

(** ** The simulation *)

Section sim.
Variables self0 base msz : Z.
Hypothesis G : geometry self0 base msz.
#[local] Abbreviation hend := (msz + 64).
#[local] Abbreviation rep := (rep self0 base msz).
#[local] Abbreviation astep := (astep (base + 64) (base + hend)).

(** The live pointers are the blocks in use, which are large enough. *)
Definition owns (U : Z -> Z -> Prop) (m : amem) : Prop :=
  (forall p k, live m !! p = Some k -> 0 < k /\ exists n, U (p - base - 64) n /\ k <= n - 64) /\
  (forall off n, U off n -> is_Some (live m !! (base + off + 64))).

(** What the client has written is there. *)
Definition holds (w : Z -> Z) (m : amem) : Prop := forall a v, contents m a = Some v -> w a = v /\ live_word m a.

(** The heap implements the memory. *)
Definition implements (m : amem) (h : heap) : Prop :=
  exists bs, rep h bs /\ heap_lock h = 0 /\ owns (used_at bs) m /\ holds (words h) m.

Lemma ptr_eq p : base + (p - base - 64) + 64 = p.
Proof. lia. Qed.

Lemma off_eq off : base + off + 64 - base - 64 = off.
Proof. lia. Qed.

Lemma owns_release U m off k :
  owns U m -> owns (fun o j => U o j /\ o <> off) (release (base + off + 64) k m).
Proof.
  intros [H1 H2]. split; cbn.
  - intros p j Hp. apply lookup_delete_Some in Hp as [Hne Hp]. destruct (H1 _ _ Hp) as (? & n & Hn & ?).
    split; [done|]. exists n. split; [split; [done|lia]|done].
  - intros o n [Ho Hne]. destruct (H2 _ _ Ho) as [j Hj]. exists j. apply lookup_delete_Some. split; [lia|done].
Qed.

Lemma owns_insert U U' m off c n f :
  owns U m -> (forall o j, U' o j <-> (o = off /\ j = c) \/ U o j) -> 0 < n <= c - 64 ->
  owns U' (mkAmem (<[base + off + 64 := n]> (live m)) f).
Proof.
  intros [H1 H2] HU Hn. split; cbn.
  - intros p j Hp. apply lookup_insert_Some in Hp as [[<- <-]|[_ Hp]].
    + split; [lia|]. exists c. rewrite off_eq. split; [apply HU; by left|lia].
    + destruct (H1 _ _ Hp) as (? & i & Hi & ?). split; [done|]. exists i. split; [apply HU; by right|done].
  - intros o j Ho. apply lookup_insert_is_Some. destruct (decide (base + off + 64 = base + o + 64)) as [|Hne]; [by left|right].
    split; [done|]. apply HU in Ho as [[-> _]|Ho]; [done|]. by eapply H2.
Qed.

Lemma fresh_block U bs off c n m :
  Forall block_ok bs -> extent bs = hend -> used_at bs off c -> n <= c - 64 -> owns U m ->
  (forall o j, U o j -> used_at bs o j /\ o <> off) -> fresh (base + 64) (base + hend) m (base + off + 64) n.
Proof.
  intros Hok Hext Hu Hn [H1 _] HU. destruct (used_at_ok _ _ _ Hok Hu) as (Hc & _ & Ho & Hm & Hle).
  split_and!; [|lia|lia|].
  - destruct G as (_ & _ & _ & Hb & _). by rewrite (Z.add_mod (base + off)), (Z.add_mod base), Hb, Hm by lia.
  - intros q k Hq. destruct (H1 _ _ Hq) as (_ & j & Hj & Hk). apply HU in Hj as [Hj Hne].
    destruct (used_disjoint _ _ _ _ _ Hok Hu Hj) as [?|?]; [lia..].
Qed.

Lemma live_word_insert m p n f a : live_word m a -> live m !! p = None -> live_word (mkAmem (<[p := n]> (live m)) f) a.
Proof.
  intros (q & k & i & Hq & Ha) Hp. exists q, k, i. split; [|done]. cbn. rewrite lookup_insert_ne; [done|]. intros <-. congruence.
Qed.

Lemma live_word_used m bs a : owns (used_at bs) m -> live_word m a ->
  exists p k n, live m !! p = Some k /\ used_at bs (p - base - 64) n /\
    base + (p - base - 64) + 64 <= a < base + (p - base - 64) + n /\ p <= a < p + k.
Proof.
  intros [H1 _] (p & k & i & Hp & -> & Hi & Hk). destruct (H1 _ _ Hp) as (_ & n & Hn & Hkn).
  exists p, k, n. split; [done|]. split; [done|]. lia.
Qed.

Lemma holds_release w w' m bs off k :
  holds w m -> owns (used_at bs) m -> live m !! (base + off + 64) = Some k -> others_same base w w' bs off ->
  holds w' (release (base + off + 64) k m).
Proof.
  intros Hh Ho Hp Hs a v Ha. cbn in Ha. destruct ((base + off + 64 <=? a) && (a <? base + off + 64 + k)) eqn:E; [done|].
  apply Hh in Ha as [<- Hl]. destruct (live_word_used _ _ _ Ho Hl) as (p & j & n & Hj & Hu & Hr & _).
  destruct Hl as (q & j' & i & Hq & -> & Hi & Hk). assert (q <> base + off + 64) as Hne.
  { intros ->. rewrite Hp in Hq. injection Hq as <-. apply andb_false_iff in E as [E|E]; [apply Z.leb_gt in E|apply Z.ltb_ge in E]; lia. }
  destruct (Ho) as [H1 _]. destruct (H1 _ _ Hq) as (_ & n' & Hn' & ?). split.
  - apply (Hs (q - base - 64) n'); [done|lia|lia].
  - exists q, j', i. split; [|done]. cbn. by rewrite lookup_delete_ne.
Qed.

Definition relock (k : Z) (h : heap) : heap := mkHeap (self h) (small_mem h) (words h) k.

Lemma relock_back h : relock (heap_lock (relock (heap_lock h + 1) h) - 1) (relock (heap_lock h + 1) h) = h.
Proof. destruct h as [a b c k]. unfold relock. cbn. by replace (k + 1 - 1) with k by lia. Qed.

Lemma rep_relock k h bs : rep h bs -> rep (relock k h) bs.
Proof. intros (w & m & -> & Hw). by exists w, m. Qed.

Lemma locked_run {A} (f : HM A) h a h' :
  f (relock (heap_lock h + 1) h) = Ret (a, h') -> locked f h = Ret (a, relock (heap_lock h' - 1) h').
Proof. intros H. unfold locked, heap_lock_take. rewrite bind_modify. fold (relock (heap_lock h + 1) h). by rewrite (bind_Ret _ _ _ _ _ H). Qed.

Lemma implements_relock m h k : implements m h -> exists bs, rep (relock k h) bs /\ heap_lock h = 0 /\ owns (used_at bs) m /\ holds (words h) m.
Proof. intros (bs & Hrep & H). exists bs. split; [by apply rep_relock|done]. Qed.

(** A new block of [c] bytes. *)
Lemma new_sim m h1 h' bs bs' off c n :
  owns (used_at bs) m -> holds (words h1) m -> rep h' bs' -> used_same base (words h1) (words h') bs -> heap_lock h' = 1 ->
  (forall o j, used_at bs' o j <-> (o = off /\ j = c) \/ used_at bs o j) -> (forall o j, used_at bs o j -> o <> off) ->
  0 < n <= c - 64 ->
  exists m', astep m (Malloc n) (base + off + 64) m' /\ implements m' (relock 0 h').
Proof.
  intros Ho Hh Hrep Hs Hk HU Hne Hn. pose proof (rep_ok _ _ _ _ _ Hrep) as Hok. pose proof (rep_chain _ _ _ _ _ Hrep) as [Hw _].
  eexists. split.
  - apply a_malloc; [lia|]. apply (fresh_block (used_at bs) bs' off c); [done|by eapply chain_extent|apply HU; by left|lia|done|].
    intros o j Hj. split; [apply HU; by right|by eapply Hne].
  - exists bs'. split; [by apply rep_relock|]. split; [done|]. split; [by eapply owns_insert|].
    intros a v Ha. cbn in Ha. apply Hh in Ha as [<- Hl]. split.
    + destruct (live_word_used _ _ _ Ho Hl) as (p & j & i & _ & Hu & Hr & _). by apply (Hs _ _ _ Hu).
    + apply live_word_insert; [done|]. destruct (live m !! (base + off + 64)) eqn:E; [|done].
      destruct Ho as [H1 _]. destruct (H1 _ _ E) as (_ & i & Hi & _). rewrite off_eq in Hi. by apply Hne in Hi.
Qed.

Lemma alloc_sim m h n n' :
  implements m h -> 0 <= n <= n' -> n' <= 2 ^ 32 - 64 -> (n = 0 -> n' = 0) ->
  exists r m' h', locked (rt_smem_alloc n') h = Ret (r, h') /\ astep m (Malloc n) r m' /\ implements m' h'.
Proof.
  intros Hi Hn Hn' H0. pose proof Hi as Himpl. apply (implements_relock _ _ (heap_lock h + 1)) in Hi as (bs & Hrep & Hk & Ho & Hh).
  set (h1 := relock (heap_lock h + 1) h) in *.
  destruct (Z.eq_dec n' 0) as [->|Hz].
  { exists 0, m, h. split_and!; [|apply a_malloc_null|done]. erewrite locked_run by done. unfold h1. by rewrite relock_back. }
  pose proof (alloc_rep _ _ _ G h1 bs n' Hrep ltac:(lia)) as Ha.
  destruct (alloc_blocks (block_size n') bs) as [[off bs']|] eqn:E.
  - destruct Ha as (h' & Hrun & Hrep' & Hs & Hk'). destruct (block_size_spec n' ltac:(lia)) as (Hb & Hbm & Hbn).
    pose proof (rep_ok _ _ _ _ _ Hrep) as Hok. pose proof (rep_chain _ _ _ _ _ Hrep) as [_ Hsep].
    destruct (alloc_blocks_spec (block_size n') bs off bs' Hok Hsep ltac:(lia) Hbm E) as (_ & _ & c & Hc & _ & HU & Hd).
    assert (Hk1 : heap_lock h' = 1) by (rewrite Hk'; cbn; lia).
    destruct (new_sim m h1 h' bs bs' off c n Ho Hh Hrep' Hs Hk1 HU) as (m' & Hst & Hi'); [|lia|].
    { intros o j Hj ->. specialize (Hd _ _ Hj). pose proof (used_at_ok _ _ _ Hok Hj). lia. }
    exists (base + off + 64), m', (relock 0 h'). split; [|done]. erewrite locked_run by exact Hrun. by rewrite Hk1.
  - exists 0, m, h. split_and!; [|apply a_malloc_null|done]. erewrite locked_run by exact Ha. unfold h1. by rewrite relock_back.
Qed.

(** The block of a live pointer. *)
Lemma live_block m bs p k : owns (used_at bs) m -> live m !! p = Some k ->
  exists off n, p = base + off + 64 /\ used_at bs off n /\ 0 < k <= n - 64.
Proof.
  intros [H1 _] Hp. destruct (H1 _ _ Hp) as (? & n & Hn & ?). exists (p - base - 64), n. split; [by rewrite ptr_eq|]. split; [done|lia].
Qed.

(** A block given back. *)
Lemma old_sim m h1 h' bs bs' off k :
  owns (used_at bs) m -> holds (words h1) m -> rep h' bs' -> others_same base (words h1) (words h') bs off -> heap_lock h' = 1 ->
  live m !! (base + off + 64) = Some k -> (forall o j, used_at bs' o j <-> used_at bs o j /\ o <> off) ->
  implements (release (base + off + 64) k m) (relock 0 h').
Proof.
  intros Ho Hh Hrep Hs Hk Hp HU. exists bs'. split; [by apply rep_relock|]. split; [done|]. split; [|by eapply holds_release].
  destruct (owns_release _ _ off k Ho) as [H1 H2]. split.
  - intros q j Hq. destruct (H1 _ _ Hq) as (? & n & Hn & ?). split; [done|]. exists n. split; [by apply HU|done].
  - intros o j Hj. apply (H2 o j). by apply HU.
Qed.

Lemma free_sim m h p :
  implements m h -> p = 0 \/ is_Some (live m !! p) ->
  exists m' h', rt_free p h = Ret (tt, h') /\ astep m (Free p) 0 m' /\ implements m' h'.
Proof.
  intros Hi Hp. unfold rt_free. destruct (Z.eqb_spec p 0) as [->|Hz]; [exists m, h; split_and!; [done|apply a_free_null|done]|].
  destruct Hp as [?|[k Hp]]; [done|].
  apply (implements_relock _ _ (heap_lock h + 1)) in Hi as (bs & Hrep & Hk & Ho & Hh).
  destruct (live_block _ _ _ _ Ho Hp) as (off & n & -> & Hu & Hkn).
  pose proof (rep_ok _ _ _ _ _ Hrep) as Hok. pose proof (rep_chain _ _ _ _ _ Hrep) as [_ Hsep].
  destruct (free_rep _ _ _ G _ bs off n Hrep Hu) as (h' & bs' & Hf & Hrun & Hrep' & Hs & _ & Hk').
  destruct (free_at_spec _ _ _ Hok Hsep Hu) as (bs2 & Hf2 & _ & HU). rewrite Hf in Hf2. injection Hf2 as <-.
  assert (Hk1 : heap_lock h' = 1) by (rewrite Hk'; cbn; lia).
  exists (release (base + off + 64) k m), (relock 0 h'). split_and!.
  - erewrite locked_run by exact Hrun. by rewrite Hk1.
  - by apply a_free.
  - by eapply old_sim.
Qed.

Lemma write_sim m h a v :
  implements m h -> live_word m a ->
  exists m' h', store a v h = Ret (tt, h') /\ astep m (Write a v) 0 m' /\ implements m' h'.
Proof.
  intros (bs & Hrep & Hk & Ho & Hh) Hl. pose proof Hl as (p & k & i & Hp & -> & Hi & Hik).
  destruct (live_block _ _ _ _ Ho Hp) as (off & n & -> & Hu & Hkn).
  destruct (write_rep _ _ _ G h bs off n i v Hrep Hu Hi ltac:(lia)) as (h' & Hrun & Hrep' & Hw & Hk').
  eexists _, h'. split; [exact Hrun|]. split; [by apply a_write|]. exists bs. split; [done|]. split; [congruence|]. split; [done|].
  intros b x Hb. cbn in Hb. rewrite Hw. unfold put_word. destruct (b =? _) eqn:E; [|by apply Hh in Hb].
  apply Z.eqb_eq in E as ->. by injection Hb as ->.
Qed.

Lemma realloc_null_sim m h n :
  implements m h -> 0 <= n <= 2 ^ 32 - 64 ->
  exists r m' h', rt_realloc 0 n h = Ret (r, h') /\ astep m (Realloc 0 n) r m' /\ implements m' h'.
Proof.
  intros Hi Hn. destruct (align_size n Hn) as (Hs & _ & Hns). set (size := RT_ALIGN n RT_ALIGN_SIZE) in *.
  pose proof Hi as (bs & Hrep & _). destruct (rep_object _ _ _ _ _ Hrep) as (_ & _ & _ & Emsz & _).
  assert (E : rt_realloc 0 n h = if msz <? size then Ret (0, h) else if size =? 0 then Ret (0, h) else locked (rt_smem_alloc size) h).
  { unfold rt_realloc, rt_smem_realloc, locked, heap_lock_take. fold size. rewrite !bind_modify. cbv zeta.
    set (h1 := mkHeap _ _ _ _). assert (Hrep1 : rep h1 bs) by (by apply (rep_relock (heap_lock h + 1) h)).
    destruct (rep_object _ _ _ _ _ Hrep1) as (_ & _ & _ & Emsz1 & Hobj).
    rewrite bind_assoc, Hobj, bind_assoc. unfold sget. rewrite bind_gets, Emsz1.
    pose proof (relock_back h) as Hb. unfold relock in Hb. cbn in Hb.
    destruct (msz <? size); [cbn; by rewrite Hb|]. destruct (size =? 0); [cbn; by rewrite Hb|done]. }
  rewrite E. destruct (msz <? size); [exists 0, m, h; split_and!; [done|apply a_realloc_new, a_malloc_null|done]|].
  destruct (Z.eqb_spec size 0); [exists 0, m, h; split_and!; [done|apply a_realloc_new, a_malloc_null|done]|].
  assert (n <> 0). { intros ->. destruct (align_size 0); [lia|]. subst size. by rewrite align_up_64 in *. }
  destruct (alloc_sim m h n size Hi) as (r & m' & h' & Hrun & Hst & Hi'); [lia|lia|lia|].
  exists r, m', h'. split_and!; [done|by apply a_realloc_new|done].
Qed.

(** The data of a block that has been moved or resized. *)
Lemma holds_moved h h' m bs off off' n k c j :
  owns (used_at bs) m -> holds (words h) m -> Forall block_ok bs -> used_at bs off n -> live m !! (base + off + 64) = Some k -> k <= n - 64 ->
  0 < j <= c -> others_same base (words h) (words h') bs off -> moved base h h' off off' n c ->
  (forall o i, used_at bs o i -> o <> off -> o <> off') ->
  let P := base + off + 64 in let Q := base + off' + 64 in
  holds (words h') (mkAmem (<[Q := j]> (delete P (live m)))
     (fun a => if (Q <=? a) && (a + 4 <=? Q + Z.min k j) then contents m (P + (a - Q)) else contents (release P k m) a)).
Proof.
  intros Ho Hh Hok Hu Hp Hk Hj Hs Hm Hne P Q a v Ha. cbn [contents] in Ha.
  assert (Hdel : live (release P k m) !! Q = None).
  { cbn. apply lookup_delete_None. destruct (decide (P = Q)) as [|Hpq]; [by left|right].
    destruct (live m !! Q) as [y|] eqn:E; [|done]. destruct (live_block _ _ _ _ Ho E) as (o & i & Eo & Hi & _).
    unfold P, Q in *. assert (o = off') as -> by lia. by destruct (Hne off' i Hi ltac:(lia)). }
  destruct ((Q <=? a) && (a + 4 <=? Q + Z.min k j)) eqn:E.
  - apply andb_true_iff in E as [E1 E2]. apply Z.leb_le in E1, E2. apply Hh in Ha as [<- (p & y & i & Hy & Ea & Hi & Hiy)].
    destruct (live_block _ _ _ _ Ho Hy) as (o & x & -> & Hx & Hyx).
    assert (o = off) as ->.
    { destruct (Z.eq_dec o off); [done|]. pose proof (used_disjoint _ _ _ _ _ Hok Hu Hx). unfold P in *. lia. }
    assert (a = Q + 4 * i) as -> by (unfold P in *; lia). split.
    + unfold P, Q in *. replace (base + off + 64 + (base + off' + 64 + 4 * i - (base + off' + 64))) with (base + off + 64 + 4 * i) by lia.
      apply Hm; lia.
    + exists Q, j, i. split; [apply lookup_insert_eq|]. lia.
  - pose proof (holds_release _ _ _ _ _ _ Hh Ho Hp Hs a v Ha) as [? Hl]. split; [done|].
    by apply (live_word_insert (release P k m)).
Qed.

Lemma realloc_sim m h p n :
  implements m h -> p = 0 \/ is_Some (live m !! p) -> 0 <= n <= 2 ^ 32 - 64 ->
  exists r m' h', rt_realloc p n h = Ret (r, h') /\ astep m (Realloc p n) r m' /\ implements m' h'.
Proof.
  intros Hi [->|[k Hp]] Hn; [by apply realloc_null_sim|]. destruct (align_size n Hn) as (Hs & Hsm & Hns).
  pose proof Hi as Himpl. apply (implements_relock _ _ (heap_lock h + 1)) in Hi as (bs & Hrep & Hk & Ho & Hh).
  destruct (live_block _ _ _ _ Ho Hp) as (off & n0 & -> & Hu & Hkn).
  pose proof (rep_ok _ _ _ _ _ Hrep) as Hok. pose proof (rep_chain _ _ _ _ _ Hrep) as [_ Hsep].
  destruct (Hu) as (p' & q' & -> & ->). pose proof (geo _ _ _ G) as (_ & Gm & _).
  destruct (realloc_rep _ _ _ G _ p' q' n0 n Hrep Hn) as (h' & Hrun & Hrep' & Hoth & Hk' & Hres).
  pose proof (resize_spec msz (RT_ALIGN n RT_ALIGN_SIZE) p' q' n0 Hok Hsep ltac:(lia) ltac:(lia) Hsm) as HU. cbv zeta in HU.
  assert (Hk1 : heap_lock h' = 1) by (rewrite Hk'; cbn; lia).
  assert (Hrl : rt_realloc (base + extent p' + 64) n h = Ret (match fst (resize msz (RT_ALIGN n RT_ALIGN_SIZE) (extent p') n0 p' q') with
      Some off' => base + off' + 64 | None => 0 end, relock 0 h')) by (unfold rt_realloc; erewrite locked_run by exact Hrun; by rewrite Hk1).
  destruct (Z.eq_dec n 0) as [->|Hn0].
  { assert (Ez : RT_ALIGN 0 RT_ALIGN_SIZE = 0) by by rewrite align_up_64. rewrite Ez in *. unfold resize in *.
    destruct (Z.ltb_spec msz 0); [lia|]. eexists 0, _, (relock 0 h'). split; [exact Hrl|]. split; [by apply a_realloc_free|].
    eapply old_sim; [exact Ho|exact Hh|exact Hrep'|exact Hoth|done|done|exact HU]. }
  destruct (resize msz _ _ n0 p' q') as [[off'|] bs']; cbn [fst snd] in *.
  - destruct HU as (c & Hc & HU & Hne). eexists _, _, (relock 0 h'). split; [exact Hrl|].
    assert (Hor : owns (fun o j => used_at (p' ++ (n0, true) :: q') o j /\ o <> extent p') (release (base + extent p' + 64) k m)) by by apply owns_release.
    pose proof (rep_ok _ _ _ _ _ Hrep') as Hok'. pose proof (rep_chain _ _ _ _ _ Hrep') as [Hw' _]. split.
    + apply (a_realloc _ _ m _ k); [done|lia|]. eapply fresh_block; [exact Hok'|by eapply chain_extent|apply HU; by left|lia|exact Hor|].
      intros o j [Hj Hno]. split; [apply HU; by right|by eapply Hne].
    + exists bs'. split; [by apply rep_relock|]. split; [done|]. split.
      * eapply (owns_insert _ _ (release (base + extent p' + 64) k m) off' c n); [exact Hor|exact HU|lia].
      * eapply holds_moved; [exact Ho|exact Hh|exact Hok|exact Hu|exact Hp|lia| |exact Hoth|exact Hres|exact Hne]. lia.
  - assert (Hz : RT_ALIGN n RT_ALIGN_SIZE <> 0) by lia. specialize (Hres Hz). rewrite Hres in Hrl.
    exists 0, m, h. split; [|split; [by apply a_realloc_null|done]]. rewrite Hrl. subst h'. f_equal. f_equal.
    destruct h as [a b c' l]. unfold relock. cbn in *. by subst.
Qed.

(** One call of a client. *)
Lemma call_sim m h c :
  implements m h -> legal m c ->
  exists r m' h', call_run c h = Ret (r, h') /\ astep m c r m' /\ implements m' h'.
Proof.
  intros Hi Hl. destruct c as [n|p|p n|a v]; cbn [call_run legal] in *.
  - apply (alloc_sim m h n n Hi); [lia|lia|done].
  - destruct (free_sim m h p Hi Hl) as (m' & h' & Hrun & H). exists 0, m', h'. by rewrite (bind_Ret _ _ _ _ _ Hrun).
  - apply realloc_sim; tauto.
  - destruct (write_sim m h a v Hi Hl) as (m' & h' & Hrun & H). exists 0, m', h'. by rewrite (bind_Ret _ _ _ _ _ Hrun).
Qed.
End sim.
