(* ===== verification/SmemHeap.v ===== *)
(** * What the heap promises

    The theorems on [rt_smem_alloc], [rt_smem_free], [rt_smem_realloc] and the functions of
    [kservice.c], for a heap in any state its clients can bring it to. *)

From Stdlib Require Import ZArith Lia Bool.
From stdpp Require Import base tactics numbers list option gmap.
From S2P Require Import Prelude Smem SmemChain SmemAlloc SmemFree SmemRep SmemRealloc SmemClient.

Open Scope Z_scope.

(** ** Clients *)

(** What a client's calls can lead to from a heap. *)
Inductive session (lo hi : Z) (h0 : heap) : amem -> heap -> Prop :=
  | s_start : session lo hi h0 (mkAmem ∅ (fun _ => None)) h0
  | s_call m h c r m' h' :
      session lo hi h0 m h -> legal m c -> call_run c h = Ret (r, h') -> astep lo hi m c r m' -> session lo hi h0 m' h'.

(** The first address a client can get, and the end of the last block. *)
Definition heap_low (begin_addr : Z) : Z := heap_base begin_addr + 64.
Definition heap_high (begin_addr size : Z) : Z := heap_base begin_addr + (heap_room begin_addr size + 64).

Lemma live_zero self0 base msz m h : geometry self0 base msz -> implements self0 base msz m h -> live m !! 0 = None.
Proof.
  intros G (bs & Hrep & _ & Ho & _). destruct (live m !! 0) eqn:E; [|done].
  destruct (live_block _ _ _ _ _ Ho E) as (off & n & Hz & Hu & _). apply used_at_ok in Hu; [|by eapply rep_ok].
  pose proof (geo _ _ _ G). lia.
Qed.

Lemma session_implements begin_addr size w h0 m h :
  0 < begin_addr -> 512 <= size -> begin_addr + size < 2 ^ 32 -> rt_smem_init begin_addr size w = Some h0 ->
  session (heap_low begin_addr) (heap_high begin_addr size) h0 m h ->
  implements (heap_self begin_addr) (heap_base begin_addr) (heap_room begin_addr size) m h.
Proof.
  intros Hb Hs He Hinit. pose proof (init_geometry _ _ Hb Hs He) as G.
  assert (Hlo : 0 < heap_low begin_addr) by (pose proof (geo _ _ _ G); unfold heap_low; lia). induction 1 as [|m h c r m' h' _ IH Hl Hrun Hst].
  - destruct (init_run _ _ Hb Hs He w) as (h & E & Hrep & Hk). rewrite Hinit in E. injection E as <-.
    eexists. split; [exact Hrep|]. split; [done|]. split; [split; [done|]|done].
    intros off n Hu. by apply used_free_only in Hu; [|repeat constructor].
  - destruct (call_sim _ _ _ G m h c IH Hl) as (r2 & m2 & h2 & Hrun2 & Hst2 & Hi). rewrite Hrun in Hrun2.
    injection Hrun2 as <- <-. by rewrite (astep_det _ _ _ _ _ _ _ Hlo (live_zero _ _ _ _ _ G IH) Hst Hst2).
Qed.

Lemma implements_disjoint self0 base msz m h p k q j :
  implements self0 base msz m h -> live m !! p = Some k -> live m !! q = Some j -> p <> q -> p + k <= q \/ q + j <= p.
Proof.
  intros (bs & Hrep & _ & Ho & _) Hp Hq Hne. destruct (live_block _ _ _ _ _ Ho Hp) as (o1 & n1 & -> & Hu1 & ?).
  destruct (live_block _ _ _ _ _ Ho Hq) as (o2 & n2 & -> & Hu2 & ?).
  destruct (used_disjoint _ _ _ _ _ (rep_ok _ _ _ _ _ Hrep) Hu1 Hu2); lia.
Qed.

Lemma implements_inside self0 base msz m h p k :
  geometry self0 base msz -> implements self0 base msz m h -> live m !! p = Some k ->
  p mod 64 = 0 /\ base + 64 <= p /\ p + k <= base + (msz + 64).
Proof.
  intros G (bs & Hrep & _ & Ho & _) Hp. destruct (live_block _ _ _ _ _ Ho Hp) as (o & n & -> & Hu & ?).
  pose proof (rep_chain _ _ _ _ _ Hrep) as [Hw _]. apply chain_extent in Hw.
  apply used_at_ok in Hu as (_ & _ & ? & Hm & ?); [|by eapply rep_ok]. split; [|lia].
  destruct G as (_ & _ & _ & Hb & _). by rewrite (Z.add_mod (base + o)), (Z.add_mod base), Hb, Hm by lia.
Qed.

Lemma implements_reads self0 base msz m h a v :
  geometry self0 base msz -> implements self0 base msz m h -> contents m a = Some v -> load a h = Ret (v, h).
Proof.
  intros G (bs & Hrep & _ & Ho & Hh) Ha. apply Hh in Ha as [<- (p & k & i & Hp & -> & Hi & Hk)].
  destruct (live_block _ _ _ _ _ Ho Hp) as (o & n & -> & Hu & ?). apply (read_rep _ _ _ G h bs o n i); (done || lia).
Qed.

(** C20: the heap implements the abstract memory.  After any sequence of legal calls every
    further legal call of [rt_malloc], [rt_free] and [rt_realloc] and every write to a live
    block returns and does what the abstract memory allows, the live blocks are apart,
    aligned to 64 and between the ends of the heap, and every word written reads back. *)
Theorem heap_sessions begin_addr size w h0 m h :
  let lo := heap_low begin_addr in let hi := heap_high begin_addr size in
  0 < begin_addr -> 512 <= size -> begin_addr + size < 2 ^ 32 -> rt_smem_init begin_addr size w = Some h0 ->
  session lo hi h0 m h ->
  (forall c, legal m c -> exists r m' h', call_run c h = Ret (r, h') /\ astep lo hi m c r m' /\ session lo hi h0 m' h') /\
  (forall p k, live m !! p = Some k -> p mod 64 = 0 /\ lo <= p /\ p + k <= hi) /\
  (forall p k q j, live m !! p = Some k -> live m !! q = Some j -> p <> q -> p + k <= q \/ q + j <= p) /\
  (forall a v, contents m a = Some v -> load a h = Ret (v, h)) /\ heap_lock h = 0.
Proof.
  intros lo hi Hb Hs He Hinit Hses. pose proof (init_geometry _ _ Hb Hs He) as G.
  pose proof (session_implements _ _ _ _ _ _ Hb Hs He Hinit Hses) as Hi. split_and!.
  - intros c Hl. destruct (call_sim _ _ _ G m h c Hi Hl) as (r & m' & h' & Hrun & Hst & _).
    exists r, m', h'. split; [done|]. split; [exact Hst|]. by eapply s_call.
  - intros p k. by apply implements_inside with (h := h) (self0 := heap_self begin_addr).
  - intros p k q j. by eapply implements_disjoint.
  - intros a v. by eapply implements_reads.
  - by destruct Hi as (? & _ & ? & _).
Qed.

Lemma block_size_le n m : 0 < n <= m -> 64 <= m <= 2 ^ 32 - 64 -> m mod 64 = 0 -> block_size n <= m.
Proof.
  intros Hn Hm Hmm. unfold block_size. change MIN_SIZE_ALIGNED with 64. destruct (align_size n) as (_ & Ha & Hb); [lia|].
  destruct (Z.ltb_spec (RT_ALIGN n RT_ALIGN_SIZE) 64); [lia|]. apply Z.mod_divide in Ha as [a Ha], Hmm as [b ->]; lia.
Qed.

Lemma unused_one bs : sep bs -> extent bs <> 0 -> (forall o j, ~ used_at bs o j) -> bs = [(extent bs, false)].
Proof.
  intros Hsep He Hu. destruct bs as [|[n [|]] bs]; [done|by destruct (Hu 0 n); exists [], bs|].
  destruct Hsep as [Hh _]. specialize (Hh eq_refl). destruct bs as [|[k [|]] bs]; [|by destruct (Hu (n + 0) k); exists [(n, false)], bs|done].
  cbn. by rewrite Z.add_0_r.
Qed.

(** C24: nothing leaks.  When a client has given back all it took, the heap is one free block
    again: no byte counts as used, and one call gets all of it. *)
Theorem heap_no_leak begin_addr size w h0 m h n :
  let lo := heap_low begin_addr in let hi := heap_high begin_addr size in
  0 < begin_addr -> 512 <= size -> begin_addr + size < 2 ^ 32 -> rt_smem_init begin_addr size w = Some h0 ->
  session lo hi h0 m h -> live m = ∅ -> 0 < n <= heap_room begin_addr size ->
  mem_used (small_mem h) = 0 /\ lfree (small_mem h) = heap_ptr (small_mem h) /\ exists h', rt_malloc n h = Ret (lo, h').
Proof.
  intros lo hi Hb Hs He Hinit Hses Hemp Hn. pose proof (init_geometry _ _ Hb Hs He) as G.
  destruct (session_implements _ _ _ _ _ _ Hb Hs He Hinit Hses) as (bs & Hrep & Hk & [_ Ho] & _).
  pose proof (rep_chain _ _ _ _ _ Hrep) as [Hw Hsep]. pose proof (chain_extent _ _ _ _ _ Hw) as Hext.
  pose proof (geo _ _ _ G) as (G0 & Gm & Gb). assert (Hone : bs = [(extent bs, false)]).
  { apply unused_one; [done|lia|]. intros o j Hu. apply Ho in Hu as [x Hx]. by rewrite Hemp in Hx. }
  rewrite Hone, Hext in Hrep. pose proof Hrep as (w' & mx & E & _). split_and!; [by rewrite E|by rewrite E; cbn; rewrite Z.add_0_r|].
  pose proof (alloc_rep _ _ _ G _ _ n (rep_relock _ _ _ (heap_lock h + 1) _ _ Hrep) ltac:(lia)) as Ha.
  assert (Hsz : block_size n <= heap_room begin_addr size).
  { apply block_size_le; [lia|lia|]. by destruct G as (_ & _ & _ & _ & _ & ? & _). }
  unfold alloc_blocks in Ha. cbn [first_fit negb andb] in Ha. destruct (Z.leb_spec (block_size n) (heap_room begin_addr size + 64 - 64)); [|lia].
  destruct Ha as (h' & Hrun & _). eexists. unfold rt_malloc. erewrite locked_run by exact Hrun. cbn [extent].
  unfold lo, heap_low. by rewrite Z.add_0_r.
Qed.


(** ** The operations of [mem.c] *)

Section operations.
Variables self0 base msz : Z.
Hypothesis G : geometry self0 base msz.
#[local] Abbreviation rep := (rep self0 base msz).

(** The release of a pointer whose item is free, or was joined with another. *)
Lemma double_free h bs off :
  rep h bs -> 0 <= off <= msz + 64 -> off mod 64 = 0 -> gone self0 base (words h) off ->
  rt_smem_free (base + off + 64) h = AssertFail.
Proof.
  intros Hrep Ho Hm Hg. pose proof (geo _ _ _ G) as (Gb & Gm & Ge). assert (Hoff : is_off msz off) by done.
  unfold rt_smem_free. destruct (Z.eqb_spec (base + off + 64) 0); [lia|]. change SIZEOF_STRUCT_MEM with 64.
  rewrite bind_assert by (apply Z.eqb_eq, land_63; by rewrite Z.add_mod, (base_aligned _ _ _ G _ Hoff) by lia).
  replace (base + off + 64 - 64) with (base + off) by lia. rewrite (u32_small (base + off)) by (unfold is_u32; lia).
  destruct Hrep as (w & m & E & _). assert (Ew : words h = w) by (by rewrite E). rewrite Ew in Hg. rewrite E. destruct Hg as [Hg|Hg].
  - destruct (self_even _ _ _ G) as [_ Hs]. rewrite (pool_run _ _ _ G _ false) by done.
    rewrite bind_assert by (by destruct (Z.eqb_spec self0 0); [lia|]). by rewrite (isused_run _ _ _ G _ false).
  - unfold MEM_POOL. rewrite bind_assoc, (pool_ptr_run _ _ _ G), Hg by done. done.
Qed.

(** No free block of these has room. *)
Definition no_room (size : Z) (bs : list block) : Prop := Forall (fun b => snd b = false -> fst b - 64 < size) bs.

Lemma first_fit_None size bs : first_fit size bs = None -> no_room size bs.
Proof.
  induction bs as [|[n u] bs IH]; cbn; [by constructor|]. destruct u; cbn.
  - destruct (first_fit size bs) as [[[? ?] ?]|]; [done|]. intros _. constructor; [done|by apply IH].
  - destruct (Z.leb_spec size (n - 64)); [done|]. destruct (first_fit size bs) as [[[? ?] ?]|]; [done|]. intros _.
    constructor; [done|by apply IH].
Qed.

Lemma first_fit_before size bs p n q : first_fit size bs = Some (p, n, q) -> no_room size p.
Proof.
  revert p. induction bs as [|[m u] bs IH]; intros p; cbn; [done|].
  destruct u; cbn [negb andb]; [|destruct (Z.leb_spec size (m - 64)); [intros [= <- <- <-]; by constructor|]];
    (destruct (first_fit size bs) as [[[p' k] r]|]; [|done]); intros [= <- <- <-]; (constructor; [done|by apply IH]).
Qed.

(** A block given back at once leaves the blocks as they were. *)
Lemma carve_undone size n p q :
  sep (p ++ (n, false) :: q) ->
  exists c rest, carve size n = (c, true) :: rest /\ joined p c (rest ++ q) = p ++ (n, false) :: q.
Proof.
  intros Hsep. pose proof Hsep as H. apply sep_app in H as (Hp & [Hq _] & Hl). specialize (Hq eq_refl).
  assert (Hlast : last_used p) by (by destruct Hl). unfold carve. destruct (_ <=? _).
  - exists (size + 64), [(n - size - 64, false)]. split; [done|]. rewrite joined_used by done. cbn.
    by replace (size + 64 + (n - size - 64)) with n by lia.
  - exists n, []. split; [done|]. rewrite joined_used by done. cbn. by destruct q as [|[k [|]] q].
Qed.

Lemma alloc_free_blocks size bs off bs' :
  Forall block_ok bs -> sep bs -> alloc_blocks size bs = Some (off, bs') -> free_at off bs' = Some bs.
Proof.
  unfold alloc_blocks. intros Hok Hsep. destruct (first_fit size bs) as [[[p n] q]|] eqn:E; [|done]. intros [= <- <-].
  apply first_fit_Some in E as [-> _]. destruct (carve_undone size n p q Hsep) as (c & rest & -> & Hj).
  cbn [app]. rewrite free_at_joined, Hj; [done|]. by apply Forall_app in Hok as [? _].
Qed.

(** C8: allocation is first fit.  [rt_smem_alloc] takes the first free block with room for the
    size rounded up, splits off what can be a block of its own, and leaves all data alone;
    it returns NULL, changing nothing, only when no free block has room.  Giving the block
    back at once restores the blocks. *)
Theorem smem_alloc_first_fit h bs size :
  rep h bs -> 0 < size <= 2 ^ 32 - 64 ->
  let sz := block_size size in
  match first_fit sz bs with
  | None => no_room sz bs /\ rt_smem_alloc size h = Ret (0, h)
  | Some (p, n, q) =>
      let ptr := base + extent p + 64 in
      bs = p ++ (n, false) :: q /\ no_room sz p /\ sz <= n - 64 /\
      exists h', rt_smem_alloc size h = Ret (ptr, h') /\ rep h' (p ++ carve sz n ++ q) /\
        used_same base (words h) (words h') bs /\
        exists h'', rt_smem_free ptr h' = Ret (tt, h'') /\ rep h'' bs
  end.
Proof.
  intros Hrep Hs sz. pose proof (alloc_rep _ _ _ G h bs size Hrep Hs) as Ha. fold sz in Ha. unfold alloc_blocks in Ha.
  destruct (first_fit sz bs) as [[[p n] q]|] eqn:E; [|split; [by apply first_fit_None|done]].
  pose proof (first_fit_before _ _ _ _ _ E). apply first_fit_Some in E as [-> Hfit].
  destruct Ha as (h' & Hrun & Hrep' & Hsame & _). split; [done|]. split; [done|]. split; [done|].
  exists h'. split; [done|]. split; [done|]. split; [done|]. pose proof (rep_chain _ _ _ _ _ Hrep) as [_ Hsep].
  destruct (carve_undone sz n p q Hsep) as (c & rest & Hc & Hj). pose proof (rep_ok _ _ _ _ _ Hrep') as Hok'.
  rewrite Hc in Hrep', Hok'. destruct (free_rep _ _ _ G h' (p ++ (c, true) :: rest ++ q) (extent p) c Hrep') as (h'' & bs' & Hf & Hrun' & Hrep'' & _).
  { by exists p, (rest ++ q). }
  rewrite free_at_joined, Hj in Hf by (by apply Forall_app in Hok' as [? _]). injection Hf as <-. by exists h''.
Qed.

(** Release.  [rt_smem_free] of a block in use joins it with the free blocks beside it,
    gives back its bytes, and leaves the other blocks' data alone; a second release of the
    same pointer stops at an assertion. *)
Theorem smem_free_spec h bs off n :
  rep h bs -> used_at bs off n ->
  let ptr := base + off + 64 in
  exists h' bs', rt_smem_free ptr h = Ret (tt, h') /\ free_at off bs = Some bs' /\ rep h' bs' /\
    (forall o j, used_at bs' o j <-> used_at bs o j /\ o <> off) /\
    others_same base (words h) (words h') bs off /\
    mem_used (small_mem h') = mem_used (small_mem h) - n /\
    rt_smem_free ptr h' = AssertFail.
Proof.
  intros Hrep Hu ptr. pose proof (rep_ok _ _ _ _ _ Hrep) as Hok. pose proof (rep_chain _ _ _ _ _ Hrep) as [Hw Hsep].
  destruct (free_at_spec _ _ _ Hok Hsep Hu) as (bs' & Hf & _ & Hiff).
  destruct (free_rep _ _ _ G h bs off n Hrep Hu) as (h' & bs2 & Hf2 & Hrun & Hrep' & Hoth & Hgone & _).
  rewrite Hf in Hf2. injection Hf2 as <-. exists h', bs'. split_and!; try done.
  - destruct Hrep as (w & m & -> & _), Hrep' as (w' & m' & -> & _). cbn. destruct Hu as (p & q & -> & ->).
    rewrite free_at_joined in Hf by (by apply Forall_app in Hok as [? _]). injection Hf as <-.
    rewrite joined_used_sum, used_sum_app. cbn. lia.
  - apply chain_extent in Hw. apply used_at_ok in Hu as (? & _ & ? & ? & ?); [|done]. apply (double_free h' bs'); (done || lia).
Qed.

(** Resizing.  [rt_smem_realloc] of a block in use returns NULL and changes nothing, or
    frees the block when the size is 0, or returns a block with room for the size that holds
    the data of the old one as far as both reach; the other blocks' data stays. *)
Theorem smem_realloc_spec h bs off n newsize :
  rep h bs -> used_at bs off n -> 0 <= newsize <= 2 ^ 32 - 64 ->
  let size := RT_ALIGN newsize RT_ALIGN_SIZE in
  exists r h' bs', rt_smem_realloc (base + off + 64) newsize h = Ret (r, h') /\ rep h' bs' /\
    others_same base (words h) (words h') bs off /\
    (r = 0 /\ newsize <> 0 /\ h' = h \/
     r = 0 /\ newsize = 0 /\ (forall o j, used_at bs' o j <-> used_at bs o j /\ o <> off) \/
     exists off' c, r = base + off' + 64 /\ newsize <> 0 /\ size + 64 <= c /\ moved base h h' off off' n size /\
       (forall o j, used_at bs' o j <-> (o = off' /\ j = c) \/ (used_at bs o j /\ o <> off))).
Proof.
  intros Hrep Hu Hs size. pose proof (rep_ok _ _ _ _ _ Hrep) as Hok. pose proof (rep_chain _ _ _ _ _ Hrep) as [_ Hsep].
  pose proof Hu as (p & q & -> & ->). destruct (align_size newsize Hs) as (Hz & Hzm & Hns). fold size in Hz, Hzm, Hns.
  pose proof (geo _ _ _ G) as (_ & Gm & _).
  destruct (realloc_rep _ _ _ G h p q n newsize Hrep Hs) as (h' & Hrun & Hrep' & Hoth & _ & Hres). fold size in Hrun, Hrep', Hres.
  pose proof (resize_spec msz size p q n Hok Hsep ltac:(lia) ltac:(lia) Hzm) as HU. cbv zeta in HU.
  assert (H0 : size = 0 <-> newsize = 0).
  { split; [lia|]. intros ->. unfold size. by rewrite align_up_64. }
  assert (Hnone : size = 0 -> exists r, resize msz size (extent p) n p q = (None, r)).
  { intros ->. unfold resize. destruct (Z.ltb_spec msz 0); [lia|]. by eexists. }
  destruct (resize msz size (extent p) n p q) as [[off'|] bs']; cbn [fst snd] in *;
    (eexists _, h', bs'; split; [exact Hrun|]; split; [done|]; split; [done|]).
  - right; right. destruct HU as (c & Hc & HU & _). exists off', c. split_and!; try done.
    rewrite <-H0. intros E. by destruct (Hnone E).
  - destruct (Z.eqb_spec size 0) as [E|E]; [right; left|left]; rewrite <-H0; auto.
Qed.
End operations.

(** ** Examples: a heap of 4096 bytes *)

Definition heap_4k : heap :=
  match rt_smem_init 0x80000000 4096 (fun _ => 0) with
  | Some h => h
  | None => mkHeap 0 (mkSmem 0 0 0 0 0 0 0 0) (fun _ => 0) 0
  end.

Lemma heap_4k_geometry : geometry 0x80000000 0x80000040 3904.
Proof. unfold geometry. split_and!; done. Qed.

Lemma heap_4k_rep : rep 0x80000000 0x80000040 3904 heap_4k [(3968, false)].
Proof. by destruct (init_run 0x80000000 4096 ltac:(lia) ltac:(lia) ltac:(lia) (fun _ => 0)) as (h & [= <-] & H & _). Qed.

(** The same heap with a block of 128 bytes in use in front. *)
Lemma heap_4k_used : exists h, rep 0x80000000 0x80000040 3904 h [(128, true); (3840, false)].
Proof.
  pose proof (alloc_rep _ _ _ heap_4k_geometry _ _ 50 heap_4k_rep ltac:(lia)) as H. cbn in H.
  destruct H as (h & _ & H & _). by exists h.
Qed.

Lemma heap_sessions_witness : exists m h,
  session (heap_low 0x80000000) (heap_high 0x80000000 4096) heap_4k m h /\ live m !! 0x80000080 = Some 100 /\
  exists r h', call_run (Free 0x80000080) h = Ret (r, h').
Proof.
  assert (exists m h, session (heap_low 0x80000000) (heap_high 0x80000000 4096) heap_4k m h /\ live m !! 0x80000080 = Some 100)
    as (m & h & Hs & Hl).
  { eexists _, _. split.
    - eapply (s_call _ _ _ _ _ (Malloc 100)); [apply s_start|cbn; lia|vm_compute; reflexivity|].
      apply a_malloc; [lia|]. split_and!; [done|done|done|]. intros q k Hq. cbn in Hq. by apply lookup_empty_Some in Hq.
    - by apply lookup_insert_eq. }
  exists m, h. split; [exact Hs|]. split; [done|].
  destruct (heap_sessions 0x80000000 4096 (fun _ => 0) heap_4k _ _ ltac:(lia) ltac:(lia) ltac:(lia) eq_refl Hs) as [H _].
  destruct (H (Free 0x80000080)) as (r & m' & h' & Hrun & _); [|by exists r, h'].
  right. by exists 100.
Defined.

Lemma heap_no_leak_witness : exists h', rt_malloc 3904 heap_4k = Ret (0x80000080, h').
Proof.
  by destruct (heap_no_leak 0x80000000 4096 (fun _ => 0) heap_4k _ _ 3904 ltac:(lia) ltac:(lia) ltac:(lia) eq_refl
    (s_start _ _ _) eq_refl ltac:(split; [done|by vm_compute])) as (_ & _ & H).
Defined.

Lemma smem_alloc_first_fit_witness : exists h', rt_smem_alloc 100 heap_4k = Ret (0x80000080, h').
Proof.
  destruct (smem_alloc_first_fit _ _ _ heap_4k_geometry _ _ 100 heap_4k_rep ltac:(lia)) as (_ & _ & _ & h' & H & _).
  by exists h'.
Defined.

Lemma smem_free_spec_witness : exists h h', rt_smem_free 0x80000080 h = Ret (tt, h') /\ rt_smem_free 0x80000080 h' = AssertFail.
Proof.
  destruct heap_4k_used as [h Hrep].
  destruct (smem_free_spec _ _ _ heap_4k_geometry h _ 0 128 Hrep) as (h' & _ & Hrun & _ & _ & _ & _ & _ & Hd); [|by exists h, h'].
  by exists [], [(3840, false)].
Defined.

Lemma smem_realloc_spec_witness : exists h r h', rt_smem_realloc 0x80000080 1000 h = Ret (r, h').
Proof.
  destruct heap_4k_used as [h Hrep].
  destruct (smem_realloc_spec _ _ _ heap_4k_geometry h _ 0 128 1000 Hrep) as (r & h' & _ & Hrun & _); [|lia|by exists h, r, h'].
  by exists [], [(3840, false)].
Defined.
