(* ===== verification/SmemLib.v ===== *)
(** * Aligned and cleared blocks

    [rt_malloc_align], [rt_free_align] and [rt_calloc] of [kservice.c] on the heap. *)

From Stdlib Require Import ZArith Lia Bool.
From stdpp Require Import base tactics numbers list option gmap.
From S2P Require Import Prelude Smem SmemChain SmemAlloc SmemFree SmemRep SmemRealloc SmemClient SmemHeap.

Open Scope Z_scope.

Lemma land_not32 x j : 0 <= j < 32 -> is_u32 x -> Z.land x (not32 (2 ^ j - 1)) = 2 ^ j * (x / 2 ^ j).
Proof.
  intros Hj Hx. unfold not32. replace (2 ^ j - 1) with (Z.ones j) by (rewrite Z.ones_equiv; lia).
  unfold u32. rewrite <-(Z.land_ones _ 32), Z.land_comm, <-Z.land_assoc, (Z.land_comm _ x), Z.land_ones, Z.mod_small by (done || lia).
  rewrite Z.land_comm, <-Z.ldiff_land, Z.ldiff_ones_r, Z.shiftr_div_pow2, Z.shiftl_mul_pow2 by lia. lia.
Qed.

Lemma align4_spec x : 0 <= x <= 2 ^ 32 - 4 -> x <= align4 x < x + 4 /\ align4 x mod 4 = 0.
Proof.
  intros H. assert (E : align4 x = 4 * ((x + 3) / 4)).
  { unfold align4. rewrite u32_small by (unfold is_u32; lia). apply (land_not32 (x + 3) 2); [lia|unfold is_u32; lia]. }
  rewrite E, (Z.mul_comm 4), Z.mod_mul by lia. Z.div_mod_to_equations. lia.
Qed.

Lemma pow2_4 j : 2 <= j <= 20 -> 4 <= 2 ^ j <= 2 ^ 20 /\ 2 ^ j mod 4 = 0.
Proof.
  intros Hj. split; [split; [change 4 with (2 ^ 2)|]; apply Z.pow_le_mono_r; lia|].
  replace j with (j - 2 + 2) by lia. rewrite Z.pow_add_r by lia. apply Z.mod_mul. lia.
Qed.

Lemma align4_id x : 0 <= x <= 2 ^ 32 - 4 -> x mod 4 = 0 -> align4 x = x.
Proof. intros H Hm. destruct (align4_spec x H) as [Hb Hb4]. Z.div_mod_to_equations. lia. Qed.

(** Where the aligned block starts. *)
Definition aligned_at (ptr align : Z) : Z :=
  if Z.land ptr (u32 (align - 1)) =? 0 then u32 (ptr + align)
  else Z.land (u32 (ptr + u32 (align - 1))) (not32 (u32 (align - 1))).

Lemma aligned_at_spec ptr j :
  2 <= j <= 20 -> 0 < ptr -> ptr mod 64 = 0 -> ptr + 2 ^ j < 2 ^ 32 ->
  let p := aligned_at ptr (2 ^ j) in p mod 2 ^ j = 0 /\ ptr + 4 <= p <= ptr + 2 ^ j /\ p mod 4 = 0.
Proof.
  intros Hj Hp Hm Hb p. destruct (pow2_4 j Hj) as [Hpow H4].
  assert (Hp4 : ptr mod 4 = 0) by (by apply mod_64_4).
  assert (Ep : p = if ptr mod 2 ^ j =? 0 then ptr + 2 ^ j else 2 ^ j * ((ptr + (2 ^ j - 1)) / 2 ^ j)).
  { subst p. unfold aligned_at. rewrite (u32_small (2 ^ j - 1)) by (unfold is_u32; lia).
    rewrite (u32_small (ptr + 2 ^ j)), (u32_small (ptr + (2 ^ j - 1))) by (unfold is_u32; lia).
    rewrite land_not32 by (unfold is_u32; lia). replace (2 ^ j - 1) with (Z.ones j) at 1 by (rewrite Z.ones_equiv; lia).
    by rewrite Z.land_ones by lia. }
  rewrite Ep. destruct (Z.eqb_spec (ptr mod 2 ^ j) 0) as [E|E].
  - split; [|split; [lia|]].
    + rewrite Z.add_mod, E, Z.mod_same by lia. done.
    + by rewrite Z.add_mod, Hp4, H4 by lia.
  - split; [rewrite Z.mul_comm; apply Z.mod_mul; lia|]. set (d := (ptr + (2 ^ j - 1)) / 2 ^ j).
    assert (Hd : ptr < 2 ^ j * d <= ptr + (2 ^ j - 1)).
    { pose proof (Z.div_mod ptr (2 ^ j) ltac:(lia)) as Hq. pose proof (Z.mod_pos_bound ptr (2 ^ j) ltac:(lia)) as Hr.
      assert (d = ptr / 2 ^ j + 1) as -> by (symmetry; apply (Z.div_unique _ _ _ (ptr mod 2 ^ j - 1)); lia). lia. }
    assert (Hd4 : (2 ^ j * d) mod 4 = 0) by (by rewrite Z.mul_mod, H4 by lia).
    split; [|done]. split; [|lia]. apply Z.mod_divide in Hp4 as [a Ha], Hd4 as [b Hb4]; lia.
Qed.

Section lib.
Variables self0 base msz : Z.
Hypothesis G : geometry self0 base msz.
#[local] Abbreviation rep := (rep self0 base msz).

Lemma alloc_fresh h bs size :
  rep h bs -> 0 < size <= 2 ^ 32 - 64 ->
  rt_malloc size h = Ret (0, h) \/ exists off c h' bs', rt_malloc size h = Ret (base + off + 64, h') /\ rep h' bs' /\
    alloc_blocks (block_size size) bs = Some (off, bs') /\ used_at bs' off c /\ size + 64 <= c /\
    (forall o j, used_at bs o j -> used_at bs' o j /\ o <> off) /\ used_same base (words h) (words h') bs /\ heap_lock h' = heap_lock h.
Proof.
  intros Hrep Hs. pose proof (rep_ok _ _ _ _ _ Hrep) as Hok. pose proof (rep_chain _ _ _ _ _ Hrep) as [_ Hsep].
  destruct (block_size_spec size Hs) as (Hb & Hbm & Hbn).
  pose proof (alloc_rep _ _ _ G _ _ size (rep_relock _ _ _ (heap_lock h + 1) _ _ Hrep) Hs) as Ha.
  destruct (alloc_blocks (block_size size) bs) as [[off bs']|] eqn:E; [right|left].
  - destruct Ha as (h' & Hrun & Hrep' & Hsame & Hk).
    destruct (alloc_blocks_spec _ _ _ _ Hok Hsep (proj1 Hb) Hbm E) as (_ & _ & c & Hc & Hu & Hiff & Hd).
    exists off, c, (relock (heap_lock h' - 1) h'), bs'. split_and!; try done.
    + unfold rt_malloc. by erewrite locked_run by exact Hrun.
    + by apply rep_relock.
    + lia.
    + intros o j Ho. split; [apply Hiff; by right|]. specialize (Hd _ _ Ho). pose proof (used_at_ok _ _ _ Hok Ho). lia.
    + rewrite Hk. cbn. lia.
  - unfold rt_malloc. erewrite locked_run by exact Ha. by rewrite relock_back.
Qed.

Lemma rt_free_rep h bs off n :
  rep h bs -> used_at bs off n ->
  exists h' bs', rt_free (base + off + 64) h = Ret (tt, h') /\ free_at off bs = Some bs' /\ rep h' bs'.
Proof.
  intros Hrep Hu. pose proof (used_at_ok _ _ _ (rep_ok _ _ _ _ _ Hrep) Hu). pose proof (geo _ _ _ G).
  destruct (free_rep _ _ _ G _ bs off n (rep_relock _ _ _ (heap_lock h + 1) _ _ Hrep) Hu) as (h' & bs' & Hf & Hrun & Hrep' & _).
  unfold rt_free. destruct (Z.eqb_spec (base + off + 64) 0); [lia|].
  eexists _, bs'. split; [by erewrite locked_run by exact Hrun|]. split; [done|by apply rep_relock].
Qed.

(** C1: aligned blocks.  [rt_malloc_align] returns NULL, changing nothing, or a pointer that
    is a multiple of the alignment with the whole size inside a new block and a word of it
    in front; as long as that word stays, [rt_free_align] gives the block back and the
    blocks are the ones there were. *)
Theorem malloc_align_roundtrip h bs size j :
  rep h bs -> 2 <= j <= 20 -> 0 < size <= 2 ^ 30 ->
  exists r h', rt_malloc_align size (2 ^ j) h = Ret (r, h') /\
    (r = 0 /\ h' = h \/
     exists off c bs', rep h' bs' /\ used_at bs' off c /\ (forall o k, used_at bs o k -> used_at bs' o k /\ o <> off) /\
       r mod 2 ^ j = 0 /\ base + off + 64 + 4 <= r /\ r + size <= base + off + c /\
       used_same base (words h) (words h') bs /\
       forall h2, rep h2 bs' -> words h2 (r - 4) = words h' (r - 4) -> exists h3, rt_free_align r h2 = Ret (tt, h3) /\ rep h3 bs).
Proof.
  intros Hrep Hj Hs. destruct (pow2_4 j Hj) as [Hpow H4]. assert (Hal : align4 (2 ^ j) = 2 ^ j) by (apply align4_id; [lia|done]).
  destruct (align4_spec size ltac:(lia)) as [Ha4 Hm4]. pose proof (geo _ _ _ G) as (Gb & Gm & Ge).
  unfold rt_malloc_align. rewrite Hal. cbv zeta. rewrite (u32_small (align4 size + 2 ^ j)) by (unfold is_u32; lia).
  destruct (alloc_fresh h bs (align4 size + 2 ^ j) Hrep ltac:(lia)) as [Hrun|(off & c & h1 & bs1 & Hrun & Hrep1 & Hb & Hu & Hc & Hnew & Hsame & Hk)];
    rewrite (bind_Ret _ _ _ _ _ Hrun); [exists 0, h; auto|].
  pose proof (rep_ok _ _ _ _ _ Hrep1) as Hok1. pose proof (rep_chain _ _ _ _ _ Hrep1) as [Hw1 _]. apply chain_extent in Hw1.
  destruct (used_at_ok _ _ _ Hok1 Hu) as (_ & _ & Ho & Hom & Hle).
  assert (Hpm : (base + off + 64) mod 64 = 0).
  { destruct G as (_ & _ & _ & Hb6 & _). by rewrite (Z.add_mod (base + off)), (Z.add_mod base), Hb6, Hom by lia. }
  destruct (Z.eqb_spec (base + off + 64) 0); [lia|]. fold (aligned_at (base + off + 64) (2 ^ j)).
  destruct (aligned_at_spec (base + off + 64) j Hj ltac:(lia) Hpm ltac:(lia)) as (Hrm & Hrb & Hr4).
  set (r := aligned_at (base + off + 64) (2 ^ j)) in *. rewrite (u32_small (r - 4)) by (unfold is_u32; lia).
  assert (Hi : exists i, r - 4 = base + off + 64 + 4 * i /\ 0 <= i /\ 64 + 4 * i + 4 <= c).
  { apply mod_64_4 in Hpm. apply Z.mod_divide in Hpm as [a Ha], Hr4 as [b Hb4]; [|lia|lia]. exists (b - 1 - a). lia. }
  destruct Hi as (i & Ei & Hi & Hic). rewrite Ei.
  destruct (write_rep _ _ _ G h1 bs1 off c i (base + off + 64) Hrep1 Hu Hi Hic) as (h2 & Hrun2 & Hrep2 & Hw2 & _).
  rewrite (bind_Ret _ _ _ _ _ Hrun2). exists r, h2. split; [done|]. right. exists off, c, bs1.
  split_and!; try done; [lia|lia| |].
  - intros o k a Hok Hr. rewrite Hw2. destruct (Hnew _ _ Hok) as [Hok' Hne].
    pose proof (used_disjoint _ _ _ _ _ Hok1 Hok' Hu Hne). rewrite put_word_ne by lia. by apply (Hsame o k).
  - intros h3 Hrep3 Hword. rewrite Ei, Hw2, put_word_eq in Hword. unfold rt_free_align.
    destruct (Z.eqb_spec r 0); [lia|]. rewrite (u32_small (r - 4)) by (unfold is_u32; lia). rewrite Ei.
    erewrite bind_Ret by (by apply (read_rep _ _ _ G h3 bs1 off c i)). rewrite Hword.
    destruct (rt_free_rep h3 bs1 off c Hrep3 Hu) as (h4 & bs4 & Hrun4 & Hf & Hrep4).
    rewrite (alloc_free_blocks _ _ _ _ (rep_ok _ _ _ _ _ Hrep) (proj2 (rep_chain _ _ _ _ _ Hrep)) Hb) in Hf. injection Hf as <-.
    by exists h4.
Qed.

(** ** Clearing *)

Lemma zero_run c p w l u m k :
  (forall i, 0 <= i < Z.of_nat c -> is_word base msz (p + 4 * i)) ->
  exists w', zero_words c p (st self0 base msz w l u m k) = Ret (tt, st self0 base msz w' l u m k) /\
    (forall i, 0 <= i < Z.of_nat c -> w' (p + 4 * i) = 0) /\ (forall a, ~ (p <= a < p + 4 * Z.of_nat c) -> w' a = w a).
Proof.
  revert p w. induction c as [|c IH]; intros p w Hwd; cbn [zero_words].
  - exists w. split; [done|]. split; [intros i Hi; lia|done].
  - pose proof (Hwd 0 ltac:(lia)) as H0. rewrite Z.add_0_r in H0. rewrite (store_run _ _ _) by done.
    destruct (IH (p + 4) (put_word p 0 w)) as (w' & Hrun & Hz & Ho).
    { intros i Hi. replace (p + 4 + 4 * i) with (p + 4 * (i + 1)) by lia. apply Hwd. lia. }
    exists w'. split; [done|]. split.
    + intros i Hi. destruct (Z.eq_dec i 0) as [->|Hne].
      * rewrite Ho by lia. rewrite Z.add_0_r. apply put_word_eq.
      * replace (p + 4 * i) with (p + 4 + 4 * (i - 1)) by lia. apply Hz. lia.
    + intros a Ha. rewrite Ho by lia. by words.
Qed.

Lemma low_bytes_zero v n : 0 <= n -> Z.land v (Z.lnot (Z.ones n)) mod 2 ^ n = 0.
Proof.
  intros Hn. rewrite <-Z.ldiff_land, Z.ldiff_ones_r, Z.shiftl_mul_pow2 by lia. apply Z.mod_mul. lia.
Qed.

(** The first [n] bytes from [p] on are 0. *)
Definition cleared (w : Z -> Z) (p n : Z) : Prop :=
  (forall i, 0 <= i -> 4 * i + 4 <= n -> w (p + 4 * i) = 0) /\ w (p + 4 * (n / 4)) mod 2 ^ (8 * (n mod 4)) = 0.

Lemma zero_rep h bs off c n :
  rep h bs -> used_at bs off c -> 0 <= n <= c - 64 ->
  exists h', zero_bytes (base + off + 64) n h = Ret (tt, h') /\ rep h' bs /\ cleared (words h') (base + off + 64) n /\
    others_same base (words h) (words h') bs off.
Proof.
  intros Hrep Hu Hn. pose proof (rep_ok _ _ _ _ _ Hrep) as Hok. pose proof Hrep as (w & m & E & _).
  destruct (used_at_ok _ _ _ Hok Hu) as (Hc & Hcm & _). set (p := base + off + 64).
  assert (Hd : 4 * (n / 4) <= n < 4 * (n / 4) + 4 /\ 0 <= n / 4) by (Z.div_mod_to_equations; lia).
  destruct (zero_run (Z.to_nat (n / 4)) p w (base + lowest bs) (used_sum bs) m (heap_lock h)) as (w1 & Hrun & Hz & Ho).
  { intros i Hi. eapply used_word; try exact Hrep; eauto; lia. }
  rewrite Z2Nat.id in Hz, Ho by lia. rewrite <-E in Hrun. set (h1 := st _ _ _ w1 _ _ _ _) in Hrun.
  assert (Hrep1 : rep h1 bs).
  { rewrite E in Hrep. eapply data_rep; [exact Hrep|exact Hu|]. intros a Ha. apply Ho. unfold p. lia. }
  assert (Hoth : others_same base (words h) w1 bs off).
  { rewrite E. intros o k a Hk Hne Ha. apply Ho. pose proof (used_disjoint _ _ _ _ _ Hok Hk Hu Hne). unfold p. lia. }
  unfold zero_bytes. rewrite (bind_Ret _ _ _ _ _ Hrun). destruct (Z.eqb_spec (n mod 4) 0) as [Em|Em].
  - exists h1. split; [done|]. split; [done|]. split; [|done]. split; [intros i Hi Hin; apply Hz; lia|]. rewrite Em. apply Z.mod_1_r.
  - assert (Hin : 64 + 4 * (n / 4) + 4 <= c).
    { apply Z.mod_divide in Hcm as [a ->]; [|lia]. Z.div_mod_to_equations. lia. }
    destruct (write_rep _ _ _ G h1 bs off c (n / 4) (Z.land (w1 (p + 4 * (n / 4))) (Z.lnot (Z.ones (8 * (n mod 4))))) Hrep1 Hu) as (h2 & Hrun2 & Hrep2 & Hw2 & _); [lia|lia|].
    fold p in Hrun2, Hw2. erewrite bind_Ret by (by apply (read_rep _ _ _ G h1 bs off c (n / 4)); (done || lia)).
    exists h2. split; [exact Hrun2|]. split; [done|]. rewrite Hw2. split; [split|].
    + intros i Hi Hle. rewrite put_word_ne by lia. apply Hz. lia.
    + rewrite put_word_eq. apply low_bytes_zero. pose proof (Z.mod_pos_bound n 4). lia.
    + intros o k a Hk Hne Ha. pose proof (used_disjoint _ _ _ _ _ Hok Hk Hu Hne).
      rewrite put_word_ne by (unfold p; lia). by apply (Hoth o k).
Qed.

(** [rt_calloc] of a product that does not wrap *)
Lemma calloc_clears h bs count size :
  rep h bs -> 0 < count * size <= 2 ^ 32 - 64 ->
  exists r h', rt_calloc count size h = Ret (r, h') /\
    (r = 0 /\ h' = h \/
     exists off c bs', r = base + off + 64 /\ rep h' bs' /\ used_at bs' off c /\ count * size + 64 <= c /\
       (forall o k, used_at bs o k -> used_at bs' o k /\ o <> off) /\ cleared (words h') r (count * size) /\
       used_same base (words h) (words h') bs).
Proof.
  intros Hrep Hs. unfold rt_calloc. rewrite u32_small by (unfold is_u32; lia). pose proof (geo _ _ _ G) as (Gb & _).
  destruct (alloc_fresh h bs (count * size) Hrep Hs) as [Hrun|(off & c & h1 & bs1 & Hrun & Hrep1 & _ & Hu & Hc & Hnew & Hsame & _)];
    rewrite (bind_Ret _ _ _ _ _ Hrun); [exists 0, h; auto|].
  pose proof (rep_ok _ _ _ _ _ Hrep1) as Hok1. destruct (used_at_ok _ _ _ Hok1 Hu) as (_ & _ & Ho & _).
  destruct (Z.eqb_spec (base + off + 64) 0); [lia|]. cbn [negb].
  destruct (zero_rep h1 bs1 off c (count * size) Hrep1 Hu ltac:(lia)) as (h2 & Hrun2 & Hrep2 & Hcl & Hoth).
  rewrite (bind_Ret _ _ _ _ _ Hrun2). exists (base + off + 64), h2. split; [done|]. right. exists off, c, bs1. split_and!; try done.
  intros o k a Hk Ha. destruct (Hnew _ _ Hk) as [Hk' Hne]. rewrite (Hoth o k) by done. by apply (Hsame o k).
Qed.

(** The product wraps: the block can be smaller than what was asked for. *)
Lemma calloc_wraps count size h : rt_calloc count size h = rt_calloc 1 (u32 (count * size)) h.
Proof. unfold rt_calloc. by rewrite Z.mul_1_l, (u32_small (u32 _)) by apply u32_range. Qed.

(** A size within 64 of the word's range is rounded up to 0: the block has 64 bytes. *)
Lemma alloc_wraps size h : 2 ^ 32 - 64 < size < 2 ^ 32 -> rt_smem_alloc size h = rt_smem_alloc 64 h.
Proof.
  intros Hs. assert (Hb : block_size size = block_size 64).
  { unfold block_size. rewrite align_up_64. unfold u32.
    replace ((size + 63) mod 2 ^ 32) with (size + 63 - 2 ^ 32) by (apply (Z.mod_unique_pos _ _ 1); lia).
    by replace ((size + 63 - 2 ^ 32) / 64) with 0 by (symmetry; apply Z.div_small; lia). }
  unfold rt_smem_alloc. rewrite Hb. by destruct (Z.eqb_spec size 0); [lia|].
Qed.
End lib.

Lemma calloc_wraps_witness : exists h', rt_calloc 0x4000001 64 heap_4k = Ret (0x80000080, h').
Proof. rewrite calloc_wraps. eexists. by vm_compute. Qed.

Lemma malloc_align_roundtrip_witness : exists r h', rt_malloc_align 100 (2 ^ 8) heap_4k = Ret (r, h').
Proof.
  destruct (malloc_align_roundtrip _ _ _ heap_4k_geometry _ _ 100 8 heap_4k_rep ltac:(lia) ltac:(lia)) as (r & h' & H & _).
  by exists r, h'.
Defined.
