(* ===== verification/Hwsem.v ===== *)
(** * Hardware semaphores between the processors

    Models [rtt_port/drv_hwsem.c] with the macros of [nu_hwsem.h] and the completion of the
    kernel it waits on.  Two kernels run the driver, one on the Cortex-A35 cores and one on
    the Cortex-M4; what each does is a program of [Conc], so that accesses of any number of
    threads and of the interrupt handlers interleave.

    The semaphore register: writing the key locks a free semaphore for the writing
    processor, unlocks one that this processor locked with this key, and does nothing
    otherwise.  Whether the key can still be read once it is free is left open
    ([keeps_key]).  An unlock sets the interrupt flag of both processors. *)

From Stdlib Require Import ZArith Lia Bool.
From stdpp Require Import base tactics numbers list option.
From S2P Require Import Prelude BitUtil Conc.

Open Scope Z_scope.

Definition HWSEM_NOLOCK : Z := 0.
Definition HWSEM_LOCK_BY_A35 : Z := 1.
Definition HWSEM_LOCK_BY_M4 : Z := 2.
Definition HWSEM_LOCK_BY_OWNER (p : side) : Z := match p with A35 => HWSEM_LOCK_BY_A35 | M4 => HWSEM_LOCK_BY_M4 end.
Definition HWSEM_SEM_ID_Msk : Z := 0xf.
Definition HWSEM_SEM_KEY_Pos : Z := 8.
Definition HWSEM_SEM_KEY_Msk : Z := 0xff00.
Definition HWSEM_INTEN_SEM0IEN_Msk : Z := 1.
Definition evHWSEM_CNT : Z := 8.

(** The registers of the block, [INTEN_CORE] and [INTSTS_CORE] one per processor, and the
    [struct nu_mutex_priv] of each kernel: owner (0 is none), hold count, completion. *)
Record hwsem : Type := mkHwsem {
  SEM : Z -> Z;
  INTEN : side -> Z;
  INTSTS : side -> Z;
  owner : side -> Z -> Z;
  hold : side -> Z -> Z;
  completed : side -> Z -> bool
}.

(** ** Accesses *)

Inductive op : Type :=
  | Cpu (p : side)                      (** [rt_hw_cpu_id()] *)
  | Read_SEM (n : Z)
  | Write_SEM (p : side) (n v : Z)
  | Read_INTEN (p : side)
  | Write_INTEN (p : side) (v : Z)
  | Read_INTSTS (p : side)
  | Write_INTSTS (p : side) (v : Z)
  | Read_owner (p : side) (n : Z)
  | Write_owner (p : side) (n t : Z)
  | Read_hold (p : side) (n : Z)
  | Write_hold (p : side) (n v : Z)
  | Completion_init (p : side) (n : Z)
  | Completion_wait (p : side) (n timeout : Z)
  | Completion_done (p : side) (n : Z).

Definition sem_id (v : Z) : Z := Z.land v HWSEM_SEM_ID_Msk.
Definition sem_key (v : Z) : Z := Z.shiftr (Z.land v HWSEM_SEM_KEY_Msk) HWSEM_SEM_KEY_Pos.

Section access.
Variable keeps_key : bool.

(** The register after a write of [v] by processor [p], and whether this unlocked it. *)
Definition write_sem (p : side) (v old : Z) : Z * bool :=
  if sem_id old =? HWSEM_NOLOCK then (Z.lor (Z.land v HWSEM_SEM_KEY_Msk) (HWSEM_LOCK_BY_OWNER p), false)
  else if (sem_id old =? HWSEM_LOCK_BY_OWNER p) && (sem_key old =? sem_key v) then
    (if keeps_key then Z.land old HWSEM_SEM_KEY_Msk else 0, true)
  else (old, false).

(** [rt_completion_wait]: with a time-out above 0 the timer may run out first (choice 1),
    and then the completion is cleared as well; with time-out 0 nothing is waited for; a
    negative time-out is RT_WAITING_FOREVER. *)
Definition access (o : op) (choice : Z) (h : hwsem) : option (Z * hwsem) :=
  match o with
  | Cpu p => Some (match p with A35 => Z.land choice 1 | M4 => 0 end, h)
  | Read_SEM n => Some (SEM h n, h)
  | Write_SEM p n v =>
      let '(v', unlocked) := write_sem p v (SEM h n) in
      let sts := if unlocked then fun q => Z.lor (INTSTS h q) (bit n) else INTSTS h in
      Some (0, mkHwsem (upd (SEM h) n v') (INTEN h) sts (owner h) (hold h) (completed h))
  | Read_INTEN p => Some (INTEN h p, h)
  | Write_INTEN p v => Some (0, mkHwsem (SEM h) (upd_side (INTEN h) p v) (INTSTS h) (owner h) (hold h) (completed h))
  | Read_INTSTS p => Some (INTSTS h p, h)
  | Write_INTSTS p v =>
      Some (0, mkHwsem (SEM h) (INTEN h) (upd_side (INTSTS h) p (Z.land (INTSTS h p) (Z.lnot v))) (owner h) (hold h) (completed h))
  | Read_owner p n => Some (owner h p n, h)
  | Write_owner p n t => Some (0, mkHwsem (SEM h) (INTEN h) (INTSTS h) (upd2 (owner h) p n t) (hold h) (completed h))
  | Read_hold p n => Some (hold h p n, h)
  | Write_hold p n v => Some (0, mkHwsem (SEM h) (INTEN h) (INTSTS h) (owner h) (upd2 (hold h) p n v) (completed h))
  | Completion_init p n => Some (0, mkHwsem (SEM h) (INTEN h) (INTSTS h) (owner h) (hold h) (upd2 (completed h) p n false))
  | Completion_wait p n timeout =>
      let cleared := mkHwsem (SEM h) (INTEN h) (INTSTS h) (owner h) (hold h) (upd2 (completed h) p n false) in
      if (0 <? timeout) && (choice =? 1) then Some (- RT_ETIMEOUT, cleared)
      else if completed h p n then Some (RT_EOK, cleared)
      else if timeout =? 0 then Some (- RT_ETIMEOUT, h)
      else None
  | Completion_done p n => Some (0, mkHwsem (SEM h) (INTEN h) (INTSTS h) (owner h) (hold h) (upd2 (completed h) p n true))
  end.
End access.

(** ** The driver

    [p] is the processor whose kernel runs the code, [t] the thread that calls
    ([rt_thread_self()], never NULL). *)

Definition priv_key (p : side) (n : Z) : Z := Z.lor (Z.shiftl (HWSEM_LOCK_BY_OWNER p) 4) n.
Definition cpu_key (p : side) (n cpu : Z) : Z := u8 (Z.lor (priv_key p n) (Z.shiftl cpu 6)).
Definition key_word (key : Z) : Z := Z.land (Z.shiftl key HWSEM_SEM_KEY_Pos) HWSEM_SEM_KEY_Msk.
Definition int_bit (n : Z) : Z := Z.shiftl HWSEM_INTEN_SEM0IEN_Msk n.

Definition HWSEM_ENABLE_INT (p : side) (n : Z) (k : prog op) : prog op :=
  get! v := Read_INTEN p in do! Write_INTEN p (Z.lor v (int_bit n)) ;; k.
Definition HWSEM_DISABLE_INT (p : side) (n : Z) (k : prog op) : prog op :=
  get! v := Read_INTEN p in do! Write_INTEN p (Z.land v (not32 (int_bit n))) ;; k.

(** [nu_mutex_init] returns the mutex (1 here) or NULL. *)
Definition nu_mutex_init (p : side) (t n : Z) : prog op :=
  if n <? evHWSEM_CNT then
    get! o := Read_owner p n in
    if o =? 0 then do! Write_owner p n t ;; Stop 1 else Stop 0
  else Stop 0.

Definition nu_mutex_deinit (p : side) (t n : Z) : prog op :=
  if n <? evHWSEM_CNT then
    get! o := Read_owner p n in
    if o =? t then do! Write_owner p n 0 ;; Stop 0 else Stop 0
  else Stop 0.

(** The body of [while (1)] in [nu_mutex_take]: the semaphore was seen locked, or free. *)
Definition take_wait (p : side) (n timeout : Z) : prog op :=
  get! r := Completion_wait p n timeout in
  if negb (r =? RT_EOK) then Stop (- RT_EBUSY) else Again.

Definition take_nested (p : side) (n : Z) : prog op :=
  get! h := Read_hold p n in
  do! Write_hold p n (u8 (h + 1)) ;;
  Stop RT_EOK.

Definition take_locked (p : side) (n key timeout : Z) : prog op :=
  get! w := Read_SEM n in
  if negb (sem_key w =? key) then HWSEM_ENABLE_INT p n (take_wait p n timeout) else take_nested p n.

Definition take_got (p : side) (n : Z) : prog op :=
  do! Write_hold p n 1 ;; HWSEM_DISABLE_INT p n (Stop RT_EOK).

Definition take_check (p : side) (n key : Z) : prog op :=
  get! w := Read_SEM n in if sem_key w =? key then take_got p n else Again.

Definition take_free (p : side) (n key : Z) : prog op :=
  do! Write_SEM p n (key_word key) ;; take_check p n key.

Definition take_body (p : side) (n key timeout : Z) : prog op :=
  get! v := Read_SEM n in
  if negb (sem_id v =? HWSEM_NOLOCK) then take_locked p n key timeout else take_free p n key.

Definition take_owned (p : side) (n cpu timeout : Z) : prog op :=
  do! Completion_init p n ;; While (take_body p n (cpu_key p n cpu) timeout).

Definition take_owner (p : side) (t n cpu timeout : Z) : prog op :=
  get! o := Read_owner p n in if negb (o =? t) then Stop (- RT_ERROR) else take_owned p n cpu timeout.

Definition nu_mutex_take (p : side) (t n timeout : Z) : prog op :=
  get! cpu := Cpu p in take_owner p t n cpu timeout.

(** Giving the semaphore back once the hold count is 0; the parts of [nu_mutex_release]. *)
Definition release_unlock (p : side) (n key : Z) : prog op :=
  do! Write_SEM p n (key_word key) ;; Stop RT_EOK.

Definition release_count (p : side) (n key h : Z) : prog op :=
  do! Write_hold p n (u8 (h - 1)) ;;
  if u8 (h - 1) =? 0 then release_unlock p n key else Stop RT_EOK.

Definition release_hold (p : side) (n key : Z) : prog op :=
  get! h := Read_hold p n in release_count p n key h.

Definition release_key (p : side) (n key : Z) : prog op :=
  get! w := Read_SEM n in if sem_key w =? key then release_hold p n key else Stop (- RT_ERROR).

Definition release_locked (p : side) (n key : Z) : prog op :=
  get! v := Read_SEM n in if negb (sem_id v =? 0) then release_key p n key else Stop (- RT_ERROR).

Definition release_owned (p : side) (n : Z) : prog op :=
  get! cpu := Cpu p in release_locked p n (cpu_key p n cpu).

Definition nu_mutex_release (p : side) (t n : Z) : prog op :=
  get! o := Read_owner p n in if negb (o =? t) then Stop (- RT_ERROR) else release_owned p n.

(** [nu_hwsem_isr] *)
Fixpoint hwsem_isr_loop (p : side) (fuel : nat) (ists : Z) : prog op :=
  match fuel with
  | O => Stop 0
  | S fuel' =>
      let n := nu_ctz ists in
      if n <? evHWSEM_CNT then
        do! Write_INTSTS p (int_bit n) ;;
        do! Completion_done p n ;;
        hwsem_isr_loop p fuel' (Z.land ists (not32 (int_bit n)))
      else Stop 0
  end.

Definition nu_hwsem_isr (p : side) : prog op :=
  get! ists := Read_INTSTS p in hwsem_isr_loop p 9 ists.

(** [rt_hw_hwsem_init], for one semaphore of the kernel on [p] *)
Definition hwsem_init1 (p : side) (n : Z) (k : prog op) : prog op :=
  do! Write_hold p n 0 ;;
  do! Write_owner p n 0 ;;
  get! v := Read_SEM n in
  if sem_id v =? HWSEM_LOCK_BY_OWNER p then
    do! Write_SEM p n (key_word (priv_key p n)) ;; HWSEM_DISABLE_INT p n k
  else HWSEM_DISABLE_INT p n k.

(** ** The system

    Any number of threads of the two kernels ([side_of]), each of which calls the functions
    of the driver one after the other, and one run of the interrupt handler at a time per
    kernel. *)

Inductive mutex_call : Type :=
  | Init (n : Z)
  | Deinit (n : Z)
  | Take (n timeout : Z)
  | Release (n : Z).

Definition call_id (c : mutex_call) : Z := match c with Init n | Deinit n | Take n _ | Release n => n end.

Definition call_prog (p : side) (t : Z) (c : mutex_call) : prog op :=
  match c with
  | Init n => nu_mutex_init p t n
  | Deinit n => nu_mutex_deinit p t n
  | Take n timeout => nu_mutex_take p t n timeout
  | Release n => nu_mutex_release p t n
  end.

Definition hwsem_driver (keeps_key : bool) (side_of : Z -> side) : driver op hwsem mutex_call :=
  mkDriver (access keeps_key) (fun t c => call_prog (side_of t) t c)
    (fun p h => negb (Z.land (INTSTS h p) (INTEN h p) =? 0)) nu_hwsem_isr (fun _ _ _ h => h).

(** Threads exist and name semaphores of the block. *)
Definition valid_call (a : action mutex_call) : Prop :=
  match a with Start t c => 0 <= call_id c < evHWSEM_CNT /\ t <> 0 | _ => True end.

(** No initialisation of a semaphore starts while another thread of the same kernel is
    inside one of the same semaphore: nothing in [nu_mutex_init] sees to that. *)
Definition orderly (side_of : Z -> side) (s : sys op hwsem mutex_call) (a : action mutex_call) : Prop :=
  valid_call a /\
  match a with
  | Start t (Init n) => forall u, side_of u = side_of t -> last s u = Init n -> stopped (threads s u) = true
  | _ => True
  end.

(** Calls of which each kernel has a semaphore initialised by one thread only, the one that
    [chief] names.  No promise of the driver rests on this: what [HwsemLock] shows to go
    wrong under it goes wrong without any race of initialisations. *)
Definition allowed (side_of : Z -> side) (chief : side -> Z -> Z) (a : action mutex_call) : Prop :=
  match a with
  | Start t c => 0 <= call_id c < evHWSEM_CNT /\ t <> 0 /\ (forall n, c = Init n -> chief (side_of t) n = t)
  | _ => True
  end.

(** After [rt_hw_hwsem_init] on both processors *)
Definition hwsem_boot : hwsem :=
  mkHwsem (fun _ => 0) (fun _ => 0) (fun _ => 0) (fun _ _ => 0) (fun _ _ => 0) (fun _ _ => false).
Definition sys_boot : sys op hwsem mutex_call :=
  mkSys hwsem_boot (fun _ => Release 0) (fun _ => mkThread (Stop 0) Again) (fun _ => mkThread (Stop 0) Again).
