(* ===== verification/HwsemInv.v ===== *)
(** * The invariant of the hardware semaphores

    What every reachable state of the two kernels satisfies: who can be at which point of
    the driver, what the register then says, and that an unlock is never forgotten. *)

From Stdlib Require Import ZArith Lia Bool.
From stdpp Require Import base tactics numbers list option.
From S2P Require Import Prelude BitUtil Conc Hwsem.

Open Scope Z_scope.

#[local] Abbreviation ID := HWSEM_LOCK_BY_OWNER.

(** ** Keys and the register *)

Definition is_cpu (c : Z) : Prop := c = 0 \/ c = 1.
Definition is_id (n : Z) : Prop := 0 <= n < evHWSEM_CNT.

(** The keys a kernel uses for a semaphore. *)
Definition key_of (p : side) (n k : Z) : Prop := exists c, is_cpu c /\ k = cpu_key p n c.

Ltac each_key :=
  repeat match goal with
  | H : key_of _ _ _ |- _ => destruct H as (? & [-> | ->] & ->)
  | p : side |- _ => destruct p
  end;
  match goal with
  | H : is_id ?n |- _ => unfold is_id, evHWSEM_CNT in H;
      assert (n = 0 \/ n = 1 \/ n = 2 \/ n = 3 \/ n = 4 \/ n = 5 \/ n = 6 \/ n = 7) as Hcase by lia; clear H;
      repeat (destruct Hcase as [-> |Hcase]); [..|subst]
  end.

Lemma keys_apart p n k : is_id n -> key_of p n k -> ~ key_of (other p) n k.
Proof. intros Hn H1 (c & Hc & E). each_key; destruct Hc as [-> | ->]; vm_compute in E; discriminate. Qed.

Lemma key_nonzero p n k : is_id n -> key_of p n k -> k <> 0.
Proof. intros Hn H1. each_key; vm_compute; discriminate. Qed.

Lemma key_word_key p n k : is_id n -> key_of p n k -> sem_key (key_word k) = k.
Proof. intros Hn H1. each_key; by vm_compute. Qed.

Lemma locked_word p q n k :
  is_id n -> key_of p n k ->
  let v := Z.lor (Z.land (key_word k) HWSEM_SEM_KEY_Msk) (ID q) in sem_id v = ID q /\ sem_key v = k.
Proof. intros Hn H1. destruct q; each_key; by vm_compute. Qed.

Lemma ID_nonzero p : ID p <> 0.
Proof. by destruct p. Qed.
Lemma ID_other p : ID (other p) <> ID p.
Proof. by destruct p. Qed.

(** The register is free, or locked with a key of the processor it names. *)
Definition reg_ok (n v : Z) : Prop := sem_id v = 0 \/ exists p, sem_id v = ID p /\ key_of p n (sem_key v).

(** A write to the register locks it, unlocks it, or changes nothing. *)
Inductive sem_write (p : side) (n k old : Z) : Z -> bool -> Prop :=
  | sw_lock v : sem_id old = 0 -> sem_id v = ID p -> sem_key v = k -> sem_write p n k old v false
  | sw_unlock v : sem_id old = ID p -> sem_key old = k -> sem_id v = 0 -> sem_key v = 0 \/ sem_key v = k -> sem_write p n k old v true
  | sw_none : sem_id old <> 0 -> sem_id old <> ID p \/ sem_key old <> k -> sem_write p n k old old false.

Lemma write_sem_cases kk p n k old v u :
  is_id n -> key_of p n k -> write_sem kk p (key_word k) old = (v, u) -> sem_write p n k old v u.
Proof.
  intros Hn Hk. unfold write_sem. rewrite (key_word_key p n k Hn Hk). change HWSEM_NOLOCK with 0.
  destruct (Z.eqb_spec (sem_id old) 0) as [E|E].
  - intros [= <- <-]. destruct (locked_word p p n k Hn Hk). by apply sw_lock.
  - destruct (Z.eqb_spec (sem_id old) (ID p)) as [E2|E2], (Z.eqb_spec (sem_key old) k) as [E3|E3]; cbn [andb]; intros [= <- <-];
      try (by apply sw_none; auto).
    apply sw_unlock; [done|done|..]; destruct kk; try (by left).
    + unfold sem_id. rewrite <-Z.land_assoc. change (Z.land HWSEM_SEM_KEY_Msk HWSEM_SEM_ID_Msk) with 0. apply Z.land_0_r.
    + done.
    + right. rewrite <-E3. unfold sem_key. by rewrite <-Z.land_assoc.
Qed.

(** ** Program points *)

Section inv.
Variable keeps_key : bool.
Variable side_of : Z -> side.

(** Thread [t] is the owner on [p] of semaphore [n]. *)
Definition own (h : hwsem) (p : side) (t n : Z) : Prop := is_id n /\ t <> 0 /\ owner h p n = t.

(** The semaphore is locked, or the news that it is not is on its way to the completion. *)
Definition waking (h : hwsem) (ip : thread op) (p : side) (n : Z) : Prop :=
  sem_id (SEM h n) <> 0 \/ completed h p n = true \/ Z.testbit (INTSTS h p) n = true \/
  exists k, code ip = Do (Completion_done p n) k.

(** A key of this kernel in the register means that this kernel has it. *)
Definition telling (p : side) (n v : Z) : Prop := sem_id v = ID p \/ ~ key_of p n (sem_key v).

(** Where thread [t] of the kernel on [p] can be in the call [c], and what holds there. *)
Inductive point (h : hwsem) (ip : thread op) (p : side) (t : Z) : mutex_call -> prog op -> prog op -> Prop :=
  | pt_stop c z b :
      (forall n to, c = Take n to -> z = RT_EOK -> own h p t n /\ sem_id (SEM h n) = ID p) -> point h ip p t c (Stop z) b
  | pt_init n b : is_id n -> t <> 0 -> point h ip p t (Init n) (nu_mutex_init p t n) b
  | pt_init_set n b : is_id n -> t <> 0 -> owner h p n = 0 -> point h ip p t (Init n) (Do (Write_owner p n t) (fun _ => Stop 1)) b
  | pt_deinit n b : is_id n -> t <> 0 -> point h ip p t (Deinit n) (nu_mutex_deinit p t n) b
  | pt_deinit_set n b : own h p t n -> point h ip p t (Deinit n) (Do (Write_owner p n 0) (fun _ => Stop 0)) b
  | pt_take n to b : is_id n -> t <> 0 -> point h ip p t (Take n to) (nu_mutex_take p t n to) b
  | pt_take_owner n to cpu b : is_id n -> t <> 0 -> is_cpu cpu -> point h ip p t (Take n to) (take_owner p t n cpu to) b
  | pt_take_owned n to cpu b : own h p t n -> is_cpu cpu -> point h ip p t (Take n to) (take_owned p n cpu to) b
  | pt_while n to k b : own h p t n -> key_of p n k -> point h ip p t (Take n to) (While (take_body p n k to)) b
  | pt_body n to k : own h p t n -> key_of p n k -> point h ip p t (Take n to) (take_body p n k to) (take_body p n k to)
  | pt_again n to k : own h p t n -> key_of p n k -> point h ip p t (Take n to) Again (take_body p n k to)
  | pt_locked n to k : own h p t n -> key_of p n k -> waking h ip p n -> telling p n (SEM h n) ->
      point h ip p t (Take n to) (take_locked p n k to) (take_body p n k to)
  | pt_enable n to k : own h p t n -> key_of p n k -> waking h ip p n ->
      point h ip p t (Take n to) (HWSEM_ENABLE_INT p n (take_wait p n to)) (take_body p n k to)
  | pt_enable_set n to k v : own h p t n -> key_of p n k -> waking h ip p n ->
      point h ip p t (Take n to) (Do (Write_INTEN p v) (fun _ => take_wait p n to)) (take_body p n k to)
  | pt_wait n to k : own h p t n -> key_of p n k -> waking h ip p n ->
      point h ip p t (Take n to) (take_wait p n to) (take_body p n k to)
  | pt_nested n to b : own h p t n -> sem_id (SEM h n) = ID p -> point h ip p t (Take n to) (take_nested p n) b
  | pt_nested_set n to x b : own h p t n -> sem_id (SEM h n) = ID p ->
      point h ip p t (Take n to) (Do (Write_hold p n x) (fun _ => Stop RT_EOK)) b
  | pt_free n to k : own h p t n -> key_of p n k -> sem_id (SEM h n) <> ID p ->
      point h ip p t (Take n to) (take_free p n k) (take_body p n k to)
  | pt_check n to k : own h p t n -> key_of p n k -> telling p n (SEM h n) ->
      point h ip p t (Take n to) (take_check p n k) (take_body p n k to)
  | pt_got n to b : own h p t n -> sem_id (SEM h n) = ID p -> point h ip p t (Take n to) (take_got p n) b
  | pt_disable n to b : own h p t n -> sem_id (SEM h n) = ID p ->
      point h ip p t (Take n to) (HWSEM_DISABLE_INT p n (Stop RT_EOK)) b
  | pt_disable_set n to v b : own h p t n -> sem_id (SEM h n) = ID p ->
      point h ip p t (Take n to) (Do (Write_INTEN p v) (fun _ => Stop RT_EOK)) b
  | pt_release n b : is_id n -> t <> 0 -> point h ip p t (Release n) (nu_mutex_release p t n) b
  | pt_release_owned n b : own h p t n -> point h ip p t (Release n) (release_owned p n) b
  | pt_release_locked n k b : own h p t n -> key_of p n k -> point h ip p t (Release n) (release_locked p n k) b
  | pt_release_key n k b : own h p t n -> key_of p n k -> telling p n (SEM h n) ->
      point h ip p t (Release n) (release_key p n k) b
  | pt_release_hold n k b : own h p t n -> key_of p n k -> sem_id (SEM h n) = ID p -> sem_key (SEM h n) = k ->
      point h ip p t (Release n) (release_hold p n k) b
  | pt_release_count n k b : own h p t n -> key_of p n k -> sem_id (SEM h n) = ID p -> sem_key (SEM h n) = k ->
      point h ip p t (Release n) (release_count p n k (hold h p n)) b
  | pt_release_unlock n k b : own h p t n -> key_of p n k -> sem_id (SEM h n) = ID p -> sem_key (SEM h n) = k ->
      hold h p n = 0 -> point h ip p t (Release n) (release_unlock p n k) b.

(** Where the interrupt handler can be. *)
Inductive isr_point (p : side) : prog op -> Prop :=
  | ip_stop z : isr_point p (Stop z)
  | ip_read : isr_point p (nu_hwsem_isr p)
  | ip_loop f v : is_u32 v -> isr_point p (hwsem_isr_loop p f v)
  | ip_done n f v : is_id n -> is_u32 v -> isr_point p (Do (Completion_done p n) (fun _ => hwsem_isr_loop p f v)).

(** What holds of the registers and variables. *)
Record hw_inv (h : hwsem) : Prop := {
  hi_reg : forall n, is_id n -> reg_ok n (SEM h n);
  hi_hold : forall p n, is_id n -> hold h p n <> 0 -> sem_id (SEM h n) = ID p;
  hi_sts : forall p, is_u32 (INTSTS h p)
}.

Record sys_inv (s : sys op hwsem mutex_call) : Prop := {
  si_hw : hw_inv (hw s);
  si_thr : forall t, point (hw s) (isr s (side_of t)) (side_of t) t (last s t) (code (threads s t)) (body (threads s t));
  si_isr : forall p, isr_point p (code (isr s p));
  si_init : forall t u n, side_of t = side_of u -> last s t = Init n -> last s u = Init n ->
    stopped (threads s t) = false -> stopped (threads s u) = false -> t = u
}.

(** ** What the others do *)

(** A change of the state that respects what thread [t] on [p] knows. *)
Definition quiet (p : side) (t : Z) (h : hwsem) (ip : thread op) (h' : hwsem) (ip' : thread op) : Prop :=
  forall n, own h p t n ->
    owner h' p n = t /\
    (SEM h' n = SEM h n \/ (sem_id (SEM h n) <> ID p /\ sem_id (SEM h' n) <> ID p /\ ~ key_of p n (sem_key (SEM h' n)))) /\
    hold h' p n = hold h p n /\ (waking h ip p n -> waking h' ip' p n).

(** A semaphore that a thread is about to initialise still has no owner. *)
Definition unclaimed (p : side) (c : mutex_call) (h h' : hwsem) : Prop :=
  forall n, c = Init n -> owner h p n = 0 -> owner h' p n = 0.

Lemma quiet_point p t h ip h' ip' c q b :
  quiet p t h ip h' ip' -> (match q with Stop _ => True | _ => unclaimed p c h h' end) ->
  point h ip p t c q b -> point h' ip' p t c q b.
Proof.
  intros Hq Hun.
  assert (Hown : forall n, own h p t n -> own h' p t n) by (intros n Ho; destruct (Ho) as (? & ? & _); by destruct (Hq n Ho) as (? & _)).
  assert (Hid : forall n, own h p t n -> sem_id (SEM h n) = ID p -> SEM h' n = SEM h n).
  { intros n Ho E. by destruct (Hq n Ho) as (_ & [?|(? & _)] & _). }
  assert (Htell : forall n, own h p t n -> telling p n (SEM h n) -> telling p n (SEM h' n)).
  { intros n Ho H. destruct (Hq n Ho) as (_ & [->|(_ & _ & ?)] & _); [done|by right]. }
  assert (Hwake : forall n, own h p t n -> waking h ip p n -> waking h' ip' p n) by (intros n Ho; by apply Hq).
  assert (Hnid : forall n, own h p t n -> sem_id (SEM h n) <> ID p -> sem_id (SEM h' n) <> ID p).
  { intros n Ho H. by destruct (Hq n Ho) as (_ & [->|(_ & ? & _)] & _). }
  destruct 1; try (by constructor; eauto); try (by constructor; eauto; rewrite Hid by done).
  - constructor. intros n to Hc Hz. destruct (H n to Hc Hz) as [Ho Hi]. split; [by apply Hown|]. by rewrite Hid.
  - destruct (Hq n H) as (_ & _ & <- & _). constructor; rewrite ?Hid by done; eauto.
  - destruct (Hq n H) as (_ & _ & Eh & _). constructor; rewrite ?Hid by done; eauto; congruence.
Qed.

(** *** One access of a thread *)

(** A change thread [t] on [p] may make in the call [c]: the invariant stays and nobody else
    is disturbed, as long as no other thread is in an initialisation of the same semaphore. *)
Definition polite (p : side) (t : Z) (c : mutex_call) (h h' : hwsem) : Prop :=
  hw_inv h' /\ forall q u, (q, u) <> (p, t) ->
    (forall ip, quiet q u h ip h' ip) /\
    (forall c', (forall n, c = Init n -> c' = Init n -> q <> p) -> unclaimed q c' h h').

Lemma polite_same p t c h h' : hw_inv h' -> owner h' = owner h ->
  (forall q u ip, (q, u) <> (p, t) -> quiet q u h ip h' ip) -> polite p t c h h'.
Proof. intros Hi Ho Hq. split; [done|]. intros q u Hne. split; [by intros ip; apply Hq|]. intros c' _ n _. by rewrite Ho. Qed.

Lemma polite_refl p t c h : hw_inv h -> polite p t c h h.
Proof. intros Hi. apply polite_same; [done..|]. intros q u ip _ n (? & ? & ?). split_and!; auto. Qed.

(** A thread of its own: what belongs to another owner is something else. *)
Lemma other_owner h p t n q u m : own h p t n -> own h q u m -> (q, u) <> (p, t) -> (q, m) <> (p, n).
Proof. intros (_ & _ & H1) (_ & _ & H2) Hne E. apply Hne. congruence. Qed.

Lemma polite_init p t n h :
  hw_inv h -> owner h p n = 0 -> polite p t (Init n) h (mkHwsem (SEM h) (INTEN h) (INTSTS h) (upd2 (owner h) p n t) (hold h) (completed h)).
Proof.
  intros [H2 H3 H4] Hv. split; [by split|]. intros q u Hne. split.
  - intros ip m (Hm & Hu & Eu). split_and!; auto. cbn. rewrite upd2_ne; [done|]. intros [= -> ->]. congruence.
  - intros c' Hc m -> E. cbn. rewrite upd2_ne; [done|]. intros [= -> ->]. by apply (Hc n).
Qed.

Lemma polite_deinit p t c n h :
  hw_inv h -> own h p t n -> polite p t c h (mkHwsem (SEM h) (INTEN h) (INTSTS h) (upd2 (owner h) p n 0) (hold h) (completed h)).
Proof.
  intros [H2 H3 H4] Ho. split; [by split|]. intros q u Hne. split.
  - intros ip m Hm. pose proof (other_owner _ _ _ _ _ _ _ Ho Hm Hne). destruct Hm as (? & ? & ?). split_and!; auto. cbn. by rewrite upd2_ne.
  - intros c' _ m _ E. cbn. destruct (decide ((q, m) = (p, n))) as [[= -> ->]|]; [by rewrite upd2_eq|by rewrite upd2_ne].
Qed.

Lemma polite_inten p t c f h :
  hw_inv h -> polite p t c h (mkHwsem (SEM h) f (INTSTS h) (owner h) (hold h) (completed h)).
Proof. intros [H2 H3 H4]. apply polite_same; [by split|done|]. intros q u ip _ m (? & ? & ?). split_and!; auto. Qed.

Lemma polite_completion p t c n v h :
  hw_inv h -> own h p t n -> polite p t c h (mkHwsem (SEM h) (INTEN h) (INTSTS h) (owner h) (hold h) (upd2 (completed h) p n v)).
Proof.
  intros [H2 H3 H4] Ho. apply polite_same; [by split|done|]. intros q u ip Hne m Hm.
  pose proof (other_owner _ _ _ _ _ _ _ Ho Hm Hne). destruct Hm as (? & ? & ?). split_and!; auto.
  unfold waking. cbn. by rewrite upd2_ne.
Qed.

Lemma polite_hold p t c n v h :
  hw_inv h -> own h p t n -> (v <> 0 -> sem_id (SEM h n) = ID p) ->
  polite p t c h (mkHwsem (SEM h) (INTEN h) (INTSTS h) (owner h) (upd2 (hold h) p n v) (completed h)).
Proof.
  intros [H1 H3 H4] Ho Hv. apply polite_same; [split; try done|done|].
  - intros q m Hm. cbn. destruct (decide ((q, m) = (p, n))) as [[= -> ->]|Hne]; [by rewrite upd2_eq|rewrite upd2_ne by done; by apply H3].
  - intros q u ip Hne m Hm. pose proof (other_owner _ _ _ _ _ _ _ Ho Hm Hne). destruct Hm as (? & ? & ?). split_and!; auto.
    cbn. by rewrite upd2_ne.
Qed.

Lemma sem_bit_u32 n : is_id n -> is_u32 (bit n).
Proof. intros H. unfold is_id, evHWSEM_CNT in H. unfold bit. rewrite Z.shiftl_1_l. unfold is_u32. split; [lia|]. apply Z.pow_lt_mono_r; lia. Qed.

(** A write to the register; a semaphore is only unlocked when it is no longer held. *)
Lemma polite_sem p t c n k h v u :
  hw_inv h -> own h p t n -> key_of p n k -> sem_write p n k (SEM h n) v u -> (u = true -> hold h p n = 0) ->
  polite p t c h (mkHwsem (upd (SEM h) n v) (INTEN h) (if u then fun q => Z.lor (INTSTS h q) (bit n) else INTSTS h)
    (owner h) (hold h) (completed h)).
Proof.
  intros [H1 H3 H4] (Hn & Ht & Ho) Hk Hw Hu.
  assert (Hv : reg_ok n v /\ (sem_id v = 0 -> u = true \/ v = SEM h n)).
  { destruct Hw as [v E1 E2 E3|v E1 E2 E3 E4|E1 E2]; [|split; [by left|by left]|by split; [apply H1|right]].
    split; [right; exists p; rewrite E3; done|]. rewrite E2. by destruct p. }
  apply polite_same; [split|done|].
  - intros m Hm. cbn. destruct (Z.eq_dec m n) as [->|Hne]; [rewrite upd_eq; tauto|rewrite upd_ne by done; by apply H1].
  - intros q m Hm. cbn. destruct (Z.eq_dec m n) as [->|Hne]; [rewrite upd_eq|rewrite upd_ne by done; by apply H3].
    intros Hh. specialize (H3 q n Hm Hh). destruct (side_cases p q) as [-> | ->].
    + destruct Hw as [v E1 E2 E3|v E1 E2 E3 E4|E1 E2]; [done|by rewrite Hu in Hh|done].
    + destruct Hw as [v E1 E2 E3|v E1 E2 E3 E4|E1 E2]; [by rewrite H3 in E1; apply ID_nonzero in E1|by rewrite H3 in E1; apply ID_other in E1|done].
  - intros q. cbn. destruct u; [|done]. apply lor_u32; [done|by apply sem_bit_u32].
  - intros q x ip Hne m (Hm & Hx & Hc). split; [done|]. split; [|split; [done|]].
    + cbn. destruct (Z.eq_dec m n) as [->|Hmn]; [rewrite upd_eq|left; by apply upd_ne].
      assert (q = other p) as -> by (destruct (side_cases p q) as [-> |?]; [congruence|done]).
      destruct Hw as [v E1 E2 E3|v E1 E2 E3 E4|E1 E2]; [right|right|by left].
      * rewrite E1, E2, E3. split_and!; [by destruct p|by destruct p|by apply keys_apart].
      * rewrite E1, E3. split_and!; [by destruct p|by destruct p|]. intros Hq. destruct E4 as [E4|E4]; rewrite E4 in Hq.
        -- by apply (key_nonzero _ _ _ Hn Hq).
        -- by apply (keys_apart _ _ _ Hn Hk).
    + unfold waking. cbn. intros [Hw0|[Hw0|[Hw0|Hw0]]]; [|by right; left|right; right; left|by right; right; right].
      * destruct (Z.eq_dec m n) as [->|Hmn]; [rewrite upd_eq|rewrite upd_ne by done; by left].
        destruct (Z.eq_dec (sem_id v) 0) as [E|E]; [|by left]. destruct (proj2 Hv E) as [->|Ev]; [|congruence].
        right; right; left. rewrite Z.lor_spec. unfold is_id, evHWSEM_CNT in Hm. rewrite testbit_bit, Z.eqb_refl by lia. apply orb_true_r.
      * destruct u; [|done]. by rewrite Z.lor_spec, Hw0.
Qed.

Ltac own_range := match goal with H : own _ _ ?n |- _ => let H' := fresh in pose proof (proj1 H) as H'; unfold is_id, evHWSEM_CNT in H' end.

Lemma is_id_ltb n : is_id n -> (n <? evHWSEM_CNT) = true.
Proof. intros [_ H]. by apply Z.ltb_lt. Qed.

Lemma cpu_choice p ch : is_cpu (match p with A35 => Z.land ch 1 | M4 => 0 end).
Proof.
  destruct p; [|by left]. change 1 with (Z.ones 1). rewrite Z.land_ones by lia. change (2 ^ 1) with 2.
  pose proof (Z.mod_pos_bound ch 2). unfold is_cpu. lia.
Qed.

Lemma key_of_cpu p n c : is_cpu c -> key_of p n (cpu_key p n c).
Proof. intros H. by exists c. Qed.

(** What a read of the register tells. *)
Lemma read_telling h p n : hw_inv h -> is_id n -> sem_id (SEM h n) <> 0 -> telling p n (SEM h n).
Proof.
  intros Hi Hn H. destruct (hi_reg h Hi n Hn) as [?|(q & Hq & Hk)]; [done|].
  destruct (side_cases q p) as [-> | ->]; [by left|right; by apply keys_apart].
Qed.

Lemma telling_key p n v k : telling p n v -> key_of p n k -> sem_key v = k -> sem_id v = ID p.
Proof. intros [?|H] Hk E; [done|]. by rewrite E in H. Qed.


(** The write of a key, when it does not unlock or nothing is held. *)
Lemma write_access h p t c n k ch x h' :
  hw_inv h -> own h p t n -> key_of p n k -> access keeps_key (Write_SEM p n (key_word k)) ch h = Some (x, h') ->
  sem_id (SEM h n) <> ID p \/ hold h p n = 0 ->
  polite p t c h h' /\ own h' p t n /\ (sem_id (SEM h n) <> ID p -> telling p n (SEM h' n)).
Proof.
  intros Hi Ho Hk. cbn. destruct (write_sem keeps_key p (key_word k) (SEM h n)) as [v u] eqn:Ew. intros [= <- <-] Hh.
  destruct (Ho) as [Hn _]. apply (write_sem_cases keeps_key p n k) in Ew; [|done|done]. split; [|split; [done|]].
  - apply (polite_sem p t c n k); [done|done|done|done|]. intros ->. inversion Ew; subst. by destruct Hh.
  - cbn. rewrite upd_eq. intros Hne. destruct Ew as [v E1 E2 E3|v E1 E2 E3 E4|E1 E2]; [by left|done|by apply read_telling].
Qed.

Lemma access_point h ip p t c b o kk ch x h' :
  hw_inv h -> point h ip p t c (Do o kk) b -> access keeps_key o ch h = Some (x, h') ->
  polite p t c h h' /\ point h' ip p t c (kk x) b.
Proof.
  intros Hi Hpt. remember (Do o kk) as q eqn:Eq. destruct Hpt; try discriminate.
  - unfold nu_mutex_init in Eq. rewrite is_id_ltb in Eq by done. injection Eq as <- <-. intros [= <- <-].
    split; [by apply polite_refl|]. destruct (Z.eqb_spec (owner h p n) 0); [by apply pt_init_set|by apply pt_stop].
  - injection Eq as <- <-. intros [= <- <-]. split; [by apply polite_init|by apply pt_stop].
  - unfold nu_mutex_deinit in Eq. rewrite is_id_ltb in Eq by done. injection Eq as <- <-. intros [= <- <-].
    split; [by apply polite_refl|]. destruct (Z.eqb_spec (owner h p n) t) as [E|]; [|by apply pt_stop].
    apply pt_deinit_set. by split.
  - injection Eq as <- <-. intros [= <- <-]. split; [|by apply pt_stop]. by apply polite_deinit.
  - injection Eq as <- <-. intros [= <- <-]. split; [by apply polite_refl|]. apply pt_take_owner; [done|done|apply cpu_choice].
  - injection Eq as <- <-. intros [= <- <-]. split; [by apply polite_refl|].
    destruct (Z.eqb_spec (owner h p n) t) as [E|]; cbn [negb]; [|by apply pt_stop]. apply pt_take_owned; [by split|done].
  - injection Eq as <- <-. intros [= <- <-]. split; [by apply (polite_completion p t)|]. apply pt_while; [done|by apply key_of_cpu].
  - injection Eq as <- <-. intros [= <- <-]. split; [by apply polite_refl|]. change HWSEM_NOLOCK with 0. destruct (H) as [Hn _].
    destruct (Z.eqb_spec (sem_id (SEM h n)) 0) as [E|E]; cbn [negb].
    + apply pt_free; [done|done|]. rewrite E. apply not_eq_sym, ID_nonzero.
    + apply pt_locked; [done|done|by left|by apply read_telling].
  - injection Eq as <- <-. intros [= <- <-]. split; [by apply polite_refl|].
    destruct (Z.eqb_spec (sem_key (SEM h n)) k) as [E|E]; cbn [negb]; [|by apply pt_enable].
    apply pt_nested; [done|by eapply telling_key].
  - injection Eq as <- <-. intros [= <- <-]. split; [by apply polite_refl|by apply pt_enable_set].
  - injection Eq as <- <-. intros [= <- <-]. split; [by apply polite_inten|by apply pt_wait].
  - injection Eq as <- <-. cbn. destruct ((0 <? to) && (ch =? 1)); [|destruct (completed h p n); [|destruct (to =? 0)]];
      intros [= <- <-].
    + split; [by apply (polite_completion p t)|by apply pt_stop].
    + split; [by apply (polite_completion p t)|by apply pt_again].
    + split; [by apply polite_refl|by apply pt_stop].
  - injection Eq as <- <-. intros [= <- <-]. split; [by apply polite_refl|by apply pt_nested_set].
  - injection Eq as <- <-. intros [= <- <-]. split; [by apply (polite_hold p t)|apply pt_stop]. by intros m to' [= -> ->] _.
  - injection Eq as <- <-. intros Ha. destruct (write_access _ _ _ (Take n to) _ _ _ _ _ Hi H H0 Ha ltac:(by left)) as (Hp & Ho & Ht).
    split; [done|]. apply pt_check; [done|done|by apply Ht].
  - injection Eq as <- <-. intros [= <- <-]. split; [by apply polite_refl|].
    destruct (Z.eqb_spec (sem_key (SEM h n)) k) as [E|E]; [|by apply pt_again]. apply pt_got; [done|by eapply telling_key].
  - injection Eq as <- <-. intros [= <- <-]. split; [by apply (polite_hold p t)|by apply pt_disable].
  - injection Eq as <- <-. intros [= <- <-]. split; [by apply polite_refl|by apply pt_disable_set].
  - injection Eq as <- <-. intros [= <- <-]. split; [by apply polite_inten|apply pt_stop]. by intros m to' [= -> ->] _.
  - injection Eq as <- <-. intros [= <- <-]. split; [by apply polite_refl|].
    destruct (Z.eqb_spec (owner h p n) t) as [E|]; cbn [negb]; [|by apply pt_stop]. apply pt_release_owned. by split.
  - injection Eq as <- <-. intros [= <- <-]. split; [by apply polite_refl|]. apply pt_release_locked; [done|]. apply key_of_cpu, cpu_choice.
  - injection Eq as <- <-. intros [= <- <-]. split; [by apply polite_refl|]. destruct (H) as [Hn _].
    destruct (Z.eqb_spec (sem_id (SEM h n)) 0); cbn [negb]; [by apply pt_stop|]. apply pt_release_key; [done|done|by apply read_telling].
  - injection Eq as <- <-. intros [= <- <-]. split; [by apply polite_refl|].
    destruct (Z.eqb_spec (sem_key (SEM h n)) k) as [E|E]; [|by apply pt_stop]. apply pt_release_hold; [done|done|by eapply telling_key|done].
  - injection Eq as <- <-. intros [= <- <-]. split; [by apply polite_refl|by apply pt_release_count].
  - injection Eq as <- <-. intros [= <- <-]. split; [by apply (polite_hold p t)|].
    destruct (Z.eqb_spec (u8 (hold h p n - 1)) 0) as [E|E]; [|by apply pt_stop]. apply pt_release_unlock; try done. cbn. by rewrite upd2_eq.
  - injection Eq as <- <-. intros Ha. destruct (write_access _ _ _ (Release n) _ _ _ _ _ Hi H H0 Ha ltac:(by right)) as (Hp & _).
    split; [done|by apply pt_stop].
Qed.

(** *** One access of the interrupt handler *)

Lemma land_sub_u32 x y : is_u32 x -> is_u32 (Z.land x y).
Proof.
  intros Hx. rewrite <-(u32_small x) by done. unfold u32. rewrite <-(Z.land_ones x 32), <-Z.land_assoc, (Z.land_comm _ y), Z.land_assoc by lia.
  rewrite Z.land_ones by lia. unfold is_u32. pose proof (Z.mod_pos_bound (Z.land x y) (2 ^ 32)). lia.
Qed.

Lemma int_bit_bit n : int_bit n = bit n.
Proof. done. Qed.

Lemma hwsem_isr_loop_S p f v : (nu_ctz v <? evHWSEM_CNT) = true ->
  hwsem_isr_loop p (S f) v = Do (Write_INTSTS p (int_bit (nu_ctz v)))
    (fun _ => Do (Completion_done p (nu_ctz v)) (fun _ => hwsem_isr_loop p f (Z.land v (not32 (int_bit (nu_ctz v)))))).
Proof. intros H. cbn [hwsem_isr_loop]. by rewrite H. Qed.

Lemma hwsem_isr_loop_end p f v : (nu_ctz v <? evHWSEM_CNT) = false -> hwsem_isr_loop p (S f) v = Stop 0.
Proof. intros H. cbn [hwsem_isr_loop]. by rewrite H. Qed.

Lemma isr_access h i p o kk x h' b :
  hw_inv h -> code i = Do o kk -> isr_point p (Do o kk) -> access keeps_key o 0 h = Some (x, h') ->
  let i' := mkThread (kk x) b in
  hw_inv h' /\ owner h' = owner h /\ isr_point p (kk x) /\ (forall u, quiet p u h i h' i') /\ (forall q u ip, q <> p -> quiet q u h ip h' ip).
Proof.
  intros Hi Hcode Hpt. remember (Do o kk) as q eqn:Eq. destruct Hpt as [z| |f v Hv|m f v Hm Hv]; [done| | |].
  - apply Do_inj in Eq as [<- <-]. intros [= <- <-] i'. split; [done|]. split; [done|]. split; [apply ip_loop, (hi_sts _ Hi)|]. split.
    + intros u n (? & ? & ?). split_and!; auto. intros [?|[?|[?|(k & Hk)]]]; [by left|by right; left|by right; right; left|].
      rewrite Hcode in Hk. by apply Do_inj in Hk as [[=] _].
    + intros r u ip _ n (? & ? & ?). split_and!; auto.
  - destruct f as [|f]; [done|]. pose proof (nu_ctz_range v Hv) as Hr. destruct (nu_ctz v <? evHWSEM_CNT) eqn:Elt.
    2: { by rewrite hwsem_isr_loop_end in Eq. }
    rewrite hwsem_isr_loop_S in Eq, Hcode by done. apply Z.ltb_lt in Elt. set (m := nu_ctz v) in *.
    assert (Hm : is_id m) by (unfold is_id; lia). apply Do_inj in Eq as [<- <-]. intros [= <- <-] i'. split; [|split; [done|split; [|split]]].
    + destruct Hi as [H1 H3 H4]. split; try done. intros r. cbn. unfold upd_side. destruct (decide (r = p)) as [->|]; [|done].
      by apply land_sub_u32.
    + apply ip_done; [done|by apply land_sub_u32].
    + intros u n (Hn & ? & ?). split_and!; auto. unfold waking. cbn. rewrite upd_side_eq.
      intros [?|[?|[Hb|(k & Hk)]]]; [by left|by right; left| |by rewrite Hcode in Hk; apply Do_inj in Hk as [[=] _]]. right; right.
      destruct (Z.eq_dec n m) as [->|Hne]; [right; by eexists|left]. unfold is_id in Hn, Hm.
      rewrite Z.land_spec, Z.lnot_spec, int_bit_bit, testbit_bit, Hb by lia. by destruct (Z.eqb_spec n m).
    + intros r u ip Hne n (? & ? & ?). split_and!; auto. unfold waking. cbn. by rewrite upd_side_ne.
  - apply Do_inj in Eq as [<- <-]. intros [= <- <-] i'. split; [|split; [done|split; [|split]]].
    + destruct Hi as [H1 H3 H4]. by split.
    + by apply ip_loop.
    + intros u n (? & ? & ?). split_and!; auto. unfold waking. cbn. intros [?|[Hc|[?|(k & Hk)]]]; [by left| |by right; right; left|].
      * right; left. destruct (Z.eq_dec n m) as [->|Hne]; [by rewrite upd2_eq|rewrite upd2_ne by congruence; done].
      * rewrite Hcode in Hk. apply Do_inj in Hk as [[= ->] _]. right; left. by rewrite upd2_eq.
    + intros r u ip Hne n (? & ? & ?). split_and!; auto. unfold waking. cbn. by rewrite upd2_ne by congruence.
Qed.

(** *** The steps of the system *)

Lemma call_point h ip p t c : is_id (call_id c) -> t <> 0 -> point h ip p t c (call_prog p t c) Again.
Proof. intros Hn Ht. destruct c; cbn in *; [by apply pt_init|by apply pt_deinit|by apply pt_take|by apply pt_release]. Qed.

Lemma point_loop h ip p t c q b b' :
  point h ip p t c q b -> q = While b' \/ (q = Again /\ b' = b) -> point h ip p t c b' b'.
Proof.
  intros Hpt Hq. destruct Hpt; destruct Hq as [Eq|[Eq ->]]; try discriminate;
    try (unfold nu_mutex_init, nu_mutex_deinit in Eq; by destruct (_ <? _)).
  - injection Eq as <-. by apply pt_body.
  - by apply pt_body.
Qed.

(** What holds at a return from [nu_mutex_take], and at its wait. *)
Lemma stop_point h ip p t n to b : point h ip p t (Take n to) (Stop RT_EOK) b -> own h p t n /\ sem_id (SEM h n) = ID p.
Proof.
  intros Hp. remember (Stop RT_EOK) as q eqn:Eq. remember (Take n to) as c eqn:Ec. destruct Hp; try discriminate.
  injection Eq as ->. by apply (H n to).
Qed.

Lemma wait_point h ip p t c p' n to b : point h ip p t c (take_wait p' n to) b -> p = p' /\ waking h ip p n.
Proof.
  intros Hp. remember (take_wait p' n to) as q eqn:Eq. destruct Hp; try discriminate;
    try (unfold nu_mutex_init, nu_mutex_deinit in Eq; by destruct (_ <? _)).
  by injection Eq as <- <- _.
Qed.

Lemma isr_no_loop p q : isr_point p q -> match q with Again | While _ => False | _ => True end.
Proof.
  destruct 1 as [| |f v|]; [done|done| |done]. destruct f as [|f]; [done|]. destruct (nu_ctz v <? evHWSEM_CNT) eqn:E.
  - by rewrite hwsem_isr_loop_S.
  - by rewrite hwsem_isr_loop_end.
Qed.

Lemma hwsem_leave t c th h : leave (hwsem_driver keeps_key side_of) t c th h = h.
Proof. unfold leave. by destruct (code th). Qed.

(** A thread that goes on has not returned before. *)
Lemma alone_init th la (P : Z -> Z -> Prop) u (tu : thread op) :
  (forall t v n, P t v -> la t = Init n -> la v = Init n -> stopped (th t) = false -> stopped (th v) = false -> t = v) ->
  stopped (th u) = false -> forall t v n, P t v -> la t = Init n -> la v = Init n ->
  stopped (upd th u tu t) = false -> stopped (upd th u tu v) = false -> t = v.
Proof.
  intros H Hu t v n Hp Ht Hv S1 S2. apply (H t v n); [done..| |].
  - destruct (Z.eq_dec t u) as [->|]; [done|by rewrite upd_ne in S1].
  - destruct (Z.eq_dec v u) as [->|]; [done|by rewrite upd_ne in S2].
Qed.

(** Thread [t] makes a step that is polite. *)
Lemma thread_inv s t h' tt :
  sys_inv s -> stopped (threads s t) = false -> polite (side_of t) t (last s t) (hw s) h' ->
  point h' (isr s (side_of t)) (side_of t) t (last s t) (code tt) (body tt) ->
  sys_inv (mkSys h' (last s) (upd (threads s) t tt) (isr s)).
Proof.
  intros [Hhw Hthr Hisr Hin] Hrun [Hhw' Hq] Hp. split; [done| |done|].
  - intros u. cbn. destruct (Z.eq_dec u t) as [->|Hne]; [by rewrite upd_eq|rewrite !upd_ne by done].
    destruct (Hq (side_of u) u ltac:(congruence)) as [Hq1 Hq2]. eapply quiet_point; [apply Hq1| |apply Hthr].
    destruct (code (threads s u)) eqn:Ec; [done|..]; apply Hq2; intros n Hl Hl' Es; apply Hne; apply (Hin u t n); try done;
      unfold stopped; by rewrite Ec.
  - cbn. intros a b n Es Ea Eb. revert n Es Ea Eb. intros n Es. by apply (alone_init _ _ (fun x y => side_of x = side_of y) t tt Hin).
Qed.

Lemma step_inv a s s' : sys_inv s -> orderly side_of s a -> sys_step (hwsem_driver keeps_key side_of) a s = Some s' -> sys_inv s'.
Proof.
  intros Hs [Hval Hall]. pose proof Hs as [Hhw Hthr Hisr Hin].
  destruct a as [t c|t ch|p|p]; cbn [sys_step]; rewrite ?hwsem_leave; cbn [access_of call_of raised handler hwsem_driver].
  - destruct (stopped (threads s t)) eqn:Est; intros [= <-]. destruct Hval as [Hc Ht]. split; [done| |done|].
    + intros u. cbn. destruct (Z.eq_dec u t) as [->|Hne]; [|rewrite !upd_ne by done; apply Hthr]. rewrite !upd_eq. cbn. by apply call_point.
    + cbn. intros u v n Es. destruct (Z.eq_dec u t) as [->|Hu], (Z.eq_dec v t) as [->|Hv]; rewrite ?upd_eq, ?upd_ne by done; try done.
      * intros -> Hv2 _ Sv. rewrite (Hall v ltac:(done) Hv2) in Sv. done.
      * intros Hu2 -> Su _. rewrite (Hall u Es Hu2) in Su. done.
      * by apply Hin.
  - pose proof (Hthr t) as Hp. unfold thread_step. destruct (code (threads s t)) as [z| |bd|o kk] eqn:Ec; [done| | |].
    1,2: rewrite hwsem_leave; intros [= <-]; apply thread_inv; [done|unfold stopped; by rewrite Ec|by apply polite_refl|].
    + eapply point_loop; [exact Hp|by right].
    + eapply point_loop; [exact Hp|by left].
    + destruct (access keeps_key o ch (hw s)) as [[x h']|] eqn:Ea; [|done]. rewrite hwsem_leave. intros [= <-].
      destruct (access_point _ _ _ _ _ _ _ _ _ _ _ Hhw Hp Ea) as [Hpol Hp']. apply thread_inv; [done|unfold stopped; by rewrite Ec|done..].
  - destruct (stopped (isr s p) && _) eqn:E; intros [= <-]. apply andb_true_iff in E as [Es _]. split; [done| | |exact Hin].
    + intros u. cbn. eapply quiet_point; [| |apply Hthr]; [|by destruct (code _); try done; intros n].
      intros n (? & ? & ?). split_and!; auto. unfold upd_side. destruct (decide (side_of u = p)) as [Ep|Hns]; [|done].
      intros [?|[?|[?|(k & Hk)]]]; [by left|by right; left|by right; right; left|].
      rewrite Ep in Hk. unfold stopped in Es. by rewrite Hk in Es.
    + intros q. cbn. unfold upd_side. destruct (decide (q = p)) as [->|]; [apply ip_read|apply Hisr].
  - pose proof (Hisr p) as Hp. unfold thread_step. destruct (code (isr s p)) as [z| |bd|o kk] eqn:Ec; [done|by apply isr_no_loop in Hp|by apply isr_no_loop in Hp|].
    destruct (access keeps_key o 0 (hw s)) as [[x h']|] eqn:Ea; [|done]. intros [= <-].
    destruct (isr_access _ _ _ _ _ _ _ (body (isr s p)) Hhw Ec Hp Ea) as (Hhw' & Eo & Hp' & Hq1 & Hq2). split; [done| | |exact Hin].
    + intros u. cbn. eapply quiet_point; [| |apply Hthr].
      * unfold upd_side. destruct (decide (side_of u = p)) as [->|]; [apply Hq1|by apply Hq2].
      * unfold unclaimed. rewrite Eo. by destruct (code (threads s u)).
    + intros q. cbn. unfold upd_side. destruct (decide (q = p)) as [->|]; [done|apply Hisr].
Qed.

Lemma reach_inv s0 s : sys_inv s0 -> reach_when (hwsem_driver keeps_key side_of) (orderly side_of) s0 s -> sys_inv s.
Proof. apply reach_when_rule. eauto using step_inv. Qed.

Lemma boot_inv : sys_inv sys_boot.
Proof.
  split; [split|..]; cbn; try done.
  - intros n _. by left.
  - intros t. by apply pt_stop.
  - intros p. apply ip_stop.
Qed.
End inv.
