(* ===== verification/HwsemLock.v ===== *)
(** * What the hardware semaphores promise

    Mutual exclusion in every state that orderly initialisation can reach, and the race of
    two initialisations that breaks it; what one call of [nu_mutex_take] and
    [nu_mutex_release] does when nobody interferes; an interleaving of two threads in which
    a wake-up is lost. *)

From Stdlib Require Import ZArith Lia Bool.
From stdpp Require Import base tactics numbers list option.
From S2P Require Import Prelude BitUtil Conc Hwsem HwsemInv.

Open Scope Z_scope.

#[local] Abbreviation ID := HWSEM_LOCK_BY_OWNER.

(** A call that has returned [z]. *)
Definition returned (s : sys op hwsem mutex_call) (t : Z) (c : mutex_call) (z : Z) : Prop := last s t = c /\ code (threads s t) = Stop z.

(** Threads of which one of each kernel initialises a semaphore are orderly. *)
Lemma allowed_orderly kk side_of chief s :
  reach (hwsem_driver kk side_of) (allowed side_of chief) sys_boot s ->
  reach_when (hwsem_driver kk side_of) (orderly side_of) sys_boot s /\
  (forall t n, last s t = Init n -> stopped (threads s t) = false -> chief (side_of t) n = t).
Proof.
  apply (reach_rule _ _ (fun s => reach_when (hwsem_driver kk side_of) (orderly side_of) sys_boot s /\
    (forall t n, last s t = Init n -> stopped (threads s t) = false -> chief (side_of t) n = t))); [|split; [apply reach_when_start|done]].
  intros x a x' [Hx Hc] Ha Hs. split.
  - eapply reach_when_step; [exact Hx| |exact Hs]. destruct a as [t c| | |]; try done. destruct Ha as (H1 & H2 & H3). split; [done|].
    destruct c as [n| | |]; try done. intros u Eu El. cbn in Hs. destruct (stopped (threads x t)) eqn:Et; [|done].
    destruct (stopped (threads x u)) eqn:Es; [done|]. pose proof (Hc u n El Es) as E. rewrite Eu, (H3 n eq_refl) in E. congruence.
  - intros t n. destruct a as [u c|u ch|p|p]; cbn in Hs.
    + destruct (stopped (threads x u)) eqn:Eu; [|done]. injection Hs as <-. cbn.
      destruct (Z.eq_dec t u) as [->|Hne]; [rewrite upd_eq; intros -> _; by apply Ha|rewrite !upd_ne by done; apply Hc].
    + destruct (thread_step _ _ _ _) as [[th h]|] eqn:E; [|done]. injection Hs as <-. cbn. intros El Est. apply Hc; [done|].
      destruct (Z.eq_dec t u) as [->|Hne]; [|by rewrite upd_ne in Est]. unfold thread_step in E. unfold stopped. by destruct (code (threads x u)).
    + destruct (_ && _); [|done]. injection Hs as <-. apply Hc.
    + destruct (thread_step _ _ _ _) as [[th h]|]; [|done]. injection Hs as <-. apply Hc.
Qed.

(** Two threads of the A35 that initialise semaphore 0 at once and then take it. *)
Definition race_side (t : Z) : side := A35.
Definition init_race : list (action mutex_call) :=
  [Start 1 (Init 0); Step 1 0; Start 2 (Init 0); Step 2 0; Step 1 0; Start 1 (Take 0 (-1))] ++ replicate 10 (Step 1 0) ++
  [Step 2 0; Start 2 (Take 0 (-1))] ++ replicate 8 (Step 2 0).

(** C33: mutual exclusion.  As long as no thread starts to initialise a semaphore while
    another of its kernel is inside [nu_mutex_init] for it, and whatever else the threads of
    the two kernels call and however their accesses and those of the interrupt handlers
    interleave: the two kernels never hold the same semaphore, a take that has returned
    RT_EOK has the semaphore until the thread calls again, no two threads are in that
    position, and for a thread that waits the semaphore is locked or the news of its release
    is on the way.  Without that order it fails: [nu_mutex_init] tests the owner and sets it
    without a lock, and two threads of one kernel can both come back from a take of the same
    semaphore with RT_EOK. *)
Theorem hwsem_exclusive keeps_key :
  (forall side_of s, reach_when (hwsem_driver keeps_key side_of) (orderly side_of) sys_boot s ->
    (forall n, is_id n -> hold (hw s) A35 n <> 0 -> hold (hw s) M4 n = 0) /\
    (forall t n to, returned s t (Take n to) RT_EOK -> sem_id (SEM (hw s) n) = ID (side_of t)) /\
    (forall t u n to to', returned s t (Take n to) RT_EOK -> returned s u (Take n to') RT_EOK -> t = u) /\
    (forall t p n to, code (threads s t) = take_wait p n to -> waking (hw s) (isr s p) p n)) /\
  (exists s, reach (hwsem_driver keeps_key race_side) valid_call sys_boot s /\
    returned s 1 (Take 0 (-1)) RT_EOK /\ returned s 2 (Take 0 (-1)) RT_EOK).
Proof.
  split.
  - intros side_of s Hr. pose proof (reach_inv _ _ _ _ (boot_inv side_of) Hr) as [Hhw Hthr _ _].
    assert (Hret : forall t n to, returned s t (Take n to) RT_EOK -> own (hw s) (side_of t) t n /\ sem_id (SEM (hw s) n) = ID (side_of t)).
    { intros t n to [Hl Hc]. pose proof (Hthr t) as Hp. rewrite Hl, Hc in Hp. by eapply stop_point. }
    split_and!.
    + intros n Hn H1. destruct (Z.eq_dec (hold (hw s) M4 n) 0) as [|H2]; [done|].
      pose proof (hi_hold _ Hhw A35 n Hn H1) as E1. by rewrite (hi_hold _ Hhw M4 n Hn H2) in E1.
    + intros t n to H. by apply (Hret t n to).
    + intros t u n to to' H1 H2. destruct (Hret _ _ _ H1) as [(_ & _ & O1) E1], (Hret _ _ _ H2) as [(_ & _ & O2) E2].
      rewrite E1 in E2. assert (side_of t = side_of u) as E by (by destruct (side_of t), (side_of u)). congruence.
    + intros t p n to Hc. pose proof (Hthr t) as Hp. rewrite Hc in Hp. by destruct (wait_point _ _ _ _ _ _ _ _ _ Hp) as [<- ?].
  - assert (H : match run_sys (hwsem_driver keeps_key race_side) init_race sys_boot with
                | Some s => returned s 1 (Take 0 (-1)) RT_EOK /\ returned s 2 (Take 0 (-1)) RT_EOK | None => False end)
      by (destruct keeps_key; vm_compute; repeat split).
    destruct (run_sys _ init_race sys_boot) as [s|] eqn:E; [|destruct H]. exists s. split; [|exact H].
    eapply reach_run; [apply reach_start| |exact E]. repeat constructor; done.
Qed.

(** ** One call alone *)

Definition cpu_of (p : side) (c : Z) : Z := match p with A35 => Z.land c 1 | M4 => 0 end.

Definition set_SEM (h : hwsem) (n v : Z) : hwsem := mkHwsem (upd (SEM h) n v) (INTEN h) (INTSTS h) (owner h) (hold h) (completed h).

(** The condition under which the kernel on [p] takes the semaphore for its own. *)
Definition mine (p : side) (t n c : Z) (h : hwsem) : bool :=
  (owner h p n =? t) && negb (sem_id (SEM h n) =? 0) && (sem_key (SEM h n) =? cpu_key p n (cpu_of p c)).

Lemma alone_cpu kk c p k b h q h' :
  alone (access kk) c (mkThread (k (cpu_of p c)) b) h q h' -> alone (access kk) c (mkThread (Do (Cpu p) k) b) h q h'.
Proof. by apply (alone_do (access kk)). Qed.

(** One access of the thread, its value simplified with the equation given. *)
Ltac one := first [apply alone_cpu | eapply alone_do; [reflexivity|]]; cbn beta; cbn [SEM INTEN INTSTS owner hold completed].
Tactic Notation "one" "with" uconstr(E) := one; rewrite E; cbn [negb andb].

(** [nu_mutex_release] of a semaphore that is the thread's, or not. *)
#[local] Arguments cpu_of : simpl never.
Lemma release_alone kk p t n c h :
  let key := cpu_key p n (cpu_of p c) in
  exists r h', alone (access kk) c (mkThread (nu_mutex_release p t n) Again) h (Stop r) h' /\
    if mine p t n c h then
      r = RT_EOK /\ hold h' = upd2 (hold h) p n (u8 (hold h p n - 1)) /\
      SEM h' n = if u8 (hold h p n - 1) =? 0 then fst (write_sem kk p (key_word key) (SEM h n)) else SEM h n
    else r = - RT_ERROR /\ h' = h.
Proof.
  cbv zeta. unfold mine, nu_mutex_release, release_owned, release_locked, release_key.
  destruct (owner h p n =? t) eqn:E1; cbn [andb];
    [|exists (- RT_ERROR), h; split; [one with E1; apply alone_end|done]].
  destruct (sem_id (SEM h n) =? 0) eqn:E2; cbn [negb andb].
  { exists (- RT_ERROR), h. split; [|done]. one with E1. one. one with E2. apply alone_end. }
  destruct (sem_key (SEM h n) =? cpu_key p n (cpu_of p c)) eqn:E3.
  2: { exists (- RT_ERROR), h. split; [|done]. one with E1. one. one with E2. one with E3. apply alone_end. }
  destruct (u8 (hold h p n - 1) =? 0) eqn:E4.
  - destruct (write_sem kk p (key_word (cpu_key p n (cpu_of p c))) (SEM h n)) as [v u] eqn:Ew. eexists RT_EOK, _. split.
    + one with E1. one. one with E2. one with E3. unfold release_hold, release_count, release_unlock. one. one with E4.
      eapply alone_do; [cbn [access SEM]; rewrite Ew; reflexivity|]. apply alone_end.
    + cbn. split_and!; [done|done|apply upd_eq].
  - eexists RT_EOK, (mkHwsem _ _ _ _ (upd2 (hold h) p n (u8 (hold h p n - 1))) _). split; [|done].
    one with E1. one. one with E2. one with E3. unfold release_hold, release_count. one. one with E4. apply alone_end.
Qed.

(** The register once processor [p] has locked it with [key]. *)
Definition locked_by (p : side) (key : Z) : Z := Z.lor (Z.land (key_word key) HWSEM_SEM_KEY_Msk) (ID p).

Inductive take_result : Type := NotOwner | Nested | Taken | Waits.

Definition take_outcome (p : side) (t n c : Z) (h : hwsem) : take_result :=
  if negb (owner h p n =? t) then NotOwner
  else if sem_id (SEM h n) =? HWSEM_NOLOCK then Taken
  else if sem_key (SEM h n) =? cpu_key p n (cpu_of p c) then Nested else Waits.

(** What the call leaves behind, and where the thread then is. *)
Definition take_after (p : side) (n c to : Z) (h : hwsem) (r : take_result) (q : prog op) (h' : hwsem) : Prop :=
  let key := cpu_key p n (cpu_of p c) in
  match r with
  | NotOwner => q = Stop (- RT_ERROR) /\ h' = h
  | Nested => q = Stop RT_EOK /\ SEM h' n = SEM h n /\ hold h' p n = u8 (hold h p n + 1) /\ INTEN h' = INTEN h
  | Taken => q = Stop RT_EOK /\ SEM h' n = locked_by p key /\ hold h' p n = 1 /\
      INTEN h' p = Z.land (INTEN h p) (not32 (int_bit n))
  | Waits => q = take_wait p n to /\ SEM h' n = SEM h n /\ hold h' = hold h /\ completed h' p n = false /\
      INTEN h' p = Z.lor (INTEN h p) (int_bit n)
  end.

Lemma cpu_key_inj p n c c' : is_id n -> is_cpu c -> is_cpu c' -> cpu_key p n c = cpu_key p n c' -> c = c'.
Proof. intros Hn [-> | ->] [-> | ->] E; try done; exfalso; each_key; by vm_compute in E. Qed.

Lemma cpu_of_cpu p c : is_cpu (cpu_of p c).
Proof.
  unfold cpu_of. destruct p; [|by left]. unfold is_cpu.
  change (Z.land c 1) with (Z.land c (Z.ones 1)). rewrite Z.land_ones by lia. pose proof (Z.mod_pos_bound c (2 ^ 1)). lia.
Qed.

Lemma key_of_cpu_of p n c : key_of p n (cpu_key p n (cpu_of p c)).
Proof. exists (cpu_of p c). split; [apply cpu_of_cpu|done]. Qed.

Lemma take_alone kk p t n to c h :
  is_id n ->
  exists q h', alone (access kk) c (mkThread (nu_mutex_take p t n to) Again) h q h' /\
    owner h' = owner h /\ take_after p n c to h (take_outcome p t n c h) q h'.
Proof.
  intros Hn. unfold take_outcome, take_after, nu_mutex_take, take_owner.
  destruct (owner h p n =? t) eqn:E1; cbn [negb];
    [|eexists _, h; split; [one; one with E1; apply alone_end|done]].
  unfold take_owned, take_body. change HWSEM_NOLOCK with 0. destruct (sem_id (SEM h n) =? 0) eqn:E2.
  - pose proof (key_of_cpu_of p n c) as Hk. destruct (locked_word p p n _ Hn Hk) as [Ei Ek].
    eexists _, _. split.
    + one; one with E1. one. apply alone_while. one with E2. unfold take_free, take_check, take_got, HWSEM_DISABLE_INT.
      eapply alone_do; [cbn [access SEM]; unfold write_sem; change HWSEM_NOLOCK with 0; rewrite E2; reflexivity|]. cbn beta.
      eapply alone_do; [reflexivity|]. cbn [SEM]. rewrite upd_eq, Ek, Z.eqb_refl. one. one. one. apply alone_end.
    + cbn. by rewrite upd_eq, upd2_eq, upd_side_eq.
  - destruct (sem_key (SEM h n) =? cpu_key p n (cpu_of p c)) eqn:E3.
    + eexists _, _. split.
      * one; one with E1. one. apply alone_while. one with E2. unfold take_locked. one with E3. unfold take_nested. one. one. apply alone_end.
      * cbn. by rewrite upd2_eq.
    + eexists _, _. split.
      * one; one with E1. one. apply alone_while. one with E2. unfold take_locked. one with E3. unfold HWSEM_ENABLE_INT. one. one. apply alone_end.
      * cbn. by rewrite upd2_eq, upd_side_eq.
Qed.

(** One take and what follows it, when nobody interferes.  The owner of a free
    semaphore takes it and, on the CPU it took it on, releases it: the semaphore is free
    again and not held.  The key written is that of the CPU: a thread of the A35 that has
    moved to the other core gets -RT_ERROR from the release, nothing changes, and a take of
    the semaphore it has itself waits for a release that nobody can do. *)
Theorem take_then_release kk p t n to c h :
  is_id n -> owner h p n = t -> sem_id (SEM h n) = HWSEM_NOLOCK ->
  exists h1, alone (access kk) c (mkThread (nu_mutex_take p t n to) Again) h (Stop RT_EOK) h1 /\
    sem_id (SEM h1 n) = ID p /\ hold h1 p n = 1 /\
    (forall c', cpu_of p c' = cpu_of p c -> exists h2,
       alone (access kk) c' (mkThread (nu_mutex_release p t n) Again) h1 (Stop RT_EOK) h2 /\
       sem_id (SEM h2 n) = HWSEM_NOLOCK /\ hold h2 p n = 0) /\
    (forall c', cpu_of p c' <> cpu_of p c ->
       alone (access kk) c' (mkThread (nu_mutex_release p t n) Again) h1 (Stop (- RT_ERROR)) h1 /\
       exists h3, alone (access kk) c' (mkThread (nu_mutex_take p t n to) Again) h1 (take_wait p n to) h3 /\
         SEM h3 n = SEM h1 n /\ completed h3 p n = false).
Proof.
  intros Hn Ho Hf. destruct (take_alone kk p t n to c h Hn) as (q & h1 & Hr & Hown & Ha).
  pose proof (key_of_cpu_of p n c) as Hk. destruct (locked_word p p n _ Hn Hk) as [Ei Ek]. pose proof (ID_nonzero p) as Hnz.
  assert (take_outcome p t n c h = Taken) as Et by (unfold take_outcome; by rewrite Ho, Hf, !Z.eqb_refl).
  rewrite Et in Ha. destruct Ha as (-> & Es & Eh & _). change (locked_by _ _) with (Z.lor (Z.land (key_word (cpu_key p n (cpu_of p c))) HWSEM_SEM_KEY_Msk) (ID p)) in Es.
  exists h1. rewrite Es. split_and!; [done|done|done| |]; intros c' Hc.
  - destruct (release_alone kk p t n c' h1) as (r & h2 & Hr2 & H2). unfold mine in H2.
    rewrite Hown, Ho, Es, Ei, Ek, Hc, !Z.eqb_refl, Eh, (proj2 (Z.eqb_neq _ _) Hnz) in H2. destruct H2 as (-> & E1 & E2).
    exists h2. rewrite E1, E2, upd2_eq. cbn [u8]. change (u8 (1 - 1)) with 0. split_and!; [done| |done].
    change (0 =? 0) with true. cbv iota. destruct (write_sem kk p _ _) as [v u] eqn:Ew.
    destruct (write_sem_cases _ _ _ _ _ _ _ Hn Hk Ew) as [v E|v E _ E3|E E3]; cbn; [congruence|done|].
    destruct E3; congruence.
  - assert (Hne : cpu_key p n (cpu_of p c) <> cpu_key p n (cpu_of p c')).
    { intros E. apply Hc. symmetry. by apply (cpu_key_inj p n _ _ Hn (cpu_of_cpu p c) (cpu_of_cpu p c')). }
    apply Z.eqb_neq in Hne. split.
    + destruct (release_alone kk p t n c' h1) as (r & h2 & Hr2 & H2). unfold mine in H2.
      rewrite Es, Ek, Hne, andb_false_r in H2. by destruct H2 as [-> ->].
    + destruct (take_alone kk p t n to c' h1 Hn) as (q & h3 & Hr3 & _ & H3). unfold take_outcome in H3. change HWSEM_NOLOCK with 0 in H3.
      rewrite Hown, Ho, Es, Ei, Ek, Hne, Z.eqb_refl, (proj2 (Z.eqb_neq _ _) Hnz) in H3. destruct H3 as (-> & E1 & _ & E3 & _).
      exists h3. by rewrite <-Es.
Qed.

(** ** A wake-up that is lost

    Semaphores 0 and 1 with threads 1 and 2 of the A35 and 3 and 4 of the M4. *)

Definition a35_or_m4 (t : Z) : side := if t <=? 2 then A35 else M4.
Definition chiefs (p : side) (n : Z) : Z := match p with A35 => n + 1 | M4 => n + 3 end.

Definition steps (t : Z) (k : nat) : list (action mutex_call) := replicate k (Step t 0).
Definition does (t : Z) (c : mutex_call) (k : nat) : list (action mutex_call) := Start t c :: steps t k.

Definition lost_schedule : list (action mutex_call) :=
  does 1 (Init 0) 2 ++ does 2 (Init 1) 2 ++ does 3 (Init 0) 2 ++ does 4 (Init 1) 2 ++
  does 3 (Take 0 (-1)) 10 ++ does 4 (Take 1 (-1)) 10 ++
  does 1 (Take 0 (-1)) 7 ++ does 2 (Take 1 (-1)) 7 ++ steps 1 1 ++ steps 2 1 ++
  does 3 (Release 0) 7.

(** [allowed], decided. *)
Definition allowed_b (side_of : Z -> side) (chief : side -> Z -> Z) (a : action mutex_call) : bool :=
  match a with
  | Start t c =>
      (0 <=? call_id c) && (call_id c <? evHWSEM_CNT) && negb (t =? 0) &&
      match c with Init n => chief (side_of t) n =? t | _ => true end
  | _ => true
  end.

Lemma allowed_all side_of chief l : forallb (allowed_b side_of chief) l = true -> Forall (allowed side_of chief) l.
Proof.
  intros H. apply Forall_forall. intros a Ha. rewrite forallb_forall in H. specialize (H a Ha).
  destruct a as [t c| | |]; try done. cbn in *. rewrite !andb_true_iff, negb_true_iff in H. destruct H as (((H1 & H2) & H3) & H4).
  split; [lia|split; [lia|]]. intros n ->. lia.
Qed.

(** Thread [t] of the A35 waits without a time-out for semaphore [n], which is free, and
    neither the thread nor the interrupt handler of its kernel can take a step. *)
Definition stuck (kk : bool) (side_of : Z -> side) (t n : Z) (s : sys op hwsem mutex_call) : Prop :=
  last s t = Take n (-1) /\ code (threads s t) = take_wait (side_of t) n (-1) /\ sem_id (SEM (hw s) n) = HWSEM_NOLOCK /\
  Z.testbit (INTSTS (hw s) (side_of t)) n = true /\
  sys_step (hwsem_driver kk side_of) (Irq (side_of t)) s = None /\ sys_step (hwsem_driver kk side_of) (Isr (side_of t)) s = None /\
  forall choice, sys_step (hwsem_driver kk side_of) (Step t choice) s = None.

(** C19: a wake-up can be lost.  Two threads of one kernel that enable the interrupts of
    two semaphores at once each read INTEN, set their bit and write it back: one bit is
    lost, and when the other processor then gives that semaphore back, its first thread
    waits for ever for a semaphore that is free. *)
Theorem wakeup_lost kk :
  exists s, reach (hwsem_driver kk a35_or_m4) (allowed a35_or_m4 chiefs) sys_boot s /\ stuck kk a35_or_m4 1 0 s.
Proof.
  assert (H : match run_sys (hwsem_driver kk a35_or_m4) lost_schedule sys_boot with Some s => stuck kk a35_or_m4 1 0 s | None => False end)
    by (destruct kk; vm_compute; repeat split).
  destruct (run_sys (hwsem_driver kk a35_or_m4) lost_schedule sys_boot) as [s|] eqn:E; [|destruct H]. exists s. split; [|exact H].
  exact (reach_run _ _ _ _ _ _ (reach_start _ _ _) (allowed_all a35_or_m4 chiefs lost_schedule eq_refl) E).
Qed.

(** ** Witnesses *)

Definition took : list (action mutex_call) := does 3 (Init 0) 2 ++ does 3 (Take 0 (-1)) 10 ++ does 1 (Init 0) 2 ++ does 1 (Take 0 (-1)) 8.

Example hwsem_exclusive_witness :
  exists s, reach (hwsem_driver true a35_or_m4) (allowed a35_or_m4 chiefs) sys_boot s /\ returned s 3 (Take 0 (-1)) RT_EOK /\ hold (hw s) M4 0 = 1 /\
    code (threads s 1) = take_wait A35 0 (-1) /\ sem_id (SEM (hw s) 0) = HWSEM_LOCK_BY_M4.
Proof.
  assert (H : match run_sys (hwsem_driver true a35_or_m4) took sys_boot with
              | Some s => returned s 3 (Take 0 (-1)) RT_EOK /\ hold (hw s) M4 0 = 1 /\ code (threads s 1) = take_wait A35 0 (-1)
              | None => False end) by (vm_compute; repeat split).
  destruct (run_sys (hwsem_driver true a35_or_m4) took sys_boot) as [s|] eqn:E; [|destruct H].
  pose proof (reach_run _ _ _ _ _ _ (reach_start _ _ _) (allowed_all a35_or_m4 chiefs took eq_refl) E) as Hr. exists s.
  destruct (proj1 (hwsem_exclusive true) _ _ (proj1 (allowed_orderly _ _ _ _ Hr))) as (_ & H2 & _).
  destruct H as (H3 & H4 & H5). split; [exact Hr|split; [exact H3|split; [exact H4|split; [exact H5|exact (H2 3 0 (-1) H3)]]]].
Defined.

Definition owned_by_7 : hwsem := mkHwsem (fun _ => 0) (fun _ => 0) (fun _ => 0) (fun _ _ => 7) (fun _ _ => 0) (fun _ _ => false).

Example take_then_release_witness :
  is_id 3 /\ exists h1, alone (access true) 0 (mkThread (nu_mutex_take A35 7 3 5) Again) owned_by_7 (Stop RT_EOK) h1 /\
    alone (access true) 1 (mkThread (nu_mutex_release A35 7 3) Again) h1 (Stop (- RT_ERROR)) h1.
Proof.
  assert (Hn : is_id 3) by (split; reflexivity || discriminate). split; [exact Hn|].
  destruct (take_then_release true A35 7 3 5 0 owned_by_7 Hn eq_refl eq_refl) as (h1 & H1 & _ & _ & _ & H2).
  exists h1. split; [exact H1|]. apply (H2 1). vm_compute. discriminate.
Defined.
