(* ===== verification/Whc.v ===== *)
(** * Mailboxes between the processors

    Models the wormhole controller, [WHC_Send] and [WHC_Recv] of [nu_whc.c], and the device
    driver [rtt_port/drv_whc.c].  Four channels run from each processor to the other; one
    holds one message of four words, which the sender posts ([TXCTL]) and the receiver
    acknowledges ([RXCTL]).  The driver runs on both processors; its calls and its
    interrupt handler are programs of [Conc].

    The record of a run ([events]) has the calls that returned, each with the words of its
    buffer at that moment, and the calls of the functions a client has registered. *)

From Stdlib Require Import ZArith Lia Bool.
From stdpp Require Import base tactics numbers list option.
From S2P Require Import Prelude BitUtil Conc.

Open Scope Z_scope.

Definition WHC_CH : Z := 4.
Definition WHC_BUFFER_LEN : Z := 4.
Definition sizeof_nu_whc_msg : Z := 4 * WHC_BUFFER_LEN.
Definition WHC_INTSTS_TX0IF_Pos : Z := 16.
Definition WHC_INTSTS_RX0IF_Pos : Z := 24.
Definition WHC_INTEN_TX0IEN_Msk : Z := bit 16.
Definition WHC_INTEN_RX0IEN_Msk : Z := bit 24.

(** Calls of a client on one channel; [Poke] is the client filling its buffers. *)
Inductive whc_call : Type :=
  | Open (n : Z)
  | Close (n : Z)
  | Read (n buffer size : Z)
  | Write (n buffer size : Z)
  | Poke (a v : Z).

Inductive whc_event : Type :=
  | Returned (t : Z) (c : whc_call) (z : Z) (data : list Z)
  | Tx_complete (p : side) (n buffer : Z)
  | Rx_indicate (p : side) (n : Z).

(** [TMDAT p n] are the data registers of the channel on which [p] sends, [posted p n] says
    that a message is in it; [pvTxBuf], [tx_complete] and [rx_indicate] are the fields of
    the channel's device on [p] (the last two: whether the function is set); [ram] is the
    memory of each processor, a word at each address. *)
Record whc : Type := mkWhc {
  TMDAT : side -> Z -> Z -> Z;
  posted : side -> Z -> bool;
  INTEN : side -> Z;
  INTSTS : side -> Z;
  pvTxBuf : side -> Z -> Z;
  tx_complete : side -> Z -> bool;
  rx_indicate : side -> Z -> bool;
  ram : side -> Z -> Z;
  events : list whc_event
}.

Definition set_data (h : whc) (p : side) (n i v : Z) : whc :=
  mkWhc (upd2 (TMDAT h) p n (upd (TMDAT h p n) i v)) (posted h) (INTEN h) (INTSTS h) (pvTxBuf h) (tx_complete h) (rx_indicate h) (ram h) (events h).
Definition set_posted (h : whc) (f : side -> Z -> bool) (sts : side -> Z) : whc :=
  mkWhc (TMDAT h) f (INTEN h) sts (pvTxBuf h) (tx_complete h) (rx_indicate h) (ram h) (events h).
Definition set_INTEN (h : whc) (p : side) (v : Z) : whc :=
  mkWhc (TMDAT h) (posted h) (upd_side (INTEN h) p v) (INTSTS h) (pvTxBuf h) (tx_complete h) (rx_indicate h) (ram h) (events h).
Definition set_pvTxBuf (h : whc) (p : side) (n v : Z) : whc :=
  mkWhc (TMDAT h) (posted h) (INTEN h) (INTSTS h) (upd2 (pvTxBuf h) p n v) (tx_complete h) (rx_indicate h) (ram h) (events h).
Definition set_ram (h : whc) (p : side) (a v : Z) : whc :=
  mkWhc (TMDAT h) (posted h) (INTEN h) (INTSTS h) (pvTxBuf h) (tx_complete h) (rx_indicate h) (upd2 (ram h) p a v) (events h).
Definition record (h : whc) (e : whc_event) : whc :=
  mkWhc (TMDAT h) (posted h) (INTEN h) (INTSTS h) (pvTxBuf h) (tx_complete h) (rx_indicate h) (ram h) (events h ++ [e]).

(** ** The controller *)

Inductive whc_op : Type :=
  | Read_TXSTS (p : side)
  | Read_RXSTS (p : side)
  | Write_TMDAT (p : side) (n i v : Z)
  | Read_RMDAT (p : side) (n i : Z)
  | Write_TXCTL (p : side) (v : Z)
  | Write_RXCTL (p : side) (v : Z)
  | Read_INTEN (p : side)
  | Write_INTEN (p : side) (v : Z)
  | Read_INTSTS (p : side)
  | Write_INTSTS (p : side) (v : Z)
  | Read_pvTxBuf (p : side) (n : Z)
  | Write_pvTxBuf (p : side) (n v : Z)
  | Has_tx_complete (p : side) (n : Z)
  | Has_rx_indicate (p : side) (n : Z)
  | Call_tx_complete (p : side) (n buffer : Z)
  | Call_rx_indicate (p : side) (n : Z)
  | Load (p : side) (a : Z)
  | Store (p : side) (a v : Z).

Definition channels : list Z := [0; 1; 2; 3].

(** A status register: bit [n] is [f n]. *)
Definition ready_bits (f : Z -> bool) : Z := fold_right (fun n v => Z.lor (if f n then bit n else 0) v) 0 channels.

(** The channels a control word names. *)
Definition named (v n : Z) : bool := (0 <=? n) && (n <? WHC_CH) && Z.testbit v n.

Definition as_flag (b : bool) : Z := if b then 1 else 0.

Definition whc_access (o : whc_op) (choice : Z) (h : whc) : option (Z * whc) :=
  match o with
  | Read_TXSTS p => Some (ready_bits (fun n => negb (posted h p n)), h)
  | Read_RXSTS p => Some (ready_bits (posted h (other p)), h)
  | Write_TMDAT p n i v => Some (0, set_data h p n i v)
  | Read_RMDAT p n i => Some (TMDAT h (other p) n i, h)
  | Write_TXCTL p v =>
      Some (0, set_posted h (upd_side (posted h) p (fun n => named v n || posted h p n))
        (upd_side (INTSTS h) (other p) (Z.lor (INTSTS h (other p)) (Z.shiftl (Z.land v 0xf) WHC_INTSTS_RX0IF_Pos))))
  | Write_RXCTL p v =>
      Some (0, set_posted h (upd_side (posted h) (other p) (fun n => negb (named v n) && posted h (other p) n))
        (upd_side (INTSTS h) (other p) (Z.lor (INTSTS h (other p)) (Z.shiftl (Z.land v 0xf) WHC_INTSTS_TX0IF_Pos))))
  | Read_INTEN p => Some (INTEN h p, h)
  | Write_INTEN p v => Some (0, set_INTEN h p v)
  | Read_INTSTS p => Some (INTSTS h p, h)
  | Write_INTSTS p v => Some (0, set_posted h (posted h) (upd_side (INTSTS h) p (Z.land (INTSTS h p) (Z.lnot v))))
  | Read_pvTxBuf p n => Some (pvTxBuf h p n, h)
  | Write_pvTxBuf p n v => Some (0, set_pvTxBuf h p n v)
  | Has_tx_complete p n => Some (as_flag (tx_complete h p n), h)
  | Has_rx_indicate p n => Some (as_flag (rx_indicate h p n), h)
  | Call_tx_complete p n buffer => Some (0, record h (Tx_complete p n buffer))
  | Call_rx_indicate p n => Some (0, record h (Rx_indicate p n))
  | Load p a => Some (ram h p a, h)
  | Store p a v => Some (0, set_ram h p a v)
  end.

(** ** The standard driver

    [k] is what follows the call, given its result. *)

Fixpoint send_words (p : side) (n buf : Z) (fuel : nat) (i : Z) (k : prog whc_op) : prog whc_op :=
  match fuel with
  | O => k
  | S fuel' => get! v := Load p (buf + 4 * i) in do! Write_TMDAT p n i v ;; send_words p n buf fuel' (i + 1) k
  end.

Definition WHC_Send (p : side) (n buf : Z) (k : Z -> prog whc_op) : prog whc_op :=
  get! sts := Read_TXSTS p in
  if negb (Z.land sts (shl32 1 n) =? 0) then
    send_words p n buf (Z.to_nat WHC_BUFFER_LEN) 0 (do! Write_TXCTL p (shl32 1 n) ;; k 0)
  else k (-1).

Fixpoint recv_words (p : side) (n buf : Z) (fuel : nat) (i : Z) (k : prog whc_op) : prog whc_op :=
  match fuel with
  | O => k
  | S fuel' => get! v := Read_RMDAT p n i in do! Store p (buf + 4 * i) v ;; recv_words p n buf fuel' (i + 1) k
  end.

Definition WHC_Recv (p : side) (n buf : Z) (k : Z -> prog whc_op) : prog whc_op :=
  get! sts := Read_RXSTS p in
  if negb (Z.land sts (shl32 1 n) =? 0) then
    recv_words p n buf (Z.to_nat WHC_BUFFER_LEN) 0 (do! Write_RXCTL p (shl32 1 n) ;; k 0)
  else k (-1).

(** ** The device driver *)

Definition int_mask (n : Z) : Z := Z.lor (shl32 WHC_INTEN_TX0IEN_Msk n) (shl32 WHC_INTEN_RX0IEN_Msk n).

Definition nu_whc_open (p : side) (n : Z) : prog whc_op :=
  get! v := Read_INTEN p in do! Write_INTEN p (Z.lor v (int_mask n)) ;; Stop RT_EOK.
Definition nu_whc_close (p : side) (n : Z) : prog whc_op :=
  get! v := Read_INTEN p in do! Write_INTEN p (Z.land v (not32 (int_mask n))) ;; Stop RT_EOK.

Definition bad_buffer (buffer size : Z) : bool := negb (sizeof_nu_whc_msg =? size) || negb (Z.land buffer 0x3 =? 0).

Definition io_result (size r : Z) : prog whc_op := if r <? 0 then Stop 0 else Stop size.

Definition nu_whc_read (p : side) (n buffer size : Z) : prog whc_op :=
  if bad_buffer buffer size then Stop 0 else WHC_Recv p n buffer (io_result size).

Definition nu_whc_write (p : side) (n buffer size : Z) : prog whc_op :=
  if bad_buffer buffer size then Stop 0
  else do! Write_pvTxBuf p n buffer ;; WHC_Send p n buffer (io_result size).

(** The two cases of the handler's [switch]. *)
Definition isr_tx (p : side) (n : Z) (k : prog whc_op) : prog whc_op :=
  get! f := Has_tx_complete p n in
  if f =? 0 then k else
  get! b := Read_pvTxBuf p n in
  if b =? 0 then k else
  get! b' := Read_pvTxBuf p n in
  do! Call_tx_complete p n b' ;;
  do! Write_pvTxBuf p n 0 ;; k.

Definition isr_rx (p : side) (n : Z) (k : prog whc_op) : prog whc_op :=
  get! f := Has_rx_indicate p n in
  if f =? 0 then k else do! Call_rx_indicate p n ;; k.

Definition isr_case (p : side) (irqidx : Z) (k : prog whc_op) : prog whc_op :=
  if (WHC_INTSTS_TX0IF_Pos <=? irqidx) && (irqidx <? WHC_INTSTS_TX0IF_Pos + WHC_CH) then isr_tx p (irqidx - WHC_INTSTS_TX0IF_Pos) k
  else if (WHC_INTSTS_RX0IF_Pos <=? irqidx) && (irqidx <? WHC_INTSTS_RX0IF_Pos + WHC_CH) then isr_rx p (irqidx - WHC_INTSTS_RX0IF_Pos) k
  else k.

Fixpoint whc_isr_loop (p : side) (fuel : nat) (sts : Z) : prog whc_op :=
  match fuel with
  | O => Stop 0
  | S fuel' =>
      let irqidx := nu_ctz sts in
      if irqidx =? 32 then Stop 0
      else isr_case p irqidx
        (do! Write_INTSTS p (shl32 1 irqidx) ;; whc_isr_loop p fuel' (Z.land sts (not32 (shl32 1 irqidx))))
  end.

Definition nu_whc_isr (p : side) : prog whc_op :=
  get! sts := Read_INTSTS p in whc_isr_loop p 33 sts.

(** ** The system *)

Definition whc_prog (p : side) (c : whc_call) : prog whc_op :=
  match c with
  | Open n => nu_whc_open p n
  | Close n => nu_whc_close p n
  | Read n buffer size => nu_whc_read p n buffer size
  | Write n buffer size => nu_whc_write p n buffer size
  | Poke a v => do! Store p a v ;; Stop 0
  end.

Definition words : list Z := [0; 1; 2; 3].
Definition words_at (f : Z -> Z) (a : Z) : list Z := map (fun i => f (a + 4 * i)) words.

Definition call_data (h : whc) (p : side) (c : whc_call) : list Z :=
  match c with Read _ buffer _ | Write _ buffer _ => words_at (ram h p) buffer | _ => [] end.

Definition whc_driver (side_of : Z -> side) : driver whc_op whc whc_call :=
  mkDriver whc_access (fun t c => whc_prog (side_of t) c)
    (fun p h => negb (Z.land (INTSTS h p) (INTEN h p) =? 0)) nu_whc_isr
    (fun t c z h => record h (Returned t c z (call_data h (side_of t) c))).
