(* ===== verification/WhcInv.v ===== *)
(** * The mailboxes deliver

    The invariant of the two drivers: where the threads can be, what the data registers and
    buffers then hold, and that the messages sent on a channel are those received and the
    one that is in it. *)

From Stdlib Require Import ZArith Lia Bool.
From stdpp Require Import base tactics numbers list option.
From S2P Require Import Prelude BitUtil Conc Whc.

Open Scope Z_scope.

Definition is_chn (n : Z) : Prop := 0 <= n < WHC_CH.

Lemma chn_cases n : is_chn n -> n = 0 \/ n = 1 \/ n = 2 \/ n = 3.
Proof. unfold is_chn, WHC_CH. lia. Qed.

Lemma named_bit n m : is_chn n -> named (shl32 1 n) m = (m =? n).
Proof.
  intros Hn. unfold named, WHC_CH. destruct (Z.eqb_spec m n) as [->|Hne].
  - destruct (chn_cases n Hn) as [-> |[-> |[-> | ->]]]; done.
  - destruct (Z.leb_spec 0 m), (Z.ltb_spec m 4); cbn [andb]; try done.
    assert (m = 0 \/ m = 1 \/ m = 2 \/ m = 3) as [-> |[-> |[-> | ->]]] by lia;
      destruct (chn_cases n Hn) as [-> |[-> |[-> | ->]]]; done.
Qed.

Lemma ready_bit f n : is_chn n -> negb (Z.land (ready_bits f) (shl32 1 n) =? 0) = f n.
Proof.
  intros Hn. unfold ready_bits, channels. cbn [fold_right].
  destruct (chn_cases n Hn) as [-> |[-> |[-> | ->]]]; destruct (f 0), (f 1), (f 2), (f 3); done.
Qed.

(** ** Messages of a run *)

Section inv.
Variable side_of : Z -> side.

(** The messages that writes, and reads, of the channel reported as moved. *)
Definition sent_by (p : side) (n : Z) (e : whc_event) : option (list Z) :=
  match e with
  | Returned t (Write m _ _) z data => if bool_decide (side_of t = p) && (m =? n) && (z =? sizeof_nu_whc_msg) then Some data else None
  | _ => None
  end.
Definition received_from (p : side) (n : Z) (e : whc_event) : option (list Z) :=
  match e with
  | Returned t (Read m _ _) z data => if bool_decide (side_of t = other p) && (m =? n) && (z =? sizeof_nu_whc_msg) then Some data else None
  | _ => None
  end.
Definition sent (p : side) (n : Z) (l : list whc_event) : list (list Z) := omap (sent_by p n) l.
Definition received (p : side) (n : Z) (l : list whc_event) : list (list Z) := omap (received_from p n) l.

Definition in_channel (h : whc) (p : side) (n : Z) : list (list Z) :=
  if posted h p n then [map (TMDAT h p n) words] else [].

Definition msgs_ok (h : whc) : Prop :=
  forall p n, is_chn n -> sent p n (events h) = received p n (events h) ++ in_channel h p n.

(** ** Program points *)

(** Who uses what: one sending and one receiving thread per channel of a processor, buffers
    of their own. *)
Variables (sender receiver : side -> Z -> Z) (area : side -> Z -> Z).

Definition buffer_of (p : side) (t buf : Z) : Prop := forall i, 0 <= i < WHC_BUFFER_LEN -> area p (buf + 4 * i) = t.

Definition whc_allowed (a : action whc_call) : Prop :=
  match a with
  | Start t (Write n buf _) => is_chn n /\ sender (side_of t) n = t /\ buffer_of (side_of t) t buf
  | Start t (Read n buf _) => is_chn n /\ receiver (side_of t) n = t /\ buffer_of (side_of t) t buf
  | Start t (Poke a _) => area (side_of t) a = t
  | _ => True
  end.

Definition writes (p : side) (t n buf : Z) : Prop := is_chn n /\ sender p n = t /\ buffer_of p t buf.
Definition reads (p : side) (t n buf : Z) : Prop := is_chn n /\ receiver p n = t /\ buffer_of p t buf.

Definition moves (c : whc_call) : bool := match c with Read _ _ _ | Write _ _ _ => true | _ => false end.

(** What [open], [close] and the client's own stores access. *)
Definition local_op (p : side) (t : Z) (o : whc_op) : Prop :=
  match o with Read_INTEN _ | Write_INTEN _ _ => True | Store q a _ => q = p /\ area p a = t | _ => False end.

Definition after_send (p : side) (n : Z) : prog whc_op := Do (Write_TXCTL p (shl32 1 n)) (fun _ => io_result sizeof_nu_whc_msg 0).
Definition after_recv (p : side) (n : Z) : prog whc_op := Do (Write_RXCTL p (shl32 1 n)) (fun _ => io_result sizeof_nu_whc_msg 0).

Inductive wpoint (h : whc) (p : side) (t : Z) : whc_call -> prog whc_op -> Prop :=
  | wp_stop c z : wpoint h p t c (Stop z)
  | wp_other c q : moves c = false -> straight (local_op p t) q -> wpoint h p t c q
  | wp_pvTxBuf n buf : writes p t n buf ->
      wpoint h p t (Write n buf sizeof_nu_whc_msg) (nu_whc_write p n buf sizeof_nu_whc_msg)
  | wp_send n buf : writes p t n buf ->
      wpoint h p t (Write n buf sizeof_nu_whc_msg) (WHC_Send p n buf (io_result sizeof_nu_whc_msg))
  | wp_send_words n buf f i : writes p t n buf -> 0 <= i -> i + Z.of_nat f = WHC_BUFFER_LEN -> posted h p n = false ->
      (forall j, 0 <= j < i -> TMDAT h p n j = ram h p (buf + 4 * j)) ->
      wpoint h p t (Write n buf sizeof_nu_whc_msg) (send_words p n buf f i (after_send p n))
  | wp_send_word n buf f i : writes p t n buf -> 0 <= i -> i + Z.of_nat (S f) = WHC_BUFFER_LEN -> posted h p n = false ->
      (forall j, 0 <= j < i -> TMDAT h p n j = ram h p (buf + 4 * j)) ->
      wpoint h p t (Write n buf sizeof_nu_whc_msg)
        (Do (Write_TMDAT p n i (ram h p (buf + 4 * i))) (fun _ => send_words p n buf f (i + 1) (after_send p n)))
  | wp_recv n buf : reads p t n buf ->
      wpoint h p t (Read n buf sizeof_nu_whc_msg) (WHC_Recv p n buf (io_result sizeof_nu_whc_msg))
  | wp_recv_words n buf f i : reads p t n buf -> 0 <= i -> i + Z.of_nat f = WHC_BUFFER_LEN -> posted h (other p) n = true ->
      (forall j, 0 <= j < i -> ram h p (buf + 4 * j) = TMDAT h (other p) n j) ->
      wpoint h p t (Read n buf sizeof_nu_whc_msg) (recv_words p n buf f i (after_recv p n))
  | wp_recv_word n buf f i : reads p t n buf -> 0 <= i -> i + Z.of_nat (S f) = WHC_BUFFER_LEN -> posted h (other p) n = true ->
      (forall j, 0 <= j < i -> ram h p (buf + 4 * j) = TMDAT h (other p) n j) ->
      wpoint h p t (Read n buf sizeof_nu_whc_msg)
        (Do (Store p (buf + 4 * i) (TMDAT h (other p) n i)) (fun _ => recv_words p n buf f (i + 1) (after_recv p n))).

(** What the handler accesses. *)
Definition handler_op (o : whc_op) : Prop :=
  match o with
  | Read_INTSTS _ | Write_INTSTS _ _ | Read_pvTxBuf _ _ | Write_pvTxBuf _ _ _ | Has_tx_complete _ _ | Has_rx_indicate _ _
  | Call_tx_complete _ _ _ | Call_rx_indicate _ _ => True
  | _ => False
  end.

Record whc_inv (s : sys whc_op whc whc_call) : Prop := {
  wi_msgs : msgs_ok (hw s);
  wi_thr : forall t, wpoint (hw s) (side_of t) t (last s t) (code (threads s t));
  wi_isr : forall p, straight handler_op (code (isr s p))
}.

(** ** What the others do *)

(** A change that respects what thread [t] on [p] knows. *)
Record wquiet (p : side) (t : Z) (h h' : whc) : Prop := {
  wq_free n : is_chn n -> sender p n = t -> posted h p n = false -> posted h' p n = false;
  wq_data n i : is_chn n -> sender p n = t -> TMDAT h' p n i = TMDAT h p n i;
  wq_full n i : is_chn n -> receiver p n = t -> posted h (other p) n = true ->
    posted h' (other p) n = true /\ TMDAT h' (other p) n i = TMDAT h (other p) n i;
  wq_ram a : area p a = t -> ram h' p a = ram h p a
}.

Lemma wquiet_same p t h h' : TMDAT h' = TMDAT h -> posted h' = posted h -> ram h' = ram h -> wquiet p t h h'.
Proof. intros E1 E2 E3. split; intros *; rewrite ?E1, ?E2, ?E3; done. Qed.

Lemma wquiet_trans p t h1 h2 h3 : wquiet p t h1 h2 -> wquiet p t h2 h3 -> wquiet p t h1 h3.
Proof.
  intros [A1 A2 A3 A4] [B1 B2 B3 B4]. split.
  - eauto.
  - intros n i Hn Hs. by rewrite B2, A2.
  - intros n i Hn Hr Hp. destruct (A3 n i Hn Hr Hp) as [Hp2 E]. destruct (B3 n i Hn Hr Hp2) as [Hp3 E3]. by rewrite E3, E.
  - intros a Ha. by rewrite B4, A4.
Qed.

Lemma wquiet_point p t h h' c q : wquiet p t h h' -> wpoint h p t c q -> wpoint h' p t c q.
Proof.
  intros [Q1 Q2 Q3 Q4]. destruct 1; try (by constructor).
  - destruct H as (Hn & Hs & Hb). apply wp_send_words; auto; [by split|]. intros j Hj. rewrite Q2, Q4 by (try done; apply Hb; lia). auto.
  - destruct H as (Hn & Hs & Hb). assert (Hi : area p (buf + 4 * i) = t) by (apply Hb; lia). rewrite <-(Q4 _ Hi).
    apply wp_send_word; auto; [by split|]. intros j Hj. rewrite Q2, Q4 by (try done; apply Hb; lia). auto.
  - destruct H as (Hn & Hs & Hb). apply wp_recv_words; auto; [by split|by apply (Q3 n 0)|]. intros j Hj.
    rewrite Q4 by (apply Hb; lia). destruct (Q3 n j Hn Hs H2) as [_ ->]. auto.
  - destruct H as (Hn & Hs & Hb). destruct (Q3 n i Hn Hs H2) as [Hp <-]. apply wp_recv_word; auto; [by split|]. intros j Hj.
    rewrite Q4 by (apply Hb; lia). destruct (Q3 n j Hn Hs H2) as [_ ->]. auto.
Qed.

(** ** Messages and the record *)

Lemma msgs_same h h' :
  events h' = events h -> posted h' = posted h -> (forall p n i, posted h p n = true -> TMDAT h' p n i = TMDAT h p n i) ->
  msgs_ok h -> msgs_ok h'.
Proof.
  intros E1 E2 E3 H p n Hn. rewrite E1, (H p n Hn). f_equal. unfold in_channel. rewrite E2. destruct (posted h p n) eqn:Ep; [|done].
  f_equal. apply map_ext. intros i. by rewrite E3.
Qed.

Lemma msgs_record h e :
  (forall p n, sent_by p n e = None /\ received_from p n e = None) -> msgs_ok h -> msgs_ok (record h e).
Proof.
  intros He H p n Hn. unfold sent, received, in_channel. cbn. rewrite !omap_app. cbn.
  destruct (He p n) as [-> ->]. rewrite !app_nil_r. by apply H.
Qed.

(** A return that reports no message. *)
Lemma msgs_leave t c th h :
  (forall z, code th = Stop z -> moves c = false \/ z <> sizeof_nu_whc_msg) ->
  msgs_ok h -> msgs_ok (leave (whc_driver side_of) t c th h).
Proof.
  intros Hz H. unfold leave. destruct (code th) as [z| | |] eqn:E; try done. apply msgs_record; [|done]. intros p n.
  destruct (Hz z eq_refl) as [Hc|Hne]; [by destruct c|]. apply Z.eqb_neq in Hne.
  destruct c; cbn; rewrite ?Hne, ?andb_false_r; done.
Qed.

Lemma wpoint_leave t c th h p u d q : wpoint h p u d q -> wpoint (leave (whc_driver side_of) t c th h) p u d q.
Proof. apply wquiet_point. unfold leave. destruct (code th); by apply wquiet_same. Qed.

(** The message goes into the channel, and the write returns. *)
Lemma msgs_posted t n buf sts h :
  is_chn n -> posted h (side_of t) n = false ->
  (forall j, 0 <= j < WHC_BUFFER_LEN -> TMDAT h (side_of t) n j = ram h (side_of t) (buf + 4 * j)) ->
  msgs_ok h ->
  let h' := set_posted h (upd_side (posted h) (side_of t) (fun m => named (shl32 1 n) m || posted h (side_of t) m)) sts in
  msgs_ok (record h' (Returned t (Write n buf sizeof_nu_whc_msg) sizeof_nu_whc_msg (words_at (ram h' (side_of t)) buf))).
Proof.
  intros Hn Hp Hd H h' p m Hm. unfold sent, received. cbn. rewrite !omap_app. cbn. rewrite app_nil_r.
  fold (sent p m (events h)) (received p m (events h)). rewrite (H p m Hm). unfold in_channel. cbn. unfold upd_side.
  destruct (decide (p = side_of t)) as [->|Hne]; cbn [andb].
  - rewrite bool_decide_true by done. cbn [andb]. rewrite named_bit by done. destruct (Z.eqb_spec m n) as [->|Hmn]; cbn [orb].
    + rewrite Z.eqb_refl, Hp. cbn. rewrite app_nil_r. do 2 f_equal. rewrite !Hd by (unfold WHC_BUFFER_LEN; lia). done.
    + assert ((n =? m) = false) as -> by lia. cbn. by rewrite app_nil_r.
  - rewrite bool_decide_false by done. cbn. by rewrite app_nil_r.
Qed.

(** The message is out of the channel, and the read returns. *)
Lemma msgs_taken t n buf sts h :
  is_chn n -> posted h (other (side_of t)) n = true ->
  (forall j, 0 <= j < WHC_BUFFER_LEN -> ram h (side_of t) (buf + 4 * j) = TMDAT h (other (side_of t)) n j) ->
  msgs_ok h ->
  let q := other (side_of t) in
  let h' := set_posted h (upd_side (posted h) q (fun m => negb (named (shl32 1 n) m) && posted h q m)) sts in
  msgs_ok (record h' (Returned t (Read n buf sizeof_nu_whc_msg) sizeof_nu_whc_msg (words_at (ram h' (side_of t)) buf))).
Proof.
  intros Hn Hp Hd H q h' p m Hm. fold q in Hp. unfold sent, received. cbn. rewrite !omap_app. cbn. rewrite app_nil_r.
  fold (sent p m (events h)) (received p m (events h)). rewrite (H p m Hm). unfold in_channel. cbn. unfold upd_side.
  destruct (decide (p = q)) as [->|Hne]; cbn [andb].
  - rewrite bool_decide_true by (unfold q; by rewrite other_other). cbn [andb]. rewrite named_bit by done.
    destruct (Z.eqb_spec m n) as [->|Hmn]; cbn [negb andb].
    + rewrite Z.eqb_refl, Hp. cbn. rewrite app_nil_r. do 2 f_equal. rewrite !Hd by (unfold WHC_BUFFER_LEN; lia). done.
    + assert ((n =? m) = false) as -> by lia. cbn. by rewrite app_nil_r.
  - rewrite bool_decide_false; [cbn; by rewrite app_nil_r|]. intros E. apply Hne. unfold q. rewrite E. by rewrite other_other.
Qed.

(** ** One access of a thread *)

Lemma other_writer p t n buf u m : writes p t n buf -> u <> t -> sender p m = u -> m <> n.
Proof. intros (_ & Hs & _) Hne Hu ->. congruence. Qed.
Lemma other_reader p t n buf u m : reads p t n buf -> u <> t -> receiver p m = u -> m <> n.
Proof. intros (_ & Hs & _) Hne Hu ->. congruence. Qed.

Lemma quiet_ram t u p a v h : area p a = t -> u <> t -> wquiet (side_of u) u h (set_ram h p a v).
Proof.
  intros Ha Hne. split; try done. intros b Hb. cbn. apply upd2_ne. intros [= E1 E2]. subst. congruence.
Qed.

Lemma quiet_data t u p n buf i v h :
  writes p t n buf -> posted h p n = false -> u <> t -> wquiet (side_of u) u h (set_data h p n i v).
Proof.
  intros Hw Hp Hne. split; try done; cbn.
  - intros m j Hm Hs. rewrite upd2_ne; [done|]. intros [= E1 E2]. subst. by eapply other_writer.
  - intros m j Hm Hr Hq. split; [done|]. rewrite upd2_ne; [done|]. intros [= E1 E2]. subst. congruence.
Qed.

Lemma quiet_post t u n buf sts h :
  writes (side_of t) t n buf -> u <> t ->
  wquiet (side_of u) u h (set_posted h (upd_side (posted h) (side_of t) (fun m => named (shl32 1 n) m || posted h (side_of t) m)) sts).
Proof.
  intros Hw Hne. pose proof Hw as (Hn & _). split; try done; cbn; unfold upd_side.
  - intros m Hm Hs Hp. destruct (decide (side_of u = side_of t)) as [E|]; [|done]. rewrite named_bit, E in * by done.
    pose proof (other_writer _ _ _ _ _ _ Hw Hne Hs). by destruct (Z.eqb_spec m n).
  - intros m i Hm Hr Hp. split; [|done]. destruct (decide _) as [E|]; [|done]. by rewrite <-E, Hp, orb_true_r.
Qed.

Lemma quiet_take t u n buf sts h :
  reads (side_of t) t n buf -> u <> t ->
  wquiet (side_of u) u h (set_posted h (upd_side (posted h) (other (side_of t))
    (fun m => negb (named (shl32 1 n) m) && posted h (other (side_of t)) m)) sts).
Proof.
  intros Hw Hne. pose proof Hw as (Hn & _). split; try done; cbn; unfold upd_side.
  - intros m Hm Hs Hp. destruct (decide _) as [E|]; [|done]. by rewrite <-E, Hp, andb_false_r.
  - intros m i Hm Hr Hp. split; [|done]. destruct (decide _) as [E|]; [|done].
    assert (side_of u = side_of t) as Eu by (destruct (side_of u), (side_of t); done). rewrite named_bit, <-E, Hp by done.
    rewrite Eu in Hr. pose proof (other_reader _ _ _ _ _ _ Hw Hne Hr). by destruct (Z.eqb_spec m n).
Qed.

(** A step of thread [t] that keeps the messages in order and disturbs nobody. *)
Definition good_step (t : Z) (c : whc_call) (h : whc) (q : prog whc_op) (h' : whc) : Prop :=
  wpoint h' (side_of t) t c q /\ (forall u, u <> t -> wquiet (side_of u) u h h') /\
  forall b, msgs_ok h -> msgs_ok (leave (whc_driver side_of) t c (mkThread q b) h').

Lemma good_read t c h q :
  wpoint h (side_of t) t c q -> (forall z, q = Stop z -> moves c = false \/ z <> sizeof_nu_whc_msg) -> good_step t c h q h.
Proof. intros Hp Hz. split; [done|split; [by intros; apply wquiet_same|]]. intros b. by apply msgs_leave. Qed.

Lemma good_same t c h q h' :
  events h' = events h -> posted h' = posted h -> (forall p n i, posted h p n = true -> TMDAT h' p n i = TMDAT h p n i) ->
  (forall z, q = Stop z -> moves c = false \/ z <> sizeof_nu_whc_msg) ->
  wpoint h' (side_of t) t c q -> (forall u, u <> t -> wquiet (side_of u) u h h') -> good_step t c h q h'.
Proof. intros E1 E2 E3 Hz Hp Hq. split; [done|split; [done|]]. intros b Hm. apply msgs_leave; [done|]. by eapply msgs_same. Qed.

Lemma good_local t c o kk x h ch h' :
  moves c = false -> local_op (side_of t) t o -> straight (local_op (side_of t) t) (kk x) ->
  whc_access o ch h = Some (x, h') -> good_step t c h (kk x) h'.
Proof.
  intros Hc Ho Hk Ha. destruct o; try done; injection Ha as <- <-.
  - apply good_read; [by apply wp_other|auto].
  - apply good_same; auto; [by apply wp_other|by intros; apply wquiet_same].
  - destruct Ho as [-> Ho]. apply good_same; auto; [by apply wp_other|intros u Hu; by apply (quiet_ram t)].
Qed.

Lemma send_words_0 p n buf i k : send_words p n buf 0 i k = k.
Proof. done. Qed.
Lemma send_words_S p n buf f i k :
  send_words p n buf (S f) i k = Do (Load p (buf + 4 * i)) (fun v => Do (Write_TMDAT p n i v) (fun _ => send_words p n buf f (i + 1) k)).
Proof. done. Qed.
Lemma recv_words_S p n buf f i k :
  recv_words p n buf (S f) i k = Do (Read_RMDAT p n i) (fun v => Do (Store p (buf + 4 * i) v) (fun _ => recv_words p n buf f (i + 1) k)).
Proof. done. Qed.

Lemma send_words_stop p n buf f i z : send_words p n buf f i (after_send p n) <> Stop z.
Proof. by destruct f. Qed.
Lemma recv_words_stop p n buf f i z : recv_words p n buf f i (after_recv p n) <> Stop z.
Proof. by destruct f. Qed.

(** A loop that has stored word [i] has the words before [i + 1]. *)
Lemma one_more {A} (f g : Z -> A) i : (forall j, 0 <= j < i -> f j = g j) -> f i = g i -> forall j, 0 <= j < i + 1 -> f j = g j.
Proof. intros H E j Hj. destruct (Z.eq_dec j i) as [->|]; [done|apply H; lia]. Qed.

Lemma good_send t n buf kk o x h ch h' :
  writes (side_of t) t n buf -> WHC_Send (side_of t) n buf (io_result sizeof_nu_whc_msg) = Do o kk ->
  whc_access o ch h = Some (x, h') -> good_step t (Write n buf sizeof_nu_whc_msg) h (kk x) h'.
Proof.
  intros Hw [= <- <-] [= <- <-]. pose proof Hw as (Hn & _). rewrite ready_bit by done. destruct (posted h (side_of t) n) eqn:E; cbn [negb].
  - apply good_read; [apply wp_stop|]. intros z [= <-]. by right.
  - apply good_read; [|by intros z [=]].
    apply (wp_send_words h (side_of t) t n buf (Z.to_nat WHC_BUFFER_LEN) 0); try done. lia.
Qed.

Lemma good_recv t n buf kk o x h ch h' :
  reads (side_of t) t n buf -> WHC_Recv (side_of t) n buf (io_result sizeof_nu_whc_msg) = Do o kk ->
  whc_access o ch h = Some (x, h') -> good_step t (Read n buf sizeof_nu_whc_msg) h (kk x) h'.
Proof.
  intros Hw [= <- <-] [= <- <-]. pose proof Hw as (Hn & _). rewrite ready_bit by done.
  destruct (posted h (other (side_of t)) n) eqn:E.
  - apply good_read; [|by intros z [=]].
    apply (wp_recv_words h (side_of t) t n buf (Z.to_nat WHC_BUFFER_LEN) 0); try done. lia.
  - apply good_read; [apply wp_stop|]. intros z [= <-]. by right.
Qed.

Lemma good_send_words t n buf f i kk o x h ch h' :
  writes (side_of t) t n buf -> 0 <= i -> i + Z.of_nat f = WHC_BUFFER_LEN -> posted h (side_of t) n = false ->
  (forall j, 0 <= j < i -> TMDAT h (side_of t) n j = ram h (side_of t) (buf + 4 * j)) ->
  send_words (side_of t) n buf f i (after_send (side_of t) n) = Do o kk ->
  whc_access o ch h = Some (x, h') -> good_step t (Write n buf sizeof_nu_whc_msg) h (kk x) h'.
Proof.
  intros Hw Hi Hf Hp Hd. pose proof Hw as (Hn & _). destruct f as [|f].
  - replace i with WHC_BUFFER_LEN in Hd by lia. intros [= <- <-] [= <- <-]. split; [apply wp_stop|]. split; [intros u Hu; by eapply quiet_post|].
    intros b Hm. by apply msgs_posted.
  - intros [= <- <-] [= <- <-]. apply good_read; [by apply wp_send_word|done].
Qed.

Lemma good_send_word t n buf f i h :
  writes (side_of t) t n buf -> 0 <= i -> i + Z.of_nat (S f) = WHC_BUFFER_LEN -> posted h (side_of t) n = false ->
  (forall j, 0 <= j < i -> TMDAT h (side_of t) n j = ram h (side_of t) (buf + 4 * j)) ->
  good_step t (Write n buf sizeof_nu_whc_msg) h (send_words (side_of t) n buf f (i + 1) (after_send (side_of t) n))
    (set_data h (side_of t) n i (ram h (side_of t) (buf + 4 * i))).
Proof.
  intros Hw Hi Hf Hp Hd. apply good_same; try done.
  - intros p m j Hm. cbn. rewrite upd2_ne; [done|]. intros [= -> ->]. congruence.
  - intros z H. by apply send_words_stop in H.
  - apply wp_send_words; [done|lia|lia|done|]. cbn. rewrite upd2_eq. apply one_more; [|by rewrite upd_eq].
    intros j Hj. rewrite upd_ne by lia. by apply Hd.
  - intros u Hu. by eapply quiet_data.
Qed.

Lemma good_recv_words t n buf f i kk o x h ch h' :
  reads (side_of t) t n buf -> 0 <= i -> i + Z.of_nat f = WHC_BUFFER_LEN -> posted h (other (side_of t)) n = true ->
  (forall j, 0 <= j < i -> ram h (side_of t) (buf + 4 * j) = TMDAT h (other (side_of t)) n j) ->
  recv_words (side_of t) n buf f i (after_recv (side_of t) n) = Do o kk ->
  whc_access o ch h = Some (x, h') -> good_step t (Read n buf sizeof_nu_whc_msg) h (kk x) h'.
Proof.
  intros Hw Hi Hf Hp Hd. pose proof Hw as (Hn & _). destruct f as [|f].
  - replace i with WHC_BUFFER_LEN in Hd by lia. intros [= <- <-] [= <- <-]. split; [apply wp_stop|]. split; [intros u Hu; by eapply quiet_take|].
    intros b Hm. by apply msgs_taken.
  - intros [= <- <-] [= <- <-]. apply good_read; [by apply wp_recv_word|done].
Qed.

Lemma good_recv_word t n buf f i h :
  reads (side_of t) t n buf -> 0 <= i -> i + Z.of_nat (S f) = WHC_BUFFER_LEN -> posted h (other (side_of t)) n = true ->
  (forall j, 0 <= j < i -> ram h (side_of t) (buf + 4 * j) = TMDAT h (other (side_of t)) n j) ->
  good_step t (Read n buf sizeof_nu_whc_msg) h (recv_words (side_of t) n buf f (i + 1) (after_recv (side_of t) n))
    (set_ram h (side_of t) (buf + 4 * i) (TMDAT h (other (side_of t)) n i)).
Proof.
  intros Hw Hi Hf Hp Hd. pose proof Hw as (_ & _ & Hb). apply good_same; try done.
  - intros z H. by apply recv_words_stop in H.
  - apply wp_recv_words; [done|lia|lia|done|]. cbn. apply one_more; [|by rewrite upd2_eq].
    intros j Hj. rewrite upd2_ne; [by apply Hd|]. intros [= E]. lia.
  - intros u Hu. apply (quiet_ram t); [apply Hb; lia|done].
Qed.

Lemma good_pvTxBuf t n buf kk o x h ch h' :
  writes (side_of t) t n buf -> nu_whc_write (side_of t) n buf sizeof_nu_whc_msg = Do o kk ->
  whc_access o ch h = Some (x, h') -> good_step t (Write n buf sizeof_nu_whc_msg) h (kk x) h'.
Proof.
  intros Hw. unfold nu_whc_write. destruct (bad_buffer buf _); [done|]. intros [= <- <-] [= <- <-].
  apply good_same; try done; [by apply wp_send].
Qed.

Lemma access_good t c o kk x h ch h' :
  wpoint h (side_of t) t c (Do o kk) -> whc_access o ch h = Some (x, h') -> good_step t c h (kk x) h'.
Proof.
  intros Hp Ha. remember (Do o kk) as q eqn:Eq. destruct Hp.
  - done.
  - subst q. inversion H0; subst. by eapply good_local.
  - by eapply good_pvTxBuf.
  - by eapply good_send.
  - by eapply good_send_words.
  - injection Eq as <- <-. injection Ha as <- <-. by apply good_send_word.
  - by eapply good_recv.
  - by eapply good_recv_words.
  - injection Eq as <- <-. injection Ha as <- <-. by apply good_recv_word.
Qed.

(** ** The handler, and the steps of the system *)

Lemma straight_isr_case p idx k : straight handler_op k -> straight handler_op (isr_case p idx k).
Proof.
  intros Hk. unfold isr_case, isr_tx, isr_rx. destruct (_ && _); [|destruct (_ && _); [|done]];
    (apply straight_do; [done|]; intros f; destruct (f =? 0); [done|]; apply straight_do; [done|]).
  - intros b. destruct (b =? 0); [done|]. repeat (apply straight_do; [done|]; intros ?). done.
  - done.
Qed.

Lemma straight_isr_loop p f v : straight handler_op (whc_isr_loop p f v).
Proof.
  revert v. induction f as [|f IH]; intros v; cbn [whc_isr_loop]; [apply straight_stop|].
  destruct (_ =? 32); [apply straight_stop|]. apply straight_isr_case, straight_do; [done|]. intros _. apply IH.
Qed.

Lemma handler_good o x h ch h' :
  handler_op o -> whc_access o ch h = Some (x, h') -> (msgs_ok h -> msgs_ok h') /\ forall p t, wquiet p t h h'.
Proof.
  intros Ho Ha. destruct o; try done; injection Ha as <- <-; (split; [|by intros; apply wquiet_same]); try done;
    first [by apply msgs_record | by apply msgs_same].
Qed.

Lemma start_point t c h : whc_allowed (Start t c) -> wpoint h (side_of t) t c (whc_prog (side_of t) c).
Proof.
  intros Hc. destruct c as [n|n|n buf size|n buf size|a v]; cbn [whc_prog].
  - apply wp_other; [done|]. repeat (apply straight_do; [done|intros ?]). apply straight_stop.
  - apply wp_other; [done|]. repeat (apply straight_do; [done|intros ?]). apply straight_stop.
  - unfold nu_whc_read. destruct (bad_buffer buf size) eqn:E; [apply wp_stop|]. apply orb_false_iff in E as [E _].
    apply negb_false_iff, Z.eqb_eq in E as <-. by apply wp_recv.
  - destruct (Z.eqb_spec sizeof_nu_whc_msg size) as [<-|E]; [by apply wp_pvTxBuf|]. apply Z.eqb_neq in E.
    unfold nu_whc_write, bad_buffer. rewrite E. apply wp_stop.
  - apply wp_other; [done|]. apply straight_do; [done|intros ?]. apply straight_stop.
Qed.

(** A call that returns at once has moved nothing. *)
Lemma start_stop p c z : whc_prog p c = Stop z -> moves c = false \/ z <> sizeof_nu_whc_msg.
Proof.
  destruct c as [n|n|n buf size|n buf size|a v]; cbn; auto; unfold nu_whc_read, nu_whc_write;
    destruct (bad_buffer _ _); intros [=]; subst; by right.
Qed.

Lemma straight_no_loop (Q : whc_op -> Prop) q : straight Q q -> match q with Again | While _ => False | _ => True end.
Proof. by destruct 1. Qed.

Lemma wpoint_no_loop h p t c q : wpoint h p t c q -> match q with Again | While _ => False | _ => True end.
Proof.
  destruct 1; try done; [by eapply straight_no_loop| | |].
  - unfold nu_whc_write. by destruct (bad_buffer _ _).
  - by destruct f.
  - by destruct f.
Qed.

Lemma whc_step_inv a s s' : whc_inv s -> whc_allowed a -> sys_step (whc_driver side_of) a s = Some s' -> whc_inv s'.
Proof.
  intros [Hm Hthr Hisr] Hall. destruct a as [t c|t ch|p|p]; cbn [sys_step].
  - destruct (stopped (threads s t)); intros [= <-]. split; cbn; [|intros u|done].
    + apply msgs_leave; [|done]. cbn. intros z Hz. by eapply start_stop.
    + apply wpoint_leave. destruct (Z.eq_dec u t) as [->|Hne]; [|rewrite !upd_ne by done; apply Hthr]. rewrite !upd_eq. by apply start_point.
  - pose proof (Hthr t) as Hp. unfold thread_step. destruct (code (threads s t)) as [z| |b|o kk] eqn:Ec; [done| | |].
    + by apply wpoint_no_loop in Hp.
    + by apply wpoint_no_loop in Hp.
    + cbn [access_of whc_driver]. destruct (whc_access o ch (hw s)) as [[x h']|] eqn:Ea; [|done]. intros [= <-].
      destruct (access_good _ _ _ _ _ _ _ _ Hp Ea) as (Hp' & Hq & Hm'). split; cbn; [by apply Hm'|intros u|done].
      apply wpoint_leave. destruct (Z.eq_dec u t) as [->|Hne]; [by rewrite upd_eq|]. rewrite upd_ne by done.
      eapply wquiet_point; [by apply Hq|apply Hthr].
  - destruct (stopped (isr s p) && _); intros [= <-]. split; cbn; [done|done|]. intros q. unfold upd_side.
    destruct (decide (q = p)) as [->|]; [|apply Hisr]. cbn. apply straight_do; [done|]. intros v. apply straight_isr_loop.
  - pose proof (Hisr p) as Hp. unfold thread_step. destruct (code (isr s p)) as [z| |b|o kk] eqn:Ec; [done|by inversion Hp|by inversion Hp|].
    inversion Hp as [|o' k' Ho Hk]; subst. cbn [access_of whc_driver]. destruct (whc_access o 0 (hw s)) as [[x h']|] eqn:Ea; [|done]. intros [= <-].
    destruct (handler_good _ _ _ _ _ Ho Ea) as [Hm' Hq]. split; cbn; [by apply Hm'|intros u|].
    + eapply wquiet_point; [apply Hq|apply Hthr].
    + intros q. unfold upd_side. destruct (decide (q = p)) as [->|]; [apply Hk|apply Hisr].
Qed.
End inv.
