(* ===== verification/WhcMail.v ===== *)
(** * What the mailboxes promise

    Delivery in order without loss, what one write or read does when nobody interferes, and
    runs in which a client is told the wrong thing about its messages, or nothing. *)

From Stdlib Require Import ZArith Lia Bool.
From stdpp Require Import base tactics numbers list option.
From S2P Require Import Prelude BitUtil Conc Whc WhcInv.

Open Scope Z_scope.

(** A start: nothing in the channels, no call and no handler running. *)
Definition whc_start (s : sys whc_op whc whc_call) : Prop :=
  (forall p n, posted (hw s) p n = false) /\ events (hw s) = [] /\
  (forall t, stopped (threads s t) = true) /\ (forall p, stopped (isr s p) = true).

Lemma stopped_code {O} (th : thread O) : stopped th = true -> exists z, code th = Stop z.
Proof. unfold stopped. destruct (code th); [eauto|done..]. Qed.

Lemma start_inv side_of sender receiver area s : whc_start s -> whc_inv side_of sender receiver area s.
Proof.
  intros (Hp & He & Ht & Hi). split.
  - intros p n _. unfold in_channel. by rewrite He, Hp.
  - intros t. destruct (stopped_code _ (Ht t)) as [z ->]. apply wp_stop.
  - intros p. destruct (stopped_code _ (Hi p)) as [z ->]. apply straight_stop.
Qed.

(** C6: delivery.  With one sending and one receiving thread for each channel of a
    processor, each with buffers of its own, and with any interleaving of the accesses of
    all threads of both processors and of the interrupt handlers: the messages that reads
    of a channel have returned are those that writes of it have returned as sent, word for
    word and in their order, without gap or repetition, but for one that is still in the
    channel. *)
Theorem whc_delivers side_of sender receiver area s0 s :
  whc_start s0 -> reach (whc_driver side_of) (whc_allowed side_of sender receiver area) s0 s ->
  forall p n, is_chn n ->
  sent side_of p n (events (hw s)) =
    received side_of p n (events (hw s)) ++ (if posted (hw s) p n then [map (TMDAT (hw s) p n) words] else []).
Proof.
  intros H0 Hr. assert (Hi : whc_inv side_of sender receiver area s); [|by apply (wi_msgs _ _ _ _ _ Hi)].
  revert Hr. apply reach_rule; [|by apply start_inv]. intros x a x' Hx Ha Hs. by eapply whc_step_inv.
Qed.

(** ** Calls alone *)

Ltac one := eapply alone_do; [reflexivity|]; cbn beta.

Definition aligned (buf : Z) : Prop := Z.land buf 0x3 = 0.

Lemma good_buffer buf : aligned buf -> bad_buffer buf sizeof_nu_whc_msg = false.
Proof. intros H. unfold bad_buffer. by rewrite H. Qed.

Lemma write_alone p n buf c h :
  is_chn n -> aligned buf ->
  exists h', alone whc_access c (mkThread (nu_whc_write p n buf sizeof_nu_whc_msg) Again) h
      (Stop (if posted h p n then 0 else sizeof_nu_whc_msg)) h' /\
    posted h' p n = true /\ pvTxBuf h' p n = buf /\
    if posted h p n then TMDAT h' = TMDAT h /\ INTSTS h' = INTSTS h
    else map (TMDAT h' p n) words = words_at (ram h p) buf /\
      INTSTS h' (other p) = Z.lor (INTSTS h (other p)) (Z.shiftl (Z.land (shl32 1 n) 0xf) WHC_INTSTS_RX0IF_Pos).
Proof.
  intros Hn Hb. unfold nu_whc_write, WHC_Send. rewrite good_buffer by done.
  destruct (posted h p n) eqn:E; eexists; (split; [one; eapply alone_do; [reflexivity|]; rewrite ready_bit by done; cbn [posted set_pvTxBuf]; rewrite E; cbn [negb]|]).
  - apply alone_end.
  - cbn. by rewrite E, upd2_eq.
  - change (Z.to_nat WHC_BUFFER_LEN) with 4%nat. cbn [send_words]. do 9 one. apply alone_end.
  - cbn. rewrite !upd2_eq, !upd_side_eq, named_bit, Z.eqb_refl by done. done.
Qed.

Lemma read_alone p n buf c h :
  is_chn n -> aligned buf ->
  exists h', alone whc_access c (mkThread (nu_whc_read p n buf sizeof_nu_whc_msg) Again) h
      (Stop (if posted h (other p) n then sizeof_nu_whc_msg else 0)) h' /\
    posted h' (other p) n = false /\
    if posted h (other p) n then words_at (ram h' p) buf = map (TMDAT h (other p) n) words /\
      INTSTS h' (other p) = Z.lor (INTSTS h (other p)) (Z.shiftl (Z.land (shl32 1 n) 0xf) WHC_INTSTS_TX0IF_Pos)
    else h' = h.
Proof.
  intros Hn Hb. unfold nu_whc_read, WHC_Recv. rewrite good_buffer by done.
  destruct (posted h (other p) n) eqn:E; eexists; (split; [eapply alone_do; [reflexivity|]; rewrite ready_bit by done; cbn [posted set_pvTxBuf]; rewrite E; cbn [negb]|]).
  - change (Z.to_nat WHC_BUFFER_LEN) with 4%nat. cbn [recv_words]. do 9 one. apply alone_end.
  - cbn. rewrite !upd_side_eq, named_bit, Z.eqb_refl by done. cbn. split_and!; [done| |done].
    unfold words_at, words. cbn [map]. repeat first [rewrite upd2_eq | rewrite upd2_ne by (intros [=]; lia)]. done.
  - apply alone_end.
  - done.
Qed.

(** ** Notifications

    Channel 0, with thread 1 on the A35 and thread 3 on the M4; on both processors the
    client has registered both functions. *)

Definition a35_1 (t : Z) : side := if t =? 1 then A35 else M4.
Definition one_each (p : side) (_ : Z) : Z := match p with A35 => 1 | M4 => 3 end.

Definition mail_boot : sys whc_op whc whc_call :=
  mkSys (mkWhc (fun _ _ _ => 0) (fun _ _ => false) (fun _ => 0) (fun _ => 0) (fun _ _ => 0) (fun _ _ => true) (fun _ _ => true)
           (fun _ a => a) [])
    (fun _ => Open 0) (fun _ => mkThread (Stop 0) Again) (fun _ => mkThread (Stop 0) Again).

Definition does (t : Z) (c : whc_call) (k : nat) : list (action whc_call) := Start t c :: replicate k (Step t 0).
Definition interrupt (p : side) (k : nat) : list (action whc_call) := Irq p :: replicate k (Isr p).
Definition resumes (p : side) (k : nat) : list (action whc_call) := replicate k (Isr p).

(** The second message comes between the indication of the first and the clearing of its
    flag. *)
Definition unseen_message : list (action whc_call) :=
  does 1 (Open 0) 2 ++ does 3 (Write 0 0x100 16) 11 ++ interrupt A35 3 ++ does 1 (Read 0 0x200 16) 10 ++
  does 3 (Write 0 0x110 16) 11 ++ resumes A35 1.

(** A second write is refused while the first message is in the channel. *)
Definition wrong_buffer : list (action whc_call) :=
  does 1 (Open 0) 2 ++ does 1 (Write 0 0x100 16) 11 ++ does 1 (Write 0 0x200 16) 2 ++ does 3 (Read 0 0x300 16) 10 ++ interrupt A35 7.

(** The function for the first message lets the thread write the second. *)
Definition lost_completion : list (action whc_call) :=
  does 1 (Open 0) 2 ++ does 1 (Write 0 0x100 16) 11 ++ does 3 (Read 0 0x300 16) 10 ++ interrupt A35 5 ++
  does 1 (Write 0 0x200 16) 11 ++ resumes A35 2 ++ does 3 (Read 0 0x310 16) 10 ++ interrupt A35 4.

(** Nothing runs, and the A35 will not be interrupted. *)
Definition at_rest (s : sys whc_op whc whc_call) : Prop :=
  stopped (threads s 1) = true /\ stopped (threads s 3) = true /\ stopped (isr s A35) = true /\
  raised (whc_driver a35_1) A35 (hw s) = false.

Definition told (l : list whc_event) : list whc_event :=
  List.filter (fun e => match e with Returned _ _ _ _ => false | _ => true end) l.

Definition message (a : Z) : list Z := words_at (fun b => b) a.

Definition mail_ok (a : action whc_call) : bool :=
  match a with
  | Start t c => ((t =? 1) || (t =? 3)) && match c with Read n _ _ | Write n _ _ => (0 <=? n) && (n <? WHC_CH) | _ => true end
  | _ => true
  end.

#[local] Abbreviation allowed := (whc_allowed a35_1 one_each one_each one_each).

Lemma mail_allowed l : forallb mail_ok l = true -> Forall allowed l.
Proof.
  intros H. apply Forall_forall. intros a Ha. rewrite forallb_forall in H. specialize (H a Ha).
  destruct a as [t c| | |]; try done. cbn in H. apply andb_true_iff in H as [Ht Hc].
  assert (E : forall n, one_each (a35_1 t) n = t) by (intros n; apply orb_true_iff in Ht as [E|E]; apply Z.eqb_eq in E as ->; done).
  destruct c as [| |n b z|n b z|a v]; cbn; try done; try (split; [unfold is_chn; lia|split; [apply E|intros i _; apply E]]).
Qed.

(** C3: what the clients are told.  Each of these can happen: a message lies in the channel,
    nothing runs and no interrupt is pending, and the receiver was told of one message only,
    which it has read; after a refused write the client is told that the refused buffer was
    delivered, and never that the one sent was; the client sends its second message when
    told that the first was delivered, that message is delivered too, and it is never told
    so. *)
Theorem whc_misreports :
  let ends l P := exists s, reach (whc_driver a35_1) allowed mail_boot s /\
    run_sys (whc_driver a35_1) l mail_boot = Some s /\ at_rest s /\ P (hw s) in
  ends unseen_message (fun h => told (events h) = [Rx_indicate A35 0] /\
    received a35_1 M4 0 (events h) = [message 0x100] /\ posted h M4 0 = true /\ map (TMDAT h M4 0) words = message 0x110) /\
  ends wrong_buffer (fun h => told (events h) = [Tx_complete A35 0 0x200] /\
    received a35_1 A35 0 (events h) = [message 0x100] /\ posted h A35 0 = false) /\
  ends lost_completion (fun h => told (events h) = [Tx_complete A35 0 0x100] /\
    received a35_1 A35 0 (events h) = [message 0x100; message 0x200] /\ posted h A35 0 = false).
Proof.
  assert (H : forall l, forallb mail_ok l = true -> forall P : whc -> Prop,
    match run_sys (whc_driver a35_1) l mail_boot with Some s => at_rest s /\ P (hw s) | None => False end ->
    exists s, reach (whc_driver a35_1) allowed mail_boot s /\
      run_sys (whc_driver a35_1) l mail_boot = Some s /\ at_rest s /\ P (hw s)).
  { intros l Hl P HP. destruct (run_sys (whc_driver a35_1) l mail_boot) as [s|] eqn:E; [|destruct HP]. exists s.
    split; [exact (reach_run _ _ _ _ _ _ (reach_start _ _ _) (mail_allowed l Hl) E)|split; [reflexivity|exact HP]]. }
  intros ends. split; [|split]; (apply H; [reflexivity|vm_compute; repeat split]).
Qed.

Example whc_delivers_witness :
  whc_start mail_boot /\ exists s, reach (whc_driver a35_1) allowed mail_boot s /\
    received a35_1 M4 0 (events (hw s)) = [message 0x100] /\ length (sent a35_1 M4 0 (events (hw s))) = 2%nat.
Proof.
  assert (H0 : whc_start mail_boot) by (split; [|split; [|split]]; reflexivity).
  assert (H : match run_sys (whc_driver a35_1) unseen_message mail_boot with
              | Some s => received a35_1 M4 0 (events (hw s)) = [message 0x100] /\ posted (hw s) M4 0 = true
              | None => False end) by (vm_compute; repeat split).
  split; [exact H0|].
  destruct (run_sys (whc_driver a35_1) unseen_message mail_boot) as [s|] eqn:E; [|destruct H]. destruct H as [H1 H2].
  pose proof (reach_run _ _ _ _ _ _ (reach_start _ _ _) (mail_allowed unseen_message eq_refl) E) as Hr.
  exists s. split; [exact Hr|split; [exact H1|]].
  pose proof (whc_delivers _ _ _ _ _ _ H0 Hr M4 0 (conj (Z.le_refl 0) eq_refl)) as Hd. rewrite H1, H2 in Hd. rewrite Hd. reflexivity.
Defined.
