(* ===== verification/Serial.v ===== *)
(** * Serial devices

    Models the serial framework [rt-thread/components/drivers/serial/serial.c], on any
    port driver ([UartOps], the [struct rt_uart_ops] of the framework): the software FIFO
    that the interrupt handler fills and a client reads, in interrupt and in DMA mode, the
    polled paths, and the device functions open, close, read, write and control.

    No port of the board transmits by DMA; [rt_serial_write] is modelled without that
    branch and [rt_serial_open] without its queue, and DMA reception with a buffer of the
    framework ([bufsz] above 0), as the board configures it. *)

From Stdlib Require Import ZArith Lia Bool.
From stdpp Require Import base tactics numbers list option.
From S2P Require Import Prelude.

Open Scope Z_scope.

Definition RT_DEVICE_FLAG_STREAM : Z := 0x040.
Definition RT_DEVICE_FLAG_DMA_RX : Z := 0x200.
Definition RT_DEVICE_FLAG_DMA_TX : Z := 0x800.
Definition RT_DEVICE_FLAG_SUSPENDED : Z := 0x020.
Definition RT_DEVICE_CTRL_RESUME : Z := 0x01.
Definition RT_DEVICE_CTRL_SUSPEND : Z := 0x02.
Definition RT_DEVICE_CTRL_CONFIG : Z := 0x03.
Definition RT_DEVICE_CTRL_CLOSE : Z := 0x04.

Record serial_configure : Type := mkCfg {
  baud_rate : Z;
  data_bits : Z;
  stop_bits : Z;
  parity : Z;
  bit_order : Z;
  invert : Z;
  bufsz : Z;
  flowcontrol : Z
}.

Record rt_serial_rx_fifo : Type := mkRxFifo {
  buffer : list Z;
  put_index : Z;
  get_index : Z;
  is_full : bool
}.

(** The functions of a port driver.  [tx_wait] is the wait for its transmit interrupt
    ([rt_completion_wait] on the completion of the transmit side). *)
Class UartOps (H : Type) : Type := {
  ops_configure : serial_configure -> M H Z;
  ops_control : Z -> Z -> M H Z;
  ops_putc : Z -> M H Z;
  ops_getc : M H Z;
  tx_wait : M H unit
}.

(** A port: the fields of [struct rt_serial_device] and of its device the framework uses,
    the lengths the client's [rx_indicate] was called with (if it has set one), and the
    state of the driver. *)
Record port (H : Type) : Type := mkPort {
  s_flag : Z;
  s_open_flag : Z;
  s_ref_count : Z;
  s_config : serial_configure;
  s_rx : option rt_serial_rx_fifo;
  s_tx : bool;                     (** whether the transmit FIFO is allocated *)
  s_rx_indicate : bool;
  indicated : list Z;
  low : H
}.
Arguments mkPort {H}.
Arguments s_flag {H} p.
Arguments s_open_flag {H} p.
Arguments s_ref_count {H} p.
Arguments s_config {H} p.
Arguments s_rx {H} p.
Arguments s_tx {H} p.
Arguments s_rx_indicate {H} p.
Arguments indicated {H} p.
Arguments low {H} p.

Section setters.
Context {H : Type}.
Implicit Types p : port H.
Definition set_s_flag (v : Z) p := mkPort v (s_open_flag p) (s_ref_count p) (s_config p) (s_rx p) (s_tx p) (s_rx_indicate p) (indicated p) (low p).
Definition set_s_open_flag (v : Z) p := mkPort (s_flag p) v (s_ref_count p) (s_config p) (s_rx p) (s_tx p) (s_rx_indicate p) (indicated p) (low p).
Definition set_s_ref_count (n : Z) p := mkPort (s_flag p) (s_open_flag p) n (s_config p) (s_rx p) (s_tx p) (s_rx_indicate p) (indicated p) (low p).
Definition set_s_config (c : serial_configure) p := mkPort (s_flag p) (s_open_flag p) (s_ref_count p) c (s_rx p) (s_tx p) (s_rx_indicate p) (indicated p) (low p).
Definition set_s_rx (f : option rt_serial_rx_fifo) p := mkPort (s_flag p) (s_open_flag p) (s_ref_count p) (s_config p) f (s_tx p) (s_rx_indicate p) (indicated p) (low p).
Definition set_s_tx (b : bool) p := mkPort (s_flag p) (s_open_flag p) (s_ref_count p) (s_config p) (s_rx p) b (s_rx_indicate p) (indicated p) (low p).
Definition set_indicated (l : list Z) p := mkPort (s_flag p) (s_open_flag p) (s_ref_count p) (s_config p) (s_rx p) (s_tx p) (s_rx_indicate p) l (low p).
Definition set_low (h : H) p := mkPort (s_flag p) (s_open_flag p) (s_ref_count p) (s_config p) (s_rx p) (s_tx p) (s_rx_indicate p) (indicated p) h.
End setters.

Section serial.
Context {H : Type} `{!UartOps H}.

Definition SER (A : Type) : Type := M (port H) A.

(** A call of the port driver. *)
Definition on_port {A} (m : M H A) : SER A := fun p =>
  match m (low p) with
  | Ret (a, h) => Ret (a, set_low h p)
  | AssertFail => AssertFail
  | Undef => Undef
  | OutOfFuel => OutOfFuel
  end.

(** The receive FIFO; [RT_ASSERT(rx_fifo != RT_NULL)]. *)
Definition the_rx_fifo : SER rt_serial_rx_fifo :=
  let! r := gets s_rx in match r with Some f => ret f | None => fail_assert end.

Definition the_bufsz : SER Z := gets (fun p => bufsz (s_config p)).

Definition put_fifo (f : rt_serial_rx_fifo) : SER unit := modify (set_s_rx (Some f)).

Definition of_outcome {A} (o : outcome A) : SER A := fun p =>
  match o with Ret a => Ret (a, p) | AssertFail => AssertFail | Undef => Undef | OutOfFuel => OutOfFuel end.

(** ** Reception by interrupts *)

(** One byte taken from the FIFO, or none. *)
Definition rx_fifo_take (bs : Z) (f : rt_serial_rx_fifo) : outcome (option (Z * rt_serial_rx_fifo)) :=
  if (get_index f =? put_index f) && negb (is_full f) then Ret None
  else match buffer f !! Z.to_nat (get_index f) with
       | Some ch =>
           let g := u16 (get_index f + 1) in
           Ret (Some (ch, mkRxFifo (buffer f) (put_index f) (if bs <=? g then 0 else g) false))
       | None => Undef
       end.

Fixpoint int_rx_loop (length : nat) : SER (list Z) :=
  match length with
  | O => ret []
  | S length' =>
      let! f := the_rx_fifo in
      let! bs := the_bufsz in
      let! r := of_outcome (rx_fifo_take bs f) in
      match r with
      | None => ret []
      | Some (ch, f') => put_fifo f' ;; let! l := int_rx_loop length' in ret (Z.land ch 0xff :: l)
      end
  end.

(** The bytes stored at [data]; the function returns their number. *)
Definition _serial_int_rx (length : Z) : SER (list Z) := int_rx_loop (Z.to_nat length).

(** One byte put into the FIFO by the handler; the oldest gives way. *)
Definition rx_fifo_put (bs ch : Z) (f : rt_serial_rx_fifo) : outcome rt_serial_rx_fifo :=
  if decide (Z.to_nat (put_index f) < length (buffer f))%nat then
    let b := <[Z.to_nat (put_index f) := u8 ch]> (buffer f) in
    let p := u16 (put_index f + 1) in
    let p := if bs <=? p then 0 else p in
    if p =? get_index f then
      let g := u16 (get_index f + 1) in
      Ret (mkRxFifo b p (if bs <=? g then 0 else g) true)
    else Ret (mkRxFifo b p (get_index f) (is_full f))
  else Undef.

(** [while (1)] in the handler; [fuel] bounds the bytes of one interrupt. *)
Fixpoint rx_ind_loop (fuel : nat) : SER unit :=
  match fuel with
  | O => out_of_fuel
  | S fuel' =>
      let! ch := on_port ops_getc in
      if ch =? -1 then ret tt
      else
        let! f := the_rx_fifo in
        let! bs := the_bufsz in
        let! f' := of_outcome (rx_fifo_put bs ch f) in
        put_fifo f' ;;
        rx_ind_loop fuel'
  end.

(** Bytes in the FIFO by its two indices. *)
Definition fifo_length (bs : Z) (f : rt_serial_rx_fifo) : Z :=
  if get_index f <=? put_index f then put_index f - get_index f else u32 (bs - (get_index f - put_index f)).

Definition rx_indicate (n : Z) : SER unit :=
  let! b := gets s_rx_indicate in
  if b then let! l := gets indicated in modify (set_indicated (l ++ [n])) else ret tt.

(** [rt_hw_serial_isr] with RT_SERIAL_EVENT_RX_IND *)
Definition serial_isr_rx_ind (fuel : nat) : SER unit :=
  the_rx_fifo ;;
  rx_ind_loop fuel ;;
  let! f := the_rx_fifo in
  let! bs := the_bufsz in
  if negb (fifo_length bs f =? 0) then rx_indicate (fifo_length bs f) else ret tt.

(** ** Reception by DMA into the FIFO's buffer *)

Definition _serial_fifo_calc_recved_len (bs : Z) (f : rt_serial_rx_fifo) : Z :=
  if put_index f =? get_index f then (if is_full f then bs else 0)
  else if get_index f <? put_index f then put_index f - get_index f
  else u32 (bs - (get_index f - put_index f)).

Definition rt_dma_recv_update_get_index (bs len : Z) (f : rt_serial_rx_fifo) : outcome rt_serial_rx_fifo :=
  if len <=? _serial_fifo_calc_recved_len bs f then
    let full := if is_full f && negb (len =? 0) then false else is_full f in
    let g := u16 (get_index f + u16 len) in
    Ret (mkRxFifo (buffer f) (put_index f) (if bs <=? g then g mod bs else g) full)
  else AssertFail.

Definition rt_dma_recv_update_put_index (bs len : Z) (f : rt_serial_rx_fifo) : rt_serial_rx_fifo :=
  let p := u16 (put_index f + u16 len) in
  let '(p, full) :=
    if get_index f <=? put_index f then
      if bs <=? p then (p mod bs, if get_index f <=? p mod bs then true else is_full f) else (p, is_full f)
    else if get_index f <=? p then (if bs <=? p then p mod bs else p, true)
    else (p, is_full f) in
  mkRxFifo (buffer f) p (if full then p else get_index f) full.

(** [rt_memcpy(data, &buffer[i], n)] *)
Definition copy_from (b : list Z) (i n : Z) : outcome (list Z) :=
  if (0 <=? i) && (0 <=? n) && (i + n <=? Z.of_nat (length b)) then Ret (firstn (Z.to_nat n) (skipn (Z.to_nat i) b)) else Undef.

Definition _serial_dma_rx (length : Z) : SER (list Z) :=
  let! f := the_rx_fifo in
  let! bs := the_bufsz in
  let recved := _serial_fifo_calc_recved_len bs f in
  let recv_len := if length <? recved then length else recved in
  let! data :=
    (if get_index f + recv_len <? bs then of_outcome (copy_from (buffer f) (get_index f) recv_len)
     else
       let! d1 := of_outcome (copy_from (buffer f) (get_index f) (bs - get_index f)) in
       let! d2 := of_outcome (copy_from (buffer f) 0 (recv_len + get_index f - bs)) in
       ret (d1 ++ d2)) in
  let! f' := of_outcome (rt_dma_recv_update_get_index bs recv_len f) in
  put_fifo f' ;;
  ret data.

(** [rt_hw_serial_isr] with RT_SERIAL_EVENT_RX_DMADONE and a length *)
Definition serial_isr_rx_dmadone (length : Z) : SER unit :=
  let! f := the_rx_fifo in
  let! bs := the_bufsz in
  let f' := rt_dma_recv_update_put_index bs length f in
  put_fifo f' ;;
  rx_indicate (_serial_fifo_calc_recved_len bs f').

(** ** Polling *)

Definition has_flag (v m : Z) : bool := negb (Z.land v m =? 0).

Definition NL : Z := 10.
Definition CR : Z := 13.

Fixpoint poll_rx_loop (stream : bool) (length : nat) : SER (list Z) :=
  match length with
  | O => ret []
  | S length' =>
      let! ch := on_port ops_getc in
      if ch =? -1 then ret []
      else if stream && (ch =? NL) then ret [u8 ch]
      else let! l := poll_rx_loop stream length' in ret (u8 ch :: l)
  end.

Definition _serial_poll_rx (length : Z) : SER (list Z) :=
  let! o := gets s_open_flag in poll_rx_loop (has_flag o RT_DEVICE_FLAG_STREAM) (Z.to_nat length).

Fixpoint poll_tx_loop (stream : bool) (data : list Z) : SER unit :=
  match data with
  | [] => ret tt
  | c :: data' =>
      (if (c =? NL) && stream then on_port (ops_putc CR) ;; ret tt else ret tt) ;;
      on_port (ops_putc c) ;;
      poll_tx_loop stream data'
  end.

Definition _serial_poll_tx (data : list Z) : SER Z :=
  let! o := gets s_open_flag in
  poll_tx_loop (has_flag o RT_DEVICE_FLAG_STREAM) data ;;
  ret (Z.of_nat (length data)).

(** The interrupt transmission puts the same byte again after a wait. *)
Fixpoint int_tx_loop (fuel : nat) (stream : bool) (data : list Z) : SER unit :=
  match data with
  | [] => ret tt
  | c :: data' =>
      match fuel with
      | O => out_of_fuel
      | S fuel' =>
          let! r := (if (c =? NL) && stream then on_port (ops_putc CR) else ret 0) in
          if r =? -1 then on_port tx_wait ;; int_tx_loop fuel' stream data
          else
            let! r := on_port (ops_putc c) in
            if r =? -1 then on_port tx_wait ;; int_tx_loop fuel' stream data
            else int_tx_loop fuel' stream data'
      end
  end.

Definition _serial_int_tx (fuel : nat) (data : list Z) : SER Z :=
  let! tx := gets s_tx in
  rt_assert tx ;;
  let! o := gets s_open_flag in
  int_tx_loop fuel (has_flag o RT_DEVICE_FLAG_STREAM) data ;;
  ret (Z.of_nat (length data)).

(** ** The device functions *)

Definition rt_serial_init : SER Z :=
  modify (set_s_rx None) ;;
  modify (set_s_tx false) ;;
  let! c := gets s_config in
  on_port (ops_configure c).

(** [rt_malloc] of the FIFO with [bufsz] bytes, set to 0; [mem] says whether there is memory. *)
Definition new_rx_fifo (mem : bool) : SER unit :=
  let! bs := the_bufsz in
  rt_assert mem ;;
  put_fifo (mkRxFifo (replicate (Z.to_nat bs) 0) 0 0 false).

Definition add_open_flag (m : Z) : SER unit := modify (fun p => set_s_open_flag (Z.lor (s_open_flag p) m) p).

Definition open_rx (mem : bool) (oflag : Z) : SER unit :=
  let! r := gets s_rx in
  match r with
  | None =>
      if has_flag oflag RT_DEVICE_FLAG_INT_RX then
        new_rx_fifo mem ;;
        add_open_flag RT_DEVICE_FLAG_INT_RX ;;
        on_port (ops_control RT_DEVICE_CTRL_SET_INT RT_DEVICE_FLAG_INT_RX) ;; ret tt
      else if has_flag oflag RT_DEVICE_FLAG_DMA_RX then
        new_rx_fifo mem ;;
        on_port (ops_control RT_DEVICE_CTRL_CONFIG RT_DEVICE_FLAG_DMA_RX) ;;
        add_open_flag RT_DEVICE_FLAG_DMA_RX
      else ret tt
  | Some _ =>
      if has_flag oflag RT_DEVICE_FLAG_INT_RX then add_open_flag RT_DEVICE_FLAG_INT_RX
      else if has_flag oflag RT_DEVICE_FLAG_DMA_RX then add_open_flag RT_DEVICE_FLAG_DMA_RX
      else ret tt
  end.

Definition open_tx (mem : bool) (oflag : Z) : SER unit :=
  let! t := gets s_tx in
  if has_flag oflag RT_DEVICE_FLAG_INT_TX then
    if t then add_open_flag RT_DEVICE_FLAG_INT_TX
    else
      rt_assert mem ;;
      modify (set_s_tx true) ;;
      add_open_flag RT_DEVICE_FLAG_INT_TX ;;
      on_port (ops_control RT_DEVICE_CTRL_SET_INT RT_DEVICE_FLAG_INT_TX) ;; ret tt
  else ret tt.

Definition lacks (oflag flag m : Z) : bool := has_flag oflag m && negb (has_flag flag m).

Definition rt_serial_open (mem : bool) (oflag : Z) : SER Z :=
  let! flag := gets s_flag in
  if lacks oflag flag RT_DEVICE_FLAG_DMA_RX then ret (- RT_EIO) else
  if lacks oflag flag RT_DEVICE_FLAG_DMA_TX then ret (- RT_EIO) else
  if lacks oflag flag RT_DEVICE_FLAG_INT_RX then ret (- RT_EIO) else
  if lacks oflag flag RT_DEVICE_FLAG_INT_TX then ret (- RT_EIO) else
  let! o := gets s_open_flag in
  let stream_flag := if has_flag oflag RT_DEVICE_FLAG_STREAM || has_flag o RT_DEVICE_FLAG_STREAM then RT_DEVICE_FLAG_STREAM else 0 in
  modify (set_s_open_flag (Z.land oflag 0xff)) ;;
  open_rx mem oflag ;;
  open_tx mem oflag ;;
  add_open_flag stream_flag ;;
  ret RT_EOK.

Definition drop_open_flag (m : Z) : SER unit := modify (fun p => set_s_open_flag (Z.land (s_open_flag p) (not32 m)) p).

Definition close_rx (m : Z) : SER unit :=
  on_port (ops_control RT_DEVICE_CTRL_CLR_INT m) ;;
  drop_open_flag m ;;
  the_rx_fifo ;;
  modify (set_s_rx None).

Definition rt_serial_close : SER Z :=
  let! n := gets s_ref_count in
  if 1 <? n then ret RT_EOK else
  let! o := gets s_open_flag in
  (if has_flag o RT_DEVICE_FLAG_INT_RX then close_rx RT_DEVICE_FLAG_INT_RX
   else if has_flag o RT_DEVICE_FLAG_DMA_RX then close_rx RT_DEVICE_FLAG_DMA_RX
   else ret tt) ;;
  let! o := gets s_open_flag in
  (if has_flag o RT_DEVICE_FLAG_INT_TX then
     on_port (ops_control RT_DEVICE_CTRL_CLR_INT RT_DEVICE_FLAG_INT_TX) ;;
     drop_open_flag RT_DEVICE_FLAG_INT_TX ;;
     let! t := gets s_tx in rt_assert t ;; modify (set_s_tx false)
   else ret tt) ;;
  on_port (ops_control RT_DEVICE_CTRL_CLOSE 0) ;;
  modify (fun p => set_s_flag (Z.land (s_flag p) (not32 RT_DEVICE_FLAG_ACTIVATED)) p) ;;
  ret RT_EOK.

Definition rt_serial_read (size : Z) : SER (list Z) :=
  if size =? 0 then ret [] else
  let! o := gets s_open_flag in
  if has_flag o RT_DEVICE_FLAG_INT_RX then _serial_int_rx size
  else if has_flag o RT_DEVICE_FLAG_DMA_RX then _serial_dma_rx size
  else _serial_poll_rx size.

Definition rt_serial_write (fuel : nat) (data : list Z) : SER Z :=
  if Z.of_nat (length data) =? 0 then ret 0 else
  let! o := gets s_open_flag in
  if has_flag o RT_DEVICE_FLAG_INT_TX then _serial_int_tx fuel data
  else _serial_poll_tx data.

(** [arg] is the configuration a CONFIG command points to, if any; [carg] the argument of
    the other commands, passed on to the port driver. *)
Definition rt_serial_control (cmd : Z) (arg : option serial_configure) (carg : Z) : SER Z :=
  if cmd =? RT_DEVICE_CTRL_SUSPEND then
    modify (fun p => set_s_flag (Z.lor (s_flag p) RT_DEVICE_FLAG_SUSPENDED) p) ;; ret RT_EOK
  else if cmd =? RT_DEVICE_CTRL_RESUME then
    modify (fun p => set_s_flag (Z.land (s_flag p) (not32 RT_DEVICE_FLAG_SUSPENDED)) p) ;; ret RT_EOK
  else if cmd =? RT_DEVICE_CTRL_CONFIG then
    match arg with
    | None => ret RT_EOK
    | Some pconfig =>
        let! bs := the_bufsz in
        let! n := gets s_ref_count in
        if negb (bufsz pconfig =? bs) && negb (n =? 0) then ret RT_EBUSY else
        modify (set_s_config pconfig) ;;
        (if negb (n =? 0) then on_port (ops_configure pconfig) ;; ret tt else ret tt) ;;
        ret RT_EOK
    end
  else on_port (ops_control cmd carg).
End serial.
