(* ===== verification/SerialQueue.v ===== *)
(** * The receive FIFO of a serial device

    In interrupt mode the FIFO is a queue of [bufsz - 1] bytes whose oldest give way, in
    DMA mode one of [bufsz]; whatever interrupts and reads follow each other, a client
    reads from that queue, and what the port gave when nothing had to give way. *)

From Stdlib Require Import ZArith Lia Bool.
From stdpp Require Import base tactics numbers list option.
From S2P Require Import Prelude RingBuf RingQueue Serial.

Open Scope Z_scope.

(** ** Queues in a ring *)

Definition ring_list (bs : Z) (b : list Z) (g n : Z) : list Z := (fun i => byte b (pos bs (g + i))) <$> seqZ 0 n.

Lemma len_ring bs b g n : 0 <= n -> len (ring_list bs b g n) = n.
Proof. intros H. unfold len, ring_list. rewrite length_fmap, length_seqZ. lia. Qed.

Lemma byte_ring bs b g n k : 0 <= k < n -> byte (ring_list bs b g n) k = byte b (pos bs (g + k)).
Proof. intros Hk. apply byte_of_lookup. unfold ring_list. rewrite list_lookup_fmap, lookup_seqZ_lt by lia. cbn. do 3 f_equal. lia. Qed.

Lemma byte_cons x l k : 0 <= k -> byte (x :: l) k = if k =? 0 then x else byte l (k - 1).
Proof.
  intros Hk. unfold byte. destruct (Z.eqb_spec k 0) as [->|]; [done|].
  replace (Z.to_nat k) with (S (Z.to_nat (k - 1))) by lia. done.
Qed.

Lemma len_cons x l : len (x :: l) = len l + 1.
Proof. unfold len. cbn [length]. lia. Qed.

Lemma ring_cons bs b g n :
  0 <= g < bs -> 0 < n <= bs -> ring_list bs b g n = byte b g :: ring_list bs b (pos bs (g + 1)) (n - 1).
Proof.
  intros Hg Hn. apply list_eq_byte; [rewrite len_cons, !len_ring; lia|]. intros k Hk. rewrite len_ring in Hk by lia.
  rewrite byte_cons, byte_ring by lia. destruct (Z.eqb_spec k 0) as [->|].
  - f_equal. unfold pos. repeat case_match; lia.
  - rewrite byte_ring by lia. f_equal. unfold pos. repeat case_match; lia.
Qed.

(** The last [n] elements. *)
Definition keep_last (n : Z) (l : list Z) : list Z := drop (Z.to_nat (len l - n)) l.

Lemma keep_last_all n l : len l <= n -> keep_last n l = l.
Proof. intros H. unfold keep_last. by replace (Z.to_nat (len l - n)) with 0%nat by lia. Qed.

Lemma len_keep_last n l : 0 <= n -> len (keep_last n l) = Z.min n (len l).
Proof. intros H. unfold keep_last, len. rewrite length_drop. lia. Qed.

Lemma byte_keep_last n l k : 0 <= n -> 0 <= k -> byte (keep_last n l) k = byte l (Z.max 0 (len l - n) + k).
Proof. intros Hn Hk. unfold keep_last, byte. rewrite !nth_lookup, lookup_drop. do 2 f_equal. lia. Qed.

Lemma keep_last_app n l1 l2 : 0 <= n -> keep_last n (keep_last n l1 ++ l2) = keep_last n (l1 ++ l2).
Proof.
  intros Hn. apply list_eq_byte.
  - rewrite !len_keep_last, !len_app, len_keep_last by lia. unfold len. lia.
  - intros k Hk. rewrite len_keep_last, len_app, len_keep_last in Hk by lia.
    rewrite !byte_keep_last, !len_app, !len_keep_last by lia. rewrite !byte_app, len_keep_last by (unfold len in *; lia).
    unfold len in *. repeat case_match; try lia; rewrite ?byte_keep_last by lia; unfold len; f_equal; lia.
Qed.

(** ** The FIFO *)

(** Bytes in the FIFO. *)
Definition held (bs : Z) (f : rt_serial_rx_fifo) : Z :=
  if put_index f =? get_index f then (if is_full f then bs else 0)
  else if get_index f <? put_index f then put_index f - get_index f
  else bs - (get_index f - put_index f).

Definition contents (bs : Z) (f : rt_serial_rx_fifo) : list Z := ring_list bs (buffer f) (get_index f) (held bs f).

Record fifo_ok (bs : Z) (f : rt_serial_rx_fifo) : Prop := {
  fo_size : 2 <= bs < 2 ^ 16;
  fo_len : len (buffer f) = bs;
  fo_put : 0 <= put_index f < bs;
  fo_get : 0 <= get_index f < bs
}.

(** In interrupt mode the indices differ when the FIFO is full. *)
Definition int_ok (bs : Z) (f : rt_serial_rx_fifo) : Prop := fifo_ok bs f /\ (is_full f = true -> put_index f <> get_index f).

Lemma held_range bs f : fifo_ok bs f -> 0 <= held bs f <= bs.
Proof. intros [H1 H2 H3 H4]. unfold held. repeat case_match; lia. Qed.

Lemma held_int bs f : int_ok bs f -> 0 <= held bs f < bs.
Proof.
  intros [[H1 H2 H3 H4] H]. unfold held. destruct (Z.eqb_spec (put_index f) (get_index f)); [|repeat case_match; lia].
  destruct (is_full f); [by destruct H|lia].
Qed.

Lemma put_pos bs f : fifo_ok bs f -> put_index f = pos bs (get_index f + held bs f).
Proof. intros [H1 H2 H3 H4]. unfold held, pos. repeat case_match; lia. Qed.

Lemma len_contents bs f : fifo_ok bs f -> len (contents bs f) = held bs f.
Proof. intros H. apply len_ring. by apply held_range. Qed.

Lemma byte_insert b i x k : 0 <= i < len b -> 0 <= k -> byte (<[Z.to_nat i := x]> b) k = if k =? i then x else byte b k.
Proof.
  intros Hi Hk. unfold byte, len in *. rewrite !nth_lookup. destruct (Z.eqb_spec k i) as [->|Hne].
  - by rewrite list_lookup_insert_eq by lia.
  - by rewrite list_lookup_insert_ne by lia.
Qed.

Lemma u16_small x : 0 <= x < 2 ^ 16 -> u16 x = x.
Proof. intros H. unfold u16. by apply Z.mod_small. Qed.

(** The index after the next. *)
Lemma next_index bs i : 0 <= i < bs -> bs < 2 ^ 16 -> (if bs <=? u16 (i + 1) then 0 else u16 (i + 1)) = pos bs (i + 1).
Proof. intros H1 H2. rewrite u16_small by lia. unfold pos. repeat case_match; lia. Qed.

Lemma pos_range bs x : 0 <= x < 2 * bs -> 0 <= pos bs x < bs.
Proof. intros H. unfold pos. case_match; lia. Qed.

Lemma take_queue bs f :
  int_ok bs f ->
  match contents bs f with
  | [] => rx_fifo_take bs f = Ret None
  | ch :: q => exists f', rx_fifo_take bs f = Ret (Some (ch, f')) /\ int_ok bs f' /\ contents bs f' = q
  end.
Proof.
  intros Hok. pose proof (held_int _ _ Hok) as Hh. destruct Hok as [Hok Hfull]. pose proof Hok as [H1 H2 H3 H4].
  destruct (Z.eq_dec (held bs f) 0) as [E|E].
  - assert (contents bs f = []) as -> by (apply nil_length_inv; pose proof (len_contents _ _ Hok) as Hl; unfold len in Hl; lia).
    unfold rx_fifo_take. assert (get_index f = put_index f /\ is_full f = false) as [-> ->]; [|by rewrite Z.eqb_refl].
    unfold held in E. destruct (Z.eqb_spec (put_index f) (get_index f)) as [Ei|]; [|repeat case_match; lia].
    split; [done|]. destruct (is_full f); [by destruct Hfull|done].
  - assert (Hc : contents bs f = byte (buffer f) (get_index f) ::
        ring_list bs (buffer f) (pos bs (get_index f + 1)) (held bs f - 1)) by (apply ring_cons; lia).
    rewrite Hc. unfold rx_fifo_take.
    assert ((get_index f =? put_index f) && negb (is_full f) = false) as ->.
    { unfold held in E. destruct (Z.eqb_spec (put_index f) (get_index f)) as [Ei|]; [destruct (is_full f); [apply andb_false_r|done]|].
      apply andb_false_iff. left. apply Z.eqb_neq. congruence. }
    rewrite byte_lookup by lia. rewrite next_index by lia. eexists. split; [reflexivity|].
    assert (Hp : 0 <= pos bs (get_index f + 1) < bs) by (apply pos_range; lia).
    split; [split; [by split|done]|]. unfold contents. cbn. f_equal. unfold held. cbn. unfold held in E, Hh. revert E Hh. unfold pos.
    repeat case_match; try lia.
Qed.

Lemma put_queue bs f ch :
  int_ok bs f -> exists f', rx_fifo_put bs ch f = Ret f' /\ int_ok bs f' /\
    contents bs f' = keep_last (bs - 1) (contents bs f ++ [u8 ch]).
Proof.
  intros Hok. pose proof (held_int _ _ Hok) as Hh. destruct Hok as [Hok Hfull]. pose proof Hok as [H1 H2 H3 H4].
  pose proof (put_pos _ _ Hok) as Hput. unfold rx_fifo_put. rewrite decide_True by (unfold len in H2; lia). rewrite !next_index by lia.
  set (b := <[Z.to_nat (put_index f) := u8 ch]> (buffer f)).
  assert (Hb : len b = bs) by (unfold b, len; rewrite length_insert; exact H2).
  assert (Hg : 0 <= pos bs (get_index f + 1) < bs) by (apply pos_range; lia).
  assert (Hp : 0 <= pos bs (put_index f + 1) < bs) by (apply pos_range; lia).
  assert (Hlen : len (contents bs f ++ [u8 ch]) = held bs f + 1) by (rewrite len_app, len_contents by done; reflexivity).
  assert (Hbyte : forall k, 0 <= k < held bs f + 1 -> byte b (pos bs (get_index f + k)) = byte (contents bs f ++ [u8 ch]) k).
  { intros k Hk. rewrite byte_app, len_contents by (done || lia). unfold b. rewrite byte_insert by (try lia; apply pos_range; lia).
    rewrite Hput. destruct (Z.ltb_spec k (held bs f)).
    - unfold contents. rewrite byte_ring by lia. destruct (Z.eqb_spec (pos bs (get_index f + k)) (pos bs (get_index f + held bs f))) as [E|]; [|done].
      revert E. unfold pos. repeat case_match; lia.
    - replace k with (held bs f) by lia. rewrite Z.eqb_refl, Z.sub_diag. done. }
  destruct (Z.eqb_spec (pos bs (put_index f + 1)) (get_index f)) as [E|E].
  - assert (Eh : held bs f = bs - 1) by (revert E; rewrite Hput; unfold pos; repeat case_match; lia).
    eexists. split; [reflexivity|]. split; [split; [by split|cbn; intros _; unfold pos in *; repeat case_match; lia]|].
    apply list_eq_byte.
    + rewrite len_keep_last, Hlen by lia. rewrite len_contents by (by split). unfold held. cbn. unfold pos in *. repeat case_match; lia.
    + intros k Hk. rewrite len_contents in Hk by (by split). assert (Hk' : 0 <= k < bs - 1).
      { revert Hk. unfold held. cbn. unfold pos in *. repeat case_match; lia. }
      rewrite byte_keep_last, Hlen by lia. unfold contents at 1. rewrite byte_ring by done. cbn [buffer get_index].
      replace (Z.max 0 (held bs f + 1 - (bs - 1)) + k) with (k + 1) by lia. rewrite <-Hbyte by lia. f_equal. unfold pos. repeat case_match; lia.
  - assert (Eh : held bs f < bs - 1).
    { destruct (Z.eq_dec (held bs f) (bs - 1)) as [Eh|]; [|lia]. exfalso. apply E. rewrite Hput, Eh. unfold pos. repeat case_match; lia. }
    assert (Ef : held bs (mkRxFifo b (pos bs (put_index f + 1)) (get_index f) (is_full f)) = held bs f + 1).
    { revert E Eh Hfull. unfold held. cbn. unfold pos. destruct (is_full f); repeat case_match; intros; try lia; by destruct Hfull. }
    eexists. split; [reflexivity|]. split; [split; [by split|by cbn; intros _]|]. rewrite keep_last_all by lia.
    apply list_eq_byte; [by rewrite len_contents, Ef, Hlen by (by split)|]. intros k Hk. rewrite len_contents, Ef in Hk by (by split).
    unfold contents at 1. rewrite byte_ring by lia. by apply Hbyte.
Qed.

(** ** Sessions *)

Section session.
Context {H : Type} `{!UartOps H}.
Implicit Types p : port H.

(** What the port gives until it has no byte: the loop of the handler, on the port alone. *)
Fixpoint drain (fuel : nat) (h : H) : outcome (list Z * H) :=
  match fuel with
  | O => OutOfFuel
  | S fuel' =>
      match ops_getc h with
      | Ret (ch, h1) =>
          if ch =? -1 then Ret ([], h1)
          else match drain fuel' h1 with
               | Ret (l, h2) => Ret (ch :: l, h2)
               | AssertFail => AssertFail | Undef => Undef | OutOfFuel => OutOfFuel
               end
      | AssertFail => AssertFail | Undef => Undef | OutOfFuel => OutOfFuel
      end
  end.

(** What can happen to an open port: its interrupt, a change of the port itself (bytes come
    in), a read by the client. *)
Inductive ser_op : Type :=
  | Interrupt
  | Change (g : H -> H)
  | ReadBytes (n : Z).

Definition ser_step (fuel : nat) (o : ser_op) : M (port H) (list (list Z)) :=
  match o with
  | Interrupt => serial_isr_rx_ind fuel ;; ret []
  | Change g => modify (fun p => set_low (g (low p)) p) ;; ret []
  | ReadBytes n => let! l := rt_serial_read n in ret [l]
  end.

Fixpoint ser_run (fuel : nat) (l : list ser_op) : M (port H) (list (list Z)) :=
  match l with
  | [] => ret []
  | o :: l' => let! a := ser_step fuel o in let! b := ser_run fuel l' in ret (a ++ b)
  end.

(** The queue a client sees: its bytes, how many gave way, the lengths it was told, and the
    port. *)
Record ser_spec : Type := mkSpec { waiting : list Z; lost : Z; told : list Z; under : H }.

Definition spec_step (bs : Z) (indicates : bool) (fuel : nat) (o : ser_op) : M ser_spec (list (list Z)) := fun s =>
  match o with
  | Interrupt =>
      match drain fuel (under s) with
      | Ret (l, h) =>
          let all := waiting s ++ map u8 l in
          let q := keep_last (bs - 1) all in
          Ret ([], mkSpec q (lost s + (len all - len q)) (if indicates && negb (len q =? 0) then told s ++ [len q] else told s) h)
      | AssertFail => AssertFail | Undef => Undef | OutOfFuel => OutOfFuel
      end
  | Change g => Ret ([], mkSpec (waiting s) (lost s) (told s) (g (under s)))
  | ReadBytes n => Ret ([firstn (Z.to_nat n) (waiting s)], mkSpec (skipn (Z.to_nat n) (waiting s)) (lost s) (told s) (under s))
  end.

Fixpoint spec_run (bs : Z) (indicates : bool) (fuel : nat) (l : list ser_op) : M ser_spec (list (list Z)) :=
  match l with
  | [] => ret []
  | o :: l' => let! a := spec_step bs indicates fuel o in let! b := spec_run bs indicates fuel l' in ret (a ++ b)
  end.

(** An open port that receives by interrupts, and the queue it stands for. *)
Definition stands_for (bs : Z) (indicates : bool) (p : port H) (s : ser_spec) : Prop :=
  bufsz (s_config p) = bs /\ s_rx_indicate p = indicates /\ has_flag (s_open_flag p) RT_DEVICE_FLAG_INT_RX = true /\
  low p = under s /\ indicated p = told s /\
  exists f, s_rx p = Some f /\ int_ok bs f /\ contents bs f = waiting s /\ Forall is_u8 (waiting s).

(** What reception leaves alone. *)
Definition framed p p' : Prop :=
  s_flag p' = s_flag p /\ s_open_flag p' = s_open_flag p /\ s_ref_count p' = s_ref_count p /\ s_tx p' = s_tx p.

Lemma drain_loop fuel p bs f l h :
  bufsz (s_config p) = bs -> s_rx p = Some f -> int_ok bs f -> drain fuel (low p) = Ret (l, h) ->
  exists f', rx_ind_loop fuel p = Ret (tt, set_low h (set_s_rx (Some f') p)) /\ int_ok bs f' /\
    contents bs f' = keep_last (bs - 1) (contents bs f ++ map u8 l).
Proof.
  revert p f l. induction fuel as [|fuel IH]; intros p f l Hbs Hf Hok; cbn [drain rx_ind_loop]; [done|].
  unfold bind at 1. unfold on_port. destruct (ops_getc (low p)) as [[ch h1]| | |]; try done.
  pose proof (held_int _ _ Hok) as Hh. pose proof (len_contents _ _ (proj1 Hok)) as Hl.
  destruct (ch =? -1).
  - intros [= <- <-]. exists f. cbn [map]. rewrite app_nil_r, keep_last_all by lia. split; [|done].
    unfold ret, set_s_rx. rewrite <-Hf. by destruct p.
  - destruct (drain fuel h1) as [[l' h2]| | |] eqn:Ed; try done. intros [= <- <-].
    rewrite (bind_Ret _ _ _ f (set_low h1 p)) by (unfold the_rx_fifo, bind, gets; cbn [s_rx set_low]; by rewrite Hf).
    rewrite (bind_Ret _ _ _ bs (set_low h1 p)) by (unfold the_bufsz, gets; cbn [s_config set_low]; by rewrite Hbs). destruct (put_queue bs f ch Hok) as (f1 & E1 & Hok1 & Hc1). rewrite E1.
    unfold bind at 1. cbn [of_outcome]. unfold put_fifo. autorewrite with monad.
    destruct (IH (set_s_rx (Some f1) (set_low h1 p)) f1 l' Hbs eq_refl Hok1 Ed) as (f' & E' & Hok' & Hc').
    exists f'. split; [rewrite E'; by destruct p|]. split; [done|]. rewrite Hc', Hc1, keep_last_app by lia.
    cbn [map]. by rewrite <-app_assoc.
Qed.

Lemma int_loop n p bs f :
  bufsz (s_config p) = bs -> s_rx p = Some f -> int_ok bs f -> Forall is_u8 (contents bs f) ->
  exists f', int_rx_loop n p = Ret (firstn n (contents bs f), set_s_rx (Some f') p) /\ int_ok bs f' /\
    contents bs f' = skipn n (contents bs f).
Proof.
  revert p f. induction n as [|n IH]; intros p f Hbs Hf Hok Hu; cbn [int_rx_loop].
  - exists f. rewrite firstn_O. split; [unfold ret, set_s_rx; rewrite <-Hf; by destruct p|done].
  - rewrite (bind_Ret _ _ _ f p) by (unfold the_rx_fifo, bind, gets; by rewrite Hf).
    rewrite (bind_Ret _ _ _ bs p) by (unfold the_bufsz, gets; by rewrite Hbs).
    pose proof (take_queue bs f Hok) as Ht. destruct (contents bs f) as [|ch q] eqn:Ec.
    + rewrite Ht. exists f. unfold bind, of_outcome, ret. split; [unfold set_s_rx; rewrite <-Hf; by destruct p|done].
    + destruct Ht as (f1 & E1 & Hok1 & Hc1). rewrite E1. unfold bind at 1. cbn [of_outcome]. unfold put_fifo. autorewrite with monad.
      apply Forall_cons_1 in Hu as [Hch Hu]. rewrite <-Hc1 in Hu.
      destruct (IH (set_s_rx (Some f1) p) f1 Hbs eq_refl Hok1 Hu) as (f' & E' & Hok' & Hc').
      rewrite (bind_Ret _ _ _ _ _ E'). exists f'. rewrite Hc1 in *. split; [|done]. cbn [firstn].
      assert (Z.land ch 0xff = ch) as ->; [|done]. change 0xff with (Z.ones 8). rewrite Z.land_ones by lia. by apply u8_small.
Qed.

Lemma step_spec bs ind fuel o p s :
  stands_for bs ind p s -> forall a s', spec_step bs ind fuel o s = Ret (a, s') ->
  exists p', ser_step fuel o p = Ret (a, p') /\ stands_for bs ind p' s' /\ framed p p'.
Proof.
  intros (Hbs & Hind & Hflag & Hlow & Htold & f & Hf & Hok & Hc & Hu) a s'. destruct o as [|g|n]; cbn [spec_step ser_step].
  - destruct (drain fuel (under s)) as [[l h]| | |] eqn:Ed; try done. intros [= <- <-]. rewrite <-Hlow in Ed.
    destruct (drain_loop fuel p bs f l h Hbs Hf Hok Ed) as (f' & E' & Hok' & Hc'). rewrite Hc in Hc'.
    pose proof (len_contents _ _ (proj1 Hok')) as Hl'. pose proof (held_int _ _ Hok') as Hh'.
    assert (Hu' : Forall is_u8 (keep_last (bs - 1) (waiting s ++ map u8 l))).
    { apply Forall_drop, Forall_app. split; [done|]. apply Forall_fmap, Forall_true. intros x. apply u8_range. }
    assert (Efl : fifo_length bs f' = held bs f').
    { destruct Hok' as [[H1 H2 H3 H4] Hfull]. unfold fifo_length, held. destruct (Z.eqb_spec (put_index f') (get_index f')) as [E|E].
      - destruct (is_full f'); [by destruct Hfull|]. rewrite E, Z.leb_refl. lia.
      - destruct (Z.leb_spec (get_index f') (put_index f')), (Z.ltb_spec (get_index f') (put_index f')); try lia.
        apply u32_small. unfold is_u32. lia. }
    unfold serial_isr_rx_ind. set (p1 := set_low h (set_s_rx (Some f') p)) in *.
    rewrite (bind_Ret _ _ _ tt (if ind && negb (held bs f' =? 0) then set_indicated (indicated p ++ [held bs f']) p1 else p1)).
    + eexists. split; [reflexivity|]. split; [|by destruct (ind && _)]. rewrite <-Hc', Hl'.
      destruct (ind && _) eqn:Eb; (split_and!; [done|done|done|done| |exists f'; by rewrite <-Hc' in Hu']); [cbn; by rewrite Htold|done].
    + rewrite (bind_Ret _ _ _ f p) by (unfold the_rx_fifo, bind, gets; by rewrite Hf). rewrite (bind_Ret _ _ _ tt p1) by exact E'.
      rewrite (bind_Ret _ _ _ f' p1) by done. rewrite (bind_Ret _ _ _ bs p1) by (unfold the_bufsz, gets; cbn; by rewrite Hbs).
      rewrite Efl. destruct (held bs f' =? 0); [by rewrite andb_false_r|]. cbn [negb]. rewrite andb_true_r. unfold rx_indicate.
      autorewrite with monad. change (s_rx_indicate p1) with (s_rx_indicate p). rewrite Hind. by destruct ind.
  - intros [= <- <-]. eexists. split; [reflexivity|]. split; [|done]. split_and!; try done; [cbn; by rewrite Hlow|]. by exists f.
  - intros [= <- <-]. subst bs. unfold rt_serial_read. destruct (Z.eqb_spec n 0) as [->|Hn].
    + eexists. split; [reflexivity|]. split; [|done]. split_and!; try done. by exists f.
    + rewrite <-Hc in Hu. destruct (int_loop (Z.to_nat n) p _ f eq_refl Hf Hok Hu) as (f' & E' & Hok' & Hc').
      eexists. split.
      * unfold bind at 1. autorewrite with monad. rewrite Hflag. unfold _serial_int_rx. rewrite E'. cbn. rewrite <-Hc. reflexivity.
      * split; [|done]. rewrite <-Hc. split_and!; try done. exists f'. split_and!; try done. by apply Forall_drop.
Qed.

Lemma run_spec bs ind fuel l p s :
  stands_for bs ind p s -> forall a s', spec_run bs ind fuel l s = Ret (a, s') ->
  exists p', ser_run fuel l p = Ret (a, p') /\ stands_for bs ind p' s'.
Proof.
  revert p s. induction l as [|o l IH]; intros p s Hst a s'; cbn [spec_run ser_run]; [intros [= <- <-]; by exists p|].
  intros Hr. apply bind_inv in Hr as (x & s1 & E1 & Hr). apply bind_inv in Hr as (y & s2 & E2 & [= <- <-]).
  destruct (step_spec _ _ _ _ _ _ Hst _ _ E1) as (p1 & F1 & Hst1 & _). destruct (IH _ _ Hst1 _ _ E2) as (p2 & F2 & Hst2).
  exists p2. split; [|done]. by rewrite (bind_Ret _ _ _ _ _ F1), (bind_Ret _ _ _ _ _ F2).
Qed.

(** ** Where the bytes go *)

(** All that the port gives in a session, one interrupt after the other. *)
Fixpoint port_gives (fuel : nat) (l : list ser_op) (h : H) : outcome (list Z) :=
  match l with
  | [] => Ret []
  | Interrupt :: l' =>
      match drain fuel h with
      | Ret (d, h') => match port_gives fuel l' h' with
                       | Ret g => Ret (map u8 d ++ g)
                       | AssertFail => AssertFail | Undef => Undef | OutOfFuel => OutOfFuel
                       end
      | AssertFail => AssertFail | Undef => Undef | OutOfFuel => OutOfFuel
      end
  | Change f :: l' => port_gives fuel l' (f h)
  | ReadBytes _ :: l' => port_gives fuel l' h
  end.

Lemma sublist_drop_app {A} n (l k : list A) : sublist (drop n l) l.
Proof. rewrite <-(take_drop n l) at 2. by apply sublist_inserts_l. Qed.

Lemma sublist_same_length {A} (l k : list A) : sublist l k -> length l = length k -> l = k.
Proof.
  induction 1 as [|x l k Hs IH|x l k Hs IH]; cbn; [done|intros [= E]; by rewrite IH|].
  intros E. apply sublist_length in Hs. lia.
Qed.

(** Nothing is made up or changes places, and what is missing is counted. *)
Lemma spec_accounts bs ind fuel l s a s' :
  0 < bs -> spec_run bs ind fuel l s = Ret (a, s') ->
  exists g, port_gives fuel l (under s) = Ret g /\ sublist (concat a ++ waiting s') (waiting s ++ g) /\
    len (concat a) + len (waiting s') + (lost s' - lost s) = len (waiting s) + len g /\ lost s <= lost s'.
Proof.
  intros Hbs. revert s a. induction l as [|o l IH]; intros s a; cbn [spec_run port_gives].
  - intros [= <- <-]. exists []. rewrite app_nil_r. cbn. split_and!; [done|done|unfold len; cbn; lia|lia].
  - intros Hr. apply bind_inv in Hr as (x & s1 & E1 & Hr). apply bind_inv in Hr as (y & s2 & E2 & [= <- <-]).
    destruct (IH _ _ E2) as (g & Hg & Hsub & Hlen & Hlost). rewrite concat_app, <-app_assoc, len_app. destruct o as [|f|n]; cbn [spec_step] in E1.
    + destruct (drain fuel (under s)) as [[d h]| | |]; try done. injection E1 as <- <-. cbn [under waiting lost] in *. rewrite Hg.
      exists (map u8 d ++ g). split; [done|]. rewrite len_keep_last in * by lia. rewrite !len_app in *. cbn [concat]. split; [|unfold len in *; cbn; lia].
      rewrite app_nil_l, app_assoc. etrans; [exact Hsub|]. apply sublist_app; [apply sublist_drop_app; exact []|done].
    + injection E1 as <- <-. exists g. by cbn in *.
    + injection E1 as <- <-. exists g. cbn [under waiting lost] in *. split; [done|]. cbn [concat]. rewrite app_nil_r.
      assert (Hn : len (take (Z.to_nat n) (waiting s)) + len (drop (Z.to_nat n) (waiting s)) = len (waiting s)) by (rewrite <-len_app; by rewrite take_drop).
      split; [|unfold len in *; lia]. rewrite <-(take_drop (Z.to_nat n) (waiting s)) at 2. rewrite <-app_assoc. by apply sublist_app.
Qed.

Lemma has_flag_lor v w m : has_flag (Z.lor v w) m = has_flag v m || has_flag w m.
Proof.
  unfold has_flag. rewrite Z.land_lor_distr_l. destruct (Z.eqb_spec (Z.land v m) 0) as [->|Hv]; [by rewrite Z.lor_0_l|].
  cbn. apply negb_true_iff, Z.eqb_neq. intros E. by apply Z.lor_eq_0_iff in E as [E _].
Qed.

Lemma on_port_inv {A} (m : M H A) p a p' : on_port m p = Ret (a, p') -> exists h, m (low p) = Ret (a, h) /\ p' = set_low h p.
Proof. unfold on_port. destruct (m (low p)) as [[b h]| | |]; [|done..]. intros [= <- <-]. eauto. Qed.

(** What [open_tx] does not touch. *)
Lemma open_tx_keeps mem oflag p a p' :
  open_tx mem oflag p = Ret (a, p') ->
  s_config p' = s_config p /\ s_rx p' = s_rx p /\ s_rx_indicate p' = s_rx_indicate p /\ indicated p' = indicated p /\
  (has_flag (s_open_flag p) RT_DEVICE_FLAG_INT_RX = true -> has_flag (s_open_flag p') RT_DEVICE_FLAG_INT_RX = true).
Proof.
  unfold open_tx. autorewrite with monad. destruct (has_flag oflag _); [|by intros [= <- <-]].
  destruct (s_tx p).
  - intros [= <- <-]. split_and!; try done. cbn. intros E. by rewrite has_flag_lor, E.
  - destruct mem; [|done]. unfold rt_assert. autorewrite with monad. unfold add_open_flag. autorewrite with monad. intros Hr.
    apply bind_inv in Hr as (r & p2 & Hr & [= <- <-]). apply on_port_inv in Hr as (h & _ & ->). split_and!; try done.
    cbn. intros E. by rewrite has_flag_lor, E.
Qed.

(** A port that [rt_serial_open] has opened for reception by interrupts is an empty queue. *)
Lemma opened_stands_for p oflag p1 bs :
  bufsz (s_config p) = bs -> 2 <= bs < 2 ^ 16 -> s_rx p = None -> has_flag oflag RT_DEVICE_FLAG_INT_RX = true ->
  rt_serial_open true oflag p = Ret (RT_EOK, p1) ->
  stands_for bs (s_rx_indicate p) p1 (mkSpec [] 0 (indicated p) (low p1)).
Proof.
  intros Hbs Hsz Hrx Hfl. unfold rt_serial_open. autorewrite with monad.
  do 4 (destruct (lacks _ _ _); [done|]). autorewrite with monad. intros Hr.
  apply bind_inv in Hr as (u & p2 & Hrxo & Hr). apply bind_inv in Hr as (v & p3 & Htx & Hr).
  injection Hr as <-. unfold open_rx in Hrxo. autorewrite with monad in Hrxo. cbn [s_rx set_s_open_flag] in Hrxo. rewrite Hrx, Hfl in Hrxo.
  unfold new_rx_fifo, the_bufsz, put_fifo, add_open_flag in Hrxo. cbn [rt_assert] in Hrxo. autorewrite with monad in Hrxo.
  apply bind_inv in Hrxo as (r & p4 & Hc & [= <- <-]). apply on_port_inv in Hc as (h & _ & ->).
  destruct (open_tx_keeps _ _ _ _ _ Htx) as (E1 & E2 & E3 & E4 & E5). cbn in E1, E2, E3, E4, E5.
  set (f := mkRxFifo (replicate (Z.to_nat (bufsz (s_config p))) 0) 0 0 false).
  split_and!; cbn; [by rewrite E1|by rewrite E3| |done|by rewrite E4|].
  - rewrite has_flag_lor, E5; [done|]. by rewrite has_flag_lor, orb_true_r.
  - exists f. split; [by rewrite E2|]. split; [|by unfold contents]. split; [|done]. unfold f. split; cbn [buffer put_index get_index]; [done| |lia|lia].
    unfold len. rewrite length_replicate. lia.
Qed.
End session.

(** C7: reception by interrupts.  A port opened for it with a buffer of [bs] bytes is a queue
    of [bs - 1] bytes, whatever interrupts, changes of the port and reads follow each other:
    every read returns the oldest bytes that wait, up to its size; an interrupt takes what
    the port gives, and the oldest bytes give way when there are too many; the client is
    told the number of bytes that wait after each interrupt that leaves some.  Bytes read
    and bytes that wait are bytes the port gave, in its order, and when none had to give way
    they are all of them. *)
Theorem serial_session {H : Type} `{!UartOps H} (p p1 : port H) oflag bs fuel l a s' :
  bufsz (s_config p) = bs -> 2 <= bs < 2 ^ 16 -> s_rx p = None -> has_flag oflag RT_DEVICE_FLAG_INT_RX = true ->
  rt_serial_open true oflag p = Ret (RT_EOK, p1) ->
  spec_run bs (s_rx_indicate p) fuel l (mkSpec [] 0 (indicated p) (low p1)) = Ret (a, s') ->
  (exists p', ser_run fuel l p1 = Ret (a, p') /\ stands_for bs (s_rx_indicate p) p' s') /\
  exists g, port_gives fuel l (low p1) = Ret g /\ sublist (concat a ++ waiting s') g /\
    (lost s' = 0 -> concat a ++ waiting s' = g).
Proof.
  intros Hbs Hsz Hrx Hfl Ho Hs. split; [by eapply run_spec, Hs; apply (opened_stands_for p oflag)|].
  assert (Hpos : 0 < bs) by lia. destruct (spec_accounts _ _ _ _ _ _ _ Hpos Hs) as (g & Hg & Hsub & Hlen & _). cbn [waiting lost under] in *.
  exists g. split_and!; [done|done|]. intros E. apply sublist_same_length; [exact Hsub|]. rewrite length_app. unfold len in *. cbn in Hlen. lia.
Qed.

(** A port driver that is a list of bytes. *)
#[local] Instance list_port : UartOps (list Z) := {
  ops_configure := fun _ => ret RT_EOK;
  ops_control := fun _ _ => ret RT_EOK;
  ops_putc := fun _ => ret 1;
  ops_getc := fun l => match l with [] => Ret (-1, []) | b :: l' => Ret (b, l') end;
  tx_wait := ret tt
}.

(** Five bytes for a queue of three. *)
Lemma serial_session_witness :
  let p := mkPort 0x103 0 0 (mkCfg 115200 8 0 0 0 0 4 0) None false true [] [] in
  let p1 := set_s_rx (Some (mkRxFifo [0; 0; 0; 0] 0 0 false)) (set_s_open_flag 0x103 p) in
  let ops := [Change (fun _ => [1; 2; 3; 4; 5]); Interrupt; ReadBytes 2; Change (fun _ => [6]); Interrupt; ReadBytes 9] in
  let s' := mkSpec [] 2 [3; 2] [] in
  (exists p', ser_run 6 ops p1 = Ret ([[3; 4]; [5; 6]], p') /\ stands_for 4 true p' s') /\
  exists g, port_gives 6 ops (low p1) = Ret g /\ sublist [3; 4; 5; 6] g.
Proof.
  intros p p1 ops s'.
  assert (Hsz : 2 <= 4 < 2 ^ 16) by lia.
  assert (Ho : rt_serial_open true 0x103 p = Ret (RT_EOK, p1)) by reflexivity.
  assert (Hs : spec_run 4 true 6 ops (mkSpec [] 0 [] (low p1)) = Ret ([[3; 4]; [5; 6]], s')) by reflexivity.
  destruct (serial_session p p1 0x103 4 6 ops [[3; 4]; [5; 6]] s' eq_refl Hsz eq_refl eq_refl Ho Hs) as (H1 & g & H2 & H3 & _).
  split; [exact H1|]. exists g. split; [exact H2|exact H3].
Defined.
