(* ===== verification/Uart.v ===== *)
(** * The UART driver

    Models [libraries/ma35/StdDriver/src/nu_uart.c] with the macros of [inc/nu_uart.h], and
    [libraries/ma35/rtt_port/drv_uart.c] as a port driver of the serial framework, in the
    board's configuration: no port has a PDMA channel.

    A port has 16 bytes of FIFO in each direction.  Bytes come from the line and leave for
    it, and flags change, while the processor reads a status register ([UartEnv]); bytes
    for a full receive FIFO are lost. *)

From Stdlib Require Import ZArith Lia Bool.
From stdpp Require Import base tactics numbers list option.
From S2P Require Import Prelude Serial.

Open Scope Z_scope.

(** ** Registers *)

Inductive UART_T : Type :=
| INTEN | FIFO | LINE | MODEM | MODEMSTS | FIFOSTS | TOUT | BAUD | IRDA | ALTCTL | FUNCSEL | WKSTS.

#[export] Instance UART_T_eq_dec : EqDecision UART_T.
Proof. solve_decision. Defined.

Definition UART_INTEN_RDAIEN_Msk : Z := shl32 0x1 0.
Definition UART_INTEN_RLSIEN_Msk : Z := shl32 0x1 2.
Definition UART_INTEN_RXTOIEN_Msk : Z := shl32 0x1 4.
Definition UART_INTEN_TOCNTEN_Msk : Z := shl32 0x1 11.
Definition UART_INTEN_ATORTSEN_Msk : Z := shl32 0x1 12.
Definition UART_INTEN_ATOCTSEN_Msk : Z := shl32 0x1 13.
Definition UART_INTEN_TXPDMAEN_Msk : Z := shl32 0x1 14.
Definition UART_INTEN_RXPDMAEN_Msk : Z := shl32 0x1 15.
Definition UART_FIFO_RXRST_Msk : Z := shl32 0x1 1.
Definition UART_FIFO_TXRST_Msk : Z := shl32 0x1 2.
Definition UART_FIFO_RFITL_Msk : Z := shl32 0xf 4.
Definition UART_FIFO_RTSTRGLV_Msk : Z := shl32 0xf 16.
Definition UART_MODEM_RTSACTLV_Msk : Z := shl32 0x1 9.
Definition UART_MODEMSTS_CTSDETF_Msk : Z := shl32 0x1 0.
Definition UART_MODEMSTS_CTSACTLV_Msk : Z := shl32 0x1 8.
Definition UART_FIFOSTS_RXOVIF_Msk : Z := shl32 0x1 0.
Definition UART_FIFOSTS_ADDRDETF_Msk : Z := shl32 0x1 3.
Definition UART_FIFOSTS_PEF_Msk : Z := shl32 0x1 4.
Definition UART_FIFOSTS_FEF_Msk : Z := shl32 0x1 5.
Definition UART_FIFOSTS_BIF_Msk : Z := shl32 0x1 6.
Definition UART_FIFOSTS_RXPTR_Pos : Z := 8.
Definition UART_FIFOSTS_RXEMPTY_Msk : Z := shl32 0x1 14.
Definition UART_FIFOSTS_RXFULL_Msk : Z := shl32 0x1 15.
Definition UART_FIFOSTS_TXPTR_Pos : Z := 16.
Definition UART_FIFOSTS_TXEMPTY_Msk : Z := shl32 0x1 22.
Definition UART_FIFOSTS_TXFULL_Msk : Z := shl32 0x1 23.
Definition UART_FIFOSTS_TXOVIF_Msk : Z := shl32 0x1 24.
Definition UART_INTSTS_RDAIF_Msk : Z := shl32 0x1 0.
Definition UART_INTSTS_RXTOIF_Msk : Z := shl32 0x1 4.
Definition UART_INTSTS_RDAINT_Msk : Z := shl32 0x1 8.
Definition UART_INTSTS_RLSINT_Msk : Z := shl32 0x1 10.
Definition UART_INTSTS_MODEMINT_Msk : Z := shl32 0x1 11.
Definition UART_INTSTS_RXTOINT_Msk : Z := shl32 0x1 12.
Definition UART_INTSTS_BUFEINT_Msk : Z := shl32 0x1 13.
Definition UART_INTSTS_WKINT_Msk : Z := shl32 0x1 14.
Definition UART_INTSTS_PRLSIF_Msk : Z := shl32 0x1 18.
Definition UART_INTSTS_PTOIF_Msk : Z := shl32 0x1 20.
Definition UART_TOUT_TOIC_Msk : Z := shl32 0xff 0.
Definition UART_BAUD_BAUDM0_Msk : Z := shl32 0x1 28.
Definition UART_BAUD_BAUDM1_Msk : Z := shl32 0x1 29.
Definition UART_IRDA_TXEN_Msk : Z := shl32 0x1 1.
Definition UART_IRDA_TXINV_Msk : Z := shl32 0x1 5.
Definition UART_IRDA_RXINV_Msk : Z := shl32 0x1 6.
Definition UART_ALTCTL_RS485NMM_Msk : Z := shl32 0x1 8.
Definition UART_ALTCTL_RS485AAD_Msk : Z := shl32 0x1 9.
Definition UART_ALTCTL_RS485AUD_Msk : Z := shl32 0x1 10.
Definition UART_ALTCTL_ADDRMV_Pos : Z := 24.
Definition UART_ALTCTL_ADDRMV_Msk : Z := shl32 0xff 24.
Definition UART_WKSTS_CTSWKF_Msk : Z := shl32 0x1 0.
Definition UART_WKSTS_DATWKF_Msk : Z := shl32 0x1 1.
Definition UART_WKSTS_RFRTWKF_Msk : Z := shl32 0x1 2.
Definition UART_WKSTS_RS485WKF_Msk : Z := shl32 0x1 3.
Definition UART_WKSTS_TOUTWKF_Msk : Z := shl32 0x1 4.

Definition UART_WORD_LEN_5 : Z := 0.
Definition UART_WORD_LEN_6 : Z := 1.
Definition UART_WORD_LEN_7 : Z := 2.
Definition UART_WORD_LEN_8 : Z := 3.
Definition UART_PARITY_NONE : Z := shl32 0x0 3.
Definition UART_PARITY_ODD : Z := shl32 0x1 3.
Definition UART_PARITY_EVEN : Z := shl32 0x3 3.
Definition UART_STOP_BIT_1 : Z := shl32 0x0 2.
Definition UART_STOP_BIT_2 : Z := shl32 0x1 2.
Definition UART_IRDA_RXEN : Z := shl32 0x0 1.
Definition UART_FUNCSEL_UART : Z := 0x0.
Definition UART_FUNCSEL_IrDA : Z := 0x2.
Definition UART_FUNCSEL_RS485 : Z := 0x3.
Definition UART_BAUD_MODE0 : Z := 0.
Definition UART_BAUD_MODE2 : Z := Z.lor UART_BAUD_BAUDM1_Msk UART_BAUD_BAUDM0_Msk.

Definition UART16_BASE : Z := 0x40880000.
Definition __HXT : Z := 24000000.
Definition SYSPLLFREQCLK : Z := 180000000.

(** ** The hardware *)

(** What a port does by itself, by the number of status reads so far: bytes from the line,
    how many bytes leave for it, error flags it sets in FIFOSTS, the bits of INTSTS other
    than those of received data, of FIFOSTS other than those of the FIFOs; what a read of
    an empty receive FIFO gives; the registers after a reset; and a bound of the reads the
    driver's waits are followed for. *)
Class UartEnv : Type := {
  arrives : nat -> list Z;
  leaves : nat -> nat;
  line_errors : nat -> Z;
  other_ints : nat -> Z;
  other_sts : nat -> Z;
  dat_empty : nat -> Z;
  reset_reg : UART_T -> Z;
  wait_fuel : nat
}.

(** The clock selectors and dividers of the UARTs. *)
Record CLK_T : Type := mkClk {
  CLKSEL0 : Z;
  CLKSEL2 : Z;
  CLKSEL3 : Z;
  CLKDIV1 : Z;
  CLKDIV2 : Z;
  CLKDIV3 : Z
}.

(** A port: its base address and reset index, its interrupt let through by the interrupt
    controller or not, the registers, the two FIFOs, what has gone out on the line, the
    number of status reads; the reset registers by byte offset, and the clocks. *)
Record nu_uart : Type := mkUart {
  base : Z;
  rstidx : Z;
  irq_on : bool;
  ureg : UART_T -> Z;
  rxq : list Z;
  txq : list Z;
  line_out : list Z;
  now : nat;
  IPRST : Z -> Z;
  CLK : CLK_T
}.

Definition set_irq_on (b : bool) (u : nu_uart) : nu_uart :=
  mkUart (base u) (rstidx u) b (ureg u) (rxq u) (txq u) (line_out u) (now u) (IPRST u) (CLK u).
Definition set_ureg (f : UART_T -> Z) (u : nu_uart) : nu_uart :=
  mkUart (base u) (rstidx u) (irq_on u) f (rxq u) (txq u) (line_out u) (now u) (IPRST u) (CLK u).
Definition set_rxq (l : list Z) (u : nu_uart) : nu_uart :=
  mkUart (base u) (rstidx u) (irq_on u) (ureg u) l (txq u) (line_out u) (now u) (IPRST u) (CLK u).
Definition set_tx (l out : list Z) (u : nu_uart) : nu_uart :=
  mkUart (base u) (rstidx u) (irq_on u) (ureg u) (rxq u) l out (now u) (IPRST u) (CLK u).
Definition set_now (n : nat) (u : nu_uart) : nu_uart :=
  mkUart (base u) (rstidx u) (irq_on u) (ureg u) (rxq u) (txq u) (line_out u) n (IPRST u) (CLK u).
Definition set_IPRST (f : Z -> Z) (u : nu_uart) : nu_uart :=
  mkUart (base u) (rstidx u) (irq_on u) (ureg u) (rxq u) (txq u) (line_out u) (now u) f (CLK u).

Definition reg_set (r : UART_T) (v : Z) (f : UART_T -> Z) : UART_T -> Z :=
  fun r' => if decide (r' = r) then v else f r'.

Definition set_reg (r : UART_T) (v : Z) (u : nu_uart) : nu_uart := set_ureg (reg_set r v (ureg u)) u.

Definition fifo_size : nat := 16.

(** Bits of FIFOSTS that stay until 1 is written to them. *)
Definition FIFOSTS_W1C : Z := 0x100007f.

(** Bytes for the receive FIFO. *)
Definition line_in (l : list Z) (u : nu_uart) : nu_uart :=
  let all := rxq u ++ map u8 l in
  let u1 := set_rxq (firstn fifo_size all) u in
  if (fifo_size <? length all)%nat then set_reg FIFOSTS (Z.lor (ureg u FIFOSTS) UART_FIFOSTS_RXOVIF_Msk) u1 else u1.

Definition line_takes (n : nat) (u : nu_uart) : nu_uart :=
  set_tx (skipn n (txq u)) (line_out u ++ firstn n (txq u)) u.

Section uart.
Context `{UE : UartEnv}.

Definition UM (A : Type) : Type := M nu_uart A.

(** Time passes at a read of a status register. *)
Definition tick (u : nu_uart) : nu_uart :=
  let n := now u in
  let u1 := line_takes (leaves n) (line_in (arrives n) u) in
  set_now (S n) (set_reg FIFOSTS (Z.lor (ureg u1 FIFOSTS) (Z.land (line_errors n) 0x7e)) u1).

Definition pointer (l : list Z) : Z := Z.of_nat (length l) mod 16.

Definition fifosts (u : nu_uart) : Z :=
  Z.lor (Z.land (ureg u FIFOSTS) FIFOSTS_W1C)
  (Z.lor (Z.shiftl (pointer (rxq u)) UART_FIFOSTS_RXPTR_Pos)
  (Z.lor (if (length (rxq u) =? 0)%nat then UART_FIFOSTS_RXEMPTY_Msk else 0)
  (Z.lor (if (length (rxq u) =? fifo_size)%nat then UART_FIFOSTS_RXFULL_Msk else 0)
  (Z.lor (Z.shiftl (pointer (txq u)) UART_FIFOSTS_TXPTR_Pos)
  (Z.lor (if (length (txq u) =? 0)%nat then UART_FIFOSTS_TXEMPTY_Msk else 0)
  (Z.lor (if (length (txq u) =? fifo_size)%nat then UART_FIFOSTS_TXFULL_Msk else 0)
    (Z.land (other_sts (now u)) 0xB0000000))))))).

(** The trigger level of received data, by RFITL (the reserved values are not written). *)
Definition trigger_level (u : nu_uart) : nat :=
  match field_get (ureg u FIFO) 4 4 with 1 => 4 | 2 => 8 | 3 => 14 | _ => 1 end.

(** The bits of received data and of the time-out are the hardware's, the rest comes from
    outside. *)
Definition intsts (u : nu_uart) : Z :=
  let rda := (trigger_level u <=? length (rxq u))%nat in
  let o := Z.land (other_ints (now u)) (not32 0x1101) in
  Z.lor o
  (Z.lor (if rda then UART_INTSTS_RDAIF_Msk else 0)
  (Z.lor (if rda && tst (ureg u INTEN) UART_INTEN_RDAIEN_Msk then UART_INTSTS_RDAINT_Msk else 0)
         (if tst o UART_INTSTS_RXTOIF_Msk && tst (ureg u INTEN) UART_INTEN_RXTOIEN_Msk then UART_INTSTS_RXTOINT_Msk else 0))).

Definition read_FIFOSTS : UM Z := fun u => let u' := tick u in Ret (fifosts u', u').
Definition read_INTSTS : UM Z := fun u => let u' := tick u in Ret (intsts u', u').

(** [uart->DAT] *)
Definition UART_READ : UM Z := fun u =>
  match rxq u with [] => Ret (dat_empty (now u), u) | b :: q => Ret (b, set_rxq q u) end.

Definition UART_WRITE (v : Z) : UM unit := modify (fun u =>
  if (length (txq u) <? fifo_size)%nat then set_tx (txq u ++ [u8 v]) (line_out u) u
  else set_reg FIFOSTS (Z.lor (ureg u FIFOSTS) UART_FIFOSTS_TXOVIF_Msk) u).

Definition rd (r : UART_T) : UM Z := gets (fun u => ureg u r).
Definition wr (r : UART_T) (v : Z) : UM unit := modify (set_reg r v).
Definition change (r : UART_T) (f : Z -> Z) : UM unit := let! v := rd r in wr r (f v).

(** FIFOSTS is cleared by ones; a write to INTSTS changes nothing of what is modelled. *)
Definition write_FIFOSTS (v : Z) : UM unit := change FIFOSTS (fun x => Z.land x (not32 v)).
Definition write_INTSTS (v : Z) : UM unit := ret tt.

(** The reset bits of FIFO empty the FIFOs and fall by themselves. *)
Definition write_FIFO (v : Z) : UM unit := modify (fun u =>
  let u1 := set_reg FIFO (Z.land v (not32 (Z.lor UART_FIFO_RXRST_Msk UART_FIFO_TXRST_Msk))) u in
  let u2 := if tst v UART_FIFO_RXRST_Msk then set_rxq [] u1 else u1 in
  if tst v UART_FIFO_TXRST_Msk then set_tx [] (line_out u2) u2 else u2).

Definition UART_ENABLE_INT (m : Z) : UM unit := change INTEN (fun v => Z.lor v m).
Definition UART_DISABLE_INT (m : Z) : UM unit := change INTEN (fun v => Z.land v (not32 m)).
Definition UART_IS_TX_FULL : UM bool := let! v := read_FIFOSTS in ret (tst v UART_FIFOSTS_TXFULL_Msk).
Definition UART_GET_RX_EMPTY : UM bool := let! v := read_FIFOSTS in ret (tst v UART_FIFOSTS_RXEMPTY_Msk).

(** ** nu_uart.c *)

(** nu_clk.c *)
Definition CLK_GetSYSCLK1Freq (c : CLK_T) : Z := if Z.land (CLKSEL0 c) 0x10 =? 0 then __HXT else SYSPLLFREQCLK.

(** Frequency and divider of the port at address [b]. *)
Definition src_clk (b : Z) (c : CLK_T) : Z * Z :=
  let port := if b =? UART16_BASE then 16 else Z.shiftr (Z.land b 0xf0000) 16 in
  let '(sel, div) :=
    if port <? 8 then
      (Z.land (Z.shiftr (CLKSEL2 c) (16 + port * 2)) 0x3,
       if port <? 4 then Z.land (Z.shiftr (CLKDIV1 c) ((port + 4) * 4)) 0xf
       else Z.land (Z.shiftr (CLKDIV2 c) ((port - 4) * 4)) 0xf)
    else if port <=? 16 then
      (Z.land (Z.shiftr (CLKSEL3 c) ((port - 8) * 2)) 0x3,
       if port <? 12 then Z.land (Z.shiftr (CLKDIV2 c) ((port - 4) * 4)) 0xf
       else Z.land (Z.shiftr (CLKDIV3 c) ((port - 12) * 4)) 0xf)
    else (0, 0) in
  (match sel with 0 => __HXT | 1 => CLK_GetSYSCLK1Freq c | _ => 0 end, div).

Definition UART_GetSrcClkSetting : UM (Z * Z) := gets (fun u => src_clk (base u) (CLK u)).

Definition UART_BAUD_MODE0_DIVIDER (f b : Z) : Z := u32 (Z.shiftr (u32 (f + u32 (b * 8)) / b) 4 - 2).
Definition UART_BAUD_MODE2_DIVIDER (f b : Z) : Z := u32 (u32 (f + b / 2) / b - 2).

Definition UART_Close : UM unit := wr INTEN 0.
Definition UART_DisableFlowCtrl : UM unit := change INTEN (fun v => Z.land v (not32 (Z.lor UART_INTEN_ATORTSEN_Msk UART_INTEN_ATOCTSEN_Msk))).
Definition UART_DisableInt (u32InterruptFlag : Z) : UM unit := UART_DISABLE_INT u32InterruptFlag.
Definition UART_EnableInt (u32InterruptFlag : Z) : UM unit := UART_ENABLE_INT u32InterruptFlag.
Definition UART_EnableFlowCtrl : UM unit :=
  change MODEM (fun v => Z.lor v UART_MODEM_RTSACTLV_Msk) ;;
  change MODEMSTS (fun v => Z.land (Z.lor v UART_MODEMSTS_CTSACTLV_Msk) (not32 (Z.land v UART_MODEMSTS_CTSDETF_Msk))) ;;
  change INTEN (fun v => Z.lor v (Z.lor UART_INTEN_ATORTSEN_Msk UART_INTEN_ATOCTSEN_Msk)).

Definition UART_ClearIntFlag (u32InterruptFlag : Z) : UM unit :=
  (if tst u32InterruptFlag UART_INTSTS_RLSINT_Msk then
     write_FIFOSTS (Z.lor (Z.lor UART_FIFOSTS_BIF_Msk UART_FIFOSTS_FEF_Msk) UART_FIFOSTS_PEF_Msk) ;;
     write_FIFOSTS UART_FIFOSTS_ADDRDETF_Msk
   else ret tt) ;;
  (if tst u32InterruptFlag UART_INTSTS_MODEMINT_Msk then
     change MODEMSTS (fun v => Z.land v (not32 UART_MODEMSTS_CTSDETF_Msk))
   else ret tt) ;;
  (if tst u32InterruptFlag UART_INTSTS_BUFEINT_Msk then
     write_FIFOSTS (Z.lor UART_FIFOSTS_RXOVIF_Msk UART_FIFOSTS_TXOVIF_Msk)
   else ret tt) ;;
  (if tst u32InterruptFlag UART_INTSTS_WKINT_Msk then
     change WKSTS (fun v => Z.land v (not32 (Z.lor (Z.lor (Z.lor (Z.lor UART_WKSTS_CTSWKF_Msk UART_WKSTS_DATWKF_Msk)
       UART_WKSTS_RFRTWKF_Msk) UART_WKSTS_RS485WKF_Msk) UART_WKSTS_TOUTWKF_Msk)))
   else ret tt).

(** The part [UART_Open] and [UART_SetLineConfig] share. *)
Definition set_baud (u32baudrate : Z) : UM unit :=
  let! '(freq, div) := UART_GetSrcClkSetting in
  if negb (u32baudrate =? 0) then
    let u32Baud_Div := UART_BAUD_MODE2_DIVIDER (freq / (div + 1)) u32baudrate in
    if 0xFFFF <? u32Baud_Div then wr BAUD (Z.lor UART_BAUD_MODE0 (UART_BAUD_MODE0_DIVIDER (freq / (div + 1)) u32baudrate))
    else wr BAUD (Z.lor UART_BAUD_MODE2 u32Baud_Div)
  else ret tt.

Definition UART_Open (u32baudrate : Z) : UM unit :=
  wr FUNCSEL UART_FUNCSEL_UART ;;
  wr LINE (Z.lor (Z.lor UART_WORD_LEN_8 UART_PARITY_NONE) UART_STOP_BIT_1) ;;
  (let! v := rd FIFO in write_FIFO (Z.land v (not32 (Z.lor UART_FIFO_RFITL_Msk UART_FIFO_RTSTRGLV_Msk)))) ;;
  set_baud u32baudrate.

Definition UART_SetLineConfig (u32baudrate u32data_width u32parity u32stop_bits : Z) : UM unit :=
  set_baud u32baudrate ;;
  wr LINE (Z.lor (Z.lor u32data_width u32parity) u32stop_bits).

Definition UART_SetTimeoutCnt (u32TOC : Z) : UM unit :=
  change TOUT (fun v => Z.lor (Z.land v (not32 UART_TOUT_TOIC_Msk)) u32TOC) ;;
  change INTEN (fun v => Z.lor v UART_INTEN_TOCNTEN_Msk).

Definition UART_SelectIrDAMode (u32Buadrate u32Direction : Z) : UM unit :=
  wr FUNCSEL UART_FUNCSEL_IrDA ;;
  let! '(freq, div) := UART_GetSrcClkSetting in
  (if negb (u32Buadrate =? 0) then
     let u32Baud_Div := UART_BAUD_MODE0_DIVIDER (freq / (div + 1)) u32Buadrate in
     if u32Baud_Div <? 0xFFFF then wr BAUD (Z.lor UART_BAUD_MODE0 u32Baud_Div) else ret tt
   else ret tt) ;;
  (if u32Direction =? UART_IRDA_RXEN then
     change IRDA (fun v => Z.lor v UART_IRDA_RXINV_Msk) ;;
     change IRDA (fun v => Z.land v (not32 UART_IRDA_TXEN_Msk))
   else
     change IRDA (fun v => Z.land v (not32 UART_IRDA_TXINV_Msk)) ;;
     change IRDA (fun v => Z.lor v UART_IRDA_TXEN_Msk)).

Definition UART_SelectRS485Mode (u32Mode u32Addr : Z) : UM unit :=
  wr FUNCSEL UART_FUNCSEL_RS485 ;;
  change ALTCTL (fun v => Z.land v (not32 (Z.lor (Z.lor (Z.lor UART_ALTCTL_RS485NMM_Msk UART_ALTCTL_RS485AUD_Msk)
    UART_ALTCTL_RS485AAD_Msk) UART_ALTCTL_ADDRMV_Msk))) ;;
  change ALTCTL (fun v => Z.lor v (Z.lor u32Mode (shl32 u32Addr UART_ALTCTL_ADDRMV_Pos))).

(** The waits of [UART_Read] and [UART_Write]: whether the FIFO became usable before the
    count reached its limit; [fuel] bounds the reads. *)
Fixpoint delay_loop (fuel : nat) (m u32delayno : Z) : UM bool :=
  match fuel with
  | O => out_of_fuel
  | S fuel' =>
      let! v := read_FIFOSTS in
      if tst v m then
        if 0x40000000 <=? u32delayno + 1 then ret false else delay_loop fuel' m (u32delayno + 1)
      else ret true
  end.

(** The bytes read; the function returns their number. *)
Fixpoint UART_Read (fuel : nat) (u32ReadBytes : nat) : UM (list Z) :=
  match u32ReadBytes with
  | O => ret []
  | S n =>
      let! ok := delay_loop fuel UART_FIFOSTS_RXEMPTY_Msk 0 in
      if ok then let! b := UART_READ in let! l := UART_Read fuel n in ret (u8 b :: l) else ret []
  end.

Fixpoint UART_Write (fuel : nat) (pu8TxBuf : list Z) : UM Z :=
  match pu8TxBuf with
  | [] => ret 0
  | b :: l =>
      let! ok := delay_loop fuel UART_FIFOSTS_TXFULL_Msk 0 in
      if ok then UART_WRITE b ;; let! n := UART_Write fuel l in ret (n + 1) else ret 0
  end.

(** ** drv_uart.c *)

(** A write to a reset register: the module is in reset while its bit is 1. *)
Definition write_IPRST (off v : Z) : UM unit := modify (fun u =>
  let u1 := set_IPRST (fun o => if o =? off then v else IPRST u o) u in
  if (off =? Z.shiftr (rstidx u) 24) && tst v (bit (Z.land (rstidx u) 0xffffff)) then
    set_ureg reset_reg (set_rxq [] (set_tx [] (line_out u1) u1))
  else u1).

(** nu_sys.c, called by [nu_sys_ip_reset] of drv_sys.c *)
Definition SYS_ResetModule (u32ModuleIndex : Z) : UM unit :=
  let off := Z.shiftr u32ModuleIndex 24 in
  let b := shl32 1 (Z.land u32ModuleIndex 0xffffff) in
  (let! v := gets (fun u => IPRST u off) in write_IPRST off (Z.lor v b)) ;;
  (let! v := gets (fun u => IPRST u off) in write_IPRST off (Z.land v (not32 b))).

Definition DATA_BITS_5 : Z := 5.
Definition DATA_BITS_6 : Z := 6.
Definition DATA_BITS_7 : Z := 7.
Definition DATA_BITS_8 : Z := 8.
Definition STOP_BITS_1 : Z := 0.
Definition STOP_BITS_2 : Z := 1.
Definition PARITY_NONE : Z := 0.
Definition PARITY_ODD : Z := 1.
Definition PARITY_EVEN : Z := 2.

Definition word_len_of (data_bits : Z) : option Z :=
  if data_bits =? DATA_BITS_5 then Some UART_WORD_LEN_5
  else if data_bits =? DATA_BITS_6 then Some UART_WORD_LEN_6
  else if data_bits =? DATA_BITS_7 then Some UART_WORD_LEN_7
  else if data_bits =? DATA_BITS_8 then Some UART_WORD_LEN_8
  else None.

Definition stop_bit_of (stop_bits : Z) : option Z :=
  if stop_bits =? STOP_BITS_1 then Some UART_STOP_BIT_1
  else if stop_bits =? STOP_BITS_2 then Some UART_STOP_BIT_2
  else None.

Definition parity_of (parity : Z) : option Z :=
  if parity =? PARITY_NONE then Some UART_PARITY_NONE
  else if parity =? PARITY_ODD then Some UART_PARITY_ODD
  else if parity =? PARITY_EVEN then Some UART_PARITY_EVEN
  else None.

Definition nu_uart_configure (cfg : serial_configure) : UM Z :=
  rt_assert (negb (baud_rate cfg =? 0)) ;;
  match word_len_of (data_bits cfg), stop_bit_of (stop_bits cfg), parity_of (parity cfg) with
  | Some w, Some s, Some p =>
      let! i := gets rstidx in
      SYS_ResetModule i ;;
      UART_Open (baud_rate cfg) ;;
      UART_SetLineConfig 0 w p s ;;
      modify (set_irq_on true) ;;
      ret (- RT_EOK)
  | _, _, _ => UART_Close ;; ret (- RT_EINVAL)
  end.

(** [dma_flag] is 0: no port has a channel.  The DMA modes of CONFIG are not reached, since
    [rt_serial_open] refuses the flags and [rt_serial_control] keeps the command to itself;
    their code works with channel 0, not its own. *)
Definition nu_uart_control (cmd ctrl_arg : Z) : UM Z :=
  if cmd =? RT_DEVICE_CTRL_CLR_INT then
    (if ctrl_arg =? RT_DEVICE_FLAG_INT_RX then
       UART_DISABLE_INT (Z.lor (Z.lor UART_INTEN_RDAIEN_Msk UART_INTEN_RXTOIEN_Msk) UART_INTEN_TOCNTEN_Msk)
     else if ctrl_arg =? RT_DEVICE_FLAG_DMA_RX then
       UART_DISABLE_INT (Z.lor (Z.lor UART_INTEN_RLSIEN_Msk UART_INTEN_RXPDMAEN_Msk) UART_INTEN_TOCNTEN_Msk)
     else ret tt) ;; ret RT_EOK
  else if cmd =? RT_DEVICE_CTRL_SET_INT then
    (if ctrl_arg =? RT_DEVICE_FLAG_INT_RX then UART_ENABLE_INT (Z.lor UART_INTEN_RDAIEN_Msk UART_INTEN_RXTOIEN_Msk)
     else ret tt) ;; ret RT_EOK
  else if cmd =? RT_DEVICE_CTRL_CONFIG then
    (if (ctrl_arg =? RT_DEVICE_FLAG_DMA_RX) || (ctrl_arg =? RT_DEVICE_FLAG_DMA_TX) then undefined else ret RT_EOK)
  else if cmd =? RT_DEVICE_CTRL_CLOSE then
    modify (set_irq_on false) ;;
    UART_DISABLE_INT (Z.lor (Z.lor UART_INTEN_RLSIEN_Msk UART_INTEN_RXPDMAEN_Msk) UART_INTEN_TOCNTEN_Msk) ;;
    UART_DISABLE_INT UART_INTEN_TXPDMAEN_Msk ;;
    UART_Close ;;
    ret RT_EOK
  else ret (- RT_EINVAL).

(** [while (UART_IS_TX_FULL(base));] *)
Fixpoint full_loop (fuel : nat) : UM unit :=
  match fuel with
  | O => out_of_fuel
  | S fuel' => let! full := UART_IS_TX_FULL in if full then full_loop fuel' else ret tt
  end.

Definition nu_uart_send (c : Z) : UM Z := full_loop wait_fuel ;; UART_WRITE c ;; ret 1.

Definition nu_uart_receive : UM Z := let! e := UART_GET_RX_EMPTY in if e then ret (-1) else UART_READ.

(** No interrupt of the driver completes a transmission: a wait for one does not end. *)
#[export] Instance nu_uart_ops : UartOps nu_uart := {
  ops_configure := nu_uart_configure;
  ops_control := nu_uart_control;
  ops_putc := nu_uart_send;
  ops_getc := nu_uart_receive;
  tx_wait := out_of_fuel
}.

(** [nu_uart_flush(psNuUart, 0)] without a user buffer: [tempbuf] has 64 bytes, and a byte
    for the buffer goes to address 0. *)
Fixpoint flush_loop (n : nat) : UM bool :=
  let! e := UART_GET_RX_EMPTY in
  if e then ret false
  else UART_READ ;; match n with O => fail_assert | S n' => flush_loop n' ;; ret true end.

Definition nu_uart_flush : UM unit :=
  UART_DISABLE_INT UART_INTEN_RXPDMAEN_Msk ;;
  let! some := flush_loop 63 in
  if some then undefined else UART_ENABLE_INT UART_INTEN_RXPDMAEN_Msk.

(** [fuel] bounds the bytes of one interrupt. *)
Definition nu_uart_isr (fuel : nat) : SER unit :=
  let! u32IntSts := on_port read_INTSTS in
  let! u32FIFOSts := on_port read_FIFOSTS in
  if tst u32IntSts UART_INTSTS_PRLSIF_Msk then
    on_port (let! v := rd FIFO in write_FIFO (Z.lor v UART_FIFO_RXRST_Msk)) ;;
    on_port (let! v := read_FIFOSTS in
      write_FIFOSTS (Z.lor v (Z.lor (Z.lor UART_FIFOSTS_BIF_Msk UART_FIFOSTS_FEF_Msk) UART_FIFOSTS_PEF_Msk)))
  else if tst u32IntSts UART_INTSTS_PTOIF_Msk then on_port nu_uart_flush
  else
    (if tst u32IntSts (Z.lor UART_INTSTS_RDAINT_Msk UART_INTSTS_RXTOINT_Msk) then serial_isr_rx_ind fuel else ret tt) ;;
    on_port (write_INTSTS u32IntSts) ;;
    on_port (write_FIFOSTS u32FIFOSts).

Definition nu_uart_set_rs485aud (bRTSActiveLowLevel : bool) : UM unit :=
  UART_SelectRS485Mode UART_ALTCTL_RS485AUD_Msk 0 ;;
  if bRTSActiveLowLevel then change MODEM (fun v => Z.lor v UART_MODEM_RTSACTLV_Msk)
  else change MODEM (fun v => Z.land v (not32 UART_MODEM_RTSACTLV_Msk)).

Definition nu_uart_set_loopback (bOn : bool) : UM unit :=
  if bOn then change MODEM (fun v => Z.lor v 0x10) else change MODEM (fun v => Z.land v (not32 0x10)).

Definition nu_uart_default_config : serial_configure := mkCfg 115200 DATA_BITS_8 STOP_BITS_1 PARITY_NONE 0 0 256 0.

(** A port as [rt_hw_uart_init] registers it; [indicates]: the client's callback. *)
Definition registered (indicates : bool) (u : nu_uart) : port nu_uart :=
  mkPort (Z.lor RT_DEVICE_FLAG_RDWR RT_DEVICE_FLAG_INT_RX) 0 0 nu_uart_default_config None false indicates [] u.
End uart.

(** ** A port on a line at rest

    The line takes a byte at every second status read; nothing comes in between calls. *)
Definition quiet_env : UartEnv := {|
  arrives := fun _ => [];
  leaves := fun n => if Nat.even n then 0%nat else 1%nat;
  line_errors := fun _ => 0;
  other_ints := fun _ => 0;
  other_sts := fun _ => 0xA0000000;
  dat_empty := fun _ => 0;
  reset_reg := fun r => match r with MODEM | MODEMSTS => 0x300 | IRDA => 0x40 | _ => 0 end;
  wait_fuel := 2
|}.

(** UART0 with the crystal as its clock. *)
Definition uart0 : nu_uart :=
  mkUart 0x40700000 0x04000010 false (fun _ => 0) [] [] [] 0 (fun _ => 0) (mkClk 0 0 0 0 0 0).
