(* ===== verification/UartWire.v ===== *)
(** * Transmission by a UART

    What a polled write puts on the wire, through the framework and the driver, whatever
    the pace of the line. *)

From Stdlib Require Import ZArith Lia Bool.
From stdpp Require Import base tactics numbers list option.
From S2P Require Import Prelude Serial Uart.

Open Scope Z_scope.

(** ** Status bits *)

Section status.
Context `{UE : UartEnv}.
Implicit Types u : nu_uart.

Lemma pointer_range l : 0 <= pointer l < 2 ^ 4.
Proof. unfold pointer. apply Z.mod_pos_bound. lia. Qed.

Lemma testbit_pointer l pos i : 0 <= pos -> 0 <= i -> pos + 4 <= i \/ i < pos -> Z.testbit (Z.shiftl (pointer l) pos) i = false.
Proof.
  intros Hp Hi Ho. rewrite Z.shiftl_spec by done. destruct Ho.
  - apply (testbit_small _ 4); [lia|apply pointer_range|lia].
  - apply Z.testbit_neg_r. lia.
Qed.

Lemma testbit_if (b : bool) x i : Z.testbit (if b then x else 0) i = b && Z.testbit x i.
Proof. destruct b; [done|apply Z.bits_0]. Qed.

Lemma tx_full_bit u : tst (fifosts u) UART_FIFOSTS_TXFULL_Msk = (length (txq u) =? 16)%nat.
Proof.
  change UART_FIFOSTS_TXFULL_Msk with (bit 23). rewrite tst_bit by lia. unfold fifosts, UART_FIFOSTS_RXPTR_Pos, UART_FIFOSTS_TXPTR_Pos.
  rewrite !Z.lor_spec, !Z.land_spec, !testbit_if, !testbit_pointer by lia.
  rewrite !andb_false_r. cbn [orb]. by rewrite andb_true_r, orb_false_r.
Qed.

Lemma rx_empty_bit u : tst (fifosts u) UART_FIFOSTS_RXEMPTY_Msk = (length (rxq u) =? 0)%nat.
Proof.
  change UART_FIFOSTS_RXEMPTY_Msk with (bit 14). rewrite tst_bit by lia. unfold fifosts, UART_FIFOSTS_RXPTR_Pos, UART_FIFOSTS_TXPTR_Pos.
  rewrite !Z.lor_spec, !Z.land_spec, !testbit_if, !testbit_pointer by lia.
  rewrite !andb_false_r, !andb_true_r. cbn [orb]. by rewrite !orb_false_r.
Qed.

(** ** Time *)

(** What has gone out and what will. *)
Definition on_wire u : list Z := line_out u ++ txq u.

Lemma line_in_keeps l u : txq (line_in l u) = txq u /\ line_out (line_in l u) = line_out u /\ now (line_in l u) = now u.
Proof. unfold line_in. by case_match. Qed.

Lemma tick_tx u : txq (tick u) = drop (leaves (now u)) (txq u) /\ on_wire (tick u) = on_wire u /\ now (tick u) = S (now u).
Proof.
  destruct (line_in_keeps (arrives (now u)) u) as (E1 & E2 & E3). unfold tick, on_wire. cbn. rewrite E1, E2.
  split_and!; [done| |done]. by rewrite <-app_assoc, take_drop.
Qed.

Lemma ticks_tx n u : on_wire (Nat.iter n tick u) = on_wire u /\ now (Nat.iter n tick u) = (n + now u)%nat /\
  (length (txq (Nat.iter n tick u)) <= length (txq u))%nat.
Proof.
  induction n as [|n (IH1 & IH2 & IH3)]; [done|]. rewrite Nat.iter_succ.
  destruct (tick_tx (Nat.iter n tick u)) as (E1 & E2 & E3). rewrite E1, E2, E3, IH1, IH2, length_drop. split_and!; [done|done|lia].
Qed.

(** The line takes bytes again and again. *)
Definition line_moves (limit : nat) : Prop := forall n, exists k, (k < limit)%nat /\ (0 < leaves (n + k))%nat.

Lemma ticks_drain limit u :
  line_moves limit -> (length (txq (Nat.iter limit tick u)) <= length (txq u) - 1)%nat.
Proof.
  intros Hm. destruct (Hm (now u)) as (k & Hk & Hl). replace limit with ((limit - S k) + S k)%nat by lia.
  rewrite Nat.iter_add. pose proof (ticks_tx (limit - S k) (Nat.iter (S k) tick u)) as (_ & _ & H1).
  pose proof (ticks_tx k u) as (_ & E & H2). etrans; [exact H1|]. rewrite Nat.iter_succ.
  destruct (tick_tx (Nat.iter k tick u)) as (Et & _ & _). rewrite Et, length_drop, E, Nat.add_comm. lia.
Qed.

(** All of it goes out. *)
Lemma all_goes_out limit u : line_moves limit -> line_out (Nat.iter (length (txq u) * limit) tick u) = on_wire u.
Proof.
  intros Hm. remember (length (txq u)) as n eqn:En. assert (Hn : (length (txq u) <= n)%nat) by lia. clear En. revert u Hn.
  assert (Hdone : forall u, txq u = [] -> line_out u = on_wire u) by (intros u E; unfold on_wire; by rewrite E, app_nil_r).
  induction n as [|n IH]; intros u Hn; [apply Hdone, nil_length_inv; lia|].
  replace (S n * limit)%nat with (n * limit + limit)%nat by lia. rewrite Nat.iter_add, IH.
  - apply ticks_tx.
  - pose proof (ticks_drain limit u Hm). lia.
Qed.

(** ** Sending *)

Lemma full_loop_spec fuel u :
  (exists k, (k < fuel)%nat /\ (0 < leaves (now u + k))%nat) -> (length (txq u) <= 16)%nat ->
  exists u', full_loop fuel u = Ret (tt, u') /\ on_wire u' = on_wire u /\ (length (txq u') < 16)%nat.
Proof.
  revert u. induction fuel as [|fuel IH]; intros u (k & Hk & Hl) Hlen; [lia|]. cbn [full_loop].
  destruct (tick_tx u) as (E1 & E2 & E3).
  rewrite (bind_Ret _ _ _ (length (txq (tick u)) =? 16)%nat (tick u)).
  2:{ unfold UART_IS_TX_FULL. rewrite (bind_Ret _ _ _ (fifosts (tick u)) (tick u)) by done. unfold ret. by rewrite tx_full_bit. }
  assert (Hle : (length (txq (tick u)) <= 16)%nat) by (rewrite E1, length_drop; lia).
  destruct (Nat.eqb_spec (length (txq (tick u))) 16) as [E|E]; [|exists (tick u); split_and!; [done|done|lia]].
  destruct k as [|k]; [rewrite Nat.add_0_r in Hl; rewrite E1, length_drop in E; lia|].
  destruct (IH (tick u)) as (u' & Hu & Hw & Hs); [exists k; rewrite E3; split; [lia|by replace (S (now u) + k)%nat with (now u + S k)%nat by lia]|done|].
  exists u'. by rewrite Hw, E2.
Qed.

Lemma send_spec c u :
  line_moves wait_fuel -> (length (txq u) <= 16)%nat ->
  exists u', nu_uart_send c u = Ret (1, u') /\ on_wire u' = on_wire u ++ [u8 c] /\ (length (txq u') <= 16)%nat.
Proof.
  intros Hm Hlen. destruct (full_loop_spec wait_fuel u (Hm _) Hlen) as (u1 & E1 & Hw & Hl).
  unfold nu_uart_send. rewrite (bind_Ret _ _ _ _ _ E1). unfold UART_WRITE. autorewrite with monad.
  destruct (Nat.ltb_spec (length (txq u1)) fifo_size) as [_|Hge]; [|unfold fifo_size in Hge; lia].
  eexists. split; [reflexivity|]. unfold on_wire in *. cbn. rewrite app_assoc, Hw, length_app. cbn. split; [done|lia].
Qed.

(** What the framework sends for the bytes of a client. *)
Definition wire_form (stream : bool) (data : list Z) : list Z :=
  data ≫= fun c => if (c =? NL) && stream then [CR; c] else [c].

Lemma poll_tx_spec stream data (p : port nu_uart) :
  line_moves wait_fuel -> (length (txq (low p)) <= 16)%nat ->
  exists u', poll_tx_loop stream data p = Ret (tt, set_low u' p) /\
    on_wire u' = on_wire (low p) ++ map u8 (wire_form stream data) /\ (length (txq u') <= 16)%nat.
Proof.
  intros Hm. revert p. induction data as [|c data IH]; intros p Hlen; cbn [poll_tx_loop].
  - exists (low p). rewrite app_nil_r. split; [by destruct p|done].
  - assert (exists u1, ((if (c =? NL) && stream then on_port (ops_putc CR);; ret tt else ret tt) : SER unit) p = Ret (tt, set_low u1 p) /\
      on_wire u1 = on_wire (low p) ++ (if (c =? NL) && stream then [CR] else []) /\ (length (txq u1) <= 16)%nat) as (u1 & E1 & Hw1 & Hl1).
    { destruct (_ && _).
      - destruct (send_spec CR _ Hm Hlen) as (u1 & E & Hw & Hl). exists u1. split; [|done].
        rewrite (bind_Ret _ _ _ 1 (set_low u1 p)); [done|]. unfold on_port. cbn [ops_putc nu_uart_ops]. by rewrite E.
      - exists (low p). rewrite app_nil_r. split; [by destruct p|done]. }
    rewrite (bind_Ret _ _ _ _ _ E1). destruct (send_spec c _ Hm Hl1) as (u2 & E2 & Hw2 & Hl2).
    rewrite (bind_Ret _ _ _ 1 (set_low u2 (set_low u1 p))).
    2:{ unfold on_port. cbn [ops_putc nu_uart_ops low set_low]. by rewrite E2. }
    destruct (IH (set_low u2 (set_low u1 p)) Hl2) as (u3 & E3 & Hw3 & Hl3). exists u3. split_and!; [|rewrite Hw3|done].
    + rewrite E3. done.
    + cbn [low set_low]. rewrite Hw2, Hw1. unfold wire_form. cbn [mbind list_bind]. rewrite map_app, <-!app_assoc. f_equal. by destruct (_ && _).
Qed.
(** A write that is polled is the loop. *)
Lemma write_polled (p : port nu_uart) fuel data :
  has_flag (s_open_flag p) RT_DEVICE_FLAG_INT_TX = false ->
  rt_serial_write fuel data p =
    (poll_tx_loop (has_flag (s_open_flag p) RT_DEVICE_FLAG_STREAM) data ;; ret (Z.of_nat (length data))) p.
Proof.
  intros Hf. unfold rt_serial_write. destruct (Z.eqb_spec (Z.of_nat (length data)) 0) as [E|E].
  - by assert (data = []) as -> by (apply nil_length_inv; lia).
  - autorewrite with monad. rewrite Hf. unfold _serial_poll_tx. by autorewrite with monad.
Qed.
End status.

(** C15: a write to a UART that the framework serves by polling returns the number of bytes
    and puts them behind what was on its way, a carriage return before each newline when
    the port is open as a stream, nothing else and nothing lost, at whatever pace the line
    takes them as long as it takes one within every [wait_fuel] reads of the status; and
    all of it goes out. *)
Theorem uart_write_wire `{UE : UartEnv} (p : port nu_uart) fuel data :
  line_moves wait_fuel -> (length (txq (low p)) <= 16)%nat -> has_flag (s_open_flag p) RT_DEVICE_FLAG_INT_TX = false ->
  exists u', rt_serial_write fuel data p = Ret (Z.of_nat (length data), set_low u' p) /\
    on_wire u' = on_wire (low p) ++ map u8 (wire_form (has_flag (s_open_flag p) RT_DEVICE_FLAG_STREAM) data) /\
    exists n, line_out (Nat.iter n tick u') = on_wire u'.
Proof.
  intros Hm Hlen Hf. rewrite write_polled by done.
  destruct (poll_tx_spec (has_flag (s_open_flag p) RT_DEVICE_FLAG_STREAM) data p Hm Hlen) as (u' & Eu & Hw & Hl).
  exists u'. rewrite (bind_Ret _ _ _ _ _ Eu). split_and!; [done|done|]. eexists. by apply all_goes_out.
Qed.

Lemma quiet_env_moves : line_moves (UE := quiet_env) 2.
Proof.
  intros n. cbn. destruct (Nat.even n) eqn:En; [|exists 0%nat; rewrite Nat.add_0_r, En; lia].
  exists 1%nat. rewrite Nat.add_1_r, Nat.even_succ, <-Nat.negb_even, En. cbn. lia.
Qed.

Lemma uart_write_wire_witness :
  let E := quiet_env in let p := set_s_open_flag RT_DEVICE_FLAG_STREAM (registered false uart0) in
  exists u', rt_serial_write 0 [79; 75; 10] p = Ret (3, set_low u' p) /\ on_wire u' = [79; 75; 13; 10] /\
    exists n, line_out (Nat.iter n tick u') = [79; 75; 13; 10].
Proof.
  intros E p. destruct (uart_write_wire p 0 [79; 75; 10]) as (u' & H1 & H2 & n & H3).
  - exact quiet_env_moves.
  - cbn. lia.
  - reflexivity.
  - assert (Hw : on_wire u' = [79; 75; 13; 10]) by (rewrite H2; vm_compute; reflexivity).
    exists u'. split; [exact H1|]. split; [exact Hw|]. exists n. rewrite <-Hw. exact H3.
Defined.
