(* ===== verification/UartRate.v ===== *)
(** * Configuring a UART

    The rate a configured UART runs at, and what a configuration does to an open port. *)

From Stdlib Require Import ZArith Lia Bool.
From stdpp Require Import base tactics numbers list option.
From S2P Require Import Prelude Serial SerialQueue Uart.

Open Scope Z_scope.

(** ** The divider *)

(** What the clock is divided by for a bit, in the two modes the driver uses. *)
Definition baud_divisor (v : Z) : option Z :=
  let brd := Z.land v 0xffff in
  match field_get v 2 28 with 0 => Some (16 * (brd + 2)) | 3 => Some (brd + 2) | _ => None end.

Definition baud_word (f b : Z) : Z :=
  if 0xFFFF <? UART_BAUD_MODE2_DIVIDER f b then Z.lor UART_BAUD_MODE0 (UART_BAUD_MODE0_DIVIDER f b)
  else Z.lor UART_BAUD_MODE2 (UART_BAUD_MODE2_DIVIDER f b).

Lemma land_16 x : 0 <= x < 2 ^ 16 -> Z.land x 0xffff = x.
Proof. intros H. change 0xffff with (Z.ones 16). rewrite Z.land_ones by lia. by apply Z.mod_small. Qed.

Lemma divisor_mode0 x : 0 <= x < 2 ^ 16 -> baud_divisor x = Some (16 * (x + 2)).
Proof.
  intros H. unfold baud_divisor. rewrite land_16 by done. unfold field_get.
  rewrite (Z.shiftr_div_pow2 x), Z.div_small by lia. done.
Qed.

Lemma divisor_mode2 x : 0 <= x < 2 ^ 16 -> baud_divisor (Z.lor UART_BAUD_MODE2 x) = Some (x + 2).
Proof.
  intros H. unfold baud_divisor. assert (Z.land (Z.lor UART_BAUD_MODE2 x) 0xffff = x) as ->.
  { rewrite Z.land_lor_distr_l, (land_16 x) by done. done. }
  unfold field_get. rewrite Z.shiftr_lor, (Z.shiftr_div_pow2 x), Z.div_small, Z.lor_0_r by lia. done.
Qed.

Lemma half b : 2 * (b / 2) <= b < 2 * (b / 2) + 2.
Proof. pose proof (Z.div_mod b 2). pose proof (Z.mod_pos_bound b 2). lia. Qed.

(** The rounded quotients of the two modes. *)
Definition quot2 (f b : Z) : Z := (f + b / 2) / b.
Definition quot0 (f b : Z) : Z := (f + 8 * b) / (16 * b).

Lemma mode2_quot f b : 0 <= f < 2 ^ 31 -> 0 < b < 2 ^ 32 -> UART_BAUD_MODE2_DIVIDER f b = u32 (quot2 f b - 2).
Proof. intros Hf Hb. unfold UART_BAUD_MODE2_DIVIDER, quot2. pose proof (half b). rewrite (u32_small (f + b / 2)) by (unfold is_u32; lia). done. Qed.

Lemma mode0_quot f b : 0 <= f < 2 ^ 31 -> 0 < b < 2 ^ 27 -> UART_BAUD_MODE0_DIVIDER f b = u32 (quot0 f b - 2).
Proof.
  intros Hf Hb. unfold UART_BAUD_MODE0_DIVIDER, quot0. rewrite (u32_small (b * 8)), (u32_small (f + b * 8)) by (unfold is_u32; lia).
  rewrite Z.shiftr_div_pow2, Z.div_div by lia. do 3 f_equal; lia.
Qed.

(** Above two thirds of the clock both subtractions go below zero. *)
Lemma baud_too_fast f b : 0 <= f < 2 ^ 31 -> 0 < b < 2 ^ 32 -> quot2 f b < 2 -> baud_word f b = 0xFFFFFFFE.
Proof.
  intros Hf Hb Hq. pose proof (half b). unfold baud_word. rewrite mode2_quot by done.
  assert (Hq0 : 0 <= quot2 f b) by (apply Z.div_pos; lia).
  assert (Hfb : f < 2 * b).
  { unfold quot2 in Hq. pose proof (Z.mul_succ_div_gt (f + b / 2) b). nia. }
  assert (u32 (quot2 f b - 2) = 2 ^ 32 + (quot2 f b - 2)) as ->.
  { unfold u32. rewrite <-(Z.mod_add _ 1), Z.mod_small by lia. lia. }
  destruct (Z.ltb_spec 65535 (2 ^ 32 + (quot2 f b - 2))); [|lia]. unfold UART_BAUD_MODE0. rewrite Z.lor_0_l. unfold UART_BAUD_MODE0_DIVIDER.
  assert (0 <= u32 (f + u32 (b * 8)) / b < 16).
  { split; [apply Z.div_pos; [apply u32_range|lia]|]. apply Z.div_lt_upper_bound; [lia|].
    assert (u32 (b * 8) <= b * 8) by (apply Z.mod_le; lia). pose proof (u32_range (b * 8)) as [? ?].
    assert (u32 (f + u32 (b * 8)) <= f + u32 (b * 8)) by (apply Z.mod_le; lia). lia. }
  rewrite Z.shiftr_div_pow2, Z.div_small by lia. done.
Qed.

Lemma baud_mode2 f b :
  0 <= f < 2 ^ 31 -> 0 < b < 2 ^ 32 -> 2 <= quot2 f b <= 65537 ->
  baud_divisor (baud_word f b) = Some (quot2 f b) /\ 2 * Z.abs (f - b * quot2 f b) <= b.
Proof.
  intros Hf Hb Hq. unfold baud_word. rewrite mode2_quot, u32_small by (done || unfold is_u32; lia).
  destruct (Z.ltb_spec 65535 (quot2 f b - 2)); [lia|]. rewrite divisor_mode2 by lia. split; [f_equal; lia|].
  unfold quot2. pose proof (half b). pose proof (Z.div_mod (f + b / 2) b). pose proof (Z.mod_pos_bound (f + b / 2) b). lia.
Qed.

Lemma baud_mode0 f b :
  0 <= f < 2 ^ 31 -> 0 < b < 2 ^ 32 -> 65537 < quot2 f b ->
  baud_word f b = quot0 f b - 2 /\ 16 * Z.abs (f - b * (16 * quot0 f b)) <= 16 * (8 * b) /\
  (quot0 f b <= 65537 -> baud_divisor (baud_word f b) = Some (16 * quot0 f b)).
Proof.
  intros Hf Hb Hq. pose proof (half b). assert (Hfb : b * 65537 <= f + b / 2).
  { unfold quot2 in Hq. pose proof (Z.mul_div_le (f + b / 2) b). nia. }
  assert (Hq0 : 4096 <= quot0 f b < 2 ^ 31).
  { unfold quot0. split; [apply Z.div_le_lower_bound; lia|]. apply Z.div_lt_upper_bound; lia. }
  assert (E : baud_word f b = quot0 f b - 2).
  { unfold baud_word. rewrite mode2_quot by done. assert (quot2 f b < 2 ^ 32) by (apply Z.div_lt_upper_bound; nia).
    rewrite u32_small by (unfold is_u32; lia). destruct (Z.ltb_spec 65535 (quot2 f b - 2)); [|lia].
    unfold UART_BAUD_MODE0. rewrite Z.lor_0_l, mode0_quot, u32_small by (lia || unfold is_u32; lia). done. }
  split_and!; [done| |].
  - unfold quot0. pose proof (Z.div_mod (f + 8 * b) (16 * b)). pose proof (Z.mod_pos_bound (f + 8 * b) (16 * b)). lia.
  - intros Hle. rewrite E, divisor_mode0 by lia. f_equal. lia.
Qed.

(** ** Configuration *)

Definition uart_clock (u : nu_uart) : Z := let '(freq, div) := src_clk (base u) (CLK u) in freq / (div + 1).

Lemma uart_clock_range u : 0 <= uart_clock u <= 180000000.
Proof.
  unfold uart_clock, src_clk, CLK_GetSYSCLK1Freq, __HXT, SYSPLLFREQCLK.
  assert (Hd : forall x, 0 <= Z.land x 0xf) by (intros x; apply Z.land_nonneg; lia).
  assert (Hq : forall f d, 0 <= f <= 180000000 -> 0 <= d -> 0 <= f / (d + 1) <= 180000000).
  { intros f d Hf Hd'. split; [apply Z.div_pos; lia|]. apply Z.div_le_upper_bound; [lia|]. nia. }
  repeat case_match; simplify_eq; apply Hq; try done; apply Hd.
Qed.

Definition reset_index_ok (u : nu_uart) : Prop := 0 <= Z.land (rstidx u) 0xffffff < 32.

Section configure.
Context `{UE : UartEnv}.
Implicit Types u : nu_uart.

(** What a function on the port leaves of it. *)
Record same_port u u' : Prop := {
  sp_base : base u' = base u;
  sp_idx : rstidx u' = rstidx u;
  sp_clk : CLK u' = CLK u;
  sp_out : line_out u' = line_out u
}.

Lemma reset_spec u :
  reset_index_ok u -> exists u', SYS_ResetModule (rstidx u) u = Ret (tt, u') /\ same_port u u' /\
    ureg u' = reset_reg /\ rxq u' = [] /\ txq u' = [].
Proof.
  intros Hi. unfold SYS_ResetModule. autorewrite with monad. unfold write_IPRST at 1. autorewrite with monad.
  unfold write_IPRST. rewrite Z.eqb_refl.
  assert (Hb : bit (Z.land (rstidx u) 0xffffff) = shl32 1 (Z.land (rstidx u) 0xffffff)).
  { symmetry. unfold shl32. apply u32_small. fold (bit (Z.land (rstidx u) 0xffffff)). by apply bit_u32. }
  assert (tst (Z.lor (IPRST u (Z.shiftr (rstidx u) 24)) (shl32 1 (Z.land (rstidx u) 0xffffff))) (bit (Z.land (rstidx u) 0xffffff)) = true) as ->.
  { rewrite tst_bit, Z.lor_spec, <-Hb, testbit_bit, Z.eqb_refl by (destruct Hi; lia). apply orb_true_r. }
  eexists. split; [reflexivity|]. cbn. by case_match.
Qed.

(** A value for FIFO that sets no reset bit is stored. *)
Lemma write_FIFO_plain v u :
  tst v UART_FIFO_RXRST_Msk = false -> tst v UART_FIFO_TXRST_Msk = false ->
  exists v', write_FIFO v u = Ret (tt, set_reg FIFO v' u) /\ v' = Z.land v (not32 (Z.lor UART_FIFO_RXRST_Msk UART_FIFO_TXRST_Msk)).
Proof. intros H1 H2. eexists. split; [|reflexivity]. unfold write_FIFO, modify. by rewrite H1, H2. Qed.

Lemma set_baud_spec b u : b <> 0 -> set_baud b u = Ret (tt, set_reg BAUD (baud_word (uart_clock u) b) u).
Proof.
  intros Hb. unfold set_baud, UART_GetSrcClkSetting. autorewrite with monad. unfold uart_clock.
  destruct (src_clk _ _) as [f d]. apply Z.eqb_neq in Hb as ->. unfold baud_word. cbn. by case_match.
Qed.

Lemma set_baud_0 u : set_baud 0 u = Ret (tt, u).
Proof. unfold set_baud, UART_GetSrcClkSetting. autorewrite with monad. by destruct (src_clk _ _). Qed.

(** What a configuration with valid settings leaves. *)
Record configured (b line : Z) u u' : Prop := {
  cf_port : same_port u u';
  cf_irq : irq_on u' = true;
  cf_rx : rxq u' = [];
  cf_tx : txq u' = [];
  cf_line : ureg u' LINE = line;
  cf_func : ureg u' FUNCSEL = UART_FUNCSEL_UART;
  cf_level : field_get (ureg u' FIFO) 4 4 = 0;
  cf_baud : ureg u' BAUD = baud_word (uart_clock u) b;
  cf_inten : ureg u' INTEN = reset_reg INTEN
}.

Lemma open_spec b u :
  b <> 0 -> rxq u = [] -> txq u = [] ->
  exists u', UART_Open b u = Ret (tt, u') /\ same_port u u' /\ rxq u' = [] /\ txq u' = [] /\ irq_on u' = irq_on u /\
    ureg u' FUNCSEL = UART_FUNCSEL_UART /\ field_get (ureg u' FIFO) 4 4 = 0 /\ ureg u' BAUD = baud_word (uart_clock u) b /\
    ureg u' INTEN = ureg u INTEN.
Proof.
  intros Hb Hr Ht. unfold UART_Open, wr, rd. autorewrite with monad. unfold write_FIFO. autorewrite with monad.
  match goal with |- context [set_baud b ?x] => set (u1 := x) end.
  assert (H1 : same_port u u1 /\ rxq u1 = [] /\ txq u1 = [] /\ irq_on u1 = irq_on u /\ ureg u1 FUNCSEL = UART_FUNCSEL_UART /\
    ureg u1 INTEN = ureg u INTEN /\ uart_clock u1 = uart_clock u).
  { unfold u1. split_and!; [split|..]; by repeat case_match. }
  assert (Hlevel : field_get (ureg u1 FIFO) 4 4 = 0).
  { assert (ureg u1 FIFO = Z.land (Z.land (ureg u FIFO) (not32 (Z.lor UART_FIFO_RFITL_Msk UART_FIFO_RTSTRGLV_Msk)))
       (not32 (Z.lor UART_FIFO_RXRST_Msk UART_FIFO_TXRST_Msk))) as -> by (unfold u1; by repeat case_match).
    unfold field_get. apply Z.bits_inj'. intros i Hi. autorewrite with bits. destruct (Z.ltb_spec i 4); [|apply andb_false_r].
    assert (i = 0 \/ i = 1 \/ i = 2 \/ i = 3) as [-> | [-> | [-> | ->]]] by lia; cbn; by rewrite ?andb_false_r, ?andb_false_l. }
  destruct H1 as (S1 & S2 & S3 & S4 & S5 & S6 & S7). rewrite set_baud_spec by done. eexists. split; [reflexivity|].
  destruct S1. rewrite S7. split_and!; [by split|done..| |done|done]. exact Hlevel.
Qed.

Lemma configure_spec u cfg w s p :
  word_len_of (data_bits cfg) = Some w -> stop_bit_of (stop_bits cfg) = Some s -> parity_of (parity cfg) = Some p ->
  baud_rate cfg <> 0 -> reset_index_ok u ->
  exists u', nu_uart_configure cfg u = Ret (RT_EOK, u') /\ configured (baud_rate cfg) (Z.lor (Z.lor w p) s) u u'.
Proof.
  intros Hw Hs Hp Hb Hi. unfold nu_uart_configure. rewrite bind_assert by (by apply negb_true_iff, Z.eqb_neq). rewrite Hw, Hs, Hp.
  autorewrite with monad. destruct (reset_spec u Hi) as (u1 & E1 & [P1 P2 P3 P4] & Hreg & Hr & Ht). rewrite (bind_Ret _ _ _ _ _ E1).
  destruct (open_spec (baud_rate cfg) u1 Hb Hr Ht) as (u2 & E2 & [Q1 Q2 Q3 Q4] & Hr2 & Ht2 & Hi2 & Hf2 & Hl2 & Hb2 & Hn2).
  rewrite (bind_Ret _ _ _ _ _ E2). unfold UART_SetLineConfig. rewrite bind_assoc, (bind_Ret _ _ _ _ _ (set_baud_0 u2)).
  unfold wr. autorewrite with monad. eexists. split; [reflexivity|].
  assert (Hc : uart_clock u1 = uart_clock u) by (unfold uart_clock; by rewrite P1, P3).
  constructor; try done.
  - split; cbn; congruence.
  - trans (ureg u2 BAUD); [done|]. by rewrite Hb2, Hc.
  - trans (ureg u2 INTEN); [done|]. by rewrite Hn2, Hreg.
Qed.

(** Any other settings. *)
Lemma configure_refused u cfg :
  word_len_of (data_bits cfg) = None \/ stop_bit_of (stop_bits cfg) = None \/ parity_of (parity cfg) = None ->
  baud_rate cfg <> 0 -> nu_uart_configure cfg u = Ret (- RT_EINVAL, set_reg INTEN 0 u).
Proof.
  intros H Hb. unfold nu_uart_configure. rewrite bind_assert by (by apply negb_true_iff, Z.eqb_neq).
  destruct (word_len_of _), (stop_bit_of _), (parity_of _); try done. by destruct H as [|[|]].
Qed.
End configure.

(** C12: a configuration with 5 to 8 data bits, 1 or 2 stop bits, and no, odd or even parity
    succeeds: the line settings are those asked for, both FIFOs are emptied, interrupts are
    at their reset value, received data is announced from one byte on, and with a clock of [f] Hz and a rate of [b] the bit takes [d]
    cycles, where [d] is [f / b] rounded, or 16 times [f / 16b] rounded when that does not
    fit 16 bits, so that [b * d] is off by at most half a step.  Outside the range nothing is
    reported: a rate above two thirds of the clock gives 1/65536 of the clock, the slowest of
    the mode, and for a rate so low that [f / 16b] does not fit either, the bits above go to
    other fields of the register. *)
Theorem uart_configure_rate `{UE : UartEnv} (u : nu_uart) cfg w s p :
  word_len_of (data_bits cfg) = Some w -> stop_bit_of (stop_bits cfg) = Some s -> parity_of (parity cfg) = Some p ->
  0 < baud_rate cfg < 2 ^ 32 -> reset_index_ok u ->
  exists u', nu_uart_configure cfg u = Ret (RT_EOK, u') /\ configured (baud_rate cfg) (Z.lor (Z.lor w p) s) u u' /\
    let f := uart_clock u in let b := baud_rate cfg in
    if quot2 f b <? 2 then baud_divisor (ureg u' BAUD) = Some 65536 /\ ureg u' BAUD = 0xFFFFFFFE
    else if quot2 f b <=? 65537 then exists d, baud_divisor (ureg u' BAUD) = Some d /\ 2 * Z.abs (f - b * d) <= b
    else if quot0 f b <=? 65537 then exists d, baud_divisor (ureg u' BAUD) = Some d /\ Z.abs (f - b * d) <= 8 * b
    else ureg u' BAUD = quot0 f b - 2 /\ 2 ^ 16 <= ureg u' BAUD.
Proof.
  intros Hw Hs Hp Hb Hi. destruct (configure_spec u cfg w s p Hw Hs Hp) as (u' & E & Hc); [lia|done|].
  exists u'. split_and!; [done|done|]. cbn zeta. rewrite (cf_baud _ _ _ _ Hc).
  pose proof (uart_clock_range u). assert (Hf : 0 <= uart_clock u < 2 ^ 31) by lia.
  destruct (Z.ltb_spec (quot2 (uart_clock u) (baud_rate cfg)) 2); [by rewrite baud_too_fast|].
  destruct (Z.leb_spec (quot2 (uart_clock u) (baud_rate cfg)) 65537).
  - destruct (baud_mode2 _ _ Hf Hb) as [Hd Hr]; [done|]. eauto.
  - destruct (baud_mode0 _ _ Hf Hb) as (Hw0 & Hr & Hd); [done|].
    destruct (Z.leb_spec (quot0 (uart_clock u) (baud_rate cfg)) 65537); [exists (16 * quot0 (uart_clock u) (baud_rate cfg)); split; [auto|lia]|].
    rewrite Hw0. split; [done|lia].
Qed.

Lemma uart0_index : reset_index_ok uart0.
Proof. by vm_compute. Qed.

(** At 115200 the error of UART0 is 0.16 percent. *)
Lemma uart_configure_rate_witness :
  let E := quiet_env in
  (exists u', nu_uart_configure nu_uart_default_config uart0 = Ret (RT_EOK, u') /\ configured 115200 3 uart0 u' /\
    exists d, baud_divisor (ureg u' BAUD) = Some d /\ 2 * Z.abs (24000000 - 115200 * d) <= 115200) /\
  (exists u', nu_uart_configure (mkCfg 20000000 8 0 0 0 0 256 0) uart0 = Ret (RT_EOK, u') /\ ureg u' BAUD = 0xFFFFFFFE).
Proof.
  intros E. split.
  - assert (Hb : 0 < baud_rate nu_uart_default_config < 2 ^ 32) by (cbn; lia).
    assert (Hi : reset_index_ok uart0) by apply uart0_index.
    destruct (uart_configure_rate uart0 nu_uart_default_config 3 0 0 eq_refl eq_refl eq_refl Hb Hi) as (u' & H1 & H2 & H3).
    exists u'. split; [exact H1|]. split; [exact H2|exact H3].
  - assert (Hb : 0 < 20000000 < 2 ^ 32) by lia. assert (Hi : reset_index_ok uart0) by apply uart0_index.
    destruct (uart_configure_rate uart0 (mkCfg 20000000 8 0 0 0 0 256 0) 3 0 0 eq_refl eq_refl eq_refl Hb Hi) as (u' & H1 & _ & H3).
    exists u'. split; [exact H1|exact (proj2 H3)].
Defined.
