(* ===== verification/UartSession.v ===== *)
(** * Sessions with a UART

    Lines, interrupts, reads, writes and new configurations in any order, on a port opened
    for reception by interrupts: the framework, the driver and the controller together are
    two queues one behind the other. *)

From Stdlib Require Import ZArith Lia Bool.
From stdpp Require Import base tactics numbers list option.
From S2P Require Import Prelude RingBuf RingQueue Serial SerialQueue Uart UartWire UartRate.

Open Scope Z_scope.

(** ** Interrupt status *)

Lemma tst_lor x a b : tst x (Z.lor a b) = tst x a || tst x b.
Proof.
  unfold tst. rewrite Z.land_lor_distr_r. destruct (Z.eqb_spec (Z.land x a) 0) as [->|Ha]; [by rewrite Z.lor_0_l|].
  cbn. apply negb_true_iff, Z.eqb_neq. intros E. by apply Z.lor_eq_0_iff in E as [E _].
Qed.

(** Between calls only: bytes of the line are operations of the session, no time-out and no
    PDMA flag comes up (neither is switched on), and a reset disables the interrupts of
    received data. *)
Class UartQuiet `{UE : UartEnv} : Prop := {
  quiet_line : forall n, arrives n = [];
  quiet_ints : forall n, tst (other_ints n) (Z.lor (Z.lor UART_INTSTS_RXTOIF_Msk UART_INTSTS_PRLSIF_Msk) UART_INTSTS_PTOIF_Msk) = false;
  quiet_reset : tst (reset_reg INTEN) UART_INTEN_RDAIEN_Msk = false
}.

Section quiet.
Context `{UE : UartEnv} {UQ : UartQuiet}.
Implicit Types u : nu_uart.

Lemma other_bit n k : 0 <= k -> k = 4 \/ k = 18 \/ k = 20 -> Z.testbit (other_ints n) k = false.
Proof.
  intros Hk Hc. pose proof (quiet_ints n) as H. rewrite !tst_lor in H. apply orb_false_iff in H as [H H20]. apply orb_false_iff in H as [H4 H18].
  change UART_INTSTS_RXTOIF_Msk with (bit 4) in H4. change UART_INTSTS_PRLSIF_Msk with (bit 18) in H18.
  change UART_INTSTS_PTOIF_Msk with (bit 20) in H20. rewrite tst_bit in H4, H18, H20 by lia.
  by destruct Hc as [-> | [-> | ->]].
Qed.

Lemma intsts_bit u k :
  k = 18 \/ k = 20 \/ k = 12 -> Z.testbit (intsts u) k = false.
Proof.
  intros Hk. unfold intsts. rewrite !Z.lor_spec, !testbit_if, Z.land_spec.
  assert (tst (Z.land (other_ints (now u)) (not32 0x1101)) UART_INTSTS_RXTOIF_Msk = false) as ->.
  { change UART_INTSTS_RXTOIF_Msk with (bit 4). rewrite tst_bit, Z.land_spec, other_bit by lia. done. }
  destruct Hk as [-> | [-> | ->]]; rewrite ?other_bit by lia; cbn; by rewrite ?andb_false_r.
Qed.

Lemma intsts_rda u :
  tst (intsts u) (Z.lor UART_INTSTS_RDAINT_Msk UART_INTSTS_RXTOINT_Msk) =
    (trigger_level u <=? length (rxq u))%nat && tst (ureg u INTEN) UART_INTEN_RDAIEN_Msk.
Proof.
  rewrite tst_lor. change UART_INTSTS_RDAINT_Msk with (bit 8). change UART_INTSTS_RXTOINT_Msk with (bit 12).
  rewrite !tst_bit by lia. rewrite (intsts_bit u 12), orb_false_r by lia. unfold intsts. rewrite !Z.lor_spec, !testbit_if, Z.land_spec.
  cbn. by rewrite !andb_false_r, andb_true_r, orb_false_r.
Qed.

(** ** What reception does not depend on *)

Definition kept u u' : Prop :=
  ureg u' INTEN = ureg u INTEN /\ ureg u' FIFO = ureg u FIFO /\ rstidx u' = rstidx u /\ (length (txq u) <= 16 -> length (txq u') <= 16)%nat.

#[export] Instance kept_preorder : PreOrder kept.
Proof.
  split; [by intros u|]. intros u v w (A1 & A2 & A3 & A4) (B1 & B2 & B3 & B4). split_and!; [congruence..|auto].
Qed.

Lemma tick_quiet u : (length (rxq u) <= 16)%nat -> rxq (tick u) = rxq u /\ kept u (tick u).
Proof.
  intros Hl. unfold kept. destruct (tick_tx u) as (Et & _ & _). rewrite Et, length_drop. unfold tick. rewrite quiet_line.
  unfold line_in. cbn [map]. rewrite app_nil_r, take_ge by done. cbn. case_match; split_and!; try done; lia.
Qed.

Lemma write_keeps c u : exists u', UART_WRITE c u = Ret (tt, u') /\ rxq u' = rxq u /\ kept u u'.
Proof.
  unfold UART_WRITE, modify. eexists. split; [reflexivity|]. unfold kept. case_match; cbn; split_and!; try done.
  rewrite length_app. cbn. apply Nat.ltb_lt in H. unfold fifo_size in H. lia.
Qed.

Lemma full_loop_keeps fuel u u' :
  (length (rxq u) <= 16)%nat -> full_loop fuel u = Ret (tt, u') -> rxq u' = rxq u /\ kept u u'.
Proof.
  revert u. induction fuel as [|fuel IH]; intros u Hl; cbn [full_loop]; [done|]. destruct (tick_quiet u Hl) as [Hr Hk].
  rewrite (bind_Ret _ _ _ (length (txq (tick u)) =? 16)%nat (tick u)).
  2:{ unfold UART_IS_TX_FULL. rewrite (bind_Ret _ _ _ (fifosts (tick u)) (tick u)) by done. unfold ret. by rewrite tx_full_bit. }
  case_match; [|by intros [= <-]]. intros E. destruct (IH (tick u)) as [H1 H2]; [by rewrite Hr|done|].
  split; [congruence|]. by trans (tick u).
Qed.

Lemma send_keeps c u r u' :
  (length (rxq u) <= 16)%nat -> nu_uart_send c u = Ret (r, u') -> rxq u' = rxq u /\ kept u u'.
Proof.
  intros Hl. unfold nu_uart_send. intros H. apply bind_inv in H as ([] & u1 & E1 & H).
  destruct (full_loop_keeps _ _ _ Hl E1) as [Hr Hk]. apply bind_inv in H as ([] & u2 & E2 & [= _ <-]).
  destruct (write_keeps c u1) as (u3 & E3 & Hr3 & Hk3). rewrite E2 in E3. injection E3 as ->. split; [congruence|]. by trans u1.
Qed.

Lemma poll_tx_keeps stream data (p p' : port nu_uart) :
  (length (rxq (low p)) <= 16)%nat -> poll_tx_loop stream data p = Ret (tt, p') ->
  p' = set_low (low p') p /\ rxq (low p') = rxq (low p) /\ kept (low p) (low p').
Proof.
  revert p. induction data as [|c data IH]; intros p Hl; cbn [poll_tx_loop];
    [intros [= <-]; split; [by destruct p|split; [done|reflexivity]]|].
  assert (Hsend : forall c0 (q q' : port nu_uart) r, (length (rxq (low q)) <= 16)%nat -> on_port (ops_putc c0) q = Ret (r, q') ->
    q' = set_low (low q') q /\ rxq (low q') = rxq (low q) /\ kept (low q) (low q')).
  { intros c0 q q' r Hq E. apply on_port_inv in E as (h & E & ->). cbn [low set_low]. split; [done|]. exact (send_keeps c0 (low q) r h Hq E). }
  intros H. apply bind_inv in H as ([] & p1 & E1 & H). apply bind_inv in H as (r2 & p2 & E2 & H).
  assert (p1 = set_low (low p1) p /\ rxq (low p1) = rxq (low p) /\ kept (low p) (low p1)) as (P1 & P2 & P3).
  { destruct (_ && _); [|injection E1 as <-; split; [by destruct p|split; [done|reflexivity]]]. apply bind_inv in E1 as (r & q & E & [= <-]). by eapply Hsend. }
  destruct (Hsend _ _ _ _ ltac:(by rewrite P2) E2) as (Q1 & Q2 & Q3).
  destruct (IH _ ltac:(by rewrite Q2, P2) H) as (R1 & R2 & R3).
  split; [rewrite R1, Q1, P1; done|split; [congruence|]]. trans (low p2); [|done]. by trans (low p1).
Qed.

(** ** The handler *)

Lemma getc_spec u :
  (length (rxq u) <= 16)%nat ->
  exists u', kept u u' /\ nu_uart_receive u = match rxq u with
    | [] => Ret (-1, u') | b :: q => Ret (b, u') end /\ rxq u' = tail (rxq u).
Proof.
  intros Hl. destruct (tick_quiet u Hl) as [Hr Hk]. unfold nu_uart_receive.
  rewrite (bind_Ret _ _ _ (length (rxq (tick u)) =? 0)%nat (tick u)).
  2:{ unfold UART_GET_RX_EMPTY. rewrite (bind_Ret _ _ _ (fifosts (tick u)) (tick u)) by done. unfold ret. by rewrite rx_empty_bit. }
  unfold UART_READ. rewrite Hr. destruct (rxq u) as [|b q] eqn:E; cbn [length Nat.eqb]; rewrite ?Hr.
  - exists (tick u). split; [exact Hk|split; [reflexivity|]]. by rewrite Hr.
  - exists (set_rxq q (tick u)). by split.
Qed.

Lemma drain_quiet fuel u :
  (length (rxq u) < fuel)%nat -> (length (rxq u) <= 16)%nat -> Forall is_u8 (rxq u) ->
  exists u', drain fuel u = Ret (rxq u, u') /\ rxq u' = [] /\ kept u u'.
Proof.
  revert u. induction fuel as [|fuel IH]; intros u Hf Hl Hu; [lia|]. cbn [drain]. change (ops_getc u) with (nu_uart_receive u).
  destruct (getc_spec u Hl) as (u1 & Hk & -> & Hr). destruct (rxq u) as [|b q] eqn:E; [by exists u1|].
  apply Forall_cons_1 in Hu as [Hb Hu]. destruct (Z.eqb_spec b (-1)); [unfold is_u8 in Hb; lia|].
  cbn [tail] in Hr. cbn [length] in *. destruct (IH u1) as (u2 & E2 & Hr2 & Hk2); [rewrite Hr; lia..|by rewrite Hr|].
  exists u2. rewrite E2, Hr. split_and!; [done|done|]. by trans u1.
Qed.
End quiet.

(** ** The two queues *)

Inductive uart_op : Type :=
| Line (l : list Z)                (** bytes come in *)
| Irq                              (** the handler runs *)
| ReadOp (n : Z)
| WriteOp (data : list Z)
| Reconfigure (cfg : serial_configure).

(** What a client gets back: the bytes read, the number of bytes written, the status of a
    new configuration. *)
Inductive answer : Type :=
| Bytes (l : list Z)
| Written (n : Z)
| Status (r : Z).

Definition uart_step `{UE : UartEnv} (fuel : nat) (o : uart_op) : M (port nu_uart) (list answer) :=
  match o with
  | Line l => modify (fun p => set_low (line_in l (low p)) p) ;; ret []
  | Irq => nu_uart_isr fuel ;; ret []
  | ReadOp n => let! l := rt_serial_read n in ret [Bytes l]
  | WriteOp data => let! n := rt_serial_write fuel data in ret [Written n]
  | Reconfigure cfg => let! r := rt_serial_control RT_DEVICE_CTRL_CONFIG (Some cfg) 0 in ret [Status r]
  end.

Fixpoint uart_run `{UE : UartEnv} (fuel : nat) (l : list uart_op) : M (port nu_uart) (list answer) :=
  match l with
  | [] => ret []
  | o :: l' => let! a := uart_step fuel o in let! b := uart_run fuel l' in ret (a ++ b)
  end.

(** Bytes in the controller, bytes in the FIFO of the framework, how many were lost, the
    lengths the client was told, and whether the port still listens. *)
Record rx_queues : Type := mkRx { hard : list Z; soft : list Z; dropped : Z; heard : list Z; listening : bool }.

Definition settings_ok (cfg : serial_configure) : bool :=
  match word_len_of (data_bits cfg), stop_bit_of (stop_bits cfg), parity_of (parity cfg) with
  | Some _, Some _, Some _ => true
  | _, _, _ => false
  end.

Definition rx_step (bs : Z) (ind : bool) (o : uart_op) (s : rx_queues) : list answer * rx_queues :=
  match o with
  | Line l =>
      let all := hard s ++ map u8 l in
      ([], mkRx (firstn 16 all) (soft s) (dropped s + (len all - len (firstn 16 all))) (heard s) (listening s))
  | Irq =>
      if listening s && negb (len (hard s) =? 0) then
        let all := soft s ++ hard s in
        let q := keep_last (bs - 1) all in
        ([], mkRx [] q (dropped s + (len all - len q)) (if ind && negb (len q =? 0) then heard s ++ [len q] else heard s) true)
      else ([], s)
  | ReadOp n => ([Bytes (firstn (Z.to_nat n) (soft s))], mkRx (hard s) (skipn (Z.to_nat n) (soft s)) (dropped s) (heard s) (listening s))
  | WriteOp data => ([Written (len data)], s)
  | Reconfigure cfg =>
      if negb (bufsz cfg =? bs) then ([Status RT_EBUSY], s)
      else ([Status RT_EOK],
            if settings_ok cfg then mkRx [] (soft s) (dropped s + len (hard s)) (heard s) false
            else mkRx (hard s) (soft s) (dropped s) (heard s) false)
  end.

Fixpoint rx_run (bs : Z) (ind : bool) (l : list uart_op) (s : rx_queues) : list answer * rx_queues :=
  match l with
  | [] => ([], s)
  | o :: l' => let '(a, s1) := rx_step bs ind o s in let '(b, s2) := rx_run bs ind l' s1 in (a ++ b, s2)
  end.

(** A new configuration the framework passes on names a rate. *)
Definition op_ok (bs : Z) (o : uart_op) : Prop :=
  match o with Reconfigure cfg => bufsz cfg = bs -> baud_rate cfg <> 0 | _ => True end.

Section session.
Context `{UE : UartEnv} {UQ : UartQuiet}.
Implicit Types p : port nu_uart.

Record listens (bs : Z) (ind : bool) p (s : rx_queues) : Prop := {
  li_soft : stands_for bs ind p (mkSpec (soft s) 0 (heard s) (low p));
  li_hard : rxq (low p) = hard s;
  li_len : (length (hard s) <= 16)%nat;
  li_u8 : Forall is_u8 (hard s);
  li_level : field_get (ureg (low p) FIFO) 4 4 = 0;
  li_inten : tst (ureg (low p) INTEN) UART_INTEN_RDAIEN_Msk = listening s;
  li_tx : (length (txq (low p)) <= 16)%nat;
  li_idx : reset_index_ok (low p);
  li_poll : has_flag (s_open_flag p) RT_DEVICE_FLAG_INT_TX = false;
  li_ref : s_ref_count p = 1
}.

Lemma stands_low bs ind p s u :
  stands_for bs ind p s -> stands_for bs ind (set_low u p) (mkSpec (waiting s) (lost s) (told s) u).
Proof. intros (H1 & H2 & H3 & H4 & H5 & H6). by split_and!. Qed.

(** A change of the controller that touches neither FIFO nor what reception depends on. *)
Lemma listens_kept bs ind p s u :
  listens bs ind p s -> kept (low p) u -> rxq u = rxq (low p) -> listens bs ind (set_low u p) s.
Proof.
  intros [S1 S2 S3 S4 S5 S6 S7 S8 S9 S10] (K1 & K2 & K3 & K4) Hr. split; cbn [low set_low s_open_flag s_ref_count]; try done.
  - exact (stands_low _ _ _ _ u S1).
  - congruence.
  - by rewrite K2.
  - by rewrite K1.
  - auto.
  - unfold reset_index_ok. by rewrite K3.
Qed.

Lemma line_step bs ind p s l :
  listens bs ind p s -> listens bs ind (set_low (line_in l (low p)) p) (snd (rx_step bs ind (Line l) s)).
Proof.
  intros [S1 S2 S3 S4 S5 S6 S7 S8 S9 S10]. set (u := line_in l (low p)).
  assert (Hu : rxq u = firstn 16 (hard s ++ map u8 l) /\ ureg u FIFO = ureg (low p) FIFO /\ ureg u INTEN = ureg (low p) INTEN /\
    txq u = txq (low p) /\ rstidx u = rstidx (low p)).
  { unfold u, line_in. rewrite S2. by case_match. }
  destruct Hu as (U1 & U2 & U3 & U4 & U5).
  split; cbn [low set_low snd rx_step hard soft listening heard s_open_flag s_ref_count]; try done.
  - exact (stands_low _ _ _ _ u S1).
  - rewrite length_firstn. lia.
  - apply Forall_take, Forall_app. split; [done|]. apply Forall_fmap, Forall_true. intros x. apply u8_range.
  - by rewrite U2.
  - by rewrite U3.
  - by rewrite U4.
  - unfold reset_index_ok. by rewrite U5.
Qed.

Lemma write_step bs ind p s fuel data :
  line_moves wait_fuel -> listens bs ind p s ->
  exists p', rt_serial_write fuel data p = Ret (len data, p') /\ listens bs ind p' s.
Proof.
  intros Hm HL. pose proof HL as [S1 S2 S3 S4 S5 S6 S7 S8 S9 S10]. rewrite write_polled by done.
  destruct (poll_tx_spec (has_flag (s_open_flag p) RT_DEVICE_FLAG_STREAM) data p Hm S7) as (u & E & _ & _).
  assert (Hl : (length (rxq (low p)) <= 16)%nat) by (by rewrite S2).
  destruct (poll_tx_keeps _ _ _ _ Hl E) as (_ & Hr & Hk). rewrite (bind_Ret _ _ _ _ _ E).
  eexists. split; [reflexivity|]. by apply listens_kept.
Qed.

Lemma read_step bs ind p s n :
  listens bs ind p s -> exists p', rt_serial_read n p = Ret (firstn (Z.to_nat n) (soft s), p') /\
    listens bs ind p' (snd (rx_step bs ind (ReadOp n) s)).
Proof.
  intros [S1 S2 S3 S4 S5 S6 S7 S8 S9 S10].
  destruct (step_spec bs ind 0 (ReadBytes n) p _ S1 _ _ eq_refl) as (p' & E & S1' & _ & Q1 & Q2 & _). cbn [ser_step] in E.
  apply bind_inv in E as (l & p2 & E & [= El <-]). cbn [waiting] in El. subst l. exists p2. split; [done|].
  assert (Hp : low p2 = low p) by (destruct S1' as (_ & _ & _ & Hlow & _); done).
  split; cbn [rx_step snd hard soft heard listening]; rewrite ?Hp, ?Q1, ?Q2; try done.
Qed.
Lemma map_u8 l : Forall is_u8 l -> map u8 l = l.
Proof. induction 1 as [|x l Hx _ IH]; [done|]. cbn. by rewrite IH, u8_small. Qed.

Lemma fifosts_kept v u : rxq (set_reg FIFOSTS v u) = rxq u /\ kept u (set_reg FIFOSTS v u).
Proof. by unfold kept. Qed.

Lemma isr_step bs ind p s fuel :
  (16 < fuel)%nat -> listens bs ind p s -> exists p', nu_uart_isr fuel p = Ret (tt, p') /\ listens bs ind p' (snd (rx_step bs ind Irq s)).
Proof.
  intros Hfuel HL. pose proof HL as [_ S2 S3 _ S5 S6 _ _ _ _].
  destruct (tick_quiet (low p) ltac:(by rewrite S2)) as [R1 K1]. set (u1 := tick (low p)) in *.
  destruct (tick_quiet u1 ltac:(by rewrite R1, S2)) as [R2 K2]. set (u2 := tick u1) in *.
  assert (K : kept (low p) u2) by (by trans u1). pose proof (listens_kept _ _ _ _ u2 HL K ltac:(congruence)) as HL2.
  unfold nu_uart_isr. rewrite (bind_Ret _ _ _ (intsts u1) (set_low u1 p)) by done.
  rewrite (bind_Ret _ _ _ (fifosts u2) (set_low u2 p)) by done.
  change UART_INTSTS_PRLSIF_Msk with (bit 18). change UART_INTSTS_PTOIF_Msk with (bit 20). rewrite !tst_bit, !intsts_bit, intsts_rda by lia.
  assert (trigger_level u1 = 1%nat) as -> by (unfold trigger_level; destruct K1 as (_ & Ef & _); by rewrite Ef, S5).
  assert (tst (ureg u1 INTEN) UART_INTEN_RDAIEN_Msk = listening s) as -> by (destruct K1 as (Ei & _); by rewrite Ei).
  assert (Hend : forall q sq, listens bs ind q sq -> exists q', (on_port (write_INTSTS (intsts u1)) ;; on_port (write_FIFOSTS (fifosts u2))) q = Ret (tt, q') /\
     listens bs ind q' sq).
  { intros q sq Hq. exists (set_low (set_reg FIFOSTS (Z.land (ureg (low q) FIFOSTS) (not32 (fifosts u2))) (low q)) q). split; [reflexivity|].
    apply listens_kept; [done|apply fifosts_kept..]. }
  rewrite R1, S2. cbn [rx_step]. unfold len. destruct (listening s) eqn:El; [|rewrite andb_false_r; autorewrite with monad; by apply Hend].
  destruct (hard s) as [|b q] eqn:Eh; [autorewrite with monad; by apply Hend|].
  pose proof HL2 as [T1 T2 T3 T4 T5 T6 T7 T8 T9 T10]. cbn [low set_low] in T2.
  destruct (drain_quiet fuel u2) as (u3 & E3 & R3 & K3); [rewrite T2; lia|by rewrite T2|by rewrite T2|]. rewrite T2, Eh in E3.
  cbn [Nat.leb length andb]. assert ((Z.of_nat (S (length q)) =? 0) = false) as -> by (apply Z.eqb_neq; lia). cbn [negb andb snd].
  edestruct (step_spec bs ind fuel Interrupt (set_low u2 p)) as (p3 & F3 & T1' & (_ & Q1 & Q2 & _)); [exact T1|cbn [spec_step under low set_low]; rewrite E3; reflexivity|].
  cbn [ser_step] in F3. apply bind_inv in F3 as ([] & p4 & F3 & [= <-]). rewrite (bind_Ret _ _ _ _ _ F3).
  apply Hend. assert (Hp : low p4 = u3) by (destruct T1' as (_ & _ & _ & Hlow & _); done). destruct K3 as (I1 & I2 & I3 & I4).
  cbn [waiting lost told] in T1'. rewrite (map_u8 (b :: q)) in T1' by (by rewrite <-Eh).
  split; cbn [hard soft heard listening]; rewrite ?Hp, ?Q1, ?Q2.
  - exact T1'.
  - exact R3.
  - cbn. lia.
  - constructor.
  - rewrite I2. exact T5.
  - rewrite I1, <-El. exact T6.
  - exact (I4 T7).
  - unfold reset_index_ok. rewrite I3. exact T8.
  - exact T9.
  - exact T10.
Qed.
(** A new configuration resets the controller, interrupts included, and nothing enables them
    again; one the driver refuses disables them.  The framework reports success in both
    cases, and refuses itself what changes the size of the buffer. *)
Lemma control_config bs p s cfg ind :
  listens bs ind p s -> bufsz cfg = bs ->
  rt_serial_control RT_DEVICE_CTRL_CONFIG (Some cfg) 0 p =
    (on_port (ops_configure cfg) ;; ret RT_EOK) (set_s_config cfg p).
Proof.
  intros [(Hbs & _) _ _ _ _ _ _ _ _ Href] Hsz. unfold rt_serial_control. 
  change (RT_DEVICE_CTRL_CONFIG =? RT_DEVICE_CTRL_SUSPEND) with false. change (RT_DEVICE_CTRL_CONFIG =? RT_DEVICE_CTRL_RESUME) with false.
  rewrite Z.eqb_refl. cbv iota.
  rewrite (bind_Ret _ _ _ bs p) by (unfold the_bufsz, gets; by rewrite Hbs). rewrite (bind_Ret _ _ _ 1 p) by (unfold gets; by rewrite Href).
  rewrite Hsz, Z.eqb_refl. cbn [negb Z.eqb andb]. autorewrite with monad. by apply bind_ext.
Qed.

Lemma control_busy bs ind p s cfg :
  listens bs ind p s -> bufsz cfg <> bs -> rt_serial_control RT_DEVICE_CTRL_CONFIG (Some cfg) 0 p = Ret (RT_EBUSY, p).
Proof.
  intros [(Hbs & _) _ _ _ _ _ _ _ _ Href] Hsz. unfold rt_serial_control.
  change (RT_DEVICE_CTRL_CONFIG =? RT_DEVICE_CTRL_SUSPEND) with false. change (RT_DEVICE_CTRL_CONFIG =? RT_DEVICE_CTRL_RESUME) with false.
  rewrite Z.eqb_refl. cbv iota.
  rewrite (bind_Ret _ _ _ bs p) by (unfold the_bufsz, gets; by rewrite Hbs). rewrite (bind_Ret _ _ _ 1 p) by (unfold gets; by rewrite Href).
  by destruct (Z.eqb_spec (bufsz cfg) bs).
Qed.

Lemma config_accepted bs ind p s cfg :
  listens bs ind p s -> bufsz cfg = bs -> baud_rate cfg <> 0 ->
  exists p', rt_serial_control RT_DEVICE_CTRL_CONFIG (Some cfg) 0 p = Ret (RT_EOK, p') /\
    listens bs ind p' (snd (rx_step bs ind (Reconfigure cfg) s)).
Proof.
  intros HL Hsz Hb. rewrite (control_config _ _ _ _ _ HL Hsz). pose proof HL as [S1 S2 S3 S4 S5 S6 S7 S8 S9 S10].
  assert (Hst : forall u, stands_for bs ind (set_low u (set_s_config cfg p)) (mkSpec (soft s) 0 (heard s) u)).
  { intros u. destruct S1 as (_ & H2 & H3 & _ & H5 & H6). by split_and!. }
  assert (Hbad : word_len_of (data_bits cfg) = None \/ stop_bit_of (stop_bits cfg) = None \/ parity_of (parity cfg) = None ->
    exists p', (on_port (ops_configure cfg) ;; ret RT_EOK) (set_s_config cfg p) = Ret (RT_EOK, p') /\
      listens bs ind p' (mkRx (hard s) (soft s) (dropped s) (heard s) false)).
  { intros Hn. pose proof (configure_refused (low p) cfg Hn Hb) as E. exists (set_low (set_reg INTEN 0 (low p)) (set_s_config cfg p)).
    split; [|split; cbn [low set_low hard soft heard listening s_open_flag s_ref_count set_s_config]; try done; apply Hst].
    unfold bind, on_port. cbn [ops_configure nu_uart_ops low set_s_config]. by rewrite E. }
  cbn [rx_step]. rewrite Hsz, Z.eqb_refl. cbn [negb snd]. unfold settings_ok.
  destruct (word_len_of (data_bits cfg)) as [w|] eqn:Ew; [destruct (stop_bit_of (stop_bits cfg)) as [sb|] eqn:Es;
    [destruct (parity_of (parity cfg)) as [pa|] eqn:Ep|]|].
  - destruct (configure_spec (low p) cfg w sb pa Ew Es Ep Hb S8) as (u & E & [[P1 P2 P3 P4] C2 C3 C4 C5 C6 C7 C8 C9]).
    unfold bind at 1, on_port. cbn [ops_configure nu_uart_ops low set_s_config]. rewrite E. eexists. split; [reflexivity|].
    split; cbn [low set_low hard soft heard listening s_open_flag s_ref_count set_s_config].
    + exact (Hst u).
    + exact C3.
    + cbn. lia.
    + constructor.
    + exact C7.
    + rewrite C9. apply quiet_reset.
    + rewrite C4. cbn. lia.
    + unfold reset_index_ok. rewrite P2. exact S8.
    + exact S9.
    + exact S10.
  - apply Hbad. by right; right.
  - apply Hbad. by right; left.
  - apply Hbad. by left.
Qed.
Lemma config_step bs ind p s cfg :
  listens bs ind p s -> op_ok bs (Reconfigure cfg) ->
  exists p' r, rt_serial_control RT_DEVICE_CTRL_CONFIG (Some cfg) 0 p = Ret (r, p') /\
    [Status r] = fst (rx_step bs ind (Reconfigure cfg) s) /\ listens bs ind p' (snd (rx_step bs ind (Reconfigure cfg) s)).
Proof.
  intros HL Hb. destruct (decide (bufsz cfg = bs)) as [Hsz|Hsz].
  - destruct (config_accepted bs ind p s cfg HL Hsz (Hb Hsz)) as (p' & E & HL'). exists p', RT_EOK. split_and!; [done| |done].
    cbn [rx_step]. by rewrite Hsz, Z.eqb_refl.
  - exists p, RT_EBUSY. rewrite (control_busy _ _ _ _ _ HL Hsz). cbn [rx_step]. by destruct (Z.eqb_spec (bufsz cfg) bs).
Qed.

Lemma uart_step_spec bs ind fuel o p s :
  (16 < fuel)%nat -> line_moves wait_fuel -> op_ok bs o -> listens bs ind p s ->
  exists p', uart_step fuel o p = Ret (fst (rx_step bs ind o s), p') /\ listens bs ind p' (snd (rx_step bs ind o s)).
Proof.
  intros Hfuel Hm Ho HL. destruct o as [l| |n|data|cfg]; cbn [uart_step].
  - eexists. split; [reflexivity|]. by apply line_step.
  - destruct (isr_step bs ind p s fuel Hfuel HL) as (p' & E & HL'). exists p'. rewrite (bind_Ret _ _ _ _ _ E). split; [|done].
    cbn [rx_step]. by case_match.
  - destruct (read_step bs ind p s n HL) as (p' & E & HL'). exists p'. by rewrite (bind_Ret _ _ _ _ _ E).
  - destruct (write_step bs ind p s fuel data Hm HL) as (p' & E & HL'). exists p'. by rewrite (bind_Ret _ _ _ _ _ E).
  - destruct (config_step bs ind p s cfg HL Ho) as (p' & r & E & Er & HL'). exists p'. by rewrite (bind_Ret _ _ _ _ _ E), <-Er.
Qed.

Lemma uart_run_spec bs ind fuel l p s :
  (16 < fuel)%nat -> line_moves wait_fuel -> Forall (op_ok bs) l -> listens bs ind p s ->
  exists p', uart_run fuel l p = Ret (fst (rx_run bs ind l s), p') /\ listens bs ind p' (snd (rx_run bs ind l s)).
Proof.
  intros Hfuel Hm Hl. revert p s. induction Hl as [|o l Ho _ IH]; intros p s HL; [by exists p|]. cbn [uart_run rx_run].
  destruct (uart_step_spec bs ind fuel o p s Hfuel Hm Ho HL) as (p1 & E1 & HL1). destruct (rx_step bs ind o s) as [a s1].
  destruct (IH p1 s1 HL1) as (p2 & E2 & HL2). destruct (rx_run bs ind l s1) as [b s2]. exists p2. split; [|done].
  by rewrite (bind_Ret _ _ _ _ _ E1), (bind_Ret _ _ _ _ _ E2).
Qed.

(** ** Opening *)

Definition uart_open_flags_ok (oflag : Z) : Prop :=
  has_flag oflag RT_DEVICE_FLAG_INT_RX = true /\ has_flag oflag RT_DEVICE_FLAG_DMA_RX = false /\
  has_flag oflag RT_DEVICE_FLAG_DMA_TX = false /\ has_flag oflag RT_DEVICE_FLAG_INT_TX = false.

(** [rt_device_open] on a registered port: initialisation, opening, the count of its users. *)
Definition open_uart (oflag : Z) : M (port nu_uart) Z :=
  rt_serial_init ;; let! r := rt_serial_open true oflag in modify (set_s_ref_count 1) ;; ret r.

Lemma has_low_byte v m : Z.land v 0xff = v -> has_flag v (Z.shiftl m 8) = false.
Proof.
  intros Hv. unfold has_flag. apply negb_false_iff, Z.eqb_eq. apply Z.bits_inj'. intros i Hi. rewrite Z.land_spec, Z.bits_0.
  destruct (Z.lt_ge_cases i 8).
  - rewrite (Z.shiftl_spec_low m 8 i) by done. apply andb_false_r.
  - rewrite <-Hv, Z.land_spec. change 0xff with (Z.ones 8). rewrite Z.ones_spec_high by lia. by rewrite andb_false_r.
Qed.

Lemma serial_init_spec ind u u' :
  nu_uart_configure nu_uart_default_config u = Ret (RT_EOK, u') -> rt_serial_init (registered ind u) = Ret (RT_EOK, set_low u' (registered ind u)).
Proof. intros E. unfold rt_serial_init. autorewrite with monad. unfold on_port. cbn -[nu_uart_configure]. by rewrite E. Qed.

Definition opened (oflag : Z) p : port nu_uart :=
  set_low (set_reg INTEN (Z.lor (ureg (low p) INTEN) (Z.lor UART_INTEN_RDAIEN_Msk UART_INTEN_RXTOIEN_Msk)) (low p))
    (set_s_rx (Some (mkRxFifo (replicate (Z.to_nat (bufsz (s_config p))) 0) 0 0 false))
      (set_s_open_flag (Z.lor (Z.lor (Z.land oflag 0xff) RT_DEVICE_FLAG_INT_RX)
        (if has_flag oflag RT_DEVICE_FLAG_STREAM || has_flag (s_open_flag p) RT_DEVICE_FLAG_STREAM then RT_DEVICE_FLAG_STREAM else 0)) p)).

Lemma serial_open_spec oflag p :
  uart_open_flags_ok oflag -> has_flag (s_flag p) RT_DEVICE_FLAG_INT_RX = true -> s_rx p = None ->
  rt_serial_open true oflag p = Ret (RT_EOK, opened oflag p).
Proof.
  intros (F1 & F2 & F3 & F4) Hf Hr. unfold rt_serial_open, lacks. autorewrite with monad. rewrite F1, F2, F3, F4, Hf. cbn [andb negb].
  autorewrite with monad. unfold open_rx. autorewrite with monad. cbn [s_rx set_s_open_flag]. rewrite Hr, F1. cbn -[Z.lor Z.land].
  unfold open_tx. autorewrite with monad. by rewrite F4.
Qed.

Lemma open_uart_spec ind oflag u :
  reset_index_ok u -> uart_open_flags_ok oflag ->
  exists p, open_uart oflag (registered ind u) = Ret (RT_EOK, p) /\ listens 256 ind p (mkRx [] [] 0 [] true).
Proof.
  intros Hi Hfl. unfold open_uart.
  destruct (configure_spec u nu_uart_default_config 3 0 0 eq_refl eq_refl eq_refl ltac:(done) Hi)
    as (u1 & E & [[P1 P2 P3 P4] C2 C3 C4 C5 C6 C7 C8 C9]).
  set (p1 := set_low u1 (registered ind u)). rewrite (bind_Ret _ _ _ RT_EOK p1) by by apply serial_init_spec.
  pose proof (serial_open_spec oflag p1 Hfl eq_refl eq_refl) as Eo. rewrite (bind_Ret _ _ _ _ _ Eo).
  eexists. split; [reflexivity|].
  pose proof (opened_stands_for p1 oflag _ 256 eq_refl ltac:(lia) eq_refl (proj1 Hfl) Eo) as (H1 & H2 & H3 & H4 & H5 & H6).
  split; cbn [hard soft heard listening].
  - by split_and!.
  - exact C3.
  - cbn. lia.
  - constructor.
  - exact C7.
  - change UART_INTEN_RDAIEN_Msk with (bit 0). rewrite tst_bit by lia.
    trans (Z.testbit (Z.lor (ureg u1 INTEN) (Z.lor UART_INTEN_RDAIEN_Msk UART_INTEN_RXTOIEN_Msk)) 0); [done|].
    rewrite Z.lor_spec. apply orb_true_r.
  - cbn. rewrite C4. cbn. lia.
  - unfold reset_index_ok. cbn. rewrite P2. exact Hi.
  - cbn. change RT_DEVICE_FLAG_INT_TX with (Z.shiftl 4 8). rewrite !has_flag_lor, (has_low_byte (Z.land oflag 0xff) 4) by (by rewrite <-Z.land_assoc). by case_match.
  - reflexivity.
Qed.
End session.

(** ** Where the bytes go *)

Definition step_bytes (o : uart_op) : list Z := match o with Line l => map u8 l | _ => [] end.
Definition line_bytes (l : list uart_op) : list Z := l ≫= step_bytes.

Definition answer_bytes (a : answer) : list Z := match a with Bytes l => l | _ => [] end.
Definition bytes_read (l : list answer) : list Z := l ≫= answer_bytes.

Lemma bytes_read_app l l' : bytes_read (l ++ l') = bytes_read l ++ bytes_read l'.
Proof. apply bind_app. Qed.

Lemma rx_step_accounts bs ind o s :
  0 < bs -> sublist (bytes_read (fst (rx_step bs ind o s)) ++ soft (snd (rx_step bs ind o s)) ++ hard (snd (rx_step bs ind o s)))
    (soft s ++ hard s ++ step_bytes o) /\
  len (bytes_read (fst (rx_step bs ind o s))) + len (soft (snd (rx_step bs ind o s))) + len (hard (snd (rx_step bs ind o s)))
    + (dropped (snd (rx_step bs ind o s)) - dropped s) = len (soft s) + len (hard s) + len (step_bytes o).
Proof.
  intros Hbs. destruct o as [l| |n|data|cfg]; cbn [rx_step step_bytes].
  - cbn [fst snd bytes_read mbind list_bind answer_bytes soft hard dropped]. rewrite app_nil_l. split; [by apply sublist_app, sublist_take|].
    rewrite len_app. unfold len. cbn [length]. lia.
  - rewrite app_nil_r. case_match; [|cbn; unfold len; cbn; split; [done|lia]]. cbn [fst snd bytes_read mbind list_bind answer_bytes soft hard dropped].
    rewrite app_nil_l, app_nil_r. split; [apply sublist_drop_app; exact []|]. rewrite len_app. unfold len. cbn [length]. lia.
  - cbn [fst snd bytes_read mbind list_bind answer_bytes soft hard dropped]. rewrite !app_nil_r, app_assoc, take_drop. split; [done|].
    rewrite <-(take_drop (Z.to_nat n) (soft s)) at 3. rewrite len_app. unfold len. cbn [length]. lia.
  - cbn. rewrite app_nil_r. split; [done|]. unfold len. cbn. lia.
  - rewrite app_nil_r. destruct (negb _); [cbn; split; [done|unfold len; cbn; lia]|].
    case_match; cbn; (split; [|unfold len; cbn; lia]); [apply sublist_app; [done|apply sublist_nil_l]|done].
Qed.

Lemma rx_accounts bs ind l s a s' :
  0 < bs -> rx_run bs ind l s = (a, s') ->
  sublist (bytes_read a ++ soft s' ++ hard s') (soft s ++ hard s ++ line_bytes l) /\
  len (bytes_read a) + len (soft s') + len (hard s') + (dropped s' - dropped s) = len (soft s) + len (hard s) + len (line_bytes l).
Proof.
  intros Hbs. revert s a. induction l as [|o l IH]; intros s a; cbn [rx_run].
  - intros [= <- <-]. cbn. rewrite app_nil_r. split; [done|]. unfold len. cbn. lia.
  - destruct (rx_step_accounts bs ind o s Hbs) as [Hs Hl]. destruct (rx_step bs ind o s) as [a1 s1]. cbn [fst snd] in *.
    destruct (rx_run bs ind l s1) as [b s2] eqn:Er. intros [= <- <-]. destruct (IH _ _ Er) as [Hs2 Hl2].
    change (line_bytes (o :: l)) with (step_bytes o ++ line_bytes l). rewrite bytes_read_app, <-app_assoc. split; [|rewrite !len_app in *; lia].
    etrans; [by apply sublist_app; [|exact Hs2]|]. rewrite !app_assoc in *. by apply sublist_app.
Qed.

(** C9: a session with a UART.  On a registered port, [rt_serial_init] and [rt_serial_open]
    for reception by interrupts succeed, and whatever bytes then come in, handlers run,
    reads, writes and new configurations follow each other, framework, driver and
    controller together are two queues: 16 bytes in the controller, what comes on top being
    lost; 255 in the framework, filled by the handler, the oldest giving way; reads return
    the oldest bytes there, writes the number of their bytes, and the client is told the
    length of the queue after each handler that moved some.  Bytes read and bytes waiting
    are bytes that came in, in order, all of them when none was dropped.  A new
    configuration with another buffer size is refused with RT_EBUSY and changes nothing.
    But any other is answered with RT_EOK, whether the driver accepted it or not, and
    leaves the interrupts of received data disabled: from then on nothing reaches the
    framework. *)
Theorem uart_session `{UE : UartEnv} `{UQ : !UartQuiet} (u : nu_uart) ind oflag fuel ops :
  reset_index_ok u -> uart_open_flags_ok oflag -> (16 < fuel)%nat -> line_moves wait_fuel -> Forall (op_ok 256) ops ->
  exists p, open_uart oflag (registered ind u) = Ret (RT_EOK, p) /\
    let '(answers, s) := rx_run 256 ind ops (mkRx [] [] 0 [] true) in
    (exists p' f, uart_run fuel ops p = Ret (answers, p') /\ rxq (low p') = hard s /\ s_rx p' = Some f /\ contents 256 f = soft s /\
      indicated p' = heard s) /\
    sublist (bytes_read answers ++ soft s ++ hard s) (line_bytes ops) /\
    (dropped s = 0 -> bytes_read answers ++ soft s ++ hard s = line_bytes ops).
Proof.
  intros Hi Hfl Hfuel Hm Hops. destruct (open_uart_spec ind oflag u Hi Hfl) as (p & E & HL). exists p. split; [done|].
  destruct (uart_run_spec 256 ind fuel ops p _ Hfuel Hm Hops HL) as (p' & Er & HL').
  destruct (rx_run 256 ind ops _) as [a s] eqn:Ea. cbn [fst snd] in *. split.
  - destruct (li_soft _ _ _ _ HL') as (_ & _ & _ & _ & Ht & f & Hf & _ & Hc & _). exists p', f.
    split_and!; [done|apply HL'|done|done|done].
  - assert (Hpos : 0 < 256) by lia. destruct (rx_accounts _ _ _ _ _ _ Hpos Ea) as [Hs Hl]. cbn [soft hard dropped app] in Hs, Hl.
    split; [done|]. intros Hd. apply sublist_same_length; [done|]. rewrite !length_app. unfold len in Hl. cbn [length] in Hl. lia.
Qed.

#[export] Instance quiet_env_quiet : UartQuiet (UE := quiet_env).
Proof. by split. Qed.

(** A size refused, a configuration accepted, one the driver refuses: the last byte stays in
    the controller. *)
Lemma uart_session_witness :
  let E := quiet_env in
  let ops := [Line [79; 75]; Irq; ReadOp 1; WriteOp [65]; Reconfigure (mkCfg 9600 8 0 0 0 0 64 0);
    Reconfigure (mkCfg 9600 8 0 0 0 0 256 0); Reconfigure (mkCfg 9600 4 0 0 0 0 256 0); Line [33]; Irq; ReadOp 9] in
  exists p, open_uart 0x103 (registered true uart0) = Ret (RT_EOK, p) /\
    exists p' f, uart_run 17 ops p =
      Ret ([Bytes [79]; Written 1; Status RT_EBUSY; Status RT_EOK; Status RT_EOK; Bytes [75]], p') /\
      rxq (low p') = [33] /\ s_rx p' = Some f /\ contents 256 f = [] /\ indicated p' = [2].
Proof.
  intros E ops.
  assert (Hops : Forall (op_ok 256) ops) by (repeat constructor; cbn; lia).
  assert (Hfl : uart_open_flags_ok 0x103) by (split_and!; reflexivity).
  assert (Hfuel : (16 < 17)%nat) by lia.
  assert (Er : rx_run 256 true ops (mkRx [] [] 0 [] true) =
    ([Bytes [79]; Written 1; Status RT_EBUSY; Status RT_EOK; Status RT_EOK; Bytes [75]], mkRx [33] [] 0 [2] false)) by (vm_compute; reflexivity).
  destruct (uart_session uart0 true 0x103 17 ops uart0_index Hfl Hfuel quiet_env_moves Hops) as (p & H1 & H2).
  rewrite Er in H2. destruct H2 as [H2 _]. exists p. split; [exact H1|exact H2].
Defined.
