(* ===== verification/Gpio.v ===== *)
(** * General-purpose pins

    Models [libraries/ma35/StdDriver/src/nu_gpio.c] with the macros of [inc/nu_gpio.h],
    [libraries/ma35/rtt_port/drv_gpio.c], and the pin device of the kernel
    ([rt-thread/components/drivers/misc/pin.c] without its shell commands).

    There are 14 ports of 16 pins.  What comes from outside is arbitrary: the level on a pin,
    how a pin reads, the interrupt flags that rise, and what the handlers of clients do
    ([GpioEnv]). *)

From Stdlib Require Import ZArith Lia Bool.
From stdpp Require Import base tactics numbers list option.
From S2P Require Import Prelude BitUtil RingBuf.

Open Scope Z_scope.

(** ** Registers and state *)

Inductive GPIO_T : Type :=
| MODE | DINOFF | DOUT | DATMSK | PIN | DBEN | INTTYPE | INTEN | INTSRC | SMTEN | SLEWCTL | SPW
| PUSEL | DBCTL | DSL | DSH.

#[export] Instance GPIO_T_eq_dec : EqDecision GPIO_T.
Proof. solve_decision. Defined.

Definition GPIO_PIN_MAX : Z := 16.
Definition GPIO_MODE_INPUT : Z := 0x0.
Definition GPIO_MODE_OUTPUT : Z := 0x1.
Definition GPIO_MODE_OPEN_DRAIN : Z := 0x2.
Definition GPIO_INT_RISING : Z := 0x00010000.
Definition GPIO_INT_FALLING : Z := 0x00000001.
Definition GPIO_INT_BOTH_EDGE : Z := 0x00010001.
Definition GPIO_INT_HIGH : Z := 0x01010000.
Definition GPIO_INT_LOW : Z := 0x01000001.
Definition GPIO_PUSEL_DISABLE : Z := 0x0.
Definition GPIO_PUSEL_PULL_UP : Z := 0x1.
Definition GPIO_PUSEL_PULL_DOWN : Z := 0x2.
Definition GPIO_DBCTL_ICLKON_Msk : Z := shl32 0x1 5.

Definition PIN_LOW : Z := 0x00.
Definition PIN_HIGH : Z := 0x01.
Definition PIN_MODE_OUTPUT : Z := 0x00.
Definition PIN_MODE_INPUT : Z := 0x01.
Definition PIN_MODE_INPUT_PULLUP : Z := 0x02.
Definition PIN_MODE_INPUT_PULLDOWN : Z := 0x03.
Definition PIN_MODE_OUTPUT_OD : Z := 0x04.
Definition PIN_IRQ_MODE_RISING : Z := 0x00.
Definition PIN_IRQ_MODE_FALLING : Z := 0x01.
Definition PIN_IRQ_MODE_RISING_FALLING : Z := 0x02.
Definition PIN_IRQ_MODE_HIGH_LEVEL : Z := 0x03.
Definition PIN_IRQ_MODE_LOW_LEVEL : Z := 0x04.
Definition PIN_IRQ_DISABLE : Z := 0x00.
Definition PIN_IRQ_ENABLE : Z := 0x01.
Definition PIN_IRQ_PIN_NONE : Z := -1.

Definition GPIOA_BASE : Z := 0x40040000.
Definition PORT_OFFSET : Z := 0x40.
Definition IRQ_MAX_NUM : Z := 16.
Definition NU_PORT_CNT : Z := 14.
Definition MAX_HANDLERS : Z := 256.

Definition NU_GET_PININDEX (port pin : Z) : Z := Z.shiftl port 4 + pin.
Definition NU_GET_PINS (rt_pin_index : Z) : Z := Z.land rt_pin_index 0x0000000F.
Definition NU_GET_PORT (rt_pin_index : Z) : Z := Z.land (Z.shiftr rt_pin_index 4) 0x0000000F.
Definition NU_GET_PIN_MASK (nu_gpio_pin : Z) : Z := bit nu_gpio_pin.
Definition NU_PIN_UNUSED : Z := NU_GET_PININDEX NU_PORT_CNT 15.

Definition au32GPIRQ : list Z := [46; 47; 48; 49; 105; 106; 107; 108; 109; 110; 134; 135; 136; 137].

(** A handler is a function address and its argument; the address 0 is [RT_NULL]. *)
Record rt_pin_irq_hdr : Type := mkHdr {
  hdr_pin : Z;
  hdr_mode : Z;
  hdr : Z;
  hdr_args : Z
}.

(** The registers by port address; the level outside each pin (16 per port); the table of
    handlers and the mask of its used entries; by interrupt number, whether the interrupt
    controller lets it through and the argument [nu_gpio_isr] is installed with; whether the
    pin device is registered; and the calls of handlers so far. *)
Record gpio : Type := mkGpio {
  greg : Z -> GPIO_T -> Z;
  outside : Z -> bool;
  pin_irq_hdr_tab : list rt_pin_irq_hdr;
  g_u32PinIrqMask : Z;
  irq_open : Z -> bool;
  isr_param : Z -> option Z;
  _hw_pin : bool;
  called : list (Z * Z)
}.

Definition set_greg (f : Z -> GPIO_T -> Z) (s : gpio) : gpio :=
  mkGpio f (outside s) (pin_irq_hdr_tab s) (g_u32PinIrqMask s) (irq_open s) (isr_param s) (_hw_pin s) (called s).
Definition set_outside (f : Z -> bool) (s : gpio) : gpio :=
  mkGpio (greg s) f (pin_irq_hdr_tab s) (g_u32PinIrqMask s) (irq_open s) (isr_param s) (_hw_pin s) (called s).
Definition set_tab (l : list rt_pin_irq_hdr) (s : gpio) : gpio :=
  mkGpio (greg s) (outside s) l (g_u32PinIrqMask s) (irq_open s) (isr_param s) (_hw_pin s) (called s).
Definition set_mask (m : Z) (s : gpio) : gpio :=
  mkGpio (greg s) (outside s) (pin_irq_hdr_tab s) m (irq_open s) (isr_param s) (_hw_pin s) (called s).
Definition set_irq_open (f : Z -> bool) (s : gpio) : gpio :=
  mkGpio (greg s) (outside s) (pin_irq_hdr_tab s) (g_u32PinIrqMask s) f (isr_param s) (_hw_pin s) (called s).
Definition set_isr_param (f : Z -> option Z) (s : gpio) : gpio :=
  mkGpio (greg s) (outside s) (pin_irq_hdr_tab s) (g_u32PinIrqMask s) (irq_open s) f (_hw_pin s) (called s).
Definition set_hw_pin (b : bool) (s : gpio) : gpio :=
  mkGpio (greg s) (outside s) (pin_irq_hdr_tab s) (g_u32PinIrqMask s) (irq_open s) (isr_param s) b (called s).
Definition set_called (l : list (Z * Z)) (s : gpio) : gpio :=
  mkGpio (greg s) (outside s) (pin_irq_hdr_tab s) (g_u32PinIrqMask s) (irq_open s) (isr_param s) (_hw_pin s) l.

(** A function updated at one argument. *)
Definition fset {A B} `{EqDecision A} (a : A) (b : B) (f : A -> B) : A -> B :=
  fun a' => if decide (a' = a) then b else f a'.

Definition set_port_reg (port : Z) (r : GPIO_T) (v : Z) (s : gpio) : gpio :=
  set_greg (fset port (fset r v (greg s port)) (greg s)) s.

(** [sense mode out level]: how a pin reads in a mode, by its output bit and the level
    outside.  [run_hdr]: what a client's handler does with the pins. *)
Class GpioEnv : Type := {
  sense : Z -> bool -> bool -> bool;
  run_hdr : Z -> Z -> M gpio unit
}.

Definition GM (A : Type) : Type := M gpio A.

Definition rdp (port : Z) (r : GPIO_T) : GM Z := gets (fun s => greg s port r).
Definition wrp (port : Z) (r : GPIO_T) (v : Z) : GM unit := modify (set_port_reg port r v).
Definition upd (port : Z) (r : GPIO_T) (f : Z -> Z) : GM unit := let! v := rdp port r in wrp port r (f v).

(** Ones written to INTSRC clear it. *)
Definition write_INTSRC (port v : Z) : GM unit := upd port INTSRC (fun x => Z.land x (not32 v)).

(** ** nu_gpio.c *)

Definition pins_of_port : list Z := seqZ 0 GPIO_PIN_MAX.

(** [for (i = 0; i < GPIO_PIN_MAX; i++) if (u32PinMask & (1 << i)) body] *)
Definition for_pins (u32PinMask : Z) (body : Z -> GM unit) : GM unit :=
  for_each pins_of_port (fun i => if tst u32PinMask (bit i) then body i else ret tt).

Definition set_2bits (i v x : Z) : Z :=
  Z.lor (Z.land x (not32 (shl32 0x3 (2 * i)))) (shl32 v (2 * i)).

Definition GPIO_SetMode (port u32PinMask u32Mode : Z) : GM unit :=
  for_pins u32PinMask (fun i => upd port MODE (set_2bits i u32Mode)).

Definition GPIO_EnableInt (port u32Pin u32IntAttribs : Z) : GM unit :=
  upd port INTTYPE (fun x => Z.lor (Z.land x (not32 (bit u32Pin)))
                               (shl32 (Z.land (Z.shiftr u32IntAttribs 24) 0xFF) u32Pin)) ;;
  upd port INTEN (fun x => Z.lor (Z.land x (not32 (shl32 0x00010001 u32Pin)))
                             (shl32 (Z.land u32IntAttribs 0xFFFFFF) u32Pin)).

Definition GPIO_DisableInt (port u32Pin : Z) : GM unit :=
  upd port INTTYPE (fun x => Z.land x (not32 (bit u32Pin))) ;;
  upd port INTEN (fun x => Z.land x (not32 (shl32 0x00010001 u32Pin))).

Definition GPIO_SetSlewCtl (port u32PinMask u32Mode : Z) : GM unit :=
  for_pins u32PinMask (fun i => upd port SLEWCTL (set_2bits i u32Mode)).

Definition GPIO_SetPullCtl (port u32PinMask u32Mode : Z) : GM unit :=
  for_pins u32PinMask (fun i => upd port PUSEL (set_2bits i u32Mode)).

(** [*(&port->DSL + n)] *)
Definition DS (n : Z) : GPIO_T := if n =? 0 then DSL else DSH.

Definition GPIO_SetDrivingCtl (port u32PinMask u32Driving : Z) : GM unit :=
  for_pins u32PinMask (fun i =>
    let u32Offset := 4 * (i mod 8) in
    upd port (DS (i / 8)) (fun x =>
      Z.lor (Z.land x (not32 (shl32 0x7 u32Offset))) (shl32 (Z.land u32Driving 0x7) u32Offset))).

Definition GPIO_GetDrivingCtl (port u32PinNo : Z) : GM Z :=
  let u32Offset := 4 * (u32PinNo mod 8) in
  let! v := rdp port (DS (u32PinNo / 8)) in ret (Z.land (Z.shiftr v u32Offset) 0x7).

Definition set_1bit (i v x : Z) : Z :=
  Z.lor (Z.land x (not32 (bit i))) (Z.shiftl (if v =? 0 then 0 else 1) i).

Definition GPIO_SetPowerMode (port u32PinMask u32PowerMode : Z) : GM unit :=
  for_pins u32PinMask (fun i => upd port SPW (set_1bit i u32PowerMode)).

Definition GPIO_GetPowerMode (port u32PinNo : Z) : GM Z :=
  let! v := rdp port SPW in ret (Z.shiftr (Z.land v (bit u32PinNo)) u32PinNo).

Definition GPIO_SetSchmittTriggere (port u32PinMask u32SchmittTrigger : Z) : GM unit :=
  for_pins u32PinMask (fun i => upd port SMTEN (set_1bit i u32SchmittTrigger)).

Definition GPIO_GetSchmittTriggere (port u32PinNo : Z) : GM Z :=
  let! v := rdp port SMTEN in ret (Z.shiftr (Z.land v (bit u32PinNo)) u32PinNo).

(** ** drv_gpio.c *)

Definition nu_port_check (pin : Z) : Z :=
  if NU_PORT_CNT <=? NU_GET_PORT pin then - RT_ERROR else RT_EOK.

Definition port_of (pin : Z) : Z := GPIOA_BASE + NU_GET_PORT pin * PORT_OFFSET.

(** The loop of [nu_find_irqindex]; 17 turns are enough ([GpioTable]). *)
Fixpoint find_loop (fuel : nat) (u32PinIrqStatus pin_index : Z) : GM Z :=
  match fuel with
  | O => out_of_fuel
  | S fuel' =>
      let irqindex := nu_ctz u32PinIrqStatus in
      if irqindex <? IRQ_MAX_NUM then
        let! tab := gets pin_irq_hdr_tab in
        let! e := deref (znth tab irqindex) in
        if u32 (hdr_pin e) =? pin_index then ret irqindex
        else find_loop fuel' (Z.land u32PinIrqStatus (not32 (bit irqindex))) pin_index
      else ret (- RT_ERROR)
  end.

Definition nu_find_irqindex (pin_index : Z) : GM Z :=
  let! m := gets g_u32PinIrqMask in find_loop 17 m pin_index.

Section driver.
Context `{GE : GpioEnv}.

Definition call_hdr (h a : Z) : GM unit := modify (fun s => set_called (called s ++ [(h, a)]) s) ;; run_hdr h a.

(** The loop of [pin_irq_hdr], a turn per flag and one to leave. *)
Fixpoint pin_irq_loop (fuel : nat) (irq_status pinindex : Z) : GM unit :=
  match fuel with
  | O => out_of_fuel
  | S fuel' =>
      let i := nu_ctz irq_status in
      if i <? GPIO_PIN_MAX then
        let pin_mask := bit i in
        let! irqindex := nu_find_irqindex (u32 (pinindex + i)) in
        (if negb (irqindex =? - RT_ERROR) then
           let! tab := gets pin_irq_hdr_tab in
           let! e := deref (znth tab irqindex) in
           if negb (hdr e =? 0) then call_hdr (hdr e) (hdr_args e) else ret tt
         else ret tt) ;;
        pin_irq_loop fuel' (Z.land irq_status (not32 pin_mask)) pinindex
      else ret tt
  end.

Definition pin_irq_hdr (irq_status port_index : Z) : GM unit :=
  pin_irq_loop 17 irq_status (port_index * GPIO_PIN_MAX).

Definition nu_gpio_mode (pin mode : Z) : GM unit :=
  if negb (nu_port_check pin =? 0) then ret tt else
  let PORT := port_of pin in
  let mask := NU_GET_PIN_MASK (NU_GET_PINS pin) in
  if mode =? PIN_MODE_INPUT_PULLUP then
    GPIO_SetMode PORT mask GPIO_MODE_INPUT ;; GPIO_SetPullCtl PORT mask GPIO_PUSEL_PULL_UP
  else if mode =? PIN_MODE_INPUT_PULLDOWN then
    GPIO_SetMode PORT mask GPIO_MODE_INPUT ;; GPIO_SetPullCtl PORT mask GPIO_PUSEL_PULL_DOWN
  else if mode =? PIN_MODE_OUTPUT then
    GPIO_SetMode PORT mask GPIO_MODE_OUTPUT
  else if mode =? PIN_MODE_INPUT then
    GPIO_SetMode PORT mask GPIO_MODE_INPUT ;; GPIO_SetPullCtl PORT mask GPIO_PUSEL_DISABLE
  else if mode =? PIN_MODE_OUTPUT_OD then
    GPIO_SetMode PORT mask GPIO_MODE_OPEN_DRAIN ;; GPIO_SetPullCtl PORT mask GPIO_PUSEL_DISABLE
  else ret tt.

(** [GPIO_PIN_DATA(port, pin)]: the lowest bit of a word written is the pin's bit of DOUT,
    which DATMSK does not protect here; a word read is the pin's level. *)
Definition write_PIN_DATA (port pin v : Z) : GM unit :=
  upd (GPIOA_BASE + port * PORT_OFFSET) DOUT (set_1bit pin (Z.land v 1)).

Definition read_PIN_DATA (port pin : Z) : GM Z := gets (fun s =>
  let regs := greg s (GPIOA_BASE + port * PORT_OFFSET) in
  Z.b2z (sense (field_get (regs MODE) 2 (2 * pin)) (Z.testbit (regs DOUT) pin) (outside s (port * GPIO_PIN_MAX + pin)))).

Definition nu_gpio_write (pin value : Z) : GM unit :=
  if negb (nu_port_check pin =? 0) then ret tt else
  write_PIN_DATA (NU_GET_PORT pin) (NU_GET_PINS pin) value.

Definition nu_gpio_read (pin : Z) : GM Z :=
  if negb (nu_port_check pin =? 0) then ret PIN_LOW else
  read_PIN_DATA (NU_GET_PORT pin) (NU_GET_PINS pin).

Definition nu_gpio_attach_irq (pin mode h args : Z) : GM Z :=
  if negb (nu_port_check pin =? 0) then ret (- RT_ERROR) else
  let! found := nu_find_irqindex (u32 pin) in
  let! m := gets g_u32PinIrqMask in
  let irqindex := if 0 <=? found then found else nu_cto m in
  if (0 <=? found) || (irqindex <? IRQ_MAX_NUM) then
    let! tab := gets pin_irq_hdr_tab in
    let! _ := deref (znth tab irqindex) in
    modify (set_tab (zupd tab irqindex (mkHdr (i16 pin) (u16 mode) h args))) ;;
    modify (fun s => set_mask (Z.lor (g_u32PinIrqMask s) (bit irqindex)) s) ;;
    ret RT_EOK
  else ret (- RT_EBUSY).

Definition no_hdr : rt_pin_irq_hdr := mkHdr PIN_IRQ_PIN_NONE PIN_IRQ_MODE_RISING 0 0.

(** The loop of [nu_gpio_detach_irq], which compares signed numbers. *)
Fixpoint detach_loop (fuel : nat) (u32PinIrqStatus pin : Z) : GM unit :=
  match fuel with
  | O => out_of_fuel
  | S fuel' =>
      let irqindex := nu_ctz u32PinIrqStatus in
      if irqindex <? IRQ_MAX_NUM then
        let! tab := gets pin_irq_hdr_tab in
        let! e := deref (znth tab irqindex) in
        if hdr_pin e =? pin then
          modify (set_tab (zupd tab irqindex no_hdr)) ;;
          modify (fun s => set_mask (Z.land (g_u32PinIrqMask s) (not32 (bit irqindex))) s)
        else detach_loop fuel' (Z.land u32PinIrqStatus (not32 (bit irqindex))) pin
      else ret tt
  end.

Definition nu_gpio_detach_irq (pin : Z) : GM Z :=
  if negb (nu_port_check pin =? 0) then ret (- RT_ERROR) else
  let! m := gets g_u32PinIrqMask in
  detach_loop 17 m pin ;;
  ret RT_EOK.

Definition nu_gpio_isr (PORT : Z) : GM unit :=
  let port_idx := u32 (PORT - GPIOA_BASE) / PORT_OFFSET in
  let! int_status := rdp PORT INTSRC in
  pin_irq_hdr int_status port_idx ;;
  write_INTSRC PORT int_status.

Definition rt_hw_interrupt_umask (vector : Z) : GM unit := modify (fun s => set_irq_open (fset vector true (irq_open s)) s).
Definition rt_hw_interrupt_mask (vector : Z) : GM unit := modify (fun s => set_irq_open (fset vector false (irq_open s)) s).

(** The attribute word of an interrupt mode. *)
Definition int_attribs (mode : Z) : option Z :=
  if mode =? PIN_IRQ_MODE_RISING then Some GPIO_INT_RISING
  else if mode =? PIN_IRQ_MODE_FALLING then Some GPIO_INT_FALLING
  else if mode =? PIN_IRQ_MODE_RISING_FALLING then Some GPIO_INT_BOTH_EDGE
  else if mode =? PIN_IRQ_MODE_HIGH_LEVEL then Some GPIO_INT_HIGH
  else if mode =? PIN_IRQ_MODE_LOW_LEVEL then Some GPIO_INT_LOW
  else None.

Definition nu_gpio_irq_enable (pin enabled : Z) : GM Z :=
  if negb (nu_port_check pin =? 0) then ret (- RT_ERROR) else
  let! irqindex := nu_find_irqindex (u32 pin) in
  if irqindex =? - RT_ERROR then ret (- RT_ERROR) else
  let PORT := port_of pin in
  let! irqn := deref (znth au32GPIRQ (NU_GET_PORT pin)) in
  if enabled =? PIN_IRQ_ENABLE then
    let! tab := gets pin_irq_hdr_tab in
    let! e := deref (znth tab irqindex) in
    match int_attribs (hdr_mode e) with
    | Some u32IntAttribs =>
        GPIO_EnableInt PORT (NU_GET_PINS pin) u32IntAttribs ;;
        rt_hw_interrupt_umask irqn ;;
        ret (- RT_EOK)
    | None => ret (- RT_EOK)
    end
  else
    GPIO_DisableInt PORT (NU_GET_PINS pin) ;;
    rt_hw_interrupt_mask irqn ;;
    ret (- RT_EOK).

(** ** interrupt.c and trap.c of the processor *)

Definition rt_hw_interrupt_install (vector param : Z) : GM unit :=
  if vector <? MAX_HANDLERS then modify (fun s => set_isr_param (fset vector (Some param) (isr_param s)) s)
  else ret tt.

(** [rt_hw_trap_irq] for an interrupt of a port. *)
Definition rt_hw_trap_irq (ir : Z) : GM unit :=
  let! o := gets (fun s => isr_param s ir) in
  match o with Some param => nu_gpio_isr param | None => ret tt end.

(** ** pin.c *)

Definition rt_device_pin_register : GM Z := modify (set_hw_pin true) ;; ret 0.

Definition rt_hw_gpio_init : GM Z :=
  for_each (seqZ 0 IRQ_MAX_NUM) (fun irqindex =>
    let! tab := gets pin_irq_hdr_tab in
    let! _ := deref (znth tab irqindex) in
    modify (set_tab (zupd tab irqindex no_hdr))) ;;
  for_each (seqZ 0 NU_PORT_CNT) (fun i =>
    let! irqn := deref (znth au32GPIRQ i) in
    rt_hw_interrupt_install irqn (GPIOA_BASE + i * PORT_OFFSET)) ;;
  rt_device_pin_register.

(** Each function of the pin device asserts that a driver is registered. *)
Definition with_ops {A} (m : GM A) : GM A := let! b := gets _hw_pin in rt_assert b ;; m.

Definition rt_pin_attach_irq (pin mode h args : Z) : GM Z := with_ops (nu_gpio_attach_irq pin mode h args).
Definition rt_pin_detach_irq (pin : Z) : GM Z := with_ops (nu_gpio_detach_irq pin).
Definition rt_pin_irq_enable (pin enabled : Z) : GM Z := with_ops (nu_gpio_irq_enable pin enabled).
Definition rt_pin_mode (pin mode : Z) : GM unit := with_ops (nu_gpio_mode pin mode).
Definition rt_pin_write (pin value : Z) : GM unit := with_ops (nu_gpio_write pin value).
Definition rt_pin_read (pin : Z) : GM Z := with_ops (nu_gpio_read pin).

(** The device functions, on a [struct rt_device_pin_status] or [rt_device_pin_mode] in the
    buffer, [None] for [RT_NULL]; the read gives the status back. *)
Definition sizeof_status : Z := 4.

Definition _pin_read (buffer : option (Z * Z)) (size : Z) : GM (Z * option (Z * Z)) :=
  match buffer with
  | Some (pin, status) =>
      if size =? sizeof_status then
        let! v := nu_gpio_read pin in ret (size, Some (pin, u16 v))
      else ret (0, buffer)
  | None => ret (0, None)
  end.

Definition _pin_write (buffer : option (Z * Z)) (size : Z) : GM Z :=
  match buffer with
  | Some (pin, status) =>
      if size =? sizeof_status then nu_gpio_write pin status ;; ret size else ret 0
  | None => ret 0
  end.

Definition _pin_control (args : option (Z * Z)) : GM Z :=
  match args with
  | Some (pin, mode) => nu_gpio_mode pin mode ;; ret 0
  | None => ret (- RT_ERROR)
  end.

End driver.
