(* ===== verification/GpioTable.v ===== *)
(** * The table of pin handlers

    The table of 16 entries with its mask of used ones is a map from pins to mode, handler
    and argument that holds at most 16 of them: what finding, attaching and detaching do to
    it, for pin numbers of 16 bits. *)

From Stdlib Require Import ZArith Lia Bool.
From stdpp Require Import base tactics numbers list option gmap.
From S2P Require Import Prelude BitUtil RingBuf Gpio.

Open Scope Z_scope.

Definition is_i16 (x : Z) : Prop := - 2 ^ 15 <= x < 2 ^ 15.

Lemma i16_range x : is_i16 (i16 x).
Proof. unfold is_i16, i16. Z.div_mod_to_equations. lia. Qed.

Lemma i16_small x : is_i16 x -> i16 x = x.
Proof. unfold is_i16, i16. intros H. rewrite Z.mod_small; lia. Qed.

(** Signed numbers of 16 bits that are equal as unsigned words are equal. *)
Lemma u32_i16_eqb x y : is_i16 x -> is_i16 y -> (u32 x =? u32 y) = (x =? y).
Proof.
  unfold is_i16, u32. intros Hx Hy. destruct (Z.eqb_spec x y) as [->|Hne]; [apply Z.eqb_refl|].
  apply Z.eqb_neq. Z.div_mod_to_equations. lia.
Qed.

(** ** The relation *)

Abbreviation attached := (gmap Z (Z * Z * Z)).

Definition entry_val (e : rt_pin_irq_hdr) : Z * Z * Z := (hdr_mode e, hdr e, hdr_args e).

Definition used (s : gpio) : list Z := flags IRQ_MAX_NUM (g_u32PinIrqMask s).

(** Entry [i] is in use for pin [p]. *)
Definition slot (s : gpio) (i p : Z) (v : Z * Z * Z) : Prop :=
  i ∈ used s /\ exists e, znth (pin_irq_hdr_tab s) i = Some e /\ hdr_pin e = p /\ entry_val e = v.

Record table_ok (s : gpio) (att : attached) : Prop := {
  to_len : length (pin_irq_hdr_tab s) = 16%nat;
  to_mask : 0 <= g_u32PinIrqMask s < 2 ^ 16;
  to_slot : forall p v, att !! p = Some v <-> is_i16 p /\ exists i, slot s i p v;
  to_used : forall i, i ∈ used s -> exists p v, is_i16 p /\ slot s i p v;
  to_inj : forall i j p v w, slot s i p v -> slot s j p w -> i = j
}.

Lemma mask_u32 s att : table_ok s att -> is_u32 (g_u32PinIrqMask s).
Proof. intros H. pose proof (to_mask _ _ H). unfold is_u32. lia. Qed.

Lemma elem_of_used s i : i ∈ used s <-> 0 <= i < 16 /\ Z.testbit (g_u32PinIrqMask s) i = true.
Proof. apply elem_of_flags. Qed.

(** The map has as many pins as the table used entries. *)
Lemma size_attached s att : table_ok s att -> size att = length (used s).
Proof.
  intros H. set (pin_at := fun i => match znth (pin_irq_hdr_tab s) i with Some e => hdr_pin e | None => 0 end).
  assert (Hp : forall i p v, slot s i p v -> pin_at i = p) by (intros i p v (_ & e & He & <- & _); unfold pin_at; by rewrite He).
  assert (Hd : dom att = list_to_set (pin_at <$> used s)).
  { apply set_eq. intros p. rewrite elem_of_dom, elem_of_list_to_set, list_elem_of_fmap. split.
    - intros [v Hv]. apply (to_slot _ _ H) in Hv as (_ & i & Hs). exists i. split; [symmetry; by eapply Hp|apply Hs].
    - intros (i & -> & Hi). destruct (to_used _ _ H i Hi) as (p & v & Hi16 & Hs). rewrite (Hp _ _ _ Hs).
      exists v. apply (to_slot _ _ H). eauto. }
  rewrite <-size_dom, Hd, size_list_to_set, length_fmap; [done|].
  apply NoDup_fmap_2_strong; [|apply NoDup_filter, NoDup_seqZ].
  intros i j Hi Hj E. destruct (to_used _ _ H i Hi) as (p & v & _ & Hs), (to_used _ _ H j Hj) as (q & w & _ & Ht).
  rewrite (Hp _ _ _ Hs), (Hp _ _ _ Ht) in E. subst q. by eapply to_inj.
Qed.

(** ** Finding *)

Definition find_body (pin_index i : Z) (rest : GM Z) : GM Z :=
  let! tab := gets pin_irq_hdr_tab in
  let! e := deref (znth tab i) in
  if u32 (hdr_pin e) =? pin_index then ret i else rest.

Lemma find_flags m pin_index :
  is_u32 m -> find_loop 17 m pin_index = foldr (find_body pin_index) (ret (- RT_ERROR)) (flags IRQ_MAX_NUM m).
Proof.
  intros Hm. apply (ctz_loop (fun f w => find_loop f w pin_index) (find_body pin_index)); try done.
Qed.

Lemma find_foldr s p l :
  (forall i, i ∈ l -> exists e, znth (pin_irq_hdr_tab s) i = Some e /\ is_i16 (hdr_pin e)) -> is_i16 p ->
  (exists i e, i ∈ l /\ znth (pin_irq_hdr_tab s) i = Some e /\ hdr_pin e = p /\
     foldr (find_body (u32 p)) (ret (- RT_ERROR)) l s = Ret (i, s)) \/
  ((forall i e, i ∈ l -> znth (pin_irq_hdr_tab s) i = Some e -> hdr_pin e <> p) /\
   foldr (find_body (u32 p)) (ret (- RT_ERROR)) l s = Ret (- RT_ERROR, s)).
Proof.
  intros Hl Hp. induction l as [|i l IH].
  - right. split; [|reflexivity]. intros i e Hi. by apply not_elem_of_nil in Hi.
  - destruct (Hl i) as (e & He & Hi16); [left|].
    assert (Hb : foldr (find_body (u32 p)) (ret (- RT_ERROR)) (i :: l) s =
                 if hdr_pin e =? p then Ret (i, s) else foldr (find_body (u32 p)) (ret (- RT_ERROR)) l s).
    { cbn [foldr]. unfold find_body at 1. rewrite bind_gets, (bind_deref _ e), u32_i16_eqb by done. by destruct (_ =? _). }
    rewrite Hb. destruct (Z.eqb_spec (hdr_pin e) p) as [E|E].
    + left. exists i, e. split_and!; try done. left.
    + destruct IH as [(j & e' & Hj & Hr)|(Hn & Hr)].
      { intros j Hj. apply Hl. by right. }
      * left. exists j, e'. split; [by right|done].
      * right. split; [|done]. intros j e' [->|Hj]%elem_of_cons He'; [congruence|by eapply Hn].
Qed.

Lemma used_entry s att i : table_ok s att -> i ∈ used s -> exists e, znth (pin_irq_hdr_tab s) i = Some e /\ is_i16 (hdr_pin e).
Proof. intros H Hi. destruct (to_used _ _ H i Hi) as (p & v & Hp & _ & e & He & <- & _). eauto. Qed.

Lemma find_spec s att p :
  table_ok s att -> is_i16 p ->
  match att !! p with
  | Some v => exists i, slot s i p v /\ nu_find_irqindex (u32 p) s = Ret (i, s)
  | None => nu_find_irqindex (u32 p) s = Ret (- RT_ERROR, s)
  end.
Proof.
  intros H Hp. unfold nu_find_irqindex. rewrite bind_gets, find_flags by (by eapply mask_u32).
  destruct (find_foldr s p (used s)) as [(i & e & Hi & He & <- & Hr)|(Hn & Hr)]; [by intros; eapply used_entry|done| |];
    fold (used s); rewrite Hr.
  - assert (Hs : slot s i (hdr_pin e) (entry_val e)) by (split; eauto).
    rewrite (proj2 (to_slot _ _ H _ (entry_val e))) by eauto. eauto.
  - destruct (att !! p) as [v|] eqn:E; [|done]. apply (to_slot _ _ H) in E as (_ & i & Hi & e & He & Hpe & _).
    by destruct (Hn i e).
Qed.

(** ** Attaching *)

(** The table with entry [i] written and its bit set. *)
Definition put_slot (i : Z) (e : rt_pin_irq_hdr) (s : gpio) : gpio :=
  set_mask (Z.lor (g_u32PinIrqMask s) (bit i)) (set_tab (zupd (pin_irq_hdr_tab s) i e) s).

Lemma elem_of_used_put s i e j : 0 <= i < 16 -> j ∈ used (put_slot i e s) <-> j = i \/ j ∈ used s.
Proof.
  intros Hi. rewrite !elem_of_used. cbn. split.
  - intros [Hj Hb]. rewrite Z.lor_spec, testbit_bit in Hb by lia. destruct (Z.eqb_spec j i); [by left|].
    rewrite orb_false_r in Hb. by right.
  - intros [->|[Hj Hb]]; (split; [lia|]); rewrite Z.lor_spec, testbit_bit by lia.
    + by rewrite Z.eqb_refl, orb_true_r.
    + by rewrite Hb.
Qed.

Lemma slot_put s i e j p v :
  length (pin_irq_hdr_tab s) = 16%nat -> 0 <= i < 16 ->
  slot (put_slot i e s) j p v <-> (j = i /\ hdr_pin e = p /\ entry_val e = v) \/ (j <> i /\ slot s j p v).
Proof.
  intros Hlen Hi. unfold slot. rewrite elem_of_used_put by done. cbn. split.
  - intros (Hj & e' & He & Hp & Hv). destruct (decide (j = i)) as [->|Hne].
    + rewrite znth_zupd_eq in He by lia. simplify_eq. by left.
    + rewrite znth_zupd_ne in He by lia. destruct Hj as [|Hj]; [done|]. right. eauto 6.
  - intros [(-> & <- & <-)|(Hne & Hj & e' & He & Hp & Hv)].
    + split; [by left|]. rewrite znth_zupd_eq by lia. eauto.
    + split; [by right|]. rewrite znth_zupd_ne by lia. eauto.
Qed.

(** Entry [i] is the pin's, or free and the pin has none. *)
Lemma put_slot_ok s att i e :
  table_ok s att -> 0 <= i < 16 -> is_i16 (hdr_pin e) ->
  (exists v, slot s i (hdr_pin e) v) \/ ((i ∉ used s) /\ att !! hdr_pin e = None) ->
  table_ok (put_slot i e s) (<[hdr_pin e := entry_val e]> att).
Proof.
  intros H Hi He Hc. pose proof (to_len _ _ H) as Hlen.
  assert (Hother : forall j v, slot s j (hdr_pin e) v -> j = i).
  { intros j v Hj. destruct Hc as [[w Hw]|[_ Hn]]; [by eapply to_inj|].
    assert (att !! hdr_pin e = Some v) by (apply (to_slot _ _ H); eauto). congruence. }
  assert (Hfree : forall p v, p <> hdr_pin e -> slot s i p v -> False).
  { intros p v Hp Hs. destruct Hc as [[w (_ & e' & He' & Hp' & _)]|[Hn _]].
    - destruct Hs as (_ & e2 & He2 & Hp2 & _). congruence.
    - by destruct Hs. }
  constructor.
  - cbn. by rewrite length_zupd.
  - pose proof (to_mask _ _ H). cbn. split; [apply Z.lor_nonneg; unfold bit; rewrite Z.shiftl_nonneg; lia|].
    apply Z.log2_lt_cancel. rewrite Z.log2_lor, Z.log2_pow2 by (unfold bit; rewrite ?Z.shiftl_nonneg; lia).
    apply Z.max_lub_lt; [|unfold bit; rewrite Z.shiftl_1_l, Z.log2_pow2; lia].
    destruct (Z.eq_dec (g_u32PinIrqMask s) 0) as [->|]; [done|]. apply Z.log2_lt_pow2; lia.
  - intros p v. destruct (decide (p = hdr_pin e)) as [->|Hp].
    + rewrite lookup_insert_eq. split.
      * intros [= <-]. split; [done|]. exists i. apply slot_put; [done..|]. by left.
      * intros (_ & j & [(_ & _ & <-)|(Hne & Hs)]%slot_put); [done| |done..]. by destruct Hne, (Hother j v).
    + rewrite lookup_insert_ne, (to_slot _ _ H) by done. apply and_iff_compat_l. split; intros [j Hs].
      * exists j. apply slot_put; [done..|]. right. split; [|done]. intros ->. by eapply Hfree.
      * apply slot_put in Hs as [(_ & Hp' & _)|[_ Hs]]; [congruence|eauto|done..].
  - intros j Hj. apply elem_of_used_put in Hj; [|done]. destruct (decide (j = i)) as [->|Hne].
    + exists (hdr_pin e), (entry_val e). split; [done|]. apply slot_put; [done..|]. by left.
    + destruct Hj as [|Hj]; [done|]. destruct (to_used _ _ H j Hj) as (p & v & Hp & Hs).
      exists p, v. split; [done|]. apply slot_put; [done..|]. by right.
  - intros j k p v w [(-> & <- & _)|(Hj & Hs)]%slot_put [(-> & Hp & _)|(Hk & Ht)]%slot_put; try done.
    + by destruct Hk, (Hother k w).
    + subst p. by destruct Hj, (Hother j v).
    + by eapply to_inj.
Qed.

(** The lowest free entry, and when there is none. *)
Lemma cto_free s att :
  table_ok s att ->
  (nu_cto (g_u32PinIrqMask s) < 16 /\ 0 <= nu_cto (g_u32PinIrqMask s) /\ (nu_cto (g_u32PinIrqMask s) ∉ used s) /\ (size att < 16)%nat) \/
  (16 <= nu_cto (g_u32PinIrqMask s) /\ size att = 16%nat).
Proof.
  intros H. pose proof (mask_u32 _ _ H) as Hm. rewrite (size_attached _ _ H).
  destruct (Z.lt_ge_cases (nu_cto (g_u32PinIrqMask s)) 16) as [Hlt|Hge].
  - left. destruct (nu_cto_lowest _ Hm) as (H0 & Hf & _); [lia|]. split_and!; try done.
    + rewrite elem_of_used. intros [_ Ht]. congruence.
    + unfold used, flags, flags_from. change 16%nat with (length (seqZ 0 (IRQ_MAX_NUM - 0))).
      eapply length_filter_lt; [|by rewrite Hf]. apply elem_of_seqZ. unfold IRQ_MAX_NUM. lia.
  - right. split; [done|]. unfold used, flags, flags_from. rewrite filter_all; [done|].
    intros j Hj%elem_of_seqZ. unfold IRQ_MAX_NUM in Hj.
    destruct (Z.lt_ge_cases (nu_cto (g_u32PinIrqMask s)) 32) as [Hlt|Hge'].
    + destruct (nu_cto_lowest _ Hm Hlt) as (_ & _ & Hb). apply Hb. lia.
    + apply nu_cto_full; [done|done|lia].
Qed.

(** ** Detaching *)

Definition drop_slot (i : Z) (s : gpio) : gpio :=
  set_mask (Z.land (g_u32PinIrqMask s) (not32 (bit i))) (set_tab (zupd (pin_irq_hdr_tab s) i no_hdr) s).

Lemma elem_of_used_drop s i j : 0 <= i < 16 -> j ∈ used (drop_slot i s) <-> j <> i /\ j ∈ used s.
Proof.
  intros Hi. rewrite !elem_of_used. cbn. split.
  - intros [Hj Hb]. rewrite Z.land_spec, testbit_not32, testbit_bit in Hb by lia.
    destruct (Z.eqb_spec j i); [by rewrite !andb_false_r in Hb|]. by apply andb_true_iff in Hb as [? _].
  - intros (Hne & Hj & Hb). split; [done|]. rewrite Z.land_spec, testbit_not32, testbit_bit, Hb by lia.
    destruct (Z.ltb_spec j 32), (Z.eqb_spec j i); (done || lia).
Qed.

Lemma slot_drop s i j p v :
  0 <= i < 16 -> slot (drop_slot i s) j p v <-> j <> i /\ slot s j p v.
Proof.
  intros Hi. unfold slot. rewrite elem_of_used_drop by done. cbn. split.
  - intros ([Hne Hj] & e & He & Hp & Hv). rewrite znth_zupd_ne in He by lia. eauto 7.
  - intros (Hne & Hj & e & He & Hp & Hv). split; [done|]. rewrite znth_zupd_ne by lia. eauto.
Qed.

Lemma drop_slot_ok s att i p v : table_ok s att -> slot s i p v -> table_ok (drop_slot i s) (delete p att).
Proof.
  intros H Hs. assert (Hi : 0 <= i < 16) by (destruct Hs as [Hi _]; apply elem_of_used in Hi; lia).
  constructor.
  - cbn. rewrite length_zupd. apply (to_len _ _ H).
  - pose proof (to_mask _ _ H) as Hm. cbn. split; [apply Z.land_nonneg; lia|].
    destruct (Z.eq_dec (Z.land (g_u32PinIrqMask s) (not32 (bit i))) 0) as [->|]; [done|].
    assert (0 <= Z.land (g_u32PinIrqMask s) (not32 (bit i))) by (apply Z.land_nonneg; lia).
    apply Z.log2_lt_pow2; [lia|]. eapply Z.le_lt_trans; [apply Z.log2_land; [lia|apply not32_u32]|].
    apply Z.min_lt_iff. left. destruct (Z.eq_dec (g_u32PinIrqMask s) 0) as [->|]; [done|]. apply Z.log2_lt_pow2; lia.
  - intros q w. destruct (decide (q = p)) as [->|Hq].
    + rewrite lookup_delete_eq. split; [done|]. intros (_ & j & Ht). apply slot_drop in Ht as [Hne Ht]; [|done].
      by destruct Hne, (to_inj _ _ H _ _ _ _ _ Ht Hs).
    + rewrite lookup_delete_ne, (to_slot _ _ H) by done. apply and_iff_compat_l. split; intros [j Ht]; exists j.
      * apply slot_drop; [done|]. split; [|done]. intros ->. destruct Ht as (_ & e & He & Hp & _), Hs as (_ & e' & He' & Hp' & _). congruence.
      * by apply slot_drop in Ht as [_ Ht].
  - intros j Hj. apply elem_of_used_drop in Hj as [Hne Hj]; [|done].
    destruct (to_used _ _ H j Hj) as (q & w & Hq & Ht). exists q, w. split; [done|]. by apply slot_drop.
  - intros j k q w w' Hj Hk. apply slot_drop in Hj as [_ Hj], Hk as [_ Hk]; [|done..]. by eapply to_inj.
Qed.

Definition detach_body (pin i : Z) (rest : GM unit) : GM unit :=
  let! tab := gets pin_irq_hdr_tab in
  let! e := deref (znth tab i) in
  if hdr_pin e =? pin then
    modify (set_tab (zupd tab i no_hdr)) ;;
    modify (fun s => set_mask (Z.land (g_u32PinIrqMask s) (not32 (bit i))) s)
  else rest.

Lemma detach_flags m pin :
  is_u32 m -> detach_loop 17 m pin = foldr (detach_body pin) (ret tt) (flags IRQ_MAX_NUM m).
Proof. intros Hm. apply (ctz_loop (fun f w => detach_loop f w pin) (detach_body pin)); done. Qed.

Lemma detach_foldr s p l :
  (forall i, i ∈ l -> exists e, znth (pin_irq_hdr_tab s) i = Some e) ->
  (exists i e, i ∈ l /\ znth (pin_irq_hdr_tab s) i = Some e /\ hdr_pin e = p /\
     foldr (detach_body p) (ret tt) l s = Ret (tt, drop_slot i s)) \/
  ((forall i e, i ∈ l -> znth (pin_irq_hdr_tab s) i = Some e -> hdr_pin e <> p) /\
   foldr (detach_body p) (ret tt) l s = Ret (tt, s)).
Proof.
  intros Hl. induction l as [|i l IH].
  - right. split; [|reflexivity]. intros i e Hi. by apply not_elem_of_nil in Hi.
  - destruct (Hl i) as (e & He); [left|].
    assert (Hb : foldr (detach_body p) (ret tt) (i :: l) s =
                 if hdr_pin e =? p then Ret (tt, drop_slot i s) else foldr (detach_body p) (ret tt) l s).
    { cbn [foldr]. unfold detach_body at 1. rewrite bind_gets, (bind_deref _ e) by done. by destruct (_ =? _). }
    rewrite Hb. destruct (Z.eqb_spec (hdr_pin e) p) as [E|E].
    + left. exists i, e. split_and!; try done. left.
    + destruct IH as [(j & e' & Hj & Hr)|(Hn & Hr)].
      { intros j Hj. apply Hl. by right. }
      * left. exists j, e'. split; [by right|done].
      * right. split; [|done]. intros j e' [->|Hj]%elem_of_cons He'; [congruence|by eapply Hn].
Qed.
