(* ===== verification/GpioPins.v ===== *)
(** * Pins as independent settings

    The registers of the ports hold, for each of the 224 pins, a mode, a pull, an output
    level, the interrupt it waits for and its flag; what the register functions of the driver
    do to these settings: each changes the pin it is given, and no other. *)

From Stdlib Require Import ZArith Lia Bool.
From stdpp Require Import base tactics numbers list option gmap.
From S2P Require Import Prelude BitUtil RingBuf Gpio GpioTable.

Open Scope Z_scope.

(** The settings of a pin. *)
Record pincfg : Type := mkPin {
  dir : Z;
  pull : Z;
  out : bool;
  by_level : bool;
  on_fall : bool;
  on_rise : bool;
  flag : bool
}.

Definition pin_of_regs (r : GPIO_T -> Z) (i : Z) : pincfg :=
  mkPin (field_get (r MODE) 2 (2 * i)) (field_get (r PUSEL) 2 (2 * i)) (Z.testbit (r DOUT) i)
        (Z.testbit (r INTTYPE) i) (Z.testbit (r INTEN) i) (Z.testbit (r INTEN) (i + 16)) (Z.testbit (r INTSRC) i).

Definition port_base (port : Z) : Z := GPIOA_BASE + port * PORT_OFFSET.

Definition cfg_of (s : gpio) (q : Z) : pincfg := pin_of_regs (greg s (port_base (q / 16))) (q mod 16).

Definition is_pin (q : Z) : Prop := 0 <= q < 224.

(** The pin a pin number stands for: the driver looks at its low eight bits. *)
Definition phys (p : Z) : Z := NU_GET_PORT p * 16 + NU_GET_PINS p.

Definition regs_ok (s : gpio) : Prop := forall a r, is_u32 (greg s a r).

(** [m] changes the registers alone, so that pin [q] gets [f] of its settings. *)
Definition sets_pin (m : GM unit) (q : Z) (f : pincfg -> pincfg) : Prop :=
  forall s, regs_ok s -> exists g, m s = Ret (tt, set_greg g s) /\ regs_ok (set_greg g s) /\
    forall q', is_pin q' -> cfg_of (set_greg g s) q' = if decide (q' = q) then f (cfg_of s q') else cfg_of s q'.

Lemma NU_GET_PINS_range p : 0 <= NU_GET_PINS p < 16.
Proof. unfold NU_GET_PINS. change 15 with (Z.ones 4). rewrite Z.land_ones by lia. by apply Z.mod_pos_bound. Qed.

Lemma NU_GET_PORT_range p : 0 <= NU_GET_PORT p < 16.
Proof. unfold NU_GET_PORT. change 15 with (Z.ones 4). rewrite Z.land_ones by lia. by apply Z.mod_pos_bound. Qed.

Lemma phys_split p : phys p / 16 = NU_GET_PORT p /\ phys p mod 16 = NU_GET_PINS p.
Proof. pose proof (NU_GET_PINS_range p). unfold phys. Z.div_mod_to_equations. lia. Qed.

(** A pin number below 256 is the pin. *)
Lemma phys_small p : 0 <= p < 256 -> phys p = p.
Proof.
  intros Hp. unfold phys, NU_GET_PORT, NU_GET_PINS. change 15 with (Z.ones 4).
  rewrite !Z.land_ones, Z.shiftr_div_pow2 by lia. change (2 ^ 4) with 16. Z.div_mod_to_equations. lia.
Qed.

(** ** Updating one register *)

Lemma fset_eq {A B} `{EqDecision A} (a : A) (b : B) f : fset a b f a = b.
Proof. unfold fset. by rewrite decide_True. Qed.

Lemma fset_ne {A B} `{EqDecision A} (a a' : A) (b : B) f : a' <> a -> fset a b f a' = f a'.
Proof. intros H. unfold fset. by rewrite decide_False. Qed.

Lemma greg_set port r v s a r' :
  greg (set_port_reg port r v s) a r' = if decide (a = port /\ r' = r) then v else greg s a r'.
Proof.
  cbn. unfold fset. destruct (decide (a = port)) as [->|Ha]; [|rewrite decide_False; [done|tauto]].
  destruct (decide (r' = r)) as [->|Hr]; [by rewrite decide_True|rewrite decide_False; [done|tauto]].
Qed.

Lemma set_port_reg_ok port r v s : regs_ok s -> is_u32 v -> regs_ok (set_port_reg port r v s).
Proof. intros H Hv a r'. rewrite greg_set. by case_decide. Qed.

Lemma port_base_inj p q : port_base p = port_base q -> p = q.
Proof. unfold port_base, PORT_OFFSET. lia. Qed.

(** The pins of other ports do not depend on the register, those of the port by [Hf]. *)
Lemma upd_sets_pin q r (f : Z -> Z) (g : pincfg -> pincfg) :
  is_pin q ->
  (forall x, is_u32 x -> is_u32 (f x)) ->
  (forall regs i, (forall r', is_u32 (regs r')) -> 0 <= i < 16 ->
     pin_of_regs (fset r (f (regs r)) regs) i =
     if decide (i = q mod 16) then g (pin_of_regs regs i) else pin_of_regs regs i) ->
  sets_pin (upd (port_base (q / 16)) r f) q g.
Proof.
  intros Hq Hu Hf s Hs. unfold upd, rdp, wrp. rewrite bind_gets. eexists. split; [reflexivity|].
  split; [by apply set_port_reg_ok, Hu|]. intros q' Hq'. unfold cfg_of. cbn. unfold fset at 1.
  case_decide as Hp.
  - apply port_base_inj in Hp. rewrite Hp, Hf by (done || Z.div_mod_to_equations; lia).
    unfold is_pin in *. repeat case_decide; try done; exfalso; Z.div_mod_to_equations; lia.
  - rewrite decide_False; [done|]. intros ->. done.
Qed.

Lemma seq_sets_pin m1 m2 q f g : sets_pin m1 q f -> sets_pin m2 q g -> sets_pin (m1 ;; m2) q (fun c => g (f c)).
Proof.
  intros H1 H2 s Hs. destruct (H1 s Hs) as (g1 & E1 & Hs1 & C1), (H2 _ Hs1) as (g2 & E2 & Hs2 & C2).
  exists g2. split; [rewrite (bind_Ret _ _ _ _ _ E1), E2; by destruct s|]. split; [exact Hs2|]. intros q' Hq'.
  change (set_greg g2 s) with (set_greg g2 (set_greg g1 s)). rewrite C2, C1 by done. by case_decide.
Qed.

Lemma sets_pin_ext m m' q f : (forall s, m s = m' s) -> sets_pin m' q f -> sets_pin m q f.
Proof. intros E H s Hs. rewrite E. by apply H. Qed.

(** The loop over the pins of a mask of one. *)
Lemma for_pins_skip i (body : Z -> GM unit) l m s :
  0 <= i -> i ∉ l -> Forall (fun j => 0 <= j) l ->
  for_each (l ++ m) (fun j => if tst (bit i) (bit j) then body j else ret tt) s =
  for_each m (fun j => if tst (bit i) (bit j) then body j else ret tt) s.
Proof.
  intros Hi. revert s. induction l as [|j l IH]; intros s Hn Hl; [done|]. apply not_elem_of_cons in Hn as [Hne Hn].
  inversion Hl as [|? ? Hj Hl']; subst. cbn [for_each app]. rewrite tst_bit, testbit_bit by lia.
  destruct (Z.eqb_spec j i); [congruence|]. by apply IH.
Qed.

Lemma for_pins_one i body s : 0 <= i < 16 -> for_pins (bit i) body s = body i s.
Proof.
  intros Hi. unfold for_pins, pins_of_port, GPIO_PIN_MAX.
  replace 16 with (i + (1 + (15 - i))) by lia. rewrite !seqZ_app by lia. rewrite Z.add_0_l.
  rewrite for_pins_skip; [|lia|rewrite elem_of_seqZ; lia|apply Forall_forall; intros j Hj%elem_of_seqZ; lia].
  rewrite seqZ_cons by lia. cbn [for_each app Z.pred seqZ]. rewrite tst_bit, testbit_bit, Z.eqb_refl by lia.
  unfold bind at 1. destruct (body i s) as [[[] s1]| | |]; [|done..].
  change (seqZ (Z.succ i) (Z.pred 1) ++ seqZ (i + 1) (15 - i)) with (seqZ (i + 1) (15 - i)).
  rewrite <-(app_nil_r (seqZ (i + 1) (15 - i))).
  apply (for_pins_skip i body _ []); [lia|rewrite elem_of_seqZ; lia|apply Forall_forall; intros j Hj%elem_of_seqZ; lia].
Qed.

(** ** The register functions *)

Lemma field_get_2bits i j v x :
  0 <= i < 16 -> 0 <= j < 16 -> 0 <= v < 4 -> is_u32 x ->
  field_get (set_2bits i v x) 2 (2 * j) = if decide (j = i) then v else field_get x 2 (2 * j).
Proof.
  intros Hi Hj Hv Hx. case_decide as E.
  - subst j. apply (field_get_set x 2 (2 * i) v); lia.
  - apply Z.bits_inj'; intros k Hk. unfold field_get. autorewrite with bits.
    destruct (Z.ltb_spec k 2); [|by rewrite !andb_false_r]. rewrite !andb_true_r.
    apply (field_set_other x 2 (2 * i) v); lia || done.
Qed.

Lemma set_2bits_u32 i v x : is_u32 x -> is_u32 (set_2bits i v x).
Proof. intros Hx. apply lor_u32; [apply land_u32_l; [done|apply not32_u32]|apply u32_range]. Qed.

Lemma testbit_1bit i j v x :
  0 <= i < 16 -> 0 <= j -> is_u32 x -> Z.testbit (set_1bit i v x) j = if decide (j = i) then negb (v =? 0) else Z.testbit x j.
Proof.
  intros Hi Hj Hx. unfold set_1bit. autorewrite with bits.
  case_decide as E; [subst j; rewrite Z.sub_diag, Z.eqb_refl, !andb_false_r; by destruct (v =? 0)|].
  destruct (Z.eqb_spec j i); [done|]. destruct (Z.ltb_spec j 32); [|rewrite (u32_high x) by done].
  all: cbn; rewrite ?andb_true_r; case_match; rewrite ?Z.bits_0, ?orb_false_r; try done.
  all: replace (Z.testbit 1 (j - i)) with false; [by rewrite ?orb_false_r|].
  all: destruct (Z.lt_ge_cases (j - i) 0); [by rewrite Z.testbit_neg_r|symmetry; apply (testbit_small 1 1); lia].
Qed.

Lemma set_1bit_u32 i v x : 0 <= i < 16 -> is_u32 x -> is_u32 (set_1bit i v x).
Proof.
  intros Hi Hx. apply lor_u32; [apply land_u32_l; [done|apply not32_u32]|]. case_match; [by rewrite Z.shiftl_0_l|].
  apply bit_u32. lia.
Qed.

Section pins.
Context (q : Z) (Hq : is_pin q).

Lemma pin_index_range : 0 <= q mod 16 < 16.
Proof. by apply Z.mod_pos_bound. Qed.

Lemma set_mode_pin v : 0 <= v < 4 ->
  sets_pin (GPIO_SetMode (port_base (q / 16)) (bit (q mod 16)) v) q
    (fun c => mkPin v (pull c) (out c) (by_level c) (on_fall c) (on_rise c) (flag c)).
Proof.
  intros Hv. pose proof pin_index_range. eapply sets_pin_ext; [intros s; by apply for_pins_one|].
  apply upd_sets_pin; [done|intros; by apply set_2bits_u32|].
  intros regs i Hr Hi. unfold pin_of_regs. rewrite fset_eq, !fset_ne, field_get_2bits by done. by case_decide.
Qed.

Lemma set_pull_pin v : 0 <= v < 4 ->
  sets_pin (GPIO_SetPullCtl (port_base (q / 16)) (bit (q mod 16)) v) q
    (fun c => mkPin (dir c) v (out c) (by_level c) (on_fall c) (on_rise c) (flag c)).
Proof.
  intros Hv. pose proof pin_index_range. eapply sets_pin_ext; [intros s; by apply for_pins_one|].
  apply upd_sets_pin; [done|intros; by apply set_2bits_u32|].
  intros regs i Hr Hi. unfold pin_of_regs. rewrite fset_eq, !fset_ne, field_get_2bits by done. by case_decide.
Qed.

Lemma write_data_pin v :
  sets_pin (write_PIN_DATA (q / 16) (q mod 16) v) q
    (fun c => mkPin (dir c) (pull c) (Z.testbit v 0) (by_level c) (on_fall c) (on_rise c) (flag c)).
Proof.
  pose proof pin_index_range. apply upd_sets_pin; [done|intros; by apply set_1bit_u32|].
  intros regs i Hr Hi. unfold pin_of_regs. rewrite fset_eq, !fset_ne, testbit_1bit by (done || lia). case_decide; [|done].
  f_equal. by rewrite <-tst_bit by lia.
Qed.

(** *** Interrupts of a pin *)

(** What an interrupt mode asks for: by level or edge, and which. *)
Definition trigger (mode : Z) : option (bool * bool * bool) :=
  match mode with
  | 0 => Some (false, false, true)
  | 1 => Some (false, true, false)
  | 2 => Some (false, true, true)
  | 3 => Some (true, false, true)
  | 4 => Some (true, true, false)
  | _ => None
  end.

Definition set_trigger (t : bool * bool * bool) (c : pincfg) : pincfg :=
  let '(l, f, r) := t in mkPin (dir c) (pull c) (out c) l f r (flag c).

Lemma int_attribs_trigger mode :
  match trigger mode with
  | Some (l, f, r) => exists a, int_attribs mode = Some a /\ Z.land (Z.shiftr a 24) 0xFF = Z.b2z l /\
      Z.land a 0xFFFFFF = Z.lor (Z.b2z f) (Z.shiftl (Z.b2z r) 16)
  | None => int_attribs mode = None
  end.
Proof.
  destruct mode as [|[[p|p|]|[p|[p|p|]|]|]|p]; try done; by eexists.
Qed.

Lemma testbit_b2z b i : 0 <= i -> Z.testbit (Z.b2z b) i = (i =? 0) && b.
Proof.
  intros Hi. destruct (Z.eqb_spec i 0) as [->|]; [by destruct b|]. apply (testbit_small _ 1); [lia| |lia].
  destruct b; cbn; lia.
Qed.

Lemma testbit_neg x i : i < 0 -> Z.testbit x i = false.
Proof. apply Z.testbit_neg_r. Qed.

(** A bit set or cleared beside the others. *)
Lemma testbit_put_bit b i j x : 0 <= i < 16 -> 0 <= j < 16 -> is_u32 x ->
  Z.testbit (Z.lor (Z.land x (not32 (bit i))) (shl32 (Z.b2z b) i)) j = if decide (j = i) then b else Z.testbit x j.
Proof.
  intros Hi Hj Hx. autorewrite with bits. destruct (Z.ltb_spec j 32); [|lia]. case_decide as E.
  - subst j. rewrite Z.sub_diag, Z.eqb_refl, !andb_false_r, testbit_b2z by lia. done.
  - destruct (Z.eqb_spec j i); [done|]. cbn. rewrite andb_true_r.
    destruct (Z.lt_ge_cases (j - i) 0); [by rewrite (testbit_neg _ (j - i)), orb_false_r by lia|].
    rewrite testbit_b2z by lia. destruct (Z.eqb_spec (j - i) 0); [lia|]. cbn. by rewrite orb_false_r.
Qed.

Definition fall_rise (f r : bool) : Z := Z.lor (Z.b2z f) (Z.shiftl (Z.b2z r) 16).

Lemma testbit_fall_rise f r k : k < 32 -> Z.testbit (fall_rise f r) k = (k =? 0) && f || (k =? 16) && r.
Proof.
  intros Hk. destruct (Z.lt_ge_cases k 0) as [Hn|Hn].
  { rewrite testbit_neg by done. destruct (Z.eqb_spec k 0), (Z.eqb_spec k 16); (lia || done). }
  unfold fall_rise. rewrite Z.lor_spec, Z.shiftl_spec, testbit_b2z by done. f_equal.
  destruct (Z.lt_ge_cases (k - 16) 0) as [Hm|Hm].
  { rewrite testbit_neg by done. destruct (Z.eqb_spec k 16); (lia || done). }
  rewrite testbit_b2z by done. destruct (Z.eqb_spec (k - 16) 0), (Z.eqb_spec k 16); (lia || done).
Qed.

Lemma testbit_both k : k < 32 -> Z.testbit 0x00010001 k = (k =? 0) || (k =? 16).
Proof.
  intros Hk. change 0x00010001 with (fall_rise true true). rewrite testbit_fall_rise by done.
  by rewrite !andb_true_r.
Qed.

(** The two enable bits of pin [i], set or cleared beside those of the others. *)
Lemma testbit_put_both f r i j x : 0 <= i < 16 -> 0 <= j < 16 -> is_u32 x ->
  let y := Z.lor (Z.land x (not32 (shl32 0x00010001 i))) (shl32 (fall_rise f r) i) in
  Z.testbit y j = (if decide (j = i) then f else Z.testbit x j) /\
  Z.testbit y (j + 16) = (if decide (j = i) then r else Z.testbit x (j + 16)).
Proof.
  intros Hi Hj Hx y. unfold y. split; autorewrite with bits; rewrite testbit_both, testbit_fall_rise by lia;
    repeat (bits_step; try lia); case_decide; try lia; cbn [andb orb negb];
    rewrite ?andb_false_r, ?andb_true_r, ?orb_false_r; done.
Qed.

Lemma enable_pin mode t : trigger mode = Some t ->
  exists a, int_attribs mode = Some a /\
  sets_pin (GPIO_EnableInt (port_base (q / 16)) (q mod 16) a) q (set_trigger t).
Proof.
  intros Ht. pose proof pin_index_range. pose proof (int_attribs_trigger mode) as Ha. rewrite Ht in Ha.
  destruct t as [[l f] r]. destruct Ha as (a & Ea & Hl & Hfr). exists a. split; [done|].
  unfold GPIO_EnableInt. rewrite Hl, Hfr. fold (fall_rise f r).
  apply (seq_sets_pin _ _ _ (fun c => mkPin (dir c) (pull c) (out c) l (on_fall c) (on_rise c) (flag c))
                            (fun c => mkPin (dir c) (pull c) (out c) (by_level c) f r (flag c))).
  - apply upd_sets_pin; [done|intros x Hx; apply lor_u32; [apply land_u32_l; [done|apply not32_u32]|apply u32_range]|].
    intros regs i Hr Hi. unfold pin_of_regs. rewrite fset_eq, !fset_ne, testbit_put_bit by done. by case_decide.
  - apply upd_sets_pin; [done|intros x Hx; apply lor_u32; [apply land_u32_l; [done|apply not32_u32]|apply u32_range]|].
    intros regs i Hr Hi. unfold pin_of_regs. rewrite fset_eq, !fset_ne by done.
    destruct (testbit_put_both f r (q mod 16) i (regs INTEN)) as [-> ->]; [done..|]. by case_decide.
Qed.

Lemma disable_pin :
  sets_pin (GPIO_DisableInt (port_base (q / 16)) (q mod 16)) q (set_trigger (false, false, false)).
Proof.
  pose proof pin_index_range. unfold GPIO_DisableInt.
  apply (seq_sets_pin _ _ _ (fun c => mkPin (dir c) (pull c) (out c) false (on_fall c) (on_rise c) (flag c))
                            (fun c => mkPin (dir c) (pull c) (out c) (by_level c) false false (flag c))).
  - apply upd_sets_pin; [done|intros x Hx; apply land_u32_l; [done|apply not32_u32]|].
    intros regs i Hr Hi. unfold pin_of_regs. rewrite fset_eq, !fset_ne by done.
    pose proof (testbit_put_bit false (q mod 16) i (regs INTTYPE)) as E. change (shl32 (Z.b2z false) (q mod 16)) with (shl32 0 (q mod 16)) in E.
    unfold shl32 in E. rewrite Z.shiftl_0_l, Z.lor_0_r in E. rewrite E by done. by case_decide.
  - apply upd_sets_pin; [done|intros x Hx; apply land_u32_l; [done|apply not32_u32]|].
    intros regs i Hr Hi. unfold pin_of_regs. rewrite fset_eq, !fset_ne by done.
    destruct (testbit_put_both false false (q mod 16) i (regs INTEN)) as [E1 E2]; [done..|].
    change (shl32 (fall_rise false false) (q mod 16)) with (u32 (Z.shiftl 0 (q mod 16))) in E1, E2.
    rewrite Z.shiftl_0_l, Z.lor_0_r in E1, E2. rewrite E1, E2. by case_decide.
Qed.
End pins.
