(* ===== verification/GpioSession.v ===== *)
(** * Sessions on the pins

    The driver, with the pin device above it and the interrupt dispatch below, is an abstract
    board: 224 pins with independent settings, a map from pins to handlers that holds at most
    16, and 14 port interrupts.  Clients' handlers may do to the board what they like, as
    long as they are correct on the abstract one ([HandlersOk]). *)

From Stdlib Require Import ZArith Lia Bool.
From stdpp Require Import base tactics numbers list option gmap.
From S2P Require Import Prelude BitUtil RingBuf Gpio GpioTable GpioPins.

Open Scope Z_scope.

(** ** The abstract board *)

(** The settings of each pin and the level outside it, who is attached, which port
    interrupts are let through, the handlers called so far. *)
Record board : Type := mkBoard {
  cfg : Z -> pincfg;
  wire : Z -> bool;
  att : attached;
  open : Z -> bool;
  log : list (Z * Z)
}.

Definition with_cfg (f : Z -> pincfg) (b : board) : board := mkBoard f (wire b) (att b) (open b) (log b).
Definition with_wire (f : Z -> bool) (b : board) : board := mkBoard (cfg b) f (att b) (open b) (log b).
Definition with_att (m : attached) (b : board) : board := mkBoard (cfg b) (wire b) m (open b) (log b).
Definition with_open (f : Z -> bool) (b : board) : board := mkBoard (cfg b) (wire b) (att b) f (log b).
Definition with_log (l : list (Z * Z)) (b : board) : board := mkBoard (cfg b) (wire b) (att b) (open b) l.

Definition on_pin (q : Z) (f : pincfg -> pincfg) (b : board) : board := with_cfg (fset q (f (cfg b q)) (cfg b)) b.

Definition no_port (p : Z) : bool := NU_PORT_CNT <=? NU_GET_PORT p.

Definition spec_mode (p mode : Z) (b : board) : board :=
  let set d pl := on_pin (phys p) (fun c => mkPin d pl (out c) (by_level c) (on_fall c) (on_rise c) (flag c)) b in
  if no_port p then b else
  match mode with
  | 0 => on_pin (phys p) (fun c => mkPin 1 (pull c) (out c) (by_level c) (on_fall c) (on_rise c) (flag c)) b
  | 1 => set 0 0
  | 2 => set 0 1
  | 3 => set 0 2
  | 4 => set 2 0
  | _ => b
  end.

Definition spec_write (p v : Z) (b : board) : board :=
  if no_port p then b else
  on_pin (phys p) (fun c => mkPin (dir c) (pull c) (Z.testbit v 0) (by_level c) (on_fall c) (on_rise c) (flag c)) b.

Definition spec_read `{GpioEnv} (p : Z) (b : board) : Z :=
  if no_port p then 0 else let c := cfg b (phys p) in Z.b2z (sense (dir c) (out c) (wire b (phys p))).

Definition spec_attach (p mode h a : Z) (b : board) : Z * board :=
  if no_port p then (- RT_ERROR, b)
  else if bool_decide (is_Some (att b !! p) \/ (size (att b) < 16)%nat) then (RT_EOK, with_att (<[p := (u16 mode, h, a)]> (att b)) b)
  else (- RT_EBUSY, b).

Definition spec_detach (p : Z) (b : board) : Z * board :=
  if no_port p then (- RT_ERROR, b) else (RT_EOK, with_att (delete p (att b)) b).

(** Enabling sets the trigger of the pin and opens its port; disabling clears it and closes
    the port. *)
Definition spec_enable (p enabled : Z) (b : board) : Z * board :=
  if no_port p then (- RT_ERROR, b) else
  match att b !! p with
  | None => (- RT_ERROR, b)
  | Some (mode, _, _) =>
      let port := NU_GET_PORT p in
      if enabled =? 1 then
        match trigger mode with
        | Some t => (RT_EOK, with_open (fset port true (open b)) (on_pin (phys p) (set_trigger t) b))
        | None => (RT_EOK, b)
        end
      else (RT_EOK, with_open (fset port false (open b)) (on_pin (phys p) (set_trigger (false, false, false)) b))
  end.

(** What clients and the world outside do: the calls of the pin device, a new level outside
    a pin, flags that rise at a port. *)
Inductive pin_op : Type :=
| Attach (p mode h a : Z)
| Detach (p : Z)
| Enable (p enabled : Z)
| Mode (p mode : Z)
| Write (p v : Z)
| Read (p : Z)
| Level (q : Z) (l : bool)
| Raise (port w : Z).

Definition raise_flags (port w : Z) (b : board) : board :=
  with_cfg (fun q => let c := cfg b q in
    if decide (q / 16 = port) then mkPin (dir c) (pull c) (out c) (by_level c) (on_fall c) (on_rise c) (flag c || Z.testbit w (q mod 16))
    else c) b.

Definition spec_op `{GpioEnv} (o : pin_op) (b : board) : Z * board :=
  match o with
  | Attach p mode h a => spec_attach p mode h a b
  | Detach p => spec_detach p b
  | Enable p e => spec_enable p e b
  | Mode p mode => (0, spec_mode p mode b)
  | Write p v => (0, spec_write p v b)
  | Read p => (spec_read p b, b)
  | Level q l => (0, with_wire (fset q l (wire b)) b)
  | Raise port w => (0, raise_flags port w b)
  end.

Definition do_op `{GpioEnv} (o : pin_op) : GM Z :=
  match o with
  | Attach p mode h a => rt_pin_attach_irq p mode h a
  | Detach p => rt_pin_detach_irq p
  | Enable p e => rt_pin_irq_enable p e
  | Mode p mode => rt_pin_mode p mode ;; ret 0
  | Write p v => rt_pin_write p v ;; ret 0
  | Read p => rt_pin_read p
  | Level q l => modify (fun s => set_outside (fset q l (outside s)) s) ;; ret 0
  | Raise port w => upd (port_base port) INTSRC (fun x => Z.lor x (Z.land w 0xFFFF)) ;; ret 0
  end.

(** Pin numbers of 16 bits, and ports the chip has. *)
Definition op_ok (o : pin_op) : Prop :=
  match o with
  | Attach p _ _ _ | Detach p | Enable p _ | Mode p _ | Write p _ | Read p => is_i16 p
  | Level q _ => is_pin q
  | Raise port w => 0 <= port < 14 /\ 0 <= w
  end.

(** ** The relation *)

Definition irq_of (port : Z) : Z := nth (Z.to_nat port) au32GPIRQ 0.

Record board_rel (s : gpio) (b : board) : Prop := {
  br_regs : regs_ok s;
  br_table : table_ok s (att b);
  br_cfg : forall q, is_pin q -> cfg_of s q = cfg b q;
  br_wire : outside s = wire b;
  br_open : forall port, 0 <= port < 14 -> irq_open s (irq_of port) = open b port;
  br_isr : forall port, 0 <= port < 14 -> isr_param s (irq_of port) = Some (port_base port);
  br_dev : _hw_pin s = true;
  br_log : called s = log b
}.

(** Handlers that do to the abstract board what [hdr_spec] says. *)
Class HandlersOk `{GpioEnv} : Type := {
  hdr_spec : Z -> Z -> board -> board;
  hdr_ok : forall h a s b, board_rel s b -> returns (run_hdr h a) s (fun _ s' => board_rel s' (hdr_spec h a b))
}.

(** The interrupt of a port: its flagged pins in increasing order, each looked up when its
    turn comes; then the flags found at the beginning are cleared. *)
Definition serve `{HandlersOk} (b : board) (q : Z) : board :=
  match att b !! q with
  | Some (_, h, a) => if h =? 0 then b else hdr_spec h a (with_log (log b ++ [(h, a)]) b)
  | None => b
  end.

Definition flagged (port : Z) (b : board) : list Z := filter (fun q => flag (cfg b q) = true) (seqZ (port * 16) 16).

Definition clear_flags (l : list Z) (b : board) : board :=
  with_cfg (fun q => let c := cfg b q in
    if decide (q ∈ l) then mkPin (dir c) (pull c) (out c) (by_level c) (on_fall c) (on_rise c) false else c) b.

Definition spec_irq `{HandlersOk} (port : Z) (b : board) : board :=
  let l := flagged port b in clear_flags l (foldl serve b l).

(** An event: an operation, or an interrupt of a port, which is taken if it is let through. *)
Inductive event : Type := Op (o : pin_op) | Irq (port : Z).

Definition do_event `{GpioEnv} (e : event) : GM Z :=
  match e with
  | Op o => do_op o
  | Irq port =>
      let! on := gets (fun s => irq_open s (irq_of port)) in
      (if on then rt_hw_trap_irq (irq_of port) else ret tt) ;; ret 0
  end.

Definition spec_event `{HandlersOk} (e : event) (b : board) : Z * board :=
  match e with
  | Op o => spec_op o b
  | Irq port => (0, if open b port then spec_irq port b else b)
  end.

Definition event_ok (e : event) : Prop := match e with Op o => op_ok o | Irq port => 0 <= port < 14 end.

Fixpoint do_events `{GpioEnv} (es : list event) : GM (list Z) :=
  match es with
  | [] => ret []
  | e :: es' => let! r := do_event e in let! rs := do_events es' in ret (r :: rs)
  end.

Fixpoint spec_events `{HandlersOk} (es : list event) (b : board) : list Z * board :=
  match es with
  | [] => ([], b)
  | e :: es' => let (r, b1) := spec_event e b in let (rs, b2) := spec_events es' b1 in (r :: rs, b2)
  end.

(** ** Each operation implements its specification *)

Definition implements (m : GM Z) (s : gpio) (rb : Z * board) : Prop :=
  returns m s (fun r s' => r = rb.1 /\ board_rel s' rb.2).

Lemma table_ok_ext s s' m :
  pin_irq_hdr_tab s' = pin_irq_hdr_tab s -> g_u32PinIrqMask s' = g_u32PinIrqMask s -> table_ok s m -> table_ok s' m.
Proof.
  intros Ht Hm H. destruct H as [? ? Hs Hu Hi]. unfold slot, used in *.
  constructor; unfold slot, used; rewrite ?Ht, ?Hm; done.
Qed.

Lemma rel_ext s b b' :
  board_rel s b -> (forall q, is_pin q -> cfg b q = cfg b' q) -> wire b = wire b' -> att b = att b' ->
  (forall port, 0 <= port < 14 -> open b port = open b' port) -> log b = log b' -> board_rel s b'.
Proof.
  intros [] Hc Hw Ha Ho Hl. constructor; try done; try congruence.
  - intros q Hq. rewrite <-Hc; auto.
  - intros port Hp. rewrite <-Ho; auto.
Qed.

Lemma rel_sets_pin m q f s b :
  board_rel s b -> is_pin q -> sets_pin m q f -> returns m s (fun _ s' => board_rel s' (on_pin q f b)).
Proof.
  intros H Hq Hm. destruct H as [Hr Ht Hc Hw Ho Hi Hd Hl]. destruct (Hm s Hr) as (g & E & Hr' & C).
  exists tt, (set_greg g s). split; [done|]. constructor; try done.
  - by apply (table_ok_ext s).
  - intros q' Hq'. rewrite C by done. cbn. unfold fset. case_decide as Hqq; [subst; by rewrite Hc|by apply Hc].
Qed.

Lemma implements_unit (m : GM unit) s b :
  returns m s (fun _ s' => board_rel s' b) -> implements (m ;; ret 0) s (0, b).
Proof. intros H. eapply returns_bind; [exact H|]. intros [] s' Hs. by apply returns_ret. Qed.

Lemma with_ops_rel {A} (m : GM A) s b Q : board_rel s b -> returns m s Q -> returns (with_ops m) s Q.
Proof.
  intros H Hm. unfold with_ops. unfold returns in *. rewrite bind_gets, (br_dev _ _ H), bind_assert by done. done.
Qed.

Lemma port_check p : (nu_port_check p =? 0) = negb (no_port p).
Proof. unfold nu_port_check, no_port. by destruct (_ <=? _). Qed.

Lemma phys_pin p : no_port p = false -> is_pin (phys p).
Proof.
  unfold no_port, NU_PORT_CNT, is_pin, phys. intros H%Z.leb_gt.
  pose proof (NU_GET_PORT_range p). pose proof (NU_GET_PINS_range p). lia.
Qed.

Lemma port_of_phys p : port_of p = port_base (phys p / 16).
Proof. unfold port_of, port_base. by rewrite (proj1 (phys_split p)). Qed.

Lemma irq_of_znth port : 0 <= port < 14 -> znth au32GPIRQ port = Some (irq_of port).
Proof.
  intros Hp. unfold znth, irq_of. destruct (Z.ltb_spec port 0); [lia|].
  destruct (nth_lookup_or_length au32GPIRQ (Z.to_nat port) 0) as [|Hlen]; [done|]. cbn in Hlen. lia.
Qed.

(** *** Mode, level *)

Lemma pin_mode_ok s b p mode : board_rel s b -> implements (rt_pin_mode p mode ;; ret 0) s (0, spec_mode p mode b).
Proof.
  intros H. apply implements_unit, (with_ops_rel _ _ _ _ H). unfold nu_gpio_mode, spec_mode. rewrite port_check, negb_involutive.
  destruct (no_port p) eqn:Ep; [by apply returns_ret|]. cbn. pose proof (phys_pin p Ep) as Hq.
  rewrite port_of_phys. unfold NU_GET_PIN_MASK. rewrite <-(proj2 (phys_split p)).
  pose proof (set_mode_pin (phys p) Hq) as Hm. pose proof (set_pull_pin (phys p) Hq) as Hu.
  assert (Hboth : forall d pl, 0 <= d < 4 -> 0 <= pl < 4 ->
    returns (GPIO_SetMode (port_base (phys p / 16)) (bit (phys p mod 16)) d ;; GPIO_SetPullCtl (port_base (phys p / 16)) (bit (phys p mod 16)) pl) s
     (fun _ s' => board_rel s' (on_pin (phys p) (fun c => mkPin d pl (out c) (by_level c) (on_fall c) (on_rise c) (flag c)) b))).
  { intros d pl Hd Hpl. eapply rel_sets_pin; [done..|]. by apply (seq_sets_pin _ _ _ _ _ (Hm d Hd) (Hu pl Hpl)). }
  destruct mode as [|[[p'|p'|]|[p'|[p'|p'|]|]|]|p']; try (by apply returns_ret); cbn; try (apply Hboth; lia).
  eapply rel_sets_pin; [done..|]. by apply Hm.
Qed.

Lemma pin_write_ok s b p v : board_rel s b -> implements (rt_pin_write p v ;; ret 0) s (0, spec_write p v b).
Proof.
  intros H. apply implements_unit, (with_ops_rel _ _ _ _ H). unfold nu_gpio_write, spec_write. rewrite port_check, negb_involutive.
  destruct (no_port p) eqn:Ep; [by apply returns_ret|]. pose proof (phys_pin p Ep) as Hq.
  eapply rel_sets_pin; [done..|]. rewrite <-(proj1 (phys_split p)), <-(proj2 (phys_split p)). by apply write_data_pin.
Qed.

Section env.
Context `{GE : GpioEnv}.

Lemma pin_read_ok s b p : board_rel s b -> implements (rt_pin_read p) s (spec_read p b, b).
Proof.
  intros H. apply (with_ops_rel _ _ _ _ H). unfold nu_gpio_read, spec_read. rewrite port_check, negb_involutive.
  destruct (no_port p) eqn:Ep; [by apply returns_ret|]. pose proof (phys_pin p Ep) as Hq.
  eexists _, s. split; [reflexivity|]. split; [|done]. cbn. rewrite <-(br_cfg _ _ H), <-(br_wire _ _ H) by done.
  unfold cfg_of. destruct (phys_split p) as [-> ->]. done.
Qed.

(** *** Attaching and detaching *)

Lemma rel_table s s' b m :
  board_rel s b -> table_ok s' m -> greg s' = greg s -> outside s' = outside s -> irq_open s' = irq_open s ->
  isr_param s' = isr_param s -> _hw_pin s' = _hw_pin s -> called s' = called s -> board_rel s' (with_att m b).
Proof.
  intros [Hr Ht Hc Hw Ho Hi Hd Hl] Hm E1 E2 E3 E4 E5 E6.
  constructor; cbn; rewrite ?E2, ?E3, ?E4, ?E5, ?E6; try done.
  - intros a r. rewrite E1. apply Hr.
  - intros q Hq. unfold cfg_of. rewrite E1. by apply Hc.
Qed.

Lemma attach_ok s b p mode h a :
  board_rel s b -> is_i16 p -> implements (rt_pin_attach_irq p mode h a) s (spec_attach p mode h a b).
Proof.
  intros H Hp. apply (with_ops_rel _ _ _ _ H). unfold nu_gpio_attach_irq, spec_attach. rewrite port_check, negb_involutive.
  destruct (no_port p) eqn:Ep; [by apply returns_ret|].
  pose proof (br_table _ _ H) as Ht. pose proof (find_spec s (att b) p Ht Hp) as Hf.
  set (e := mkHdr (i16 p) (u16 mode) h a). assert (He : hdr_pin e = p) by (cbn; by apply i16_small).
  assert (Hput : forall i, 0 <= i < 16 -> (exists v, slot s i p v) \/ ((i ∉ used s) /\ att b !! p = None) ->
    implements (let! tab := gets pin_irq_hdr_tab in let! _ := deref (znth tab i) in
       modify (set_tab (zupd tab i e)) ;; modify (fun s => set_mask (Z.lor (g_u32PinIrqMask s) (bit i)) s) ;; ret RT_EOK) s
      (RT_EOK, with_att (<[p := (u16 mode, h, a)]> (att b)) b)).
  { intros i Hi Hc. destruct (znth_in_range (pin_irq_hdr_tab s) i) as [e0 He0]; [rewrite (to_len _ _ Ht); lia|].
    exists RT_EOK, (put_slot i e s). split; [rewrite bind_gets, (bind_deref _ e0) by done; reflexivity|]. split; [done|].
    cbn [snd]. eapply rel_table; try done.
    change (u16 mode, h, a) with (entry_val e). rewrite <-He. apply put_slot_ok; [done|done|by rewrite He|by rewrite He]. }
  destruct (att b !! p) as [v|] eqn:Ea.
  - destruct Hf as (i & Hs & Hf). assert (Hi : 0 <= i < 16) by (destruct Hs as [Hi _]; apply elem_of_used in Hi; lia).
    rewrite bool_decide_eq_true_2 by (left; eauto). destruct (Hput i Hi) as (r & s' & E & Q); [eauto|].
    exists r, s'. split; [|done]. rewrite (bind_Ret _ _ _ _ _ Hf), bind_gets. destruct (Z.leb_spec 0 i); [|lia]. exact E.
  - unfold implements, returns. rewrite (bind_Ret _ _ _ _ _ Hf), bind_gets. change (0 <=? - RT_ERROR) with false. cbn [orb].
    destruct (cto_free s (att b) Ht) as [(Hlt & H0 & Hn & Hsz)|(Hge & Hsz)].
    + rewrite bool_decide_eq_true_2 by (right; lia).
      change (IRQ_MAX_NUM) with 16. destruct (Z.ltb_spec (nu_cto (g_u32PinIrqMask s)) 16); [|lia].
      apply (Hput (nu_cto (g_u32PinIrqMask s))); [lia|by right].
    + rewrite bool_decide_eq_false_2 by (intros [[? [=]]|?]; lia).
      change (IRQ_MAX_NUM) with 16. destruct (Z.ltb_spec (nu_cto (g_u32PinIrqMask s)) 16); [lia|].
      by exists (- RT_EBUSY), s.
Qed.

Lemma detach_ok s b p : board_rel s b -> is_i16 p -> implements (rt_pin_detach_irq p) s (spec_detach p b).
Proof.
  intros H Hp. apply (with_ops_rel _ _ _ _ H). unfold nu_gpio_detach_irq, spec_detach. rewrite port_check, negb_involutive.
  destruct (no_port p) eqn:Ep; [by apply returns_ret|]. pose proof (br_table _ _ H) as Ht.
  unfold implements, returns. rewrite bind_gets, detach_flags by (by eapply mask_u32).
  destruct (detach_foldr s p (used s)) as [(i & e & Hi & He & <- & Hr)|(Hn & Hr)].
  { intros i Hi. destruct (used_entry _ _ _ Ht Hi) as (e & He & _). eauto. }
  - exists RT_EOK, (drop_slot i s). split; [by rewrite (bind_Ret _ _ _ _ _ Hr)|]. split; [done|].
    eapply rel_table; try done. eapply drop_slot_ok; [done|]. split; eauto.
  - exists RT_EOK, s. split; [by rewrite (bind_Ret _ _ _ _ _ Hr)|]. split; [done|]. cbn [snd].
    rewrite delete_id; [by eapply rel_table|]. destruct (att b !! p) as [v|] eqn:E; [|done].
    apply (to_slot _ _ Ht) in E as (_ & i & Hi & e & He & Hpe & _). by destruct (Hn i e).
Qed.
(** *** Interrupts of a pin *)

Lemma irq_of_inj port port' : 0 <= port < 14 -> 0 <= port' < 14 -> irq_of port = irq_of port' -> port = port'.
Proof.
  intros Hp Hp' E. pose proof (irq_of_znth port Hp) as H1. pose proof (irq_of_znth port' Hp') as H2.
  rewrite E in H1. unfold znth in H1, H2. destruct (Z.ltb_spec port 0), (Z.ltb_spec port' 0); try lia.
  assert (Hnd : NoDup au32GPIRQ) by (apply (bool_decide_unpack _); reflexivity).
  pose proof (NoDup_lookup _ _ _ _ Hnd H1 H2). lia.
Qed.

(** The port's interrupt masked or unmasked. *)
Lemma open_ok v port s b :
  board_rel s b -> 0 <= port < 14 ->
  board_rel (set_irq_open (fset (irq_of port) v (irq_open s)) s) (with_open (fset port v (open b)) b).
Proof.
  intros [Hr Ht Hc Hw Ho Hi Hd Hl] Hp. constructor; try done.
  - by apply (table_ok_ext s).
  - intros port' Hp'. cbn. unfold fset. case_decide as E; case_decide as E'; try done.
    + destruct E'. by apply irq_of_inj.
    + destruct E. by rewrite E'.
    + by apply Ho.
Qed.

Lemma enable_ok s b p e : board_rel s b -> is_i16 p -> implements (rt_pin_irq_enable p e) s (spec_enable p e b).
Proof.
  intros H Hp. apply (with_ops_rel _ _ _ _ H). unfold nu_gpio_irq_enable, spec_enable. rewrite port_check, negb_involutive.
  destruct (no_port p) eqn:Ep; [by apply returns_ret|]. pose proof (br_table _ _ H) as Ht.
  pose proof (find_spec s (att b) p Ht Hp) as Hf. pose proof (phys_pin p Ep) as Hq.
  assert (Hport : 0 <= NU_GET_PORT p < 14) by (apply Z.leb_gt in Ep; pose proof (NU_GET_PORT_range p); unfold NU_PORT_CNT in Ep; lia).
  destruct (att b !! p) as [[[mode h] a]|] eqn:Ea.
  2: { eapply returns_run; [exact Hf|]. by apply returns_ret. }
  destruct Hf as (i & Hs & Hf). assert (Hi : 0 <= i < 16) by (destruct Hs as [Hi _]; apply elem_of_used in Hi; lia).
  destruct Hs as (_ & e0 & He & _ & [= Hm Hh Hargs]).
  eapply returns_run; [exact Hf|]. destruct (Z.eqb_spec i (- RT_ERROR)); [unfold RT_ERROR in *; lia|].
  eapply returns_deref; [by apply irq_of_znth|]. unfold PIN_IRQ_ENABLE.
  rewrite port_of_phys, <-(proj2 (phys_split p)). destruct (e =? 1).
  - eapply returns_run; [reflexivity|]. eapply returns_deref; [exact He|]. rewrite Hm.
    destruct (trigger mode) as [t|] eqn:Etr.
    + destruct (enable_pin (phys p) Hq mode t Etr) as (at_ & -> & Hset).
      eapply returns_bind; [by eapply rel_sets_pin|]. intros [] s' Hs'.
      eexists _, _. split; [reflexivity|]. split; [done|]. exact (open_ok true _ s' _ Hs' Hport).
    + pose proof (int_attribs_trigger mode) as Hn. rewrite Etr in Hn. rewrite Hn. by apply returns_ret.
  - eapply returns_bind; [eapply rel_sets_pin; [done..|]; by apply disable_pin|].
    intros [] s' Hs'. eexists _, _. split; [reflexivity|]. split; [done|]. exact (open_ok false _ s' _ Hs' Hport).
Qed.

(** *** Flags of a port *)

Lemma rel_upd_port port r f (g : Z -> pincfg -> pincfg) s b :
  board_rel s b -> 0 <= port < 14 -> (forall x, is_u32 x -> is_u32 (f x)) ->
  (forall regs i, (forall r', is_u32 (regs r')) -> 0 <= i < 16 -> pin_of_regs (fset r (f (regs r)) regs) i = g i (pin_of_regs regs i)) ->
  returns (upd (port_base port) r f) s (fun _ s' => board_rel s'
    (with_cfg (fun q => if decide (q / 16 = port) then g (q mod 16) (cfg b q) else cfg b q) b)).
Proof.
  intros [Hr Ht Hc Hw Ho Hi Hd Hl] Hp Hu Hf. unfold upd, rdp, wrp. eexists tt, _. split; [reflexivity|].
  constructor; try done.
  - by apply set_port_reg_ok, Hu.
  - by apply (table_ok_ext s).
  - intros q Hq. unfold cfg_of. cbn. unfold fset at 1. rewrite <-Hc by done. case_decide as E.
    + apply port_base_inj in E. rewrite decide_True by done. unfold cfg_of. rewrite E, Hf; [done|done|by apply Z.mod_pos_bound].
    + rewrite decide_False; [done|]. intros Hqp. apply E. by rewrite Hqp.
Qed.

Lemma raise_ok s b port w :
  board_rel s b -> 0 <= port < 14 -> 0 <= w -> implements (do_op (Raise port w)) s (0, raise_flags port w b).
Proof.
  intros H Hp Hw. apply implements_unit.
  eapply returns_mono.
  - apply (rel_upd_port port INTSRC _ (fun i c => mkPin (dir c) (pull c) (out c) (by_level c) (on_fall c) (on_rise c) (flag c || Z.testbit w i)) s b H Hp).
    + intros x Hx. apply lor_u32; [done|]. apply bits_is_u32; [apply Z.land_nonneg; lia|].
      intros i Hi. change 0xFFFF with (Z.ones 16). rewrite Z.land_spec, testbit_ones by lia.
      destruct (Z.ltb_spec i 16); [lia|apply andb_false_r].
    + intros regs i Hr Hi. unfold pin_of_regs. rewrite fset_eq, !fset_ne by done. cbn. f_equal.
      change 0xFFFF with (Z.ones 16). rewrite Z.lor_spec, Z.land_spec, testbit_ones by lia.
      destruct (Z.ltb_spec i 16); [|lia]. by rewrite andb_true_r.
  - intros [] s' Hs'. done.
Qed.

End env.

(** ** The interrupt of a port *)

Section irq.
Context `{GE : GpioEnv} `{HO : !HandlersOk}.

Definition irq_body (pinindex i : Z) (rest : GM unit) : GM unit :=
  let! irqindex := nu_find_irqindex (u32 (pinindex + i)) in
  (if negb (irqindex =? - RT_ERROR) then
     let! tab := gets pin_irq_hdr_tab in
     let! e := deref (znth tab irqindex) in
     if negb (hdr e =? 0) then call_hdr (hdr e) (hdr_args e) else ret tt
   else ret tt) ;;
  rest.

Lemma irq_flags v port :
  is_u32 v -> pin_irq_hdr v port = foldr (irq_body (port * 16)) (ret tt) (flags GPIO_PIN_MAX v).
Proof. intros Hv. apply (ctz_loop (fun f w => pin_irq_loop f w (port * 16)) (irq_body (port * 16))); done. Qed.

(** One flagged pin. *)
Lemma serve_ok s b port i rest Q :
  board_rel s b -> 0 <= port < 14 -> 0 <= i < 16 ->
  (forall s', board_rel s' (serve b (port * 16 + i)) -> returns rest s' Q) ->
  returns (irq_body (port * 16) i rest) s Q.
Proof.
  intros H Hp Hi Hrest. pose proof (br_table _ _ H) as Ht.
  assert (Hq : is_i16 (port * 16 + i)) by (unfold is_i16; lia).
  pose proof (find_spec s (att b) _ Ht Hq) as Hf. unfold irq_body, serve in *.
  destruct (att b !! (port * 16 + i)) as [[[mode h] a]|].
  - destruct Hf as (j & (Hu & e & He & _ & [= Hm Hh Ha]) & Hf). apply elem_of_used in Hu.
    eapply returns_run; [exact Hf|]. destruct (Z.eqb_spec j (- RT_ERROR)); [unfold RT_ERROR in *; lia|]. cbn [negb].
    apply (returns_bind _ _ _ (fun _ s' => board_rel s' (if h =? 0 then b else hdr_spec h a (with_log (log b ++ [(h, a)]) b))));
      [|intros [] s'; apply Hrest].
    eapply returns_run; [reflexivity|]. eapply returns_deref; [exact He|]. rewrite Hh, Ha.
    destruct (h =? 0); cbn [negb]; [by apply returns_ret|].
    eapply returns_run; [reflexivity|]. apply hdr_ok.
    destruct H as [Hr _ Hc Hw Ho Hisr Hd Hl]. constructor; try done; [by apply (table_ok_ext s)|]. cbn. by rewrite Hl.
  - eapply returns_run; [exact Hf|]. rewrite Z.eqb_refl. cbn [negb]. eapply returns_run; [reflexivity|]. by apply Hrest.
Qed.

Lemma serve_all_ok port l s b :
  board_rel s b -> 0 <= port < 14 -> (forall i, i ∈ l -> 0 <= i < 16) ->
  returns (foldr (irq_body (port * 16)) (ret tt) l) s (fun _ s' => board_rel s' (foldl serve b (Z.add (port * 16) <$> l))).
Proof.
  intros H Hp. revert s b H. induction l as [|i l IH]; intros s b H Hl; cbn [foldr foldl fmap list_fmap].
  - by apply returns_ret.
  - eapply serve_ok; [done|done|apply Hl; left|]. intros s' Hs'. apply IH; [done|]. intros j Hj. apply Hl. by right.
Qed.

(** The flags read are those of the pins. *)
Lemma flagged_flags s b port :
  board_rel s b -> 0 <= port < 14 ->
  flagged port b = Z.add (port * 16) <$> flags 16 (greg s (port_base port) INTSRC).
Proof.
  intros H Hp. unfold flagged, flags, flags_from.
  replace (seqZ (port * 16) 16) with (Z.add (port * 16) <$> seqZ 0 16) by (rewrite fmap_add_seqZ; f_equal; lia).
  assert (Hl : forall i, i ∈ seqZ 0 16 -> flag (cfg b (port * 16 + i)) = Z.testbit (greg s (port_base port) INTSRC) i).
  { intros i Hi%elem_of_seqZ. rewrite <-(br_cfg _ _ H) by (unfold is_pin; lia). unfold cfg_of.
    replace ((port * 16 + i) / 16) with port by (Z.div_mod_to_equations; lia).
    replace ((port * 16 + i) mod 16) with i by (Z.div_mod_to_equations; lia). done. }
  rewrite Z.sub_0_r. induction (seqZ 0 16) as [|i l IH]; [done|]. cbn [fmap list_fmap].
  rewrite !filter_cons, (Hl i) by left.
  case_decide; cbn [fmap list_fmap]; [f_equal|]; apply IH; intros j Hj; apply Hl; by right.
Qed.

Lemma irq_ok s b port :
  board_rel s b -> 0 <= port < 14 -> returns (rt_hw_trap_irq (irq_of port)) s (fun _ s' => board_rel s' (spec_irq port b)).
Proof.
  intros H Hp. eapply returns_run; [reflexivity|]. rewrite (br_isr _ _ H) by done.
  eapply returns_run; [reflexivity|]. set (v := greg s (port_base port) INTSRC).
  assert (Hv : is_u32 v) by apply (br_regs _ _ H).
  replace (u32 (port_base port - GPIOA_BASE) / PORT_OFFSET) with port
    by (unfold u32, port_base, GPIOA_BASE, PORT_OFFSET; rewrite Z.mod_small by lia; Z.div_mod_to_equations; lia).
  rewrite irq_flags by done. pose proof (flagged_flags s b port H Hp) as Hl.
  apply (returns_bind _ _ _ (fun _ s' => board_rel s' (foldl serve b (flagged port b)))).
  { rewrite Hl. apply serve_all_ok; [done..|]. intros i [Hi _]%elem_of_flags. done. }
  intros [] s' Hs'. unfold write_INTSRC. set (b' := foldl serve b (flagged port b)) in *.
  eapply returns_mono.
  - apply (rel_upd_port port INTSRC _ (fun i c => mkPin (dir c) (pull c) (out c) (by_level c) (on_fall c) (on_rise c) (flag c && negb (Z.testbit v i))) s' b' Hs' Hp).
    + intros x Hx. apply land_u32_l; [done|apply not32_u32].
    + intros regs i Hr Hi. unfold pin_of_regs. rewrite fset_eq, !fset_ne by done. cbn. f_equal.
      rewrite Z.land_spec, testbit_not32 by lia. destruct (Z.ltb_spec i 32); [done|lia].
  - intros [] s2 Hs2. eapply rel_ext; [exact Hs2| |done..]. intros q Hq. cbn. fold b'.
    assert (Hmem : q ∈ flagged port b <-> q / 16 = port /\ Z.testbit v (q mod 16) = true).
    { rewrite Hl, list_elem_of_fmap. setoid_rewrite elem_of_flags. fold v. split.
      - intros (i & -> & Hi & Hb). replace ((port * 16 + i) / 16) with port by (Z.div_mod_to_equations; lia).
        by replace ((port * 16 + i) mod 16) with i by (Z.div_mod_to_equations; lia).
      - intros [Hqp Hb]. exists (q mod 16). split; [Z.div_mod_to_equations; lia|]. split; [by apply Z.mod_pos_bound|done]. }
    case_decide as E1; case_decide as E2; rewrite Hmem in E2.
    + destruct E2 as [_ ->]. cbn. by rewrite andb_false_r.
    + destruct (Z.testbit v (q mod 16)); [by destruct E2|]. cbn. rewrite andb_true_r. by destruct (cfg b' q).
    + by destruct E2.
    + done.
Qed.

(** ** Events *)

Lemma op_ok_spec o s b : board_rel s b -> op_ok o -> implements (do_op o) s (spec_op o b).
Proof.
  intros H Ho. destruct o; cbn [do_op spec_op]; cbn in Ho.
  - by apply attach_ok.
  - by apply detach_ok.
  - by apply enable_ok.
  - by apply pin_mode_ok.
  - by apply pin_write_ok.
  - by apply pin_read_ok.
  - apply implements_unit. eexists tt, _. split; [reflexivity|]. destruct H as [Hr Ht Hc Hw Hop Hi Hd Hl]. constructor; try done.
    + by apply (table_ok_ext s).
    + cbn. congruence.
  - destruct Ho. by apply raise_ok.
Qed.

Lemma event_ok_spec e s b : board_rel s b -> event_ok e -> implements (do_event e) s (spec_event e b).
Proof.
  intros H He. destruct e as [o|port]; [by apply op_ok_spec|]. cbn [do_event spec_event]. cbn in He.
  eapply returns_run; [reflexivity|]. rewrite (br_open _ _ H) by done.
  apply implements_unit. destruct (open b port); [by apply irq_ok|by apply returns_ret].
Qed.

Lemma events_ok_spec es s b :
  board_rel s b -> Forall event_ok es ->
  returns (do_events es) s (fun rs s' => rs = (spec_events es b).1 /\ board_rel s' (spec_events es b).2).
Proof.
  intros H Hes. revert s b H. induction Hes as [|e es He Hes IH]; intros s b H; [by apply returns_ret|].
  cbn [do_events spec_events]. destruct (spec_event e b) as [r b1] eqn:E1.
  eapply returns_bind; [by apply event_ok_spec|]. rewrite E1. intros r' s1 [-> H1]. cbn [fst snd] in *.
  eapply returns_bind; [by apply IH|]. intros rs s2 [-> H2].
  destruct (spec_events es b1) as [rs b2]. by apply returns_ret.
Qed.
End irq.
