(* ===== verification/GpioIrq.v ===== *)
(** * Pins from boot on

    After [rt_hw_gpio_init] every session of clients, of the world outside and of interrupts
    is the session on the abstract board; and what disabling and detaching leave behind. *)

From Stdlib Require Import ZArith Lia Bool.
From stdpp Require Import base tactics numbers list option gmap.
From S2P Require Import Prelude BitUtil RingBuf Gpio GpioTable GpioPins GpioSession.

Open Scope Z_scope.

(** ** Initialisation *)

(** Before it: no entry of the table is used. *)
Definition boot_state (s : gpio) : Prop :=
  regs_ok s /\ length (pin_irq_hdr_tab s) = 16%nat /\ g_u32PinIrqMask s = 0.

Definition board0 (s : gpio) : board :=
  mkBoard (cfg_of s) (outside s) ∅ (fun port => irq_open s (irq_of port)) (called s).

Lemma empty_table s : length (pin_irq_hdr_tab s) = 16%nat -> g_u32PinIrqMask s = 0 -> table_ok s ∅.
Proof.
  intros Hl Hm. assert (Hn : forall i, i ∉ used s) by (intros i; rewrite elem_of_used, Hm, Z.bits_0; by intros [_ ?]).
  constructor; [done|by rewrite Hm| |by intros i Hi%Hn|by intros i j p v w [Hi%Hn _]].
  intros p v. rewrite lookup_empty. split; [done|]. by intros (_ & i & Hi%Hn & _).
Qed.

Lemma init_table s :
  length (pin_irq_hdr_tab s) = 16%nat ->
  returns (for_each (seqZ 0 IRQ_MAX_NUM) (fun irqindex =>
    let! tab := gets pin_irq_hdr_tab in let! _ := deref (znth tab irqindex) in
    modify (set_tab (zupd tab irqindex no_hdr)))) s
    (fun _ s' => length (pin_irq_hdr_tab s') = 16%nat /\ s' = set_tab (pin_irq_hdr_tab s') s).
Proof.
  intros Hl. apply (for_each_returns _ (fun _ s' => length (pin_irq_hdr_tab s') = 16%nat /\ s' = set_tab (pin_irq_hdr_tab s') s)).
  - intros pre i post s1 Hs [Hl1 E]. eapply returns_run; [reflexivity|].
    assert (Hi : i ∈ seqZ 0 IRQ_MAX_NUM) by (rewrite Hs, elem_of_app, elem_of_cons; auto).
    apply elem_of_seqZ in Hi. unfold IRQ_MAX_NUM in Hi.
    destruct (znth_in_range (pin_irq_hdr_tab s1) i) as [e He]; [lia|]. eapply returns_deref; [exact He|].
    eexists tt, _. split; [reflexivity|]. cbn. rewrite length_zupd. split; [done|]. by rewrite E.
  - split; [done|]. by destruct s.
Qed.

Lemma init_isr s :
  returns (for_each (seqZ 0 NU_PORT_CNT) (fun i =>
    let! irqn := deref (znth au32GPIRQ i) in rt_hw_interrupt_install irqn (GPIOA_BASE + i * PORT_OFFSET))) s
    (fun _ s' => (forall port, 0 <= port < 14 -> isr_param s' (irq_of port) = Some (port_base port)) /\
                 s' = set_isr_param (isr_param s') s).
Proof.
  eapply returns_mono.
  - apply (for_each_returns _ (fun pre s' => (forall port, port ∈ pre -> 0 <= port < 14 /\ isr_param s' (irq_of port) = Some (port_base port)) /\
                 s' = set_isr_param (isr_param s') s)).
    + intros pre i post s1 Hs [Hp E].
      assert (Hi : i ∈ seqZ 0 NU_PORT_CNT) by (rewrite Hs, elem_of_app, elem_of_cons; auto).
      apply elem_of_seqZ in Hi. unfold NU_PORT_CNT in Hi. assert (Hi14 : 0 <= i < 14) by lia.
      eapply returns_deref; [by apply irq_of_znth|]. unfold rt_hw_interrupt_install.
      assert (Hlt : irq_of i < MAX_HANDLERS).
      { pose proof (irq_of_znth i Hi14) as Hz. apply (Forall_znth (fun v => v < MAX_HANDLERS) _ _ _) in Hz; [done|].
        repeat constructor. }
      apply Z.ltb_lt in Hlt. rewrite Hlt. eexists tt, _. split; [reflexivity|]. split; [|cbn; by rewrite E].
      intros port [Hport|Hport%list_elem_of_singleton]%elem_of_app; cbn; unfold fset.
      * destruct (Hp port Hport) as [Hr Hisr]. split; [done|]. case_decide as Eq; [|done].
        apply irq_of_inj in Eq; [by subst|done|done].
      * subst port. split; [done|]. by rewrite decide_True.
    + split; [|by destruct s]. intros port Hport. by apply not_elem_of_nil in Hport.
  - intros _ s' [Hp E]. split; [|done]. intros port Hr. apply Hp, elem_of_seqZ. unfold NU_PORT_CNT. lia.
Qed.

Lemma init_ok s : boot_state s -> implements rt_hw_gpio_init s (0, board0 s).
Proof.
  intros (Hr & Hl & Hm). eapply returns_bind; [by apply init_table|]. intros [] s1 [Hl1 E1].
  eapply returns_bind; [apply init_isr|]. intros [] s2 [Hi E2].
  eexists 0, _. split; [reflexivity|]. split; [done|]. rewrite E2, E1 in *.
  constructor; try done. apply empty_table; [done|]. by cbn.
Qed.

(** ** Handlers that are programs *)

Section programs.
Context (sense0 : Z -> bool -> bool -> bool) (prog : Z -> Z -> list pin_op).
Context (prog_ok : forall h a, Forall op_ok (prog h a)).

Definition bare_env : GpioEnv := {| sense := sense0; run_hdr := fun _ _ => ret tt |}.

(** Each handler makes its list of calls. *)
Definition prog_env : GpioEnv :=
  {| sense := sense0; run_hdr := fun h a => for_each (prog h a) (fun o => @do_op bare_env o ;; ret tt) |}.

Definition prog_spec (h a : Z) (b : board) : board := foldl (fun b o => (@spec_op bare_env o b).2) b (prog h a).

Lemma prog_handlers_ok h a s b :
  board_rel s b -> returns (@run_hdr prog_env h a) s (fun _ s' => board_rel s' (prog_spec h a b)).
Proof.
  cbn. unfold prog_spec. pose proof (prog_ok h a) as Ho. revert s b. induction Ho as [|o l Ho Hl IH]; intros s b H.
  - by apply returns_ret.
  - cbn [for_each foldl]. apply (returns_bind _ _ _ (fun _ s' => board_rel s' (@spec_op bare_env o b).2)); [|intros [] s1; apply IH].
    eapply returns_bind; [by apply (@op_ok_spec bare_env)|]. intros r s1 [_ H1]. by apply returns_ret.
Qed.

Definition prog_handlers : @HandlersOk prog_env := @Build_HandlersOk prog_env prog_spec prog_handlers_ok.
End programs.

(** ** Sessions *)

(** C29: the pins as an abstract board.  After [rt_hw_gpio_init], any sequence of calls of
    the pin device (attach, detach, enable, disable, mode, write, read), of changes outside,
    of flags that rise and of port interrupts returns, gives what the abstract board gives,
    and leaves a state that stands for it: each call changes the settings of its own pin
    alone (disabling, the interrupt of its port too), at most 16 pins have handlers, and an
    interrupt calls the handlers of the flagged pins in increasing order, each as attached
    when its turn comes, whatever the handlers do to the board, and then clears exactly the
    flags it found. *)
Theorem gpio_sessions `{GE : GpioEnv} `{HO : !HandlersOk} (s : gpio) (es : list event) :
  boot_state s -> Forall event_ok es ->
  returns (let! r := rt_hw_gpio_init in let! rs := do_events es in ret (r, rs)) s (fun x s' =>
    x = (0, (spec_events es (board0 s)).1) /\ board_rel s' (spec_events es (board0 s)).2 /\
    (size (att (spec_events es (board0 s)).2) <= 16)%nat).
Proof.
  intros Hs Hes. eapply returns_bind; [by apply init_ok|]. intros r s1 [-> H1].  cbn [snd] in H1.
  eapply returns_bind; [by apply events_ok_spec|]. intros rs s2 [-> H2].
  apply returns_ret. split_and!; [done|done|]. rewrite (size_attached _ _ (br_table _ _ H2)).
  etrans; [apply length_filter|done].
Qed.

(** A button that detaches its pin when pressed, beside a pin whose handler writes an LED. *)
Definition button_prog (h a : Z) : list pin_op :=
  if h =? 100 then [Detach 191; Write 24 1] else if h =? 200 then [Write 24 0; Raise 11 1] else [].

Lemma button_prog_ok h a : Forall op_ok (button_prog h a).
Proof. unfold button_prog. repeat case_match; repeat constructor; try done; lia. Qed.

Definition plain_sense (mode : Z) (o l : bool) : bool := if mode =? 1 then o else if mode =? 2 then o && l else l.

Definition rest_state : gpio :=
  mkGpio (fun _ _ => 0) (fun _ => true) (replicate 16 (mkHdr 0 0 0 0)) 0 (fun _ => false) (fun _ => None) false [].

(** The second flag of the button finds no handler, the one that rose meanwhile stays. *)
Definition button_session : list event :=
  [Op (Mode 24 0); Op (Mode 191 2); Op (Attach 191 1 100 191); Op (Enable 191 1);
   Op (Attach 176 2 200 0); Op (Enable 176 1); Op (Raise 11 0x8001); Irq 11; Op (Read 24);
   Op (Enable 191 1); Op (Raise 11 0x8000); Irq 11; Op (Attach 224 0 1 1)].

Lemma gpio_sessions_witness :
  let GE := prog_env plain_sense button_prog in
  let HO := prog_handlers plain_sense button_prog button_prog_ok in
  (spec_events button_session (board0 rest_state)).1 = [0; 0; 0; 0; 0; 0; 0; 0; 1; -1; 0; 0; -1] /\
  log (spec_events button_session (board0 rest_state)).2 = [(200, 0); (100, 191)] /\
  returns (let! r := rt_hw_gpio_init in let! rs := do_events button_session in ret (r, rs)) rest_state (fun x s' =>
    x = (0, (spec_events button_session (board0 rest_state)).1) /\ board_rel s' (spec_events button_session (board0 rest_state)).2 /\
    (size (att (spec_events button_session (board0 rest_state)).2) <= 16)%nat).
Proof.
  intros GE HO. split; [vm_compute; reflexivity|]. split; [vm_compute; reflexivity|].
  apply (gpio_sessions (HO := HO) rest_state button_session).
  - split_and!; [by intros a r|done|done].
  - repeat constructor; done.
Defined.

(** ** What disabling and detaching leave *)

Section leftovers.
Context `{GE : GpioEnv} `{HO : !HandlersOk}.

Lemma pin_has_port p : is_pin p -> no_port p = false /\ phys p = p /\ NU_GET_PORT p = p / 16.
Proof.
  unfold is_pin. intros Hp. assert (Hq : phys p = p) by (apply phys_small; lia).
  destruct (phys_split p) as [E _]. rewrite Hq in E. split_and!; [|done|done].
  unfold no_port, NU_PORT_CNT. rewrite <-E. apply Z.leb_gt. Z.div_mod_to_equations. lia.
Qed.

Lemma spec_attach_room p m h a b :
  is_pin p -> (size (att b) < 16)%nat -> spec_attach p m h a b = (0, with_att (<[p := (u16 m, h, a)]> (att b)) b).
Proof.
  intros Hp Hs. unfold spec_attach. destruct (pin_has_port p Hp) as (-> & _). by rewrite bool_decide_eq_true_2 by auto.
Qed.

Lemma spec_enable_attached p e m h a t b :
  is_pin p -> att b !! p = Some (m, h, a) -> trigger m = Some t ->
  spec_enable p e b =
    (0, if e =? 1 then with_open (fset (p / 16) true (open b)) (on_pin p (set_trigger t) b)
        else with_open (fset (p / 16) false (open b)) (on_pin p (set_trigger (false, false, false)) b)).
Proof.
  intros Hp Ha Ht. unfold spec_enable. destruct (pin_has_port p Hp) as (-> & -> & ->). rewrite Ha, Ht. by destruct (e =? 1).
Qed.

Lemma valid_mode m : 0 <= m < 5 -> exists t, trigger (u16 m) = Some t.
Proof.
  intros Hm. replace (u16 m) with m by (unfold u16; rewrite Z.mod_small; lia).
  assert (m = 0 \/ m = 1 \/ m = 2 \/ m = 3 \/ m = 4) as [->|[->|[->|[->| ->]]]] by lia; cbn; eauto.
Qed.

Definition armed (c : pincfg) : bool := on_fall c || on_rise c.

Lemma trigger_armed m t c : trigger m = Some t -> armed (set_trigger t c) = true.
Proof. destruct m as [|[[p|p|]|[p|[p|p|]|]|]|p]; cbn; by intros [= <-]. Qed.

(** Two enabled pins of a port, the second disabled again, the first rising. *)
Definition deaf_session (p q mp mq hp hq ap aq : Z) : list event :=
  [Op (Attach p mp hp ap); Op (Enable p 1); Op (Attach q mq hq aq); Op (Enable q 1); Op (Enable q 0);
   Op (Raise (p / 16) (bit (p mod 16))); Irq (p / 16)].

Definition forgotten_session (p mp hp ap : Z) : list event :=
  [Op (Attach p mp hp ap); Op (Enable p 1); Op (Detach p); Op (Enable p 0)].

Lemma spec_deaf b p q mp mq hp hq ap aq :
  is_pin p -> is_pin q -> p <> q -> p / 16 = q / 16 -> (size (att b) < 15)%nat -> 0 <= mp < 5 -> 0 <= mq < 5 ->
  let x := spec_events (deaf_session p q mp mq hp hq ap aq) b in
  x.1 = [0; 0; 0; 0; 0; 0; 0] /\ log x.2 = log b /\
  armed (cfg x.2 p) = true /\ flag (cfg x.2 p) = true /\ open x.2 (p / 16) = false.
Proof.
  intros Hp Hq Hpq Hport Hsz Hmp Hmq.
  destruct (valid_mode mp Hmp) as [tp Htp], (valid_mode mq Hmq) as [tq Htq].
  cbn [spec_events spec_event spec_op deaf_session]. rewrite spec_attach_room by (done || lia).
  rewrite (spec_enable_attached p 1 (u16 mp) hp ap tp) by (done || apply lookup_insert_eq).
  rewrite spec_attach_room by (done || (cbn; rewrite map_size_insert; case_match; cbn; lia)).
  rewrite (spec_enable_attached q 1 (u16 mq) hq aq tq) by (done || apply lookup_insert_eq).
  rewrite (spec_enable_attached q 0 (u16 mq) hq aq tq) by (done || apply lookup_insert_eq).
  cbn -[armed]. rewrite !Hport, !fset_eq. cbn -[armed]. rewrite (fset_ne q p) by done. rewrite (fset_ne q p) by done.
  rewrite fset_eq, decide_True by done. rewrite fset_eq.
  split_and!; try done; [by apply (trigger_armed (u16 mp))|]. cbn. rewrite testbit_bit by (apply Z.mod_pos_bound; lia).
  by rewrite Z.eqb_refl, orb_true_r.
Qed.

Lemma spec_forgotten b p mp hp ap :
  is_pin p -> (size (att b) < 15)%nat -> 0 <= mp < 5 ->
  let x := spec_events (forgotten_session p mp hp ap) b in
  x.1 = [0; 0; 0; - RT_ERROR] /\ armed (cfg x.2 p) = true /\ open x.2 (p / 16) = true.
Proof.
  intros Hp Hsz Hmp. destruct (valid_mode mp Hmp) as [tp Htp]. destruct (pin_has_port p Hp) as (Hn & _).
  cbn [spec_events spec_event spec_op forgotten_session]. rewrite spec_attach_room by (done || lia).
  rewrite (spec_enable_attached p 1 (u16 mp) hp ap tp) by (done || apply lookup_insert_eq).
  unfold spec_detach, spec_enable. rewrite Hn. cbn -[armed]. rewrite lookup_delete_eq. cbn -[armed].
  rewrite !fset_eq. split_and!; [done|by apply (trigger_armed (u16 mp))|done].
Qed.

(** C4: two things clients are not told.  With two enabled pins on one port, disabling one
    makes the other deaf: all calls succeed, its trigger stays set, but its flag rises and
    no handler is called.  And a pin that is detached without being disabled stays armed,
    and can not be disabled any more: the call fails. *)
Theorem disable_deafens_port (s : gpio) (b : board) (p q mp mq hp hq ap aq : Z) :
  board_rel s b -> is_pin p -> is_pin q -> p <> q -> p / 16 = q / 16 -> (size (att b) < 15)%nat ->
  0 <= mp < 5 -> 0 <= mq < 5 ->
  returns (do_events (deaf_session p q mp mq hp hq ap aq)) s
    (fun rs s' => rs = [0; 0; 0; 0; 0; 0; 0] /\ called s' = called s /\
       armed (cfg_of s' p) = true /\ flag (cfg_of s' p) = true /\ irq_open s' (irq_of (p / 16)) = false) /\
  returns (do_events (forgotten_session p mp hp ap)) s
    (fun rs s' => rs = [0; 0; 0; - RT_ERROR] /\ armed (cfg_of s' p) = true /\ irq_open s' (irq_of (p / 16)) = true).
Proof.
  intros H Hp Hq Hpq Hport Hsz Hmp Hmq.
  assert (Hp14 : 0 <= p / 16 < 14) by (unfold is_pin in Hp; Z.div_mod_to_equations; lia).
  assert (Hp16 : is_i16 p) by (unfold is_i16, is_pin in *; lia).
  assert (Hq16 : is_i16 q) by (unfold is_i16, is_pin in *; lia).
  assert (Hw : 0 <= bit (p mod 16)) by (unfold bit; rewrite Z.shiftl_nonneg; lia).
  split; (eapply returns_mono; [apply (events_ok_spec _ s b H); unfold deaf_session, forgotten_session; rewrite !Forall_cons, Forall_nil; cbn; split_and!; (done || lia)|]);
    intros rs s' [-> H']; rewrite (br_cfg _ _ H' p Hp), (br_open _ _ H') by done.
  - rewrite (br_log _ _ H'), (br_log _ _ H). by apply spec_deaf.
  - by apply (spec_forgotten b p mp hp ap).
Qed.
End leftovers.

(** The state after [rt_hw_gpio_init]. *)
Definition running_state : gpio :=
  match @rt_hw_gpio_init rest_state with Ret (_, s) => s | _ => rest_state end.

Lemma running_rel : board_rel running_state (board0 rest_state).
Proof.
  destruct (init_ok rest_state) as (r & s' & E & _ & H); [split_and!; [by intros a r|done|done]|].
  unfold running_state. by rewrite E.
Qed.

Lemma disable_deafens_port_witness :
  let GE := prog_env plain_sense button_prog in
  let HO := prog_handlers plain_sense button_prog button_prog_ok in
  returns (do_events (deaf_session 191 190 1 1 100 200 0 0))
    running_state (fun rs s' => rs = [0; 0; 0; 0; 0; 0; 0] /\ called s' = [] /\
       armed (cfg_of s' 191) = true /\ flag (cfg_of s' 191) = true /\ irq_open s' (irq_of 11) = false) /\
  returns (do_events (forgotten_session 191 1 100 0)) running_state
    (fun rs s' => rs = [0; 0; 0; - RT_ERROR] /\ armed (cfg_of s' 191) = true /\ irq_open s' (irq_of 11) = true).
Proof.
  intros GE HO.
  apply (disable_deafens_port (HO := HO) running_state (board0 rest_state) 191 190 1 1 100 200 0 0);
    [exact running_rel|split; (done || lia)|split; (done || lia)|done|done|cbn; rewrite map_size_empty; lia|lia|lia].
Defined.
