(* ===== verification/PinName.v ===== *)
(** * Names of pins

    [nu_gpio_pin_get] of [drv_gpio.c], [rt_pin_get] and the conversion [_pin_cmd_conv] of the
    shell command in [misc/pin.c], on C strings: the bytes of an object, one of which is the
    terminating zero; a read beyond the object is undefined. *)

From Stdlib Require Import ZArith Lia Bool.
From stdpp Require Import base tactics numbers list option.
From S2P Require Import Prelude Gpio GpioTable GpioPins.

Open Scope Z_scope.

(** ** Strings of the C library *)

Definition cstring : Type := list Z.

Definition isdigit (c : Z) : bool := (48 <=? c) && (c <=? 57).
Definition isspace (c : Z) : bool := (c =? 32) || ((9 <=? c) && (c <=? 13)).
Definition toupper (c : Z) : Z := if (97 <=? c) && (c <=? 122) then c - 32 else c.

Fixpoint rt_strlen (s : cstring) : option Z :=
  match s with [] => None | c :: s' => if c =? 0 then Some 0 else n ← rt_strlen s'; Some (n + 1) end.

Fixpoint skip_spaces (s : cstring) : cstring :=
  match s with c :: s' => if isspace c then skip_spaces s' else s | [] => [] end.

Fixpoint digits (acc : Z) (s : cstring) : option Z :=
  match s with
  | [] => None
  | c :: s' => if isdigit c then digits (acc * 10 + (c - 48)) s' else Some acc
  end.

(** [long] has 32 bits; a value out of range is undefined. *)
Definition long_value (v : Z) : option Z := if (- 2 ^ 31 <=? v) && (v <? 2 ^ 31) then Some v else None.

Definition atol (s : cstring) : option Z :=
  match skip_spaces s with
  | 45 :: s' => v ← digits 0 s'; long_value (- v)
  | 43 :: s' => v ← digits 0 s'; long_value v
  | s' => v ← digits 0 s'; long_value v
  end.

(** At most [n] characters of a string. *)
Fixpoint take_chars (n : nat) (s : cstring) : option cstring :=
  match n, s with
  | O, _ => Some []
  | S n', [] => None
  | S n', c :: s' => if c =? 0 then Some [] else l ← take_chars n' s'; Some (c :: l)
  end.

(** [strncat(dst, src, n)] on an array [dst]; writing beyond it is undefined. *)
Definition strncat (dst src : cstring) (n : nat) : option cstring :=
  e ← rt_strlen dst;
  l ← take_chars n src;
  let new := take (Z.to_nat e) dst ++ l ++ [0] in
  if (length new <=? length dst)%nat then Some (new ++ drop (length new) dst) else None.

(** ** The driver's and the framework's functions *)

Definition nu_gpio_pin_get (name : cstring) : option Z :=
  c2 ← name !! 2%nat;
  c3 ← (if c2 =? 46 then name !! 3%nat else Some 1);
  if (c2 =? 0) || ((c2 =? 46) && (c3 =? 0)) then Some (- RT_EINVAL) else
  number ← (if c2 =? 46 then atol (drop 3 name) else atol (drop 2 name));
  if 15 <? number then Some (- RT_EINVAL) else
  c1 ← name !! 1%nat;
  if (65 <=? c1) && (c1 <=? 78) then Some ((c1 - 65) * 0x10 + number)
  else if (97 <=? c1) && (c1 <=? 110) then Some ((c1 - 97) * 0x10 + number)
  else Some (- RT_EINVAL).

Definition rt_pin_get (name : cstring) : GM Z := with_ops (
  let! c0 := deref (name !! 0%nat) in
  if negb (c0 =? 80) && negb (c0 =? 112) then ret (- RT_EINVAL) else
  deref (nu_gpio_pin_get name)).

(** The name in the form the driver takes, in an array of six. *)
Definition format_name (name : cstring) : option cstring :=
  c0 ← name !! 0%nat;
  c1 ← name !! 1%nat;
  len ← rt_strlen name;
  let size := (if 5 <? len then 5 else len) - 2 in
  c2 ← name !! 2%nat;
  let dst := [toupper c0; toupper c1; if c2 =? 46 then 0 else 46; 0; 0; 0] in
  strncat dst (drop 2 name) (Z.to_nat (u32 size)).

Definition _pin_cmd_conv (name : cstring) : GM Z := let! f := deref (format_name name) in rt_pin_get f.

(** ** Digits *)

Definition value (ds : list Z) : Z := foldl (fun a c => a * 10 + (c - 48)) 0 ds.

Definition is_digits (ds : list Z) : Prop := ds <> [] /\ Forall (fun c => isdigit c = true) ds.

Lemma digits_app ds c rest a :
  Forall (fun c => isdigit c = true) ds -> isdigit c = false ->
  digits a (ds ++ c :: rest) = Some (foldl (fun a c => a * 10 + (c - 48)) a ds).
Proof.
  intros H Hc. revert a. induction H as [|d ds Hd H IH]; intros a; cbn [app digits foldl].
  - by rewrite Hc.
  - by rewrite Hd.
Qed.

Lemma isdigit_spec c : isdigit c = true <-> 48 <= c <= 57.
Proof. unfold isdigit. rewrite andb_true_iff, !Z.leb_le. lia. Qed.

Lemma value_nonneg ds : Forall (fun c => isdigit c = true) ds -> 0 <= value ds.
Proof.
  unfold value. assert (Hg : forall a, 0 <= a -> Forall (fun c => isdigit c = true) ds -> 0 <= foldl (fun a c => a * 10 + (c - 48)) a ds).
  { induction ds as [|d ds IH]; intros a Ha H; [done|]. inversion H as [|? ? Hd%isdigit_spec H']; subst. apply IH; [lia|done]. }
  by apply Hg.
Qed.

Lemma atol_digits ds c rest :
  is_digits ds -> isdigit c = false -> value ds < 2 ^ 31 -> atol (ds ++ c :: rest) = Some (value ds).
Proof.
  intros [Hne H] Hc Hv. pose proof (value_nonneg ds H) as H0. destruct ds as [|d ds]; [done|].
  inversion H as [|? ? Hd H']; subst. pose proof (proj1 (isdigit_spec d) Hd).
  assert (E : digits 0 ((d :: ds) ++ c :: rest) = Some (value (d :: ds))) by by apply digits_app.
  unfold atol. cbn [app skip_spaces]. unfold isspace.
  replace (d =? 32) with false by lia. replace (9 <=? d) with true by lia. replace (d <=? 13) with false by lia. cbn [orb andb].
  cbn [app] in E. unfold long_value.
  assert (R : (v ← digits 0 (d :: ds ++ c :: rest); (if (- 2 ^ 31 <=? v) && (v <? 2 ^ 31) then Some v else None)) = Some (value (d :: ds))).
  { rewrite E. cbn [mbind option_bind]. replace (- 2 ^ 31 <=? value (d :: ds)) with true by lia.
    by replace (value (d :: ds) <? 2 ^ 31) with true by lia. }
  destruct d as [|p|p]; [exact R| |exact R].
  do 6 (destruct p as [p|p|]; try exact R); lia.
Qed.

(** ** Names *)

(** "PA.3", "pa03", ...: a port and the digits of a number, in either case, with or without
    the dot. *)
Definition letter (low : bool) (k : Z) : Z := (if low then 97 else 65) + k.
Definition name_of (lp lk dot : bool) (k : Z) (ds : list Z) : cstring :=
  letter lp 15 :: letter lk k :: (if dot then [46] else []) ++ ds ++ [0].

(** The number a name stands for. *)
Definition pin_number (k n : Z) : Z := if 15 <? n then - RT_EINVAL else k * 16 + n.

Lemma name_head lp k ds rest dot lk :
  is_digits ds -> value ds < 2 ^ 31 -> 0 <= k < 14 ->
  nu_gpio_pin_get (letter lp 15 :: letter lk k :: (if dot : bool then [46] else []) ++ ds ++ 0 :: rest) = Some (pin_number k (value ds)).
Proof.
  intros Hd Hv Hk. pose proof (atol_digits ds 0 rest Hd eq_refl Hv) as Ha. destruct Hd as [Hne Hf].
  destruct ds as [|d ds]; [done|]. inversion Hf as [|? ? Hd%isdigit_spec _]; subst.
  assert (Hlet : forall v, (if (65 <=? letter lk k) && (letter lk k <=? 78) then Some ((letter lk k - 65) * 16 + v)
    else if (97 <=? letter lk k) && (letter lk k <=? 110) then Some ((letter lk k - 97) * 16 + v) else Some (- RT_EINVAL)) = Some (k * 16 + v)).
  { intros v. unfold letter. destruct lk.
    - replace (97 + k <=? 78) with false by lia. rewrite andb_false_r.
      replace (97 <=? 97 + k) with true by lia. replace (97 + k <=? 110) with true by lia. cbn. f_equal. lia.
    - replace (65 <=? 65 + k) with true by lia. replace (65 + k <=? 78) with true by lia. cbn. f_equal. lia. }
  unfold nu_gpio_pin_get, pin_number. destruct dot; cbn [app lookup list_lookup mbind option_bind Z.eqb].
  - cbn [lookup list_lookup Pos.eqb mbind option_bind orb andb]. replace (d =? 0) with false by lia. cbn [orb andb drop].
    cbn [app] in Ha. rewrite Ha. cbn [mbind option_bind lookup list_lookup]. destruct (15 <? value (d :: ds)); [done|]. apply Hlet.
  - replace (d =? 46) with false by lia. cbn [mbind option_bind]. replace (d =? 0) with false by lia. cbn [orb andb drop].
    cbn [app] in Ha. rewrite Ha. cbn [mbind option_bind lookup list_lookup]. destruct (15 <? value (d :: ds)); [done|]. apply Hlet.
Qed.

Lemma pin_get_name s lp lk dot k ds rest :
  _hw_pin s = true -> is_digits ds -> value ds < 2 ^ 31 -> 0 <= k < 14 ->
  rt_pin_get (letter lp 15 :: letter lk k :: (if dot : bool then [46] else []) ++ ds ++ 0 :: rest) s = Ret (pin_number k (value ds), s).
Proof.
  intros Hs Hd Hv Hk. unfold rt_pin_get, with_ops. rewrite bind_gets, Hs, bind_assert by done. cbn [lookup list_lookup].
  rewrite bind_deref with (a := letter lp 15) by done.
  replace (negb (letter lp 15 =? 80) && negb (letter lp 15 =? 112)) with false by (by destruct lp).
  by rewrite name_head.
Qed.

(** ** The shell's conversion *)

Lemma digit_nonzero c : isdigit c = true -> (c =? 0) = false.
Proof. intros H%isdigit_spec. lia. Qed.

Lemma strlen_digits ds : Forall (fun c => isdigit c = true) ds -> rt_strlen (ds ++ [0]) = Some (Z.of_nat (length ds)).
Proof.
  induction 1 as [|d ds Hd H IH]; [done|]. cbn [app rt_strlen length]. rewrite digit_nonzero, IH by done.
  cbn. f_equal. lia.
Qed.

Lemma take_chars_digits n ds : Forall (fun c => isdigit c = true) ds -> take_chars n (ds ++ [0]) = Some (take n ds).
Proof.
  intros H. revert n. induction H as [|d ds Hd H IH]; intros [|n]; try done. cbn [app take_chars take].
  by rewrite digit_nonzero, IH by done.
Qed.

Lemma strlen_name lp lk dot k ds :
  0 <= k < 14 -> Forall (fun c => isdigit c = true) ds ->
  rt_strlen (name_of lp lk dot k ds) = Some (2 + Z.b2z dot + Z.of_nat (length ds)).
Proof.
  intros Hk H. unfold name_of. cbn [rt_strlen]. replace (letter lp 15 =? 0) with false by (by destruct lp).
  replace (letter lk k =? 0) with false by (unfold letter; destruct lk; lia).
  destruct dot; cbn [app rt_strlen Z.eqb]; rewrite strlen_digits by done; cbn [mbind option_bind Z.b2z]; f_equal; lia.
Qed.

Lemma toupper_letter low k : 0 <= k <= 15 -> toupper (letter low k) = 65 + k.
Proof.
  intros Hk. unfold toupper, letter. destruct low.
  - replace (97 <=? 97 + k) with true by lia. replace (97 + k <=? 122) with true by lia. cbn. lia.
  - by replace (97 <=? 65 + k) with false by lia.
Qed.

(** Five characters with the dot, without it the array is too short for three digits. *)
Lemma format_spec lp lk dot k ds :
  0 <= k < 14 -> is_digits ds ->
  match format_name (name_of lp lk dot k ds) with
  | Some f => (dot = true \/ (length ds <= 2)%nat) /\
              exists rest, f = letter false 15 :: letter false k :: [46] ++ take 2 ds ++ 0 :: rest
  | None => dot = false /\ (3 <= length ds)%nat
  end.
Proof.
  intros Hk [Hne H]. unfold format_name. rewrite strlen_name by done. unfold name_of.
  cbn [lookup list_lookup mbind option_bind]. rewrite !toupper_letter by lia.
  destruct ds as [|d ds]; [done|]. assert (Hd : (d =? 46) = false) by (inversion H as [|? ? Hd%isdigit_spec _]; lia).
  
  assert (Hstrlen : forall z, (z =? 0) = false -> rt_strlen [65 + 15; 65 + k; z; 0; 0; 0] = Some 3).
  { intros z Hz. cbn [rt_strlen Z.eqb Z.add Pos.add Pos.succ]. replace (65 + k =? 0) with false by lia. by rewrite Hz. }
  assert (Hstrlen0 : rt_strlen [65 + 15; 65 + k; 0; 0; 0; 0] = Some 2).
  { cbn [rt_strlen Z.eqb Z.add Pos.add Pos.succ]. by replace (65 + k =? 0) with false by lia. }
  destruct dot; cbn [app lookup list_lookup mbind option_bind drop Z.b2z].
  - change (46 =? 46) with true. cbv iota.
    assert (Hl : take_chars (Z.to_nat (u32 ((if 5 <? 2 + 1 + Z.of_nat (length (d :: ds)) then 5 else 2 + 1 + Z.of_nat (length (d :: ds))) - 2)))
              (46 :: (d :: ds) ++ [0]) = Some (46 :: take 2 (d :: ds))).
    { replace (Z.to_nat _) with (S (if (2 <=? length (d :: ds))%nat then 2 else 1)).
      - cbn [take_chars Z.eqb]. rewrite take_chars_digits by done. cbn. do 2 f_equal. by destruct ds.
      - unfold u32. destruct ds as [|d2 [|d3 ds]]; try done. cbn [length Nat.leb].
        match goal with |- context [5 <? ?x] => destruct (Z.ltb_spec 5 x) end; [done|lia]. }
    cbn [app] in Hl. unfold strncat. rewrite Hstrlen0. cbn [mbind option_bind]. rewrite Hl. cbn [mbind option_bind].
    destruct ds as [|d2 ds]; cbn; (split; [by left|]); eexists; reflexivity.
  - rewrite Hd. unfold strncat. rewrite Hstrlen by done. cbn [mbind option_bind].
    assert (Hl : take_chars (Z.to_nat (u32 ((if 5 <? 2 + 0 + Z.of_nat (length (d :: ds)) then 5 else 2 + 0 + Z.of_nat (length (d :: ds))) - 2)))
              ((d :: ds) ++ [0]) = Some (take 3 (d :: ds))).
    { replace (Z.to_nat _) with (if (3 <=? length (d :: ds))%nat then 3%nat else length (d :: ds)).
      - rewrite take_chars_digits by done. destruct ds as [|d2 [|d3 ds]]; done.
      - unfold u32. destruct ds as [|d2 [|d3 [|d4 ds]]]; try done. cbn [length Nat.leb].
        match goal with |- context [5 <? ?x] => destruct (Z.ltb_spec 5 x) end; [done|lia]. }
    cbn [app] in Hl. rewrite Hl. cbn [mbind option_bind].
    destruct ds as [|d2 [|d3 ds]]; cbn; (split; [try (right; lia); done|]); try lia; eexists; reflexivity.
Qed.

Lemma value_bound ds : Forall (fun c => isdigit c = true) ds -> value (take 2 ds) < 100.
Proof.
  intros H. destruct ds as [|a [|b ds]]; rewrite ?list.Forall_cons in H; unfold value; cbn [take foldl]; [lia| |].
  - destruct H as [Ha%isdigit_spec _]. lia.
  - destruct H as (Ha%isdigit_spec & Hb%isdigit_spec & _). rewrite take_0. cbn. lia.
Qed.

Lemma is_digits_take ds : is_digits ds -> is_digits (take 2 ds).
Proof. intros [Hne H]. split; [by destruct ds|by apply Forall_take]. Qed.

Lemma pin_cmd_conv_spec s lp lk (dot : bool) k ds :
  _hw_pin s = true -> is_digits ds -> 0 <= k < 14 ->
  _pin_cmd_conv (name_of lp lk dot k ds) s =
    if negb dot && (3 <=? length ds)%nat then Undef else Ret (pin_number k (value (take 2 ds)), s).
Proof.
  intros Hs Hd Hk. pose proof (format_spec lp lk dot k ds Hk Hd) as Hf. unfold _pin_cmd_conv.
  destruct (format_name (name_of lp lk dot k ds)) as [f|].
  - destruct Hf as (Hc & rest & ->). unfold bind at 1. cbn [deref]. unfold ret.
    assert (Hv : value (take 2 ds) < 2 ^ 31) by (eapply Z.lt_trans; [apply value_bound, Hd|done]).
    pose proof (pin_get_name s false false true k (take 2 ds) rest Hs (is_digits_take ds Hd) Hv Hk) as E. etrans; [exact E|].
    destruct Hc as [->|Hl]; [done|]. destruct (Nat.leb_spec 3 (length ds)); [lia|]. by rewrite andb_false_r.
  - destruct Hf as [-> Hl]. destruct (Nat.leb_spec 3 (length ds)); [done|lia].
Qed.

(** A number after a minus sign. *)
Definition minus_name (lp lk : bool) (k : Z) (ds : list Z) : cstring :=
  letter lp 15 :: letter lk k :: 46 :: 45 :: ds ++ [0].

Lemma pin_get_minus s k ds :
  _hw_pin s = true -> is_digits ds -> value ds < 2 ^ 31 -> 0 <= k < 14 ->
  rt_pin_get (minus_name false false k ds) s = Ret (k * 16 - value ds, s).
Proof.
  intros Hs [Hne H] Hv Hk. pose proof (value_nonneg ds H) as H0. unfold rt_pin_get, with_ops, minus_name.
  rewrite bind_gets, Hs, bind_assert by done. rewrite bind_deref with (a := 80) by done. change (negb (80 =? 80) && negb (80 =? 112)) with false. cbv iota.
  unfold nu_gpio_pin_get. cbn [lookup list_lookup mbind option_bind Z.eqb Pos.eqb orb andb drop].
  assert (E : atol (45 :: ds ++ [0]) = Some (- value ds)).
  { unfold atol. cbn [skip_spaces isspace Z.eqb Pos.eqb Z.leb Z.compare Pos.compare Pos.compare_cont orb andb].
    rewrite digits_app by done. cbn [mbind option_bind]. fold (value ds). unfold long_value.
    replace (- 2 ^ 31 <=? - value ds) with true by lia. by replace (- value ds <? 2 ^ 31) with true by lia. }
  rewrite E. cbn [mbind option_bind]. replace (15 <? - value ds) with false by lia.
  unfold letter. replace (65 <=? 65 + k) with true by lia. replace (65 + k <=? 78) with true by lia. cbn. unfold ret. do 2 f_equal. lia.
Qed.

(** The decimal digits of a number below 100. *)
Definition decimal (n : Z) : list Z := if n <? 10 then [48 + n] else [48 + n / 10; 48 + n mod 10].

Lemma decimal_spec n : 0 <= n < 100 -> is_digits (decimal n) /\ value (decimal n) = n /\ (length (decimal n) <= 2)%nat.
Proof.
  intros Hn. unfold decimal, is_digits, value. destruct (Z.ltb_spec n 10).
  - split; [split; [done|]|split; cbn; lia]. constructor; [|done]. apply isdigit_spec. lia.
  - split; [split; [done|]|split; [cbn; Z.div_mod_to_equations; lia|cbn; lia]].
    repeat constructor; apply isdigit_spec; Z.div_mod_to_equations; lia.
Qed.

(** "PA.16", the name the usage text of the shell's command and the comments of its
    subcommands give as an example. *)
Definition usage_name : cstring := [80; 65; 46; 49; 54; 0].

(** C30: pin names.  Every pin has its names, port letter and decimal number in either case
    with or without the dot, and both [rt_pin_get] and the shell's conversion give it back.
    For any digits [rt_pin_get] gives pin 16 k + n of port number k for a number n up to 15
    and -RT_EINVAL above.  After a minus sign it gives 16 k - n, whatever n is: for n above
    0 that is a pin of an earlier port or, beyond port A, a negative number.  The shell's
    conversion looks at two digits, and writes beyond its array when a name without dot has
    more.  The example of its usage text, "PA.16", is refused by both with -RT_EINVAL. *)
Theorem pin_names (s : gpio) (lp lk dot : bool) :
  _hw_pin s = true ->
  (forall q, is_pin q ->
     let name := name_of lp lk dot (q / 16) (decimal (q mod 16)) in
     rt_pin_get name s = Ret (q, s) /\ _pin_cmd_conv name s = Ret (q, s)) /\
  (forall k ds, 0 <= k < 14 -> is_digits ds -> value ds < 2 ^ 31 ->
     rt_pin_get (name_of lp lk dot k ds) s = Ret (pin_number k (value ds), s) /\
     rt_pin_get (minus_name false false k ds) s = Ret (k * 16 - value ds, s) /\
     _pin_cmd_conv (name_of lp lk dot k ds) s =
       if negb dot && (3 <=? length ds)%nat then Undef else Ret (pin_number k (value (take 2 ds)), s)) /\
  (forall k ds, 0 <= k < 14 -> is_digits ds -> 0 < value ds < 2 ^ 31 ->
     exists q, rt_pin_get (minus_name false false k ds) s = Ret (q, s) /\ q < k * 16 /\ (is_pin q <-> value ds <= k * 16)) /\
  rt_pin_get usage_name s = Ret (- RT_EINVAL, s) /\ _pin_cmd_conv usage_name s = Ret (- RT_EINVAL, s).
Proof.
  intros Hs. split_and!.
  - intros q Hq name. unfold is_pin in Hq.
    assert (Hk : 0 <= q / 16 < 14) by (Z.div_mod_to_equations; lia).
    destruct (decimal_spec (q mod 16)) as (Hd & Hv & Hl); [Z.div_mod_to_equations; lia|].
    assert (Hp : pin_number (q / 16) (value (decimal (q mod 16))) = q).
    { rewrite Hv. unfold pin_number. destruct (Z.ltb_spec 15 (q mod 16)); Z.div_mod_to_equations; lia. }
    split.
    + unfold name, name_of. rewrite (pin_get_name s lp lk dot _ _ []), Hp; [done|done|done|rewrite Hv; Z.div_mod_to_equations; lia|done].
    + unfold name. rewrite pin_cmd_conv_spec by done. destruct (Nat.leb_spec 3 (length (decimal (q mod 16)))); [lia|].
      rewrite andb_false_r, take_ge by lia. by rewrite Hp.
  - intros k ds Hk Hd Hv. split_and!.
    + by apply (pin_get_name s lp lk dot k ds []).
    + by apply pin_get_minus.
    + by apply pin_cmd_conv_spec.
  - intros k ds Hk Hd Hv. exists (k * 16 - value ds). rewrite pin_get_minus by (done || lia). unfold is_pin. split_and!; [done|lia|lia].
  - by apply (pin_get_name s false false true 0 [49; 54] []); [|split; [done|repeat constructor]|..].
  - by apply (pin_cmd_conv_spec s false false true 0 [49; 54]); [|split; [done|repeat constructor]|].
Qed.

(** "pl15", "PL.015" and "PL015". *)
Lemma pin_names_witness :
  let s := mkGpio (fun _ _ => 0) (fun _ => true) [] 0 (fun _ => false) (fun _ => None) true [] in
  rt_pin_get [112; 108; 49; 53; 0] s = Ret (191, s) /\
  _pin_cmd_conv [80; 76; 46; 48; 49; 53; 0] s = Ret (177, s) /\
  _pin_cmd_conv [80; 76; 48; 49; 53; 0] s = Undef.
Proof.
  intros s. destruct (pin_names s true true false eq_refl) as [H1 _]. destruct (H1 191) as [E1 _]; [split; (done || lia)|].
  destruct (pin_names s false false true eq_refl) as (_ & H2 & _). destruct (H2 11 [48; 49; 53]) as (_ & _ & E2);
    [lia|split; [done|repeat constructor]|done|].
  destruct (pin_names s false false false eq_refl) as (_ & H3 & _). destruct (H3 11 [48; 49; 53]) as (_ & _ & E3);
    [lia|split; [done|repeat constructor]|done|].
  split_and!; [exact E1|exact E2|exact E3].
Defined.
