(* ===== verification/SoftI2c.v ===== *)
(** * I2C by software

    Models [rt-thread/components/drivers/i2c/i2c-bit-ops.c]: I2C on any two lines that can be
    set and read ([rt_i2c_bit_ops]), and [libraries/ma35/rtt_port/drv_softi2c.c], which takes two pins
    for them.  [Wires] are two such lines with a slave: what a reader of the lines sees are
    START, STOP and bits. *)

From Stdlib Require Import ZArith Lia Bool.
From stdpp Require Import base tactics numbers list option.
From S2P Require Import Prelude I2c Gpio.

Open Scope Z_scope.

Definition RT_I2C_NO_READ_ACK : Z := shl32 1 6.
Definition RT_I2C_NO_STOP : Z := shl32 1 7.

(** [struct rt_i2c_bit_ops], with the time functions the code calls and [bus->retries];
    [get_scl] may be [RT_NULL]. *)
Class rt_i2c_bit_ops (S : Type) : Type := {
  set_sda : Z -> M S unit;
  set_scl : Z -> M S unit;
  get_sda : M S Z;
  get_scl : option (M S Z);
  udelay : Z -> M S unit;
  delay_us : Z;
  bit_timeout : Z;
  tick_get : M S Z;
  rt_thread_delay : Z -> M S unit;
  bus_retries : Z;
  wait_turns : nat
}.

Section bit_ops.
Context {S : Type} `{BO : rt_i2c_bit_ops S}.

Definition i2c_delay : M S unit := udelay (Z.shiftr (u32 (delay_us + 1)) 1).
Definition i2c_delay2 : M S unit := udelay delay_us.
Definition SDA_L : M S unit := set_sda 0.
Definition SDA_H : M S unit := set_sda 1.
Definition SCL_L : M S unit := set_scl 0.

(** The wait of [SCL_H] for the line. *)
Fixpoint scl_loop (fuel : nat) (read : M S Z) (start : Z) : M S Z :=
  match fuel with
  | O => out_of_fuel
  | Datatypes.S fuel' =>
      let! v := read in
      if negb (v =? 0) then ret RT_EOK else
      let! now := tick_get in
      if bit_timeout <? u32 (now - start) then ret (- RT_ETIMEOUT) else
      rt_thread_delay (Z.shiftr (u32 (bit_timeout + 1)) 1) ;;
      scl_loop fuel' read start
  end.

Definition SCL_H : M S Z :=
  set_scl 1 ;;
  match get_scl with
  | None => i2c_delay ;; ret RT_EOK
  | Some read =>
      let! start := tick_get in
      let! r := scl_loop wait_turns read start in
      if r <? 0 then ret r else i2c_delay ;; ret RT_EOK
  end.

Definition i2c_start : M S unit := SDA_L ;; i2c_delay ;; SCL_L.

Definition i2c_restart : M S unit :=
  SDA_H ;; (let! _ := SCL_H in ret tt) ;; i2c_delay ;; SDA_L ;; i2c_delay ;; SCL_L.

Definition i2c_stop : M S unit :=
  SDA_L ;; i2c_delay ;; (let! _ := SCL_H in ret tt) ;; i2c_delay ;; SDA_H ;; i2c_delay2.

Definition i2c_waitack : M S Z :=
  SDA_H ;; i2c_delay ;;
  let! r := SCL_H in
  if r <? 0 then ret (- RT_ETIMEOUT) else
  let! v := get_sda in
  SCL_L ;;
  ret (if v =? 0 then 1 else 0).

(** The bits of a byte from bit [n - 1] down. *)
Fixpoint write_bits (n : nat) (data : Z) : M S Z :=
  match n with
  | O => ret RT_EOK
  | Datatypes.S i =>
      SCL_L ;;
      set_sda (Z.land (Z.shiftr data (Z.of_nat i)) 1) ;;
      i2c_delay ;;
      let! r := SCL_H in
      if r <? 0 then ret (- RT_ETIMEOUT) else write_bits i data
  end.

Definition i2c_writeb (data : Z) : M S Z :=
  let! r := write_bits 8 data in
  if r <? 0 then ret r else
  SCL_L ;; i2c_delay ;; i2c_waitack.

Fixpoint read_bits (n : nat) (data : Z) : M S Z :=
  match n with
  | O => ret data
  | Datatypes.S n' =>
      let data := u8 (Z.shiftl data 1) in
      let! r := SCL_H in
      if r <? 0 then ret (- RT_ETIMEOUT) else
      let! v := get_sda in
      SCL_L ;; i2c_delay2 ;;
      read_bits n' (if v =? 0 then data else Z.lor data 1)
  end.

Definition i2c_readb : M S Z := SDA_H ;; i2c_delay ;; read_bits 8 0.

(** [count] bytes left, the next at [ptr]. *)
Fixpoint send_bytes_loop (count : nat) (ptr bytes : Z) (data : list Z) (ignore_nack : bool) : M S Z :=
  match count with
  | O => ret bytes
  | Datatypes.S count' =>
      let! b := deref (znth data ptr) in
      let! r := i2c_writeb b in
      if (0 <? r) || (ignore_nack && (r =? 0)) then send_bytes_loop count' (ptr + 1) (bytes + 1) data ignore_nack
      else if r =? 0 then ret 0
      else ret r
  end.

Definition i2c_send_bytes (m : rt_i2c_msg) : M S Z :=
  send_bytes_loop (Z.to_nat (msg_len m)) 0 0 (buf m) (has (flags m) RT_I2C_IGNORE_NACK).

Definition i2c_send_ack_or_nack (ack : Z) : M S Z :=
  (if negb (ack =? 0) then set_sda 0 else ret tt) ;;
  i2c_delay ;;
  let! r := SCL_H in
  if r <? 0 then ret (- RT_ETIMEOUT) else SCL_L ;; ret RT_EOK.

(** With the buffer as it is left. *)
Fixpoint recv_bytes_loop (count : nat) (ptr bytes : Z) (data : list Z) (no_ack : bool) : M S (Z * list Z) :=
  match count with
  | O => ret (bytes, data)
  | Datatypes.S count' =>
      let! val := i2c_readb in
      if 0 <=? val then
        let! _ := deref (znth data ptr) in
        let data := zupd data ptr val in
        if negb no_ack then
          let! r := i2c_send_ack_or_nack (Z.of_nat count') in
          if r <? 0 then ret (r, data) else recv_bytes_loop count' (ptr + 1) (bytes + 1) data no_ack
        else recv_bytes_loop count' (ptr + 1) (bytes + 1) data no_ack
      else ret (bytes, data)
  end.

Definition i2c_recv_bytes (m : rt_i2c_msg) : M S (Z * rt_i2c_msg) :=
  let! '(r, data) := recv_bytes_loop (Z.to_nat (msg_len m)) 0 0 (buf m) (has (flags m) RT_I2C_NO_READ_ACK) in
  ret (r, mkMsg (addr m) (flags m) (msg_len m) data).

(** [n + 1] attempts are left, all of [retries + 1] at first. *)
Fixpoint send_address_loop (n : nat) (a : Z) : M S Z :=
  let! r := i2c_writeb a in
  match n with
  | O => ret r
  | Datatypes.S n' =>
      if r =? 1 then ret r else
      i2c_stop ;; i2c_delay2 ;; i2c_start ;; send_address_loop n' a
  end.

Definition i2c_send_address (a retries : Z) : M S Z :=
  if i32 retries <? 0 then ret 0 else send_address_loop (Z.to_nat (i32 retries)) a.

(** [if ((ret != 1) && !ignore_nack) return -RT_EIO] *)
Definition or_eio (r : Z) (ignore_nack : bool) (k : M S Z) : M S Z :=
  if negb (r =? 1) && negb ignore_nack then ret (- RT_EIO) else k.

Definition i2c_bit_send_address (m : rt_i2c_msg) : M S Z :=
  let ignore_nack := has (flags m) RT_I2C_IGNORE_NACK in
  let retries := if ignore_nack then 0 else bus_retries in
  if has (flags m) RT_I2C_ADDR_10BIT then
    let addr1 := u8 (Z.lor 0xf0 (Z.land (Z.shiftr (addr m) 7) 0x06)) in
    let addr2 := Z.land (addr m) 0xff in
    let! r := i2c_send_address addr1 retries in
    or_eio r ignore_nack (
    let! r := i2c_writeb addr2 in
    or_eio r ignore_nack (
    if has (flags m) RT_I2C_RD then
      i2c_restart ;;
      let! r := i2c_send_address (Z.lor addr1 0x01) retries in
      or_eio r ignore_nack (ret RT_EOK)
    else ret RT_EOK))
  else
    let addr1 := u8 (Z.shiftl (addr m) 1) in
    let addr1 := if has (flags m) RT_I2C_RD then Z.lor addr1 1 else addr1 in
    let! r := i2c_send_address addr1 retries in
    or_eio r ignore_nack (ret RT_EOK).

(** One message: [None] goes on, a number is the result at [out]. *)
Definition bit_xfer_msg (i : Z) (m : rt_i2c_msg) : M S (option Z * rt_i2c_msg) :=
  let ignore_nack := has (flags m) RT_I2C_IGNORE_NACK in
  let! r :=
    (if negb (has (flags m) RT_I2C_NO_START) then
       (if negb (i =? 0) then i2c_restart else i2c_start) ;; i2c_bit_send_address m
     else ret RT_EOK) in
  if negb (r =? RT_EOK) && negb ignore_nack then ret (Some r, m) else
  if has (flags m) RT_I2C_RD then
    let! '(r, m') := i2c_recv_bytes m in
    ret (if r <? msg_len m then Some (if 0 <=? r then - RT_EIO else r) else None, m')
  else
    let! r := i2c_send_bytes m in
    ret (if r <? msg_len m then Some (if 0 <=? r then - RT_ERROR else r) else None, m).

(** The loop over the messages from [i] on; the result, the message it ended at, and all
    messages with their buffers. *)
Fixpoint bit_xfer_loop (todo : nat) (i : Z) (ms : list rt_i2c_msg) (msg : option rt_i2c_msg) :
    M S (Z * option rt_i2c_msg * list rt_i2c_msg) :=
  match todo with
  | O => ret (i, msg, ms)
  | Datatypes.S todo' =>
      let! m := deref (znth ms i) in
      let! '(o, m') := bit_xfer_msg i m in
      let ms' := zupd ms i m' in
      match o with
      | Some r => ret (r, Some m', ms')
      | None => bit_xfer_loop todo' (i + 1) ms' (Some m')
      end
  end.

(** [rt_size_t] is unsigned: an error comes out as a word. *)
Definition i2c_bit_xfer (ms : list rt_i2c_msg) (num : Z) : M S (Z * list rt_i2c_msg) :=
  if num =? 0 then ret (0, ms) else
  let! '(r, msg, ms') := bit_xfer_loop (Z.to_nat num) 0 ms None in
  let! m := deref msg in
  (if negb (has (flags m) RT_I2C_NO_STOP) then i2c_stop else ret tt) ;;
  ret (u32 r, ms').

End bit_ops.

(** ** drv_softi2c.c *)

Record nu_soft_i2c_config : Type := mkSoftCfg { cfg_scl : Z; cfg_sda : Z }.

Section softi2c.
Context `{GE : GpioEnv} (cfg : nu_soft_i2c_config).

(** A delay leaves the pins alone. *)
Definition nu_soft_i2c_udelay (us : Z) : GM unit := ret tt.

Definition nu_soft_i2c_gpio_init : GM unit :=
  rt_pin_mode (cfg_scl cfg) PIN_MODE_OUTPUT_OD ;;
  rt_pin_mode (cfg_sda cfg) PIN_MODE_OUTPUT_OD ;;
  rt_pin_write (cfg_scl cfg) PIN_HIGH ;;
  rt_pin_write (cfg_sda cfg) PIN_HIGH.

Definition nu_soft_i2c_set_sda (state : Z) : GM unit :=
  rt_pin_write (cfg_sda cfg) (if negb (state =? 0) then PIN_HIGH else PIN_LOW).
Definition nu_soft_i2c_set_scl (state : Z) : GM unit :=
  rt_pin_write (cfg_scl cfg) (if negb (state =? 0) then PIN_HIGH else PIN_LOW).
Definition nu_soft_i2c_get_sda : GM Z := rt_pin_read (cfg_sda cfg).
Definition nu_soft_i2c_get_scl : GM Z := rt_pin_read (cfg_scl cfg).

(** Nine clocks, or as many as are left. *)
Fixpoint unlock_loop (n : nat) : GM unit :=
  match n with
  | O => ret tt
  | S n' =>
      rt_pin_write (cfg_scl cfg) PIN_HIGH ;;
      nu_soft_i2c_udelay 100 ;;
      rt_pin_write (cfg_scl cfg) PIN_LOW ;;
      nu_soft_i2c_udelay 100 ;;
      unlock_loop n'
  end.

Definition nu_soft_i2c_bus_unlock : GM Z :=
  let! v := rt_pin_read (cfg_sda cfg) in
  (if v =? PIN_LOW then unlock_loop 9 else ret tt) ;;
  let! v := rt_pin_read (cfg_sda cfg) in
  if v =? PIN_LOW then ret (- RT_ERROR) else ret RT_EOK.

(** The lines of a bus; the time comes from the kernel. *)
Definition nu_soft_i2c_bit_ops (now : GM Z) (sleep : Z -> GM unit) (retries : Z) (turns : nat) : rt_i2c_bit_ops gpio := {|
  set_sda := nu_soft_i2c_set_sda;
  set_scl := nu_soft_i2c_set_scl;
  get_sda := nu_soft_i2c_get_sda;
  get_scl := Some nu_soft_i2c_get_scl;
  udelay := nu_soft_i2c_udelay;
  delay_us := 1;
  bit_timeout := 2;
  tick_get := now;
  rt_thread_delay := sleep;
  bus_retries := retries;
  wait_turns := turns
|}.

(** One bus of [rt_soft_i2c_init]; [registered] is what [rt_i2c_bit_add_bus] returns. *)
Definition rt_soft_i2c_init_bus (registered : Z) : GM unit :=
  nu_soft_i2c_gpio_init ;;
  rt_assert (registered =? RT_EOK) ;;
  let! _ := nu_soft_i2c_bus_unlock in
  ret tt.

End softi2c.

(** ** Two lines with a slave *)

(** What is seen on the lines: START, STOP, a bit the master sends, a bit it reads. *)
Inductive sym : Type := START | STOP | Out (b : bool) | In (b : bool).

(** The master's levels, the bit of the clock pulse under way, the symbols so far (the latest
    first), when the clock line was released, the time. *)
Record wires : Type := mkWires {
  scl : bool;
  sda : bool;
  pulse : option sym;
  syms : list sym;
  released : Z;
  tick : Z
}.

(** A slave by the symbols so far: whether it leaves the data line high, how long it holds the
    clock line, by how much the thread oversleeps. *)
Class Slave : Type := {
  leaves_sda : list sym -> bool;
  holds_scl : list sym -> Z -> bool;
  oversleep : Z -> Z
}.

(** A change of the data line in a clock pulse is START or STOP, and no bit; a pulse that
    ends is a bit. *)
Definition wire_set_sda (b : bool) (w : wires) : wires :=
  if Bool.eqb (sda w) b then w else
  if scl w then mkWires true b None ((if b then STOP else START) :: syms w) (released w) (tick w)
  else mkWires false b (pulse w) (syms w) (released w) (tick w).

Definition wire_set_scl (b : bool) (w : wires) : wires :=
  if Bool.eqb (scl w) b then w else
  if b then mkWires true (sda w) (Some (Out (sda w))) (syms w) (tick w) (tick w)
  else mkWires false (sda w) None (match pulse w with Some x => x :: syms w | None => syms w end) (released w) (tick w).

Section wires.
Context `{SL : Slave}.

(** A look at the data line with the line released makes the bit one the master reads. *)
Definition wire_get_sda (w : wires) : bool * wires :=
  if sda w then
    let v := leaves_sda (syms w) in
    (v, mkWires (scl w) (sda w) (match pulse w with Some _ => Some (In v) | None => None end) (syms w) (released w) (tick w))
  else (false, w).

Definition wire_get_scl (w : wires) : bool := scl w && negb (holds_scl (syms w) (u32 (tick w - released w))).

Definition wire_ops (dly tmo retr : Z) (turns : nat) : rt_i2c_bit_ops wires := {|
  set_sda v := modify (wire_set_sda (negb (v =? 0)));
  set_scl v := modify (wire_set_scl (negb (v =? 0)));
  get_sda := fun w => let (v, w') := wire_get_sda w in Ret (Z.b2z v, w');
  get_scl := Some (gets (fun w => Z.b2z (wire_get_scl w)));
  udelay us := ret tt;
  delay_us := dly;
  bit_timeout := tmo;
  tick_get := gets tick;
  rt_thread_delay n := modify (fun w => mkWires (scl w) (sda w) (pulse w) (syms w) (released w) (u32 (tick w + n + oversleep (tick w))));
  bus_retries := retr;
  wait_turns := turns
|}.
End wires.
