(* ===== verification/SoftI2cBus.v ===== *)
(** * What software I2C puts on the lines

    On two lines with any slave that lets the clock go in time, the functions of
    [i2c-bit-ops.c] are operations on frames: START, bytes sent with the slave's answer, bytes
    received with the master's, STOP. *)

From Stdlib Require Import ZArith Lia Bool.
From stdpp Require Import base tactics numbers list option.
From S2P Require Import Prelude I2c I2cSeq Gpio SoftI2c.

Open Scope Z_scope.

(** ** Frames *)

Inductive frame : Type :=
| FStart
| FSend (b : Z) (ack : bool)            (** the slave's answer *)
| FRecv (b : Z) (ack : option bool)     (** the master's answer, if any *)
| FStop.

(** The bits of a byte, highest first; lists of symbols have the latest first. *)
Fixpoint out_bits (n : nat) (b : Z) (l : list sym) : list sym :=
  match n with O => l | S i => out_bits i b (Out (Z.testbit b (Z.of_nat i)) :: l) end.
Fixpoint in_bits (n : nat) (b : Z) (l : list sym) : list sym :=
  match n with O => l | S i => in_bits i b (In (Z.testbit b (Z.of_nat i)) :: l) end.

Definition frame_syms (f : frame) (l : list sym) : list sym :=
  match f with
  | FStart => START :: l
  | FSend b ack => In (negb ack) :: out_bits 8 b l
  | FRecv b (Some ack) => Out (negb ack) :: in_bits 8 b l
  | FRecv b None => in_bits 8 b l
  | FStop => STOP :: l
  end.

(** Latest frame first, on what was there. *)
Definition syms_of (fs : list frame) (l : list sym) : list sym := foldr frame_syms l fs.

Section spec.
Context `{SL : Slave} (l0 : list sym) (retries : Z).

Definition ack_of (b : Z) (fs : list frame) : bool := negb (leaves_sda (out_bits 8 b (syms_of fs l0))).

(** Eight bits as the slave leaves them, each after the ones before it. *)
Fixpoint slave_bits (n : nat) (b : Z) (l : list sym) : Z :=
  match n with O => b | S n' => let v := leaves_sda l in slave_bits n' (2 * b + Z.b2z v) (In v :: l) end.

Definition byte_of_slave (fs : list frame) : Z := slave_bits 8 0 (syms_of fs l0).

Definition sp_send (b : Z) (fs : list frame) : bool * list frame :=
  let a := ack_of b fs in (a, FSend b a :: fs).

(** An address until it is acknowledged, STOP and START between the attempts. *)
Fixpoint sp_attempts (n : nat) (a : Z) (fs : list frame) : bool * list frame :=
  let (ok, fs1) := sp_send a fs in
  match n with
  | O => (ok, fs1)
  | S n' => if ok then (true, fs1) else sp_attempts n' a (FStart :: FStop :: fs1)
  end.

Definition sp_addr_byte (a : Z) (retr : Z) (fs : list frame) : bool * list frame :=
  if i32 retr <? 0 then (false, fs) else sp_attempts (Z.to_nat (i32 retr)) a fs.

Definition sp_address (m : rt_i2c_msg) (fs : list frame) : Z * list frame :=
  let ign := has (flags m) RT_I2C_IGNORE_NACK in
  let rd := has (flags m) RT_I2C_RD in
  let retr := if ign then 0 else retries in
  if has (flags m) RT_I2C_ADDR_10BIT then
    let a := u8 (Z.lor 0xf0 (Z.land (Z.shiftr (addr m) 7) 0x06)) in
    let (k1, fs1) := sp_addr_byte a retr fs in
    if negb k1 && negb ign then (- RT_EIO, fs1) else
    let (k2, fs2) := sp_send (Z.land (addr m) 0xff) fs1 in
    if negb k2 && negb ign then (- RT_EIO, fs2) else
    if rd then
      let (k3, fs3) := sp_addr_byte (Z.lor a 1) retr (FStart :: fs2) in
      if negb k3 && negb ign then (- RT_EIO, fs3) else (0, fs3)
    else (0, fs2)
  else
    let a := u8 (Z.shiftl (addr m) 1) in
    let (k, fs1) := sp_addr_byte (if rd then Z.lor a 1 else a) retr fs in
    if negb k && negb ign then (- RT_EIO, fs1) else (0, fs1).

(** The bytes sent, up to the first that is refused and minded. *)
Fixpoint sp_bytes (data : list Z) (ign : bool) (n : Z) (fs : list frame) : Z * list frame :=
  match data with
  | [] => (n, fs)
  | b :: data' => let (k, fs1) := sp_send b fs in if k || ign then sp_bytes data' ign (n + 1) fs1 else (0, fs1)
  end.

(** [n] bytes received, all but the last acknowledged. *)
Fixpoint sp_recv (n : nat) (no_ack : bool) (fs : list frame) : list Z * list frame :=
  match n with
  | O => ([], fs)
  | S n' =>
      let b := byte_of_slave fs in
      let (bs, fs') := sp_recv n' no_ack (FRecv b (if no_ack then None else Some (negb (n' =? 0)%nat)) :: fs) in
      (b :: bs, fs')
  end.

(** [st] are the frames that begin a message that has an address. *)
Definition sp_msg (st : list frame) (m : rt_i2c_msg) (fs : list frame) : option Z * rt_i2c_msg * list frame :=
  let (r, fs1) := if has (flags m) RT_I2C_NO_START then (0, fs) else sp_address m (st ++ fs) in
  if negb (r =? 0) && negb (has (flags m) RT_I2C_IGNORE_NACK) then (Some r, m, fs1) else
  if has (flags m) RT_I2C_RD then
    let (bs, fs2) := sp_recv (Z.to_nat (msg_len m)) (has (flags m) RT_I2C_NO_READ_ACK) fs1 in
    (None, mkMsg (addr m) (flags m) (msg_len m) (bs ++ drop (Z.to_nat (msg_len m)) (buf m)), fs2)
  else
    let (r, fs2) := sp_bytes (take (Z.to_nat (msg_len m)) (buf m)) (has (flags m) RT_I2C_IGNORE_NACK) 0 fs1 in
    (if r <? msg_len m then Some (- RT_ERROR) else None, m, fs2).

(** The messages to the first that fails, those behind it as they were; whether STOP follows. *)
Fixpoint sp_msgs (st : list frame) (i : Z) (stop : bool) (ms : list rt_i2c_msg) (fs : list frame) :
    Z * bool * list rt_i2c_msg * list frame :=
  match ms with
  | [] => (i, stop, [], fs)
  | m :: ms' =>
      let stop := negb (has (flags m) RT_I2C_NO_STOP) in
      match sp_msg st m fs with
      | (Some r, m', fs1) => (r, stop, m' :: ms', fs1)
      | (None, m', fs1) =>
          let '(r, stop', ms2, fs2) := sp_msgs [FStart] (i + 1) stop ms' fs1 in (r, stop', m' :: ms2, fs2)
      end
  end.
End spec.

(** ** A slave that acknowledges everything

    The frames of a message in their order; what is received is in the buffer afterwards. *)

Definition sent_frames (data : list Z) : list frame := map (fun b => FSend b true) data.

Fixpoint recv_frames (no_ack : bool) (data : list Z) : list frame :=
  match data with
  | [] => []
  | b :: data' => FRecv b (if no_ack then None else Some (negb (length data' =? 0)%nat)) :: recv_frames no_ack data'
  end.

Definition address_frames (m : rt_i2c_msg) : list frame :=
  let rd := has (flags m) RT_I2C_RD in
  if has (flags m) RT_I2C_ADDR_10BIT then
    let a := u8 (Z.lor 0xf0 (Z.land (Z.shiftr (addr m) 7) 0x06)) in
    [FSend a true; FSend (Z.land (addr m) 0xff) true] ++ (if rd then [FStart; FSend (Z.lor a 1) true] else [])
  else let a := u8 (Z.shiftl (addr m) 1) in [FSend (if rd then Z.lor a 1 else a) true].

(** [m'] is the message afterwards. *)
Definition msg_frames (st : list frame) (m m' : rt_i2c_msg) : list frame :=
  (if has (flags m) RT_I2C_NO_START then [] else st ++ address_frames m) ++
  let data := take (Z.to_nat (msg_len m)) (buf m') in
  if has (flags m) RT_I2C_RD then recv_frames (has (flags m) RT_I2C_NO_READ_ACK) data else sent_frames data.

Fixpoint msgs_frames (st : list frame) (ms ms' : list rt_i2c_msg) : list frame :=
  match ms, ms' with
  | m :: ms, m' :: ms' => msg_frames st m m' ++ msgs_frames [FStart] ms ms'
  | _, _ => []
  end.

(** The messages differ in the buffers they receive into only. *)
Definition same_but_received (m m' : rt_i2c_msg) : Prop :=
  addr m' = addr m /\ flags m' = flags m /\ msg_len m' = msg_len m /\ length (buf m') = length (buf m) /\
  drop (Z.to_nat (msg_len m)) (buf m') = drop (Z.to_nat (msg_len m)) (buf m) /\
  (has (flags m) RT_I2C_RD = false -> m' = m).

Definition fits (m : rt_i2c_msg) : Prop := 0 <= msg_len m <= Z.of_nat (length (buf m)).

Section acked.
Context `{SL : Slave} (l0 : list sym) (retries : Z).
Context (Hretries : 0 <= i32 retries) (acked : forall b l, leaves_sda (out_bits 8 b l) = false).

Lemma sp_send_acked b fs : sp_send l0 b fs = (true, FSend b true :: fs).
Proof. unfold sp_send, ack_of. by rewrite acked. Qed.

Lemma sp_addr_byte_acked a r fs : 0 <= i32 r -> sp_addr_byte l0 a r fs = (true, FSend a true :: fs).
Proof.
  intros Hr. unfold sp_addr_byte. destruct (Z.ltb_spec (i32 r) 0); [lia|].
  destruct (Z.to_nat (i32 r)); cbn [sp_attempts]; by rewrite sp_send_acked.
Qed.

Lemma sp_address_acked m fs : sp_address l0 retries m fs = (0, rev (address_frames m) ++ fs).
Proof.
  unfold sp_address, address_frames.
  assert (Hr : 0 <= i32 (if has (flags m) RT_I2C_IGNORE_NACK then 0 else retries)) by by destruct (has _ _).
  destruct (has (flags m) RT_I2C_ADDR_10BIT); rewrite sp_addr_byte_acked by done; [|done].
  cbn [negb andb]. rewrite sp_send_acked. cbn [negb andb]. destruct (has (flags m) RT_I2C_RD); [|done].
  by rewrite sp_addr_byte_acked by done.
Qed.

Lemma sp_bytes_acked data ign n fs : sp_bytes l0 data ign n fs = (n + Z.of_nat (length data), rev (sent_frames data) ++ fs).
Proof.
  revert n fs. induction data as [|b data IH]; intros n fs; cbn [sp_bytes]; [by rewrite Z.add_0_r|].
  rewrite sp_send_acked. cbn [orb]. rewrite IH. cbn. rewrite <-(assoc_L app). f_equal. lia.
Qed.

Lemma sp_recv_frames n no_ack fs :
  let (bs, fs') := sp_recv l0 n no_ack fs in length bs = n /\ fs' = rev (recv_frames no_ack bs) ++ fs.
Proof.
  revert fs. induction n as [|n IH]; intros fs; [done|]. cbn [sp_recv].
  specialize (IH (FRecv (byte_of_slave l0 fs) (if no_ack then None else Some (negb (n =? 0)%nat)) :: fs)).
  destruct (sp_recv l0 n no_ack _) as [bs fs']. destruct IH as [<- ->]. split; [done|].
  cbn. by rewrite <-(assoc_L app).
Qed.

Lemma sp_msg_acked st m fs :
  fits m ->
  exists m', sp_msg l0 retries st m fs = (None, m', rev (msg_frames (rev st) m m') ++ fs) /\ same_but_received m m'.
Proof.
  intros [Hf0 Hf1]. unfold sp_msg, msg_frames.
  set (h := if has (flags m) RT_I2C_NO_START then [] else rev st ++ address_frames m).
  replace (if has (flags m) RT_I2C_NO_START then _ else _) with (0, rev h ++ fs).
  2: { unfold h. destruct (has _ _); [done|]. by rewrite sp_address_acked, rev_app_distr, rev_involutive, (assoc_L app). }
  cbn [negb andb Z.eqb]. destruct (has (flags m) RT_I2C_RD) eqn:Erd.
  - pose proof (sp_recv_frames (Z.to_nat (msg_len m)) (has (flags m) RT_I2C_NO_READ_ACK) (rev h ++ fs)) as H.
    destruct (sp_recv _ _ _ _) as [bs fs']. destruct H as [Hl ->]. eexists. split.
    + f_equal. cbn [buf]. rewrite (take_app_length' bs) by done. by rewrite rev_app_distr, (assoc_L app).
    + unfold same_but_received. cbn. rewrite drop_app_length', length_app, length_drop by done. repeat split; (congruence || lia).
  - rewrite sp_bytes_acked, length_take, Nat.min_l, Z2Nat.id, Z.add_0_l, Z.ltb_irrefl by lia.
    exists m. by rewrite rev_app_distr, (assoc_L app).
Qed.

Lemma sp_msgs_acked st i stop ms fs :
  Forall fits ms ->
  exists ms' stop', sp_msgs l0 retries st i stop ms fs =
    (i + Z.of_nat (length ms), stop', ms', rev (msgs_frames (rev st) ms ms') ++ fs) /\ Forall2 same_but_received ms ms'.
Proof.
  intros Hf. revert st i stop fs. induction Hf as [|m ms Hm Hf IH]; intros st i stop fs; cbn [sp_msgs].
  { exists [], stop. by rewrite Z.add_0_r. }
  destruct (sp_msg_acked st m fs Hm) as (m' & -> & Hs).
  destruct (IH [FStart] (i + 1) (negb (has (flags m) RT_I2C_NO_STOP)) (rev (msg_frames (rev st) m m') ++ fs)) as (ms' & stop' & -> & Hs').
  exists (m' :: ms'), stop'. split; [|by constructor]. cbn [msgs_frames]. rewrite rev_app_distr, <-(assoc_L app). cbn [length rev app].
  f_equal. f_equal. f_equal. lia.
Qed.
End acked.

(** ** The lines *)

(** In the middle of a transfer the clock is low, outside it both lines are high. *)
Definition mid (l : list sym) (w : wires) : Prop := scl w = false /\ pulse w = None /\ syms w = l.
Definition idle_lines (l : list sym) (w : wires) : Prop := scl w = true /\ sda w = true /\ pulse w = None /\ syms w = l.
(** In a clock pulse. *)
Definition high (b : bool) (x : sym) (l : list sym) (w : wires) : Prop :=
  scl w = true /\ sda w = b /\ pulse w = Some x /\ syms w = l.

(** A slave that holds the clock at most [t] ticks, and a thread that does not oversleep
    for longer than 2^30. *)
Class LetsGo `{SL : Slave} (t : Z) : Prop := {
  lg_range : 0 <= t < 2 ^ 30;
  lg_late : forall x, 0 <= oversleep x < 2 ^ 30;
  lg_goes : forall l, exists r, r <= t /\ forall e, r <= e -> holds_scl l e = false
}.

Section lines.
Context `{SL : Slave} (dly tmo retr : Z) (turns : nat).
Context {LG : LetsGo tmo} (Hturns : tmo + 1 < Z.of_nat turns).

Local Instance lines : rt_i2c_bit_ops wires := wire_ops dly tmo retr turns.

Lemma elapsed_step t r n o e :
  u32 (t - r) = e -> 0 <= e < 2 ^ 30 -> 0 <= n <= 2 ^ 30 -> 0 <= o < 2 ^ 30 -> u32 (u32 (t + n + o) - r) = e + n + o.
Proof.
  unfold u32. intros He Hb Hn Ho.
  rewrite Zminus_mod_idemp_l. replace (t + n + o - r) with ((t - r) + (n + o)) by lia.
  rewrite <-Zplus_mod_idemp_l, He, Z.mod_small by lia. lia.
Qed.

Lemma scl_wait_ok fuel w r :
  scl w = true -> (forall e, r <= e -> holds_scl (syms w) e = false) -> r <= tmo ->
  r - u32 (tick w - released w) < Z.of_nat fuel -> (0 < fuel)%nat ->
  returns (scl_loop fuel (gets (fun w => Z.b2z (wire_get_scl w))) (released w)) w
    (fun v w' => v = 0 /\ scl w' = true /\ sda w' = sda w /\ pulse w' = pulse w /\ syms w' = syms w).
Proof.
  intros Hs Hr Hrt. revert w Hs Hr. induction fuel as [|fuel IH]; intros w Hs Hr Hf Hf0; [lia|].
  set (e := u32 (tick w - released w)) in *. assert (He0 : 0 <= e) by apply u32_range.
  cbn [scl_loop]. eapply returns_run; [reflexivity|]. unfold wire_get_scl at 1. rewrite Hs. cbn [andb]. fold e.
  destruct (holds_scl (syms w) e) eqn:Eh; cbn [negb Z.b2z Z.eqb]; [|by apply returns_ret].
  assert (Her : e < r) by (destruct (Z.lt_ge_cases e r); [done|]; rewrite Hr in Eh by done; done).
  pose proof lg_range as Ht. eapply returns_run; [reflexivity|]. change (tick_get w) with (Ret (tick w, w)). fold e. change bit_timeout with tmo.
  destruct (Z.ltb_spec tmo e); [lia|]. pose proof (lg_late (tick w)) as Ho.
  set (d := Z.shiftr (u32 (tmo + 1)) 1).
  assert (Hd : 1 <= d <= 2 ^ 30).
  { unfold d, u32. rewrite Z.mod_small, Z.shiftr_div_pow2 by lia. change (2 ^ 1) with 2. Z.div_mod_to_equations. lia. }
  eapply returns_run; [reflexivity|]. set (w1 := mkWires _ _ _ _ _ _).
  assert (E1 : u32 (tick w1 - released w1) = e + d + oversleep (tick w)) by (apply elapsed_step; (done || lia)).
  apply (IH w1); [done|done| |lia]. rewrite E1. lia.
Qed.

(** The clock rises: a pulse begins. *)
Lemma SCL_H_ok l w :
  mid l w -> returns SCL_H w (fun r w' => r = 0 /\ high (sda w) (Out (sda w)) l w').
Proof.
  intros (Hs & Hp & Hl). eapply returns_run; [reflexivity|]. change (negb (1 =? 0)) with true.
  unfold wire_set_scl at 1. rewrite Hs. cbn [Bool.eqb]. set (w1 := mkWires _ _ _ _ _ _).
  change get_scl with (Some (gets (fun w => Z.b2z (wire_get_scl w)))). cbv iota beta. eapply returns_run; [reflexivity|].
  destruct (lg_goes (syms w)) as (r & Hr & Hgo). pose proof lg_range as Ht.
  destruct (scl_wait_ok turns w1 (Z.max r 0)) as (v & w' & E & -> & H1 & H2 & H3 & H4); [done| |lia| | |].
  - intros e He. apply Hgo. lia.
  - cbn. rewrite Z.sub_diag. change (u32 0) with 0. lia.
  - lia.
  - eapply returns_run; [exact E|]. eexists 0, w'. split; [reflexivity|]. split; [done|]. unfold high. by rewrite H1, H2, H3, H4.
Qed.

(** The clock falls: the bit is complete. *)
Lemma SCL_L_high b x l w : high b x l w -> returns SCL_L w (fun _ w' => mid (x :: l) w' /\ sda w' = b).
Proof.
  intros (Hs & Hd & Hp & Hl). eexists tt, _. split; [reflexivity|]. change (negb (0 =? 0)) with false.
  unfold wire_set_scl. rewrite Hs, Hp, Hl. cbn. done.
Qed.

Lemma SCL_L_mid l w : mid l w -> returns SCL_L w (fun _ w' => mid l w' /\ sda w' = sda w).
Proof.
  intros (Hs & Hd & Hp). eexists tt, _. split; [reflexivity|]. change (negb (0 =? 0)) with false.
  unfold wire_set_scl. rewrite Hs. cbn. done.
Qed.

Lemma set_sda_mid v l w : mid l w -> returns (set_sda v) w (fun _ w' => mid l w' /\ sda w' = negb (v =? 0)).
Proof.
  intros (Hs & Hp & Hl). eexists tt, _. split; [reflexivity|]. unfold wire_set_sda.
  destruct (Bool.eqb_spec (sda w) (negb (v =? 0))) as [E|E]; [done|]. rewrite Hs. done.
Qed.

Lemma delay_ok (n : Z) w (Q : unit -> wires -> Prop) : Q tt w -> returns (udelay n) w Q.
Proof. intros HQ. by exists tt, w. Qed.

(** The clock is low, or falls next: either way the symbols are [l] then. *)
Definition ends_in (l : list sym) (w : wires) : Prop := mid l w \/ exists b x l', high b x l' w /\ l = x :: l'.

Lemma SCL_L_ok l w : ends_in l w -> returns SCL_L w (fun _ w' => mid l w' /\ sda w' = sda w).
Proof.
  intros [H|(b & x & l' & H & ->)]; [by apply SCL_L_mid|].
  eapply returns_mono; [by eapply SCL_L_high|]. intros [] w' [Hm ->]. destruct H as (_ & Hb & _). done.
Qed.

Lemma get_sda_high x l w :
  high true x l w -> returns get_sda w (fun v w' => v = Z.b2z (leaves_sda l) /\ high true (In (leaves_sda l)) l w').
Proof.
  intros (Hs & Hd & Hp & Hl). eexists _, _. split; [unfold get_sda; cbn; unfold wire_get_sda; rewrite Hd, Hp, Hl; reflexivity|].
  unfold high. cbn. done.
Qed.

Lemma i2c_start_ok l w : idle_lines l w -> returns i2c_start w (fun _ w' => mid (START :: l) w').
Proof.
  intros (Hs & Hd & Hp & Hl). eexists tt, _.
  split; [unfold i2c_start, SDA_L, SCL_L; cbn; unfold wire_set_sda; rewrite Hd, Hs; reflexivity|]. by rewrite Hl.
Qed.

(** The end of a START and of a STOP: the data line changes in the pulse. *)
Lemma sda_in_pulse b l w :
  high b (Out b) l w ->
  wire_set_sda (negb b) w = mkWires true (negb b) None ((if b then START else STOP) :: l) (released w) (tick w).
Proof. intros (Hs & Hd & Hp & Hl). unfold wire_set_sda. rewrite Hd, Hs, Hl. by destruct b. Qed.

Lemma i2c_restart_ok l w : mid l w -> returns i2c_restart w (fun _ w' => mid (START :: l) w').
Proof.
  intros Hm. eapply returns_bind; [by apply set_sda_mid|]. intros [] w1 [H1 E1].
  eapply returns_bind with (Q := fun _ w' => high true (Out true) l w').
  - eapply returns_bind; [by apply SCL_H_ok|]. intros r w2 [_ H2]. apply returns_ret. by rewrite E1 in H2.
  - intros [] w2 H2. eexists tt, _. split; [|].
    + unfold i2c_delay, SDA_L, SCL_L. cbn. rewrite (sda_in_pulse true l w2 H2 : wire_set_sda false w2 = _). reflexivity.
    + done.
Qed.

Lemma i2c_stop_ok l w : mid l w -> returns i2c_stop w (fun _ w' => idle_lines (STOP :: l) w').
Proof.
  intros Hm. eapply returns_bind; [by apply set_sda_mid|]. intros [] w1 [H1 E1].
  eapply returns_run; [reflexivity|].
  eapply returns_bind with (Q := fun _ w' => high false (Out false) l w').
  - eapply returns_bind; [by apply SCL_H_ok|]. intros r w2 [_ H2]. apply returns_ret. by rewrite E1 in H2.
  - intros [] w2 H2. eexists tt, _. split; [|].
    + unfold i2c_delay, i2c_delay2, SDA_H. cbn. rewrite (sda_in_pulse false l w2 H2 : wire_set_sda true w2 = _). reflexivity.
    + done.
Qed.

(** ** Bytes *)

Lemma land_1_testbit b i : 0 <= i -> negb (Z.land (Z.shiftr b i) 1 =? 0) = Z.testbit b i.
Proof.
  intros Hi. rewrite (Z.land_ones _ 1) by lia. change (2 ^ 1) with 2.
  rewrite <-(Z.add_0_l i) at 2. rewrite <-Z.shiftr_spec, Z.bit0_odd, Zmod_odd by lia. by destruct (Z.odd _).
Qed.

Lemma write_bits_ok n b l w :
  ends_in l w -> returns (write_bits n b) w (fun r w' => r = 0 /\ ends_in (out_bits n b l) w').
Proof.
  revert l w. induction n as [|i IH]; intros l w Hw; [by apply returns_ret|]. cbn [write_bits out_bits].
  eapply returns_bind; [by apply SCL_L_ok|]. intros [] w1 [H1 _].
  eapply returns_bind; [by apply set_sda_mid|]. intros [] w2 [H2 E2]. rewrite land_1_testbit in E2 by lia.
  eapply returns_run; [reflexivity|]. eapply returns_bind; [by apply SCL_H_ok|]. intros r w3 [-> H3]. rewrite E2 in H3.
  apply IH. right. eauto.
Qed.

Lemma ack_bit l w : mid l w -> returns i2c_waitack w (fun r w' => r = Z.b2z (negb (leaves_sda l)) /\ mid (In (leaves_sda l) :: l) w').
Proof.
  intros Hm. eapply returns_bind; [by apply set_sda_mid|]. intros [] w1 [H1 E1].
  eapply returns_run; [reflexivity|]. eapply returns_bind; [by apply SCL_H_ok|]. intros r w2 [-> H2]. rewrite E1 in H2.
  eapply returns_bind; [by eapply get_sda_high|]. intros v w3 [-> H3].
  eapply returns_bind; [by eapply SCL_L_high|]. intros [] w4 [H4 _]. apply returns_ret. split; [|done]. by destruct (leaves_sda l).
Qed.

Lemma i2c_writeb_ok b l w :
  mid l w ->
  returns (i2c_writeb b) w (fun r w' => let ack := negb (leaves_sda (out_bits 8 b l)) in
                                        r = Z.b2z ack /\ mid (frame_syms (FSend b ack) l) w').
Proof.
  intros Hm. eapply returns_bind; [apply (write_bits_ok 8); by left|]. intros r w1 [-> H1]. change (0 <? 0) with false. cbv iota.
  eapply returns_bind; [by apply SCL_L_ok|]. intros [] w2 [H2 _]. eapply returns_run; [reflexivity|].
  eapply returns_mono; [by apply ack_bit|]. intros r w3 [-> H3]. cbn [frame_syms]. by rewrite negb_involutive.
Qed.

(** The byte of the slave's bits has these bits. *)
Lemma slave_bits_testbit n b l i :
  Z.of_nat n <= i -> Z.testbit (slave_bits n b l) i = Z.testbit b (i - Z.of_nat n).
Proof.
  revert b l i. induction n as [|n IH]; intros b l i Hi; [by rewrite Z.sub_0_r|].
  cbn [slave_bits]. rewrite IH by lia. replace (i - Z.of_nat n) with (Z.succ (i - Z.of_nat (S n))) by lia.
  destruct (leaves_sda l); [apply Z.testbit_odd_succ|cbn [Z.b2z]; rewrite Z.add_0_r; apply Z.testbit_even_succ]; lia.
Qed.

Lemma in_bits_slave n b l :
  in_bits (S n) (slave_bits (S n) b l) l = in_bits n (slave_bits n (2 * b + Z.b2z (leaves_sda l)) (In (leaves_sda l) :: l)) (In (leaves_sda l) :: l).
Proof.
  cbn [in_bits slave_bits]. rewrite slave_bits_testbit by lia. rewrite Z.sub_diag.
  replace (Z.testbit _ 0) with (leaves_sda l); [done|].
  rewrite Z.bit0_odd, Z.odd_add, Z.odd_mul. by destruct (leaves_sda l).
Qed.

Lemma slave_bits_range n b l : 0 <= b -> 0 <= slave_bits n b l < (b + 1) * 2 ^ Z.of_nat n.
Proof.
  revert b l. induction n as [|n IH]; intros b l Hb; [cbn; lia|]. cbn [slave_bits].
  pose proof (IH (2 * b + Z.b2z (leaves_sda l)) (In (leaves_sda l) :: l)) as H.
  rewrite Nat2Z.inj_succ, Z.pow_succ_r by lia. destruct (leaves_sda l); cbn [Z.b2z] in *; nia.
Qed.

Lemma read_bits_ok n b l w :
  mid l w -> sda w = true -> (n <= 8)%nat -> 0 <= b < 2 ^ (8 - Z.of_nat n) ->
  returns (read_bits n b) w (fun r w' => r = slave_bits n b l /\ mid (in_bits n r l) w' /\ sda w' = true).
Proof.
  revert b l w. induction n as [|n IH]; intros b l w Hm Hd Hn Hb; [by apply returns_ret|]. cbn [read_bits].
  assert (H2b : 2 * b + 2 <= 2 ^ (8 - Z.of_nat n)).
  { replace (8 - Z.of_nat n) with (Z.succ (8 - Z.of_nat (S n))) by lia. rewrite Z.pow_succ_r by lia. lia. }
  pose proof (Z.pow_le_mono_r 2 (8 - Z.of_nat n) 8 ltac:(lia) ltac:(lia)) as Hle.
  assert (E2 : u8 (Z.shiftl b 1) = 2 * b) by (rewrite Z.shiftl_mul_pow2 by lia; unfold u8; rewrite Z.mod_small; lia).
  eapply returns_bind; [by apply SCL_H_ok|]. intros r w1 [-> H1]. rewrite Hd in H1. change (0 <? 0) with false. cbv iota.
  eapply returns_bind; [by eapply get_sda_high|]. intros v w2 [-> H2].
  eapply returns_bind; [by eapply SCL_L_high|]. intros [] w3 [H3 E3]. eapply returns_run; [reflexivity|].
  replace (if Z.b2z (leaves_sda l) =? 0 then u8 (Z.shiftl b 1) else Z.lor (u8 (Z.shiftl b 1)) 1) with (2 * b + Z.b2z (leaves_sda l)).
  2: { rewrite E2. destruct (leaves_sda l), b; (reflexivity || lia). }
  eapply returns_mono; [apply IH; [done|done|lia|destruct (leaves_sda l); cbn [Z.b2z]; lia]|].
  intros r w4 (-> & H4 & E4). split; [done|]. split; [|done]. by rewrite <-in_bits_slave in H4.
Qed.

Context (l0 : list sym).

(** Between frames. *)
Definition after (fs : list frame) (w : wires) : Prop := mid (syms_of fs l0) w.

Lemma send_ok b fs w :
  after fs w -> returns (i2c_writeb b) w (fun r w' => let '(ack, fs') := sp_send l0 b fs in r = Z.b2z ack /\ after fs' w').
Proof. apply i2c_writeb_ok. Qed.

Lemma i2c_readb_ok fs w :
  after fs w ->
  returns i2c_readb w (fun r w' => r = byte_of_slave l0 fs /\ 0 <= r < 256 /\ after (FRecv r None :: fs) w' /\ sda w' = true).
Proof.
  intros Hm. eapply returns_bind; [by apply set_sda_mid|]. intros [] w1 [H1 E1]. eapply returns_run; [reflexivity|].
  eapply returns_mono; [by apply (read_bits_ok 8); [..|lia|lia]|]. intros r w2 (-> & H2 & E2).
  split; [done|]. split; [apply (slave_bits_range 8); lia|]. done.
Qed.

Lemma master_ack_ok b ack fs w :
  after (FRecv b None :: fs) w -> sda w = true ->
  returns (i2c_send_ack_or_nack ack) w (fun r w' => r = 0 /\ after (FRecv b (Some (negb (ack =? 0))) :: fs) w').
Proof.
  intros Hm Hd.
  eapply returns_bind with (Q := fun _ w' => after (FRecv b None :: fs) w' /\ sda w' = (ack =? 0)).
  { destruct (ack =? 0); [by apply returns_ret|]. by apply set_sda_mid. }
  intros [] w1 [H1 E1]. eapply returns_run; [reflexivity|].
  eapply returns_bind; [by apply SCL_H_ok|]. intros r w2 [-> H2]. change (0 <? 0) with false. cbv iota.
  eapply returns_bind; [by eapply SCL_L_high|]. intros [] w3 [H3 _]. apply returns_ret. split; [done|].
  rewrite E1 in H3. unfold after. cbn [syms_of foldr frame_syms]. by rewrite negb_involutive.
Qed.

Lemma send_bytes_ok ign data count p bytes fs w :
  after fs w -> (p + count <= length data)%nat ->
  returns (send_bytes_loop count (Z.of_nat p) bytes data ign) w
    (fun r w' => let '(r', fs') := sp_bytes l0 (take count (drop p data)) ign bytes fs in r = r' /\ after fs' w').
Proof.
  revert p bytes fs w. induction count as [|count IH]; intros p bytes fs w Hm Hlen; [by apply returns_ret|].
  cbn [send_bytes_loop]. destruct (lookup_lt_is_Some_2 data p ltac:(lia)) as [b Hb].
  rewrite (drop_S data b p Hb). cbn [take sp_bytes].
  eapply returns_deref; [unfold znth; destruct (Z.ltb_spec (Z.of_nat p) 0); [lia|]; by rewrite Nat2Z.id|].
  eapply returns_bind; [by apply send_ok|]. intros r w1. destruct (sp_send l0 b fs) as [k fs1]. intros [-> H1].
  replace ((0 <? Z.b2z k) || (ign && (Z.b2z k =? 0))) with (k || ign) by by destruct k, ign.
  destruct (k || ign) eqn:Ek.
  - replace (Z.of_nat p + 1) with (Z.of_nat (S p)) by lia. apply IH; [done|lia].
  - destruct k; [done|]. by apply returns_ret.
Qed.

Lemma recv_bytes_ok no_ack count p bytes data fs w :
  after fs w -> (p + count <= length data)%nat ->
  returns (recv_bytes_loop count (Z.of_nat p) bytes data no_ack) w
    (fun r w' => let '(bs, fs') := sp_recv l0 count no_ack fs in
                 r = (bytes + Z.of_nat count, take p data ++ bs ++ drop (p + count) data) /\ after fs' w').
Proof.
  revert p bytes data fs w. induction count as [|count IH]; intros p bytes data fs w Hm Hlen.
  { apply returns_ret. cbn. by rewrite Nat.add_0_r, take_drop, Z.add_0_r. }
  cbn [recv_bytes_loop sp_recv]. eapply returns_bind; [by apply i2c_readb_ok|]. intros r w1 (-> & Hr & H1 & E1).
  set (b := byte_of_slave l0 fs) in *. destruct (Z.leb_spec 0 b); [|lia].
  destruct (lookup_lt_is_Some_2 data p ltac:(lia)) as [x Hx].
  eapply returns_deref; [unfold znth; destruct (Z.ltb_spec (Z.of_nat p) 0); [lia|]; by rewrite Nat2Z.id|].
  assert (K : forall fs1 w2, after fs1 w2 ->
    returns (recv_bytes_loop count (Z.of_nat p + 1) (bytes + 1) (zupd data (Z.of_nat p) b) no_ack) w2
      (fun r w' => let '(bs, fs') := sp_recv l0 count no_ack fs1 in
        r = (bytes + Z.of_nat (S count), take p data ++ b :: bs ++ drop (p + S count) data) /\ after fs' w')).
  { intros fs1 w2 H2. replace (Z.of_nat p + 1) with (Z.of_nat (S p)) by lia.
    eapply returns_mono; [apply (IH (S p)); [exact H2|rewrite length_zupd; lia]|].
    intros r w3. destruct (sp_recv l0 count no_ack fs1) as [bs fs']. intros [-> H3]. split; [|done].
    unfold zupd. rewrite Nat2Z.id, drop_insert_lt by lia. erewrite take_S_r by by apply list_lookup_insert_eq; lia.
    rewrite take_insert_ge, <-(assoc_L app) by lia. f_equal; [lia|]. cbn. by rewrite Nat.add_succ_r. }
  destruct no_ack; cbn [negb].
  - eapply returns_mono; [by apply K|]. intros r w2. by destruct (sp_recv l0 count true _).
  - eapply returns_bind; [by apply (master_ack_ok b)|]. intros r w2 [-> H2]. change (0 <? 0) with false. cbv iota.
    replace (negb (Z.of_nat count =? 0)) with (negb (count =? 0)%nat) in H2 by by destruct count.
    eapply returns_mono; [by apply K|]. intros r w3. by destruct (sp_recv l0 count false _).
Qed.

(** ** Addresses *)

Lemma bit_stop_ok fs w : after fs w -> returns i2c_stop w (fun _ w' => idle_lines (syms_of (FStop :: fs) l0) w').
Proof. apply i2c_stop_ok. Qed.
Lemma start_ok fs w : idle_lines (syms_of fs l0) w -> returns i2c_start w (fun _ w' => after (FStart :: fs) w').
Proof. apply i2c_start_ok. Qed.
Lemma restart_ok fs w : after fs w -> returns i2c_restart w (fun _ w' => after (FStart :: fs) w').
Proof. apply i2c_restart_ok. Qed.

(** What a function that ends with a yes or no does, by its specification. *)
Definition answers (p : bool * list frame) (r : Z) (w : wires) : Prop := r = Z.b2z (fst p) /\ after (snd p) w.

Lemma attempts_ok n a fs w : after fs w -> returns (send_address_loop n a) w (answers (sp_attempts l0 n a fs)).
Proof.
  revert fs w. induction n as [|n IH]; intros fs w Hm; cbn [send_address_loop sp_attempts].
  all: eapply returns_bind; [by apply send_ok|]; intros r w1; destruct (sp_send l0 a fs) as [k fs1]; intros [-> H1].
  { by apply returns_ret. }
  destruct k; [by apply returns_ret|]. change (Z.b2z false =? 1) with false. cbv iota.
  eapply returns_bind; [by apply bit_stop_ok|]. intros [] w2 H2. eapply returns_run; [reflexivity|].
  eapply returns_bind; [by apply start_ok|]. intros [] w3 H3. by apply IH.
Qed.

Lemma addr_byte_ok a retr' fs w : after fs w -> returns (i2c_send_address a retr') w (answers (sp_addr_byte l0 a retr' fs)).
Proof. intros Hm. unfold i2c_send_address, sp_addr_byte. destruct (i32 retr' <? 0); [by apply returns_ret|by apply attempts_ok]. Qed.

Definition yields {A} (q : A * list frame) (r : A) (w : wires) : Prop := r = fst q /\ after (snd q) w.

(** [or_eio] after a function that ends with a yes or no. *)
Lemma or_eio_ok k fs r w ign (m : M wires Z) (q : Z * list frame) :
  answers (k, fs) r w -> (after fs w -> returns m w (yields q)) ->
  returns (or_eio r ign m) w (yields (if negb k && negb ign then (- RT_EIO, fs) else q)).
Proof.
  intros [-> Hm] Hk. cbn in Hm. unfold or_eio. cbn [fst]. replace (Z.b2z k =? 1) with k by by destruct k.
  destruct (negb k && negb ign); [by apply returns_ret|by apply Hk].
Qed.

Lemma send_answers b fs w : after fs w -> returns (i2c_writeb b) w (answers (sp_send l0 b fs)).
Proof. apply send_ok. Qed.

Lemma bit_address_ok m fs w :
  after fs w -> returns (i2c_bit_send_address m) w (yields (sp_address l0 retr m fs)).
Proof.
  intros Hm. unfold i2c_bit_send_address, sp_address. change bus_retries with retr.
  set (ign := has (flags m) RT_I2C_IGNORE_NACK). set (rd := has (flags m) RT_I2C_RD).
  destruct (has (flags m) RT_I2C_ADDR_10BIT).
  - eapply returns_bind; [by apply addr_byte_ok|]. intros r1 w1. destruct (sp_addr_byte _ _ _ fs) as [k1 fs1].
    intros H1. eapply or_eio_ok; [exact H1|]. clear w Hm. intros Hm.
    eapply returns_bind; [by apply send_answers|]. intros r2 w2. destruct (sp_send _ _ fs1) as [k2 fs2].
    intros H2. eapply or_eio_ok; [exact H2|]. clear Hm. intros Hm. destruct rd; [|by apply returns_ret].
    eapply returns_bind; [by apply restart_ok|]. intros [] w3 H3.
    eapply returns_bind; [by apply addr_byte_ok|]. intros r4 w4. destruct (sp_addr_byte _ _ _ (FStart :: fs2)) as [k4 fs4].
    intros H4. eapply or_eio_ok; [exact H4|]. intros H. by apply returns_ret.
  - eapply returns_bind; [by apply addr_byte_ok|]. intros r1 w1. destruct (sp_addr_byte _ _ _ fs) as [k1 fs1].
    intros H1. eapply or_eio_ok; [exact H1|]. intros H. by apply returns_ret.
Qed.

(** ** Messages *)

(** How the lines are before a message, and with what its START shows. *)
Inductive before (fs : list frame) : Z -> list frame -> wires -> Prop :=
| before_first w : idle_lines (syms_of fs l0) w -> before fs 0 [FStart] w
| before_unstopped w : after fs w -> before fs 0 [] w
| before_next i w : i <> 0 -> after fs w -> before fs i [FStart] w.

(** START from the middle of a transfer is none: the clock is low. *)
Lemma start_mid fs w : after fs w -> returns i2c_start w (fun _ w' => after fs w').
Proof.
  intros Hm. eapply returns_bind; [by apply set_sda_mid|]. intros [] w1 [H1 _]. eapply returns_run; [reflexivity|].
  eapply returns_mono; [by apply SCL_L_mid|]. by intros [] w2 [H2 _].
Qed.

Lemma begin_ok fs i st w :
  before fs i st w -> returns (if negb (i =? 0) then i2c_restart else i2c_start) w (fun _ w' => after (st ++ fs) w').
Proof.
  intros [w1 H|w1 H|i1 w1 Hi H]; [by apply start_ok|by apply start_mid|].
  destruct (Z.eqb_spec i1 0); [done|]. by apply restart_ok.
Qed.

Lemma sp_bytes_nonneg data ign n fs : 0 <= n -> 0 <= fst (sp_bytes l0 data ign n fs).
Proof.
  revert n fs. induction data as [|b data IH]; intros n fs Hn; [done|]. cbn [sp_bytes].
  destruct (sp_send l0 b fs) as [k fs1]. destruct (k || ign); [apply IH; lia|done].
Qed.

Lemma msg_ok i st m fs w :
  fits m -> before fs i st w -> (has (flags m) RT_I2C_NO_START = true -> after fs w) ->
  returns (bit_xfer_msg i m) w (yields (sp_msg l0 retr st m fs)).
Proof.
  intros Hf Hb Hn. unfold bit_xfer_msg, sp_msg.
  eapply returns_bind with (Q := yields (if has (flags m) RT_I2C_NO_START then (0, fs) else sp_address l0 retr m (st ++ fs))).
  { destruct (has (flags m) RT_I2C_NO_START); cbn [negb]; [apply returns_ret; split; [done|by apply Hn]|].
    eapply returns_bind; [by apply begin_ok|]. intros [] w1 H1. by apply bit_address_ok. }
  intros r w1. destruct (if has (flags m) RT_I2C_NO_START then _ else _) as [r' fs1]. intros [-> H1]. cbn [fst snd] in *.
  change RT_EOK with 0. destruct (negb (r' =? 0) && negb _); [by apply returns_ret|]. destruct Hf as [Hf0 Hf1].
  destruct (has (flags m) RT_I2C_RD).
  - eapply returns_bind with (Q := yields (let (bs, fs2) := sp_recv l0 (Z.to_nat (msg_len m)) (has (flags m) RT_I2C_NO_READ_ACK) fs1 in
      ((msg_len m, mkMsg (addr m) (flags m) (msg_len m) (bs ++ drop (Z.to_nat (msg_len m)) (buf m))), fs2))).
    + eapply returns_bind; [apply (recv_bytes_ok _ _ 0); [exact H1|lia]|]. intros r w2.
      destruct (sp_recv l0 _ _ fs1) as [bs fs2]. intros [-> H2]. apply returns_ret. split; [|done].
      cbn [fst take app]. by rewrite Nat.add_0_l, Z2Nat.id, Z.add_0_l by lia.
    + intros r w2. destruct (sp_recv l0 _ _ fs1) as [bs fs2]. intros [-> H2]. cbn [fst snd] in *.
      rewrite Z.ltb_irrefl. by apply returns_ret.
  - eapply returns_bind; [apply (send_bytes_ok _ _ _ 0); [exact H1|lia]|]. intros r w2.
    pose proof (sp_bytes_nonneg (take (Z.to_nat (msg_len m)) (buf m)) (has (flags m) RT_I2C_IGNORE_NACK) 0 fs1) as Hp.
    destruct (sp_bytes l0 _ _ 0 fs1) as [r2 fs2] eqn:E. intros [-> H2]. apply returns_ret.
    cbn [fst] in Hp. destruct (Z.leb_spec 0 r2); [done|lia].
Qed.

Lemma sp_msg_flags st m fs : flags (snd (fst (sp_msg l0 retr st m fs))) = flags m.
Proof.
  unfold sp_msg. destruct (if has (flags m) RT_I2C_NO_START then _ else _) as [r fs1].
  destruct (_ && _); [done|]. destruct (has (flags m) RT_I2C_RD); [by destruct (sp_recv _ _ _ _)|by destruct (sp_bytes _ _ _ _ _)].
Qed.

Definition stops (msg : option rt_i2c_msg) (stop : bool) : Prop :=
  exists m, msg = Some m /\ stop = negb (has (flags m) RT_I2C_NO_STOP).

(** A message without START is not the first on an idle bus. *)
Definition starts (fs : list frame) (ms : list rt_i2c_msg) (w : wires) : Prop :=
  match ms with [] => after fs w | m :: _ => has (flags m) RT_I2C_NO_START = true -> after fs w end.

Lemma loop_ok post pre i st stop last fs w :
  i = Z.of_nat (length pre) -> Forall fits post -> before fs i st w -> starts fs post w -> (post = [] -> stops last stop) ->
  returns (bit_xfer_loop (length post) i (pre ++ post) last) w
    (fun x w' => let '(r, stop', post', fs') := sp_msgs l0 retr st i stop post fs in
                 fst (fst x) = r /\ snd x = pre ++ post' /\ stops (snd (fst x)) stop' /\ after fs' w').
Proof.
  revert pre i st stop last fs w. induction post as [|m post IH]; intros pre i st stop last fs w -> Hf Hb Hs Hl.
  { apply returns_ret. split; [done|]. split; [done|]. split; [by apply Hl|done]. }
  inversion Hf as [|? ? Hm Hf']; subst. cbn [length bit_xfer_loop sp_msgs].
  eapply returns_deref; [unfold znth; destruct (Z.ltb_spec (Z.of_nat (length pre)) 0); [lia|]; by rewrite Nat2Z.id, list_lookup_middle|].
  eapply returns_bind; [by apply msg_ok|]. intros x w1 [-> H1]. pose proof (sp_msg_flags st m fs) as Hfl.
  destruct (sp_msg l0 retr st m fs) as [[[r|] m'] fs1]; cbn [fst snd] in *; unfold zupd; rewrite Nat2Z.id, insert_app_r_alt, Nat.sub_diag by lia.
  - apply returns_ret. split; [done|]. split; [done|]. split; [|done]. exists m'. by rewrite Hfl.
  - cbn. rewrite (cons_middle m' pre post : pre ++ m' :: post = _), (assoc_L app).
    eapply returns_mono; [apply (IH (pre ++ [m']) _ [FStart] (negb (has (flags m) RT_I2C_NO_STOP)) _ fs1)|].
    + rewrite length_app. cbn. lia.
    + done.
    + apply before_next; [lia|done].
    + destruct post; [done|]. by intros _.
    + intros _. exists m'. by rewrite Hfl.
    + intros x w2. destruct (sp_msgs _ _ _ _ _ _ _) as [[[r2 stop2] ms2] fs2]. intros (E1 & E2 & E3 & E4).
      split; [done|]. split; [|done]. rewrite E2, <-(assoc_L app). done.
Qed.

(** A transfer, by how the lines are before it. *)
Lemma xfer_ok ms num st w :
  num = Z.of_nat (length ms) -> 0 < num -> Forall fits ms -> before [] 0 st w -> starts [] ms w ->
  returns (i2c_bit_xfer ms num) w
    (fun x w' => let '(r, stop, ms', fs) := sp_msgs l0 retr st 0 false ms [] in
                 x = (u32 r, ms') /\ if stop then idle_lines (syms_of (FStop :: fs) l0) w' else after fs w').
Proof.
  intros -> Hn Hf Hb Hs. unfold i2c_bit_xfer. destruct (Z.eqb_spec (Z.of_nat (length ms)) 0); [lia|]. rewrite Nat2Z.id.
  eapply returns_bind; [apply (loop_ok ms [] 0 st false None []); try done; [intros ->; cbn in Hn; lia]|]. intros [[r msg] ms'] w1.
  destruct (sp_msgs _ _ _ _ _ _ _) as [[[r2 stop] ms2] fs]. cbn [fst snd]. intros (-> & -> & (m & -> & ->) & H1).
  eapply returns_deref; [reflexivity|]. destruct (has (flags m) RT_I2C_NO_STOP).
  - eapply returns_run; [reflexivity|]. by apply returns_ret.
  - eapply returns_bind; [by apply bit_stop_ok|]. intros [] w2 H2. by apply returns_ret.
Qed.
End lines.

(** C26: a transfer by software on two lines.  Whatever the slave answers and sends, if it
    holds the clock no longer than the time-out, [i2c_bit_xfer] of messages whose buffers hold
    their lengths returns, and it is the transfer on frames: each message that has an address
    begins with START and is addressed, again after STOP and START while nobody answers and
    attempts are left; bytes follow in order, every received one acknowledged but the last;
    the first failure ends it, and STOP comes unless the message reached says not.  Nothing
    else is seen on the lines: no other START or STOP, no bit more or less.  The buffers hold
    the bits of the slave.  When it acknowledges everything, the result is the number of
    messages and the frames are those of the messages.  On lines that a transfer without STOP
    has left, the first START is missing. *)
Theorem soft_i2c_transfer `{SL : Slave} dly tmo retr turns {LG : LetsGo tmo} l0 st ms num w :
  tmo + 1 < Z.of_nat turns -> num = Z.of_nat (length ms) -> 0 < num < 2 ^ 31 -> Forall fits ms ->
  (idle_lines l0 w /\ st = [FStart] /\ (has (default 0 (flags <$> head ms)) RT_I2C_NO_START = false) \/ mid l0 w /\ st = []) ->
  exists r stop ms' fs w',
    i2c_bit_xfer (BO := wire_ops dly tmo retr turns) ms num w = Ret ((u32 r, ms'), w') /\
    sp_msgs l0 retr st 0 false ms [] = (r, stop, ms', fs) /\
    (if stop then idle_lines (syms_of (FStop :: fs) l0) w' else mid (syms_of fs l0) w') /\
    ((forall b l, leaves_sda (out_bits 8 b l) = false) -> 0 <= i32 retr ->
     r = num /\ Forall2 same_but_received ms ms' /\ fs = rev (msgs_frames st ms ms')).
Proof.
  intros Ht Hn Hr Hf Hw.
  destruct (xfer_ok dly tmo retr turns Ht l0 ms num st w) as ([v ms'] & w' & E & H); try done; [lia|..].
  - destruct Hw as [(Hi & -> & _)|[Hm ->]]; [by apply before_first|by apply before_unstopped].
  - destruct ms as [|m ms]; cbn in *; [lia|]. destruct Hw as [(_ & _ & Hn0)|[Hm _]]; [by rewrite Hn0|done].
  - destruct (sp_msgs l0 retr st 0 false ms []) as [[[r stop] ms2] fs] eqn:Es. destruct H as [[= -> ->] H].
    exists r, stop, ms2, fs, w'. split_and!; [exact E|done|by destruct stop|].
    intros Ha Hretr. destruct (sp_msgs_acked l0 retr Hretr Ha st 0 false ms [] Hf) as (ms3 & stop3 & E3 & Hs).
    rewrite Es, app_nil_r in E3. injection E3 as -> _ -> ->. split_and!; [lia|done|].
    destruct Hw as [(_ & -> & _)|[_ ->]]; done.
Qed.

Section example.
(** A slave that acknowledges, sends alternating bits and holds the clock for two ticks. *)
Local Instance example_slave : Slave := {|
  leaves_sda l := match l with In v :: _ => negb v | _ => false end;
  holds_scl l e := e <? 2;
  oversleep t := 1
|}.

Lemma example_lets_go : LetsGo 10.
Proof. split; [lia|intros; cbn; lia|]. intros l. exists 2. split; [lia|]. intros e He. cbn. lia. Qed.

Lemma soft_i2c_transfer_witness :
  exists w', i2c_bit_xfer (BO := wire_ops 10 10 3 20) [mkMsg 0x50 0 1 [7]; mkMsg 0x50 RT_I2C_RD 2 [0; 0]] 2 (mkWires true true None [] 0 0) =
             Ret ((2, [mkMsg 0x50 0 1 [7]; mkMsg 0x50 RT_I2C_RD 2 [0xaa; 0x55]]), w') /\
    idle_lines (syms_of (FStop :: rev [FStart; FSend 0xa0 true; FSend 7 true; FStart; FSend 0xa1 true; FRecv 0xaa (Some true); FRecv 0x55 (Some false)]) []) w'.
Proof.
  pose proof example_lets_go as LG.
  destruct (soft_i2c_transfer 10 10 3 20 [] [FStart] [mkMsg 0x50 0 1 [7]; mkMsg 0x50 RT_I2C_RD 2 [0; 0]] 2 (mkWires true true None [] 0 0))
    as (r & stop & ms' & fs & w' & E & Es & Hw & _).
  - lia.
  - reflexivity.
  - lia.
  - repeat constructor; cbn; lia.
  - left. repeat split; reflexivity.
  - exists w'. vm_compute in Es. injection Es as <- <- <- <-. split; [exact E|exact Hw].
Defined.
End example.
