(* ===== verification/SoftI2cPins.v ===== *)
(** * Software I2C on pins

    What [drv_softi2c.c] does with the two pins of a bus, on the abstract board: writing,
    reading and setting up, and in what state a stuck slave leaves them. *)

From Stdlib Require Import ZArith Lia Bool.
From stdpp Require Import base tactics numbers list option gmap.
From S2P Require Import Prelude Gpio GpioPins GpioSession SoftI2c.

Open Scope Z_scope.

(** A result [r] and a board that [b'] describes. *)
Definition ends_on {A} (r : A) (b' : board) (x : A) (s : gpio) : Prop := x = r /\ board_rel s b'.

Lemma mode_on s b p mode : board_rel s b -> returns (rt_pin_mode p mode) s (ends_on tt (spec_mode p mode b)).
Proof.
  intros H. destruct (pin_mode_ok s b p mode H) as (v & s' & E & _ & Hs). revert E. unfold bind.
  destruct (rt_pin_mode p mode s) as [[[] s1]| | |] eqn:E1; try done. intros [= <- <-]. exists tt, s1. done.
Qed.

Lemma write_on s b p v : board_rel s b -> returns (rt_pin_write p v) s (ends_on tt (spec_write p v b)).
Proof.
  intros H. destruct (pin_write_ok s b p v H) as (x & s' & E & _ & Hs). revert E. unfold bind.
  destruct (rt_pin_write p v s) as [[[] s1]| | |] eqn:E1; try done. intros [= <- <-]. exists tt, s1. done.
Qed.

Section pins.
Context `{GE : GpioEnv} (cfg : nu_soft_i2c_config).

(** ** The functions on the board *)

Definition spec_gpio_init (b : board) : board :=
  spec_write (cfg_sda cfg) 1 (spec_write (cfg_scl cfg) 1 (spec_mode (cfg_sda cfg) 4 (spec_mode (cfg_scl cfg) 4 b))).

Definition spec_clocks (n : nat) (b : board) : board :=
  Nat.iter n (fun b => spec_write (cfg_scl cfg) 0 (spec_write (cfg_scl cfg) 1 b)) b.

Definition spec_unlock (b : board) : Z * board :=
  let b' := if spec_read (cfg_sda cfg) b =? 0 then spec_clocks 9 b else b in
  (if spec_read (cfg_sda cfg) b' =? 0 then - RT_ERROR else RT_EOK, b').

Lemma set_line_on s b state :
  board_rel s b ->
  returns (nu_soft_i2c_set_scl cfg state) s (ends_on tt (spec_write (cfg_scl cfg) (if state =? 0 then 0 else 1) b)) /\
  returns (nu_soft_i2c_set_sda cfg state) s (ends_on tt (spec_write (cfg_sda cfg) (if state =? 0 then 0 else 1) b)).
Proof. intros H. unfold nu_soft_i2c_set_scl, nu_soft_i2c_set_sda. destruct (state =? 0); split; by apply write_on. Qed.

Lemma gpio_init_on s b : board_rel s b -> returns (nu_soft_i2c_gpio_init cfg) s (ends_on tt (spec_gpio_init b)).
Proof.
  intros H. unfold nu_soft_i2c_gpio_init.
  eapply returns_bind; [by apply mode_on|]. intros [] s1 [_ H1].
  eapply returns_bind; [by apply mode_on|]. intros [] s2 [_ H2].
  eapply returns_bind; [by apply write_on|]. intros [] s3 [_ H3]. by apply write_on.
Qed.

Lemma clocks_on n s b : board_rel s b -> returns (unlock_loop cfg n) s (ends_on tt (spec_clocks n b)).
Proof.
  revert s b. induction n as [|n IH]; intros s b H; [by apply returns_ret|]. cbn [unlock_loop].
  eapply returns_bind; [by apply write_on|]. intros [] s1 [_ H1]. eapply returns_run; [reflexivity|].
  eapply returns_bind; [by apply write_on|]. intros [] s2 [_ H2]. eapply returns_run; [reflexivity|].
  unfold spec_clocks. rewrite Nat.iter_succ_r. by apply IH.
Qed.

Lemma unlock_on s b : board_rel s b -> returns (nu_soft_i2c_bus_unlock cfg) s (ends_on (fst (spec_unlock b)) (snd (spec_unlock b))).
Proof.
  intros H. unfold nu_soft_i2c_bus_unlock, spec_unlock. change PIN_LOW with 0.
  eapply returns_bind; [by apply (pin_read_ok s b)|]. intros v s1 [-> H1]. cbn [fst snd] in *.
  eapply returns_bind with (Q := ends_on tt (if spec_read (cfg_sda cfg) b =? 0 then spec_clocks 9 b else b)).
  { destruct (_ =? 0); [by apply clocks_on|by apply returns_ret]. }
  intros [] s2 [_ H2]. eapply returns_bind; [by apply (pin_read_ok s2)|]. intros v s3 [-> H3]. cbn [fst snd] in *.
  set (b2 := if _ =? 0 then spec_clocks 9 b else b) in *; destruct (spec_read (cfg_sda cfg) b2 =? 0); by apply returns_ret.
Qed.

Lemma init_bus_on s b :
  board_rel s b -> returns (rt_soft_i2c_init_bus cfg RT_EOK) s (ends_on tt (snd (spec_unlock (spec_gpio_init b)))).
Proof.
  intros H. unfold rt_soft_i2c_init_bus. eapply returns_bind; [by apply gpio_init_on|]. intros [] s1 [_ H1].
  eapply returns_run; [reflexivity|]. eapply returns_bind; [by apply unlock_on|]. intros v s2 [_ H2]. by apply returns_ret.
Qed.

(** ** A slave that keeps the data line low *)

Context (Hscl : is_pin (cfg_scl cfg)) (Hsda : is_pin (cfg_sda cfg)) (Hne : cfg_scl cfg <> cfg_sda cfg).

Lemma pin_phys p : is_pin p -> no_port p = false /\ phys p = p.
Proof.
  intros Hp. assert (E : phys p = p) by (apply phys_small; unfold is_pin in Hp; lia).
  split; [|done]. unfold no_port. apply Z.leb_gt. rewrite <-(proj1 (phys_split p)), E. unfold NU_PORT_CNT.
  unfold is_pin in Hp. Z.div_mod_to_equations. lia.
Qed.

Lemma cfg_on_pin q f b q' : GpioSession.cfg (on_pin q f b) q' = if decide (q' = q) then f (GpioSession.cfg b q) else GpioSession.cfg b q'.
Proof. reflexivity. Qed.

(** Both lines are open-drain and the data line is released, and the slave holds it. *)
Definition stuck (b : board) : Prop :=
  dir (GpioSession.cfg b (cfg_scl cfg)) = 2 /\ dir (GpioSession.cfg b (cfg_sda cfg)) = 2 /\
  out (GpioSession.cfg b (cfg_sda cfg)) = true /\ wire b (cfg_sda cfg) = false.

Lemma stuck_write_scl b v : stuck b -> stuck (spec_write (cfg_scl cfg) v b) /\
  out (GpioSession.cfg (spec_write (cfg_scl cfg) v b) (cfg_scl cfg)) = Z.testbit v 0.
Proof.
  intros (H1 & H2 & H3 & H4). unfold stuck, spec_write. destruct (pin_phys _ Hscl) as [-> ->].
  rewrite !cfg_on_pin, !(decide_True (P := cfg_scl cfg = cfg_scl cfg)), !(decide_False (P := cfg_sda cfg = cfg_scl cfg)) by congruence. done.
Qed.

Lemma stuck_clocks n b : stuck b -> stuck (spec_clocks (S n) b) /\ out (GpioSession.cfg (spec_clocks (S n) b) (cfg_scl cfg)) = false.
Proof.
  intros H. assert (Hn : stuck (spec_clocks n b)) by (induction n; [done|by apply stuck_write_scl, stuck_write_scl]).
  by apply stuck_write_scl, stuck_write_scl.
Qed.

Lemma stuck_init b : wire b (cfg_sda cfg) = false -> stuck (spec_gpio_init b).
Proof.
  intros Hw. unfold stuck, spec_gpio_init, spec_write, spec_mode.
  destruct (pin_phys _ Hscl) as [-> ->], (pin_phys _ Hsda) as [-> ->].
  rewrite !cfg_on_pin. repeat case_decide; (congruence || done).
Qed.

(** Setting up a bus whose slave keeps the data line low, and does not let go in nine clocks:
    the clock line stays driven low, and then START is none. *)
Lemma init_leaves_clock_low s b :
  sense 2 true false = false -> board_rel s b -> wire b (cfg_sda cfg) = false ->
  exists b', returns (rt_soft_i2c_init_bus cfg RT_EOK) s (ends_on tt b') /\
    dir (GpioSession.cfg b' (cfg_scl cfg)) = 2 /\ out (GpioSession.cfg b' (cfg_scl cfg)) = false.
Proof.
  intros Hs H Hw. eexists. split; [by apply init_bus_on|]. unfold spec_unlock. cbn [snd].
  pose proof (stuck_init b Hw) as Hst.
  assert (E : spec_read (cfg_sda cfg) (spec_gpio_init b) = 0).
  { unfold spec_read. destruct (pin_phys _ Hsda) as [-> ->]. destruct Hst as (_ & -> & -> & ->). by rewrite Hs. }
  rewrite E. cbn [Z.eqb]. destruct (stuck_clocks 8 _ Hst) as [(H1 & _) H2]. done.
Qed.
End pins.
